(* ===== verification/_CoqProject ===== *)
-Q . S2P
Prelude.v
PyVal.v
PyText.v
Hooks.v
CallContext.v
Kernel.v
Egress.v
Transport.v
PluginEgress.v
GovernedHttp.v
TurnLabel.v
Approvals.v
ApprovalService.v
ApprovalHook.v
Bots.v
SideEffects.v
Devices.v
Evaluator.v
ToolGates.v
CredentialBroker.v
ToolCall.v
ToolRunner.v
CapabilityFields.v
CapabilityCalls.v
AuditLog.v
ProofBundle.v
ModelRouting.v
TierEdits.v
Containment.v
Encodings.v
Tasks.v
PendingActions.v
Feedback.v
ActionCenter.v
Missions.v
HeartbeatRuns.v
Heartbeats.v
HealthWatch.v
ReactText.v
AgentLoop.v
