(* ===== verification/Prelude.v ===== *)
(** * Evarness: a verification library for the governance of an agent harness

    Evarness runs language-model agents on behalf of one owner. Its promises are about what
    an agent may not do: no private data to a cloud model, no irreversible tool call without
    the owner's approval and a record of it, no coding persona outside its tools, its
    directories and its hosts, and a ledger from which all of this can be checked later.
    This development models the parts of the program that keep those promises
    ([src/src/evarness/kernel/governance/], paths below are relative to it or to
    [src/src/evarness/]), the runner of tool and capability calls, the client of plugins'
    requests, the routing of model calls, the Action Center with the task list and the
    feedback it is made of, the missions that survive a crash, the scheduled jobs, the watch
    on the health checks and the agent's think-act-observe loop itself, and proves them.

    ** The parts and how they meet

    Everything meets in [GovernanceKernel.fire]: at a lifecycle point of a call it runs the
    hooks registered there in order, each reads the call's context and answers a decision,
    every answer is a row of the audit ledger, and the first refusal ends the pass. A hook
    is a function of the context and of a world [W]; each component's state is a [Part] of
    that world, so that a theorem about one component holds in any world that has it.

    - [Prelude], [PyVal], [PyText]: the state-and-exception monad [M], computations that may
      raise, the table operations of the stores (update, select and count where, stable
      sorting), Python's values with [repr], truth and canonical JSON, text operations,
      instants, and the library's tactics.
    - [Hooks] ([hooks/types.py], [hooks/tool_payload.py]): points, contexts, decisions.
    - [CallContext] ([call_context.py]): the lineage of a call, in two bounded dicts.
    - [Kernel] ([kernel.py]): registration and lock, [fire], the rows it writes, and the
      relation [dispatched] that says in one line per rule what [fire] does.
    - [Egress] ([egress_policy.py], [plugins/egress_gate.py]): the table of classes and
      tiers, its validation and the gate at [PreLLMCall].
    - [Transport] ([runtime/egress_transport.py]), [PluginEgress] ([plugin_egress.py],
      [public_suffix.py], [plugins/plugin_egress.py]) and [GovernedHttp]
      ([runtime/governed_http.py]): where a connection may go, with [ipaddress]; which hosts
      a plugin may contact, and the hooks at [PreEgress] and [PostEgress]; a plugin's
      request from its arguments to the bounded response.
    - [TurnLabel] ([turn_label.py], [plugins/output_classifier.py],
      [plugins/capability_redaction.py], [hooks/result_text.py]): the label of a turn, what
      raises it, what of a capability's result is masked before, and the model calls it
      holds back.
    - [Approvals], [ApprovalService], [ApprovalHook] ([approvals/],
      [plugins/destructive_approval.py]): the table of requests with its conditional
      updates, the poll that waits for an answer, the answer and the sweep, and the hook
      that pins a declared call to an approved row.
    - [Bots] ([bots/], [plugins/bot_status.py]): identities and the hook that stops a
      revoked one.
    - [SideEffects] ([side_effects/], the two ledger hooks): the record made before an
      irreversible call and settled after it.
    - [Devices] ([devices/]): pairing codes, tokens and the throttle on wrong guesses.
    - [Evaluator] ([evaluator/]): the signals at [PostStep] and the worst verdict.
    - [ToolGates] ([plugins/tool_policy.py], [caller_policy.py], [persona_surface.py],
      [mcp_allowlist.py], [taint_policy.py]): the gates by a tool's name, with [fnmatch].
    - [Containment] ([plugins/command_sandbox.py], [network_egress.py], [fs_jail.py]): the
      gates by a call's arguments, with [shlex.split], [urllib.parse] and paths.
    - [CredentialBroker] ([plugins/credential_broker.py]): the last rewriting of a call,
      which puts the vault's secrets where its approved arguments name them.
    - [ToolCall]: the hooks of the other files composed at [PreToolUse].
    - [ToolRunner] ([agent/tool_runner.py]): one tool call from its arguments to what its
      caller is told, over that composition.
    - [CapabilityFields] ([foundation/capability_fields.py], [foundation/capabilities.py])
      and [CapabilityCalls] ([agent/tool_runner.py]): the text of a typed result by path and
      the copy rebuilt from it; the governed call and stream around a provider's code.
    - [AuditLog] ([audit/log.py], [sequence.py], [spool.py]): the writer of the ledger, its
      numbers, gap rows, spool, batches and compaction.
    - [ProofBundle] ([audit/proof_bundle.py]): the exported document and its verification.
    - [ModelRouting] ([llm/tier_router.py], [llm/locality.py], the governor of
      [llm/arbiter.py], [CodingLLMConfig] of [llm/client.py]): which model serves an intent,
      which provider it dials and the label it is governed by.
    - [TierEdits] ([llm/tier_edits.py], [foundation/settings/store.py]): the owner's saved
      edits of the tiers.
    - [Encodings]: JSON as [json.dumps] writes it and [json.loads] reads it, and URL-safe
      base64.
    - [Tasks] ([services/tasks/models.py], [store.py]): the validated models of tasks, goals
      and actions, and the task database.
    - [PendingActions] ([services/tasks/pending_actions.py]): the providers' passes over
      their slices of the task list, and the answer to an action.
    - [Feedback] ([services/learning/suppression.py]): the tokens of surfaced items, the
      ledger of verdicts and what it hides.
    - [ActionCenter] ([runtime/action_center.py], [services/health/models.py],
      [services/health/pending_actions.py], the routes of [action_center_routes.py] and of
      [session_routes.py], the tools of [runtime/react_tools.py]): the list of what needs
      the owner, made of the tasks, the health checks, the approvals and the memory's queue,
      and the ways to answer an item.

    - [Missions] ([services/missions/], [runtime/mission_proposals.py], [cli/mission.py],
      the missions' part of [EvarnessRuntime.startup]): tasks of several steps, checkpointed
      around every step and resumed when the program starts; the proposals that wait for the
      owner.
    - [HeartbeatRuns] ([services/heartbeat/] but its scheduler): the kept runs of scheduled
      jobs, the slots a schedule names, the verdict on whether the last one ran, schedules
      in words, the configuration.
    - [Heartbeats] ([services/heartbeat/scheduler.py], [services/health/jobs.py], the
      heartbeat routes of [settings_routes.py]): the jobs a deployment and its plugins
      declare, the owner's edits over them, one run of a job at a time, and the checks on
      watched jobs.
    - [HealthWatch] ([services/health/watch.py], [incidents.py], [repair.py]): the incidents
      of red checks, from the confirmation over the repairs and the notices to the end.
    - [ReactText] ([agent/agentic_core.py], [agent/answer_guard.py],
      [agent/context_budget.py]): how a model's reply is read, what counts as a claim, which
      results can be shown, and how the transcript is trimmed.
    - [AgentLoop] ([AgenticCore] of [agent/agentic_core.py], [memory/state/chat.py]): the
      loop with its guards, its calls through [ToolRunner], its pauses for the owner with
      their checkpoints, the settling of an approval and the resumed run.

    The interfaces between them are classes: [Part] and [PartLaws] (a component's state in a
    world), [Apart] (two parts are independent), [Respects] with [RespectsHook],
    [RespectsKernel] and [RespectsEnv] (whatever a step, a hook, a kernel or a ledger does
    stays inside a relation on worlds; [BookHook], [BookKernel] and [BookEnv] are its
    instances for the approvals table and the side-effect ledger), [KeepsEgress] and
    [EgressKernel] (what a request needs of the kernel it asks), [SurfacesOk] (what the
    ledger, the runtime and the notices leave of the approvals table), [LedgerSink] with
    [QuietHook] and [QuietKernel] (what the kernel needs of the ledger and of the other
    hooks), [MissionClock] and [HeartClock] (what a world owes the missions and the
    heartbeats), [CronLaws] (what the slots need of a trigger), [WatchWorld] (what a
    notifier leaves alone), [LoopWorld] (what the loop's surroundings leave in its log), and
    [ZlibLaws] (what decoding needs of [zlib]). The theorems of a client are proved against
    them and the components' files give the instances.

    ** What the theorems show

    The name after a number is the theorem's; its doc comment says it in full.

    - The kernel: [fire] is the dispatch relation (C1, a refinement); an allowed effect has
      a kept row for each hook (C2); a bot's identity cannot be claimed by a caller (C3).
    - From end to end: a tool's code runs only past the policy, the owner and the ledger,
      with the arguments the owner approved and the vault's values for the handles in them,
      and its caller gets what the last verdict hands on (C4); a capability hands out copies
      of judged text only (C11); a plugin's request goes where the policy allowed it, to a
      checked address, and no further (C12); once a turn holds a secret, no model call of it
      leaves the machine (C13).
    - The loop: whatever the model says, no step's call is repeated (C5), a run has at most
      one call a turn and ends in an answer (C10); an approval's calls run only as pinned
      and approved, and the run is told their results (C6), a write is not confirmed without
      a question (C7), a claimed change follows a call that can change something, or names
      an earlier request (C8), and a resumed run is the loop over what was stored (C9).
    - Privacy: a kernel that holds the egress gate (C15); the routing of model calls: a
      call's label is where its provider runs, so [secret] data passes only toward a local
      provider (C38); routing stays well formed and a config is never refused for its
      provider (C40); the owner's edits survive a reload (C39).
    - Approvals: the lifecycle of a row (C16), the poll ends (C17), an answer survives what
      fails after it (C18), the hook allows only an approved and unspent call (C31).
    - Identities, devices, effects: C32, C36 and C35.
    - What needs the owner: the task database stays sound (C33); a provider's pass settles
      its slice and is idempotent (C30); a token reaches its item and no other (C34); an
      action's code runs once and only as offered (C20), an answered card leaves the list
      (C21); a running mission finishes whatever crashes interrupt it (C22, liveness), and a
      goal is proposed once while it is open (C23).
    - Scheduled jobs: one run at a time in every interleaving (C26); a run ends in a record
      whatever its handler does (C29); what the verdict on a job means (C27); the owner's
      edits survive a restart (C28).
    - Health checks: a pass of the watch is one step of every check's life (C24), and a
      check that stays red reaches its owner (C25, liveness).
    - The gates of a tool call by its arguments: a command line is judged by the words it
      was quoted from, and a URL by the host and port it was rendered from (C14).
    - The ledger: the writer catches up once failures stop (C19, liveness); what a verified
      proof bundle vouches for (C37).

    Theorems without a number are steps of these that stand on their own: among them the
    host policy as its declarative reading ([decide_egress_exact]), the tool policy
    ([tool_policy_exact]), results whose texts are all covered and rebuilt
    ([declared_fields_suffice], [unmasked_round_trip]), the numbers of the ledger
    ([every_number_accounted]), an item called not useful ([not_useful_removes_item]), the
    trimmed transcript ([trim_history_newest]), the composition of the hooks at [PreToolUse]
    ([governed_tool_call]), connections that go only outside ([connects_only_outside]), what
    a row may hold ([audit_payload_closed]), the items of a governed stream
    ([governed_stream_items]) and what a failure tells ([failure_tells_class_only]), the
    taint gate over its cache ([taint_gate_fails_closed]), a revoked bot's last call
    ([bot_denied_within_ttl]), rewritten text ([rewritten_text_read_back]), the histories of
    the two ledgers ([ledger_history], [recorded_row_survives]), the round trips of JSON and
    base64 ([loads_json_dumps], [loads_compact], [b64_round_trip]), the roll-up of the
    feedback ([summary_counts_decisions]), an export that fails its verification only for an
    invariant ([export_only_fails_invariants]), the evaluator's worst verdict
    ([evaluator_worst_wins]), one execution per approval ([approved_call_runs_once]),
    contained calls inside the kernel ([contained_call_gets_out]), decoding within the cap
    ([decode_bounded]), a kept run that is read back as the last ([kept_run_is_last]), the
    passes of all providers within their slices ([reconcile_all_in_slices]), the proof
    bundle's verification as a specification of what it accepts ([verify_bundle_exact]), an
    atomic compaction, one announcement of a lapse, the throttle's window, and a signal that
    counts its own run.

    Examples named in the findings evaluate the definitions on inputs where the code does
    something its documentation does not say.

    ** Bounds, fuel and representation

    - An instant is a number of microseconds; the program compares the texts
      [datetime.isoformat] gives, which order the same way for the instants it writes.
      Clocks, fresh identifiers, digests, and the failures of SQLite or of the file system
      are arguments of the operation that meets them, so a theorem holds for all of them.
    - Text is made of one-byte characters, and case folding is that of ASCII.
    - A float is its [repr]; what the code asks of one (a conversion, a comparison with a
      bound) is an argument. A JSON column is the value it encodes.
    - Recursion is structural, but for a few functions with fuel: [replace_fuel],
      [set_ranges] and [parse_glob] are given the length of the text, which each step
      shortens, and so is the reader of JSON [read_value] (the length is enough for what
      [json_dumps] writes, [need_length]), [inflate] is given [inflate_fuel], which the laws
      of [zlib] make enough, and the poll of [await_approval] is proved to end for every
      clock that advances, with the number of rounds it takes.
    - Integers and instants are unbounded, and a duration of whole seconds is a number of
      microseconds. Where the code bounds a number (the retained call ids, the slots of a
      schedule, sixteen gap rows a write, five guesses at a code, three polls to throttle)
      the bound is a definition and the theorems are about it.
    - A table is the list of its rows in insertion order; a transaction is one function, as
      SQLite's locking makes it, and interleavings are sequences of operations.

    ** Not modelled

    APScheduler: a cron trigger is an arbitrary function to the next time it fires, and the
    slots of a schedule are stepped through as instants (in the hour a zone repeats,
    Python's arithmetic on wall-clock times may step back). The classifiers, redaction and
    detectors built on regular expressions, embeddings or floating point scores; encryption,
    signatures and the vault, which the credential broker asks; model servers, MCP servers
    and other network I/O; the streaming form of the agent loop and the text of its prompt,
    the runtime and the server but for the Action Center, memory, the other services and the
    command line, which call the modelled parts. A provider of actions is an arbitrary
    operation on the world the task store is a part of, a health snapshot and the memory's
    counts are arguments; a repairer of a check and the credential probe are operations that
    leave the incidents and the watch alone. A hook of these meets the theorems as an
    arbitrary hook. Inside the modelled parts: log lines, the once-only warnings, schema
    migrations and rows written before the identity columns existed, locks between threads
    and the check for a forked process, the cost column and the caller filter of the
    ledger's queries, the modification-time caches of configuration files but the taint
    policy's, and the reading of YAML and of JSON files and columns, of which the parsed
    value is the input; [json.loads] is modelled for the tokens of surfaced items. *)

From stdpp Require Export base gmap strings list sorting pretty.
From Stdlib Require Export ZArith Lia Ascii.
From stdpp Require Import options.

Declare Scope gov_scope.
Delimit Scope gov_scope with gov.
Open Scope gov_scope.

(** ** Python exceptions and the state-and-exception monad

    A Python exception is its class name and its [str()].  A stateful Python call that may
    raise is a function of the state it reads and writes: what it did to the state before
    raising is kept, as in the source. *)

Record exn := Exn { exn_class : string; exn_str : string }.

Inductive res (A : Type) : Type :=
| Ok (a : A)
| Raise (e : exn).
Arguments Ok {A} a.
Arguments Raise {A} e.

#[export] Instance exn_eq_dec : EqDecision exn.
Proof. solve_decision. Defined.
#[export] Instance res_eq_dec `{EqDecision A} : EqDecision (res A).
Proof. solve_decision. Defined.

(** A computation that reads no state and may raise. *)
Definition res_bind {A B} (m : res A) (k : A → res B) : res B :=
  match m with Ok a => k a | Raise e => Raise e end.
Notation "'let!' x := m 'in' k" := (res_bind m (λ x, k))
  (at level 10, x pattern, m at level 100, k at level 200) : gov_scope.

(** The same for every element, in order, up to the first that raises. *)
Fixpoint res_all {A B} (f : A → res B) (l : list A) : res (list B) :=
  match l with
  | [] => Ok []
  | a :: l' => let! b := f a in let! bs := res_all f l' in Ok (b :: bs)
  end.

Definition M (S A : Type) : Type := S → res A * S.

#[export] Instance M_ret (S : Type) : MRet (M S) := λ A a s, (Ok a, s).
#[export] Instance M_bind (S : Type) : MBind (M S) := λ A B k m s,
  match m s with
  | (Ok a, s') => k a s'
  | (Raise e, s') => (Raise e, s')
  end.

Section monad.
Context {S : Type}.

Definition raise {A} (e : exn) : M S A := λ s, (Raise e, s).
Definition get_state : M S S := λ s, (Ok s, s).
Definition gets {A} (f : S → A) : M S A := λ s, (Ok (f s), s).
Definition modify (f : S → S) : M S unit := λ s, (Ok tt, f s).

(** A computation that reads no state, as one that may. *)
Definition lift_res {A} (r : res A) : M S A := λ s, (r, s).

(** [try: m except Exception as exc: h exc] *)
Definition try_except {A} (m : M S A) (h : exn → M S A) : M S A := λ s,
  match m s with
  | (Ok a, s') => (Ok a, s')
  | (Raise e, s') => h e s'
  end.

(** A computation on a part of the state. *)
Definition zoom {T A} (view : S → T) (put : T → S → S) (m : M T A) : M S A := λ s,
  let '(r, t) := m (view s) in (r, put t s).
End monad.

(** A component's state inside the world a larger computation runs in. *)
Class Part (W T : Type) := { part : W → T; set_part : T → W → W }.

Class PartLaws (W T : Type) `{!Part W T} : Prop := {
  part_set (t : T) (w : W) : part (set_part t w) = t;
  set_part_part (w : W) : set_part (part w) w = w;
}.

(** A component's part is untouched by a write of another component's. *)
Class Apart (W A B : Type) `{!Part W A, !Part W B} : Prop :=
  apart (a : A) (w : W) : part (T := B) (set_part a w) = part w.

Definition on_part {W T A} `{!Part W T} (m : M T A) : M W A := zoom part set_part m.

#[export] Instance whole_part (W : Type) : Part W W := {| part := id; set_part := λ t _, t |}.
#[export] Instance whole_part_laws (W : Type) : PartLaws W W.
Proof. by split. Qed.

(** What a computation may do to its state, as a preorder it stays within however it ends: the
    interface by which components that share a world state what they leave alone. *)
Class Respects {S A} (R : S → S → Prop) (m : M S A) : Prop := respects s : R s (snd (m s)).

Section respecting.
Context {S : Type} (R : S → S → Prop) `{!PreOrder R}.

#[export] Instance respects_ret {A} (a : A) : Respects R (mret a : M S A).
Proof using All. intros s. simpl. reflexivity. Qed.
#[export] Instance respects_raise {A} e : Respects R (raise e : M S A).
Proof using All. intros s. simpl. reflexivity. Qed.
#[export] Instance respects_gets {A} (f : S → A) : Respects R (gets f).
Proof using All. intros s. simpl. reflexivity. Qed.
#[export] Instance respects_lift {A} (r : res A) : Respects R (lift_res r).
Proof using All. intros s. simpl. reflexivity. Qed.

#[export] Instance respects_bind {A B} (m : M S A) (f : A → M S B) :
  Respects R m → (∀ a, Respects R (f a)) → Respects R (m ≫= f).
Proof using All.
  intros Hm Hf s. specialize (Hm s). unfold mbind, M_bind.
  destruct (m s) as [[a|e] s']; [|done]. simpl in Hm. etrans; [exact Hm|apply Hf].
Qed.

#[export] Instance respects_try {A} (m : M S A) h :
  Respects R m → (∀ e, Respects R (h e)) → Respects R (try_except m h).
Proof using All.
  intros Hm Hh s. specialize (Hm s). unfold try_except.
  destruct (m s) as [[a|e] s']; [done|]. simpl in Hm. etrans; [exact Hm|apply Hh].
Qed.
End respecting.

Notation "'try' m 'except' e => h" := (try_except m (λ e, h))
  (at level 10, m at level 100, e name, h at level 200) : gov_scope.

(** [result] and final state of a run. *)
Abbreviation run_res m s := (fst (m s)).
Abbreviation run_state m s := (snd (m s)).

(** ** Generic lemmas on lists *)

(** The SQL statements the stores use, over a table kept as the list of its rows in
    insertion (rowid) order. *)
Definition update_where {R} (p : R → bool) (f : R → R) (t : list R) : list R :=
  map (λ r, if p r then f r else r) t.

Definition select_where {R} (p : R → bool) (t : list R) : list R := List.filter p t.

Definition count_where {R} (p : R → bool) (t : list R) : nat :=
  length (select_where p t).

Definition select_one {R} (p : R → bool) (t : list R) : option R := List.find p t.

(** A stable insertion sort: [list.sort(key=...)] and [ORDER BY] (ties in rowid order). *)
Fixpoint insert_by {A} (key : A → Z) (x : A) (l : list A) : list A :=
  match l with
  | [] => [x]
  | y :: l' => if (key x <? key y)%Z then x :: l else y :: insert_by key x l'
  end.

Definition sort_by {A} (key : A → Z) (l : list A) : list A :=
  fold_left (λ acc x, insert_by key x acc) l [].

(** Python's [max(l, key=...)]: the first of the largest. *)
Fixpoint max_by_from {A} (key : A → Z) (best : A) (l : list A) : A :=
  match l with
  | [] => best
  | x :: l' => max_by_from key (if (key best <? key x)%Z then x else best) l'
  end.

Definition max_by {A} (key : A → Z) (l : list A) : option A :=
  match l with
  | [] => None
  | x :: l' => Some (max_by_from key x l')
  end.

(** ** Python strings

    A [str] is its sequence of characters; the model covers the characters of one byte. *)

Open Scope string_scope.
Open Scope nat_scope.
Open Scope list_scope.

Definition ascii_lower (c : ascii) : ascii :=
  let n := N_of_ascii c in
  if (65 <=? n)%N && (n <=? 90)%N then ascii_of_N (n + 32) else c.

Fixpoint str_map (f : ascii → ascii) (s : string) : string :=
  match s with
  | EmptyString => EmptyString
  | String c s' => String (f c) (str_map f s')
  end.

(** [s.lower()] *)
Definition str_lower : string → string := str_map ascii_lower.

Definition is_space (c : ascii) : bool :=
  let n := N_of_ascii c in
  ((9 <=? n) && (n <=? 13) || (28 <=? n) && (n <=? 32) || (n =? 133) || (n =? 160))%N.

Fixpoint lstrip (s : string) : string :=
  match s with
  | String c s' => if is_space c then lstrip s' else s
  | EmptyString => EmptyString
  end.

(** [s.strip()] *)
Definition str_strip (s : string) : string := String.rev (lstrip (String.rev (lstrip s))).

(** [s.startswith(p)] *)
Definition startswith (p s : string) : bool := String.prefix p s.

(** [p in s], and [c in s] for one character. *)
Fixpoint str_contains (p s : string) : bool :=
  String.prefix p s ||
  match s with
  | EmptyString => false
  | String _ s' => str_contains p s'
  end.

(** [bool(s)] *)
Definition str_truthy (s : string) : bool :=
  match s with EmptyString => false | _ => true end.

Definition str_in (x : string) (l : list string) : bool := existsb (String.eqb x) l.

Fixpoint join (sep : string) (l : list string) : string :=
  match l with
  | [] => ""
  | [x] => x
  | x :: l' => x +:+ sep +:+ join sep l'
  end.

(** [repr] of a [str]: single quotes unless the text has one and no double quote; a
    backslash, the quote and the non-printable characters are escaped. *)
Definition hex_digit (n : N) : ascii :=
  if (n <? 10)%N then ascii_of_N (48 + n) else ascii_of_N (87 + n).

Definition hex2 (n : N) : string :=
  String (hex_digit (n / 16)) (String (hex_digit (n mod 16)) EmptyString).

Definition char_is (n : N) (c : ascii) : bool := (N_of_ascii c =? n)%N.

Definition repr_char (quote c : ascii) : string :=
  if Ascii.eqb c quote || char_is 92 c then String (ascii_of_N 92) (String c EmptyString)
  else if char_is 10 c then String (ascii_of_N 92) "n"
  else if char_is 13 c then String (ascii_of_N 92) "r"
  else if char_is 9 c then String (ascii_of_N 92) "t"
  else
    let n := N_of_ascii c in
    if ((n <? 32) || (127 <=? n) && (n <? 161) || (n =? 173))%N
    then String (ascii_of_N 92) (String (ascii_of_N 120) (hex2 n))
    else String c EmptyString.

Fixpoint str_any (p : ascii → bool) (s : string) : bool :=
  match s with
  | EmptyString => false
  | String c s' => p c || str_any p s'
  end.

Fixpoint str_concat_map (f : ascii → string) (s : string) : string :=
  match s with
  | EmptyString => EmptyString
  | String c s' => f c +:+ str_concat_map f s'
  end.

Definition py_repr (s : string) : string :=
  let quote := if str_any (char_is 39) s && negb (str_any (char_is 34) s)
               then ascii_of_N 34 else ascii_of_N 39 in
  String quote (str_concat_map (repr_char quote) s +:+ String quote EmptyString).

(** [x or y] on optional strings, where [None] and [""] are false. *)
Definition or_str (x : option string) (y : string) : string :=
  match x with
  | Some s => if str_truthy s then s else y
  | None => y
  end.

(** ** Facts about the table operations *)

Create HintDb gov discriminated.

Section tables.
Context {R : Type}.
Implicit Types (p : R → bool) (f : R → R) (t : list R).

Lemma length_update_where p f t : length (update_where p f t) = length t.
Proof. apply length_map. Qed.

Lemma update_where_app p f t1 t2 :
  update_where p f (t1 ++ t2) = update_where p f t1 ++ update_where p f t2.
Proof. apply map_app. Qed.

Lemma elem_of_update_where p f t r :
  r ∈ update_where p f t ↔
  ∃ r0, r0 ∈ t ∧ r = if p r0 then f r0 else r0.
Proof.
  unfold update_where. rewrite list_elem_of_fmap.
  split; intros (r0 & H1 & H2); exists r0; auto.
Qed.

Lemma elem_of_select_where p t r : r ∈ select_where p t ↔ r ∈ t ∧ p r = true.
Proof.
  unfold select_where. rewrite !list_elem_of_In, filter_In. done.
Qed.

Lemma select_one_Some p t r : select_one p t = Some r → r ∈ t ∧ p r = true.
Proof.
  intros [? ?]%find_some. by rewrite list_elem_of_In.
Qed.

Lemma select_one_None p t r : select_one p t = None → r ∈ t → p r = false.
Proof.
  intros Hn Hr%list_elem_of_In. by apply (find_none _ _ Hn).
Qed.

Lemma update_where_none p f t :
  count_where p t = 0 → update_where p f t = t.
Proof.
  unfold count_where, select_where, update_where.
  induction t as [|r t IH]; simpl; [done|].
  destruct (p r); simpl; [done|]. intros ?. by rewrite IH.
Qed.

Lemma count_where_pos p t r : r ∈ t → p r = true → 0 < count_where p t.
Proof.
  intros Hr Hp. unfold count_where.
  assert (r ∈ select_where p t) as Hin by (apply elem_of_select_where; done).
  destruct (select_where p t); simpl; [|lia]. by apply elem_of_nil in Hin.
Qed.

Lemma count_where_zero p t : count_where p t = 0 ↔ ∀ r, r ∈ t → p r = false.
Proof.
  split.
  - intros H0 r Hr. destruct (p r) eqn:Hp; [|done].
    pose proof (count_where_pos p t r Hr Hp). lia.
  - unfold count_where, select_where. induction t as [|r t IH]; simpl; [done|].
    intros H. rewrite (H r) by apply list_elem_of_here. apply IH.
    intros r' Hr'. apply H. by apply list_elem_of_further.
Qed.

(** A key that an update keeps identifies the same rows before and after. *)
Lemma map_update_where {K} (key : R → K) p f t :
  (∀ r, key (f r) = key r) → map key (update_where p f t) = map key t.
Proof.
  intros Hk. unfold update_where. rewrite map_map. apply map_ext.
  intros r. destruct (p r); auto.
Qed.

Lemma select_one_update_where (q p : R → bool) f t :
  (∀ r, q (f r) = q r) →
  select_one q (update_where p f t)
  = (λ r, if p r then f r else r) <$> select_one q t.
Proof.
  intros Hq. unfold select_one, update_where.
  induction t as [|r t IH]; simpl; [done|].
  replace (q (if p r then f r else r)) with (q r) by (destruct (p r); auto).
  destruct (q r); simpl; auto.
Qed.

Lemma select_one_app q t1 t2 :
  select_one q (t1 ++ t2)
  = match select_one q t1 with Some r => Some r | None => select_one q t2 end.
Proof.
  unfold select_one. induction t1 as [|r t1 IH]; simpl; [done|].
  by destruct (q r).
Qed.

Lemma select_where_app p t1 t2 :
  select_where p (t1 ++ t2) = select_where p t1 ++ select_where p t2.
Proof. apply List.filter_app. Qed.

(** A unique key pins one row. *)
Lemma unique_key {K} (key : R → K) t r1 r2 :
  NoDup (map key t) → r1 ∈ t → r2 ∈ t → key r1 = key r2 → r1 = r2.
Proof.
  induction t as [|r t IH]; simpl; [by intros _ ?%elem_of_nil|].
  intros [Hn Hd]%NoDup_cons H1 H2 Hk.
  apply elem_of_cons in H1 as [->|H1]; apply elem_of_cons in H2 as [->|H2]; auto.
  - destruct Hn. rewrite Hk. by apply list_elem_of_fmap_2.
  - destruct Hn. rewrite <- Hk. by apply list_elem_of_fmap_2.
Qed.

Lemma count_where_app p t1 t2 : count_where p (t1 ++ t2) = count_where p t1 + count_where p t2.
Proof. unfold count_where. by rewrite select_where_app, length_app. Qed.

#[export] Instance select_where_perm p : Proper ((≡ₚ) ==> (≡ₚ)) (select_where p).
Proof.
  intros t1 t2 Ht. unfold select_where. induction Ht as [|r t1 t2 Ht IH|r1 r2 t|t1 t2 t3 H1 IH1 H2 IH2];
    simpl.
  - done.
  - destruct (p r); by rewrite IH.
  - destruct (p r1), (p r2); try done. apply Permutation_swap.
  - by rewrite IH1.
Qed.

#[export] Instance count_where_perm p : Proper ((≡ₚ) ==> (=)) (count_where p).
Proof. intros t1 t2 Ht. unfold count_where. by rewrite Ht. Qed.

Lemma count_where_select p q t :
  count_where p (select_where q t) = count_where (λ r, p r && q r) t.
Proof.
  unfold count_where, select_where. induction t as [|r t IH]; simpl; [done|].
  destruct (q r); simpl; destruct (p r); simpl; auto.
Qed.

(** A unique string key selects at most one row. *)
Lemma count_where_key (key : R → string) (q : R → bool) k t :
  NoDup (map key t) →
  count_where (λ r, String.eqb (key r) k && q r) t
  = match select_one (λ r, String.eqb (key r) k) t with
    | Some r => if q r then 1 else 0
    | None => 0
    end.
Proof.
  unfold select_one. induction t as [|r t IH]; simpl; [done|].
  intros [Hn Hd]%NoDup_cons. unfold count_where, select_where in *. simpl.
  destruct (String.eqb_spec (key r) k) as [Hk|Hk]; simpl; [|by apply IH].
  assert (length (List.filter (λ r, String.eqb (key r) k && q r) t) = 0) as H0.
  { apply (count_where_zero (λ r, String.eqb (key r) k && q r)). intros r' Hr'.
    destruct (String.eqb_spec (key r') k) as [Hk'|]; [|done].
    destruct Hn. rewrite Hk, <- Hk'. by apply list_elem_of_fmap_2. }
  destruct (q r); simpl; lia.
Qed.

Lemma select_one_key_None (key : R → string) k t :
  select_one (λ r, String.eqb (key r) k) t = None ↔ k ∉ map key t.
Proof.
  unfold select_one. induction t as [|r t IH]; simpl.
  { split; [by intros _ ?%elem_of_nil|done]. }
  rewrite not_elem_of_cons.
  destruct (String.eqb_spec (key r) k) as [Hk|Hk]; [split; [done|intros [? _]; congruence]|].
  rewrite IH. split; [by intros ?|tauto].
Qed.

Lemma select_one_key_Some (key : R → string) k t r :
  NoDup (map key t) →
  select_one (λ r, String.eqb (key r) k) t = Some r ↔ r ∈ t ∧ key r = k.
Proof.
  intros Hd. split.
  - by intros [? ?%String.eqb_eq]%select_one_Some.
  - intros [Hr Hk]. destruct (select_one _ t) as [r'|] eqn:Hs.
    + apply select_one_Some in Hs as [Hr' Hk'%String.eqb_eq].
      f_equal. apply (unique_key key t); congruence.
    + apply select_one_key_None in Hs. destruct Hs. rewrite <- Hk. by apply list_elem_of_fmap_2.
Qed.
End tables.

Lemma select_where_cons {A} (p : A → bool) x l :
  select_where p (x :: l) = if p x then x :: select_where p l else select_where p l.
Proof. done. Qed.

Lemma select_where_nil {A} (q : A → bool) l : (∀ x, x ∈ l → q x = false) → select_where q l = [].
Proof.
  induction l as [|x l IH]; [done|]. intros H. rewrite select_where_cons, (H x) by left. apply IH. intros y Hy. apply H. by right.
Qed.

Lemma select_where_and {A} (p q : A → bool) l : select_where q (select_where p l) = select_where (λ x, p x && q x) l.
Proof. induction l as [|x l IH]; [done|]. rewrite !select_where_cons. destruct (p x); cbn [andb]; rewrite ?select_where_cons, IH; done. Qed.

Lemma nodup_select {A} (key : A → string) (p : A → bool) l : NoDup (map key l) → NoDup (map key (select_where p l)).
Proof.
  induction l as [|x l IH]; [done|]. cbn [map]. intros [Hx Hl]%NoDup_cons. rewrite select_where_cons. destruct (p x); [|by apply IH].
  cbn. constructor; [|by apply IH]. intros (r & He & [Hr _]%elem_of_select_where)%list_elem_of_fmap. apply Hx. rewrite He.
  by apply list_elem_of_fmap_2.
Qed.

Lemma select_where_all {A} (p : A → bool) l : (∀ x, x ∈ l → p x = true) → select_where p l = l.
Proof.
  induction l as [|x l IH]; [done|]. intros H. rewrite select_where_cons, (H x) by left. f_equal. apply IH. intros y Hy. apply H. by right.
Qed.

Lemma select_where_ext {A} (p q : A → bool) l : (∀ x, p x = q x) → select_where p l = select_where q l.
Proof. intros H. induction l as [|x l IH]; [done|]. rewrite !select_where_cons, H. by rewrite IH. Qed.

Lemma select_where_nodup {A} (p : A → bool) l : NoDup l → NoDup (select_where p l).
Proof.
  induction 1 as [|x l Hx _ IH]; [by constructor|]. rewrite select_where_cons. destruct (p x); [|done]. constructor; [|done].
  by intros [Hin _]%elem_of_select_where.
Qed.


Section sorting_facts.
Context {A : Type} (key : A → Z).
Implicit Types (l : list A).

Lemma insert_by_perm x l : insert_by key x l ≡ₚ x :: l.
Proof.
  induction l as [|y l IH]; simpl; [done|].
  destruct (key x <? key y)%Z; [done|]. rewrite IH. constructor.
Qed.

Lemma sort_by_acc_perm l acc : fold_left (λ a x, insert_by key x a) l acc ≡ₚ acc ++ l.
Proof.
  revert acc. induction l as [|x l IH]; intros acc; simpl; [by rewrite app_nil_r|].
  rewrite IH, insert_by_perm. simpl. apply Permutation_middle.
Qed.

Lemma sort_by_perm l : sort_by key l ≡ₚ l.
Proof. unfold sort_by. by rewrite sort_by_acc_perm. Qed.

Definition key_le (x y : A) : Prop := (key x ≤ key y)%Z.

Lemma insert_by_sorted x l :
  StronglySorted key_le l → StronglySorted key_le (insert_by key x l).
Proof.
  induction 1 as [|y l Hs IH Hf]; simpl; [repeat constructor|].
  destruct (Z.ltb_spec (key x) (key y)) as [Hlt|Hge].
  - constructor; [by constructor|]. constructor; [unfold key_le; lia|].
    eapply Forall_impl; [exact Hf|]. unfold key_le. intros; lia.
  - constructor; [done|]. rewrite insert_by_perm. constructor; [unfold key_le; lia|done].
Qed.

Lemma sort_by_sorted l : StronglySorted key_le (sort_by key l).
Proof.
  unfold sort_by. assert (StronglySorted key_le []) as Hn by constructor.
  revert Hn. generalize (@nil A) as acc.
  induction l as [|x l IH]; intros acc Hacc; simpl; [done|].
  apply IH. by apply insert_by_sorted.
Qed.

(** In a sorted list a new element goes after every element with the same key. *)
Lemma insert_by_stable x l k :
  StronglySorted key_le l →
  select_where (λ y, (key y =? k)%Z) (insert_by key x l)
  = select_where (λ y, (key y =? k)%Z) l ++ (if (key x =? k)%Z then [x] else []).
Proof.
  induction 1 as [|y l Hs IH Hf]; simpl; [by destruct (key x =? k)%Z|].
  destruct (Z.ltb_spec (key x) (key y)) as [Hlt|Hge]; simpl.
  - destruct (Z.eqb_spec (key x) k) as [Hxk|Hxk]; [|by rewrite app_nil_r].
    assert (select_where (λ y, (key y =? k)%Z) (y :: l) = []) as He.
    { destruct (select_where _ (y :: l)) as [|z l'] eqn:E; [done|]. exfalso.
      assert (z ∈ select_where (λ y, (key y =? k)%Z) (y :: l)) as Hz by (rewrite E; left).
      apply elem_of_select_where in Hz as [Hz Hzk%Z.eqb_eq].
      apply elem_of_cons in Hz as [->|Hz]; [lia|].
      rewrite Forall_forall in Hf. specialize (Hf z Hz). unfold key_le in Hf. lia. }
    change (if (key y =? k)%Z then _ else _) with (select_where (λ y, (key y =? k)%Z) (y :: l)).
    by rewrite He.
  - rewrite IH. by destruct (key y =? k)%Z.
Qed.

Lemma sort_by_stable l k :
  select_where (λ y, (key y =? k)%Z) (sort_by key l)
  = select_where (λ y, (key y =? k)%Z) l.
Proof.
  unfold sort_by. assert (StronglySorted key_le []) as Hn by constructor.
  change (select_where _ l) with (select_where (λ y, (key y =? k)%Z) [] ++ select_where (λ y, (key y =? k)%Z) l).
  revert Hn. generalize (@nil A) as acc.
  induction l as [|x l IH]; intros acc Hacc; simpl; [by rewrite app_nil_r|].
  rewrite IH by (by apply insert_by_sorted).
  rewrite insert_by_stable by done. rewrite <- app_assoc.
  by destruct (key x =? k)%Z.
Qed.

Lemma sort_by_snoc l x : sort_by key (l ++ [x]) = insert_by key x (sort_by key l).
Proof. unfold sort_by. by rewrite fold_left_app. Qed.

Lemma insert_by_last x l :
  Forall (λ y, key y ≤ key x)%Z l → insert_by key x l = l ++ [x].
Proof.
  induction 1 as [|y l Hy Hf IH]; simpl; [done|].
  destruct (Z.ltb_spec (key x) (key y)); [lia|]. by rewrite IH.
Qed.

Lemma StronglySorted_snoc l x :
  StronglySorted key_le (l ++ [x]) → StronglySorted key_le l ∧ Forall (λ y, key y ≤ key x)%Z l.
Proof.
  induction l as [|y l IH]; simpl; [repeat constructor|].
  intros [Hs Hf]%StronglySorted_inv. apply IH in Hs as [Hs Hx].
  apply Forall_app in Hf as [Hf Hyx]. rewrite Forall_singleton in Hyx.
  split; [by constructor|]. constructor; [exact Hyx|done].
Qed.

Lemma sort_by_id l : StronglySorted key_le l → sort_by key l = l.
Proof.
  induction l as [|x l IH] using rev_ind; [done|].
  intros [Hs Hx]%StronglySorted_snoc. rewrite sort_by_snoc, IH by done.
  by apply insert_by_last.
Qed.

(** Sorting after every insertion is sorting once. *)
Lemma sort_by_resort l x : sort_by key (sort_by key l ++ [x]) = sort_by key (l ++ [x]).
Proof.
  rewrite !sort_by_snoc. by rewrite (sort_by_id (sort_by key l)) by apply sort_by_sorted.
Qed.

Lemma elem_of_sort_by x l : x ∈ sort_by key l ↔ x ∈ l.
Proof. by rewrite sort_by_perm. Qed.

Lemma length_sort_by l : length (sort_by key l) = length l.
Proof. apply Permutation_length, sort_by_perm. Qed.

Lemma max_by_from_in b l : max_by_from key b l ∈ b :: l.
Proof.
  revert b. induction l as [|x l IH]; intros b; simpl; [left|].
  destruct (key b <? key x)%Z.
  - right. apply IH.
  - specialize (IH b). apply elem_of_cons in IH as [->|H]; [left|by do 2 right].
Qed.

Lemma max_by_from_ge b l y : y ∈ b :: l → (key y ≤ key (max_by_from key b l))%Z.
Proof.
  revert b y. induction l as [|x l IH]; intros b y; simpl.
  - intros ->%list_elem_of_singleton. lia.
  - destruct (Z.ltb_spec (key b) (key x)) as [Hlt|Hge].
    + intros [->|Hy]%elem_of_cons; [|by apply IH].
      etrans; [|apply (IH x x); left]. lia.
    + intros [->|[->|Hy]%elem_of_cons]%elem_of_cons.
      * apply IH. left.
      * etrans; [|apply (IH b b); left]. lia.
      * apply IH. by right.
Qed.

Lemma max_by_Some l m :
  max_by key l = Some m → m ∈ l ∧ ∀ y, y ∈ l → (key y ≤ key m)%Z.
Proof.
  destruct l as [|x l]; simpl; [done|]. intros [= <-].
  split; [apply max_by_from_in|]. intros y. apply max_by_from_ge.
Qed.

Lemma max_by_None l : max_by key l = None ↔ l = [].
Proof. by destruct l. Qed.
End sorting_facts.

(** ** Computations that may raise *)

Lemma res_bind_ok {A B} (m : res A) (k : A → res B) b :
  res_bind m k = Ok b ↔ ∃ a, m = Ok a ∧ k a = Ok b.
Proof. destruct m as [a|e]; simpl; [|split; [done|by intros (?&?&?)]]. split; [eauto|by intros (?&[= <-]&?)]. Qed.

Lemma res_all_ok {A B} (f : A → res B) l bs : res_all f l = Ok bs ↔ Forall2 (λ a b, f a = Ok b) l bs.
Proof.
  revert bs. induction l as [|a l IH]; intros bs; simpl.
  - split; [intros [= <-]; constructor|by inversion 1].
  - rewrite res_bind_ok. split.
    + intros (b & Hb & (bs' & Hbs & [= <-])%res_bind_ok). constructor; [done|by apply IH].
    + inversion 1 as [|? b ? bs' Hb Hbs]; subst. exists b. split; [done|].
      apply res_bind_ok. exists bs'. split; [by apply IH|done].
Qed.

(** ** Facts about strings *)

Lemma string_eqb_refl s : String.eqb s s = true.
Proof. apply String.eqb_refl. Qed.

Lemma str_in_elem x l : str_in x l = true ↔ x ∈ l.
Proof.
  unfold str_in. rewrite existsb_exists, list_elem_of_In.
  split; [intros (y & Hy & ->%String.eqb_eq); done|].
  intros Hx. exists x. by rewrite String.eqb_refl.
Qed.

Lemma str_in_false x l : str_in x l = false ↔ x ∉ l.
Proof. rewrite <- str_in_elem. by destruct (str_in x l). Qed.

Lemma str_truthy_false s : str_truthy s = false ↔ s = "".
Proof. by destruct s. Qed.


(** ** The development's tactics *)

(** Case analysis on the boolean tests of a computation, with their equations. *)
Ltac split_ifs :=
  repeat match goal with
  | |- context [if ?b then _ else _] => destruct b eqn:?
  | H : context [if ?b then _ else _] |- _ => destruct b eqn:?
  end.

(** Turn the boolean tests of the hypotheses into propositions. *)
Ltac to_props :=
  repeat match goal with
  | H : (_ && _)%bool = true |- _ => apply andb_true_iff in H as [? ?]
  | H : (_ || _)%bool = false |- _ => apply orb_false_iff in H as [? ?]
  | H : negb _ = true |- _ => apply negb_true_iff in H
  | H : negb _ = false |- _ => apply negb_false_iff in H
  | H : String.eqb _ _ = true |- _ => apply String.eqb_eq in H
  | H : String.eqb _ _ = false |- _ => apply String.eqb_neq in H
  | H : (_ =? _)%Z = true |- _ => apply Z.eqb_eq in H
  | H : (_ =? _)%Z = false |- _ => apply Z.eqb_neq in H
  | H : (_ <=? _)%Z = true |- _ => apply Z.leb_le in H
  | H : (_ <=? _)%Z = false |- _ => apply Z.leb_gt in H
  | H : (_ <? _)%Z = true |- _ => apply Z.ltb_lt in H
  | H : (_ <? _)%Z = false |- _ => apply Z.ltb_ge in H
  | H : bool_decide _ = true |- _ => apply bool_decide_eq_true in H
  | H : bool_decide _ = false |- _ => apply bool_decide_eq_false in H
  end.

(** Run a monadic computation one bind at a time. *)
Ltac run_monad := unfold mbind, mret, M_bind, M_ret, gets, get_state, modify, raise, try_except in *.
