(* ===== verification/PyVal.v ===== *)
(** * Python values

    The dynamically typed values a hook payload, a metadata dict or a tool's arguments hold,
    with the operations of the language the kernel applies to them: truth value, [str],
    [repr], [dict.get] and the canonical JSON text ([json.dumps(..., sort_keys=True,
    default=str)]) that pins the arguments of an approved call. *)

From Stdlib Require OrdersEx.
From S2P Require Import Prelude.
From stdpp Require Import options.

(** A float is carried as its [repr]; an object of another class as its [str]. *)
Inductive pyval : Type :=
| VNone
| VBool (b : bool)
| VInt (z : Z)
| VFloat (repr : string)
| VStr (s : string)
| VList (l : list pyval)
| VDict (d : list (string * pyval))
| VObj (str : string).

(** A payload or a metadata dict. *)
Abbreviation dict := (gmap string pyval).

(** [bool(v)] *)
Definition truthy (v : pyval) : bool :=
  match v with
  | VNone => false
  | VBool b => b
  | VInt z => negb (z =? 0)%Z
  | VFloat r => negb (str_in r ["0.0"; "-0.0"]%string)
  | VStr s => str_truthy s
  | VList l => match l with [] => false | _ => true end
  | VDict d => match d with [] => false | _ => true end
  | VObj _ => true
  end.

(** [bool(d.get(k))] *)
Definition get_truthy (d : dict) (k : string) : bool :=
  match d !! k with Some v => truthy v | None => false end.

(** [d.get(k) is True] *)
Definition is_true (d : dict) (k : string) : bool :=
  match d !! k with Some (VBool true) => true | _ => false end.

(** [d.get(k) == s] for a string [s] *)
Definition eq_str (d : dict) (k : string) (s : string) : bool :=
  match d !! k with Some (VStr x) => String.eqb x s | _ => false end.

(** [d.get(k)] when it is a [str] *)
Definition get_str (d : dict) (k : string) : option string :=
  match d !! k with Some (VStr x) => Some x | _ => None end.

(** [d.get(k)] when it is a non-empty [str] *)
Definition get_nonempty (d : dict) (k : string) : option string :=
  match d !! k with
  | Some (VStr x) => if str_truthy x then Some x else None
  | _ => None
  end.

(** [repr(v)] *)
Fixpoint repr_val (v : pyval) : string :=
  match v with
  | VNone => "None"
  | VBool true => "True"
  | VBool false => "False"
  | VInt z => pretty z
  | VFloat r => r
  | VStr s => py_repr s
  | VList l => "[" +:+ join ", " (map repr_val l) +:+ "]"
  | VDict d => "{" +:+ join ", " (map (λ kv, py_repr kv.1 +:+ ": " +:+ repr_val kv.2) d) +:+ "}"
  | VObj s => s
  end.

(** [str(v)] *)
Definition str_val (v : pyval) : string :=
  match v with VStr s => s | _ => repr_val v end.

(** ** Canonical JSON *)

Definition json_char (c : ascii) : string :=
  let bs := ascii_of_N 92 in
  let n := N_of_ascii c in
  if char_is 34 c || char_is 92 c then String bs (String c EmptyString)
  else if (n =? 10)%N then String bs "n"
  else if (n =? 13)%N then String bs "r"
  else if (n =? 9)%N then String bs "t"
  else if (n =? 12)%N then String bs "f"
  else if (n =? 8)%N then String bs "b"
  else if ((n <? 32) || (126 <? n))%N then String bs ("u00" +:+ hex2 n)
  else String c EmptyString.

Definition dquote : string := String (ascii_of_N 34) EmptyString.

Definition json_str (s : string) : string := dquote +:+ str_concat_map json_char s +:+ dquote.

Fixpoint insert_kv {V} (kv : string * V) (l : list (string * V)) : list (string * V) :=
  match l with
  | [] => [kv]
  | kv' :: l' => if String.ltb kv.1 kv'.1 then kv :: l else kv' :: insert_kv kv l'
  end.

Definition sort_kv {V} (l : list (string * V)) : list (string * V) :=
  fold_left (λ acc kv, insert_kv kv acc) l [].

(** [sorted(l)] *)
Definition sorted (l : list string) : list string := map fst (sort_kv (map (λ s, (s, tt)) l)).

(** [str(v or "")] *)
Definition str_or_empty (v : option pyval) : string :=
  match v with Some x => if truthy x then str_val x else "" | None => "" end.

(** [json.dumps(v, sort_keys=True, default=str)] *)
Fixpoint json_dumps (v : pyval) : string :=
  match v with
  | VNone => "null"
  | VBool true => "true"
  | VBool false => "false"
  | VInt z => pretty z
  | VFloat r => r
  | VStr s => json_str s
  | VList l => "[" +:+ join ", " (map json_dumps l) +:+ "]"
  | VDict d =>
      "{" +:+ join ", " (map (λ kv, json_str kv.1 +:+ ": " +:+ kv.2)
                           (sort_kv (map (λ kv, (kv.1, json_dumps kv.2)) d))) +:+ "}"
  | VObj s => json_str s
  end.

(** ** Facts *)

Lemma get_nonempty_Some d k s :
  get_nonempty d k = Some s ↔ d !! k = Some (VStr s) ∧ str_truthy s = true.
Proof.
  unfold get_nonempty. split.
  - destruct (d !! k) as [[]|]; try done.
    destruct (str_truthy s0) eqn:E; [|done]. by intros [= ->].
  - intros [-> Ht]. by rewrite Ht.
Qed.

Lemma is_true_spec d k : is_true d k = true ↔ d !! k = Some (VBool true).
Proof.
  unfold is_true. destruct (d !! k) as [[]|]; try done.
  destruct b; done.
Qed.

Lemma eq_str_spec d k s : eq_str d k s = true ↔ d !! k = Some (VStr s).
Proof.
  unfold eq_str. destruct (d !! k) as [[]|]; try done.
  rewrite String.eqb_eq. split; [by intros ->|by intros [= ->]].
Qed.

Lemma insert_kv_perm {V} (kv : string * V) l : insert_kv kv l ≡ₚ kv :: l.
Proof.
  induction l as [|y l IH]; simpl; [done|]. destruct (String.ltb _ _); [done|].
  rewrite IH. by constructor.
Qed.

Lemma sort_kv_perm {V} (l : list (string * V)) : sort_kv l ≡ₚ l.
Proof.
  unfold sort_kv. enough (∀ acc, fold_left (λ acc kv, insert_kv kv acc) l acc ≡ₚ acc ++ l) as H by apply H.
  induction l as [|x l IH]; intros acc; simpl; [by rewrite app_nil_r|].
  rewrite IH, insert_kv_perm. simpl. apply Permutation_middle.
Qed.

Lemma string_lt_trans a b c : String.ltb a b = true → String.ltb b c = true → String.ltb a c = true.
Proof.
  unfold String.ltb. intros Hab Hbc.
  destruct (String.compare a b) eqn:H1; try done. destruct (String.compare b c) eqn:H2; try done.
  assert (OrdersEx.String_as_OT.lt a c) as Hac.
  { etransitivity; [exact H1|exact H2]. }
  assert (String.compare a c = Lt) as ->; [exact Hac|done].
Qed.

Lemma string_lt_asym a b : String.ltb a b = true → String.ltb b a = false.
Proof. unfold String.ltb. rewrite (String.compare_antisym b a). by destruct (String.compare a b). Qed.

(** No later key is smaller. *)
Definition keys_sorted {V} (l : list (string * V)) : Prop := StronglySorted (λ x y, String.ltb y.1 x.1 = false) l.

Lemma insert_kv_sorted {V} (x : string * V) l : keys_sorted l → keys_sorted (insert_kv x l).
Proof.
  unfold keys_sorted. induction 1 as [|y l Hl IH Hy]; cbn [insert_kv]; [by repeat constructor|].
  destruct (String.ltb x.1 y.1) eqn:Hxy.
  - constructor; [by constructor|]. constructor; [by apply string_lt_asym|]. eapply Forall_impl; [exact Hy|]. intros z Hz.
    apply not_true_iff_false. intros Hzx. cbn in Hz. by rewrite (string_lt_trans _ _ _ Hzx Hxy) in Hz.
  - constructor; [done|]. rewrite insert_kv_perm. by constructor.
Qed.

Lemma sort_kv_sorted {V} (l : list (string * V)) : keys_sorted (sort_kv l).
Proof.
  unfold sort_kv. enough (∀ acc, keys_sorted acc → keys_sorted (fold_left (λ acc kv, insert_kv kv acc) l acc)) as H by (apply H; constructor).
  induction l as [|x l IH]; intros acc Hacc; [done|]. cbn. by apply IH, insert_kv_sorted.
Qed.

Lemma insert_kv_last {V} (x : string * V) l : Forall (λ y, String.ltb x.1 y.1 = false) l → insert_kv x l = l ++ [x].
Proof. induction 1 as [|y l Hy _ IH]; [done|]. cbn. by rewrite Hy, IH. Qed.

(** Sorting what is sorted changes nothing. *)
Lemma sort_kv_id {V} (l : list (string * V)) : keys_sorted l → sort_kv l = l.
Proof.
  intros Hl. unfold sort_kv. enough (∀ acc, keys_sorted (acc ++ l) → fold_left (λ acc kv, insert_kv kv acc) l acc = acc ++ l) as H by by apply (H []).
  clear Hl. induction l as [|x l IH]; intros acc H; [by rewrite app_nil_r|]. cbn. rewrite insert_kv_last.
  - rewrite IH; by rewrite <- app_assoc.
  - clear IH. induction acc as [|y acc IHa]; [constructor|]. apply StronglySorted_inv in H as [Hs Hf]. constructor; [|by apply IHa].
    apply Forall_app in Hf as [_ [Hx _]%Forall_cons]. exact Hx.
Qed.

(** The rows of a map in the order of their keys are the map's. *)
Lemma list_to_map_sort_kv {V} (m : gmap string V) :
  NoDup (sort_kv (map_to_list m)).*1 ∧ list_to_map (sort_kv (map_to_list m)) = m.
Proof.
  assert (NoDup (sort_kv (map_to_list m)).*1) as Hd.
  { rewrite sort_kv_perm. apply NoDup_fst_map_to_list. }
  split; [done|]. rewrite (list_to_map_proper _ (map_to_list m)); [apply list_to_map_to_list|done|].
  apply sort_kv_perm.
Qed.

Example json_dumps_sorted :
  json_dumps (VDict [("b", VList [VInt (-3); VBool true]); ("a", VStr "x")])
  = "{" +:+ json_str "a" +:+ ": " +:+ json_str "x" +:+ ", "
        +:+ json_str "b" +:+ ": [-3, true]}".
Proof. vm_compute. reflexivity. Qed.

Example py_repr_quotes : py_repr "it's" = dquote +:+ "it's" +:+ dquote.
Proof. reflexivity. Qed.
