(* ===== verification/PyText.v ===== *)
(** * Python text and time

    The string operations the components use beyond the prelude's ([str.rpartition],
    [str.isdigit], [int], [str.replace]) and [datetime.isoformat] of a UTC instant. *)

From S2P Require Import Prelude.
From stdpp Require Import options.

(** [s.rpartition(c)] for one character, [None] when [c] is not in [s]. *)
Fixpoint rpartition (c : ascii) (s : string) : option (string * string) :=
  match s with
  | EmptyString => None
  | String a s' =>
      match rpartition c s' with
      | Some (l, r) => Some (String a l, r)
      | None => if Ascii.eqb a c then Some ("", s') else None
      end
  end.

Definition digit_val (c : ascii) : option Z :=
  let n := Z.of_N (N_of_ascii c) in
  if ((48 <=? n) && (n <=? 57))%Z then Some (n - 48)%Z else None.

(** [c.isdigit()]: the decimal digits and the superscripts 1, 2, 3. *)
Definition is_digit (c : ascii) : bool :=
  match digit_val c with
  | Some _ => true
  | None => char_is 178 c || char_is 179 c || char_is 185 c
  end.

Fixpoint str_all (p : ascii → bool) (s : string) : bool :=
  match s with
  | EmptyString => true
  | String c s' => p c && str_all p s'
  end.

(** [s.isdigit()] *)
Definition isdigit (s : string) : bool := str_truthy s && str_all is_digit s.

Fixpoint int_from (acc : Z) (s : string) : option Z :=
  match s with
  | EmptyString => Some acc
  | String c s' =>
      match digit_val c with
      | Some d => int_from (10 * acc + d) s'
      | None => None
      end
  end.

(** [int(s)] of a text of digits; a superscript is a digit that [int] refuses. *)
Definition int_of_digits (s : string) : res Z :=
  match (if str_truthy s then int_from 0 s else None) with
  | Some z => Ok z
  | None => Raise (Exn "ValueError"
              ("invalid literal for int() with base 10: " +:+ py_repr s))
  end.

(** [s.replace(old, new)], left to right, for a non-empty [old]. *)
Fixpoint str_drop (n : nat) (s : string) : string :=
  match n, s with
  | S n', String _ s' => str_drop n' s'
  | _, _ => s
  end.

Definition str_take (n : nat) (s : string) : string := String.substring 0 n s.

(** [s.split()]: the words between runs of whitespace. *)
Fixpoint words_from (word s : string) : list string :=
  match s with
  | EmptyString => if str_truthy word then [word] else []
  | String c r =>
      if is_space c then if str_truthy word then word :: words_from "" r else words_from "" r
      else words_from (word +:+ String c EmptyString) r
  end.
Definition str_split (s : string) : list string := words_from "" s.

Fixpoint replace_fuel (fuel : nat) (old new s : string) : string :=
  match fuel, s with
  | S f, String c s' =>
      if String.prefix old s then new +:+ replace_fuel f old new (str_drop (String.length old) s)
      else String c (replace_fuel f old new s')
  | _, _ => s
  end.

Definition str_replace (old new s : string) : string :=
  if str_truthy old then replace_fuel (String.length s) old new s else s.

(** ** Splitting *)

(** [s.partition(c)] for one character, [None] when [c] is not in [s]. *)
Fixpoint split_first (c : ascii) (s : string) : option (string * string) :=
  match s with
  | EmptyString => None
  | String a s' =>
      if Ascii.eqb a c then Some ("", s')
      else match split_first c s' with
           | Some (l, r) => Some (String a l, r)
           | None => None
           end
  end.

(** [s.split(c, 1)[0]] and [s.rsplit(c, 1)[-1]] *)
Definition before (c : ascii) (s : string) : string :=
  match split_first c s with Some (l, _) => l | None => s end.
Definition after_last (c : ascii) (s : string) : string :=
  match rpartition c s with Some (_, r) => r | None => s end.

(** [s.split(c)] *)
Fixpoint split_char (c : ascii) (s : string) : list string :=
  match s with
  | EmptyString => [""]
  | String a s' =>
      if Ascii.eqb a c then "" :: split_char c s'
      else match split_char c s' with
           | w :: ws => String a w :: ws
           | [] => [String a ""]
           end
  end.

(** [s.endswith(p)] *)
Definition endswith (p s : string) : bool := startswith (String.rev p) (String.rev s).

(** ** Characters *)

Definition ascii_alpha (c : ascii) : bool :=
  let n := N_of_ascii c in ((65 <=? n) && (n <=? 90) || (97 <=? n) && (n <=? 122))%N.

Definition ascii_upper (c : ascii) : ascii :=
  let n := N_of_ascii c in if ((97 <=? n) && (n <=? 122))%N then ascii_of_N (n - 32) else c.

(** [s.upper()] *)
Definition str_upper : string → string := str_map ascii_upper.

(** [s.isascii()] *)
Definition is_ascii (s : string) : bool := str_all (λ c, (N_of_ascii c <? 128)%N) s.

Fixpoint str_remove (p : ascii → bool) (s : string) : string :=
  match s with
  | EmptyString => EmptyString
  | String c s' => if p c then str_remove p s' else String c (str_remove p s')
  end.

(** ** Instants

    A UTC instant is its number of microseconds since 1970-01-01. *)

Definition SECOND : Z := 1000000.
Definition DAY : Z := 86400 * SECOND.

(** The proleptic Gregorian date of a day number. *)
Definition civil_of_days (day : Z) : Z * Z * Z :=
  (let z := day + 719468 in
   let era := z / 146097 in
   let doe := z mod 146097 in
   let yoe := (doe - doe / 1460 + doe / 36524 - doe / 146096) / 365 in
   let doy := doe - (365 * yoe + yoe / 4 - yoe / 100) in
   let mp := (5 * doy + 2) / 153 in
   let d := doy - (153 * mp + 2) / 5 + 1 in
   let m := if mp <? 10 then mp + 3 else mp - 9 in
   (yoe + era * 400 + (if m <=? 2 then 1 else 0), m, d))%Z.

(** [n] in decimal, zero-padded to [width] digits. *)
Fixpoint padded (width : nat) (n : Z) : string :=
  match width with
  | 0 => ""
  | S w => padded w (n / 10) +:+ String (ascii_of_N (Z.to_N (48 + n mod 10))) ""
  end.

(** [dt.isoformat()] without its fraction and offset: [dt.isoformat()[:19]]. *)
Definition iso19 (t : Z) : string :=
  let '(y, m, d) := civil_of_days (t / DAY) in
  let s := ((t mod DAY) / SECOND)%Z in
  padded 4 y +:+ "-" +:+ padded 2 m +:+ "-" +:+ padded 2 d +:+ "T" +:+
  padded 2 (s / 3600) +:+ ":" +:+ padded 2 ((s / 60) mod 60) +:+ ":" +:+ padded 2 (s mod 60).

Definition isoformat (t : Z) : string :=
  let us := (t mod SECOND)%Z in
  iso19 t +:+ (if (us =? 0)%Z then "" else "." +:+ padded 6 us) +:+ "+00:00".

Example isoformat_epoch : isoformat 0 = "1970-01-01T00:00:00+00:00".
Proof. vm_compute. reflexivity. Qed.

Example isoformat_leap_day :
  isoformat (1709210096000007) = "2024-02-29T12:34:56.000007+00:00".
Proof. vm_compute. reflexivity. Qed.

Example str_replace_all : str_replace "ab" "x" "abcabab" = "xcxx".
Proof. reflexivity. Qed.

(** ** Facts *)

Lemma string_cons_app c (s1 s2 : string) : String c s1 +:+ s2 = String c (s1 +:+ s2).
Proof. done. Qed.

Lemma string_nil_app (s : string) : "" +:+ s = s.
Proof. done. Qed.

Lemma string_app_nil_r (s : string) : s +:+ "" = s.
Proof. induction s as [|c s IH]; [done|]. by rewrite string_cons_app, IH. Qed.

Lemma string_app_assoc (s1 s2 s3 : string) : (s1 +:+ s2) +:+ s3 = s1 +:+ (s2 +:+ s3).
Proof. induction s1 as [|c s IH]; [done|]. by rewrite !string_cons_app, IH. Qed.

Lemma rpartition_None c s : str_any (Ascii.eqb c) s = false → rpartition c s = None.
Proof.
  induction s as [|a s IH]; simpl; [done|]. intros [Ha Hs]%orb_false_iff.
  rewrite IH by done. by rewrite Ascii.eqb_sym, Ha.
Qed.

(** The last separator splits a text. *)
Lemma rpartition_app c l r :
  str_any (Ascii.eqb c) r = false → rpartition c (l +:+ String c r) = Some (l, r).
Proof.
  intros Hr. induction l as [|a l IH].
  - rewrite string_nil_app. simpl. rewrite rpartition_None by done. by rewrite Ascii.eqb_refl.
  - rewrite string_cons_app. simpl. by rewrite IH.
Qed.

Lemma digit_val_pretty n : (n < 10)%N → digit_val (pretty_N_char n) = Some (Z.of_N n).
Proof.
  intros Hn. assert (n = 0 ∨ n = 1 ∨ n = 2 ∨ n = 3 ∨ n = 4 ∨ n = 5 ∨ n = 6 ∨ n = 7 ∨ n = 8 ∨
    n = 9)%N as Hc by lia.
  repeat destruct Hc as [->|Hc]; try reflexivity. by subst.
Qed.

Lemma int_from_pretty_go x s : int_from 0 (pretty_N_go x s) = int_from (Z.of_N x) s.
Proof.
  revert s. induction (N.lt_wf_0 x) as [x _ IH]; intros s.
  destruct (decide (0 < x)%N) as [Hx|Hx].
  - rewrite pretty_N_go_step by done. rewrite IH by (apply N.div_lt; lia).
    cbn [int_from]. rewrite digit_val_pretty by (apply N.mod_lt; lia). f_equal.
    pose proof (N.div_mod x 10 ltac:(lia)). lia.
  - replace x with 0%N by lia. by rewrite pretty_N_go_0.
Qed.

Lemma all_digits_pretty_go x s : str_all is_digit s = true →
  str_all is_digit (pretty_N_go x s) = true.
Proof.
  revert s. induction (N.lt_wf_0 x) as [x _ IH]; intros s Hs.
  destruct (decide (0 < x)%N) as [Hx|Hx].
  - rewrite pretty_N_go_step by done. apply IH; [apply N.div_lt; lia|]. simpl.
    unfold is_digit at 1. rewrite digit_val_pretty by (apply N.mod_lt; lia). done.
  - replace x with 0%N by lia. by rewrite pretty_N_go_0.
Qed.

Lemma pretty_go_truthy x s : str_truthy s = true → str_truthy (pretty_N_go x s) = true.
Proof.
  revert s. induction (N.lt_wf_0 x) as [x _ IH]; intros s Hs.
  destruct (decide (0 < x)%N) as [Hx|Hx].
  - rewrite pretty_N_go_step by done. apply IH; [apply N.div_lt; lia|done].
  - replace x with 0%N by lia. by rewrite pretty_N_go_0.
Qed.

(** [int(str(n)) == n], and [str(n).isdigit()], for a natural number. *)
Lemma int_of_pretty (n : N) :
  isdigit (pretty n) = true ∧ int_of_digits (pretty n) = Ok (Z.of_N n).
Proof.
  destruct (decide (n = 0)%N) as [->|Hn]; [done|].
  assert (pretty n = pretty_N_go n "") as Hp.
  { unfold pretty, pretty_N. by rewrite decide_False. }
  assert (str_truthy (pretty_N_go n "") = true) as Ht.
  { rewrite pretty_N_go_step by lia. by apply pretty_go_truthy. }
  rewrite Hp. unfold isdigit, int_of_digits. rewrite Ht.
  rewrite int_from_pretty_go. simpl. by rewrite all_digits_pretty_go.
Qed.

Lemma digits_free c s : is_digit c = false → str_all is_digit s = true → str_any (Ascii.eqb c) s = false.
Proof.
  intros Hd. induction s as [|a s IH]; cbn [str_all str_any]; [done|]. intros [Ha Hs]%andb_true_iff.
  rewrite (IH Hs), orb_false_r. apply Ascii.eqb_neq. intros <-. congruence.
Qed.

(** ** [str.strip] *)

Lemma rev_app_spec s acc : String.rev_app s acc = String.rev s +:+ acc.
Proof.
  unfold String.rev. revert acc. induction s as [|c s IH]; intros acc; [done|]. cbn [String.rev_app].
  rewrite IH, (IH (String c "")), string_app_assoc. done.
Qed.

Lemma rev_cons c s : String.rev (String c s) = String.rev s +:+ String c "".
Proof. unfold String.rev at 1. cbn [String.rev_app]. apply rev_app_spec. Qed.

Lemma rev_app s1 s2 : String.rev (s1 +:+ s2) = String.rev s2 +:+ String.rev s1.
Proof.
  induction s1 as [|c s IH]; [by rewrite string_nil_app, string_app_nil_r|].
  by rewrite string_cons_app, !rev_cons, IH, string_app_assoc.
Qed.

Lemma rev_rev s : String.rev (String.rev s) = s.
Proof. induction s as [|c s IH]; [done|]. by rewrite rev_cons, rev_app, IH. Qed.

(** A text with no space in front. *)
Definition starts_clean (s : string) : Prop :=
  match s with String c _ => is_space c = false | EmptyString => True end.

Lemma lstrip_suffix s : ∃ w, s = w +:+ lstrip s.
Proof.
  induction s as [|c s [w Hw]]; [by exists ""|]. cbn [lstrip]. destruct (is_space c); [|by exists ""].
  exists (String c w). by rewrite string_cons_app, <- Hw.
Qed.

Lemma lstrip_clean s : starts_clean (lstrip s).
Proof. induction s as [|c s IH]; [done|]. cbn [lstrip]. by destruct (is_space c) eqn:Hc. Qed.

Lemma lstrip_id s : starts_clean s → lstrip s = s.
Proof. destruct s as [|c s]; [done|]. cbn. by intros ->. Qed.

Lemma str_strip_idem s : str_strip (str_strip s) = str_strip s.
Proof.
  unfold str_strip. set (u := lstrip s). set (v := String.rev (lstrip (String.rev u))).
  assert (starts_clean v) as Hv.
  { destruct (lstrip_suffix (String.rev u)) as [w Hw]. apply (f_equal String.rev) in Hw.
    rewrite rev_rev, rev_app in Hw. pose proof (lstrip_clean s) as Hu. fold u in Hu. rewrite Hw in Hu.
    fold v in Hu. by destruct v. }
  rewrite (lstrip_id v Hv). unfold v. by rewrite rev_rev, (lstrip_id _ (lstrip_clean _)).
Qed.

Lemma str_any_app p s1 s2 : str_any p (s1 +:+ s2) = str_any p s1 || str_any p s2.
Proof.
  induction s1 as [|a s1 IH]; [done|]. rewrite string_cons_app. cbn [str_any]. by rewrite IH, orb_assoc.
Qed.

Lemma str_all_app p s1 s2 : str_all p (s1 +:+ s2) = str_all p s1 && str_all p s2.
Proof.
  induction s1 as [|c s IH]; [done|]. rewrite string_cons_app. cbn [str_all]. by rewrite IH, andb_assoc.
Qed.

Lemma str_all_rev p s : str_all p (String.rev s) = str_all p s.
Proof.
  induction s as [|c s IH]; [done|]. rewrite rev_cons, str_all_app, IH. cbn [str_all].
  by rewrite andb_true_r, andb_comm.
Qed.

Lemma str_strip_no_space s : str_all (λ c, negb (is_space c)) s = true → str_strip s = s.
Proof.
  assert (∀ t, str_all (λ c, negb (is_space c)) t = true → lstrip t = t) as Hl.
  { intros [|c t]; [done|]. cbn. by intros [->%negb_true_iff _]%andb_true_iff. }
  intros Hs. unfold str_strip. rewrite (Hl s Hs), Hl by (by rewrite str_all_rev). apply rev_rev.
Qed.

Lemma digit_no_space c : is_digit c = true → is_space c = false.
Proof. by destruct c as [[] [] [] [] [] [] [] []]. Qed.

Lemma digits_strip s : str_all is_digit s = true → str_strip s = s.
Proof.
  intros Hs. apply str_strip_no_space. induction s as [|c s IH]; [done|]. cbn [str_all] in *.
  apply andb_true_iff in Hs as [Hc Hs]. by rewrite (digit_no_space c Hc), IH.
Qed.

(** ** Substrings *)

(** [p in s] *)
Definition Substr (p s : string) : Prop := ∃ a b, s = a +:+ (p +:+ b).

Lemma prefix_spec p s : String.prefix p s = true ↔ ∃ b, s = p +:+ b.
Proof.
  revert s. induction p as [|c p IH]; intros s.
  { split; [by exists s|by destruct s]. }
  destruct s as [|c' s]; cbn [String.prefix]; [split; [done|by intros [b Hb]]|].
  destruct (ascii_dec c c') as [<-|Hc].
  - rewrite IH. split; intros [b Hb]; exists b; [by rewrite Hb|by injection Hb].
  - split; [done|]. intros [b Hb]. injection Hb as Hb _. by destruct Hc.
Qed.

Lemma str_contains_spec p s : str_contains p s = true ↔ Substr p s.
Proof.
  induction s as [|c s IH]; cbn [str_contains]; rewrite orb_true_iff, prefix_spec.
  - split.
    + intros [[b Hb]|]; [|done]. by exists "", b.
    + intros (a & b & Hs). left. destruct a; [by exists b|done].
  - rewrite IH. split.
    + intros [[b Hb]|(a & b & ->)]; [by exists "", b|]. by exists (String c a), b.
    + intros ([|c' a] & b & Hs); [left; by exists b|]. injection Hs as <- Hs. right. by exists a, b.
Qed.

Lemma substr_app_l p s t : Substr p s → Substr p (s +:+ t).
Proof. intros (a & b & ->). exists a, (b +:+ t). by rewrite !string_app_assoc. Qed.

Lemma substr_app_r p s t : Substr p t → Substr p (s +:+ t).
Proof. intros (a & b & ->). exists (s +:+ a), b. by rewrite string_app_assoc. Qed.

(** ** Splitting and joining *)

Lemma split_char_no_sep c s : str_any (Ascii.eqb c) s = false → split_char c s = [s].
Proof.
  induction s as [|a s IH]; cbn [str_any split_char]; [done|]. intros [Ha Hs]%orb_false_iff.
  by rewrite Ascii.eqb_sym, Ha, IH.
Qed.

Lemma endswith_spec p s : endswith p s = true ↔ ∃ a, s = a +:+ p.
Proof.
  unfold endswith, startswith. rewrite prefix_spec. split.
  - intros [b Hb]. exists (String.rev b). by rewrite <- (rev_rev s), Hb, rev_app, rev_rev.
  - intros [a ->]. exists (String.rev a). apply rev_app.
Qed.

Lemma before_after_last c s :
  match rpartition c s with
  | Some (l, r) => s = l +:+ String c r ∧ str_any (Ascii.eqb c) r = false
  | None => str_any (Ascii.eqb c) s = false
  end.
Proof.
  induction s as [|a s IH]; cbn [rpartition str_any]; [done|].
  destruct (rpartition c s) as [[l r]|].
  - destruct IH as [-> Hr]. by rewrite string_cons_app.
  - destruct (Ascii.eqb_spec a c) as [->|Hac]; [done|]. rewrite IH, orb_false_r.
    apply Ascii.eqb_neq. congruence.
Qed.

Lemma split_char_ne c s : split_char c s ≠ [].
Proof. destruct s as [|a s]; cbn [split_char]; [done|]. destruct (Ascii.eqb a c); [done|]. by destruct (split_char c s). Qed.

Lemma split_char_sep c s t : split_char c (s +:+ String c t) = split_char c s ++ split_char c t.
Proof.
  induction s as [|a s IH].
  - rewrite string_nil_app. cbn [split_char]. by rewrite Ascii.eqb_refl.
  - rewrite string_cons_app. cbn [split_char]. rewrite IH. destruct (Ascii.eqb a c); [done|].
    by destruct (split_char c s) eqn:E; [destruct (split_char_ne c s)|].
Qed.

Lemma join_split c s : join (String c "") (split_char c s) = s.
Proof.
  induction s as [|a s IH]; cbn [split_char]; [done|]. pose proof (split_char_ne c s) as Hne.
  destruct (Ascii.eqb_spec a c) as [->|Hac].
  - destruct (split_char c s) as [|w ws]; [done|].
    change (join _ ("" :: w :: ws)) with ("" +:+ String c "" +:+ join (String c "") (w :: ws)).
    by rewrite IH.
  - destruct (split_char c s) as [|w [|w' ws]]; [done| |]; simpl in IH |- *; by rewrite <- IH.
Qed.

(** [sep.join(l).split(sep) == l] when no text of [l] has the separator. *)
Lemma split_join c l :
  l ≠ [] → Forall (λ s, str_any (Ascii.eqb c) s = false) l → split_char c (join (String c "") l) = l.
Proof.
  intros Hl Hf. induction Hf as [|s l Hs Hf IH]; [done|]. destruct l as [|t l].
  - by apply split_char_no_sep.
  - change (join _ (s :: t :: l)) with (s +:+ String c "" +:+ join (String c "") (t :: l)).
    rewrite string_cons_app, string_nil_app, split_char_sep, (split_char_no_sep c s Hs). by rewrite IH.
Qed.

(** [s.rsplit(c, 1)[-1]] is the last of [s.split(c)]. *)
Lemma after_last_split c s : after_last c s = List.last (split_char c s) "".
Proof.
  unfold after_last. pose proof (before_after_last c s) as H. destruct (rpartition c s) as [[l r]|].
  - destruct H as [-> Hr]. by rewrite split_char_sep, (split_char_no_sep c r Hr), last_last.
  - by rewrite (split_char_no_sep c s H).
Qed.

Lemma join_app sep l1 l2 :
  l1 ≠ [] → l2 ≠ [] → join sep (l1 ++ l2) = join sep l1 +:+ (sep +:+ join sep l2).
Proof.
  intros H1 H2. induction l1 as [|s l1 IH]; [done|]. destruct l1 as [|s' l1].
  - simpl. by destruct l2.
  - change (join sep ((s :: s' :: l1) ++ l2)) with (s +:+ sep +:+ join sep ((s' :: l1) ++ l2)).
    rewrite IH by done.
    change (join sep (s :: s' :: l1)) with (s +:+ sep +:+ join sep (s' :: l1)).
    by rewrite !string_app_assoc.
Qed.

Lemma length_app_string s t : String.length (s +:+ t) = String.length s + String.length t.
Proof. induction s as [|c s IH]; [done|]. rewrite string_cons_app. simpl. by rewrite IH. Qed.

Lemma str_all_join p c l :
  p c = true → Forall (λ s, str_all p s = true) l → str_all p (join (String c "") l) = true.
Proof.
  intros Hc. induction 1 as [|s l Hs Hf IH]; [done|]. destruct l as [|s' l]; [done|].
  change (join _ (s :: s' :: l)) with (s +:+ String c "" +:+ join (String c "") (s' :: l)).
  by rewrite string_cons_app, string_nil_app, str_all_app, Hs; cbn [str_all]; rewrite Hc, IH.
Qed.

Lemma str_all_any p q s : str_all p s = true → (∀ c, p c = true → q c = false) → str_any q s = false.
Proof.
  intros Hs Hpq. induction s as [|c s IH]; cbn [str_all str_any] in *; [done|].
  apply andb_true_iff in Hs as [Hc Hs]. by rewrite Hpq, IH.
Qed.

Lemma str_all_weaken (p q : ascii → bool) s :
  (∀ c, p c = true → q c = true) → str_all p s = true → str_all q s = true.
Proof.
  intros Hpq. induction s as [|c s IH]; cbn [str_all]; [done|].
  intros [Hc Hs]%andb_true_iff. by rewrite Hpq, IH.
Qed.
