(* ===== verification/Hooks.v ===== *)
(** * Hook types ([kernel/governance/hooks/types.py], [hooks/tool_payload.py])

    The lifecycle points, the context every check reads and the decision it returns, and
    the accessors of the tool-hook payload contract. *)

From S2P Require Import Prelude PyVal.
From stdpp Require Import options.

Inductive HookPoint : Type :=
| PRE_TURN | PRE_CLASSIFY | PRE_LLM_CALL | PRE_TOOL_USE | POST_TOOL_USE
| POST_STEP | PRE_RESPONSE | PRE_EGRESS | POST_EGRESS.

(** [HookPoint.value] *)
Definition hook_point_value (p : HookPoint) : string :=
  match p with
  | PRE_TURN => "pre_turn"
  | PRE_CLASSIFY => "pre_classify"
  | PRE_LLM_CALL => "pre_llm_call"
  | PRE_TOOL_USE => "pre_tool_use"
  | POST_TOOL_USE => "post_tool_use"
  | POST_STEP => "post_step"
  | PRE_RESPONSE => "pre_response"
  | PRE_EGRESS => "pre_egress"
  | POST_EGRESS => "post_egress"
  end.

Inductive HookOutcome : Type := allow | deny | transform | require_approval.
Inductive HookSeverity : Type := info | warn | error | critical.
Inductive DataClassification : Type := public | internal | personal | secret.
Inductive LLMTier : Type := tier_1 | tier_2 | tier_3.

#[export] Instance HookPoint_eq_dec : EqDecision HookPoint.
Proof. solve_decision. Defined.
#[export] Instance HookOutcome_eq_dec : EqDecision HookOutcome.
Proof. solve_decision. Defined.
#[export] Instance HookSeverity_eq_dec : EqDecision HookSeverity.
Proof. solve_decision. Defined.
#[export] Instance DataClassification_eq_dec : EqDecision DataClassification.
Proof. solve_decision. Defined.
#[export] Instance LLMTier_eq_dec : EqDecision LLMTier.
Proof. solve_decision. Defined.

(** The literals as the ledger spells them. *)
Definition outcome_str (o : HookOutcome) : string :=
  match o with
  | allow => "allow" | deny => "deny"
  | transform => "transform" | require_approval => "require_approval"
  end.

Definition severity_str (s : HookSeverity) : string :=
  match s with info => "info" | warn => "warn" | error => "error" | critical => "critical" end.

Definition class_str (c : DataClassification) : string :=
  match c with
  | public => "public" | internal => "internal"
  | personal => "personal" | secret => "secret"
  end.

Definition tier_str (t : LLMTier) : string :=
  match t with tier_1 => "tier_1" | tier_2 => "tier_2" | tier_3 => "tier_3" end.

Record HookContext : Type := {
  ctx_hook_point : HookPoint;
  run_id : string;
  agent_type : string;
  step_id : option Z;
  persona : option string;
  route : option string;
  payload : dict;
  classification : option DataClassification;
  tier : option LLMTier;
  metadata : dict;
}.

Record HookDecision : Type := {
  outcome : HookOutcome;
  reason : string;
  transformed_payload : option dict;
  set_classification : option DataClassification;
  set_tier : option LLMTier;
  approval_request_id : option string;
  severity : HookSeverity;
  audit_metadata : dict;
  decided_by : option string;
}.

(** [HookDecision(outcome=..., reason=..., severity=..., audit_metadata=...)], the other
    fields at their defaults. *)
Definition mk_decision (o : HookOutcome) (r : string) (sev : HookSeverity) (m : dict)
    : HookDecision :=
  {| outcome := o; reason := r; transformed_payload := None; set_classification := None;
     set_tier := None; approval_request_id := None; severity := sev; audit_metadata := m;
     decided_by := None |}.

Definition with_decided_by (who : string) (d : HookDecision) : HookDecision :=
  {| outcome := outcome d; reason := reason d; transformed_payload := transformed_payload d;
     set_classification := set_classification d; set_tier := set_tier d;
     approval_request_id := approval_request_id d; severity := severity d;
     audit_metadata := audit_metadata d; decided_by := Some who |}.

Definition with_metadata (m : dict) (c : HookContext) : HookContext :=
  {| ctx_hook_point := ctx_hook_point c; run_id := run_id c; agent_type := agent_type c;
     step_id := step_id c; persona := persona c; route := route c; payload := payload c; classification := classification c;
     tier := tier c; metadata := m |}.

(** ** The tool-hook payload contract *)

Definition TOOL_NAME : string := "tool_name".
Definition ARGS : string := "args".
Definition RESULT : string := "result".
Definition TOOL_EFFECT : string := "tool_effect".
Definition TOOL_VERIFY : string := "tool_verify".
Definition CALL_ID : string := "call_id".
Definition TOOL_CALL_ID : string := "tool_call_id".
Definition HELD_CALL_ID : string := "held_call_id".
Definition PARENT_CALL_ID : string := "parent_call_id".
Definition TURN_ID : string := "turn_id".
Definition ATTEMPT : string := "attempt".
Definition REPLAY_OF : string := "replay_of".
Definition RESUMED_FROM_RUN : string := "resumed_from_run".
Definition TOOL_ERROR : string := "tool_error".
Definition BOT_ID : string := "bot_id".
Definition BOT_NAME : string := "bot_name".
Definition BOT_STATUS_HOOK : string := "bot_status".
Definition SIDE_EFFECT_ID : string := "side_effect_id".

(** The call's id: [metadata.get(CALL_ID) or metadata.get(TOOL_CALL_ID)], when it is a
    non-empty string. *)
Definition call_id_of (m : dict) : option string :=
  let value := if get_truthy m CALL_ID then m !! CALL_ID else m !! TOOL_CALL_ID in
  match value with
  | Some (VStr s) => if str_truthy s then Some s else None
  | _ => None
  end.

Definition tool_name_of (p : dict) : string := default "" (get_str p TOOL_NAME).

Definition args_of (p : dict) : option (list (string * pyval)) :=
  match p !! ARGS with Some (VDict d) => Some d | _ => None end.

(** [foundation/capabilities.py]: the tool name of a capability call starts with it. *)
Definition CAPABILITY_TOOL_PREFIX : string := "capability:".

Definition result_of (p : dict) : pyval := default VNone (p !! RESULT).

Definition side_effect_id_of (m : dict) : option string := get_nonempty m SIDE_EFFECT_ID.

(** [tool_post_metadata(...)] *)
Definition opt_val (s : option string) : pyval := from_option VStr VNone s.

Definition tool_post_metadata (effect : option string) (content : string)
    (verify tool_call_id err held_call_id : option string) : dict :=
  <[TOOL_EFFECT := opt_val effect]> (<["tool_content" := VStr content]>
    (<[TOOL_VERIFY := opt_val verify]> (<[CALL_ID := opt_val tool_call_id]>
      (<[TOOL_CALL_ID := opt_val tool_call_id]> (<[HELD_CALL_ID := opt_val held_call_id]>
        (<[TOOL_ERROR := opt_val err]> ∅)))))).

(** The two names of a call's id agree on metadata the runner built. *)
Lemma call_id_of_post_metadata effect content verify cid err held :
  str_truthy cid = true →
  call_id_of (tool_post_metadata effect content verify (Some cid) err held) = Some cid.
Proof.
  intros Ht. unfold call_id_of, get_truthy, tool_post_metadata.
  assert (∀ m : dict, (<[TOOL_EFFECT := opt_val effect]> (<["tool_content" := VStr content]>
    (<[TOOL_VERIFY := opt_val verify]> (<[CALL_ID := VStr cid]> m)))) !! CALL_ID
    = Some (VStr cid)) as Hl.
  { intros m. rewrite !lookup_insert_ne by done. apply lookup_insert_eq. }
  simpl. rewrite Hl. simpl. by rewrite Ht, Ht.
Qed.
