(* ===== verification/CallContext.v ===== *)
(** * Call lineage ([kernel/governance/call_context.py])

    Which governed call a call is nested in, which attempt of the call it is, and the runs
    that were re-entered: two bounded ordered dicts and the current call. *)

From S2P Require Import Prelude.
From stdpp Require Import options.

Definition MAX_CALLS : nat := Z.to_nat 8192.
Definition MAX_RUNS : nat := Z.to_nat 1024.

Record CallLineage := {
  lin_parent_call_id : option string;
  lin_attempt : Z;
  lin_replay_of : option string;
}.

(** ** [OrderedDict], oldest entry first *)
Section ordered_dict.
Context {V : Type}.

Definition od_get (k : string) (d : list (string * V)) : option V :=
  snd <$> List.find (λ kv, String.eqb kv.1 k) d.

Definition od_del (k : string) (d : list (string * V)) : list (string * V) :=
  List.filter (λ kv, negb (String.eqb kv.1 k)) d.

(** [d[k] = v; d.move_to_end(k)] *)
Definition od_set_last (k : string) (v : V) (d : list (string * V)) : list (string * V) :=
  od_del k d ++ [(k, v)].

(** [while len(d) > n: d.popitem(last=False)] *)
Definition od_bound (n : nat) (d : list (string * V)) : list (string * V) :=
  drop (length d - n) d.

(** [d[k] = v]: a key keeps its place. *)
Fixpoint kv_set (k : string) (v : V) (d : list (string * V)) : list (string * V) :=
  match d with
  | [] => [(k, v)]
  | (k', v') :: d' => if String.eqb k' k then (k, v) :: d' else (k', v') :: kv_set k v d'
  end.

Lemma od_get_cons k k' v d :
  od_get k ((k', v) :: d) = if String.eqb k' k then Some v else od_get k d.
Proof. unfold od_get. simpl. by destruct (String.eqb k' k). Qed.

Lemma od_get_kv_set k k' v d : od_get k' (kv_set k v d) = if String.eqb k k' then Some v else od_get k' d.
Proof.
  induction d as [|[k2 v2] d IH]; simpl; [by rewrite od_get_cons|].
  destruct (String.eqb_spec k2 k) as [->|Hne]; rewrite !od_get_cons; [by destruct (String.eqb k k')|].
  rewrite IH. destruct (String.eqb_spec k2 k') as [->|]; [|done]. by destruct (String.eqb_spec k k').
Qed.

Lemma od_get_None k d : k ∉ map fst d ↔ od_get k d = None.
Proof.
  induction d as [|[k' v] d IH]; [split; [done|]; intros _ H; by apply elem_of_nil in H|].
  rewrite od_get_cons. cbn [map fst]. rewrite not_elem_of_cons, IH.
  destruct (String.eqb_spec k' k) as [->|]; [split; [by intros [? _]|done]|]. split; [by intros [_ ?]|]. split; [congruence|done].
Qed.

Lemma kv_set_keys k v d x : x ∈ map fst (kv_set k v d) → x = k ∨ x ∈ map fst d.
Proof.
  induction d as [|[k' v'] d IH]; cbn [kv_set]; [intros ->%list_elem_of_singleton; by left|].
  destruct (String.eqb_spec k' k) as [->|]; cbn [map fst]; [by right|].
  rewrite !elem_of_cons. intros [->|Hx]; [tauto|]. destruct (IH Hx); tauto.
Qed.

Lemma kv_set_nodup k v d : NoDup (map fst d) → NoDup (map fst (kv_set k v d)).
Proof.
  induction d as [|[k' v'] d IH]; cbn [kv_set map fst]; [intros _; apply NoDup_singleton|].
  intros [Hk' Hnd]%NoDup_cons. destruct (String.eqb_spec k' k) as [->|Hne]; cbn [map fst]; [by constructor|].
  constructor; [|by apply IH]. by intros [->|]%kv_set_keys.
Qed.

Lemma length_od_bound n d : length (od_bound n d) ≤ n.
Proof. unfold od_bound. rewrite length_drop. lia. Qed.

Lemma od_get_app k d1 d2 :
  od_get k (d1 ++ d2) = match od_get k d1 with Some v => Some v | None => od_get k d2 end.
Proof.
  unfold od_get. induction d1 as [|[k' v'] d1 IH]; simpl; [done|].
  destruct (String.eqb k' k); [done|apply IH].
Qed.

Lemma od_get_del k d : od_get k (od_del k d) = None.
Proof.
  unfold od_get, od_del. induction d as [|[k' v'] d IH]; simpl; [done|].
  destruct (String.eqb k' k) eqn:E; simpl; [apply IH|]. by rewrite E.
Qed.

Lemma length_od_del k d : length (od_del k d) ≤ length d.
Proof.
  unfold od_del. induction d as [|[k' v'] d IH]; simpl; [lia|].
  destruct (negb _); simpl; lia.
Qed.

Lemma od_bound_snoc n d x :
  0 < n → od_bound n (d ++ [x]) = od_bound (n - 1) d ++ [x].
Proof.
  intros Hn. unfold od_bound. rewrite length_app. simpl.
  rewrite drop_app_le by lia. f_equal. f_equal. lia.
Qed.

Lemma od_get_bound_snoc n d k v :
  0 < n → od_get k d = None → od_get k (od_bound n (d ++ [(k, v)])) = Some v.
Proof.
  intros Hn Hk. rewrite od_bound_snoc by done. rewrite od_get_app.
  assert (od_get k (od_bound (n - 1) d) = None) as ->.
  { unfold od_bound. pose proof (take_drop (length d - (n - 1)) d) as Htd.
    rewrite <- Htd, od_get_app in Hk. by destruct (od_get k (take _ d)). }
  unfold od_get. simpl. by rewrite String.eqb_refl.
Qed.
End ordered_dict.

(** ** The module's state *)

Record CallState := {
  current_call : option string;                  (* the [ContextVar] *)
  calls : list (string * CallLineage);           (* [_calls] *)
  resumed_runs : list (string * unit);           (* [_resumed_runs] *)
}.

Definition current_call_id (s : CallState) : option string := current_call s.

Definition set_current (c : option string) (s : CallState) : CallState :=
  {| current_call := c; calls := calls s; resumed_runs := resumed_runs s |}.

(** The [with call_scope(call_id):] block around [body]: the previous call is put back
    however the body ends. *)
Definition call_scope {A} (call_id : string) (body : M CallState A) : M CallState A := λ s,
  let previous := current_call s in
  let '(r, s') := body (set_current (Some call_id) s) in
  (r, set_current previous s').

Definition register_call (call_id : string) (held_call_id : option string)
    : M CallState CallLineage := λ s,
  let held := match held_call_id with Some h => str_truthy h | None => false end in
  let lineage := {| lin_parent_call_id := current_call s;
                    lin_attempt := if held then 2 else 1;
                    lin_replay_of := if held then held_call_id else None |} in
  (Ok lineage,
   {| current_call := current_call s;
      calls := od_bound MAX_CALLS (od_set_last call_id lineage (calls s));
      resumed_runs := resumed_runs s |}).

Definition lineage_of (s : CallState) (call_id : option string) : option CallLineage :=
  match call_id with
  | Some c => if str_truthy c then od_get c (calls s) else None
  | None => None
  end.

(** [identity_kwargs]: [None] for a call with no id. *)
Definition identity_kwargs (s : CallState) (call_id : option string)
    : option (string * option string * option Z * option string) :=
  match call_id with
  | Some c =>
      if str_truthy c then
        let l := lineage_of s call_id in
        Some (c, l ≫= lin_parent_call_id, lin_attempt <$> l, l ≫= lin_replay_of)
      else None
  | None => None
  end.

Definition mark_run_resumed (run : string) : M CallState unit := λ s,
  if str_truthy run then
    (Ok tt, {| current_call := current_call s; calls := calls s;
               resumed_runs := od_bound MAX_RUNS (od_set_last run tt (resumed_runs s)) |})
  else (Ok tt, s).

Definition is_run_resumed (s : CallState) (run : string) : bool :=
  if str_truthy run then
    match od_get run (resumed_runs s) with Some _ => true | None => false end
  else false.

(** ** Properties *)

Definition bounded_registry (s : CallState) : Prop :=
  length (calls s) ≤ MAX_CALLS ∧ length (resumed_runs s) ≤ MAX_RUNS.

Lemma register_call_bounded c h s :
  bounded_registry s → bounded_registry (run_state (register_call c h) s).
Proof. intros [_ Hr]. split; [apply length_od_bound|done]. Qed.

Lemma mark_run_resumed_bounded r s :
  bounded_registry s → bounded_registry (run_state (mark_run_resumed r) s).
Proof.
  intros [Hc Hr]. unfold mark_run_resumed. destruct (str_truthy r); [|done].
  split; [done|apply length_od_bound].
Qed.

(** What a call registers is what the ledger reads back for it, whatever was evicted. *)
Lemma lineage_of_register c h s :
  str_truthy c = true →
  match register_call c h s with
  | (Ok l, s') => lineage_of s' (Some c) = Some l
  | (Raise _, _) => False
  end.
Proof.
  intros Hc. simpl. rewrite Hc.
  apply od_get_bound_snoc; [unfold MAX_CALLS; lia|apply od_get_del].
Qed.

Lemma call_scope_restores {A} c (body : M CallState A) s :
  current_call (run_state (call_scope c body) s) = current_call s.
Proof. unfold call_scope. by destruct (body _) as [r s']. Qed.
