(* ===== verification/Kernel.v ===== *)
(** * The governance kernel ([kernel/governance/kernel.py])

    Registration of hooks, the lock, the dispatch of a hook point and the audit row each
    firing writes.  The kernel is stated over a world [W] that holds the state of every
    component its hooks touch; what it needs of the other components comes through
    [KernelEnv] (the audit log, the bot hook, the call registry, the session and turn
    scopes, the tracer). *)

From S2P Require Import Prelude PyVal Hooks CallContext.
From stdpp Require Import options.

(** The keyword arguments of [AuditLog.record]. *)
Record AuditRow := {
  row_run_id : string;
  row_step_id : option Z;
  row_agent_type : string;
  row_hook_point : string;
  row_plugin : string;
  row_decision : string;
  row_severity : string;
  row_reason : string;
  row_classification : option DataClassification;
  row_tier : option LLMTier;
  row_payload : dict;
}.

(** Where an audit row went: [Literal["db", "spool", "lost"]]. *)
Inductive Kept := db | spool | lost.

#[export] Instance Kept_eq_dec : EqDecision Kept.
Proof. solve_decision. Defined.

(** A registered hook.  [hook_bot] is present for a [BotStatusHook]: its [audit_bot_id]. *)
Record Hook (W : Type) := {
  hook_ident : nat;
  hook_name : string;
  hook_at : HookPoint;
  hook_priority : Z;
  hook_call : HookContext → M W HookDecision;
  hook_bot : option (M W (option string));
}.
Arguments hook_ident {W} _.
Arguments hook_name {W} _.
Arguments hook_at {W} _.
Arguments hook_priority {W} _.
Arguments hook_call {W} _.
Arguments hook_bot {W} _.

Record KernelEnv (W : Type) := {
  env_audit_log : option (AuditRow → M W Z);
  env_lineage_of : W → option string → option CallLineage;
  env_is_run_resumed : W → string → bool;
  env_session_id : W → option string;
  env_turn_id : W → option string;
  env_trace_id : W → option string;
  env_note_unrecorded : string → option string → W → W;
}.
Arguments env_audit_log {W} _.
Arguments env_lineage_of {W} _.
Arguments env_is_run_resumed {W} _.
Arguments env_session_id {W} _.
Arguments env_turn_id {W} _.
Arguments env_trace_id {W} _.
Arguments env_note_unrecorded {W} _.

Record GovernanceKernel (W : Type) := {
  k_hooks : HookPoint → list (Hook W);
  k_init_locked : bool;
  k_bot_hook : option (Hook W);
}.
Arguments k_hooks {W} _.
Arguments k_init_locked {W} _.
Arguments k_bot_hook {W} _.

Definition AUDITED_PAYLOAD_KEYS : list string :=
  ["model"; "provider"; "tool_name"; "tool_plugin"; "target_tier"; "context_tokens";
   "evicted_tokens"; "signature_status"; "signature_key_id"; "signature_spec_sha256";
   "deterministic"; "handler"; "caller"; "capability"; "method"; "capability_provider";
   "args_digest"; "result_digest"; "egress"; "digest_alg"; "audience"; "stream_item";
   "stream_end"; "stream_partial"].

(** Whether an allow at this point is the last check before something happens outside. *)
Definition guards_an_effect (point : HookPoint) (ctx : HookContext) : bool :=
  match point with
  | PRE_EGRESS => true
  | PRE_TOOL_USE =>
      eq_str (metadata ctx) TOOL_EFFECT "write" || eq_str (metadata ctx) TOOL_EFFECT "destructive"
  | PRE_LLM_CALL => bool_decide (tier ctx = Some tier_3)
  | _ => false
  end.

(** [payload[k] = v] when there is a value, [payload.pop(k, None)] otherwise. *)
Definition stamp (k : string) (v : option pyval) (p : dict) : dict :=
  match v with Some x => <[k := x]> p | None => delete k p end.

(** [payload.setdefault(k, v)] *)
Definition setdefault (k : string) (v : option pyval) (p : dict) : dict :=
  match v with
  | Some x => match p !! k with Some _ => p | None => <[k := x]> p end
  | None => p
  end.

Arguments stamp : simpl never.
Arguments setdefault : simpl never.

Definition nonempty (s : option string) : option string :=
  match s with Some x => if str_truthy x then Some x else None | None => None end.

(** The rows' payload: what the hook put in its decision, the whitelisted keys of the
    context's payload, and the identity the harness itself holds. *)
Definition copy_audited (p acc : dict) : dict :=
  fold_left (λ acc k, match p !! k with
                      | Some v => setdefault k (Some v) acc
                      | None => acc
                      end) AUDITED_PAYLOAD_KEYS acc.

Record Identity := {
  id_bot : option string;
  id_lineage : option CallLineage;
  id_resumed : bool;
  id_trace : option string;
  id_session : option string;
  id_turn : option string;
}.

Definition audit_payload (point : HookPoint) (d : HookDecision) (ctx : HookContext)
    (who : Identity) : dict :=
  let m := metadata ctx in
  let lin := id_lineage who in
  let parent := match get_nonempty m PARENT_CALL_ID with
                | Some p => Some p
                | None => nonempty (lin ≫= lin_parent_call_id)
                end in
  let p := copy_audited (payload ctx) (audit_metadata d) in
  let p := setdefault "caller" (VStr <$> get_nonempty m "caller") p in
  let p := stamp BOT_ID (VStr <$> nonempty (id_bot who)) p in
  let p := stamp CALL_ID (VStr <$> call_id_of m) p in
  let p := stamp HELD_CALL_ID (VStr <$> get_nonempty m HELD_CALL_ID) p in
  let p := stamp TOOL_ERROR
             (if decide (point = POST_TOOL_USE) then VStr <$> get_nonempty m TOOL_ERROR
              else None) p in
  let p := stamp PARENT_CALL_ID (VStr <$> parent) p in
  let p := stamp ATTEMPT (VInt ∘ lin_attempt <$> lin) p in
  let p := stamp REPLAY_OF (VStr <$> nonempty (lin ≫= lin_replay_of)) p in
  let p := stamp RESUMED_FROM_RUN
             (if str_truthy (run_id ctx) && id_resumed who
              then Some (VStr (run_id ctx)) else None) p in
  let p := setdefault "trace_id" (VStr <$> id_trace who) p in
  let p := setdefault "session_id" (VStr <$> id_session who) p in
  stamp TURN_ID (VStr <$> id_turn who) p.

(** [[*ctx.metadata.get("transformed_by", ()), name]] *)
Definition iter_val (v : pyval) : res (list pyval) :=
  match v with
  | VList l => Ok l
  | VStr s => Ok (map (λ c, VStr (String c EmptyString)) (String.list_ascii_of_string s))
  | VDict d => Ok (map (VStr ∘ fst) d)
  | _ => Raise (Exn "TypeError" "Value after * must be an iterable")
  end.

Definition append_transformed_by (name : string) (m : dict) : res pyval :=
  match m !! "transformed_by" with
  | None => Ok (VList [VStr name])
  | Some v => match iter_val v with
              | Ok l => Ok (VList (l ++ [VStr name]))
              | Raise e => Raise e
              end
  end.

(** The context the next hook sees. *)
Definition apply_updates (name : string) (d : HookDecision) (c : HookContext)
    : res HookContext :=
  let m1 := match get_nonempty (audit_metadata d) SIDE_EFFECT_ID with
            | Some key => <[SIDE_EFFECT_ID := VStr key]> (metadata c)
            | None => metadata c
            end in
  let class := match set_classification d with Some x => Some x | None => classification c end in
  let tier' := match set_tier d with Some x => Some x | None => tier c end in
  let mk p m := {| ctx_hook_point := ctx_hook_point c; run_id := run_id c;
                   agent_type := agent_type c; step_id := step_id c; persona := persona c; route := route c; payload := p;
                   classification := class; tier := tier'; metadata := m |} in
  match outcome d, transformed_payload d with
  | transform, Some p =>
      match append_transformed_by name (metadata c) with
      | Ok by_ => Ok (mk p (<["transformed_by" := by_]> m1))
      | Raise e => Raise e
      end
  | _, _ => Ok (mk (payload c) m1)
  end.

Section kernel.
Context {W : Type}.
Implicit Types (k : GovernanceKernel W) (env : KernelEnv W) (h : Hook W).

Definition new_kernel : GovernanceKernel W :=
  {| k_hooks := λ _, []; k_init_locked := false; k_bot_hook := None |}.

Definition set_hooks (point : HookPoint) (hs : list (Hook W)) (f : HookPoint → list (Hook W))
    : HookPoint → list (Hook W) :=
  λ p, if decide (p = point) then hs else f p.

(** [register(hook, at=...)] *)
Definition register (h : Hook W) (at_ : option HookPoint) k : res (GovernanceKernel W) :=
  if k_init_locked k then
    Raise (Exn "HookRegistrationLockedError"
      ("Hook " +:+ py_repr (hook_name h) +:+ " cannot be registered after init_lock(); "
       +:+ "runtime hook registration is forbidden (design §5.3 hook plugin trust boundary)."))
  else
    let point := default (hook_at h) at_ in
    let add bot := {| k_hooks := set_hooks point
                        (sort_by hook_priority (k_hooks k point ++ [h])) (k_hooks k);
                      k_init_locked := false; k_bot_hook := bot |} in
    match hook_bot h with
    | None => Ok (add (k_bot_hook k))
    | Some _ =>
        match k_bot_hook k with
        | Some b => if Nat.eqb (hook_ident b) (hook_ident h) then Ok (add (Some h))
                    else Raise (Exn "ValueError"
                      "a kernel guards one bot: a second BotStatusHook was registered")
        | None => Ok (add (Some h))
        end
    end.

Definition init_lock k : GovernanceKernel W :=
  {| k_hooks := k_hooks k; k_init_locked := true; k_bot_hook := k_bot_hook k |}.

Definition is_locked k : bool := k_init_locked k.
Definition hook_count k (p : HookPoint) : nat := length (k_hooks k p).
Definition hook_names k (p : HookPoint) : list string := map hook_name (k_hooks k p).

(** What the kernel's own bot hook answers; nothing in the owner's process. *)
Definition bot_source k : M W (option string) :=
  match k_bot_hook k with
  | Some h => match hook_bot h with Some f => f | None => mret None end
  | None => mret None
  end.

Definition identity_of env (ctx : HookContext) (bot : option string) (w : W) : Identity :=
  {| id_bot := bot;
     id_lineage := env_lineage_of env w (call_id_of (metadata ctx));
     id_resumed := env_is_run_resumed env w (run_id ctx);
     id_trace := env_trace_id env w;
     id_session := env_session_id env w;
     id_turn := env_turn_id env w |}.

Definition audit_row (point : HookPoint) (plugin : string) (d : HookDecision)
    (ctx : HookContext) (who : Identity) : AuditRow :=
  {| row_run_id := run_id ctx; row_step_id := step_id ctx;
     row_agent_type := agent_type ctx; row_hook_point := hook_point_value point;
     row_plugin := plugin; row_decision := outcome_str (outcome d);
     row_severity := severity_str (severity d); row_reason := reason d;
     row_classification := classification ctx; row_tier := tier ctx;
     row_payload := audit_payload point d ctx who |}.

(** [_audit]: one row per hook firing; never raises. *)
Definition audit k env (point : HookPoint) (plugin : string) (d : HookDecision)
    (ctx : HookContext) : M W Kept :=
  match env_audit_log env with
  | None => mret db
  | Some record =>
      try_except
        (bot ← bot_source k;
         who ← gets (identity_of env ctx bot);
         row_id ← record (audit_row point plugin d ctx who);
         mret (if (row_id =? 0)%Z then spool else db))
        (λ _, mret lost)
  end.

(** How a pass over the hooks of a point ended. *)
Inductive Verdict :=
| Stopped (d : HookDecision) (ctx : HookContext)
| Passed (d : HookDecision) (ctx : HookContext) (audited : bool).

Definition raised_decision (name : string) (e : exn) : HookDecision :=
  {| outcome := deny;
     reason := "hook " +:+ py_repr name +:+ " raised: " +:+ exn_class e;
     transformed_payload := None; set_classification := None; set_tier := None;
     approval_request_id := None; severity := error;
     audit_metadata := <["hook" := VStr name]> (<["exception" := VStr (exn_str e)]> ∅);
     decided_by := Some name |}.

(** One iteration of [fire]'s loop: run the hook, write its row, apply its updates. *)
Definition fire_one k env (point : HookPoint) h (ctx : HookContext) (audited : bool)
    : M W Verdict := λ w,
  match hook_call h ctx w with
  | (Raise e, w1) =>
      let d := raised_decision (hook_name h) e in
      (_ ← audit k env point (hook_name h) d ctx; mret (Stopped d ctx)) w1
  | (Ok d, w1) =>
      (kept ← audit k env point (hook_name h) d ctx;
       match apply_updates (hook_name h) d ctx with
       | Raise e => raise e
       | Ok ctx' =>
           match outcome d with
           | deny | require_approval => mret (Stopped (with_decided_by (hook_name h) d) ctx')
           | _ => mret (Passed d ctx' (negb (bool_decide (kept = lost)) && audited))
           end
       end) w1
  end.

Fixpoint fire_hooks k env (point : HookPoint) (hs : list (Hook W)) (d : HookDecision)
    (ctx : HookContext) (audited : bool) : M W Verdict :=
  match hs with
  | [] => mret (Passed d ctx audited)
  | h :: hs' =>
      v ← fire_one k env point h ctx audited;
      match v with
      | Stopped d' ctx' => mret (Stopped d' ctx')
      | Passed d' ctx' audited' => fire_hooks k env point hs' d' ctx' audited'
      end
  end.

Definition no_hooks_decision : HookDecision :=
  mk_decision allow "no hooks registered" info ∅.

Definition lost_row_decision : HookDecision :=
  with_decided_by "kernel"
    (mk_decision deny "the ledger write for this call failed, so it does not run" error ∅).

Definition strip_bot_id (ctx : HookContext) : HookContext :=
  match metadata ctx !! BOT_ID with
  | Some _ => with_metadata (delete BOT_ID (metadata ctx)) ctx
  | None => ctx
  end.

(** [str(egress.get("host", ""))] when the payload's [egress] is a dict. *)
Definition egress_host (ctx : HookContext) : string :=
  match payload ctx !! "egress" with
  | Some (VDict d) => match od_get "host" d with Some v => str_val v | None => "" end
  | _ => ""
  end.

(** What [fire] does with a pass that no hook stopped. *)
Definition settle_pass env (point : HookPoint) (d : HookDecision) (ctx : HookContext)
    (audited : bool) : M W (HookDecision * HookContext) :=
  if negb audited && bool_decide (outcome d = allow ∨ outcome d = transform)
     && guards_an_effect point ctx
  then mret (lost_row_decision, ctx)
  else
    (if negb audited && bool_decide (point = POST_EGRESS)
     then modify (env_note_unrecorded env (egress_host ctx) (call_id_of (metadata ctx)))
     else mret ());;
    mret (d, ctx).

(** [fire(hook_point, ctx)] *)
Definition fire k env (point : HookPoint) (ctx : HookContext)
    : M W (HookDecision * HookContext) :=
  if negb (k_init_locked k) then
    raise (Exn "KernelNotInitializedError"
      "GovernanceKernel.fire() called before init_lock(); call init_lock() after registering all hooks.")
  else
    v ← fire_hooks k env point (k_hooks k point) no_hooks_decision (strip_bot_id ctx) true;
    match v with
    | Stopped d ctx' => mret (d, ctx')
    | Passed d ctx' audited => settle_pass env point d ctx' audited
    end.

(** [record_denial] *)
Definition record_denial k env (point : HookPoint) (plugin why : string) (ctx : HookContext)
    (m : dict) : M W HookDecision :=
  let d := with_decided_by plugin (mk_decision deny why error m) in
  _ ← audit k env point plugin d ctx;
  mret d.
End kernel.

(** ** The dispatch as a relation

    The abstract specification of a firing: every hook of a list lets the call through
    ([pass]), or a prefix does and the next hook ends the firing ([stops]). *)

Section dispatch.
Context {W : Type} (k : GovernanceKernel W) (env : KernelEnv W) (point : HookPoint).

Inductive pass : list (Hook W) → HookContext → W → list (HookDecision * Kept) →
    HookContext → W → Prop :=
| pass_nil c w : pass [] c w [] c w
| pass_cons h hs c w d w1 kept w2 c1 tr c' w' :
    hook_call h c w = (Ok d, w1) →
    audit k env point (hook_name h) d c w1 = (Ok kept, w2) →
    apply_updates (hook_name h) d c = Ok c1 →
    outcome d = allow ∨ outcome d = transform →
    pass hs c1 w2 tr c' w' →
    pass (h :: hs) c w ((d, kept) :: tr) c' w'.

Inductive stops (h : Hook W) (c : HookContext) (w : W) :
    HookDecision → HookContext → W → Prop :=
| stops_raise e w1 kept w2 :
    hook_call h c w = (Raise e, w1) →
    audit k env point (hook_name h) (raised_decision (hook_name h) e) c w1 = (Ok kept, w2) →
    stops h c w (raised_decision (hook_name h) e) c w2
| stops_says d w1 kept w2 c1 :
    hook_call h c w = (Ok d, w1) →
    audit k env point (hook_name h) d c w1 = (Ok kept, w2) →
    apply_updates (hook_name h) d c = Ok c1 →
    outcome d = deny ∨ outcome d = require_approval →
    stops h c w (with_decided_by (hook_name h) d) c1 w2.

(** [fire_hooks]'s three ways to end, in terms of the relation. *)
Definition dispatched (hs : list (Hook W)) (d0 : HookDecision) (c0 : HookContext)
    (a0 : bool) (w : W) (v : Verdict) (w' : W) : Prop :=
  match v with
  | Passed d c a =>
      ∃ tr, pass hs c0 w tr c w' ∧ d = List.last (map fst tr) d0 ∧
            a = forallb (λ x, negb (bool_decide (snd x = lost))) tr && a0
  | Stopped d c =>
      ∃ pre h post tr c1 w1, hs = pre ++ h :: post ∧ pass pre c0 w tr c1 w1 ∧
            stops h c1 w1 d c w'
  end.
End dispatch.

(** ** Facts *)

Section kernel_facts.
Context {W : Type}.
Implicit Types (k : GovernanceKernel W) (env : KernelEnv W) (h : Hook W) (w : W).

(** [_audit] never raises. *)
Lemma audit_total k env point plugin d ctx w :
  ∃ kept w', audit k env point plugin d ctx w = (Ok kept, w').
Proof.
  unfold audit. destruct (env_audit_log env) as [rec|]; [|by eexists _, _].
  unfold try_except. repeat case_match; by eexists _, _.
Qed.

Lemma last_cons {A} (l : list A) x y : List.last (x :: l) y = List.last l x.
Proof.
  revert x y. induction l as [|z l IH]; intros x y; [done|].
  change (List.last (x :: z :: l) y) with (List.last (z :: l) y). by rewrite !IH.
Qed.

(** What one iteration of the loop does. *)
Lemma fire_one_inv k env point h c a w v w' :
  fire_one k env point h c a w = (Ok v, w') →
  (∃ d c', v = Stopped d c' ∧ stops k env point h c w d c' w') ∨
  (∃ d w1 kept c1, v = Passed d c1 (negb (bool_decide (kept = lost)) && a) ∧
     hook_call h c w = (Ok d, w1) ∧
     audit k env point (hook_name h) d c w1 = (Ok kept, w') ∧
     apply_updates (hook_name h) d c = Ok c1 ∧
     (outcome d = allow ∨ outcome d = transform)).
Proof.
  unfold fire_one. destruct (hook_call h c w) as [[d|e] w1] eqn:Hc; run_monad.
  - destruct (audit_total k env point (hook_name h) d c w1) as (kept & w2 & Ha).
    rewrite Ha. destruct (apply_updates _ _ _) as [c1|e] eqn:Hu; [|done].
    destruct (outcome d) eqn:Ho; intros [= <- <-].
    + right. eexists _, _, _, _. split_and!; eauto.
    + left. eexists _, _. split; [done|]. eapply stops_says; eauto.
    + right. eexists _, _, _, _. split_and!; eauto.
    + left. eexists _, _. split; [done|]. eapply stops_says; eauto.
  - destruct (audit_total k env point (hook_name h) (raised_decision (hook_name h) e) c w1)
      as (kept & w2 & Ha). rewrite Ha. intros [= <- <-].
    left. eexists _, _. split; [done|]. eapply stops_raise; eauto.
Qed.

Lemma fire_one_passes k env point h c a w d w1 kept w2 c1 :
  hook_call h c w = (Ok d, w1) →
  audit k env point (hook_name h) d c w1 = (Ok kept, w2) →
  apply_updates (hook_name h) d c = Ok c1 →
  outcome d = allow ∨ outcome d = transform →
  fire_one k env point h c a w = (Ok (Passed d c1 (negb (bool_decide (kept = lost)) && a)), w2).
Proof.
  intros Hc Ha Hu Ho. unfold fire_one. rewrite Hc. run_monad. rewrite Ha, Hu.
  by destruct Ho as [->| ->].
Qed.

Lemma fire_one_stops k env point h c a w d c' w' :
  stops k env point h c w d c' w' →
  fire_one k env point h c a w = (Ok (Stopped d c'), w').
Proof.
  intros [e w1 kept w2 Hc Ha|d' w1 kept w2 c1 Hc Ha Hu Ho];
    unfold fire_one; rewrite Hc; run_monad; rewrite Ha; [done|].
  rewrite Hu. by destruct Ho as [->| ->].
Qed.

Lemma stops_outcome k env point h c w d c' w' :
  stops k env point h c w d c' w' → outcome d = deny ∨ outcome d = require_approval.
Proof. destruct 1; [by left|done]. Qed.

Lemma pass_dispatches k env point hs d0 c0 a0 w tr c w' hs' :
  pass k env point hs c0 w tr c w' →
  fire_hooks k env point (hs ++ hs') d0 c0 a0 w
  = fire_hooks k env point hs' (List.last (map fst tr) d0) c
      (forallb (λ x, negb (bool_decide (snd x = lost))) tr && a0) w'.
Proof.
  intros Hp. revert d0 a0.
  induction Hp as [c w|h hs c w d w1 kept w2 c1 tr c' w' Hc Ha Hu Ho Hp IH]; intros d0 a0;
    [done|].
  simpl app. cbn [fire_hooks]. unfold mbind at 1, M_bind.
  rewrite (fire_one_passes _ _ _ _ _ _ _ _ _ _ _ _ Hc Ha Hu Ho).
  rewrite IH. cbn [map fst forallb snd]. rewrite last_cons.
  f_equal. destruct (negb _), (forallb _ tr), a0; done.
Qed.
End kernel_facts.

Lemma fire_hooks_dispatched {W} (k : GovernanceKernel W) env point hs d0 c0 a0 w v w' :
  fire_hooks k env point hs d0 c0 a0 w = (Ok v, w') → dispatched k env point hs d0 c0 a0 w v w'.
Proof.
  revert d0 c0 a0 w. induction hs as [|h hs IH]; intros d0 c0 a0 w; simpl.
  { run_monad. intros [= <- <-]. exists []. repeat split; constructor. }
  run_monad. destruct (fire_one k env point h c0 a0 w) as [[v1|e] w1] eqn:H1; [|done].
  apply fire_one_inv in H1 as [(d & c' & -> & Hs)|(d & w0 & kept & c1 & -> & Hc & Ha & Hu & Ho)].
  - intros [= <- <-]. exists [], h, hs, [], c0, w. split_and!; [done|constructor|done].
  - intros Hf. apply IH in Hf. destruct v as [d' c'|d' c' a']; simpl in *.
    + destruct Hf as (pre & h' & post & tr & c2 & w2 & -> & Hp & Hs).
      exists (h :: pre), h', post, ((d, kept) :: tr), c2, w2.
      split_and!; [done|by econstructor|done].
    + destruct Hf as (tr & Hp & -> & ->). exists ((d, kept) :: tr).
      split_and!; [by econstructor|by cbn [map fst]; rewrite last_cons|].
      simpl. destruct (negb _), (forallb _ tr), a0; done.
Qed.

Lemma dispatched_fires {W} (k : GovernanceKernel W) env point hs d0 c0 a0 w v w' :
  dispatched k env point hs d0 c0 a0 w v w' → fire_hooks k env point hs d0 c0 a0 w = (Ok v, w').
Proof.
  destruct v as [d c|d c a]; simpl.
  - intros (pre & h & post & tr & c1 & w1 & -> & Hp & Hs).
    rewrite (pass_dispatches _ _ _ _ _ _ _ _ _ _ _ _ Hp). cbn [fire_hooks].
    unfold mbind at 1, M_bind. by rewrite (fire_one_stops _ _ _ _ _ _ _ _ _ _ Hs).
  - intros (tr & Hp & -> & ->).
    rewrite <- (app_nil_r hs), (pass_dispatches _ _ _ _ _ _ _ _ _ _ _ _ Hp). done.
Qed.

(** C1. [fire]'s loop over the hooks of a point implements the dispatch relation exactly:
    it passes with the last decision, in the context and state the relation gives, just when
    every hook in turn allowed or transformed; it stops just when a prefix of the hooks let
    the call through and the next one denied, asked for approval or raised -- and then the
    hooks after it had no part in the result. *)
Theorem fire_hooks_refines {W} (k : GovernanceKernel W) env point hs d0 c0 a0 w v w' :
  fire_hooks k env point hs d0 c0 a0 w = (Ok v, w') ↔
  dispatched k env point hs d0 c0 a0 w v w'.
Proof. split; [apply fire_hooks_dispatched|apply dispatched_fires]. Qed.

Section passing.
Context {W : Type} (k : GovernanceKernel W) (env : KernelEnv W).

(** A pass splits where its list of hooks does. *)
Lemma pass_app point hs1 hs2 c w tr c' w' :
  pass k env point (hs1 ++ hs2) c w tr c' w' →
  ∃ tr1 tr2 c1 w1, pass k env point hs1 c w tr1 c1 w1 ∧ pass k env point hs2 c1 w1 tr2 c' w'.
Proof.
  revert c w tr. induction hs1 as [|h hs1 IH]; intros c w tr; simpl.
  { intros Hp. exists [], tr, c, w. split; [constructor|done]. }
  inversion 1 as [|? ? ? ? d w1 kept w2 c1 tr' ? ? Hc Ha Hu Ho Hp]; subst.
  apply IH in Hp as (tr1 & tr2 & c2 & w3 & H1 & H2).
  eexists _, tr2, c2, w3. split; [by econstructor|done].
Qed.

(** One hook of a pass, by itself. *)
Lemma pass_one point h hs c w tr c' w' :
  pass k env point (h :: hs) c w tr c' w' →
  ∃ d w1 kept w2 c1 tr', hook_call h c w = (Ok d, w1) ∧
    audit k env point (hook_name h) d c w1 = (Ok kept, w2) ∧
    apply_updates (hook_name h) d c = Ok c1 ∧ (outcome d = allow ∨ outcome d = transform) ∧
    pass k env point hs c1 w2 tr' c' w'.
Proof. inversion 1; subst. eauto 12. Qed.

(** The pass behind a firing that lets a call out. *)
Lemma fire_passed point ctx w d c w' :
  fire k env point ctx w = (Ok (d, c), w') → outcome d = allow ∨ outcome d = transform →
  ∃ tr w1, pass k env point (k_hooks k point) (strip_bot_id ctx) w tr c w1 ∧
    (w' = w1 ∨ (point = POST_EGRESS ∧
                w' = env_note_unrecorded env (egress_host c) (call_id_of (metadata c)) w1)).
Proof.
  intros Hf Ho. unfold fire in Hf. destruct (k_init_locked k); simpl in Hf; [|done]. run_monad.
  destruct (fire_hooks _ _ _ _ _ _ _ _) as [[v|e] w1] eqn:Hh; [|done].
  apply fire_hooks_dispatched in Hh. destruct v as [d1 c1|d1 c1 a]; simpl in Hh.
  - injection Hf as <- <- <-. destruct Hh as (? & ? & ? & ? & ? & ? & _ & _ & Hs).
    apply stops_outcome in Hs. destruct Ho, Hs; congruence.
  - destruct Hh as (tr & Hp & _). exists tr, w1. unfold settle_pass in Hf.
    destruct (_ && _ && _) in Hf; run_monad; [by injection Hf as <- <- <-; destruct Ho|].
    destruct (negb a && bool_decide (point = POST_EGRESS)) eqn:Hn; injection Hf as <- <- <-.
    + to_props. auto.
    + auto.
Qed.
End passing.

(** ** What a firing leaves alone

    A preorder on worlds that every hook of a kernel and the ledger it writes to respect is one
    every firing respects, however it ends. *)

Section leaving.
Context {W : Type} (R : W → W → Prop).

Class RespectsHook (h : Hook W) : Prop := {
  respects_call c : Respects R (hook_call h c);
  respects_bot f : hook_bot h = Some f → Respects R f;
}.

Class RespectsKernel (k : GovernanceKernel W) : Prop := {
  respects_hooks p h : h ∈ k_hooks k p → RespectsHook h;
  respects_bot_hook h : k_bot_hook k = Some h → RespectsHook h;
}.

Class RespectsEnv (env : KernelEnv W) : Prop := {
  respects_record f r : env_audit_log env = Some f → Respects R (f r);
  respects_note host call w : R w (env_note_unrecorded env host call w);
}.

Context `{!PreOrder R} (k : GovernanceKernel W) (env : KernelEnv W).
Context `{!RespectsKernel k, !RespectsEnv env}.

Lemma respects_audit point plugin d c : Respects R (audit k env point plugin d c).
Proof using All.
  unfold audit. destruct (env_audit_log env) as [f|] eqn:Hf; [|apply _].
  apply respects_try; [apply _| |intros e; apply _]. apply respects_bind; [apply _| |].
  - unfold bot_source. destruct (k_bot_hook k) as [h|] eqn:Hh; [|apply _].
    destruct (hook_bot h) as [b|] eqn:Hb; [|apply _].
    by apply (respects_bot (RespectsHook := respects_bot_hook h Hh)).
  - intros bot. apply respects_bind; [apply _..|]. intros who.
    apply respects_bind; [apply _|by apply (respects_record f)|]. intros id. apply _.
Qed.

Lemma respects_fire_one point h c a :
  RespectsHook h → Respects R (fire_one k env point h c a).
Proof using All.
  intros Hh w. pose proof (respects_call (RespectsHook := Hh) c w) as Hc. unfold fire_one.
  destruct (hook_call h c w) as [[d|e] w1]; simpl in Hc; (etrans; [exact Hc|]).
  - refine (respects_bind R _ _ (respects_audit _ _ _ _) _ w1). intros kept.
    destruct (apply_updates _ _ _); [|apply _]. destruct (outcome d); apply _.
  - refine (respects_bind R _ _ (respects_audit _ _ _ _) _ w1).
Qed.

Lemma respects_fire_hooks point hs d c a :
  (∀ h, h ∈ hs → RespectsHook h) → Respects R (fire_hooks k env point hs d c a).
Proof using All.
  revert d c a. induction hs as [|h hs IH]; intros d c a Hh; simpl; [apply _|].
  apply respects_bind; [apply _|apply respects_fire_one, Hh; left|].
  intros [d'|d' c' a']; [apply _|]. apply IH. intros g Hg. apply Hh. by right.
Qed.

Lemma respects_fire point ctx : Respects R (fire k env point ctx).
Proof using All.
  unfold fire. destruct (negb _); [apply _|].
  apply respects_bind; [apply _|apply respects_fire_hooks, respects_hooks|].
  intros [d c|d c a]; [apply _|]. unfold settle_pass. destruct (_ && _ && _); [apply _|].
  apply respects_bind; [apply _| |apply _]. destruct (_ && _); [|apply _].
  intros w. apply respects_note.
Qed.

Lemma respects_pass point hs c w tr c' w' :
  (∀ h, h ∈ hs → RespectsHook h) → pass k env point hs c w tr c' w' → R w w'.
Proof using All.
  intros Hh Hp. induction Hp as [c w|h hs c w d w1 kept w2 c1 tr c' w' Hc Ha Hu Ho Hp IH]; [reflexivity|].
  pose proof (respects_call (RespectsHook := Hh h ltac:(left)) c w) as H1. rewrite Hc in H1.
  pose proof (respects_audit point (hook_name h) d c w1) as H2. rewrite Ha in H2.
  etrans; [exact H1|]. etrans; [exact H2|]. apply IH. intros g Hg. apply Hh. by right.
Qed.
End leaving.

(** ** The ledger a kernel writes to *)

Section ledger.
Context {W : Type} (rows : W → list AuditRow).

(** What the kernel relies on of [AuditLog.record]: a call that returns has kept the row
    (in the database or in the spool), a call that raises has kept nothing. *)
Class LedgerSink (env : KernelEnv W) : Prop := {
  ledger_record rec r w :
    env_audit_log env = Some rec →
    match rec r w with
    | (Ok _, w') => rows w' = rows w ++ [r]
    | (Raise _, w') => rows w' = rows w
    end;
  ledger_note host call w : rows (env_note_unrecorded env host call w) = rows w;
}.

(** A hook that writes no ledger row of its own. *)
Class QuietHook (h : Hook W) : Prop := {
  quiet_call c w : rows (run_state (hook_call h c) w) = rows w;
  quiet_bot f w : hook_bot h = Some f → rows (run_state f w) = rows w;
}.

Class QuietKernel (k : GovernanceKernel W) : Prop := {
  quiet_hooks p h : h ∈ k_hooks k p → QuietHook h;
  quiet_bot_hook h : k_bot_hook k = Some h → QuietHook h;
}.

Context (k : GovernanceKernel W) (env : KernelEnv W) `{!LedgerSink env} `{!QuietKernel k}.

Lemma bot_source_quiet w : rows (run_state (bot_source k) w) = rows w.
Proof using All.
  unfold bot_source. destruct (k_bot_hook k) as [h|] eqn:Hk; [|done].
  destruct (hook_bot h) as [f|] eqn:Hf; [|done].
  by apply (quiet_bot (QuietHook := quiet_bot_hook h Hk)).
Qed.

Lemma audit_rows point plugin d c w kept w' :
  env_audit_log env ≠ None →
  audit k env point plugin d c w = (Ok kept, w') →
  (kept = lost ∧ rows w' = rows w) ∨
  (kept ≠ lost ∧ ∃ bot w0, run_res (bot_source k) w = Ok bot ∧
     rows w' = rows w ++ [audit_row point plugin d c (identity_of env c bot w0)]).
Proof using All.
  unfold audit. destruct (env_audit_log env) as [rec|] eqn:Hl; [|done]. intros _. run_monad.
  pose proof (bot_source_quiet w) as Hq.
  destruct (bot_source k w) as [[bot|e] w1] eqn:Hb; simpl in Hq; [|intros [= <- <-]; auto].
  pose proof (ledger_record rec (audit_row point plugin d c (identity_of env c bot w1)) w1 Hl)
    as Hr.
  destruct (rec _ w1) as [[id|e] w2]; intros [= <- <-]; [|left; by rewrite Hr, Hq].
  right. split; [by destruct (id =? 0)%Z|]. exists bot, w1. by rewrite Hr, Hq.
Qed.

(** A row the kernel wrote, with the bot id its bot hook answered. *)
Definition kernel_row (point : HookPoint) (r : AuditRow) : Prop :=
  ∃ plugin d c bot w0 w1, run_res (bot_source k) w0 = Ok bot ∧
    r = audit_row point plugin d c (identity_of env c bot w1).

Lemma audit_kernel_rows point plugin d c w kept w' :
  audit k env point plugin d c w = (Ok kept, w') →
  ∃ new, rows w' = rows w ++ new ∧ Forall (kernel_row point) new.
Proof using All.
  intros Ha. destruct (env_audit_log env) as [rec|] eqn:Hl.
  - apply audit_rows in Ha as [[_ Hr]|[_ (bot & w0 & Hb & Hr)]]; [..|by rewrite Hl].
    + exists []. rewrite app_nil_r. auto.
    + eexists [_]. split; [exact Hr|]. rewrite Forall_singleton.
      eexists _, _, _, _, _, _. split; [exact Hb|done].
  - unfold audit in Ha. rewrite Hl in Ha. injection Ha as _ <-.
    exists []. rewrite app_nil_r. auto.
Qed.

Lemma pass_kernel_rows point hs c w tr c' w' :
  (∀ h, h ∈ hs → QuietHook h) →
  pass k env point hs c w tr c' w' →
  ∃ new, rows w' = rows w ++ new ∧ Forall (kernel_row point) new.
Proof using All.
  intros Hq Hp. induction Hp as [c w|h hs c w d w1 kept w2 c1 tr c' w' Hc Ha Hu Ho Hp IH].
  { exists []. by rewrite app_nil_r. }
  destruct IH as (new & Hn & Hf); [intros h' Hh'; apply Hq; by right|].
  pose proof (quiet_call (QuietHook := Hq h ltac:(left)) c w) as Hw1. rewrite Hc in Hw1.
  apply audit_kernel_rows in Ha as (new1 & Hr & Hf1).
  exists (new1 ++ new). rewrite Hn, Hr, app_assoc. simpl in Hw1. rewrite Hw1.
  split; [done|by apply Forall_app].
Qed.

Lemma stops_kernel_rows point h c w d c' w' :
  QuietHook h → stops k env point h c w d c' w' →
  ∃ new, rows w' = rows w ++ new ∧ Forall (kernel_row point) new.
Proof using All.
  intros Hq Hs. pose proof (quiet_call c w) as Hw1.
  destruct Hs as [e w1 kept w2 Hc Ha|d w1 kept w2 c1 Hc Ha Hu Ho];
    rewrite Hc in Hw1; simpl in Hw1; apply audit_kernel_rows in Ha as (new & Hr & Hf);
    exists new; by rewrite Hr, Hw1.
Qed.

(** Every row a firing writes is a kernel row of its point. *)
Lemma fire_kernel_rows point ctx w d c w' :
  fire k env point ctx w = (Ok (d, c), w') →
  ∃ new, rows w' = rows w ++ new ∧ Forall (kernel_row point) new.
Proof using All.
  intros Hf. unfold fire in Hf. destruct (k_init_locked k); simpl in Hf; [|done]. run_monad.
  destruct (fire_hooks _ _ _ _ _ _ _ _) as [[v|e] w1] eqn:Hh; [|done].
  apply fire_hooks_dispatched in Hh. destruct v as [d1 c1|d1 c1 a]; simpl in Hh.
  - injection Hf as <- <- <-.
    destruct Hh as (pre & h & post & tr & c2 & w2 & Heq & Hp & Hs).
    assert (∀ h', h' ∈ pre ∨ h' = h → QuietHook h') as Hq.
    { intros h' Hh'. apply (quiet_hooks point). rewrite Heq.
      rewrite elem_of_app, elem_of_cons. tauto. }
    apply pass_kernel_rows in Hp as (n1 & H1 & Hf1); [|auto].
    apply stops_kernel_rows in Hs as (n2 & H2 & Hf2); [|auto].
    exists (n1 ++ n2). rewrite H2, H1, app_assoc. split; [done|by apply Forall_app].
  - destruct Hh as (tr & Hp & _). apply pass_kernel_rows in Hp as (new & Hn & Hfn);
      [|apply quiet_hooks].
    exists new. split; [|done]. rewrite <- Hn. unfold settle_pass in Hf.
    destruct (_ && _ && _) in Hf; run_monad; [by injection Hf as _ _ <-|].
    destruct (_ && _) in Hf; injection Hf as _ _ <-; [apply ledger_note|done].
Qed.

(** The rows of a pass: one per hook, in the order the hooks ran, unless a row was lost. *)
Lemma pass_rows point hs c w tr c' w' :
  env_audit_log env ≠ None →
  (∀ h, h ∈ hs → QuietHook h) →
  pass k env point hs c w tr c' w' →
  ∃ new, rows w' = rows w ++ new ∧
    (forallb (λ x, negb (bool_decide (snd x = lost))) tr = true →
       map row_plugin new = map hook_name hs) ∧
    Forall (λ r, row_hook_point r = hook_point_value point ∧
                 (row_decision r = "allow" ∨ row_decision r = "transform")) new.
Proof using All.
  intros Hl Hq Hp. induction Hp as [c w|h hs c w d w1 kept w2 c1 tr c' w' Hc Ha Hu Ho Hp IH].
  { exists []. rewrite app_nil_r. repeat split; auto. }
  destruct IH as (new & Hn & Hall & Hf); [intros h' Hh'; apply Hq; by right|].
  assert (rows w1 = rows w) as Hw1.
  { pose proof (quiet_call (QuietHook := Hq h ltac:(left)) c w) as Hqc. by rewrite Hc in Hqc. }
  apply audit_rows in Ha as [[-> Hr]|[Hk (bot & w0 & Hb & Hr)]]; [..|done].
  - exists new. rewrite Hn, Hr, Hw1. simpl. by split_and!.
  - eexists (_ :: new). rewrite Hn, Hr, Hw1, <- app_assoc. simpl. split_and!; [done| |].
    + intros [_ Ht]%andb_prop. simpl. f_equal. by apply Hall.
    + constructor; [|done]. simpl. split; [done|].
      destruct Ho as [->| ->]; simpl; auto.
Qed.
End ledger.

(** A firing that lets an effect out: the pass behind it, and its rows. *)
Lemma fire_effect_pass {W} (rows : W → list AuditRow) k env
    `{!LedgerSink rows env} `{!QuietKernel rows k} point ctx w d c w' :
  env_audit_log env ≠ None →
  fire k env point ctx w = (Ok (d, c), w') →
  outcome d = allow ∨ outcome d = transform →
  guards_an_effect point c = true →
  ∃ tr new, pass k env point (k_hooks k point) (strip_bot_id ctx) w tr c w' ∧
    rows w' = rows w ++ new ∧ map row_plugin new = hook_names k point ∧
    Forall (λ r, row_hook_point r = hook_point_value point ∧
                 (row_decision r = "allow" ∨ row_decision r = "transform")) new.
Proof.
  intros Hl Hf Ho Hg. unfold fire in Hf.
  destruct (k_init_locked k); simpl in Hf; [|done]. run_monad.
  destruct (fire_hooks _ _ _ _ _ _ _ _) as [[v|e] w1] eqn:Hh; [|done].
  apply fire_hooks_dispatched in Hh. destruct v as [d1 c1|d1 c1 a]; simpl in Hh.
  - injection Hf as <- <- <-.
    destruct Hh as (pre & h & post & tr & c2 & w2 & _ & _ & Hs).
    apply stops_outcome in Hs. destruct Ho, Hs; congruence.
  - destruct Hh as (tr & Hp & -> & ->). unfold settle_pass in Hf.
    destruct (forallb (λ x, negb (bool_decide (snd x = lost))) tr && true) eqn:Ha;
      simpl in Hf.
    + injection Hf as <- <- <-. rewrite andb_true_r in Ha.
      destruct (pass_rows rows k env point _ _ _ _ _ _ Hl (quiet_hooks rows point) Hp)
        as (new & ? & Hnew & ?). eauto 10.
    + case_bool_decide as Hd; simpl in Hf.
      * destruct (guards_an_effect point c1) eqn:Hg1; simpl in Hf.
        { run_monad. injection Hf as <- <- <-. by destruct Ho. }
        run_monad. destruct (bool_decide _); injection Hf as <- <- <-; congruence.
      * run_monad. destruct (bool_decide _); injection Hf as <- <- <-; tauto.
Qed.

(** C2. An effect happens only with its rows kept: when [fire] answers allow or transform at
    a point that guards an effect, every hook registered at the point has run, each let the
    call through, and the ledger gained exactly one row per hook, in dispatch order -- none
    was lost. *)
Theorem fire_effect_audited {W} (rows : W → list AuditRow) k env
    `{!LedgerSink rows env} `{!QuietKernel rows k} point ctx w d c w' :
  env_audit_log env ≠ None →
  fire k env point ctx w = (Ok (d, c), w') →
  outcome d = allow ∨ outcome d = transform →
  guards_an_effect point c = true →
  ∃ new, rows w' = rows w ++ new ∧
    map row_plugin new = hook_names k point ∧
    Forall (λ r, row_hook_point r = hook_point_value point ∧
                 (row_decision r = "allow" ∨ row_decision r = "transform")) new.
Proof.
  intros Hl Hf Ho Hg. destruct (fire_effect_pass rows k env _ _ _ _ _ _ Hl Hf Ho Hg) as (tr & new & _ & ?).
  by exists new.
Qed.

(** ** What an audit row says *)

Create Rewrite HintDb stamps.

Lemma lookup_stamp k v p x :
  stamp k v p !! x = if String.eqb k x then v else p !! x.
Proof.
  destruct (String.eqb_spec k x) as [<-|Hne]; destruct v; simpl.
  - apply lookup_insert_eq.
  - apply lookup_delete_eq.
  - unfold stamp. by apply lookup_insert_ne.
  - unfold stamp. by apply lookup_delete_ne.
Qed.

Lemma lookup_setdefault k v p x :
  setdefault k v p !! x
  = if String.eqb k x then (match p !! x with Some y => Some y | None => v end) else p !! x.
Proof.
  destruct (String.eqb_spec k x) as [<-|Hne]; destruct v as [v|];
    unfold setdefault.
  - destruct (p !! k) eqn:E; [by rewrite E|apply lookup_insert_eq].
  - by destruct (p !! k).
  - destruct (p !! k); [done|]. by apply lookup_insert_ne.
  - done.
Qed.

#[export] Hint Rewrite lookup_stamp lookup_setdefault : stamps.

Lemma copy_audited_skips p acc x :
  str_in x AUDITED_PAYLOAD_KEYS = false → copy_audited p acc !! x = acc !! x.
Proof.
  unfold copy_audited. generalize AUDITED_PAYLOAD_KEYS as ks.
  intros ks. revert acc. induction ks as [|y ks IH]; intros acc; simpl; [done|].
  intros Hx. apply orb_false_iff in Hx as [Hxy Hx]. rewrite IH by done.
  destruct (p !! y); [|done]. rewrite lookup_setdefault.
  by rewrite String.eqb_sym, Hxy.
Qed.

(** The keys the harness writes itself, whatever the payload or the hook says. *)
Definition IDENTITY_KEYS : list string :=
  ["caller"; BOT_ID; CALL_ID; HELD_CALL_ID; TOOL_ERROR; PARENT_CALL_ID; ATTEMPT; REPLAY_OF;
   RESUMED_FROM_RUN; "trace_id"; "session_id"; TURN_ID].

Lemma audit_payload_other point d c who x :
  str_in x IDENTITY_KEYS = false →
  audit_payload point d c who !! x = copy_audited (payload c) (audit_metadata d) !! x.
Proof.
  intros Hx. unfold IDENTITY_KEYS, str_in in Hx. simpl in Hx. to_props.
  unfold audit_payload. cbv zeta. autorewrite with stamps.
  repeat match goal with
  | H : x ≠ ?k |- context [String.eqb ?k x] =>
      rewrite (proj2 (String.eqb_neq k x)) by (intros Heq; by apply H)
  end. done.
Qed.

Lemma audit_payload_bot point d c who :
  audit_payload point d c who !! BOT_ID = VStr <$> nonempty (id_bot who).
Proof. unfold audit_payload. cbv zeta. by autorewrite with stamps. Qed.

(** Prompts, arguments and results stay out of the ledger: a key outside the kernel's
    whitelist and its identity keys reaches an audit row only when the hook itself put it in
    its decision's [audit_metadata]; a context's payload cannot put it there.  So no row
    carries the [prompt], [text], [args] or [result] of a call whose hook did not. *)
Theorem audit_payload_closed point d c who x :
  str_in x AUDITED_PAYLOAD_KEYS = false →
  str_in x IDENTITY_KEYS = false →
  audit_payload point d c who !! x = audit_metadata d !! x.
Proof. intros Hw Hi. rewrite audit_payload_other by done. by apply copy_audited_skips. Qed.

Lemma audit_payload_closed_witness :
  let c := {| ctx_hook_point := PRE_LLM_CALL; run_id := "r"; agent_type := "chat";
              step_id := None; persona := None; route := None; payload := <["prompt" := VStr "my diary"]> (<["model" := VStr "m"]> ∅);
              classification := Some personal; tier := Some tier_1; metadata := ∅ |} in
  let who := {| id_bot := None; id_lineage := None; id_resumed := false; id_trace := None;
                id_session := Some "s"; id_turn := None |} in
  audit_payload PRE_LLM_CALL no_hooks_decision c who !! "prompt" = None ∧
  audit_payload PRE_LLM_CALL no_hooks_decision c who !! "model" = Some (VStr "m").
Proof.
  split; [|reflexivity].
  refine (audit_payload_closed PRE_LLM_CALL no_hooks_decision _ _ "prompt" _ _); reflexivity.
Defined.

Lemma apply_updates_bot_id name d c c' :
  metadata c !! BOT_ID = None →
  apply_updates name d c = Ok c' → metadata c' !! BOT_ID = None.
Proof.
  intros Hb. unfold apply_updates.
  assert (∀ o, (match o with Some key => <[SIDE_EFFECT_ID:=VStr key]> (metadata c)
                | None => metadata c end) !! BOT_ID = None) as Hm.
  { intros [key|]; [by rewrite lookup_insert_ne|done]. }
  destruct (outcome d), (transformed_payload d); try (intros [= <-]; apply Hm).
  destruct (append_transformed_by _ _); intros [= <-]; simpl.
  rewrite lookup_insert_ne by done. apply Hm.
Qed.

Section bot_identity.
Context {W : Type} (k : GovernanceKernel W) (env : KernelEnv W).

(** Every context a hook is called with during a pass. *)
Inductive hook_sees (point : HookPoint) : list (Hook W) → HookContext → W → HookContext → Prop :=
| sees_here h hs c w : hook_sees point (h :: hs) c w c
| sees_later h hs c w d w1 kept w2 c1 c2 :
    hook_call h c w = (Ok d, w1) →
    audit k env point (hook_name h) d c w1 = (Ok kept, w2) →
    apply_updates (hook_name h) d c = Ok c1 →
    hook_sees point hs c1 w2 c2 →
    hook_sees point (h :: hs) c w c2.

Lemma hook_sees_no_bot_id point hs c w c2 :
  hook_sees point hs c w c2 → metadata c !! BOT_ID = None → metadata c2 !! BOT_ID = None.
Proof.
  induction 1 as [|h hs c w d w1 kept w2 c1 c2 Hc Ha Hu Hs IH]; [done|].
  intros Hb. apply IH. by eapply apply_updates_bot_id.
Qed.
End bot_identity.

Lemma strip_bot_id_none c : metadata (strip_bot_id c) !! BOT_ID = None.
Proof.
  unfold strip_bot_id. destruct (metadata c !! BOT_ID) eqn:E; [|done].
  simpl. apply lookup_delete_eq.
Qed.

(** C3. Only the kernel names a bot: whatever [bot_id] a caller puts in a call's metadata, no
    hook of the firing ever sees one, and every row the firing writes carries exactly the id
    the kernel's own bot status hook answered when the row was written -- none at all in the
    owner's process, whatever the payload, the metadata or a hook's [audit_metadata] says. *)
Theorem bot_id_authentic {W} (rows : W → list AuditRow) k env
    `{!LedgerSink rows env} `{!QuietKernel rows k} point ctx w d c w' :
  fire k env point ctx w = (Ok (d, c), w') →
  (∀ c1, hook_sees k env point (k_hooks k point) (strip_bot_id ctx) w c1 →
         metadata c1 !! BOT_ID = None) ∧
  ∃ new, rows w' = rows w ++ new ∧
    Forall (λ r, ∃ bot w0, run_res (bot_source k) w0 = Ok bot ∧
                 row_payload r !! BOT_ID = VStr <$> nonempty bot) new ∧
    (k_bot_hook k = None → Forall (λ r, row_payload r !! BOT_ID = None) new).
Proof.
  intros Hf. split.
  { intros c1 Hs. eapply hook_sees_no_bot_id; [exact Hs|apply strip_bot_id_none]. }
  apply (fire_kernel_rows rows) in Hf as (new & Hn & Hk); [|done..].
  exists new. split_and!; [done| |].
  - eapply Forall_impl; [exact Hk|]. intros r (pl & d1 & c1 & bot & w0 & w1 & Hb & ->).
    exists bot, w0. split; [done|]. apply audit_payload_bot.
  - intros Hno. eapply Forall_impl; [exact Hk|].
    intros r (pl & d1 & c1 & bot & w0 & w1 & Hb & ->). unfold bot_source in Hb.
    rewrite Hno in Hb. injection Hb as <-. apply audit_payload_bot.
Qed.

(** ** Registration *)

Section registration.
Context {W : Type}.
Implicit Types (k : GovernanceKernel W) (h : Hook W).

(** [build_default_kernel]'s calls: register the hooks in order. *)
Fixpoint register_all (rs : list (Hook W * option HookPoint)) k : res (GovernanceKernel W) :=
  match rs with
  | [] => Ok k
  | (h, at_) :: rs' =>
      match register h at_ k with
      | Ok k' => register_all rs' k'
      | Raise e => Raise e
      end
  end.

Definition point_of (r : Hook W * option HookPoint) : HookPoint := default (hook_at r.1) r.2.

Definition registered_at (p : HookPoint) (rs : list (Hook W * option HookPoint))
    : list (Hook W) :=
  map fst (List.filter (λ r, bool_decide (point_of r = p)) rs).

Lemma register_hooks h at_ k k' p :
  register h at_ k = Ok k' →
  k_init_locked k = false ∧ k_init_locked k' = false ∧
  k_hooks k' p = if decide (p = point_of (h, at_))
                 then sort_by hook_priority (k_hooks k p ++ [h]) else k_hooks k p.
Proof.
  unfold register. destruct (k_init_locked k); [done|]. intros Hr.
  assert (∃ bot, k' = {| k_hooks := set_hooks (point_of (h, at_))
    (sort_by hook_priority (k_hooks k (point_of (h, at_)) ++ [h])) (k_hooks k);
    k_init_locked := false; k_bot_hook := bot |}) as (bot & ->).
  { unfold point_of. simpl. repeat case_match; simplify_eq; eauto. }
  simpl. unfold set_hooks. split_and!; [done|done|].
  destruct (decide (p = point_of (h, at_))) as [->|]; done.
Qed.

Lemma register_all_hooks rs k k' p l :
  k_hooks k p = sort_by hook_priority l →
  register_all rs k = Ok k' →
  k_hooks k' p = sort_by hook_priority (l ++ registered_at p rs).
Proof.
  revert k l. induction rs as [|[h at_] rs IH]; intros k l Hk; simpl.
  { intros [= <-]. by rewrite app_nil_r. }
  destruct (register h at_ k) as [k1|e] eqn:Hr; [|done]. intros Ha.
  apply (register_hooks _ _ _ _ p) in Hr as (_ & _ & Hp).
  unfold registered_at. simpl. fold (registered_at p rs).
  destruct (decide (p = point_of (h, at_))) as [Heq|Hne].
  - rewrite bool_decide_eq_true_2 by done. simpl.
    change (h :: map fst _) with ([h] ++ registered_at p rs).
    rewrite app_assoc. eapply IH; [|done].
    by rewrite Hp, Hk, sort_by_resort.
  - rewrite bool_decide_eq_false_2 by done. eapply IH; [|done]. by rewrite Hp.
Qed.
End registration.

(** Dispatch order is fixed by priority and registration order alone: at every point a
    kernel runs the hooks registered there sorted by ascending priority, equal priorities in
    the order they were registered; and after [init_lock] every registration raises. *)
Theorem register_order {W} (rs : list (Hook W * option HookPoint)) k p :
  register_all rs new_kernel = Ok k →
  k_hooks k p ≡ₚ registered_at p rs ∧
  StronglySorted (key_le hook_priority) (k_hooks k p) ∧
  (∀ n, select_where (λ h, hook_priority h =? n)%Z (k_hooks k p)
        = select_where (λ h, hook_priority h =? n)%Z (registered_at p rs)) ∧
  (∀ h at_, ∃ e, register h at_ (init_lock k) = Raise e).
Proof.
  intros Hr. apply (register_all_hooks _ _ _ p []) in Hr; [|done].
  rewrite Hr. simpl app. split_and!.
  - apply sort_by_perm.
  - apply sort_by_sorted.
  - intros n. apply sort_by_stable.
  - intros h at_. by eexists.
Qed.

(** ** A concrete world

    The world is the ledger alone; the kernel has one hook that allows and one that asks for
    nothing but rewrites the payload. *)

Definition ledger_env : KernelEnv (list AuditRow) :=
  {| env_audit_log := Some (λ r w, (Ok (Z.of_nat (S (length w))), w ++ [r]));
     env_lineage_of := λ _ _, None; env_is_run_resumed := λ _ _, false;
     env_session_id := λ _, Some "s"; env_turn_id := λ _, None; env_trace_id := λ _, None;
     env_note_unrecorded := λ _ _ w, w |}.

Definition say (ident : nat) (name : string) (p : Z) (d : HookDecision)
    : Hook (list AuditRow) :=
  {| hook_ident := ident; hook_name := name; hook_at := PRE_TOOL_USE; hook_priority := p;
     hook_call := λ _, mret d; hook_bot := None |}.

Definition rewrite_args : HookDecision :=
  {| outcome := transform; reason := "masked"; transformed_payload := Some {[ "args" := VDict [] ]};
     set_classification := None; set_tier := None; approval_request_id := None;
     severity := info; audit_metadata := ∅; decided_by := None |}.

Definition two_hooks : list (Hook (list AuditRow) * option HookPoint) :=
  [(say 1 "second" 20 (mk_decision allow "ok" info ∅), None);
   (say 2 "first" 10 rewrite_args, None)].

Definition demo_kernel : GovernanceKernel (list AuditRow) :=
  match register_all two_hooks new_kernel with Ok k => init_lock k | Raise _ => new_kernel end.

Definition write_call : HookContext :=
  {| ctx_hook_point := PRE_TOOL_USE; run_id := "r"; agent_type := "chat"; step_id := None; persona := None; route := None;
     payload := {[ "tool_name" := VStr "shell" ]}; classification := None; tier := None;
     metadata := <[TOOL_EFFECT := VStr "write"]> {[ BOT_ID := VStr "forged" ]} |}.

#[export] Instance ledger_env_sink : LedgerSink id ledger_env.
Proof. split; [|done]. intros rec r w [= <-]. done. Qed.

#[export] Instance demo_kernel_quiet : QuietKernel id demo_kernel.
Proof.
  split; [|done]. intros p h Hh. vm_compute in Hh.
  destruct p; try (by apply elem_of_nil in Hh).
  apply elem_of_cons in Hh as [->|[->|[]%elem_of_nil]%elem_of_cons]; by split.
Qed.

Lemma fire_effect_audited_witness :
  ∃ d c w' new, fire demo_kernel ledger_env PRE_TOOL_USE write_call [] = (Ok (d, c), w') ∧
    w' = new ∧ map row_plugin new = ["first"; "second"].
Proof.
  eexists _, _, _, _. split; [vm_compute; reflexivity|].
  destruct (fire_effect_audited id demo_kernel ledger_env PRE_TOOL_USE write_call [] _ _ _
    ltac:(discriminate) ltac:(vm_compute; reflexivity) ltac:(left; reflexivity)
    ltac:(vm_compute; reflexivity)) as (new & Hw & Hp & _).
  split; [reflexivity|]. simpl in Hw. rewrite Hw. exact Hp.
Defined.

Lemma bot_id_authentic_witness :
  ∃ d c w', fire demo_kernel ledger_env PRE_TOOL_USE write_call [] = (Ok (d, c), w') ∧
    Forall (λ r, row_payload r !! BOT_ID = None) w'.
Proof.
  eexists _, _, _. split; [vm_compute; reflexivity|].
  destruct (bot_id_authentic id demo_kernel ledger_env PRE_TOOL_USE write_call [] _ _ _
    ltac:(vm_compute; reflexivity)) as (_ & new & Hw & _ & Hn).
  simpl in Hw. rewrite Hw. apply Hn. reflexivity.
Defined.

Lemma register_order_witness :
  ∃ k, register_all two_hooks new_kernel = Ok k ∧
    k_hooks k PRE_TOOL_USE ≡ₚ map fst two_hooks.
Proof.
  eexists. split; [vm_compute; reflexivity|].
  exact (proj1 (register_order two_hooks _ PRE_TOOL_USE ltac:(vm_compute; reflexivity))).
Defined.
