(* ===== verification/Egress.v ===== *)
(** * The egress policy and gate ([egress_policy.py], [plugins/egress_gate.py])

    The class -> furthest-tier table, its validation, and the [PreLLMCall] check that decides
    every model call by the prompt's class and the call's target tier. *)

From S2P Require Import Prelude PyVal Hooks Kernel.
From stdpp Require Import options.

(** ** The policy *)

Definition CLASSES : list DataClassification := [public; internal; personal; secret].

Definition TIER_RANK (t : LLMTier) : Z :=
  match t with tier_1 => 1 | tier_2 => 2 | tier_3 => 3 end.

Inductive OnViolation := on_deny | on_require_approval.

#[export] Instance OnViolation_eq_dec : EqDecision OnViolation.
Proof. solve_decision. Defined.

Record ClassRule := { max_tier : LLMTier; on_violation : OnViolation }.

(** A validated [EgressPolicy]: a rule for every class. *)
Record EgressPolicy := { rule : DataClassification → ClassRule }.

(** The parsed mapping before validation. *)
Definition raw_classes := DataClassification → option ClassRule.

(** [_complete_and_safe] *)
Definition complete_and_safe (raw : raw_classes) : res EgressPolicy :=
  let missing := List.filter (λ c, bool_decide (raw c = None)) CLASSES in
  match missing with
  | _ :: _ => Raise (Exn "ValueError"
                ("egress policy: no rule for " +:+ join ", " (map class_str missing)))
  | [] =>
      match raw secret with
      | None => Raise (Exn "KeyError" "'secret'")
      | Some s =>
          if bool_decide (max_tier s = tier_3) then
            Raise (Exn "ValueError" "egress policy: secret is local only; it may never reach tier_3")
          else if bool_decide (on_violation s ≠ on_deny) then
            Raise (Exn "ValueError" "egress policy: a secret violation is always a hard deny")
          else Ok {| rule := λ c, default s (raw c) |}
      end
  end.

(** [allows] *)
Definition allows (p : EgressPolicy) (c : DataClassification) (t : LLMTier) : bool :=
  (TIER_RANK t <=? TIER_RANK (max_tier (rule p c)))%Z.

(** The shipped table ([config/governance/egress.yaml]). *)
Definition shipped_classes : raw_classes := λ c,
  Some match c with
       | public => {| max_tier := tier_3; on_violation := on_deny |}
       | internal => {| max_tier := tier_3; on_violation := on_deny |}
       | personal => {| max_tier := tier_2; on_violation := on_require_approval |}
       | secret => {| max_tier := tier_2; on_violation := on_deny |}
       end.

(** ** The gate *)

Record EgressGate := {
  trusted_cloud_for : list DataClassification;
  gate_policy : EgressPolicy;
}.

Definition new_egress_gate (trusted : list DataClassification) (p : EgressPolicy)
    : res EgressGate :=
  if bool_decide (secret ∈ trusted) then
    Raise (Exn "ValueError"
      "'secret' classification cannot be in trusted_cloud_for; secret data must never leave the owner's machines.")
  else Ok {| trusted_cloud_for := trusted; gate_policy := p |}.

Definition gate_metadata (c : DataClassification) (t : LLMTier) : dict :=
  <["classification" := VStr (class_str c)]> (<["target_tier" := VStr (tier_str t)]> ∅).

(** [_handle_violation] *)
Definition handle_violation (g : EgressGate) (c : DataClassification) (t : LLMTier)
    : HookDecision :=
  let r := rule (gate_policy g) c in
  let m := <["max_tier" := VStr (tier_str (max_tier r))]> (gate_metadata c t) in
  match on_violation r with
  | on_require_approval =>
      if bool_decide (t = tier_3) && bool_decide (c ∈ trusted_cloud_for g) then
        mk_decision allow
          ("egress_gate: " +:+ class_str c +:+ " data to trusted cloud (approval bypassed)")
          warn (<["bypass" := VStr "trusted_cloud_for"]> m)
      else
        mk_decision require_approval
          ("egress_gate: " +:+ class_str c +:+ " data to " +:+ tier_str t
           +:+ " requires user approval") warn m
  | on_deny =>
      let why :=
        if bool_decide (t = tier_3) then
          "egress_gate: " +:+ class_str c +:+ " data never leaves the owner's machines (target="
          +:+ tier_str t +:+ ")"
        else
          "egress_gate: " +:+ class_str c +:+ " data may reach at most "
          +:+ tier_str (max_tier r) +:+ " (target=" +:+ tier_str t +:+ ")" in
      mk_decision deny why critical m
  end.

(** [EgressGate.__call__] *)
Definition egress_gate_call (g : EgressGate) (ctx : HookContext) : HookDecision :=
  match tier ctx with
  | None =>
      mk_decision deny "egress_gate: target tier not set on PreLLMCall context" error
        (<["missing" := VStr "tier"]> ∅)
  | Some t =>
      match classification ctx with
      | None =>
          let m := <["target_tier" := VStr (tier_str t)]> ∅ in
          if bool_decide (t = tier_3) then
            mk_decision deny "egress_gate: unclassified prompt to cloud (fail-closed)" error m
          else
            mk_decision allow
              ("egress_gate: unclassified prompt to " +:+ tier_str t +:+ " permitted (local)")
              warn m
      | Some c =>
          if negb (allows (gate_policy g) c t) then handle_violation g c t
          else if bool_decide (c = internal) && bool_decide (t = tier_3) then
            mk_decision allow "egress_gate: internal data to cloud — redaction recommended" warn
              (<["would_redact" := VBool true]> (gate_metadata c t))
          else
            mk_decision allow
              ("egress_gate: " +:+ class_str c +:+ " -> " +:+ tier_str t +:+ " permitted")
              info (gate_metadata c t)
      end
  end.

Definition egress_gate_hook {W} (ident : nat) (g : EgressGate) : Hook W :=
  {| hook_ident := ident; hook_name := "egress_gate"; hook_at := PRE_LLM_CALL;
     hook_priority := 30; hook_call := λ ctx, mret (egress_gate_call g ctx);
     hook_bot := None |}.

(** ** Properties *)

(** When the gate lets a call through: the specification the decision table implements. *)
Definition gate_permits (g : EgressGate) (oc : option DataClassification) (ot : option LLMTier)
    : Prop :=
  match ot with
  | None => False
  | Some t =>
      match oc with
      | None => t ≠ tier_3
      | Some c =>
          (TIER_RANK t ≤ TIER_RANK (max_tier (rule (gate_policy g) c)))%Z ∨
          (on_violation (rule (gate_policy g) c) = on_require_approval ∧ t = tier_3 ∧
           c ∈ trusted_cloud_for g)
      end
  end.

Lemma handle_violation_outcome g c t :
  (outcome (handle_violation g c t) = allow ↔
   on_violation (rule (gate_policy g) c) = on_require_approval ∧ t = tier_3 ∧
   c ∈ trusted_cloud_for g) ∧ outcome (handle_violation g c t) ≠ transform.
Proof.
  unfold handle_violation. destruct (on_violation _).
  - split; [|done]. split; [done|]. by intros [? _].
  - case_bool_decide; simpl; [|split; [|done]; split; [done|tauto]].
    case_bool_decide; simpl; split; try done; split; try done; tauto.
Qed.

Lemma gate_allow_iff g ctx :
  outcome (egress_gate_call g ctx) = allow ↔ gate_permits g (classification ctx) (tier ctx).
Proof.
  unfold egress_gate_call, gate_permits. destruct (tier ctx) as [t|]; [|done].
  destruct (classification ctx) as [c|]; [|by case_bool_decide].
  unfold allows. destruct (Z.leb_spec (TIER_RANK t) (TIER_RANK (max_tier (rule (gate_policy g) c))))
    as [Hle|Hgt]; simpl.
  - split; [by left|]. intros _. by destruct (_ && _).
  - rewrite (proj1 (handle_violation_outcome g c t)). split; [by right|].
    intros [?|?]; [lia|done].
Qed.

Lemma gate_never_transforms g ctx : outcome (egress_gate_call g ctx) ≠ transform.
Proof.
  unfold egress_gate_call. destruct (tier ctx) as [t|]; [|done].
  destruct (classification ctx) as [c|]; [|by case_bool_decide].
  destruct (allows _ _ _); simpl; [by destruct (_ && _)|].
  apply handle_violation_outcome.
Qed.

Lemma gate_annotates_nothing g ctx :
  set_classification (egress_gate_call g ctx) = None ∧ set_tier (egress_gate_call g ctx) = None.
Proof.
  unfold egress_gate_call, handle_violation.
  repeat (case_match; try case_bool_decide; simpl; try done).
Qed.

(** What every validated policy guarantees of its [secret] rule. *)
Lemma complete_and_safe_secret raw p :
  complete_and_safe raw = Ok p →
  max_tier (rule p secret) ≠ tier_3 ∧ on_violation (rule p secret) = on_deny ∧
  ∀ c, raw c = Some (rule p c).
Proof.
  unfold complete_and_safe. destruct (List.filter _ _) as [|x l] eqn:Hm; [|done].
  destruct (raw secret) as [s|] eqn:Hs; [|done].
  case_bool_decide as Ht; [done|]. case_bool_decide as Hv; [done|]. intros [= <-]. simpl.
  rewrite Hs. split_and!; simpl; [done|by destruct (decide (on_violation s = on_deny))|].
  intros c. destruct (raw c) as [r|] eqn:Hc; [done|]. exfalso.
  assert (In c (List.filter (λ c, bool_decide (raw c = None)) CLASSES)) as Hin.
  { apply filter_In. split; [destruct c; simpl; tauto|by apply bool_decide_eq_true]. }
  by rewrite Hm in Hin.
Qed.

(** No gate over a validated policy lets [secret] data toward the cloud. *)
Lemma no_gate_permits_secret raw p trusted g :
  complete_and_safe raw = Ok p → new_egress_gate trusted p = Ok g →
  ¬ gate_permits g (Some secret) (Some tier_3).
Proof.
  intros (Hm & Hv & _)%complete_and_safe_secret Hg. unfold new_egress_gate in Hg.
  case_bool_decide; [done|]. injection Hg as <-. simpl.
  intros [Hle|[Hra _]]; [|congruence]. by destruct (max_tier (rule p secret)).
Qed.

(** The privacy promise, for every table the loader accepts and every [trusted_cloud_for]
    the gate accepts: the gate lets a call through exactly when [gate_permits] says so, never
    rewrites it, and a call whose data is [secret] toward [tier_3] is always refused, as a
    hard deny of critical severity. *)
Theorem egress_gate_secret_local raw p trusted g ctx :
  complete_and_safe raw = Ok p →
  new_egress_gate trusted p = Ok g →
  (outcome (egress_gate_call g ctx) = allow ↔ gate_permits g (classification ctx) (tier ctx)) ∧
  (classification ctx = Some secret → tier ctx = Some tier_3 →
   outcome (egress_gate_call g ctx) = deny ∧ severity (egress_gate_call g ctx) = critical).
Proof.
  intros Hp Hg. apply complete_and_safe_secret in Hp as (Ht & Hv & _).
  unfold new_egress_gate in Hg. case_bool_decide as Htr; [done|]. injection Hg as <-.
  split; [apply gate_allow_iff|]. intros Hc Hti.
  unfold egress_gate_call. rewrite Hc, Hti. unfold allows. simpl.
  assert ((TIER_RANK (max_tier (rule p secret)) <? 3)%Z = true) as Hlt.
  { destruct (max_tier (rule p secret)); done. }
  destruct (Z.leb_spec 3 (TIER_RANK (max_tier (rule p secret)))); to_props; [lia|].
  simpl. unfold handle_violation. simpl. by rewrite Hv.
Qed.

Lemma egress_gate_secret_local_witness :
  ∃ p g,
    complete_and_safe shipped_classes = Ok p ∧ new_egress_gate [personal] p = Ok g ∧
    let ctx := {| ctx_hook_point := PRE_LLM_CALL; run_id := "r"; agent_type := "chat";
                  step_id := None; persona := None; route := None; payload := ∅; classification := Some secret;
                  tier := Some tier_3; metadata := ∅ |} in
    outcome (egress_gate_call g ctx) = deny.
Proof.
  eexists _, _. split; [reflexivity|]. split; [reflexivity|].
  refine (proj1 (proj2 (egress_gate_secret_local shipped_classes _ [personal] _ _ _ _) _ _));
    reflexivity.
Defined.

(** ** The gate inside the kernel *)

Section gated_kernel.
Context {W : Type} (k : GovernanceKernel W) (env : KernelEnv W).

(** A hook that changes neither the class nor the tier of the call. *)
Definition keeps_label (h : Hook W) : Prop :=
  ∀ c w d w', hook_call h c w = (Ok d, w') → set_classification d = None ∧ set_tier d = None.

Lemma apply_updates_keeps name d c c' :
  set_classification d = None → set_tier d = None →
  apply_updates name d c = Ok c' →
  classification c' = classification c ∧ tier c' = tier c.
Proof.
  intros Hc Ht. unfold apply_updates. rewrite Hc, Ht.
  destruct (outcome d), (transformed_payload d); try (by intros [= <-]).
  by destruct (append_transformed_by _ _); intros [= <-].
Qed.

Lemma pass_keeps_label point hs c w tr c' w' :
  (∀ h, h ∈ hs → keeps_label h) →
  pass k env point hs c w tr c' w' →
  classification c' = classification c ∧ tier c' = tier c.
Proof.
  intros Hk Hp. induction Hp as [|h hs c w d w1 kept w2 c1 tr c' w' Hc Ha Hu Ho Hp IH]; [done|].
  destruct IH as [Hc' Ht']; [intros h' ?; apply Hk; by right|].
  destruct (Hk h ltac:(left) _ _ _ _ Hc) as [Hd1 Hd2].
  apply apply_updates_keeps in Hu as [? ?]; [|done..]. split; congruence.
Qed.

Lemma pass_through_gate ident g pre post c w tr c' w' :
  (∀ h, h ∈ post → keeps_label h) →
  pass k env PRE_LLM_CALL (pre ++ egress_gate_hook ident g :: post) c w tr c' w' →
  gate_permits g (classification c') (tier c').
Proof.
  intros Hpost (tr1 & tr2 & c1 & w1 & _ & Hp)%pass_app.
  inversion Hp as [|? ? ? ? d w2 kept w3 c2 tr' ? ? Hc Ha Hu Ho Hp']; subst.
  simpl in Hc. injection Hc as <- <-.
  destruct (pass_keeps_label _ _ _ _ _ _ _ Hpost Hp') as [-> ->].
  destruct (gate_annotates_nothing g c1) as [Hn1 Hn2].
  apply apply_updates_keeps in Hu as [-> ->]; [|done..].
  apply gate_allow_iff. destruct Ho as [Ho|Ho]; [done|]. by apply gate_never_transforms in Ho.
Qed.
End gated_kernel.

(** C15. No secret reaches the cloud through a kernel that has the gate: whatever the other
    hooks at [PreLLMCall] are and do -- rewrite the prompt, relabel it before the gate, raise,
    ask -- if none after the gate relabels the call and [fire] answers allow or transform,
    then the call it lets out is one [gate_permits] permits; in particular it is not [secret]
    data toward [tier_3], and toward [tier_3] it is never unclassified. *)
Theorem gated_kernel_no_secret_to_cloud {W} (k : GovernanceKernel W) env raw p trusted g ident
    pre post ctx w d c w' :
  complete_and_safe raw = Ok p →
  new_egress_gate trusted p = Ok g →
  k_hooks k PRE_LLM_CALL = pre ++ egress_gate_hook ident g :: post →
  (∀ h, h ∈ post → keeps_label h) →
  fire k env PRE_LLM_CALL ctx w = (Ok (d, c), w') →
  outcome d = allow ∨ outcome d = transform →
  gate_permits g (classification c) (tier c) ∧
  (tier c = Some tier_3 → classification c ≠ Some secret ∧ classification c ≠ None).
Proof.
  intros Hp Hg Hk Hpost Hf Ho.
  assert (gate_permits g (classification c) (tier c)) as Hperm.
  { destruct (fire_passed k env _ _ _ _ _ _ Hf Ho) as (tr & w1 & Hpass & _).
    rewrite Hk in Hpass. by eapply pass_through_gate. }
  split; [done|]. intros Ht. rewrite Ht in Hperm.
  split; intros Hc; rewrite Hc in Hperm; [|done].
  by apply (no_gate_permits_secret raw p trusted g Hp Hg).
Qed.

(** A kernel whose only hook is the gate, asked about personal data bound for the cloud that
    the owner trusts with it. *)
Definition gate_only (g : EgressGate) : GovernanceKernel (list AuditRow) :=
  {| k_hooks := λ p, if decide (p = PRE_LLM_CALL) then [egress_gate_hook 1 g] else [];
     k_init_locked := true; k_bot_hook := None |}.

Definition cloud_call (c : DataClassification) : HookContext :=
  {| ctx_hook_point := PRE_LLM_CALL; run_id := "r"; agent_type := "chat"; step_id := None; persona := None; route := None;
     payload := ∅; classification := Some c; tier := Some tier_3; metadata := ∅ |}.

Lemma gated_kernel_no_secret_to_cloud_witness :
  ∃ p g d c w', complete_and_safe shipped_classes = Ok p ∧
    new_egress_gate [personal] p = Ok g ∧
    fire (gate_only g) ledger_env PRE_LLM_CALL (cloud_call personal) [] = (Ok (d, c), w') ∧
    outcome d = allow ∧ gate_permits g (classification c) (tier c).
Proof.
  eexists _, _, _, _, _. split; [reflexivity|]. split; [reflexivity|].
  split; [vm_compute; reflexivity|]. split; [reflexivity|].
  refine (proj1 (gated_kernel_no_secret_to_cloud (gate_only _) ledger_env shipped_classes _
    [personal] _ 1 [] [] (cloud_call personal) [] _ _ _ _ _ _ _ _ _)).
  - reflexivity.
  - reflexivity.
  - reflexivity.
  - intros h Hh. by apply elem_of_nil in Hh.
  - vm_compute. reflexivity.
  - left. reflexivity.
Defined.
