(* ===== verification/Transport.v ===== *)
(** * Addresses a connection may go to ([runtime/egress_transport.py])

    The network side of the governed HTTP client: one lookup of the host's name, the check of
    every address it answered, and the connection to a checked one under the request's
    deadline.  [ipaddress] of the standard library is modelled: reading an address of either
    version, membership in a network, and the blocks that are not globally reachable. *)

From S2P Require Import Prelude PyText.
From stdpp Require Import options.

(** ** [ipaddress] *)

Inductive IpAddr : Type := V4 (n : Z) | V6 (n : Z).

#[export] Instance IpAddr_eq_dec : EqDecision IpAddr.
Proof. solve_decision. Defined.

Definition ascii_digit (c : ascii) : bool := match digit_val c with Some _ => true | None => false end.

Definition parse_octet (s : string) : option Z :=
  if str_truthy s && str_all ascii_digit s && (String.length s <=? 3)
     && (String.eqb s "0" || negb (startswith "0" s))
  then match int_from 0 s with
       | Some n => if (n <=? 255)%Z then Some n else None
       | None => None
       end
  else None.

Definition ip4 (a b c d : Z) : Z := (((a * 256 + b) * 256 + c) * 256 + d)%Z.

(** [IPv4Address(s)] *)
Definition parse_ip4 (s : string) : option Z :=
  match mapM parse_octet (split_char "." s) with
  | Some [a; b; c; d] => Some (ip4 a b c d)
  | _ => None
  end.

(** [str(IPv4Address(n))] *)
Definition ip4_str (n : Z) : string :=
  join "." (map (λ b : Z, pretty (Z.to_N b))
    [n / 16777216; (n / 65536) mod 256; (n / 256) mod 256; n mod 256]%Z).

Definition hex_val (c : ascii) : option Z :=
  let n := Z.of_N (N_of_ascii c) in
  if ((48 <=? n) && (n <=? 57))%Z then Some (n - 48)%Z
  else if ((97 <=? n) && (n <=? 102))%Z then Some (n - 87)%Z
  else if ((65 <=? n) && (n <=? 70))%Z then Some (n - 55)%Z
  else None.

Fixpoint hex_from (acc : Z) (s : string) : option Z :=
  match s with
  | EmptyString => Some acc
  | String c s' => match hex_val c with Some d => hex_from (16 * acc + d) s' | None => None end
  end.

Definition parse_hextet (s : string) : option Z :=
  if str_truthy s && (String.length s <=? 4) then hex_from 0 s else None.

Definition hextets_value (l : list Z) : Z := fold_left (λ acc h, acc * 65536 + h)%Z l 0%Z.

(** The positions of the empty texts of [l], counted from [i]. *)
Fixpoint empty_at (i : nat) (l : list string) : list nat :=
  match l with
  | [] => []
  | s :: l' => if str_truthy s then empty_at (S i) l' else i :: empty_at (S i) l'
  end.

(** The texts on one side of [::]: an empty outer end is allowed only right beside it. *)
Definition beside_gap (outer_empty : bool) (l : list string) : option (list string) :=
  if outer_empty then (if length l =? 1 then Some [] else None) else Some l.

(** The value of the colon-separated parts of an IPv6 text. *)
Definition hextets_of (parts : list string) : option Z :=
  match empty_at 1 (removelast (tail parts)) with
  | [] => if length parts =? 8 then hextets_value <$> mapM parse_hextet parts else None
  | [i] =>
      match beside_gap (negb (str_truthy (default "" (head parts)))) (take i parts),
            beside_gap (negb (str_truthy (List.last parts ""))) (drop (S i) parts) with
      | Some hi, Some lo =>
          if length hi + length lo <=? 7 then
            match mapM parse_hextet hi, mapM parse_hextet lo with
            | Some h, Some l =>
                Some (hextets_value h * 2 ^ (16 * (8 - Z.of_nat (length hi))) + hextets_value l)%Z
            | _, _ => None
            end
          else None
      | _, _ => None
      end
  | _ => None
  end.

(** A dotted IPv4 at the end of the parts is two hextets. *)
Definition with_dotted_tail (parts : list string) : option (list string) :=
  let last := List.last parts "" in
  if str_any (Ascii.eqb ".") last then
    match parse_ip4 last with
    | Some n =>
        let hex4 x := hex2 (Z.to_N (x / 256)) +:+ hex2 (Z.to_N (x mod 256)) in
        Some (removelast parts ++ [hex4 (n / 65536)%Z; hex4 (n mod 65536)%Z])
    | None => None
    end
  else Some parts.

(** [IPv6Address(s)] *)
Definition parse_ip6 (s : string) : option Z :=
  if str_any (Ascii.eqb "/") s then None else
  let addr := match split_first "%" s with
              | Some (l, scope) =>
                  if str_truthy scope && negb (str_any (Ascii.eqb "%") scope) then Some l else None
              | None => Some s
              end in
  match addr with
  | None => None
  | Some a =>
      let parts := split_char ":" a in
      if length parts <? 3 then None else
      match with_dotted_tail parts with
      | Some parts => if 9 <? length parts then None else hextets_of parts
      | None => None
      end
  end.

(** [ipaddress.ip_address(s)]; [None] is its [ValueError]. *)
Definition ip_address (s : string) : option IpAddr :=
  match parse_ip4 s with
  | Some n => Some (V4 n)
  | None => V6 <$> parse_ip6 s
  end.

(** A network: its first address and the length of its prefix. *)
Definition in_net (width : Z) (n : Z) (net : Z * Z) : bool :=
  (n / 2 ^ (width - net.2) =? net.1 / 2 ^ (width - net.2))%Z.
Definition in_any (width : Z) (n : Z) (nets : list (Z * Z)) : bool := existsb (in_net width n) nets.

(** The blocks that are not globally reachable, and the exceptions inside them (CPython from
    3.12.4 on). *)
Definition private_v4 : list (Z * Z) :=
  [(ip4 0 0 0 0, 8); (ip4 10 0 0 0, 8); (ip4 127 0 0 0, 8); (ip4 169 254 0 0, 16);
   (ip4 172 16 0 0, 12); (ip4 192 0 0 0, 24); (ip4 192 0 0 170, 31); (ip4 192 0 2 0, 24);
   (ip4 192 168 0 0, 16); (ip4 198 18 0 0, 15); (ip4 198 51 100 0, 24); (ip4 203 0 113 0, 24);
   (ip4 240 0 0 0, 4); (ip4 255 255 255 255, 32)]%Z.
Definition private_exceptions_v4 : list (Z * Z) := [(ip4 192 0 0 9, 32); (ip4 192 0 0 10, 32)]%Z.

(** The 128-bit value of the leading hextets. *)
Definition ip6 (hextets : list Z) : Z :=
  (hextets_value hextets * 2 ^ (16 * (8 - Z.of_nat (length hextets))))%Z.

Definition private_v6 : list (Z * Z) :=
  [(1, 128); (0, 128); (65535 * 2 ^ 32, 96); (ip6 [0x64; 0xff9b; 1], 48); (ip6 [0x100], 64);
   (ip6 [0x2001], 23); (ip6 [0x2001; 0xdb8], 32); (ip6 [0x2002], 16); (ip6 [0xfc00], 7);
   (ip6 [0xfe80], 10)]%Z.
Definition private_exceptions_v6 : list (Z * Z) :=
  [(ip6 [0x2001; 1] + 1, 128); (ip6 [0x2001; 1] + 2, 128); (ip6 [0x2001; 3], 32);
   (ip6 [0x2001; 4; 0x112], 48); (ip6 [0x2001; 0x20], 28); (ip6 [0x2001; 0x30], 28)]%Z.

Definition is_global_v4 (n : Z) : bool :=
  negb (in_net 32 n (ip4 100 64 0 0, 10%Z))
  && negb (in_any 32 n private_v4 && negb (in_any 32 n private_exceptions_v4)).
Definition is_multicast_v4 (n : Z) : bool := in_net 32 n (ip4 224 0 0 0, 4%Z).
Definition is_global_v6 (n : Z) : bool :=
  negb (in_any 128 n private_v6 && negb (in_any 128 n private_exceptions_v6)).
Definition is_multicast_v6 (n : Z) : bool := in_net 128 n (ip6 [0xff00], 8)%Z.

(** ** [blocked_address] *)

Definition NAT64 : Z * Z := (ip6 [0x64; 0xff9b], 96)%Z.
Definition SIX_TO_FOUR : Z * Z := (ip6 [0x2002], 16)%Z.
Definition RESERVED_V6 : list (Z * Z) :=
  [(0, 96); (65535 * 2 ^ 32, 96); (65535 * 2 ^ 48, 96); (ip6 [0x64; 0xff9b; 1], 48);
   (ip6 [0x5f00], 16)]%Z.

Definition blocked_v4 (n : Z) : bool := negb (is_global_v4 n) || is_multicast_v4 n.

(** The IPv4 carried by a mapped, a NAT64 and a 6to4 address; the text the code makes of it
    reads back as the same address ([parse_ip4_str] below). *)
Definition blocked_v6 (n : Z) : bool :=
  if (Z.shiftr n 32 =? 65535)%Z then blocked_v4 (Z.land n 0xFFFFFFFF)
  else if in_net 128 n NAT64 then blocked_v4 (Z.land n 0xFFFFFFFF)
  else if in_any 128 n RESERVED_V6 then true
  else if in_net 128 n SIX_TO_FOUR then blocked_v4 (Z.land (Z.shiftr n 80) 0xFFFFFFFF)
  else negb (is_global_v6 n) || is_multicast_v6 n.

Definition blocked_address (address : string) : bool :=
  match ip_address (before "%" address) with
  | None => true
  | Some (V4 n) => blocked_v4 n
  | Some (V6 n) => blocked_v6 n
  end.

(** ** One lookup, then a connection to a checked address *)

Definition BLOCKED : string := "the host name resolves to an address inside this machine or network".
Definition NO_ADDRESS : string := "the host name did not resolve".
Definition LOOKUPS_BACKED_UP : string := "name lookups are backed up; the request was not sent".
Definition MAX_STUCK_LOOKUPS : nat := 8.

Definition BlockedAddress (why : string) : exn := Exn "BlockedAddress" why.
Definition DeadlineExceeded : exn := Exn "DeadlineExceeded" "".

(** What the network side keeps: lookups that still hold a slot, how many lookups were started,
    the addresses connected to, and why a connect was refused. *)
Record Net := { slots : nat; lookups : nat; contacted : list string; refused : option string }.

(** How one call of the resolver ends, seen by the request that waits for it. *)
Inductive LookupEnd := Answers (infos : list string) | LookupRaised (e : exn) | LookupTimedOut.

Section connecting.
(** [socket.getaddrinfo]: the answer of its [n]-th call, which may change from call to call. *)
Context (resolver : nat → LookupEnd).

Definition looked_up (held : nat) (s : Net) : Net :=
  {| slots := slots s + held; lookups := S (lookups s); contacted := contacted s;
     refused := refused s |}.

(** [_lookup]: a lookup that outlives its request keeps its slot. *)
Definition lookup_bounded : M Net (list string) := λ s,
  if MAX_STUCK_LOOKUPS <=? slots s then (Raise (BlockedAddress LOOKUPS_BACKED_UP), s)
  else match resolver (lookups s) with
       | Answers infos => (Ok infos, looked_up 0 s)
       | LookupRaised e => (Raise e, looked_up 0 s)
       | LookupTimedOut => (Raise DeadlineExceeded, looked_up 1 s)
       end.

(** The resolver of a lookup that outlived its request returns at last. *)
Definition stuck_lookup_returns (s : Net) : Net :=
  {| slots := slots s - 1; lookups := lookups s; contacted := contacted s; refused := refused s |}.

(** Every answer must be allowed; an address is kept once, in order. *)
Fixpoint check_infos (addresses infos : list string) : res (list string) :=
  match infos with
  | [] => match addresses with [] => Raise (BlockedAddress NO_ADDRESS) | _ => Ok addresses end
  | a :: infos' =>
      if blocked_address a then Raise (BlockedAddress BLOCKED)
      else check_infos (if str_in a addresses then addresses else addresses ++ [a]) infos'
  end.

(** [resolve_checked] with a timeout, as the backend calls it. *)
Definition resolve_checked : M Net (list string) :=
  infos ← try_except lookup_bounded
    (λ e, if str_in (exn_class e) ["DeadlineExceeded"; "BlockedAddress"] then raise e
          else raise (BlockedAddress NO_ADDRESS));
  lift_res (check_infos [] infos).

(** [_Deadline.remaining] at a reading of the clock. *)
Definition remaining (deadline now : Z) : res Z :=
  if (deadline - now <=? 0)%Z then Raise DeadlineExceeded else Ok (deadline - now)%Z.

Inductive Attempt := Connected | ConnectError (e : exn) | AttemptRaised (e : exn).

Definition contact (a : string) (s : Net) : Net :=
  {| slots := slots s; lookups := lookups s; contacted := contacted s ++ [a]; refused := refused s |}.
Definition set_refused (why : string) (s : Net) : Net :=
  {| slots := slots s; lookups := lookups s; contacted := contacted s; refused := Some why |}.

(** The loop over the checked addresses: the clock at each attempt and how it ended. *)
Fixpoint connect_each (deadline : Z) (attempt : string → Z * Attempt) (last : option exn)
    (addresses : list string) : M Net string :=
  match addresses with
  | [] => raise (default (Exn "ConnectError" NO_ADDRESS) last)
  | a :: addresses' => λ s,
      let '(now, out) := attempt a in
      match remaining deadline now with
      | Raise e => (Raise e, s)
      | Ok _ =>
          match out with
          | Connected => (Ok a, contact a s)
          | ConnectError e => connect_each deadline attempt (Some e) addresses' (contact a s)
          | AttemptRaised e => (Raise e, contact a s)
          end
      end
  end.

(** [PinnedBackend.connect_tcp] at clock [now]. *)
Definition connect_tcp (deadline now : Z) (attempt : string → Z * Attempt) : M Net string :=
  addresses ← try_except
    (_ ← lift_res (remaining deadline now); resolve_checked)
    (λ e, (if String.eqb (exn_class e) "BlockedAddress" then modify (set_refused (exn_str e))
           else mret ());; raise e);
  connect_each deadline attempt None addresses.
End connecting.

(** ** Facts about networks and addresses *)

(** The first and the last address of a network. *)
Definition net_lo (width : Z) (net : Z * Z) : Z := (net.1 / 2 ^ (width - net.2) * 2 ^ (width - net.2))%Z.
Definition net_hi (width : Z) (net : Z * Z) : Z := (net_lo width net + 2 ^ (width - net.2) - 1)%Z.

Lemma in_net_range width n net :
  (net.2 ≤ width)%Z →
  in_net width n net = true ↔ (net_lo width net ≤ n ≤ net_hi width net)%Z.
Proof.
  intros Hp. unfold in_net, net_hi, net_lo. rewrite Z.eqb_eq.
  assert (0 < 2 ^ (width - net.2))%Z as Hk by (apply Z.pow_pos_nonneg; lia).
  revert Hk. generalize (2 ^ (width - net.2))%Z as k. intros k Hk.
  pose proof (Z.div_mod n k ltac:(lia)). pose proof (Z.mod_pos_bound n k Hk).
  split; [intros <-; nia|]. intros [H1 H2]. nia.
Qed.

(** Addresses as closed ranges. *)
Definition between (n : Z) (r : Z * Z) : Prop := (r.1 ≤ n ≤ r.2)%Z.
Fixpoint in_ranges (n : Z) (l : list (Z * Z)) : Prop :=
  match l with [] => False | r :: l' => between n r ∨ in_ranges n l' end.

Lemma in_any_range width n nets :
  forallb (λ net, net.2 <=? width)%Z nets = true →
  in_any width n nets = true ↔ in_ranges n (map (λ net, (net_lo width net, net_hi width net)) nets).
Proof.
  unfold in_any. induction nets as [|net nets IH]; cbn [forallb existsb map in_ranges]; [done|].
  intros [Hp Hps]%andb_true_iff. to_props. rewrite orb_true_iff, IH by done.
  by rewrite in_net_range.
Qed.

(** Where a governed request must never go, IPv4: this machine ([0/8], [127/8]), private networks,
    link-local (the cloud metadata address), shared, protocol assignments but two, documentation,
    benchmarking, multicast and everything above. *)
Definition INSIDE_V4 : list (Z * Z) :=
  [(ip4 0 0 0 0, ip4 0 255 255 255); (ip4 10 0 0 0, ip4 10 255 255 255);
   (ip4 100 64 0 0, ip4 100 127 255 255); (ip4 127 0 0 0, ip4 127 255 255 255);
   (ip4 169 254 0 0, ip4 169 254 255 255); (ip4 172 16 0 0, ip4 172 31 255 255);
   (ip4 192 0 0 0, ip4 192 0 0 8); (ip4 192 0 0 11, ip4 192 0 0 255);
   (ip4 192 0 2 0, ip4 192 0 2 255); (ip4 192 168 0 0, ip4 192 168 255 255);
   (ip4 198 18 0 0, ip4 198 19 255 255); (ip4 198 51 100 0, ip4 198 51 100 255);
   (ip4 203 0 113 0, ip4 203 0 113 255); (ip4 224 0 0 0, ip4 255 255 255 255)]%Z.

Definition inside_v4 (n : Z) : Prop := in_ranges n INSIDE_V4.

Ltac ranges := cbn [in_ranges]; unfold between; cbn [fst snd].

Lemma blocked_v4_spec n : blocked_v4 n = true ↔ inside_v4 n.
Proof.
  unfold blocked_v4, is_global_v4, is_multicast_v4, inside_v4.
  rewrite orb_true_iff, negb_true_iff, andb_false_iff, !negb_false_iff, andb_true_iff, negb_true_iff,
    <- not_true_iff_false.
  rewrite !(in_net_range 32 n) by (cbn; lia). rewrite !(in_any_range 32 n) by reflexivity.
  unfold private_v4, private_exceptions_v4, INSIDE_V4. cbn [map].
  repeat match goal with |- context [net_hi 32 ?x] =>
    let v := eval vm_compute in (net_hi 32 x) in change (net_hi 32 x) with v end.
  repeat match goal with |- context [net_lo 32 ?x] =>
    let v := eval vm_compute in (net_lo 32 x) in change (net_lo 32 x) with v end.
  repeat match goal with |- context [ip4 ?a ?b ?c ?d] =>
    let v := eval vm_compute in (ip4 a b c d) in change (ip4 a b c d) with v end.
  ranges. lia.
Qed.

(** The IPv4 address an IPv6 address carries: mapped, NAT64 and 6to4. *)
Definition carried_v4 (n : Z) : option Z :=
  if (n / 2 ^ 32 =? 65535)%Z then Some (n mod 2 ^ 32)%Z
  else if in_net 128 n NAT64 then Some (n mod 2 ^ 32)%Z
  else if in_net 128 n SIX_TO_FOUR then Some ((n / 2 ^ 80) mod 2 ^ 32)%Z
  else None.

(** The first and last addresses that start with the given hextets. *)
Definition six (first last : list Z) : Z * Z :=
  (ip6 first, ip6 last + 2 ^ (16 * (8 - Z.of_nat (length last))) - 1)%Z.

(** Where a governed request must never go, IPv6: unspecified, loopback and the blocks that
    embed an IPv4 without a translation, discard-only, protocol assignments but the globally
    reachable ones, documentation, segment identifiers, unique local, link-local, multicast. *)
Definition INSIDE_V6 : list (Z * Z) :=
  [six [0; 0; 0; 0; 0; 0] [0; 0; 0; 0; 0; 0]; six [0; 0; 0; 0; 0xffff; 0] [0; 0; 0; 0; 0xffff; 0];
   six [0x64; 0xff9b; 1] [0x64; 0xff9b; 1]; six [0x100; 0; 0; 0] [0x100; 0; 0; 0];
   (ip6 [0x2001], ip6 [0x2001; 1]); (ip6 [0x2001; 1] + 3, ip6 [0x2001; 3] - 1);
   (ip6 [0x2001; 4], ip6 [0x2001; 4; 0x112] - 1); (ip6 [0x2001; 4; 0x113], ip6 [0x2001; 0x20] - 1);
   (ip6 [0x2001; 0x40], ip6 [0x2001; 0x200] - 1); six [0x2001; 0xdb8] [0x2001; 0xdb8];
   six [0x5f00] [0x5f00]; six [0xfc00] [0xfdff]; six [0xfe80] [0xfebf]; six [0xff00] [0xffff]]%Z.

Definition inside_v6 (n : Z) : Prop :=
  match carried_v4 n with
  | Some m => inside_v4 m
  | None => in_ranges n INSIDE_V6
  end.

Definition inside (ip : IpAddr) : Prop :=
  match ip with V4 n => inside_v4 n | V6 n => inside_v6 n end.

Ltac eval_nets :=
  repeat match goal with |- context [net_hi ?w ?x] =>
    let v := eval vm_compute in (net_hi w x) in change (net_hi w x) with v end;
  repeat match goal with |- context [net_lo ?w ?x] =>
    let v := eval vm_compute in (net_lo w x) in change (net_lo w x) with v end.

Lemma low32 n : Z.land n 0xFFFFFFFF = (n mod 2 ^ 32)%Z.
Proof. by rewrite <- (Z.land_ones n 32). Qed.

Lemma blocked_v6_plain n :
  carried_v4 n = None →
  (in_any 128 n RESERVED_V6 || (negb (is_global_v6 n) || is_multicast_v6 n)) = true
  ↔ in_ranges n INSIDE_V6.
Proof.
  unfold carried_v4. intros Hc.
  destruct (n / 2 ^ 32 =? 65535)%Z eqn:Hm; [done|]. destruct (in_net 128 n NAT64) eqn:Hn; [done|].
  destruct (in_net 128 n SIX_TO_FOUR) eqn:Hs; [done|]. clear Hc.
  assert (¬ (65535 * 2 ^ 32 ≤ n ≤ 65536 * 2 ^ 32 - 1)%Z) as Hm'.
  { intros ?. to_props. destruct Hm. symmetry. apply Z.div_unique with (n - 65535 * 2 ^ 32)%Z; lia. }
  rewrite <- not_true_iff_false, in_net_range in Hn by (cbn; lia).
  rewrite <- not_true_iff_false, in_net_range in Hs by (cbn; lia).
  revert Hm' Hn Hs. unfold is_global_v6, is_multicast_v6.
  rewrite !orb_true_iff, negb_true_iff, negb_false_iff, andb_true_iff, negb_true_iff, <- not_true_iff_false.
  rewrite !(in_net_range 128 n) by (cbn; lia). rewrite !(in_any_range 128 n) by reflexivity.
  unfold private_v6, private_exceptions_v6, RESERVED_V6, INSIDE_V6. cbn [map]. eval_nets.
  repeat match goal with |- context [six ?a ?b] =>
    let v := eval vm_compute in (six a b) in change (six a b) with v end.
  repeat match goal with |- context [ip6 ?a] =>
    let v := eval vm_compute in (ip6 a) in change (ip6 a) with v end.
  ranges. split; intros Hx; repeat match type of Hx with _ ∨ _ => destruct Hx as [Hx|Hx] end; lia.
Qed.

Lemma blocked_v6_spec n : blocked_v6 n = true ↔ inside_v6 n.
Proof.
  unfold blocked_v6, inside_v6. rewrite Z.shiftr_div_pow2 by lia. rewrite !low32.
  pose proof (blocked_v6_plain n) as Hplain. revert Hplain. unfold carried_v4.
  destruct (n / 2 ^ 32 =? 65535)%Z; [intros _; apply blocked_v4_spec|].
  destruct (in_net 128 n NAT64); [intros _; apply blocked_v4_spec|].
  destruct (in_net 128 n SIX_TO_FOUR) eqn:Hs; intros Hplain.
  - replace (in_any 128 n RESERVED_V6) with false.
    { rewrite Z.shiftr_div_pow2 by lia. rewrite blocked_v4_spec. done. }
    symmetry. rewrite <- not_true_iff_false, in_any_range by reflexivity.
    apply in_net_range in Hs; [|cbn; lia]. revert Hs. unfold RESERVED_V6, SIX_TO_FOUR. cbn [map].
    eval_nets. ranges. lia.
  - rewrite <- Hplain by done. by destruct (in_any 128 n RESERVED_V6).
Qed.

(** [blocked_address], declaratively: no address at all, or one that is or carries an address
    inside this machine or network. *)
Lemma blocked_address_spec a :
  blocked_address a = true ↔
  ∀ ip, ip_address (before "%" a) = Some ip → inside ip.
Proof.
  unfold blocked_address. destruct (ip_address _) as [[n|n]|]; simpl.
  - rewrite blocked_v4_spec. split; [by intros ? ? [= <-]|by intros H; apply (H (V4 n))].
  - rewrite blocked_v6_spec. split; [by intros ? ? [= <-]|by intros H; apply (H (V6 n))].
  - done.
Qed.

(** What the code writes of a carried IPv4 reads back as that address. *)
Lemma parse_octet_pretty b :
  (b < 256)%N → parse_octet (pretty b) = Some (Z.of_N b) ∧ str_any (Ascii.eqb ".") (pretty b) = false.
Proof.
  intros Hb.
  assert (forallb (λ k, bool_decide (parse_octet (pretty (N.of_nat k)) = Some (Z.of_nat k)) &&
            negb (str_any (Ascii.eqb ".") (pretty (N.of_nat k)))) (seq 0 256) = true) as Hall
    by (vm_compute; reflexivity).
  rewrite forallb_forall in Hall. specialize (Hall (N.to_nat b)).
  rewrite N2Nat.id, N_nat_Z in Hall. destruct (andb_prop _ _ (Hall ltac:(apply in_seq; lia))).
  by to_props.
Qed.

Lemma parse_ip4_str n : (0 ≤ n < 2 ^ 32)%Z → parse_ip4 (ip4_str n) = Some n.
Proof.
  intros Hn. unfold parse_ip4, ip4_str.
  assert (Forall (λ b, 0 ≤ b < 256)%Z
    [n / 16777216; (n / 65536) mod 256; (n / 256) mod 256; n mod 256]%Z) as Hb.
  { repeat constructor; try (apply Z.mod_pos_bound; lia); [apply Z.div_pos; lia|].
    apply Z.div_lt_upper_bound; lia. }
  rewrite split_join; [|done|].
  - cbn [map mapM]. rewrite !Forall_cons in Hb. destruct Hb as (H1 & H2 & H3 & H4 & _).
    rewrite !(λ b H, proj1 (parse_octet_pretty b H)) by lia. rewrite !Z2N.id by lia.
    cbn. f_equal. unfold ip4. clear H1 H2 H3 H4.
    change 16777216%Z with (256 * 65536)%Z. change 65536%Z with (256 * 256)%Z.
    rewrite <- !Z.div_div by lia.
    pose proof (Z.div_mod n 256 ltac:(lia)). pose proof (Z.div_mod (n / 256) 256 ltac:(lia)).
    pose proof (Z.div_mod (n / 256 / 256) 256 ltac:(lia)). lia.
  - apply Forall_map. eapply Forall_impl; [exact Hb|]. intros b Hb'. simpl in Hb'. apply parse_octet_pretty. lia.
Qed.

(** ** The connection *)

(** An address a governed request may be sent to. *)
Definition outside (a : string) : Prop :=
  ∃ ip, ip_address (before "%" a) = Some ip ∧ ¬ inside ip.

Lemma not_blocked_outside a : blocked_address a = false ↔ outside a.
Proof.
  rewrite <- not_true_iff_false, blocked_address_spec. unfold outside.
  destruct (ip_address (before "%" a)) as [ip|].
  - split; [|intros (ip' & [= <-] & Hn) Hall; by apply Hn, Hall].
    intros Hn. exists ip. split; [done|]. intros Hi. apply Hn. by intros ? [= <-].
  - split; [|by intros (? & ? & _)]. intros Hn. by destruct Hn.
Qed.

Lemma check_infos_ok acc infos l :
  check_infos acc infos = Ok l →
  l ≠ [] ∧ (∀ a, a ∈ l ↔ a ∈ acc ∨ a ∈ infos) ∧ (NoDup acc → NoDup l) ∧ ∀ a, a ∈ infos → outside a.
Proof.
  revert acc. induction infos as [|a infos IH]; intros acc; cbn [check_infos].
  - destruct acc as [|b acc]; [done|]. intros [= <-].
    split_and!; [done| |done|by intros ? ?%elem_of_nil].
    intros a. rewrite elem_of_nil. tauto.
  - destruct (blocked_address a) eqn:Hb; [done|]. intros (Hne & Hl & Hd & Ho)%IH.
    split_and!; [done| | |].
    + intros x. rewrite Hl, elem_of_cons. destruct (str_in a acc) eqn:Ha.
      * apply str_in_elem in Ha. split; [tauto|]. by intros [?|[->|?]]; auto.
      * rewrite elem_of_app, list_elem_of_singleton. tauto.
    + intros Hda. apply Hd. destruct (str_in a acc) eqn:Ha; [done|]. apply str_in_false in Ha.
      apply NoDup_app. split_and!; [done| |apply NoDup_singleton].
      by intros x ? ->%list_elem_of_singleton.
    + intros x [->|Hx]%elem_of_cons; [by apply not_blocked_outside|by apply Ho].
Qed.

Lemma resolve_checked_ok resolver s l s' :
  resolve_checked resolver s = (Ok l, s') →
  s' = looked_up 0 s ∧
  ∃ infos, resolver (lookups s) = Answers infos ∧ check_infos [] infos = Ok l.
Proof.
  unfold resolve_checked, lookup_bounded, lift_res. run_monad.
  destruct (_ <=? _); [done|]. destruct (resolver (lookups s)) as [infos|e|] eqn:Hr; [|by destruct (str_in (exn_class e) _)|done].
  intros [= Hc <-]. eauto.
Qed.

(** A lookup starts at most one call of the resolver and contacts nothing. *)
Lemma resolve_checked_keeps resolver s :
  let s' := run_state (resolve_checked resolver) s in
  contacted s' = contacted s ∧ lookups s' ≤ S (lookups s) ∧
  (slots s ≤ MAX_STUCK_LOOKUPS → slots s' ≤ MAX_STUCK_LOOKUPS).
Proof.
  unfold resolve_checked, lookup_bounded, lift_res. run_monad.
  destruct (Nat.leb_spec MAX_STUCK_LOOKUPS (slots s)); [simpl; split_and!; [done|lia|done]|].
  destruct (resolver (lookups s)) as [infos|e|]; [|destruct (str_in (exn_class e) _)|]; simpl; split_and!; try done; lia.
Qed.

Lemma connect_each_contacts deadline attempt last l s r s' :
  connect_each deadline attempt last l s = (r, s') →
  ∃ new rest, l = new ++ rest ∧ contacted s' = contacted s ++ new ∧ lookups s' = lookups s ∧
    slots s' = slots s ∧ refused s' = refused s ∧ (∀ a, a ∈ new → ((attempt a).1 < deadline)%Z) ∧
    ∀ a, r = Ok a → List.last new "" = a ∧ new ≠ [].
Proof.
  revert last s. induction l as [|a l IH]; intros last s; cbn [connect_each].
  - intros [= <- <-]. exists [], []. by split_and!; try done; [rewrite app_nil_r|intros ? ?%elem_of_nil].
  - destruct (attempt a) as [now out] eqn:Ha. unfold remaining. destruct (Z.leb_spec (deadline - now) 0) as [Hd|Hd].
    { intros [= <- <-]. exists [], (a :: l). by split_and!; try done; [rewrite app_nil_r|intros ? ?%elem_of_nil]. }
    assert (∀ x, x ∈ [a] → ((attempt x).1 < deadline)%Z) as Hx.
    { intros x ->%list_elem_of_singleton. rewrite Ha. simpl. lia. }
    destruct out as [|e|e].
    + intros [= <- <-]. exists [a], l. split_and!; try done. by intros ? [= <-].
    + intros (new & rest & -> & Hc & Hl & Hs & Hr & Ht & Ho)%IH. exists (a :: new), rest.
      split_and!; try done.
      * rewrite Hc. simpl. by rewrite <- app_assoc.
      * intros x [->|Hin]%elem_of_cons; [apply Hx; left|by apply Ht].
      * intros x [Hlast Hne]%Ho. split; [|done]. by destruct new.
    + intros [= <- <-]. by exists [a], l.
Qed.

(** Where a governed connection goes.  Whatever the resolver answers, and however it changes
    its answer from one call to the next, a connect asks it at most once; it contacts an address
    only if {e every} address of that one answer is outside: it parses, and neither it nor the
    IPv4 address it carries (mapped, NAT64, 6to4) lies in one of the ranges of this machine, the
    local network or the reserved blocks.  The addresses contacted are of that answer, each at
    most once and before the deadline, the stream is connected to the last of them, and
    never do more than eight lookups stay outstanding. *)
Theorem connects_only_outside resolver deadline now attempt s r s' :
  connect_tcp resolver deadline now attempt s = (r, s') →
  lookups s' ≤ S (lookups s) ∧ (slots s ≤ MAX_STUCK_LOOKUPS → slots s' ≤ MAX_STUCK_LOOKUPS) ∧
  ∃ new, contacted s' = contacted s ++ new ∧ NoDup new ∧
    (new ≠ [] → ∃ infos, resolver (lookups s) = Answers infos ∧
       (∀ a, a ∈ infos → outside a) ∧ (∀ a, a ∈ new → a ∈ infos ∧ ((attempt a).1 < deadline)%Z)) ∧
    ∀ a, r = Ok a → List.last new "" = a ∧ new ≠ [].
Proof.
  unfold connect_tcp, lift_res. run_monad. unfold remaining at 1.
  destruct (deadline - now <=? 0)%Z.
  { intros [= <- <-]. split_and!; [lia|done|]. exists []. rewrite app_nil_r. by split_and!; [|constructor|..]. }
  destruct (resolve_checked resolver s) as [[l|e] s1] eqn:Hres.
  - apply resolve_checked_ok in Hres as (-> & infos & Hr & Hc).
    apply check_infos_ok in Hc as (_ & Hl & Hd & Ho).
    intros (new & rest & -> & Hct & Hlk & Hsl & _ & Ht & Hlast)%connect_each_contacts.
    rewrite Hlk, Hsl, Hct. simpl. split_and!; [lia|lia|]. exists new. split_and!; [done| | |done].
    { by apply (proj1 (proj1 (NoDup_app _ _) (Hd (NoDup_nil_2)))). }
    intros _. exists infos. split_and!; [done..|]. intros a Ha. split; [|by apply Ht].
    assert (a ∈ new ++ rest) as Hin by (apply elem_of_app; by left).
    apply Hl in Hin as [?%elem_of_nil|Hin]; done.
  - pose proof (resolve_checked_keeps resolver s) as Hk. rewrite Hres in Hk. simpl in Hk.
    destruct Hk as (Hk1 & Hk2 & Hk3). intros Heq.
    assert (contacted s' = contacted s1 ∧ lookups s' = lookups s1 ∧ slots s' = slots s1 ∧ r = Raise e)
      as (-> & -> & -> & ->).
    { by destruct (String.eqb (exn_class e) "BlockedAddress"); injection Heq as <- <-. }
    split_and!; [done..|]. exists []. rewrite app_nil_r. by split_and!; [|constructor|..].
Qed.

(** A name that answers with a public address first and the cloud metadata address the next
    time: the second connect is refused. *)
Definition rebinding (n : nat) : LookupEnd :=
  if n =? 0 then Answers ["8.8.8.8"; "2606:4700::1111"; "8.8.8.8"] else Answers ["8.8.8.8"; "169.254.169.254"].
Definition idle_net : Net := {| slots := 0; lookups := 0; contacted := []; refused := None |}.
Definition first_refuses (a : string) : Z * Attempt :=
  (5%Z, if String.eqb a "8.8.8.8" then ConnectError (Exn "ConnectError" "") else Connected).

Example rebinding_refused :
  let s := run_state (connect_tcp rebinding 10 0 first_refuses) idle_net in
  connect_tcp rebinding 10 0 first_refuses s
  = (Raise (BlockedAddress BLOCKED),
     {| slots := 0; lookups := 2; contacted := ["8.8.8.8"; "2606:4700::1111"]; refused := Some BLOCKED |}).
Proof. vm_compute. reflexivity. Qed.

Lemma connects_only_outside_witness :
  ∃ s', connect_tcp rebinding 10 0 first_refuses idle_net = (Ok "2606:4700::1111", s') ∧
        contacted s' = ["8.8.8.8"; "2606:4700::1111"] ∧ outside "2606:4700::1111".
Proof.
  eexists. split; [vm_compute; reflexivity|]. split; [reflexivity|].
  destruct (connects_only_outside rebinding 10 0 first_refuses idle_net _ _
              ltac:(vm_compute; reflexivity)) as (_ & _ & new & Hn & _ & Hi & _).
  simpl in Hn. subst new. destruct (Hi ltac:(done)) as (infos & Hr & Ho & _).
  vm_compute in Hr. injection Hr as <-. apply Ho. right. left.
Defined.
