(* ===== verification/PluginEgress.v ===== *)
(** * Plugin egress ([plugin_egress.py], [public_suffix.py], [plugins/plugin_egress.py])

    Which hosts a plugin may contact: the grammar of declared and requested hosts, the compiled
    policy, and the hooks at [PreEgress] and [PostEgress]. *)

From S2P Require Import Prelude PyVal PyText Hooks CallContext Kernel Transport.
From stdpp Require Import options.

(** ** Hosts *)

Definition EGRESS_DATA_CLASSES : list string := ["public"; "internal"; "personal"].
Definition CLASS_RANK (c : string) : option Z :=
  if String.eqb c "public" then Some 0%Z else if String.eqb c "internal" then Some 1%Z
  else if String.eqb c "personal" then Some 2%Z else if String.eqb c "secret" then Some 3%Z
  else None.
(** [_rank]: an unknown label ranks with the most sensitive. *)
Definition egress_rank (c : string) : Z := default 3%Z (CLASS_RANK c).

Definition MIB : Z := 1024 * 1024.
Definition DEFAULT_RESPONSE_BYTES : Z := 10 * MIB.
Definition MAX_RESPONSE_BYTES_CEILING : Z := 64 * MIB.
Definition DEFAULT_PORTS (scheme : string) : option Z :=
  if String.eqb scheme "http" then Some 80%Z else if String.eqb scheme "https" then Some 443%Z else None.
Definition SCHEMES : list string := ["http"; "https"].

Definition MAX_LABEL_LENGTH : nat := 63.
Definition MAX_HOST_LENGTH : nat := 253.

Definition lower_alnum (c : ascii) : bool :=
  let n := N_of_ascii c in ((97 <=? n) && (n <=? 122) || (48 <=? n) && (n <=? 57))%N.
Definition label_char (c : ascii) : bool := lower_alnum c || Ascii.eqb c "-".

Definition first_char (p : ascii → bool) (s : string) : bool :=
  match s with String c _ => p c | EmptyString => false end.

(** [_DECLARED_LABEL.fullmatch]: letters, digits and hyphens, a letter or a digit at both ends,
    at most 63 characters. *)
Definition declared_label (s : string) : bool :=
  first_char lower_alnum s && str_all label_char s && first_char lower_alnum (String.rev s)
  && (String.length s <=? 63).

(** [_HEX_OR_OCTAL_NUMBER.fullmatch] *)
Definition lower_hex (c : ascii) : bool :=
  let n := N_of_ascii c in ((97 <=? n) && (n <=? 102) || (48 <=? n) && (n <=? 57))%N.
Definition hex_or_octal_number (s : string) : bool :=
  match s with
  | String a (String b s') => Ascii.eqb a "0" && Ascii.eqb b "x" && str_all lower_hex s' || str_all ascii_digit s
  | _ => str_truthy s && str_all ascii_digit s
  end.

Definition refuse {A} (value why : string) : res A :=
  Raise (Exn "ValueError" (py_repr value +:+ ": " +:+ why)).

(** ASCII without white space or control characters. *)
Definition plain_ascii (s : string) : bool :=
  str_truthy s && is_ascii s &&
  negb (str_any (λ c, is_space c || (N_of_ascii c <? 32)%N || (126 <? N_of_ascii c)%N) s).

(** One trailing dot is dropped. *)
Definition drop_dot (s : string) : string :=
  match rpartition "." s with Some (l, "") => l | _ => s end.

Definition label_ok (label : string) : bool :=
  (String.length label <=? MAX_LABEL_LENGTH) && declared_label label.

(** [normalize_host] *)
Definition normalize_host (value : string) : res string :=
  if negb (plain_ascii value) then
    refuse value "is not a host (ASCII only, no whitespace or control characters)"
  else
    let host := drop_dot (str_lower value) in
    if negb (str_truthy host) || (MAX_HOST_LENGTH <? String.length host) then
      refuse value "is empty or longer than 253 characters"
    else if forallb label_ok (split_char "." host) then Ok host
    else refuse value "is not a host name (letters, digits and hyphens per label)".

(** [s.strip(chars)] *)
Fixpoint lstrip_chars (p : ascii → bool) (s : string) : string :=
  match s with
  | String c s' => if p c then lstrip_chars p s' else s
  | EmptyString => EmptyString
  end.
Definition strip_chars (p : ascii → bool) (s : string) : string :=
  String.rev (lstrip_chars p (String.rev (lstrip_chars p s))).

Definition is_bracket (c : ascii) : bool := Ascii.eqb c "[" || Ascii.eqb c "]".

Definition is_ip_literal (host : string) : bool :=
  hex_or_octal_number (after_last "." host) ||
  match ip_address (strip_chars is_bracket host) with Some _ => true | None => false end.

Definition INTERNAL_NAME_SUFFIXES : list string := ["localhost"; "local"; "internal"; "localdomain"].

Definition is_internal_name (host : string) : bool :=
  existsb (λ s, String.eqb host s || endswith ("." +:+ s) host) INTERNAL_NAME_SUFFIXES.

(** ** The Public Suffix List *)

Record SuffixRules := { ps_exact : list string; ps_wildcard : list string; ps_exceptions : list string }.

Definition add_rule (r : SuffixRules) (line : string) : SuffixRules :=
  let text := str_strip line in
  if negb (str_truthy text) || startswith "//" text then r
  else if startswith "!" text then
    {| ps_exact := ps_exact r; ps_wildcard := ps_wildcard r; ps_exceptions := str_drop 1 text :: ps_exceptions r |}
  else if startswith "*." text then
    {| ps_exact := ps_exact r; ps_wildcard := str_drop 2 text :: ps_wildcard r; ps_exceptions := ps_exceptions r |}
  else {| ps_exact := text :: ps_exact r; ps_wildcard := ps_wildcard r; ps_exceptions := ps_exceptions r |}.

(** [_rules] over the lines of the vendored file. *)
Definition suffix_rules (lines : list string) : SuffixRules :=
  fold_left add_rule lines {| ps_exact := []; ps_wildcard := []; ps_exceptions := [] |}.

Definition is_public_suffix (rules : SuffixRules) (domain : string) : bool :=
  let name := strip_chars (Ascii.eqb ".") (str_lower domain) in
  if negb (str_truthy name) then false
  else if str_in name (ps_exceptions rules) then false
  else match split_first "." name with
       | None => true
       | Some (_, parent) => str_in name (ps_exact rules) || str_in parent (ps_wildcard rules)
       end.

(** ** Declared hosts *)

Section declaring.
(** Whether a [xn--] label decodes ([bytes.decode("idna")]). *)
Context (idna_decodes : string → bool) (rules : SuffixRules).

Fixpoint check_labels (value : string) (labels : list string) : res unit :=
  match labels with
  | [] => Ok tt
  | label :: labels' =>
      if negb (label_ok label) then
        refuse value ("is not a host (labels of letters, digits and hyphens, at most 63 characters; "
                      +:+ "no scheme, port, path or userinfo)")
      else if startswith "xn--" label && negb (idna_decodes label) then
        refuse value ("label " +:+ py_repr label +:+ " is not valid punycode")
      else check_labels value labels'
  end.

(** [normalize_host_pattern] *)
Definition normalize_host_pattern (value : string) : res string :=
  if negb (plain_ascii value) then
    refuse value "is not a host (ASCII only, no whitespace or control characters)"
  else
    let host := drop_dot (str_lower value) in
    let wildcard := startswith "*." host in
    if String.eqb host "*" || startswith "*" host && negb wildcard then
      refuse value "a wildcard is only `*.<domain>`; to allow any host declare `open_web: true`"
    else
      let body := if wildcard then str_drop 2 host else host in
      if negb (str_truthy body) || (MAX_HOST_LENGTH <? String.length body) then
        refuse value "is empty or longer than 253 characters"
      else
        let labels := split_char "." body in
        let! _ := check_labels value labels in
        if is_internal_name body then
          refuse value ("localhost and the local-network names (.local, .internal, .localdomain) are not "
                        +:+ "hosts a plugin may declare")
        else if hex_or_octal_number (List.last labels "") then
          refuse value "an IP address (in any spelling) is not a declarable host"
        else if match ip_address body with Some _ => true | None => false end then
          refuse value "an IP address is not a declarable host"
        else if wildcard && (length labels <? 2) then
          refuse value "a wildcard needs a registrable domain (`*.example.org`)"
        else if wildcard && is_public_suffix rules body then
          refuse value ("`" +:+ body +:+ "` is a public suffix, so the wildcard would cover every registrant under "
                        +:+ "it; declare the domain you mean (`*.example." +:+ body +:+ "`)")
        else Ok host.
End declaring.

(** ** The compiled policy *)

Record HostRule := { hr_host : string; hr_schemes : list string; hr_ports : list Z; hr_data : string }.
Record PluginEgress := { pe_hosts : list HostRule; pe_open_web : bool; pe_max_response_bytes : option Z }.
Record EgressVerdict := { v_allowed : bool; v_reason : string; v_data : option string; v_rule : option string }.
Abbreviation PluginEgressPolicy := (gmap string PluginEgress).

Definition matches_host (r : HostRule) (host : string) : bool :=
  if startswith "*." (hr_host r) then
    endswith (str_drop 1 (hr_host r)) host && (String.length (hr_host r) - 1 <? String.length host)
  else String.eqb host (hr_host r).

Definition allows_port (r : HostRule) (scheme : string) (port : Z) : bool :=
  match hr_ports r with
  | [] => bool_decide (DEFAULT_PORTS scheme = Some port)
  | ports => bool_decide (port ∈ ports)
  end.

Definition declared (d : PluginEgress) : bool :=
  match pe_hosts d with [] => pe_open_web d | _ => true end.

Definition response_cap (p : PluginEgressPolicy) (plugin : string) : Z :=
  match p !! plugin ≫= pe_max_response_bytes with
  | None => DEFAULT_RESPONSE_BYTES
  | Some n => Z.max 1 (Z.min n MAX_RESPONSE_BYTES_CEILING)
  end.

Definition no_verdict (why : string) : EgressVerdict :=
  {| v_allowed := false; v_reason := why; v_data := None; v_rule := None |}.
Definition yes_verdict (why data rule : string) : EgressVerdict :=
  {| v_allowed := true; v_reason := why; v_data := Some data; v_rule := Some rule |}.

(** The loop over the declared hosts: the first that matches decides. *)
Fixpoint decide_rules (plugin scheme host : string) (port : Z) (class : option string)
    (hosts : list HostRule) : EgressVerdict :=
  match hosts with
  | [] => no_verdict (host +:+ " is not in plugin " +:+ py_repr plugin +:+ "'s egress.hosts")
  | r :: hosts' =>
      if negb (matches_host r host) then decide_rules plugin scheme host port class hosts'
      else if negb (str_in scheme (hr_schemes r)) then
        no_verdict (host +:+ " is declared for " +:+ join "/" (hr_schemes r) +:+ " only, not " +:+ scheme)
      else if negb (allows_port r scheme port) then
        no_verdict (host +:+ " is not declared for port " +:+ pretty port)
      else match class with
           | Some c =>
               if (egress_rank (hr_data r) <? egress_rank c)%Z then
                 no_verdict ("this run holds " +:+ c +:+ " data and " +:+ host +:+ " is declared to receive "
                   +:+ hr_data r +:+ "; declare `data: " +:+ c +:+ "` only if the plugin means to send it")
               else yes_verdict "declared" (hr_data r) (hr_host r)
           | None => yes_verdict "declared" (hr_data r) (hr_host r)
           end
  end.

(** [PluginEgressPolicy.decide] *)
Definition decide_egress (p : PluginEgressPolicy) (plugin scheme host : string) (port : Z)
    (class : option string) : EgressVerdict :=
  let scheme := str_lower scheme in
  match normalize_host host with
  | Raise _ => no_verdict (py_repr host +:+ " is not a valid host name")
  | Ok host =>
      if is_ip_literal host then
        no_verdict (host +:+ " is an IP address; a plugin may contact only a declared host name")
      else if is_internal_name host then
        no_verdict (host +:+ " is a local-network name; a plugin may not contact it")
      else match p !! plugin with
           | None => no_verdict ("plugin " +:+ py_repr plugin +:+ " has no mounted manifest")
           | Some d =>
               if negb (declared d) then
                 no_verdict ("plugin " +:+ py_repr plugin +:+ " declares no egress, so it may contact no host")
               else if pe_open_web d then
                 if negb (str_in scheme SCHEMES) then
                   no_verdict ("scheme " +:+ py_repr scheme +:+ " is not an HTTP scheme")
                 else yes_verdict "open_web" "personal" "*"
               else decide_rules plugin scheme host port class (pe_hosts d)
           end
  end.

(** ** What the process holds *)

(** The registered policy and the count of outcomes that left no row. *)
Record EgressState := { registered_policy : option PluginEgressPolicy; unrecorded_outcomes : Z }.

Definition register_egress_policy (p : option PluginEgressPolicy) (s : EgressState) : EgressState :=
  {| registered_policy := p; unrecorded_outcomes := unrecorded_outcomes s |}.
Definition egress_policy (s : EgressState) : option PluginEgressPolicy := registered_policy s.
Definition note_unrecorded_outcome (s : EgressState) : EgressState :=
  {| registered_policy := registered_policy s; unrecorded_outcomes := (unrecorded_outcomes s + 1)%Z |}.

(** ** The hooks *)

Abbreviation egress_dict := (list (string * pyval)).

(** [_egress] *)
Definition egress_of (ctx : HookContext) : egress_dict :=
  match payload ctx !! "egress" with Some (VDict d) => d | _ => [] end.

(** [str(d.get(k) or "")], and [d.get(k, "")] in a text. *)
Definition text_of (d : egress_dict) (k : string) : string :=
  match od_get k d with Some v => if truthy v then str_val v else "" | None => "" end.
Definition shown (d : egress_dict) (k : string) : string := from_option str_val "" (od_get k d).

Section hooks.
(** [int(v)] of a value that is neither an [int] nor a [bool]. *)
Context (int_of : pyval → res Z).

Definition py_int (v : pyval) : res Z :=
  match v with VInt z => Ok z | VBool b => Ok (if b then 1 else 0)%Z | _ => int_of v end.

Definition port_of (d : egress_dict) : res Z :=
  match od_get "port" d with Some v => if truthy v then py_int v else Ok 0%Z | None => Ok 0%Z end.

Definition egress_denied (d : egress_dict) (why : string) : HookDecision :=
  mk_decision deny ("plugin_egress: " +:+ why) warn (<["egress" := VDict (kv_set "allowed" (VBool false) d)]> ∅).

(** [d.get(k)] when it is true. *)
Definition truthy_at (k : string) (d : egress_dict) : option pyval :=
  match od_get k d with Some v => if truthy v then Some v else None | None => None end.

(** [PluginEgressHook.__call__] *)
Definition plugin_egress_call (policy : option PluginEgressPolicy) (ctx : HookContext) : res HookDecision :=
  let d := egress_of ctx in
  let plugin := text_of d "plugin" in
  let host := text_of d "host" in
  let where_ := shown d "scheme" +:+ "://" +:+ host +:+ ":" +:+ shown d "port" in
  match truthy_at "malformed" d with
  | Some v => Ok (egress_denied d (str_val v))
  | None =>
      match policy with
      | None => Ok (egress_denied d ("no egress policy is loaded, so " +:+ py_repr plugin +:+ " may not contact "
                                     +:+ py_repr host))
      | Some p =>
          let! port := port_of d in
          let v := decide_egress p plugin (text_of d "scheme") host port (class_str <$> classification ctx) in
          Ok (if v_allowed v then
                mk_decision allow ("plugin_egress: " +:+ plugin +:+ " may contact " +:+ host +:+ " (" +:+ v_reason v +:+ ")")
                  info (<["egress" := VDict (kv_set "rule" (opt_val (v_rule v)) (kv_set "data" (opt_val (v_data v))
                                         (kv_set "allowed" (VBool true) d)))]> ∅)
              else egress_denied d (v_reason v +:+ " (" +:+ where_ +:+ ")"))
      end
  end.

(** [PluginEgressOutcomeHook.__call__] *)
Definition egress_outcome_call (ctx : HookContext) : HookDecision :=
  let d := egress_of ctx in
  let ended := match truthy_at "error" d with
               | Some e => "failed (" +:+ str_val e +:+ ")"
               | None => "-> " +:+ str_val (default VNone (od_get "status" d))
               end in
  let cut := match truthy_at "aborted" d with Some a => ", cut off: " +:+ str_val a | None => "" end in
  mk_decision allow
    ("plugin_egress_outcome: " +:+ shown d "method" +:+ " " +:+ shown d "host" +:+ " " +:+ ended +:+ cut)
    (match truthy_at "error" d with Some _ => warn | None => info end) ∅.

Definition plugin_egress_hook {W} (ident : nat) (policy_of : W → option PluginEgressPolicy) : Hook W :=
  {| hook_ident := ident; hook_name := "plugin_egress"; hook_at := PRE_EGRESS; hook_priority := 20;
     hook_call := λ ctx w, (plugin_egress_call (policy_of w) ctx, w); hook_bot := None |}.
Definition egress_outcome_hook {W} (ident : nat) : Hook W :=
  {| hook_ident := ident; hook_name := "plugin_egress_outcome"; hook_at := POST_EGRESS; hook_priority := 20;
     hook_call := λ ctx w, (Ok (egress_outcome_call ctx), w); hook_bot := None |}.
End hooks.

(** ** The specification

    What a declaration permits, in terms of the labels of the requested name. *)

(** A label of a DNS name. *)
Definition dns_label (l : string) : Prop :=
  1 ≤ String.length l ≤ 63 ∧ str_all label_char l = true ∧ first_char lower_alnum l = true ∧
  first_char lower_alnum (String.rev l) = true.

(** [host] names [name], whose labels are [labels]: the same up to case and one trailing dot. *)
Definition names_host (host name : string) (labels : list string) : Prop :=
  plain_ascii host = true ∧ name = drop_dot (str_lower host) ∧ name ≠ "" ∧ String.length name ≤ 253 ∧
  labels = split_char "." name ∧ Forall dns_label labels.

(** Neither an address in any spelling nor a name of this machine or network. *)
Definition public_name (labels : list string) : Prop :=
  hex_or_octal_number (List.last labels "") = false ∧ List.last labels "" ∉ INTERNAL_NAME_SUFFIXES.

(** The declared host is the name, or a wildcard over a proper suffix of its labels. *)
Definition covers (r : HostRule) (name : string) : Prop :=
  if startswith "*." (hr_host r) then
    ∃ sub, sub ≠ [] ∧ split_char "." name = sub ++ split_char "." (str_drop 2 (hr_host r))
  else name = hr_host r.

(** A rule answers yes: over a declared scheme and port, for data of at most its class. *)
Definition rule_permits (r : HostRule) (scheme : string) (port : Z) (class : option string) : Prop :=
  scheme ∈ hr_schemes r ∧
  (match hr_ports r with [] => DEFAULT_PORTS scheme = Some port | ports => port ∈ ports end) ∧
  ∀ c, class = Some c → (egress_rank c ≤ egress_rank (hr_data r))%Z.

(** The first declared host that covers the name decides. *)
Definition declares (hosts : list HostRule) (scheme name : string) (port : Z) (class : option string) : Prop :=
  ∃ pre r post, hosts = pre ++ r :: post ∧ Forall (λ q, ¬ covers q name) pre ∧ covers r name ∧
    rule_permits r scheme port class.

Definition egress_permits (p : PluginEgressPolicy) (plugin scheme host : string) (port : Z)
    (class : option string) : Prop :=
  ∃ name labels d, names_host host name labels ∧ public_name labels ∧ p !! plugin = Some d ∧
    if pe_open_web d then str_lower scheme ∈ SCHEMES
    else declares (pe_hosts d) (str_lower scheme) name port class.

(** ** The policy decides exactly that *)

Lemma declared_label_spec l : label_ok l = true ↔ dns_label l.
Proof.
  unfold label_ok, declared_label, dns_label, MAX_LABEL_LENGTH.
  rewrite !andb_true_iff, !Nat.leb_le. split.
  - intros (? & ((? & ?) & ?) & ?). split_and!; try done. destruct l; simpl in *; [done|lia].
  - intros ([? ?] & ? & ? & ?). done.
Qed.

Lemma forallb_Forall {A} (f : A → bool) (P : A → Prop) l :
  (∀ x, f x = true ↔ P x) → forallb f l = true ↔ Forall P l.
Proof.
  intros H. rewrite forallb_forall, Forall_forall. setoid_rewrite list_elem_of_In.
  split; intros Hx x Hin; apply H, Hx, Hin.
Qed.

Lemma normalize_host_spec host name :
  normalize_host host = Ok name ↔ ∃ labels, names_host host name labels.
Proof.
  unfold normalize_host, names_host, refuse, MAX_HOST_LENGTH.
  destruct (plain_ascii host) eqn:Hp; simpl; [|split; [done|by intros (? & ? & _)]].
  destruct (str_truthy (drop_dot (str_lower host))) eqn:Ht; simpl.
  2:{ apply str_truthy_false in Ht. rewrite Ht. split; [done|by intros (? & _ & -> & ? & _)]. }
  destruct (Nat.ltb_spec 253 (String.length (drop_dot (str_lower host)))) as [Hl|Hl]; simpl.
  { split; [done|]. intros (? & _ & -> & _ & ? & _). lia. }
  destruct (forallb label_ok _) eqn:Hf.
  - apply (forallb_Forall _ _ _ declared_label_spec) in Hf. split.
    + intros [= <-]. eexists. split_and!; try done. by intros H; rewrite H in Ht.
    + by intros (? & _ & -> & _).
  - split; [done|]. intros (? & _ & -> & _ & _ & -> & Hd).
    apply (forallb_Forall _ _ _ declared_label_spec) in Hd. congruence.
Qed.

Section named.
Context (host name : string) (labels : list string) (Hn : names_host host name labels).

Definition name_char (c : ascii) : bool := label_char c || Ascii.eqb c ".".

Lemma name_labels : labels = split_char "." name ∧ Forall dns_label labels.
Proof using Hn. by destruct Hn as (_ & _ & _ & _ & ? & ?). Qed.

Lemma name_chars : str_all name_char name = true.
Proof using Hn.
  destruct name_labels as [Hl Hd]. rewrite <- (join_split "." name), <- Hl.
  apply str_all_join; [done|]. eapply Forall_impl; [exact Hd|]. intros l (_ & Hc & _).
  eapply str_all_weaken; [|exact Hc]. intros c Hx. unfold name_char. by rewrite Hx.
Qed.

Lemma name_lacks c : name_char c = false → str_any (Ascii.eqb c) name = false.
Proof using Hn.
  intros Hc. eapply str_all_any; [apply name_chars|]. intros x Hx. apply Ascii.eqb_neq.
  intros <-. congruence.
Qed.

Lemma name_label_nonempty l : l ∈ labels → l ≠ "".
Proof using Hn.
  destruct name_labels as [_ Hd]. rewrite Forall_forall in Hd.
  intros Hin ->. destruct (Hd "" Hin) as [[H _] _]. simpl in H. lia.
Qed.

Lemma strip_brackets : strip_chars is_bracket name = name.
Proof using Hn.
  assert (∀ s, str_all name_char s = true → lstrip_chars is_bracket s = s) as Hl.
  { intros [|c s]; [done|]. cbn. intros [Hc _]%andb_true_iff. destruct (is_bracket c) eqn:Hb; [|done].
    by destruct c as [[] [] [] [] [] [] [] []]. }
  unfold strip_chars. rewrite (Hl name name_chars), Hl by (rewrite str_all_rev; apply name_chars).
  apply rev_rev.
Qed.

(** An address text without a colon is a dotted quad, so its last label is a number: the second
    half of [is_ip_literal] adds nothing for a normalised name. *)
Lemma ip_literal_last : is_ip_literal name = hex_or_octal_number (List.last labels "").
Proof using Hn.
  destruct name_labels as [Hl Hd]. unfold is_ip_literal. rewrite strip_brackets, after_last_split, <- Hl.
  destruct (hex_or_octal_number _) eqn:Hx; [done|]. simpl. unfold ip_address.
  destruct (parse_ip4 name) as [n|] eqn:H4.
  - exfalso. unfold parse_ip4 in H4. rewrite <- Hl in H4.
    destruct (mapM parse_octet labels) as [[|a [|b [|c [|d [|? ?]]]]]|] eqn:Hm; try done.
    apply mapM_Some in Hm.
    destruct labels as [|la [|lb [|lc [|ld [|? ?]]]]]; try by repeat (apply Forall2_cons in Hm as [? Hm]); inversion Hm.
    apply Forall2_cons in Hm as [_ Hm]. apply Forall2_cons in Hm as [_ Hm].
    apply Forall2_cons in Hm as [_ Hm]. apply Forall2_cons in Hm as [Hld _].
    unfold parse_octet in Hld. destruct (str_truthy ld) eqn:Ht; [|done].
    destruct (str_all ascii_digit ld) eqn:Hdg; [|done]. simpl in Hx. clear -Hx Ht Hdg.
    unfold hex_or_octal_number in Hx. destruct ld as [|x [|y ld]]; [done| |].
    + by rewrite Hdg in Hx.
    + by rewrite Hdg, orb_true_r in Hx.
  - unfold parse_ip6. rewrite (name_lacks "/") by done.
    assert (∀ c s, str_any (Ascii.eqb c) s = false → split_first c s = None) as Hsf.
    { intros c s. induction s as [|a s IH]; cbn [str_any split_first]; [done|].
      intros [Ha Hs]%orb_false_iff. rewrite Ascii.eqb_sym, Ha, IH; done. }
    rewrite Hsf by (by apply name_lacks). rewrite (split_char_no_sep ":") by (by apply name_lacks). done.
Qed.

Lemma internal_last : is_internal_name name = true ↔ List.last labels "" ∈ INTERNAL_NAME_SUFFIXES.
Proof using Hn.
  destruct name_labels as [Hl _].
  assert (∀ s, str_any (Ascii.eqb ".") s = false →
    String.eqb name s || endswith ("." +:+ s) name = true ↔ List.last labels "" = s) as Hs.
  { intros s Hs. change ("." +:+ s) with (String "." s). rewrite orb_true_iff, String.eqb_eq, endswith_spec, Hl. split.
    - intros [->|[a ->]]; [by rewrite split_char_no_sep|].
      by rewrite split_char_sep, (split_char_no_sep "." s Hs), last_last.
    - rewrite <- after_last_split. unfold after_last. pose proof (before_after_last "." name) as Hb.
      destruct (rpartition "." name) as [[l r]|].
      + destruct Hb as [Hb _]. intros <-. right. by exists l.
      + by left. }
  unfold is_internal_name. rewrite existsb_exists. split.
  - intros (s & Hin & Hx). apply list_elem_of_In in Hin.
    apply Hs in Hx; [by rewrite Hx|].
    by repeat (apply elem_of_cons in Hin as [->|Hin]; [done|]); apply elem_of_nil in Hin.
  - intros Hin. exists (List.last labels ""). split; [by apply list_elem_of_In|]. apply Hs; [|done].
    by repeat (apply elem_of_cons in Hin as [->|Hin]; [done|]); apply elem_of_nil in Hin.
Qed.

Lemma prefix_drop p s : startswith p s = true → s = p +:+ str_drop (String.length p) s.
Proof.
  unfold startswith. intros [b ->]%prefix_spec. f_equal.
  induction p as [|c p IH]; [by rewrite string_nil_app|]. rewrite string_cons_app. exact IH.
Qed.

Lemma matches_covers r : matches_host r name = true ↔ covers r name.
Proof using Hn.
  destruct name_labels as [Hl _]. unfold matches_host, covers.
  destruct (startswith "*." (hr_host r)) eqn:Hw; [|by rewrite String.eqb_eq].
  apply prefix_drop in Hw. cbn [String.length] in Hw. revert Hw.
  generalize (str_drop 2 (hr_host r)) as suf. intros suf ->.
  change (str_drop 1 ("*." +:+ suf)) with (String "." suf).
  change (String.length ("*." +:+ suf) - 1) with (S (String.length suf)).
  rewrite andb_true_iff, endswith_spec, Nat.ltb_lt. split.
  - intros [[a ->] Hlen]. exists (split_char "." a). split; [apply split_char_ne|]. apply split_char_sep.
  - intros (sub & Hne & Hsp).
    assert (name = join "." sub +:+ String "." suf) as Hname.
    { rewrite <- (join_split "." name), Hsp, join_app by (done || apply split_char_ne).
      by rewrite join_split. }
    split; [by eexists|]. rewrite Hname, length_app_string. simpl.
    destruct (join "." sub) as [|c s] eqn:Hj; [|simpl; lia]. exfalso.
    apply (name_label_nonempty ""); [|done]. rewrite Hl, Hsp. apply elem_of_app. left.
    destruct sub as [|w [|w' ws]]; [done|simpl in Hj; subst; left|].
    change (join "." (w :: w' :: ws)) with (w +:+ "." +:+ join "." (w' :: ws)) in Hj. by destruct w.
Qed.
End named.

Lemma allows_port_spec r scheme port :
  allows_port r scheme port = true ↔
  match hr_ports r with [] => DEFAULT_PORTS scheme = Some port | ports => port ∈ ports end.
Proof. unfold allows_port. destruct (hr_ports r); apply bool_decide_eq_true. Qed.

Lemma decide_rules_spec host name labels plugin scheme port class hosts :
  names_host host name labels →
  v_allowed (decide_rules plugin scheme name port class hosts) = true ↔
  declares hosts scheme name port class.
Proof.
  intros Hn. unfold declares. induction hosts as [|r hosts IH]; cbn [decide_rules].
  { split; [done|]. by intros ([|? ?] & ? & ? & ? & _). }
  destruct (matches_host r name) eqn:Hm; simpl.
  - apply (matches_covers _ _ _ Hn) in Hm.
    transitivity (rule_permits r scheme port class).
    + unfold rule_permits. rewrite <- str_in_elem, <- allows_port_spec.
      destruct (str_in scheme (hr_schemes r)); simpl; [|by split; [|intros [? _]]].
      destruct (allows_port r scheme port); simpl; [|by split; [|intros (_ & ? & _)]].
      destruct class as [c|]; simpl; [|done].
      destruct (Z.ltb_spec (egress_rank (hr_data r)) (egress_rank c)); simpl.
      * split; [done|]. intros (_ & _ & Hc). specialize (Hc c eq_refl). lia.
      * split; [|done]. intros _. split_and!; try done. by intros ? [= <-].
    + split; [intros Hp; by exists [], r, hosts|].
      intros ([|q pre] & r' & post & Heq & Hf & Hc & Hp); injection Heq as <- _; [done|].
      apply Forall_cons in Hf as [Hq _]. done.
  - rewrite IH. assert (¬ covers r name) as Hnc.
    { rewrite <- (matches_covers _ _ _ Hn). by rewrite Hm. }
    split.
    + intros (pre & r' & post & -> & Hf & ? & ?). exists (r :: pre), r', post. by split_and!; [|constructor|..].
    + intros ([|q pre] & r' & post & Heq & Hf & ? & ?); injection Heq as <- ->; [done|].
      apply Forall_cons in Hf as [_ Hf]. by exists pre, r', post.
Qed.

Lemma decide_egress_iff p plugin scheme host port class :
  v_allowed (decide_egress p plugin scheme host port class) = true ↔
  egress_permits p plugin scheme host port class.
Proof.
  unfold decide_egress, egress_permits. destruct (normalize_host host) as [name|e] eqn:Hh.
  2:{ split; [done|]. intros (name & labels & d & Hn & _).
      assert (normalize_host host = Ok name) by (apply normalize_host_spec; by exists labels). congruence. }
  assert (∀ name' labels', names_host host name' labels' → name' = name) as Hfun.
  { intros name' labels' Hn'. enough (normalize_host host = Ok name') by congruence.
    apply normalize_host_spec. by exists labels'. }
  pose proof (proj1 (normalize_host_spec _ _) Hh) as [labels Hn].
  assert (∀ labels', names_host host name labels' → labels' = labels) as Hfunl.
  { intros labels' (_ & _ & _ & _ & -> & _). by destruct Hn as (_ & _ & _ & _ & -> & _). }
  rewrite (ip_literal_last _ _ _ Hn). pose proof (internal_last _ _ _ Hn) as Hi.
  destruct (hex_or_octal_number (List.last labels "")) eqn:Hx.
  { split; [done|]. intros (name' & labels' & d & Hn' & [Hp _] & _).
    pose proof (Hfun _ _ Hn') as ->. rewrite (Hfunl _ Hn') in Hp. congruence. }
  destruct (is_internal_name name).
  { split; [done|]. intros (name' & labels' & d & Hn' & [_ Hp] & _).
    pose proof (Hfun _ _ Hn') as ->. rewrite (Hfunl _ Hn') in Hp. destruct Hp. by apply Hi. }
  assert (public_name labels) as Hpub.
  { split; [done|]. by intros ?%Hi. }
  transitivity (∃ d, p !! plugin = Some d ∧
    if pe_open_web d then str_lower scheme ∈ SCHEMES else declares (pe_hosts d) (str_lower scheme) name port class).
  2:{ split; [intros (d & ?); by exists name, labels, d|].
      intros (name' & labels' & d & Hn' & _ & ?). pose proof (Hfun _ _ Hn') as ->. by exists d. }
  destruct (p !! plugin) as [d|]; [|by split; [|intros (? & ? & _)]].
  transitivity (if pe_open_web d then str_lower scheme ∈ SCHEMES
                else declares (pe_hosts d) (str_lower scheme) name port class).
  2:{ split; [by exists d|]. by intros (? & [= <-] & ?). }
  unfold declared. destruct (pe_hosts d) as [|r hosts] eqn:Hhosts; destruct (pe_open_web d); cbn [negb].
  - rewrite <- str_in_elem. by destruct (str_in _ SCHEMES).
  - split; [done|]. by intros ([|? ?] & ? & ? & ? & _).
  - rewrite <- str_in_elem. by destruct (str_in _ SCHEMES).
  - by eapply decide_rules_spec.
Qed.

(** The decision of a request, on every branch: the policy allows [plugin] to send data of
    class [class] to [scheme://host:port] exactly when the host is a DNS name (up to case and one
    trailing dot), its last label is neither a number in any base, as in an address, nor one of the
    local-network names, the plugin is mounted, and either it declared [open_web] and the scheme is
    HTTP, or the first declared host that covers the name -- itself, or a wildcard over a proper
    suffix of its labels -- was declared for that scheme and port and for data of at least that
    class.  In every other case, an unknown plugin, an empty declaration, an unknown class or an
    address in any spelling among them, it refuses. *)
Theorem decide_egress_exact p plugin scheme host port class :
  v_allowed (decide_egress p plugin scheme host port class) = true ↔
  egress_permits p plugin scheme host port class.
Proof. apply decide_egress_iff. Qed.

(** ** What follows for the hook and the client *)

(** Normalising is idempotent. *)
Lemma normalize_host_idem host name : normalize_host host = Ok name → normalize_host name = Ok name.
Proof.
  intros Hn. apply normalize_host_spec in Hn as [labels Hn].
  pose proof (name_chars _ _ _ Hn) as Hc. destruct (name_labels _ _ _ Hn) as [Hl Hd].
  apply normalize_host_spec. exists labels. destruct Hn as (_ & Hname & Hne & Hlen & _).
  assert (str_lower name = name) as Hlow.
  { clear -Hc. induction name as [|c s IH]; [done|]. cbn in Hc |- *.
    apply andb_prop in Hc as [Hc Hs]. specialize (IH Hs). unfold str_lower in IH |- *. cbn. rewrite IH. f_equal.
    clear -Hc. by destruct c as [[] [] [] [] [] [] [] []]. }
  assert (drop_dot name = name) as Hdot.
  { unfold drop_dot. destruct (rpartition "." name) as [[l r]|] eqn:Hr; [|done]. destruct r; [|done].
    exfalso. pose proof (after_last_split "." name) as Ha. unfold after_last in Ha. rewrite Hr in Ha.
    rewrite Forall_forall in Hd.
    destruct (exists_last (split_char_ne "." name)) as (ini & x & Hs).
    rewrite Hs, last_last in Ha. subst x. rewrite <- Hl in Hs.
    destruct (Hd "" ltac:(rewrite Hs; apply elem_of_app; right; left)) as [[H0 _] _]. simpl in H0. lia. }
  split_and!; try done; [|by rewrite Hlow, Hdot]. unfold plain_ascii.
  rewrite !andb_true_iff, negb_true_iff. split_and!.
  - by destruct name.
  - eapply str_all_weaken; [|exact Hc]. intros c Hx. by destruct c as [[] [] [] [] [] [] [] []].
  - eapply str_all_any; [exact Hc|]. intros c Hx. by destruct c as [[] [] [] [] [] [] [] []].
Qed.

(** How sensitive a label is; a call without one is asked nothing of. *)
Definition class_le (a b : option DataClassification) : Prop :=
  match a, b with
  | None, _ => True
  | Some x, Some y => (egress_rank (class_str x) ≤ egress_rank (class_str y))%Z
  | Some _, None => False
  end.

#[export] Instance class_le_preorder : PreOrder class_le.
Proof. split; [intros [x|]; simpl; [reflexivity|done]|]. intros [x|] [y|] [z|]; simpl; try done. lia. Qed.

(** What may be sent with a label may be sent with a less sensitive one. *)
Lemma egress_permits_mono p plugin scheme host port a b :
  class_le a b → egress_permits p plugin scheme host port (class_str <$> b) →
  egress_permits p plugin scheme host port (class_str <$> a).
Proof.
  intros Hle (name & labels & d & Hn & Hpub & Hp & Hd). exists name, labels, d. split_and!; [done..|].
  destruct (pe_open_web d); [done|]. destruct Hd as (pre & r & post & ? & ? & ? & Hs & Hpt & Hc).
  exists pre, r, post. split_and!; [done..|]. split_and!; [done..|].
  intros c. destruct a as [x|]; [|done]. destruct b as [y|]; [|done]. simpl in *. intros [= <-].
  specialize (Hc _ eq_refl). lia.
Qed.

(** A declaration of [open_web] answers before any class is looked at: a call that holds [secret]
    data may be sent anywhere, with a verdict that says [personal]. *)
Example open_web_ignores_class :
  decide_egress {["reader" := {| pe_hosts := []; pe_open_web := true; pe_max_response_bytes := None |}]}
    "reader" "https" "example.org" 443 (Some "secret") = yes_verdict "open_web" "personal" "*".
Proof. vm_compute. reflexivity. Qed.
