(* ===== verification/GovernedHttp.v ===== *)
(** * The governed HTTP client ([runtime/governed_http.py])

    A plugin's request: how it is built and described, the firing that allows it, the transfer
    over the pinned transport with its deadline and its cap, and the outcome row. *)

From S2P Require Import Prelude PyVal PyText Hooks CallContext Kernel Transport PluginEgress.
From stdpp Require Import options.

(** ** Limits *)

Definition US : Z := 1000000.
(** Seconds are microseconds here. *)
Definition _DEFAULT_TIMEOUT : Z := 10 * US.
Definition _MAX_TIMEOUT : Z := 60 * US.
Definition _DECODE_STEP : nat := N.to_nat 65536.

(** What [float(value)] gives. *)
Inductive FloatVal := Nan | NegInf | PosInf | Finite (us : Z).

(** [_seconds]: the default for [None], a [bool], a value that is no number, zero, a negative
    number or not-a-number; at most a minute. *)
Definition _seconds (float_of : pyval → res FloatVal) (value : pyval) (dflt : Z) : Z :=
  match value with
  | VBool _ => dflt
  | VNone => if (0 <? dflt)%Z then Z.min dflt _MAX_TIMEOUT else dflt
  | _ => match float_of value with
         | Raise _ => dflt
         | Ok (Finite us) => if (0 <? us)%Z then Z.min us _MAX_TIMEOUT else dflt
         | Ok PosInf => _MAX_TIMEOUT
         | Ok (Nan | NegInf) => dflt
         end
  end.

Definition EgressDenied (message : string) : exn := Exn "EgressDenied" message.

Definition _too_big (cap : Z) : string :=
  let size := if (MIB <=? cap)%Z then pretty (cap / MIB)%Z +:+ " MiB" else pretty cap +:+ " bytes" in
  "the response is larger than " +:+ size +:+ "; it was cut off".
Definition _TOO_SLOW : string := "the request did not finish within its time limit; it was cut off".
Definition _NOT_VALID : string := "the URL is not valid".
Definition _BAD_HEADER : string :=
  "a Host, Proxy-*, Connection, Upgrade, TE, Transfer-Encoding or Content-Length header "
  +:+ "is not sent".
Definition _BAD_ENCODING : string := "the response uses a content encoding that is not accepted".
Definition _BAD_BODY : string := "the response body could not be decoded".
Definition _NO_SCOPE : string :=
  "no governed tool or capability call is running, so a request has no run to be held to".
Definition _OTHER_PLUGIN : string := "this client belongs to a different plugin than the tool being run".
Definition _NO_KERNEL : string := "no governance kernel is bound, so governed requests fail closed".
Definition _NO_HOOK : string :=
  "the governance kernel has no plugin_egress hook, so governed requests fail closed".

Definition _FORBIDDEN_HEADERS : list string :=
  ["host"; "connection"; "upgrade"; "te"; "transfer-encoding"; "content-length"].
Definition _FRAMING : list string := ["content-encoding"; "content-length"; "transfer-encoding"].

(** ** A request *)

(** What the client reads of an [httpx.Request]. *)
Record HttpRequest := {
  rq_method : string; rq_scheme : string; rq_host : string; rq_port : option Z;
  rq_userinfo : string; rq_path : string; rq_params : list (string * string);
  rq_headers : list (string * string); rq_content : string }.

(** [httpx.Request(...)]: built, [InvalidURL] or a [UnicodeError], or another exception. *)
Inductive Built := IsRequest (r : HttpRequest) | InvalidURL | BuildRaised (e : exn).

Definition with_header (name value : string) (r : HttpRequest) : HttpRequest :=
  {| rq_method := rq_method r; rq_scheme := rq_scheme r; rq_host := rq_host r; rq_port := rq_port r;
     rq_userinfo := rq_userinfo r; rq_path := rq_path r; rq_params := rq_params r;
     rq_headers := List.filter (λ kv, negb (String.eqb (str_lower kv.1) (str_lower name))) (rq_headers r)
                   ++ [(name, value)];
     rq_content := rq_content r |}.

(** The arguments of a call of [request]. *)
Record CallArgs := {
  ca_method : string; ca_url : string; ca_params : pyval; ca_headers : pyval; ca_json : pyval;
  ca_data : pyval; ca_content : pyval; ca_timeout : pyval }.

(** The governed call a request is made inside, without its dict of attempts. *)
Record EgressScope := {
  sc_run_id : string; sc_agent_type : string; sc_tool : string; sc_tool_plugin : option string;
  sc_caller : option string; sc_step_id : option Z; sc_classification : option DataClassification;
  sc_tool_call_id : option string }.

(** The current scope's requests, by method, host and port: the first one's id, and how many. *)
Abbreviation Attempts := (gmap (string * string * Z) (string * Z)).

(** [_attempt] on the dict of the current scope. *)
Definition _attempt (scoped : bool) (key : string * string * Z) (call_id : string)
    : M Attempts (Z * option string) := λ a,
  if negb scoped then (Ok (1%Z, None), a)
  else let '(first, n) := default (call_id, 0%Z) (a !! key) in
       (Ok ((n + 1)%Z, if (n + 1 =? 1)%Z then None else Some first), <[key := (first, (n + 1)%Z)]> a).

(** The text values of a nested value, in order. *)
Fixpoint _leaves (v : pyval) : list string :=
  match v with
  | VStr s => [s]
  | VDict d => List.concat (map (λ kv, _leaves kv.2) d)
  | VList l => List.concat (map _leaves l)
  | VInt z => [pretty z]
  | VFloat r => [r]
  | VNone | VBool _ | VObj _ => []
  end.

Definition _content_strings (request : option HttpRequest) (json data : pyval) : list string :=
  match request with
  | None => []
  | Some r => List.filter str_truthy (split_char "/" (rq_path r)) ++ map snd (rq_params r)
              ++ _leaves json ++ _leaves data
  end.

(** [host.encode("ascii", "backslashreplace").decode()[:253].lower()] *)
Definition backslashreplace (s : string) : string :=
  str_concat_map (λ c, if (N_of_ascii c <? 128)%N then String c ""
                       else String (ascii_of_N 92) (String "x" (hex2 (N_of_ascii c)))) s.
Definition shown_host (host : string) : string :=
  str_lower (String.substring 0 253 (backslashreplace host)).

Section preparing.
(** [httpx.Request] and the keys of [httpx.Headers]. *)
Context (httpx_request : string → CallArgs → Built) (header_names : pyval → res (list string)).

Definition _bad_headers (headers : pyval) : bool :=
  if negb (truthy headers) then false
  else match header_names headers with
       | Raise _ => true
       | Ok names =>
           let names := map str_lower names in
           existsb (λ n, str_in n _FORBIDDEN_HEADERS) names || existsb (startswith "proxy-") names
       end.

(** Why a built request is not addressed to anything the plugin may reach, in the code's order. *)
Definition malformed (plugin : string) (scope : option EgressScope) (r : HttpRequest) (headers : pyval)
    : option string :=
  match scope with
  | None => Some _NO_SCOPE
  | Some s =>
      if negb (str_truthy (sc_tool s)) then Some _NO_SCOPE
      else if negb (bool_decide (sc_tool_plugin s = Some plugin)) then Some _OTHER_PLUGIN
      else if negb (str_truthy (rq_host r)) || negb (str_in (rq_scheme r) ["http"; "https"]) then
        Some ("not an http(s) URL with a host (" +:+ or_str (Some (rq_scheme r)) "no scheme" +:+ ")")
      else if negb (match normalize_host (rq_host r) with Ok _ => true | Raise _ => false end) then
        Some "the host is not a valid host name"
      else if str_truthy (rq_userinfo r) then Some "a URL with credentials in it is not sent"
      else if _bad_headers headers then Some _BAD_HEADER
      else None
  end.

Definition target_port (r : HttpRequest) : Z :=
  match rq_port r with
  | Some p => if (p =? 0)%Z then (if String.eqb (rq_scheme r) "https" then 443 else 80)%Z else p
  | None => (if String.eqb (rq_scheme r) "https" then 443 else 80)%Z
  end.

Definition target_host (r : HttpRequest) : string :=
  if str_truthy (rq_host r) then
    match normalize_host (rq_host r) with Ok h => h | Raise _ => shown_host (rq_host r) end
  else "".

(** [_response_cap] *)
Definition _response_cap (policy : option PluginEgressPolicy) (plugin : string) : Z :=
  match policy with Some p => response_cap p plugin | None => DEFAULT_RESPONSE_BYTES end.

Definition attempt_keys (att : Z * option string) : egress_dict :=
  [("attempt", VInt att.1); ("replay_of", opt_val att.2)].

(** The egress dict of a request: only what addresses the host. *)
Definition egress_record (plugin scheme host method : string) (port : Z) (tail : egress_dict) : egress_dict :=
  [("plugin", VStr plugin); ("scheme", VStr scheme); ("host", VStr host); ("port", VInt port);
   ("method", VStr method)] ++ tail.

(** [_prepare] *)
Definition _prepare (plugin : string) (args : CallArgs) (scope : option EgressScope)
    (policy : option PluginEgressPolicy) (call_id : string)
    : M Attempts (option HttpRequest * egress_dict) :=
  let scoped := match scope with Some _ => true | None => false end in
  match httpx_request (str_upper (ca_method args)) args with
  | BuildRaised e => raise e
  | InvalidURL =>
      let method := String.substring 0 16 (str_upper (ca_method args)) in
      att ← _attempt scoped (method, "", 0%Z) call_id;
      mret (None, egress_record plugin "" "" method 0 (("malformed", VStr _NOT_VALID) :: attempt_keys att))
  | IsRequest r =>
      att ← _attempt scoped (rq_method r, target_host r, target_port r) call_id;
      let cap := _response_cap policy plugin in
      let capped := if (cap =? DEFAULT_RESPONSE_BYTES)%Z then [] else [("cap", VInt cap)] in
      let egress tail := egress_record plugin (rq_scheme r) (target_host r) (rq_method r) (target_port r)
                           (attempt_keys att ++ capped ++ tail) in
      match malformed plugin scope r (ca_headers args) with
      | Some why => mret (Some r, egress [("malformed", VStr why)])
      | None => mret (Some (with_header "Accept-Encoding" "identity" r), egress [])
      end
  end.
End preparing.

(** ** The transfer *)

(** A response as it arrives: its raw body chunks and how reading them ends. *)
Record Reply := {
  rp_status : Z; rp_headers : list (string * string); rp_consumed : option string;
  rp_raw : list string; rp_raw_end : option exn }.
Inductive Exchange := Replied (r : Reply) | ExchangeRaised (e : exn).

Record HttpResponse := {
  rs_status : Z; rs_headers : list (string * string); rs_body : string; rs_request : HttpRequest }.

(** What a transfer keeps: the request's record, the decoded bytes read, the pieces kept, and how
    many pieces came. *)
Record Transfer := {
  tr_egress : egress_dict; tr_bytes_in : Z; tr_chunks : list string; tr_pieces : nat }.

Definition new_transfer (egress : egress_dict) : Transfer :=
  {| tr_egress := egress; tr_bytes_in := 0; tr_chunks := []; tr_pieces := 0 |}.

(** The outside world of one transfer: readings of the clock, the connection attempts, what the
    server at an address answers. *)
Record Wire := {
  wr_deadline_at : Z; wr_backend_at : Z; wr_connect_at : Z; wr_attempt : string → Z * Attempt;
  wr_exchange : string → Exchange; wr_clock : nat → Z }.

(** [zlib.decompressobj]: a call gives the output, the input it left for the limit and the next
    state, or [zlib.error]. *)
Record Zlib := {
  z_state : Type;
  z_new : Z → z_state;
  z_decompress : z_state → string → nat → option (string * string * z_state);
  z_flush : z_state → option string }.

(** What the documentation of [decompress] says of its limit: no more output than that, and input
    is left over only when the limit was reached. *)
Class ZlibLaws (z : Zlib) : Prop := {
  z_limit st data limit piece tail st' :
    z_decompress z st data limit = Some (piece, tail, st') → String.length piece ≤ limit;
  z_tail st data limit piece tail st' :
    z_decompress z st data limit = Some (piece, tail, st') → tail ≠ "" → String.length piece = limit }.

Definition MAX_WBITS : Z := 15.
(** [_ENCODINGS] *)
Definition _ENCODINGS (label : string) : option (option Z) :=
  if str_in label [""; "identity"] then Some None
  else if str_in label ["gzip"; "x-gzip"] then Some (Some (16 + MAX_WBITS)%Z)
  else if String.eqb label "deflate" then Some (Some MAX_WBITS)
  else None.

(** [headers.get(name, "")] of [httpx.Headers]. *)
Definition header_get (name : string) (headers : list (string * string)) : string :=
  join ", " (map snd (List.filter (λ kv, String.eqb (str_lower kv.1) name) headers)).

Definition TIMEOUTS : list string :=
  ["DeadlineExceeded"; "TimeoutException"; "ConnectTimeout"; "ReadTimeout"; "WriteTimeout"; "PoolTimeout"].

Section transfer.
(** [getaddrinfo] of a host, at its [n]-th call. *)
Context (zlib : Zlib) (resolver : string → nat → LookupEnd) (cap : Z).

Abbreviation T := (M (Net * Transfer)).

Definition on_net {A} (m : M Net A) : T A := zoom fst (λ n s, (n, snd s)) m.
Definition on_transfer (f : Transfer → Transfer) : T unit := modify (λ s, (fst s, f (snd s))).

Definition set_aborted (why : string) : T unit :=
  on_transfer (λ t, {| tr_egress := kv_set "aborted" (VStr why) (tr_egress t); tr_bytes_in := tr_bytes_in t;
                       tr_chunks := tr_chunks t; tr_pieces := tr_pieces t |}).
Definition cut_off (why message : string) {A} : T A :=
  set_aborted why;; raise (EgressDenied message).

(** The body of the loop over the decoded pieces. *)
Definition take_piece (deadline : Z) (clock : nat → Z) (chunk : string) : T unit :=
  on_transfer (λ t, {| tr_egress := tr_egress t;
                       tr_bytes_in := (tr_bytes_in t + Z.of_nat (String.length chunk))%Z;
                       tr_chunks := tr_chunks t; tr_pieces := S (tr_pieces t) |});;
  t ← gets snd;
  if (cap <? tr_bytes_in t)%Z then cut_off "max_bytes" (_too_big cap)
  else if (deadline <? clock (tr_pieces t))%Z then cut_off "deadline" _TOO_SLOW
  else on_transfer (λ t, {| tr_egress := tr_egress t; tr_bytes_in := tr_bytes_in t;
                            tr_chunks := tr_chunks t ++ [chunk]; tr_pieces := tr_pieces t |}).

Section decoding.
(** The consumer of the pieces. *)
Context (emit : string → T unit).

Definition emit_some (piece : string) : T unit := if str_truthy piece then emit piece else mret ().

Definition zlib_error {A} : T A := cut_off "decode" _BAD_BODY.

(** [while data: piece = inflater.decompress(data, _DECODE_STEP) ...]; [raise] here means that the
    fuel did not suffice. *)
Fixpoint inflate (fuel : nat) (st : z_state zlib) (data : string) : T (z_state zlib) :=
  if negb (str_truthy data) then mret st
  else match fuel with
       | 0 => raise (Exn "OutOfFuel" "")
       | S fuel =>
           match z_decompress zlib st data _DECODE_STEP with
           | None => zlib_error
           | Some (piece, tail, st') => emit_some piece;; inflate fuel st' tail
           end
       end.

(** Every round but the last gives a full step, so the cap bounds the rounds. *)
Definition inflate_fuel : nat := S (S (Z.to_nat (cap / Z.of_nat _DECODE_STEP))).

Fixpoint inflate_raw (raw : list string) (st : z_state zlib) : T (z_state zlib) :=
  match raw with
  | [] => mret st
  | data :: raw' => st' ← inflate inflate_fuel st data; inflate_raw raw' st'
  end.

(** Some servers send raw deflate without the zlib wrapper: the first chunk is probed. *)
Definition inflater_for (label : string) (wbits : Z) (raw : list string) : z_state zlib :=
  match raw with
  | first :: _ =>
      if String.eqb label "deflate" then
        match z_decompress zlib (z_new zlib wbits) first 1 with
        | None => z_new zlib (- MAX_WBITS)
        | Some _ => z_new zlib wbits
        end
      else z_new zlib wbits
  | [] => z_new zlib wbits
  end.

Definition end_of_raw (r : Reply) : T unit :=
  match rp_raw_end r with Some e => raise e | None => mret () end.

Fixpoint emit_all (raw : list string) : T unit :=
  match raw with [] => mret () | c :: raw' => emit c;; emit_all raw' end.

(** [_decoded] *)
Definition _decoded (r : Reply) : T unit :=
  match rp_consumed r with
  | Some content => emit content
  | None =>
      let label := str_lower (str_strip (header_get "content-encoding" (rp_headers r))) in
      match _ENCODINGS label with
      | None => cut_off "encoding" _BAD_ENCODING
      | Some None => emit_all (rp_raw r);; end_of_raw r
      | Some (Some wbits) =>
          st ← inflate_raw (rp_raw r) (inflater_for label wbits (rp_raw r));
          end_of_raw r;;
          match z_flush zlib st with
          | None => zlib_error
          | Some tail => emit_some tail
          end
      end
  end.
End decoding.

(** A [PinnedBackend] is made for each request. *)
Definition new_backend (s : Net) : Net :=
  {| slots := slots s; lookups := lookups s; contacted := contacted s; refused := None |}.

(** [_execute], with the production transport: the pinned connection, the exchange, the body. *)
Definition _execute (wire : Wire) (request : HttpRequest) (seconds : Z) : T HttpResponse :=
  let deadline := (wr_deadline_at wire + seconds)%Z in
  try_except
    (on_net (modify new_backend);;
     address ← on_net (connect_tcp (resolver (rq_host request)) (wr_backend_at wire + seconds) (wr_connect_at wire)
                         (wr_attempt wire));
     match wr_exchange wire address with
     | ExchangeRaised e => raise e
     | Replied reply =>
         _decoded (take_piece deadline (wr_clock wire)) reply;;
         t ← gets snd;
         mret {| rs_status := rp_status reply;
                 rs_headers := List.filter (λ kv, negb (str_in (str_lower kv.1) _FRAMING)) (rp_headers reply);
                 rs_body := join "" (tr_chunks t); rs_request := request |}
     end)
    (λ e, if String.eqb (exn_class e) "BlockedAddress" then
            cut_off "address" ("the request was not sent: " +:+ exn_str e)
          else if str_in (exn_class e) TIMEOUTS then cut_off "deadline" _TOO_SLOW
          else raise e).
End transfer.

(** ** The governed parts *)

Record GovernedHttp := { gh_plugin : string; gh_timeout : Z }.

Definition new_client (float_of : pyval → res FloatVal) (plugin : string) (timeout : pyval) : GovernedHttp :=
  {| gh_plugin := plugin; gh_timeout := _seconds float_of timeout _DEFAULT_TIMEOUT |}.

(** The fresh values of one request: its id, and the run ids for rows outside a run. *)
Record Fresh := { fr_call_id : string; fr_pre_run : string; fr_post_run : string }.

(** [x or y] *)
Definition truthy_or (x : option string) (y : option string) : option string :=
  match nonempty x with Some s => Some s | None => y end.

(** [_context] *)
Definition _context (plugin : string) (scope : option EgressScope) (point : HookPoint) (egress : egress_dict)
    (call_id uuid_run : string) (content : option (list string)) : HookContext :=
  let tool_plugin := default plugin (nonempty (scope ≫= sc_tool_plugin)) in
  let p : dict := <["tool_plugin" := VStr tool_plugin]> (<["egress" := VDict egress]> ∅) in
  let p := match scope with
           | Some s => if str_truthy (sc_tool s) then <["tool_name" := VStr (sc_tool s)]> p else p
           | None => p
           end in
  let p := match content with
           | Some l => <["egress_content" := VList (map VStr l)]> p
           | None => p
           end in
  {| ctx_hook_point := point;
     run_id := default uuid_run (nonempty (sc_run_id <$> scope));
     agent_type := match scope with Some s => sc_agent_type s | None => "plugin" end;
     step_id := scope ≫= sc_step_id; persona := None;
     route := Some ("egress/" +:+ shown egress "host");
     payload := p; classification := scope ≫= sc_classification; tier := None;
     metadata := <["caller" := VStr (default ("plugin:" +:+ plugin) (nonempty (scope ≫= sc_caller)))]>
       (<[CALL_ID := VStr call_id]> (<[PARENT_CALL_ID := opt_val (scope ≫= sc_tool_call_id)]> ∅)) |}.

(** [_pre] *)
Definition _pre {A} (d : HookDecision) (request : option A) : res A :=
  if negb (bool_decide (outcome d = allow)) then Raise (EgressDenied (reason d))
  else match request with
       | None => Raise (EgressDenied ("plugin_egress: " +:+ _NOT_VALID))
       | Some r => Ok r
       end.

(** The egress dict of the outcome: the request's, with what happened. *)
Definition outcome_record (egress : egress_dict) (duration_ms : Z) (request : HttpRequest)
    (ended : res HttpResponse) (bytes_in : Z) : egress_dict :=
  let done := kv_set "bytes_out" (VInt (Z.of_nat (String.length (rq_content request))))
                (kv_set "duration_ms" (VInt duration_ms) egress) in
  let done := match ended with Ok r => kv_set "status" (VInt (rs_status r)) done | Raise _ => done end in
  let done := kv_set "bytes_in" (VInt bytes_in) done in
  match ended with Raise e => kv_set "error" (VStr (exn_class e)) done | Ok _ => done end.

(** [_kernel] *)
Definition _kernel {W} (kernel : option (GovernanceKernel W)) : res (GovernanceKernel W) :=
  match kernel with
  | None => Raise (EgressDenied _NO_KERNEL)
  | Some k => if str_in "plugin_egress" (hook_names k PRE_EGRESS) then Ok k else Raise (EgressDenied _NO_HOOK)
  end.

Section client.
Context {W : Type} `{!Part W Net, !Part W EgressState, !Part W Attempts}.
Context (httpx_request : string → CallArgs → Built) (header_names : pyval → res (list string)).
Context (float_of : pyval → res FloatVal) (zlib : Zlib) (resolver : string → nat → LookupEnd).
(** [egress_kernel()], read at each use, and what the kernel needs. *)
Context (egress_kernel : W → option (GovernanceKernel W)) (env : KernelEnv W).

(** The part before anything is sent: the request, its record and the decision on it. *)
Definition cleared (g : GovernedHttp) (args : CallArgs) (scope : option EgressScope) (fresh : Fresh)
    : M W (GovernanceKernel W * (HttpRequest * egress_dict)) :=
  policy ← gets (λ w, egress_policy (part w : EgressState));
  re ← on_part (_prepare httpx_request header_names (gh_plugin g) args scope policy (fr_call_id fresh)
                 : M Attempts _);
  let '(request, egress) := re in
  let ctx := _context (gh_plugin g) scope PRE_EGRESS egress (fr_call_id fresh) (fr_pre_run fresh)
               (Some (_content_strings request (ca_json args) (ca_data args))) in
  k ← gets egress_kernel;
  k ← lift_res (_kernel k);
  dc ← fire k env PRE_EGRESS ctx;
  r ← lift_res (_pre (fst dc) request);
  mret (k, (r, egress)).

(** The transfer and how it ended. *)
Definition transferred (g : GovernedHttp) (args : CallArgs) (wire : Wire) (request : HttpRequest)
    (egress : egress_dict) : M W (res HttpResponse * Transfer) := λ w,
  let cap := _response_cap (egress_policy (part w : EgressState)) (gh_plugin g) in
  let '(ended, (net, t)) :=
    _execute zlib resolver cap wire request (_seconds float_of (ca_timeout args) (gh_timeout g)) (part w, new_transfer egress) in
  (Ok (ended, t), set_part net w).

(** [_outcome] *)
Definition _outcome (g : GovernedHttp) (scope : option EgressScope) (fresh : Fresh) (duration_ms : Z)
    (request : HttpRequest) (ended : res HttpResponse) (t : Transfer) : HookContext :=
  _context (gh_plugin g) scope POST_EGRESS
    (outcome_record (tr_egress t) duration_ms request ended (tr_bytes_in t))
    (fr_call_id fresh) (fr_post_run fresh) None.

(** [request] *)
Definition request (g : GovernedHttp) (args : CallArgs) (scope : option EgressScope) (fresh : Fresh)
    (wire : Wire) (duration_ms : Z) : M W HttpResponse :=
  kre ← cleared g args scope fresh;
  let re := kre.2 in
  et ← transferred g args wire re.1 re.2;
  k ← gets egress_kernel;
  k ← lift_res (_kernel k);
  _ ← fire k env POST_EGRESS (_outcome g scope fresh duration_ms re.1 et.1 et.2);
  lift_res et.1.

(** [arequest]: the same, the kernel bound once. *)
Definition arequest (g : GovernedHttp) (args : CallArgs) (scope : option EgressScope) (fresh : Fresh)
    (wire : Wire) (duration_ms : Z) : M W HttpResponse :=
  kre ← cleared g args scope fresh;
  let re := kre.2 in
  et ← transferred g args wire re.1 re.2;
  _ ← fire kre.1 env POST_EGRESS (_outcome g scope fresh duration_ms re.1 et.1 et.2);
  lift_res et.1.

(** [current_http] *)
Definition current_http (scope : option EgressScope) : res GovernedHttp :=
  match nonempty (scope ≫= sc_tool_plugin) with
  | Some plugin => Ok (new_client float_of plugin VNone)
  | None => Raise (EgressDenied "current_http() is only available while a plugin's tool is running")
  end.
End client.

(** ** What a transfer does *)

(** A run that returns keeps [I]. *)
Definition returns_keep {S A} (I : S → Prop) (m : M S A) : Prop :=
  ∀ s a s', I s → m s = (Ok a, s') → I s'.

Section returning.
Context {S : Type} (I : S → Prop).

Lemma returns_ret {A} (a : A) : returns_keep I (mret a : M S A).
Proof. by intros s ? s' Hs [= _ <-]. Qed.
Lemma returns_gets {A} (f : S → A) : returns_keep I (gets f).
Proof. by intros s ? s' Hs [= _ <-]. Qed.
Lemma returns_raise {A} e : returns_keep I (raise e : M S A).
Proof. by intros s ? s' Hs [=]. Qed.
Lemma returns_bind {A B} (m : M S A) (f : A → M S B) :
  returns_keep I m → (∀ a, returns_keep I (f a)) → returns_keep I (m ≫= f).
Proof.
  intros Hm Hf s b s' Hs. unfold mbind, M_bind. destruct (m s) as [[a|e] s1] eqn:He; [|done].
  apply Hf. by eapply Hm.
Qed.
End returning.

Section transferring.
Context (zlib : Zlib) (cap deadline : Z) (clock : nat → Z).
Local Abbreviation T := (M (Net * Transfer)).

(** The pieces kept are what was read, within the cap and the time. *)
Definition within (s : Net * Transfer) : Prop :=
  tr_bytes_in s.2 = Z.of_nat (String.length (join "" (tr_chunks s.2))) ∧ (tr_bytes_in s.2 ≤ cap)%Z ∧
  ∀ j, 1 ≤ j ≤ tr_pieces s.2 → (clock j ≤ deadline)%Z.

Definition same_net (s s' : Net * Transfer) : Prop := s'.1 = s.1.
#[local] Instance same_net_preorder : PreOrder same_net.
Proof. split; [done|]. intros ? ? ?. unfold same_net. congruence. Qed.

Lemma join_snoc l x : join "" (l ++ [x]) = join "" l +:+ x.
Proof. destruct l as [|y l]; [done|]. by rewrite join_app. Qed.

Lemma take_piece_returns chunk : returns_keep within (take_piece cap deadline clock chunk).
Proof.
  intros [n t] [] s' (Hb & Hc & Ht). unfold take_piece, on_transfer, cut_off, set_aborted, on_transfer. run_monad.
  cbn [fst snd tr_bytes_in tr_pieces tr_chunks].
  destruct (Z.ltb_spec cap (tr_bytes_in t + Z.of_nat (String.length chunk))) as [|Hcap]; [done|].
  destruct (Z.ltb_spec deadline (clock (S (tr_pieces t)))) as [|Hd]; [done|].
  intros [= <-]. unfold within. cbn [snd tr_bytes_in tr_pieces tr_chunks] in *. split_and!; [|done|].
  - rewrite join_snoc, length_app_string. lia.
  - intros j Hj. destruct (decide (j = S (tr_pieces t))) as [->|Hne]; [done|]. apply Ht. lia.
Qed.

Lemma take_piece_net chunk : Respects same_net (take_piece cap deadline clock chunk).
Proof.
  intros [n t]. unfold take_piece, on_transfer, cut_off, set_aborted, on_transfer. run_monad.
  cbn [fst snd tr_bytes_in tr_pieces]. by destruct (_ <? _)%Z; [|destruct (_ <? _)%Z].
Qed.

Section of_pieces.
Context (emit : string → T unit).

Lemma emit_some_net p : (∀ c, Respects same_net (emit c)) → Respects same_net (emit_some emit p).
Proof. intros He. unfold emit_some. destruct (str_truthy p); [apply He|apply _]. Qed.

Lemma zlib_error_net {A} : Respects same_net (zlib_error : T A).
Proof. done. Qed.

Lemma inflate_net fuel st data : (∀ c, Respects same_net (emit c)) → Respects same_net (inflate zlib emit fuel st data).
Proof.
  intros He. revert st data. induction fuel as [|fuel IH]; intros st data; simpl; destruct (negb _); try apply _.
  destruct (z_decompress _ _ _ _) as [[[p tl] st']|]; [|done].
  apply respects_bind; [apply _|by apply emit_some_net|done].
Qed.

Lemma inflate_raw_net raw st : (∀ c, Respects same_net (emit c)) → Respects same_net (inflate_raw zlib cap emit raw st).
Proof.
  intros He. revert st. induction raw as [|d raw IH]; intros st; cbn [inflate_raw]; [apply _|].
  apply respects_bind; [apply _|by apply inflate_net|done].
Qed.

Lemma decoded_net r : (∀ c, Respects same_net (emit c)) → Respects same_net (_decoded zlib cap emit r).
Proof.
  intros He. unfold _decoded, end_of_raw. destruct (rp_consumed r); [done|].
  destruct (_ENCODINGS _) as [[wbits|]|]; [| |done].
  - apply respects_bind; [apply _|by apply inflate_raw_net|]. intros st.
    apply respects_bind; [apply _|by destruct (rp_raw_end r); apply _|]. intros _.
    destruct (z_flush _ _); [by apply emit_some_net|done].
  - apply respects_bind; [apply _| |by destruct (rp_raw_end r); intros _; apply _].
    induction (rp_raw r) as [|c raw IH]; simpl; [apply _|]. by apply respects_bind; [apply _|..].
Qed.

Context (I : Net * Transfer → Prop) (He : ∀ c, returns_keep I (emit c)).

Lemma emit_some_returns p : returns_keep I (emit_some emit p).
Proof using He. unfold emit_some. destruct (str_truthy p); [apply He|apply returns_ret]. Qed.

Lemma zlib_error_returns {A} : returns_keep I (zlib_error : T A).
Proof. by intros s ? s' _ [=]. Qed.

Lemma inflate_returns fuel st data : returns_keep I (inflate zlib emit fuel st data).
Proof using He.
  revert st data. induction fuel as [|fuel IH]; intros st data; simpl; destruct (negb _);
    try apply returns_ret; try apply returns_raise.
  destruct (z_decompress _ _ _ _) as [[[p tl] st']|]; [|apply zlib_error_returns].
  apply returns_bind; [apply emit_some_returns|done].
Qed.

Lemma decoded_returns r : returns_keep I (_decoded zlib cap emit r).
Proof using He.
  assert (returns_keep I (end_of_raw r)) as Hend.
  { unfold end_of_raw. destruct (rp_raw_end r); [apply returns_raise|apply returns_ret]. }
  unfold _decoded. destruct (rp_consumed r); [apply He|].
  destruct (_ENCODINGS _) as [[wbits|]|]; [| |by intros s ? s' _ [=]].
  - apply returns_bind.
    + generalize (inflater_for zlib (str_lower (str_strip (header_get "content-encoding" (rp_headers r)))) wbits (rp_raw r)).
      induction (rp_raw r) as [|d raw IH]; intros st; cbn [inflate_raw]; [apply returns_ret|].
      apply returns_bind; [apply inflate_returns|done].
    + intros st. apply returns_bind; [done|]. intros _.
      destruct (z_flush _ _); [apply emit_some_returns|apply zlib_error_returns].
  - apply returns_bind; [|by intros _].
    induction (rp_raw r) as [|c raw IH]; simpl; [apply returns_ret|]. by apply returns_bind.
Qed.
End of_pieces.
End transferring.

(** A transfer contacts only addresses outside; a response it returns is within the cap. *)
Lemma execute_contained zlib resolver cap wire rq seconds n egress ended s' :
  (0 ≤ cap)%Z →
  _execute zlib resolver cap wire rq seconds (n, new_transfer egress) = (ended, s') →
  (∃ new, contacted s'.1 = contacted n ++ new ∧
     (new ≠ [] → ∃ infos, resolver (rq_host rq) (lookups n) = Answers infos ∧ (∀ a, a ∈ infos → outside a) ∧
        ∀ a, a ∈ new → a ∈ infos)) ∧
  ∀ resp, ended = Ok resp →
    (Z.of_nat (String.length (rs_body resp)) ≤ cap)%Z ∧
    ∀ j, 1 ≤ j ≤ tr_pieces s'.2 → (wr_clock wire j ≤ wr_deadline_at wire + seconds)%Z.
Proof.
  intros Hcap. unfold _execute, on_net, zoom. set (h := λ e : exn, _).
  assert (∀ e, Respects same_net (h e) ∧ ∀ s a s'', h e s ≠ (@Ok HttpResponse a, s'')) as Hh.
  { intros e. subst h. cbv beta. destruct (String.eqb (exn_class e) _); [done|]. by destruct (str_in (exn_class e) TIMEOUTS). }
  clearbody h. unfold try_except. run_monad. cbn [fst snd].
  destruct (connect_tcp _ _ _ _ (new_backend n)) as [rc n1] eqn:Hc.
  pose proof (connects_only_outside _ _ _ _ _ _ _ Hc) as (_ & _ & new & Hnew & _ & Ho & _).
  change (contacted (new_backend n)) with (contacted n) in Hnew.
  change (lookups (new_backend n)) with (lookups n) in Ho.
  assert (∀ (m : M (Net * Transfer) HttpResponse) out, m (n1, new_transfer egress) = out →
    Respects same_net m → contacted (out.2).1 = contacted n ++ new) as Hkeep.
  { intros m out <- Hm. pose proof (Hm (n1, new_transfer egress)) as Hm'. unfold same_net in Hm'. simpl in Hm'.
    by rewrite Hm', Hnew. }
  intros Hrun.
  assert (contacted s'.1 = contacted n ++ new ∧ ∀ resp, ended = Ok resp →
    (Z.of_nat (String.length (rs_body resp)) ≤ cap)%Z ∧
    ∀ j, 1 ≤ j ≤ tr_pieces s'.2 → (wr_clock wire j ≤ wr_deadline_at wire + seconds)%Z) as [H1 H2].
  2:{ split; [|done]. exists new. split; [done|]. intros Hne. destruct (Ho Hne) as (infos & ? & ? & Hin).
      exists infos. split_and!; [done..|]. intros a Ha. by apply Hin. }
  destruct rc as [address|e].
  2:{ split; [by apply (Hkeep _ _ Hrun), Hh|]. intros resp ->. by apply Hh in Hrun. }
  destruct (wr_exchange wire address) as [reply|e].
  2:{ split; [by apply (Hkeep _ _ Hrun), Hh|]. intros resp ->. by apply Hh in Hrun. }
  pose proof (decoded_net zlib cap (take_piece cap (wr_deadline_at wire + seconds) (wr_clock wire)) reply
    (take_piece_net _ _ _) (n1, new_transfer egress)) as Hd.
  pose proof (decoded_returns zlib cap (take_piece cap (wr_deadline_at wire + seconds) (wr_clock wire))
    (within cap (wr_deadline_at wire + seconds) (wr_clock wire)) (take_piece_returns _ _ _) reply
    (n1, new_transfer egress)) as Hw.
  destruct (_decoded _ _ _ reply _) as [[[]|e] [n2 t2]].
  - injection Hrun as <- <-. unfold same_net in Hd. simpl in Hd. subst n2. split; [done|].
    destruct (Hw tt (n1, t2)) as (Hb & Hc' & Hj); [|done|].
    { split_and!; simpl; [done|done|lia]. }
    intros resp [= <-]. cbn [rs_body]. simpl in Hb, Hc'. split; [lia|done].
  - unfold same_net in Hd. simpl in Hd. subst n2. destruct (Hh e) as [Hr Hno].
    split; [|intros resp ->; by apply Hno in Hrun]. pose proof (Hr (n1, t2)) as Hr'. rewrite Hrun in Hr'.
    unfold same_net in Hr'. simpl in Hr'. by rewrite Hr', Hnew.
Qed.

(** ** The bounded decoder *)

Section bounded.
Context (zlib : Zlib) `{!ZlibLaws zlib} (cap deadline : Z) (clock : nat → Z).
Local Abbreviation STEP := (Z.of_nat _DECODE_STEP).

(** How a decoder may end: not for want of fuel, and having read at most a step past the cap. *)
Definition ends_within {A} (out : res A * (Net * Transfer)) : Prop :=
  out.1 ≠ Raise (Exn "OutOfFuel" "") ∧ (tr_bytes_in out.2.2 ≤ cap + STEP)%Z ∧
  ∀ a, out.1 = Ok a → (tr_bytes_in out.2.2 ≤ cap)%Z.

Lemma take_piece_within chunk s :
  (tr_bytes_in s.2 ≤ cap)%Z → String.length chunk ≤ _DECODE_STEP →
  let out := take_piece cap deadline clock chunk s in
  ends_within out ∧ tr_bytes_in out.2.2 = (tr_bytes_in s.2 + Z.of_nat (String.length chunk))%Z.
Proof.
  destruct s as [n t]. intros Hb Hl. unfold take_piece, on_transfer, cut_off, set_aborted, on_transfer, ends_within.
  run_monad. cbn [fst snd tr_bytes_in tr_pieces] in *.
  destruct (Z.ltb_spec cap (tr_bytes_in t + Z.of_nat (String.length chunk)));
    [|destruct (Z.ltb_spec deadline (clock (S (tr_pieces t))))]; cbn [fst snd tr_bytes_in]; split_and!; try done; lia.
Qed.

Lemma inflate_within fuel st data s :
  (0 ≤ tr_bytes_in s.2 ≤ cap)%Z → (cap + STEP < tr_bytes_in s.2 + Z.of_nat fuel * STEP)%Z →
  let out := inflate zlib (take_piece cap deadline clock) fuel st data s in
  ends_within out ∧ (0 ≤ tr_bytes_in out.2.2)%Z.
Proof using All.
  assert (0 < STEP)%Z as Hstep by (unfold _DECODE_STEP; lia).
  revert st data s. induction fuel as [|fuel IH]; intros st data s Hb Hf; cbn [inflate].
  { exfalso. lia. }
  destruct (negb (str_truthy data)) eqn:Hd.
  { unfold ends_within. run_monad. simpl. split_and!; try done; lia. }
  destruct (z_decompress zlib st data _DECODE_STEP) as [[[p tl] st']|] eqn:Hz.
  2:{ unfold zlib_error, cut_off, set_aborted, on_transfer, ends_within. run_monad. simpl. split_and!; try done; lia. }
  pose proof (z_limit _ _ _ _ _ _ Hz) as Hl. pose proof (z_tail _ _ _ _ _ _ Hz) as Htl. unfold emit_some.
  assert ((0 < String.length p)%nat ∨ p = "") as [Hp|Hp] by (destruct p; [by right|left; simpl; lia]).
  - assert (str_truthy p = true) as -> by (destruct p; simpl in *; [lia|done]). run_monad.
    pose proof (take_piece_within p s ltac:(lia) Hl) as [Hw Hbytes].
    destruct (take_piece cap deadline clock p s) as [[[]|e] s1]; cbn [fst snd] in *.
    2:{ destruct Hw as (Hw1 & Hw2 & _). unfold ends_within. cbn [fst snd] in *. split_and!; [by intros [= ->]|lia|done|lia]. }
    destruct Hw as (_ & _ & Hw). specialize (Hw tt eq_refl).
    destruct (str_truthy tl) eqn:Ht.
    + apply IH; [cbn [fst snd] in *; lia|]. rewrite Hbytes. rewrite (Htl ltac:(by intros ->)). lia.
    + apply str_truthy_false in Ht as ->. destruct fuel; cbn [inflate str_truthy negb]; unfold ends_within; run_monad;
        cbn [fst snd] in *; split_and!; try done; lia.
  - subst p. change (str_truthy "") with false. run_monad.
    destruct tl as [|c tl]; [|specialize (Htl ltac:(done)); cbn [String.length] in Htl; lia].
    destruct fuel; cbn [inflate str_truthy negb]; unfold ends_within; run_monad; cbn [fst snd]; split_and!; try done; lia.
Qed.

(** The decompressor is bounded.  Whatever a compressed body is, however much it expands and
    however the server cut it into chunks, decoding it ends, within [cap / 64 KiB + 2] rounds a
    chunk: the read is never left running, it never holds more than one decompression step past
    the cap, and it goes on to the end of the body only if the body is within the cap. *)
Theorem decode_bounded raw st n egress :
  (0 ≤ cap)%Z →
  ends_within (inflate_raw zlib cap (take_piece cap deadline clock) raw st (n, new_transfer egress)).
Proof using All.
  intros Hcap. assert (0 < STEP)%Z as Hstep by (unfold _DECODE_STEP; lia).
  assert (0 ≤ tr_bytes_in (n, new_transfer egress).2 ≤ cap)%Z as Hb by (simpl; lia).
  revert st Hb. generalize (n, new_transfer egress) as s.
  induction raw as [|d raw IH]; intros s st Hb; cbn [inflate_raw]; run_monad.
  { unfold ends_within. simpl. split_and!; try done; lia. }
  destruct (inflate_within (inflate_fuel cap) st d s Hb) as [(Hw1 & Hw2 & Hw3) Hpos].
  { unfold inflate_fuel. rewrite !Nat2Z.inj_succ, Z2Nat.id by (apply Z.div_pos; lia).
    pose proof (Z.mod_pos_bound cap STEP Hstep). pose proof (Z.div_mod cap STEP ltac:(lia)). lia. }
  destruct (inflate _ _ _ st d s) as [[st'|e] s1]; cbn [fst snd] in *.
  - apply IH. specialize (Hw3 _ eq_refl). lia.
  - unfold ends_within. cbn [fst snd]. split_and!; [by intros [= ->]|done|done].
Qed.
End bounded.

(** A decompressor that stores: its output is its input, at most the limit at a time. *)
Definition stored : Zlib :=
  {| z_state := unit; z_new := λ _, tt;
     z_decompress := λ _ data limit, Some (str_take limit data, str_drop limit data, tt);
     z_flush := λ _, Some "" |}.

Lemma length_str_take n s : String.length (str_take n s) = n `min` String.length s.
Proof. revert s. induction n as [|n IH]; intros [|c s]; cbn; [done..|]. f_equal. apply IH. Qed.

#[export] Instance stored_laws : ZlibLaws stored.
Proof.
  split; intros st data limit piece tail st' [= <- <- _]; rewrite length_str_take; [lia|].
  intros Ht. enough (¬ String.length data < limit) by lia. intros Hlt. apply Ht. clear Ht.
  revert limit Hlt. induction data as [|c s IH]; intros [|limit] Hlt; simpl in *; [done|done|lia|]. apply IH. lia.
Qed.

Lemma decode_bounded_witness :
  let out := inflate_raw stored 4 (take_piece 4 100 (λ _, 0%Z)) ["abc"; "defg"] tt (idle_net, new_transfer []) in
  run_res (inflate_raw stored 4 (take_piece 4 100 (λ _, 0%Z)) ["abc"; "defg"] tt) (idle_net, new_transfer [])
  = Raise (EgressDenied "the response is larger than 4 bytes; it was cut off") ∧ ends_within 4 out.
Proof.
  split; [vm_compute; reflexivity|].
  refine (decode_bounded stored 4 100 (λ _, 0%Z) ["abc"; "defg"] tt idle_net [] _). lia.
Defined.

(** ** A request, as a whole *)

Section hooks_around.
Context {W : Type}.

(** A hook that neither readdresses a request nor lowers its label. *)
Class KeepsEgress (h : Hook W) : Prop :=
  keeps_egress c w d w' : hook_call h c w = (Ok d, w') →
    (∀ p, outcome d = transform → transformed_payload d = Some p → p !! "egress" = payload c !! "egress") ∧
    ∀ x, set_classification d = Some x → class_le (classification c) (Some x).

Lemma apply_updates_egress name d c c' :
  (∀ p, outcome d = transform → transformed_payload d = Some p → p !! "egress" = payload c !! "egress") →
  (∀ x, set_classification d = Some x → class_le (classification c) (Some x)) →
  apply_updates name d c = Ok c' →
  payload c' !! "egress" = payload c !! "egress" ∧ class_le (classification c) (classification c').
Proof.
  intros Hp Hx Hu.
  assert (class_le (classification c) (match set_classification d with Some x => Some x | None => classification c end)) as Hc.
  { destruct (set_classification d); [by apply Hx|reflexivity]. }
  unfold apply_updates in Hu.
  destruct (outcome d) eqn:Ho; [by injection Hu as <-..| |by injection Hu as <-].
  destruct (transformed_payload d) as [q|] eqn:Hq; [|by injection Hu as <-].
  destruct (append_transformed_by _ _); [|done]. injection Hu as <-. split; [by apply Hp|done].
Qed.

Lemma pass_keeps_egress (k : GovernanceKernel W) env point hs c w tr c' w' :
  (∀ h, h ∈ hs → KeepsEgress h) → pass k env point hs c w tr c' w' →
  payload c' !! "egress" = payload c !! "egress" ∧ class_le (classification c) (classification c').
Proof.
  intros Hk Hp. induction Hp as [|h hs c w d w1 kept w2 c1 tr c' w' Hc Ha Hu Ho Hp IH]; [done|].
  destruct (Hk h ltac:(left) _ _ _ _ Hc) as [H1 H2].
  destruct (apply_updates_egress _ _ _ _ H1 H2 Hu) as [Hpl Hcl].
  destruct IH as [Hpl' Hcl']; [intros g Hg; apply Hk; by right|]. split; [congruence|by etrans].
Qed.
End hooks_around.

(** What the hook answers when it lets a request out. *)
Lemma plugin_egress_allows int_of policy ctx d plugin scheme host method port tail :
  payload ctx !! "egress" = Some (VDict (egress_record plugin scheme host method port tail)) →
  port ≠ 0%Z →
  plugin_egress_call int_of policy ctx = Ok d → outcome d = allow ∨ outcome d = transform →
  truthy_at "malformed" (egress_record plugin scheme host method port tail) = None ∧
  ∃ p, policy = Some p ∧ egress_permits p plugin scheme host port (class_str <$> classification ctx).
Proof.
  intros Hpl Hport Hc Ho. unfold plugin_egress_call in Hc.
  assert (egress_of ctx = egress_record plugin scheme host method port tail) as He by (unfold egress_of; by rewrite Hpl).
  rewrite He in Hc. unfold egress_denied in Hc.
  assert (∀ s : string, (if truthy (VStr s) then str_val (VStr s) else "") = s) as Hid by (by intros [|]).
  destruct (truthy_at "malformed" _); [injection Hc as <-; destruct Ho; done|].
  destruct policy as [p|]; [|injection Hc as <-; destruct Ho; done]. split; [done|]. exists p. split; [done|].
  apply decide_egress_iff.
  assert (port_of int_of (egress_record plugin scheme host method port tail) = Ok port) as Hp.
  { unfold port_of. simpl. replace (port =? 0)%Z with false by (symmetry; apply Z.eqb_neq; lia). done. }
  rewrite Hp in Hc. cbn [res_bind] in Hc.
  assert (∀ k v, od_get k (egress_record plugin scheme host method port tail) = Some (VStr v) →
    text_of (egress_record plugin scheme host method port tail) k = v) as Ht.
  { intros k v Hk. unfold text_of. rewrite Hk. apply Hid. }
  rewrite (Ht "plugin" plugin), (Ht "scheme" scheme), (Ht "host" host) in Hc by done.
  destruct (v_allowed _); [done|]. injection Hc as <-. destruct Ho; done.
Qed.

Lemma target_port_nonzero r : target_port r ≠ 0%Z.
Proof. unfold target_port. destruct (rq_port r) as [p|]; [destruct (Z.eqb_spec p 0); [|done]|]; by destruct (String.eqb (rq_scheme r) _). Qed.

(** What a prepared request that carries no reason against it is. *)
Lemma prepare_addressed httpx_request header_names plugin args scope policy call_id a rq egress a' :
  _prepare httpx_request header_names plugin args scope policy call_id a = (Ok (Some rq, egress), a') →
  truthy_at "malformed" egress = None →
  ∃ r s tail, httpx_request (str_upper (ca_method args)) args = IsRequest r ∧ scope = Some s ∧
    str_truthy (sc_tool s) = true ∧ sc_tool_plugin s = Some plugin ∧ rq_userinfo r = "" ∧
    _bad_headers header_names (ca_headers args) = false ∧
    rq = with_header "Accept-Encoding" "identity" r ∧ normalize_host (rq_host r) = Ok (target_host r) ∧
    egress = egress_record plugin (rq_scheme r) (target_host r) (rq_method r) (target_port r) tail.
Proof.
  unfold _prepare. destruct (httpx_request _ _) as [r| |e]; run_monad; [| |done].
  2:{ by destruct (_attempt _ _ _ _) as [[?|?] ?]. }
  destruct (_attempt _ _ _ _) as [[att|e] a1]; [|done].
  destruct (malformed header_names plugin scope r (ca_headers args)) as [why|] eqn:Hm; intros [= <- <- <-] Ht.
  - exfalso. assert (str_truthy why = true) as Hy.
    { unfold malformed in Hm. destruct scope as [s|]; [|by injection Hm as <-].
      repeat (case_match; simplify_eq; try done). }
    revert Ht. unfold truthy_at, egress_record, attempt_keys. simpl. by destruct (_response_cap _ _ =? _)%Z; simpl; rewrite Hy.
  - clear Ht. unfold malformed in Hm. destruct scope as [s|]; [|done].
    destruct (str_truthy (sc_tool s)) eqn:Htool; cbn [negb orb] in Hm; [|done].
    case_bool_decide as Hown; cbn [negb orb] in Hm; [|done].
    destruct (str_truthy (rq_host r)) eqn:Hhost; cbn [negb orb] in Hm; [|done].
    destruct (str_in (rq_scheme r) _); cbn [negb orb] in Hm; [|done].
    destruct (normalize_host (rq_host r)) as [name|e] eqn:Hn; cbn [negb orb] in Hm; [|done].
    destruct (str_truthy (rq_userinfo r)) eqn:Hu; [done|]. apply str_truthy_false in Hu.
    destruct (_bad_headers _ _) eqn:Hb; [done|].
    exists r, s. eexists. split_and!; try done. unfold target_host. by rewrite Hhost, Hn.
Qed.

Section whole.
Context {W : Type} `{!Part W Net, !Part W EgressState, !Part W Attempts, !Part W (list AuditRow)}.
Context `{!PartLaws W Net, !Apart W Attempts Net, !Apart W Attempts EgressState, !Apart W Attempts (list AuditRow)}.
Context `{!Apart W Net EgressState, !Apart W Net (list AuditRow)}.

Definition the_net (w : W) : Net := part w.
Definition the_policy (w : W) : option PluginEgressPolicy := egress_policy (part w).
Definition the_rows (w : W) : list AuditRow := part w.

(** What hooks and the ledger leave alone: the network and the policy; rows are only added. *)
Definition leaves_egress (w w' : W) : Prop :=
  the_net w' = the_net w ∧ the_policy w' = the_policy w ∧ the_rows w `prefix_of` the_rows w'.

#[export] Instance leaves_egress_preorder : PreOrder leaves_egress.
Proof.
  split; [by intros w|]. intros w1 w2 w3 (H1 & H2 & H3) (H4 & H5 & H6).
  split_and!; [congruence..|by etrans].
Qed.

(** A kernel that governs requests: its hooks touch neither the network nor the policy nor the
    ledger, do not readdress a request, and the one named [plugin_egress] is the code's. *)
Class EgressKernel (int_of : pyval → res Z) (k : GovernanceKernel W) : Prop := {
  ek_leaves :: RespectsKernel leaves_egress k;
  ek_quiet :: QuietKernel the_rows k;
  ek_keeps h : h ∈ k_hooks k PRE_EGRESS → KeepsEgress h;
  ek_gate h : h ∈ k_hooks k PRE_EGRESS → hook_name h = "plugin_egress" →
    ∃ ident, h = plugin_egress_hook int_of ident the_policy;
}.

Context (httpx_request : string → CallArgs → Built) (header_names : pyval → res (list string)).
Context (float_of : pyval → res FloatVal) (int_of : pyval → res Z) (zlib : Zlib).
Context (resolver : string → nat → LookupEnd).
Context (egress_kernel : W → option (GovernanceKernel W)) (env : KernelEnv W).
Context `{!LedgerSink the_rows env, !RespectsEnv leaves_egress env} (Hlog : env_audit_log env ≠ None).
Context (Hkernels : ∀ w k, egress_kernel w = Some k → EgressKernel int_of k).

Lemma attempts_leave {A} (m : M Attempts A) : Respects leaves_egress (on_part m : M W A).
Proof using All.
  intros w. unfold on_part, zoom. destruct (m (part w)) as [r a]. cbn [fst snd].
  unfold leaves_egress, the_net, the_policy, the_rows. by rewrite !apart.
Qed.

Lemma kernel_is k w : _kernel (egress_kernel w) = Ok k → egress_kernel w = Some k ∧ "plugin_egress" ∈ hook_names k PRE_EGRESS.
Proof using All.
  unfold _kernel. destruct (egress_kernel w) as [k'|]; [|done].
  destruct (str_in _ _) eqn:Hs; [|done]. apply str_in_elem in Hs. by intros [= <-].
Qed.

Lemma cleared_leaves g args scope fresh :
  Respects leaves_egress (cleared httpx_request header_names egress_kernel env g args scope fresh).
Proof using All.
  intros w. unfold cleared. run_monad. pose proof (attempts_leave (_prepare httpx_request header_names (gh_plugin g)
    args scope (egress_policy (part w)) (fr_call_id fresh)) w) as Ha.
  destruct (on_part _ w) as [[[rq egress]|e] w1]; [|exact Ha]. unfold lift_res.
  destruct (_kernel (egress_kernel w1)) as [k|e] eqn:Hk; [|exact Ha]. apply kernel_is in Hk as [Hk _].
  pose proof (Hkernels _ _ Hk). cbn [fst snd] in *. etrans; [exact Ha|].
  match goal with |- context [fire k env PRE_EGRESS ?ctx w1] =>
    pose proof (respects_fire leaves_egress k env PRE_EGRESS ctx w1) as Hf; destruct (fire k env PRE_EGRESS ctx w1) as [[[d c]|e] w2] end;
    [|exact Hf]. by destruct (_pre _ _).
Qed.

(** A request that was cleared. *)
Lemma cleared_ok g args scope fresh w k rq egress w' :
  cleared httpx_request header_names egress_kernel env g args scope fresh w = (Ok (k, (rq, egress)), w') →
  ∃ r s p pre, ((∃ w1, egress_kernel w1 = Some k) ∧ "plugin_egress" ∈ hook_names k PRE_EGRESS) ∧ httpx_request (str_upper (ca_method args)) args = IsRequest r ∧
    scope = Some s ∧ str_truthy (sc_tool s) = true ∧ sc_tool_plugin s = Some (gh_plugin g) ∧ rq_userinfo r = "" ∧
    _bad_headers header_names (ca_headers args) = false ∧ rq = with_header "Accept-Encoding" "identity" r ∧
    the_policy w = Some p ∧
    egress_permits p (gh_plugin g) (rq_scheme r) (rq_host r) (target_port r) (class_str <$> sc_classification s) ∧
    the_rows w' = the_rows w ++ pre ∧ map row_plugin pre = hook_names k PRE_EGRESS ∧
    Forall (λ row, row_hook_point row = "pre_egress" ∧ (row_decision row = "allow" ∨ row_decision row = "transform")) pre.
Proof using All.
  unfold cleared. run_monad. pose proof (attempts_leave (_prepare httpx_request header_names (gh_plugin g)
    args scope (egress_policy (part w)) (fr_call_id fresh)) w) as Ha.
  unfold on_part, zoom in *. destruct (_prepare _ _ _ _ _ _ _ _) as [[[orq eg]|e] a1] eqn:Hprep; [|done].
  cbn [fst snd] in *. set (w1 := set_part a1 w) in *. unfold lift_res.
  destruct (_kernel (egress_kernel w1)) as [k'|e] eqn:Hk; [|done]. apply kernel_is in Hk as [Hk Hname].
  pose proof (Hkernels _ _ Hk) as HE.
  set (ctx := _context _ _ _ _ _ _ _).
  destruct (fire k' env PRE_EGRESS ctx w1) as [[[d c]|e] w2] eqn:Hf; [|done].
  unfold _pre. cbn [fst]. case_bool_decide as Hd; simpl; [|done]. destruct orq as [rq'|]; [|done].
  intros [= <- <- <- <-].
  destruct (fire_effect_pass the_rows k' env _ _ _ _ _ _ Hlog Hf (or_introl Hd) eq_refl)
    as (tr & pre & Hpass & Hrows & Hnames & Hall).
  destruct Ha as (Hn & Hp & Hr0).
  assert (the_rows w1 = the_rows w) as Hr by (unfold the_rows, w1; by rewrite apart).
  pose proof Hname as Hgate. unfold hook_names in Hname. apply list_elem_of_fmap in Hname as (h & Hhn & Hin).
  destruct (ek_gate h Hin (eq_sym Hhn)) as [ident ->].
  apply list_elem_of_split in Hin as (hs1 & hs2 & Hsplit).
  rewrite Hsplit in Hpass. apply pass_app in Hpass as (tr1 & tr2 & c1 & w3 & Hp1 & Hp2).
  apply pass_one in Hp2 as (d1 & w4 & kept & w5 & c2 & tr' & Hcall & _ & _ & Hout & _).
  assert (∀ h, h ∈ hs1 → h ∈ k_hooks k' PRE_EGRESS) as Hsub by (intros h Hh; rewrite Hsplit, elem_of_app; by left).
  destruct (pass_keeps_egress _ _ _ _ _ _ _ _ _ (λ h Hh, ek_keeps h (Hsub h Hh)) Hp1) as [Hpl Hcl].
  pose proof (respects_pass leaves_egress k' env _ _ _ _ _ _ _ (λ h Hh, respects_hooks _ PRE_EGRESS h (Hsub h Hh)) Hp1)
    as (_ & Hpol & _).
  injection Hcall as Hcall _.
  assert (payload c1 !! "egress" = Some (VDict eg) ∧ class_le (scope ≫= sc_classification) (classification c1)) as [Heg Hclass].
  { assert (payload (strip_bot_id ctx) = payload ctx ∧ classification (strip_bot_id ctx) = classification ctx) as [Hs1 Hs2]
      by (unfold strip_bot_id; by destruct (metadata ctx !! BOT_ID)).
    rewrite Hpl, Hs1. rewrite Hs2 in Hcl. split; [|exact Hcl]. unfold ctx, _context. cbn [payload].
    rewrite lookup_insert_ne by done. destruct scope as [s|]; [destruct (str_truthy (sc_tool s))|];
      rewrite ?(lookup_insert_ne _ "tool_name") by done; rewrite lookup_insert_ne by done; apply lookup_insert_eq. }
  assert (truthy_at "malformed" eg = None) as Hok.
  { unfold plugin_egress_call in Hcall. unfold egress_of in Hcall. rewrite Heg in Hcall.
    destruct (truthy_at "malformed" eg); [|done]. injection Hcall as <-. by destruct Hout. }
  destruct (prepare_addressed _ _ _ _ _ _ _ _ _ _ _ Hprep Hok)
    as (r & s & tail & Hreq & -> & Htool & Hown & Hu & Hb & -> & Hnorm & ->).
  destruct (plugin_egress_allows int_of (the_policy w3) c1 d1 _ _ _ _ _ _ Heg ltac:(apply target_port_nonzero) Hcall Hout)
    as (_ & p & Hpp & Hperm).
  exists r, s, p, pre. split_and!; [by eexists|done..| | |congruence|done|done].
  - rewrite <- Hpp, Hpol. exact (eq_sym Hp).
  - apply (egress_permits_mono _ _ _ _ _ _ _ Hclass) in Hperm. apply decide_egress_iff in Hperm.
    apply decide_egress_iff. revert Hperm. unfold decide_egress. by rewrite Hnorm, (normalize_host_idem _ _ Hnorm).
Qed.

Lemma policy_cap_nonneg p plugin : (0 ≤ _response_cap p plugin)%Z.
Proof using All.
  unfold _response_cap, response_cap, DEFAULT_RESPONSE_BYTES, MIB. destruct p as [p|]; [|lia].
  destruct (p !! plugin ≫= pe_max_response_bytes); lia.
Qed.

(** The outcome row changes nothing of what was sent, and the result is the transfer's. *)
Lemma outcome_fired k ctx (ended : res HttpResponse) w r w' :
  EgressKernel int_of k → (_ ← fire k env POST_EGRESS ctx; lift_res ended) w = (r, w') →
  leaves_egress w w' ∧ ∀ resp, r = Ok resp → ended = Ok resp.
Proof using All.
  intros HE. run_monad. pose proof (respects_fire leaves_egress k env POST_EGRESS ctx w) as Hf. unfold lift_res.
  destruct (fire _ _ _ _ _) as [[x|e] w1]; intros [= <- <-]; (split; [exact Hf|done]).
Qed.

(** A run that contacts anything was cleared first, and made one transfer. *)
Lemma request_sent g args scope fresh wire ms w r w' :
  request httpx_request header_names float_of zlib resolver egress_kernel env g args scope fresh wire ms w = (r, w') ∨
  arequest httpx_request header_names float_of zlib resolver egress_kernel env g args scope fresh wire ms w = (r, w') →
  contacted (the_net w') ≠ contacted (the_net w) →
  ∃ kre w1, cleared httpx_request header_names egress_kernel env g args scope fresh w = (Ok kre, w1) ∧
    let et := transferred float_of zlib resolver g args wire kre.2.1 kre.2.2 w1 in
    ∃ out, et.1 = Ok out ∧ leaves_egress et.2 w' ∧ ∀ resp, r = Ok resp → out.1 = Ok resp.
Proof using All.
  intros Hrun Hnew. pose proof (cleared_leaves g args scope fresh w) as Hl. unfold request, arequest in Hrun.
  destruct (cleared _ _ _ _ g args scope fresh w) as [[kre|e] w1] eqn:Hcl.
  2:{ exfalso. apply Hnew. enough (w' = w1) as -> by (destruct Hl as [Hl _]; cbn [snd] in Hl; by rewrite Hl).
      revert Hrun. run_monad. rewrite Hcl. by intros [[= _ <-]|[= _ <-]]. }
  exists kre, w1. split; [done|]. destruct (transferred _ _ _ _ _ _ _ _ w1) as [out w2] eqn:Htr. cbv zeta. cbn [fst snd].
  destruct out as [out|e].
  2:{ exfalso. unfold transferred in Htr. by destruct (_execute _ _ _ _ _ _ _) as [? [? ?]]. }
  exists out. split; [done|].
  destruct Hrun as [Hrun|Hrun]; unfold mbind, M_bind in Hrun; rewrite Hcl in Hrun; cbv zeta in Hrun;
    unfold mbind, M_bind in Hrun; rewrite Htr in Hrun.
  - unfold gets, lift_res in Hrun. destruct (_kernel (egress_kernel w2)) as [k2|e] eqn:Hk2.
    + apply kernel_is in Hk2 as [Hk2 _]. exact (outcome_fired k2 _ _ _ _ _ (Hkernels _ _ Hk2) Hrun).
    + injection Hrun as <- <-. by split.
  - destruct kre as [k0 [rq0 eg0]]. destruct (cleared_ok _ _ _ _ _ _ _ _ _ Hcl) as (_ & _ & _ & _ & [[w0 Hk0] _] & _).
    exact (outcome_fired k0 _ _ _ _ _ (Hkernels _ _ Hk0) Hrun).
Qed.

(** C12. A governed request, from the plugin's call to its outcome row.  Whatever URL, method,
    headers and body the plugin's code passes, whatever the resolver, the servers and the clock
    answer, and whatever the other hooks do: if [request] (or [arequest]) contacts anything at
    all, then a governed tool call was in progress and is this plugin's own, the URL carries no
    credentials and the headers none of the client's own, the registered policy permits the
    request's host, scheme and port for the data class the harness stamped on that call, every
    hook at [PreEgress] let it through and has its row in the ledger, all the addresses contacted
    come from one answer of the resolver for that very host and all of that answer lies outside
    this machine and network; and a response it returns is no larger than the plugin's cap. *)
Theorem governed_request_contained g args scope fresh wire ms w r w' :
  request httpx_request header_names float_of zlib resolver egress_kernel env g args scope fresh wire ms w = (r, w') ∨
  arequest httpx_request header_names float_of zlib resolver egress_kernel env g args scope fresh wire ms w = (r, w') →
  contacted (the_net w') ≠ contacted (the_net w) →
  ∃ rq s p (k : GovernanceKernel W) rows_pre rows_post new infos,
    httpx_request (str_upper (ca_method args)) args = IsRequest rq ∧
    scope = Some s ∧ str_truthy (sc_tool s) = true ∧ sc_tool_plugin s = Some (gh_plugin g) ∧
    rq_userinfo rq = "" ∧ _bad_headers header_names (ca_headers args) = false ∧
    the_policy w = Some p ∧
    egress_permits p (gh_plugin g) (rq_scheme rq) (rq_host rq) (target_port rq) (class_str <$> sc_classification s) ∧
    the_rows w' = the_rows w ++ rows_pre ++ rows_post ∧ map row_plugin rows_pre = hook_names k PRE_EGRESS ∧
    "plugin_egress" ∈ hook_names k PRE_EGRESS ∧
    Forall (λ row, row_hook_point row = "pre_egress" ∧ (row_decision row = "allow" ∨ row_decision row = "transform")) rows_pre ∧
    contacted (the_net w') = contacted (the_net w) ++ new ∧
    resolver (rq_host rq) (lookups (the_net w)) = Answers infos ∧ (∀ a, a ∈ new → a ∈ infos) ∧ (∀ a, a ∈ infos → outside a) ∧
    ∀ resp, r = Ok resp → (Z.of_nat (String.length (rs_body resp)) ≤ response_cap p (gh_plugin g))%Z.
Proof using All.
  intros Hrun Hnew.
  destruct (request_sent _ _ _ _ _ _ _ _ _ Hrun Hnew) as (kre & w1 & Hcl & Ht).
  destruct kre as [k [rq eg]]. pose proof (cleared_leaves g args scope fresh w) as (Hn1 & Hp1 & _).
  rewrite Hcl in Hn1, Hp1. cbn [snd] in Hn1, Hp1.
  destruct (cleared_ok _ _ _ _ _ _ _ _ _ Hcl)
    as (q & s & p & pre & [_ Hgate] & Hq & Hs & Htool & Hown & Hu & Hb & -> & Hpol & Hperm & Hr & Hnames & Hall).
  unfold transferred in Ht. cbn [fst snd] in Ht. rewrite <- Hn1 in Hnew |- *.
  pose proof (λ H, execute_contained zlib resolver _ wire _ _ (part w1) eg _ _ H (surjective_pairing (_execute zlib resolver
    (_response_cap (egress_policy (part w1)) (gh_plugin g)) wire (with_header "Accept-Encoding" "identity" q)
    (_seconds float_of (ca_timeout args) (gh_timeout g)) (part w1, new_transfer eg)))) as Hex.
  destruct (_execute _ _ _ _ _ _ _) as [ended [net t]]. cbn [fst snd] in Ht, Hex.
  specialize (Hex (policy_cap_nonneg _ _)) as ((new & Hc & Ho) & Hbody).
  destruct Ht as ([ended' t'] & [= <- <-] & (Hn2 & Hp2 & [post Hpost]) & Hres). cbn [fst] in Hres.
  assert (the_net (set_part net w1) = net) as Hset by (unfold the_net; apply part_set).
  rewrite Hn2, Hset in Hnew |- *. change (rq_host (with_header _ _ q)) with (rq_host q) in Ho.
  destruct Ho as (infos & Hres' & Hout & Hin); [by intros ->; rewrite app_nil_r in Hc|].
  exists q, s, p, k, pre, post, new, infos. split_and!; try done.
  - rewrite Hpost. unfold the_rows at 1. rewrite (apart (B := list AuditRow)). change (part w1) with (the_rows w1).
    by rewrite Hr, <- app_assoc.
  - intros resp Hrr. destruct (Hbody resp (Hres resp Hrr)) as [Hle _].
    unfold the_policy in Hp1, Hpol. rewrite Hp1, Hpol in Hle. exact Hle.
Qed.
End whole.

(** ** A concrete request *)

Record Wired := { wd_net : Net; wd_egress : EgressState; wd_attempts : Attempts; wd_log : list AuditRow }.

#[export] Instance wd_net_part : Part Wired Net :=
  {| part := wd_net; set_part := λ n w, {| wd_net := n; wd_egress := wd_egress w; wd_attempts := wd_attempts w; wd_log := wd_log w |} |}.
#[export] Instance wd_egress_part : Part Wired EgressState :=
  {| part := wd_egress; set_part := λ e w, {| wd_net := wd_net w; wd_egress := e; wd_attempts := wd_attempts w; wd_log := wd_log w |} |}.
#[export] Instance wd_attempts_part : Part Wired Attempts :=
  {| part := wd_attempts; set_part := λ a w, {| wd_net := wd_net w; wd_egress := wd_egress w; wd_attempts := a; wd_log := wd_log w |} |}.
#[export] Instance wd_log_part : Part Wired (list AuditRow) :=
  {| part := wd_log; set_part := λ l w, {| wd_net := wd_net w; wd_egress := wd_egress w; wd_attempts := wd_attempts w; wd_log := l |} |}.
#[export] Instance wd_net_laws : PartLaws Wired Net.
Proof. split; [done|by intros []]. Qed.

#[export] Instance wd_apart0 : Apart Wired Attempts Net.
Proof. done. Qed.
#[export] Instance wd_apart1 : Apart Wired Attempts EgressState.
Proof. done. Qed.
#[export] Instance wd_apart2 : Apart Wired Attempts (list AuditRow).
Proof. done. Qed.
#[export] Instance wd_apart3 : Apart Wired Net EgressState.
Proof. done. Qed.
#[export] Instance wd_apart4 : Apart Wired Net (list AuditRow).
Proof. done. Qed.

Definition wd_env : KernelEnv Wired :=
  {| env_audit_log := Some (λ r w, (Ok 1%Z, set_part (wd_log w ++ [r]) w));
     env_lineage_of := λ _ _, None; env_is_run_resumed := λ _ _, false; env_session_id := λ _, None;
     env_turn_id := λ _, None; env_trace_id := λ _, None;
     env_note_unrecorded := λ _ _ w, set_part (note_unrecorded_outcome (wd_egress w)) w |}.

#[export] Instance wd_env_leaves : RespectsEnv leaves_egress wd_env.
Proof. split; [|done]. intros f r [= <-] w. split_and!; [done..|]. by eexists. Qed.
#[export] Instance wd_env_sink : LedgerSink the_rows wd_env.
Proof. split; [|done]. by intros rec r w [= <-]. Qed.

Definition ints_only (v : pyval) : res Z := Raise (Exn "ValueError" "").
Definition wd_kernel : GovernanceKernel Wired :=
  {| k_hooks := λ p, if decide (p = PRE_EGRESS) then [plugin_egress_hook ints_only 1 the_policy]
                     else if decide (p = POST_EGRESS) then [egress_outcome_hook 2] else [];
     k_init_locked := true; k_bot_hook := None |}.

#[export] Instance wd_kernel_ready : EgressKernel ints_only wd_kernel.
Proof.
  assert (∀ p h, h ∈ k_hooks wd_kernel p →
    h = plugin_egress_hook ints_only 1 the_policy ∨ h = egress_outcome_hook 2) as Hin.
  { intros p h. simpl. destruct (decide _) as [_|_]; [|destruct (decide _) as [_|_]];
      rewrite ?list_elem_of_singleton, ?elem_of_nil; tauto. }
  split.
  - split; [|done]. intros p h [->| ->]%Hin; split; done.
  - split; [|done]. intros p h [->| ->]%Hin; split; done.
  - intros h Hh c w d w' Hc.
    assert (transformed_payload d = None ∧ set_classification d = None) as [-> ->]; [|done].
    apply Hin in Hh as [->| ->]; injection Hc as Hc _; [|by rewrite <- Hc].
    unfold plugin_egress_call in Hc. destruct (truthy_at _ _); [by injection Hc as <-|].
    destruct (the_policy w); [|by injection Hc as <-]. destruct (port_of _ _); [|done].
    cbn [res_bind] in Hc. by destruct (v_allowed _); injection Hc as <-.
  - intros h [->| ->]%Hin; [by exists 1|done].
Qed.

Definition weather_policy : PluginEgressPolicy :=
  {["weather" := {| pe_hosts := [{| hr_host := "*.example.org"; hr_schemes := ["https"]; hr_ports := []; hr_data := "personal" |}];
                    pe_open_web := false; pe_max_response_bytes := None |}]}.
Definition weather_scope : EgressScope :=
  {| sc_run_id := "r1"; sc_agent_type := "chat"; sc_tool := "forecast"; sc_tool_plugin := Some "weather";
     sc_caller := None; sc_step_id := None; sc_classification := Some personal; sc_tool_call_id := Some "c0" |}.
Definition api_request (method : string) (args : CallArgs) : Built :=
  IsRequest {| rq_method := method; rq_scheme := "https"; rq_host := "API.Example.org."; rq_port := None;
               rq_userinfo := ""; rq_path := "/v1/today"; rq_params := [("q", "Roma")]; rq_headers := [];
               rq_content := "" |}.
Definition no_headers (v : pyval) : res (list string) := Ok [].
Definition no_float (v : pyval) : res FloatVal := Ok Nan.
Definition weather_args : CallArgs :=
  {| ca_method := "get"; ca_url := ""; ca_params := VNone; ca_headers := VNone; ca_json := VNone; ca_data := VNone;
     ca_content := VNone; ca_timeout := VNone |}.
Definition weather_wire : Wire :=
  {| wr_deadline_at := 0; wr_backend_at := 0; wr_connect_at := 0; wr_attempt := λ _, (0%Z, Connected);
     wr_exchange := λ _, Replied {| rp_status := 200; rp_headers := []; rp_consumed := None; rp_raw := ["sun"; "ny"]; rp_raw_end := None |};
     wr_clock := λ _, 0%Z |}.
Definition fresh_wired : Wired :=
  {| wd_net := idle_net; wd_egress := {| registered_policy := Some weather_policy; unrecorded_outcomes := 0 |};
     wd_attempts := ∅; wd_log := [] |}.
Definition weather_client : GovernedHttp := {| gh_plugin := "weather"; gh_timeout := _DEFAULT_TIMEOUT |}.
Definition weather_resolver (host : string) (n : nat) : LookupEnd := Answers ["93.184.216.34"].
Definition weather_fresh : Fresh := {| fr_call_id := "c1"; fr_pre_run := "e"; fr_post_run := "e" |}.
Definition weather_request : M Wired HttpResponse :=
  request api_request no_headers no_float stored weather_resolver (λ _, Some wd_kernel) wd_env
    weather_client weather_args (Some weather_scope) weather_fresh weather_wire 7.

Example weather_response :
  (rs_body <$> match run_res weather_request fresh_wired with Ok r => Some r | _ => None end) = Some "sunny" ∧
  map row_plugin (wd_log (run_state weather_request fresh_wired)) = ["plugin_egress"; "plugin_egress_outcome"].
Proof. split; vm_compute; reflexivity. Qed.

Lemma wd_logs : env_audit_log wd_env ≠ None.
Proof. done. Qed.

Lemma governed_request_contained_witness :
  ∃ r w', weather_request fresh_wired = (r, w') ∧ contacted (wd_net w') = ["93.184.216.34"] ∧
    egress_permits weather_policy "weather" "https" "API.Example.org." 443 (Some "personal").
Proof.
  destruct (weather_request fresh_wired) as [r w'] eqn:Hr. exists r, w'.
  assert (contacted (wd_net w') = ["93.184.216.34"]) as Hc.
  { change w' with (snd (r, w')). rewrite <- Hr. vm_compute. reflexivity. }
  split; [reflexivity|]. split; [exact Hc|].
  destruct (governed_request_contained api_request no_headers no_float ints_only stored weather_resolver
    (λ _, Some wd_kernel) wd_env wd_logs
    (λ w k H, match H in _ = o return match o with Some k => EgressKernel ints_only k | None => True end with
              | eq_refl => wd_kernel_ready end)
    weather_client weather_args (Some weather_scope) weather_fresh weather_wire 7 fresh_wired r w' (or_introl Hr))
    as (rq & s & p & _ & _ & _ & _ & _ & Hq & Hs & _ & _ & _ & _ & Hp & Hperm & _).
  - unfold the_net. simpl. rewrite Hc. discriminate.
  - injection Hq as <-. injection Hs as <-. injection Hp as <-. exact Hperm.
Defined.
