(* ===== verification/TurnLabel.v ===== *)
(** * The turn's label ([turn_label.py], [plugins/output_classifier.py],
    [plugins/capability_redaction.py], [hooks/result_text.py])

    How a result's text raises a run's data class, the redaction of a capability's result that
    comes first, the holder that keeps a turn's label, and the floor under every model call of
    the turn. *)

From S2P Require Import Prelude PyVal PyText Hooks CallContext Kernel Egress.
From stdpp Require Import options.

(** ** The text of a result *)

Definition RESULT_TEXT_KEYS : list string := ["output"; "content"; "text"; "result"; "body"].

Definition is_text_block (block : pyval) : bool :=
  match block with
  | VDict d => match od_get "type" d, od_get "text" d with
               | Some (VStr t), Some (VStr _) => String.eqb t "text"
               | _, _ => false
               end
  | _ => false
  end.

(** Where one piece of text sits: the key, and the block's index in its list. *)
Definition Slot : Type := option string * option nat.

Fixpoint block_slots (key : string) (i : nat) (l : list pyval) : list Slot :=
  match l with
  | [] => []
  | b :: l' => (if is_text_block b then [(Some key, Some i)] else []) ++ block_slots key (S i) l'
  end.

Fixpoint dict_slots (d : list (string * pyval)) (keys : list string) : list Slot :=
  match keys with
  | [] => []
  | key :: keys' =>
      match od_get key d with
      | Some (VStr s) => if str_truthy (str_strip s) then [(Some key, None)] else dict_slots d keys'
      | Some (VList l) => match block_slots key 0 l with [] => dict_slots d keys' | blocks => blocks end
      | _ => dict_slots d keys'
      end
  end.

(** [_slots] *)
Definition _slots (result : pyval) (keys : list string) : list Slot :=
  match result with
  | VStr _ => [(None, None)]
  | VDict d => dict_slots d keys
  | _ => []
  end.

Definition block_text (b : pyval) : string :=
  match b with
  | VDict d => match od_get "text" d with Some (VStr s) => s | _ => "" end
  | _ => ""
  end.

Definition part_at (result : pyval) (slot : Slot) : string :=
  match slot, result with
  | (None, _), VStr s => s
  | (Some key, None), VDict d => match od_get key d with Some (VStr s) => s | _ => "" end
  | (Some key, Some i), VDict d => match od_get key d with Some (VList l) => default "" (block_text <$> l !! i) | _ => "" end
  | _, _ => ""
  end.

Definition text_parts (result : pyval) (keys : list string) : list string :=
  map (part_at result) (_slots result keys).

Definition newline : string := String (ascii_of_N 10) "".
Definition result_text (result : pyval) (keys : list string) : string := join newline (text_parts result keys).

Definition with_block_text (text : string) (b : pyval) : pyval :=
  match b with VDict d => VDict (kv_set "text" (VStr text) d) | _ => b end.

(** One step of [with_text_parts]' loop. *)
Definition put_part (d : list (string * pyval)) (sp : Slot * string) : list (string * pyval) :=
  match sp.1 with
  | (Some key, None) => kv_set key (VStr sp.2) d
  | (Some key, Some i) =>
      match od_get key d with
      | Some (VList l) => kv_set key (VList (alter (with_block_text sp.2) i l)) d
      | _ => d
      end
  | _ => d
  end.

Definition with_text_parts (result : pyval) (parts : list string) (keys : list string) : res pyval :=
  let slots := _slots result keys in
  if negb (length parts =? length slots) then
    Raise (Exn "ValueError" ("expected " +:+ pretty (N.of_nat (length slots)) +:+ " text part(s), got "
                             +:+ pretty (N.of_nat (length parts))))
  else match result, slots, parts with
       | _, [], _ => Ok result
       | _, (None, _) :: _, part :: _ => Ok (VStr part)
       | VDict d, _, _ => Ok (VDict (fold_left put_part (zip slots parts) d))
       | _, _, _ => Ok result
       end.

(** ** The stricter of two labels *)

(** [_SEVERITY.index(label)]: the most restrictive is first. *)
Definition severity_index (c : DataClassification) : nat :=
  match c with secret => 0 | personal => 1 | internal => 2 | public => 3 end.

Definition more_restrictive (left right : option DataClassification) : option DataClassification :=
  match left, right with
  | None, r => r
  | l, None => l
  | Some l, Some r => if severity_index l <=? severity_index r then Some l else Some r
  end.

(** ** The hook at [PostToolUse] *)

Definition _RESULT_KEYS : list string := ["result"; "observation"; "output"; "text"].

Section output_classifier.
(** [DataClassifier.classify]: the class of a text and the patterns that matched. *)
Context (classify : string → DataClassification * list string).

(** [_extract_text] *)
Fixpoint extract_text (p : dict) (keys : list string) : string :=
  match keys with
  | [] => ""
  | key :: keys' =>
      let text := result_text (default VNone (p !! key)) RESULT_TEXT_KEYS in
      if str_truthy (str_strip text) then text else extract_text p keys'
  end.

Definition shown_tool (ctx : HookContext) : string := default "tool" (get_nonempty (payload ctx) "tool_name").

Definition opt_class (c : option DataClassification) : string := from_option class_str "None" c.
Definition class_val (c : option DataClassification) : pyval := opt_val (class_str <$> c).

(** [OutputClassifierHook.__call__] *)
Definition output_classifier_call (ctx : HookContext) : HookDecision :=
  let text := extract_text (payload ctx) _RESULT_KEYS in
  if negb (str_truthy text) then mk_decision allow "output_classifier: tool returned no text" info ∅
  else
    let '(observed, matched) := classify text in
    let raised := more_restrictive (classification ctx) (Some observed) in
    if decide (raised = classification ctx) then
      mk_decision allow ("output_classifier: " +:+ shown_tool ctx +:+ " output is " +:+ class_str observed
                         +:+ "; run stays " +:+ opt_class (classification ctx)) info ∅
    else
      let d := mk_decision allow ("output_classifier: " +:+ shown_tool ctx +:+ " output raised the run from "
                 +:+ opt_class (classification ctx) +:+ " to " +:+ opt_class raised) warn
                 (<["from" := class_val (classification ctx)]> (<["to" := class_val raised]>
                   (<["tool_name" := VStr (shown_tool ctx)]>
                     (<["matched_patterns" := VList (map VStr matched)]> ∅)))) in
      {| outcome := outcome d; reason := reason d; transformed_payload := None; set_classification := raised;
         set_tier := None; approval_request_id := None; severity := severity d;
         audit_metadata := audit_metadata d; decided_by := None |}.

Definition output_classifier_hook {W} (ident : nat) : Hook W :=
  {| hook_ident := ident; hook_name := "output_classifier"; hook_at := POST_TOOL_USE; hook_priority := 10;
     hook_call := λ ctx w, (Ok (output_classifier_call ctx), w); hook_bot := None |}.
End output_classifier.

(** ** The redaction of a capability's result *)

(** [value == text], of a text. *)
Definition is_text (text : string) (value : pyval) : bool :=
  match value with VStr s => String.eqb text s | _ => false end.

Section capability_redaction.
(** [redact_capability_text] over the owner's identity and the guard table, when there is an
    identity: the text a caller of a capability may see of a text, and the kinds of identity
    found in it. *)
Context (redact : option (string → string → string → string * list string)).

(** [CapabilityRedactionHook.__call__] *)
Definition capability_redaction_call (ctx : HookContext) : HookDecision :=
  let tool := str_or_empty (payload ctx !! TOOL_NAME) in
  let pass why := mk_decision allow ("capability_redaction: " +:+ why) info ∅ in
  if negb (startswith CAPABILITY_TOOL_PREFIX tool) then pass "not a capability"
  else match payload ctx !! "fields" with
  | Some (VDict ((_ :: _) as fields)) =>
      match redact with
      | None => pass "no identity seam"
      | Some redact_for =>
          let see := redact_for (str_or_empty (payload ctx !! "caller")) (str_or_empty (payload ctx !! "capability")) in
          let masked := map (λ kv, (kv.1, (see (str_val kv.2)).1)) fields in
          let kinds := remove_dups (flat_map (λ kv, (see (str_val kv.2)).2) fields) in
          let changed := sorted (omap (λ kv, if is_text (see (str_val kv.2)).1 kv.2 then None else Some kv.1) fields) in
          match kinds with
          | [] => pass (tool +:+ " carries no identity")
          | _ :: _ =>
              let d why o p := {| outcome := o; reason := "capability_redaction: " +:+ why; transformed_payload := p;
                 set_classification := more_restrictive (classification ctx) (Some personal); set_tier := None;
                 approval_request_id := None; severity := info;
                 audit_metadata := <["masked_fields" := VList (map VStr changed)]>
                                     {["identity_kinds" := VList (map VStr (sorted kinds))]};
                 decided_by := None |} in
              match changed with
              | [] => d (tool +:+ " identity unmasked by grant") allow None
              | _ :: _ =>
                  d ("masked identity in " +:+ pretty (N.of_nat (length changed)) +:+ " field(s) of " +:+ tool) transform
                    (Some (<["fields" := VDict (map (λ kv, (kv.1, VStr kv.2)) masked)]>
                             (<[RESULT := VStr (join newline (map snd masked))]> (payload ctx))))
              end
          end
      end
  | _ => pass "no text fields"
  end.

Definition capability_redaction_hook {W} (ident : nat) : Hook W :=
  {| hook_ident := ident; hook_name := "capability_redaction"; hook_at := POST_TOOL_USE; hook_priority := 5;
     hook_call := λ ctx w, (Ok (capability_redaction_call ctx), w); hook_bot := None |}.

(** The result as the rest of the turn sees it. *)
Definition seen_payload (ctx : HookContext) : dict := default (payload ctx) (transformed_payload (capability_redaction_call ctx)).
End capability_redaction.

(** ** The turn's holder

    The context variable names a holder, and copies of a context share it: the holders are a
    store, and the variable of the running context an index into it. *)

Record TurnState := { holders : gmap nat (option DataClassification); next_holder : nat; turn_var : option nat }.

Definition set_turn_var (v : option nat) (s : TurnState) : TurnState :=
  {| holders := holders s; next_holder := next_holder s; turn_var := v |}.

(** [_TurnLabel()] *)
Definition new_holder (s : TurnState) : nat * TurnState :=
  (next_holder s, {| holders := <[next_holder s := None]> (holders s); next_holder := S (next_holder s);
                     turn_var := turn_var s |}).

(** [with turn_label_scope(): body] *)
Definition turn_label_scope {A} (body : M TurnState A) : M TurnState A := λ s,
  let prev := turn_var s in
  let '(h, s1) := new_holder s in
  let '(r, s2) := body (set_turn_var (Some h) s1) in
  (r, set_turn_var prev s2).

(** A task run in a copy of another context ([bind_context]). *)
Definition in_context {A} (v : option nat) (body : M TurnState A) : M TurnState A := λ s,
  let mine := turn_var s in
  let '(r, s') := body (set_turn_var v s) in
  (r, set_turn_var mine s').

Definition current_turn_label (s : TurnState) : option DataClassification :=
  turn_var s ≫= λ h, default None (holders s !! h).

(** [_TurnLabel.lift] through [lift_turn_label]. *)
Definition lift_turn_label (label : option DataClassification) : M TurnState unit := modify (λ s,
  match turn_var s with
  | None => s
  | Some h => {| holders := alter (λ l, more_restrictive l label) h (holders s);
                 next_holder := next_holder s; turn_var := turn_var s |}
  end).

Definition apply_turn_floor (label : option DataClassification) (stripped_public_content : bool)
    (s : TurnState) : option DataClassification :=
  let floored := more_restrictive label (current_turn_label s) in
  if stripped_public_content && bool_decide (floored = Some personal) then Some internal else floored.

(** ** Rewriting a result's text *)

Lemma block_slots_app key i l1 l2 :
  block_slots key i (l1 ++ l2) = block_slots key i l1 ++ block_slots key (i + length l1) l2.
Proof.
  revert i. induction l1 as [|b l1 IH]; intros i; simpl; [by rewrite Nat.add_0_r|].
  rewrite IH, <- app_assoc. do 3 f_equal. lia.
Qed.

Lemma with_block_text_is text b : is_text_block b = true →
  is_text_block (with_block_text text b) = true ∧ block_text (with_block_text text b) = text.
Proof.
  unfold is_text_block. destruct b as [| | | | | |d|]; try done. simpl. rewrite !od_get_kv_set.
  change (String.eqb "text" "type") with false. change (String.eqb "text" "text") with true. cbv iota.
  destruct (od_get "type" d) as [[]|]; try done. by destruct (od_get "text" d) as [[]|].
Qed.

Lemma block_slots_key key i l sl : sl ∈ block_slots key i l → ∃ j, sl = (Some key, Some j).
Proof.
  revert i. induction l as [|b l IH]; intros i; cbn [block_slots]; [by intros ?%elem_of_nil|].
  destruct (is_text_block b); cbn [app]; [|apply IH].
  intros [->|Hin]%elem_of_cons; [by eexists|by eapply IH].
Qed.

(** The texts put into a list of blocks, one per text block in order. *)
Fixpoint put_blocks (l : list pyval) (parts : list string) : list pyval :=
  match l with
  | [] => []
  | b :: l' =>
      if is_text_block b then
        match parts with
        | p :: parts' => with_block_text p b :: put_blocks l' parts'
        | [] => b :: put_blocks l' []
        end
      else b :: put_blocks l' parts
  end.

Lemma put_blocks_slots key i l parts :
  length parts = length (block_slots key i l) → block_slots key i (put_blocks l parts) = block_slots key i l.
Proof.
  revert i parts. induction l as [|b l IH]; intros i parts; cbn [put_blocks block_slots]; [done|].
  destruct (is_text_block b) eqn:Hb; cbn [app length].
  - destruct parts as [|p parts]; cbn [length]; [done|]. intros [= Hl]. cbn [block_slots].
    rewrite (proj1 (with_block_text_is p b Hb)), IH by done. done.
  - intros Hl. cbn [block_slots]. by rewrite Hb, IH.
Qed.

(** Folding [put_part] over the slots of one list of blocks. *)
Lemma fold_put_blocks key d pre l parts :
  od_get key d = Some (VList (pre ++ l)) → length parts = length (block_slots key (length pre) l) →
  let d' := fold_left put_part (zip (block_slots key (length pre) l) parts) d in
  od_get key d' = Some (VList (pre ++ put_blocks l parts)) ∧ ∀ k, k ≠ key → od_get k d' = od_get k d.
Proof.
  revert d pre parts. induction l as [|b l IH]; intros d pre parts Hd Hl; cbn [block_slots put_blocks].
  { by destruct parts. }
  assert (S (length pre) = length (pre ++ [b])) as Hlen by (rewrite length_app; simpl; lia).
  cbn [block_slots] in Hl. destruct (is_text_block b) eqn:Hb.
  - cbn [app length] in Hl. destruct parts as [|p parts]; [done|]. injection Hl as Hl.
    cbn [app zip fold_left]. unfold put_part at 2 4. cbn [fst snd]. rewrite Hd.
    set (d1 := kv_set key (VList (alter (with_block_text p) (length pre) (pre ++ b :: l))) d).
    assert (alter (with_block_text p) (length pre) (pre ++ b :: l) = (pre ++ [with_block_text p b]) ++ l) as Halt.
    { rewrite <- (Nat.add_0_r (length pre)), alter_app_r, <- app_assoc. done. }
    assert (od_get key d1 = Some (VList ((pre ++ [with_block_text p b]) ++ l))) as Hd1.
    { unfold d1. by rewrite od_get_kv_set, String.eqb_refl, Halt. }
    assert (S (length pre) = length (pre ++ [with_block_text p b])) as Hlen' by (rewrite length_app; simpl; lia).
    rewrite Hlen' in Hl |- *. destruct (IH d1 _ parts Hd1 Hl) as [H1 H2]. split.
    + rewrite H1, <- app_assoc. done.
    + intros k Hk. rewrite H2 by done. unfold d1. rewrite od_get_kv_set.
      destruct (String.eqb_spec key k); congruence.
  - cbn [app] in Hl |- *. replace (pre ++ b :: l) with ((pre ++ [b]) ++ l) in Hd by (by rewrite <- app_assoc).
    rewrite Hlen in Hl |- *. destruct (IH d _ parts Hd Hl) as [H1 H2]. split; [|done].
    rewrite H1, <- app_assoc. done.
Qed.

Lemma block_slots_parts key i l d :
  (∀ j b, l !! j = Some b → ∃ l', od_get key d = Some (VList l') ∧ l' !! (i + j)%nat = Some b) →
  map (part_at (VDict d)) (block_slots key i l) = map block_text (List.filter is_text_block l).
Proof.
  revert i. induction l as [|b l IH]; intros i Hl; cbn [block_slots List.filter]; [done|].
  rewrite map_app, IH.
  2:{ intros j b' Hj. destruct (Hl (S j) b' Hj) as (l' & ? & Hx). exists l'. split; [done|].
      by rewrite <- Nat.add_succ_comm in Hx. }
  destruct (is_text_block b); [|done]. cbn. destruct (Hl 0 b eq_refl) as (l' & -> & Hx).
  rewrite Nat.add_0_r in Hx. by rewrite Hx.
Qed.

Lemma put_blocks_texts l parts key i :
  length parts = length (block_slots key i l) →
  map block_text (List.filter is_text_block (put_blocks l parts)) = parts.
Proof.
  revert i parts. induction l as [|b l IH]; intros i parts; cbn [put_blocks block_slots List.filter].
  { by destruct parts. }
  destruct (is_text_block b) eqn:Hb; cbn [app length].
  - destruct parts as [|p parts]; [done|]. intros [= Hl]. cbn [List.filter].
    destruct (with_block_text_is p b Hb) as [-> Hp]. cbn [map]. rewrite Hp. f_equal. by apply (IH (S i)).
  - intros Hl. cbn [List.filter]. rewrite Hb. by apply (IH (S i)).
Qed.

(** A key the reader looks past. *)
Definition skips (d : list (string * pyval)) (k : string) : Prop :=
  match od_get k d with
  | Some (VStr s) => str_truthy (str_strip s) = false
  | Some (VList l) => block_slots k 0 l = []
  | _ => True
  end.

Lemma dict_slots_skip d pre keys : Forall (skips d) pre → dict_slots d (pre ++ keys) = dict_slots d keys.
Proof.
  induction 1 as [|k pre Hk _ IH]; [done|]. cbn [app dict_slots]. unfold skips in Hk.
  destruct (od_get k d) as [[| | | |s|l| |]|]; try done; by rewrite Hk.
Qed.

(** The first key that holds text, and what it holds. *)
Lemma dict_slots_first d keys :
  dict_slots d keys = [] ∨
  ∃ pre key post, keys = pre ++ key :: post ∧ Forall (skips d) pre ∧
    ((∃ s, od_get key d = Some (VStr s) ∧ dict_slots d keys = [(Some key, None)]) ∨
     ∃ l, od_get key d = Some (VList l) ∧ block_slots key 0 l ≠ [] ∧ dict_slots d keys = block_slots key 0 l).
Proof.
  induction keys as [|k keys IH]; [by left|].
  assert (skips d k ∨ ((∃ s, od_get k d = Some (VStr s) ∧ dict_slots d (k :: keys) = [(Some k, None)]) ∨
     ∃ l, od_get k d = Some (VList l) ∧ block_slots k 0 l ≠ [] ∧ dict_slots d (k :: keys) = block_slots k 0 l))
    as [Hs|Hk].
  { unfold skips. cbn [dict_slots]. destruct (od_get k d) as [[| | | |s|l| |]|]; try (by left).
    - destruct (str_truthy (str_strip s)); [right; left; by exists s|by left].
    - destruct (block_slots k 0 l) eqn:Hb; [by left|]. right. right. exists l. by rewrite Hb. }
  - pose proof (dict_slots_skip d [k] keys ltac:(by constructor)) as He. cbn [app] in He. rewrite He.
    destruct IH as [?|(pre & key & post & -> & Hp & Hx)]; [by left|]. right.
    exists (k :: pre), key, post. split_and!; [done|by constructor|done].
  - right. exists [], k, keys. by split_and!; [|constructor|].
Qed.

(** Writing under a key past the skipped ones. *)
Lemma skips_other d d' key pre :
  key ∉ pre → (∀ k, k ≠ key → od_get k d' = od_get k d) → Forall (skips d) pre → Forall (skips d') pre.
Proof.
  intros Hn He. rewrite !Forall_forall. intros Hs k Hk. specialize (Hs k Hk). unfold skips in *.
  rewrite He; [done|]. by intros ->.
Qed.

(** A hook that rewrites a result reads and writes the same text.  For a result of any of the
    shapes the code knows -- a string, a dict with its text under one of the keys, the content
    blocks of an MCP result -- replacing its pieces of text by as many others gives a result whose
    pieces of text are exactly those (if the one piece under a key is not replaced by blank text,
    past which the reader looks for another key), and in a dict every other key keeps its value;
    with another number of pieces it raises. *)
Theorem rewritten_text_read_back result parts keys :
  NoDup keys →
  (length parts ≠ length (text_parts result keys) → ∃ e, with_text_parts result parts keys = Raise e) ∧
  (length parts = length (text_parts result keys) →
   (∀ d key, result = VDict d → _slots result keys = [(Some key, None)] → Forall (λ p, str_truthy (str_strip p) = true) parts) →
   ∃ result', with_text_parts result parts keys = Ok result' ∧ text_parts result' keys = parts ∧
     ∀ d, result = VDict d → ∃ d', result' = VDict d' ∧
       ∀ k, (∀ i, (Some k, i) ∉ _slots result keys) → od_get k d' = od_get k d).
Proof.
  intros Hnd. unfold with_text_parts, text_parts. rewrite !length_map. split.
  { intros Hl. rewrite (proj2 (Nat.eqb_neq _ _) Hl). by eexists. }
  intros Hl Hblank. rewrite (proj2 (Nat.eqb_eq _ _) Hl). cbn [negb].
  destruct result as [| | | |s| |d|]; cbn [_slots] in *; try (destruct parts; [by eexists|done]).
  { destruct parts as [|p [|? ?]]; try done. eexists. split_and!; [done|done|by intros ? ?]. }
  destruct (dict_slots_first d keys) as [Hs|(pre & key & post & -> & Hpre & Hx)].
  { rewrite Hs in *. destruct parts; [|done]. exists (VDict d). cbn [_slots]. rewrite Hs. split_and!; [done..|].
    intros ? [= <-]. by exists d. }
  assert (key ∉ pre) as Hkey.
  { apply NoDup_app in Hnd as (_ & Hd & _). intros Hk. apply (Hd key Hk). left. }
  destruct Hx as [(s & Hk & Hs)|(l & Hk & Hne & Hs)]; rewrite Hs in *.
  - destruct parts as [|p [|? ?]]; try done. specialize (Hblank d key eq_refl eq_refl). rewrite Forall_singleton in Hblank.
    assert (∀ k, k ≠ key → od_get k (kv_set key (VStr p) d) = od_get k d) as He.
    { intros k Hn. rewrite od_get_kv_set. destruct (String.eqb_spec key k); congruence. }
    exists (VDict (kv_set key (VStr p) d)). split_and!; [done| |].
    + cbn [_slots]. rewrite dict_slots_skip by (by eapply skips_other). cbn [dict_slots].
      rewrite od_get_kv_set, String.eqb_refl, Hblank. cbn. by rewrite od_get_kv_set, String.eqb_refl.
    + intros ? [= <-]. eexists. split; [done|]. intros k Hn. apply He. intros ->. apply (Hn None). left.
  - pose proof (fold_put_blocks key d [] l parts Hk Hl) as [H1 H2]. cbn [length app] in H1, H2.
    set (d' := fold_left put_part (zip (block_slots key 0 l) parts) d) in *.
    exists (VDict d'). split_and!.
    + destruct (block_slots key 0 l) as [|sl sls] eqn:Hb; [done|].
      destruct (block_slots_key key 0 l sl) as [j ->]; [rewrite Hb; left|]. by destruct parts.
    + cbn [_slots]. rewrite dict_slots_skip by (by eapply skips_other). cbn [dict_slots]. rewrite H1.
      pose proof (put_blocks_slots key 0 l parts Hl) as Hb. rewrite Hb.
      destruct (block_slots key 0 l) as [|sl sls] eqn:Hsl; [done|]. rewrite <- Hb.
      rewrite (block_slots_parts key 0 (put_blocks l parts) d').
      * apply (put_blocks_texts l parts key 0). by rewrite Hsl.
      * intros j b Hj. exists (put_blocks l parts). by rewrite H1.
    + intros ? [= <-]. exists d'. split; [done|]. intros k Hn. apply H2. intros ->.
      destruct (block_slots key 0 l) as [|sl sls] eqn:Hb; [done|].
      destruct (block_slots_key key 0 l sl) as [j ->]; [rewrite Hb; left|]. apply (Hn (Some j)). left.
Qed.

(** An MCP result with an image between two texts, redacted. *)
Definition text_block (s : string) : pyval := VDict [("type", VStr "text"); ("text", VStr s)].
Definition mcp_result : pyval :=
  VDict [("content", VList [text_block "a key: AKIA"; VDict [("type", VStr "image")]; text_block "done"]); ("isError", VBool false)].

Lemma result_keys_nodup : NoDup RESULT_TEXT_KEYS.
Proof. apply (bool_decide_unpack _). vm_compute. exact I. Qed.

Lemma rewritten_text_read_back_witness :
  with_text_parts mcp_result ["[redacted]"; "done"] RESULT_TEXT_KEYS
  = Ok (VDict [("content", VList [text_block "[redacted]"; VDict [("type", VStr "image")]; text_block "done"]); ("isError", VBool false)]) ∧
  ∃ r, with_text_parts mcp_result ["[redacted]"; "done"] RESULT_TEXT_KEYS = Ok r ∧ text_parts r RESULT_TEXT_KEYS = ["[redacted]"; "done"].
Proof.
  split; [vm_compute; reflexivity|].
  destruct (rewritten_text_read_back mcp_result ["[redacted]"; "done"] RESULT_TEXT_KEYS result_keys_nodup) as [_ H].
  destruct (H ltac:(vm_compute; reflexivity)) as (r & Hr & Hp & _); [|by exists r].
  intros d key _ Hs. vm_compute in Hs. discriminate.
Defined.

(** ** The labels *)

(** [b] is at least as strict as [a]. *)
Definition rises (a b : option DataClassification) : Prop := more_restrictive a b = b.

Lemma more_restrictive_comm a b : more_restrictive a b = more_restrictive b a.
Proof. by destruct a as [[]|], b as [[]|]. Qed.
Lemma more_restrictive_assoc a b c :
  more_restrictive a (more_restrictive b c) = more_restrictive (more_restrictive a b) c.
Proof. by destruct a as [[]|], b as [[]|], c as [[]|]. Qed.
Lemma more_restrictive_idem a : more_restrictive a a = a.
Proof. by destruct a as [[]|]. Qed.

#[export] Instance rises_partial_order : PartialOrder rises.
Proof.
  split; [split|].
  - intros a. apply more_restrictive_idem.
  - unfold rises. intros a b c H1 H2. by rewrite <- H2, more_restrictive_assoc, H1.
  - unfold rises. intros a b H1 H2. by rewrite <- H1, more_restrictive_comm.
Qed.

Lemma rises_join a b : rises a (more_restrictive a b).
Proof. unfold rises. by rewrite more_restrictive_assoc, more_restrictive_idem. Qed.
Lemma rises_join_r a b : rises b (more_restrictive a b).
Proof. rewrite more_restrictive_comm. apply rises_join. Qed.
Lemma secret_rises l : rises (Some secret) l → l = Some secret.
Proof. by destruct l as [[]|]. Qed.

(** The hook only raises the label, and to at least what the classifier saw. *)
Lemma output_classifier_raises classify ctx :
  let d := output_classifier_call classify ctx in
  outcome d = allow ∧ transformed_payload d = None ∧ set_tier d = None ∧
  (∀ x, set_classification d = Some x → rises (classification ctx) (Some x)) ∧
  (extract_text (payload ctx) _RESULT_KEYS ≠ "" →
   rises (Some (classify (extract_text (payload ctx) _RESULT_KEYS)).1)
     (match set_classification d with Some x => Some x | None => classification ctx end)).
Proof.
  unfold output_classifier_call. generalize (extract_text (payload ctx) _RESULT_KEYS) as text. intros text.
  destruct (str_truthy text) eqn:Ht; simpl.
  2:{ apply str_truthy_false in Ht. by split_and!. }
  destruct (classify _) as [c m]. simpl. destruct (decide _) as [He|He]; simpl; split_and!; try done.
  - intros _. rewrite <- He. apply rises_join_r.
  - intros x Hx. rewrite <- Hx. apply rises_join.
  - intros _. pose proof (rises_join_r (classification ctx) (Some c)) as Hr.
    by destruct (more_restrictive (classification ctx) (Some c)).
Qed.

(** ** Model calls *)

(** What a governed client is built with. *)
Record LlmClient := {
  lc_agent_type : string; lc_target_tier : option LLMTier; lc_stripped_public_content : bool;
  lc_model : string; lc_provider : string }.

Definition hook_context (point : HookPoint) (run agent : string) (step : option Z)
    (c : option DataClassification) (t : option LLMTier) (p : dict) : HookContext :=
  {| ctx_hook_point := point; run_id := run; agent_type := agent; step_id := step; persona := None; route := None;
     payload := p; classification := c; tier := t; metadata := ∅ |}.

Definition refuses (d : HookDecision) : bool := bool_decide (outcome d = deny ∨ outcome d = require_approval).

Definition final_prompt (prompt : string) (c : HookContext) : string := default prompt (get_str (payload c) "prompt").

Section model_calls.
Context {W : Type} `{!Part W TurnState} (env : KernelEnv W).

Definition turn_label (w : W) : option DataClassification := current_turn_label (part w).

(** [CodingLLMClient._governance_pre_llm] *)
Definition client_pre_llm (kernel : option (GovernanceKernel W)) (cl : LlmClient) (prompt run : string)
    : M W (option HookDecision * string) :=
  match kernel with
  | None => mret (None, prompt)
  | Some k =>
      dc ← fire k env PRE_CLASSIFY
             (hook_context PRE_CLASSIFY run (lc_agent_type cl) None None None (<["prompt" := VStr prompt]> ∅));
      if refuses dc.1 then mret (Some dc.1, prompt)
      else
        label ← gets (λ w, apply_turn_floor (classification dc.2) (lc_stripped_public_content cl) (part w));
        df ← fire k env PRE_LLM_CALL
               (hook_context PRE_LLM_CALL run (lc_agent_type cl) None label (lc_target_tier cl)
                  (<["prompt" := VStr prompt]> (<["model" := VStr (lc_model cl)]> (<["provider" := VStr (lc_provider cl)]> ∅))));
        mret (Some df.1, final_prompt prompt df.2)
  end.

(** The loop's side of a model call. *)
Record Loop := { lp_agent_type : string; lp_target_tier : option LLMTier; lp_earned_floor : option DataClassification;
                 lp_identity : option (string * string) }.

(** [AgenticCore._governance_pre_llm]: [cached] is the label of the run so far. *)
Definition loop_pre_llm (kernel : option (GovernanceKernel W)) (lp : Loop) (query prompt run : string)
    (cached : option DataClassification) (step context_tokens evicted_tokens : option Z)
    : M W (option HookDecision * string * option DataClassification) :=
  match kernel with
  | None => mret (None, prompt, cached)
  | Some k =>
      classified ←
        match cached with
        | Some c => mret (None, Some c)
        | None =>
            dc ← fire k env PRE_CLASSIFY
                   (hook_context PRE_CLASSIFY run (lp_agent_type lp) None None None
                      (<["prompt" := VStr prompt]> (<["query" := VStr query]> ∅)));
            let c := more_restrictive (classification dc.2) (lp_earned_floor lp) in
            mret (if refuses dc.1 then Some dc.1 else None, c)
        end;
      match classified with
      | (Some d, c) => mret (Some d, prompt, c)
      | (None, c) =>
          label ← gets (λ w, apply_turn_floor c false (part w));
          let p := <["prompt" := VStr prompt]> (<["query" := VStr query]> ∅) in
          let p := match context_tokens with Some n => <["context_tokens" := VInt n]> p | None => p end in
          let p := match evicted_tokens with
                   | Some n => if (n =? 0)%Z then p else <["evicted_tokens" := VInt n]> p
                   | None => p
                   end in
          let p := match lp_identity lp with
                   | Some (m, pr) => <["model" := VStr m]> (<["provider" := VStr pr]> p)
                   | None => p
                   end in
          df ← fire k env PRE_LLM_CALL (hook_context PRE_LLM_CALL run (lp_agent_type lp) step label (lp_target_tier lp) p);
          mret (Some df.1, final_prompt prompt df.2, classification df.2)
      end
  end.

(** The [screen] stage: the user's message labels the turn.  What the turn goes on with. *)
Definition screen (kernel : option (GovernanceKernel W)) (run message channel : string) : M W (res string) :=
  match kernel with
  | None => mret (Ok message)
  | Some k =>
      dc ← fire k env PRE_TURN
             {| ctx_hook_point := PRE_TURN; run_id := run; agent_type := "turn"; step_id := None; persona := None;
                route := None; payload := <["message" := VStr message]> ∅; classification := None; tier := None;
                metadata := <["channel" := VStr channel]> ∅ |};
      on_part (lift_turn_label (classification dc.2) : M TurnState unit);;
      mret (if refuses dc.1 then Raise (Exn "governance" (reason dc.1))
            else if bool_decide (outcome dc.1 = transform) then Ok (default message (get_str (payload dc.2) "message"))
            else Ok message)
  end.
End model_calls.

(** ** A turn, step by step *)

Section turns.
Context {W : Type} `{!Part W TurnState, !PartLaws W TurnState} (env : KernelEnv W).

Definition the_turn (w : W) : TurnState := part w.

(** A result's label: [POST_TOOL_USE], then the turn's label rises with the final context's. *)
Definition fire_post (k : GovernanceKernel W) (own : option DataClassification) (ctx : HookContext)
    : M W (HookDecision * HookContext) :=
  dc ← fire k env POST_TOOL_USE ctx;
  on_part (lift_turn_label (more_restrictive own (classification dc.2)) : M TurnState unit);;
  mret dc.

Definition turn_ok (s : TurnState) : Prop := ∀ h, is_Some (holders s !! h) → h < next_holder s.

Definition holders_rise (s s' : TurnState) : Prop :=
  ∀ h l, holders s !! h = Some l → ∃ l', holders s' !! h = Some l' ∧ rises l l'.

(** What any step may do to the holders, and what code that runs inside one context may. *)
Definition label_step (w w' : W) : Prop :=
  turn_ok (the_turn w) → turn_ok (the_turn w') ∧ holders_rise (the_turn w) (the_turn w').
Definition same_turn (w w' : W) : Prop := label_step w w' ∧ turn_var (the_turn w') = turn_var (the_turn w).

#[export] Instance label_step_preorder : PreOrder label_step.
Proof.
  split.
  - intros w Hw. split; [done|]. intros h l Hl. by exists l.
  - intros w1 w2 w3 H12 H23 H1. destruct (H12 H1) as [H2 R12]. destruct (H23 H2) as [H3 R23]. split; [done|].
    intros h l Hl. destruct (R12 h l Hl) as (l2 & Hl2 & ?). destruct (R23 h l2 Hl2) as (l3 & ? & ?).
    exists l3. split; [done|by etrans].
Qed.
#[export] Instance same_turn_preorder : PreOrder same_turn.
Proof.
  split; [by intros w|]. intros w1 w2 w3 [H1 E1] [H2 E2]. split; [by etrans|congruence].
Qed.

Lemma lift_same_turn label : Respects same_turn (on_part (lift_turn_label label) : M W unit).
Proof using All.
  intros w. unfold on_part, zoom, lift_turn_label, modify. cbn [fst snd].
  unfold same_turn, label_step, the_turn. rewrite part_set.
  destruct (turn_var (part w)) as [h|] eqn:Hv; [|split; [|done]; intros Hw; split; [done|]; intros h l Hl; by exists l].
  cbn [holders next_holder turn_var]. split; [|done]. intros Hw. split.
  - intros h' Hh'. apply Hw. cbn [holders] in Hh'. by apply lookup_alter_is_Some in Hh'.
  - intros h' l Hl. destruct (decide (h' = h)) as [->|Hne].
    + cbn [holders]. rewrite lookup_alter_eq, Hl. simpl. eexists. split; [done|]. apply rises_join.
    + cbn [holders]. rewrite lookup_alter_ne by done. by exists l.
Qed.

(** Work of the program that touches the labels only through [lift_turn_label]. *)
Inductive turn_step : W → W → Prop :=
| step_switch v w : turn_step w (set_part (set_turn_var v (the_turn w)) w)
| step_scope w : turn_step w (set_part (set_turn_var (Some (next_holder (the_turn w))) (new_holder (the_turn w)).2) w)
| step_screen k run message channel w : RespectsKernel same_turn k →
    turn_step w (run_state (screen env (Some k) run message channel) w)
| step_result k own ctx w : RespectsKernel same_turn k → turn_step w (run_state (fire_post k own ctx) w)
| step_client k cl prompt run w : RespectsKernel same_turn k →
    turn_step w (run_state (client_pre_llm env (Some k) cl prompt run) w)
| step_loop k lp query prompt run cached step used evicted w : RespectsKernel same_turn k →
    turn_step w (run_state (loop_pre_llm env (Some k) lp query prompt run cached step used evicted) w)
| step_other {A} (code : M W A) w : Respects label_step code → turn_step w (run_state code w).

Context `{!RespectsEnv same_turn env}.

Section with_kernel.
Context (k : GovernanceKernel W) `{!RespectsKernel same_turn k}.

Lemma screen_same_turn run message channel : Respects same_turn (screen env (Some k) run message channel).
Proof using All.
  unfold screen. apply respects_bind; [apply _|by apply respects_fire; apply _|]. intros dc.
  apply respects_bind; [apply _|apply lift_same_turn|]. intros _. apply _.
Qed.

Lemma fire_post_same_turn own ctx : Respects same_turn (fire_post k own ctx).
Proof using All.
  unfold fire_post. apply respects_bind; [apply _|by apply respects_fire; apply _|]. intros dc.
  apply respects_bind; [apply _|apply lift_same_turn|]. intros _. apply _.
Qed.

Lemma client_same_turn cl prompt run : Respects same_turn (client_pre_llm env (Some k) cl prompt run).
Proof using All.
  unfold client_pre_llm. apply respects_bind; [apply _|by apply respects_fire; apply _|]. intros dc.
  destruct (refuses _); [apply _|]. apply respects_bind; [apply _|apply _|]. intros l.
  apply respects_bind; [apply _|by apply respects_fire; apply _|]. intros df. apply _.
Qed.

Lemma loop_same_turn lp query prompt run cached step used evicted :
  Respects same_turn (loop_pre_llm env (Some k) lp query prompt run cached step used evicted).
Proof using All.
  unfold loop_pre_llm. apply respects_bind; [apply _| |].
  - destruct cached; [apply _|]. apply respects_bind; [apply _|by apply respects_fire; apply _|]. intros dc. apply _.
  - intros [[d|] c]; [apply _|]. apply respects_bind; [apply _|apply _|]. intros l.
    apply respects_bind; [apply _|by apply respects_fire; apply _|]. intros df. apply _.
Qed.
End with_kernel.

(** A label only rises, in every interleaving. *)
Lemma turn_step_labels w w' : turn_step w w' → label_step w w'.
Proof using All.
  assert (∀ A (m : M W A) w, Respects same_turn m → label_step w (run_state m w)) as Hs
    by (intros A m w0 Hm; apply (Hm w0)).
  intros Hst. destruct Hst.
  - unfold label_step, the_turn. rewrite part_set. intros Hw. split; [done|]. intros h l Hl. by exists l.
  - unfold label_step, the_turn. rewrite part_set. intros Hw. cbn. split.
    + intros h [x Hx]. cbn in *. destruct (decide (h = next_holder (part w))) as [->|Hne]; [lia|].
      rewrite lookup_insert_ne in Hx by done. specialize (Hw h (mk_is_Some _ _ Hx)). lia.
    + intros h l Hl. cbn. destruct (decide (h = next_holder (part w))) as [->|Hne].
      * specialize (Hw _ (mk_is_Some _ _ Hl)). lia.
      * rewrite lookup_insert_ne by done. by exists l.
  - apply Hs. by apply screen_same_turn.
  - apply Hs. by apply fire_post_same_turn.
  - apply Hs. by apply client_same_turn.
  - apply Hs. by apply loop_same_turn.
  - auto.
Qed.

Lemma turn_steps_labels w w' : rtc turn_step w w' → label_step w w'.
Proof using All.
  induction 1 as [w|w1 w2 w3 Hs _ IH]; [reflexivity|]. etrans; [by apply turn_step_labels|done].
Qed.

Lemma secret_label w h : 
  turn_var (the_turn w) = Some h → holders (the_turn w) !! h = Some (Some secret) → turn_label w = Some secret.
Proof using All. unfold turn_label, current_turn_label, the_turn. intros -> Hl. simpl. by rewrite Hl. Qed.
End turns.

(** ** The label of a call inside the kernel *)

Section gate.
Context {W : Type} (k : GovernanceKernel W) (env : KernelEnv W).

(** A hook that may raise the label and does not choose the tier. *)
Definition raises_label (h : Hook W) : Prop :=
  ∀ c w d w', hook_call h c w = (Ok d, w') →
    (∀ x, set_classification d = Some x → rises (classification c) (Some x)) ∧ set_tier d = None.

Lemma apply_updates_raises name d c c' :
  (∀ x, set_classification d = Some x → rises (classification c) (Some x)) → set_tier d = None →
  apply_updates name d c = Ok c' → rises (classification c) (classification c') ∧ tier c' = tier c.
Proof.
  intros Hc Ht Hu.
  assert (rises (classification c) match set_classification d with Some x => Some x | None => classification c end) as Hr.
  { destruct (set_classification d); [by apply Hc|reflexivity]. }
  unfold apply_updates in Hu. rewrite Ht in Hu.
  destruct (outcome d), (transformed_payload d); try (by injection Hu as <-).
  destruct (append_transformed_by _ _); [by injection Hu as <-|done].
Qed.

Lemma pass_raises_label point hs c w tr c' w' :
  (∀ h, h ∈ hs → raises_label h) → pass k env point hs c w tr c' w' →
  rises (classification c) (classification c') ∧ tier c' = tier c.
Proof.
  intros Hk Hp. induction Hp as [|h hs c w d w1 kept w2 c1 tr c' w' Hc Ha Hu Ho Hp IH]; [done|].
  destruct IH as [Hc' Ht']; [intros g Hg; apply Hk; by right|].
  destruct (Hk h ltac:(left) _ _ _ _ Hc) as [Hd1 Hd2].
  destruct (apply_updates_raises _ _ _ _ Hd1 Hd2 Hu) as [? ?]. split; [by etrans|congruence].
Qed.

(** A kernel that holds the gate, with hooks around it that never lower a label. *)
Record Gated (g : EgressGate) : Prop := {
  gated_hooks : ∃ ident pre post, k_hooks k PRE_LLM_CALL = pre ++ egress_gate_hook ident g :: post ∧
    ∀ h, h ∈ pre ++ post → raises_label h;
  gated_policy : ∃ raw trusted p, complete_and_safe raw = Ok p ∧ new_egress_gate trusted p = Ok g;
}.

Lemma gated_secret_refused g ctx w d c w' :
  Gated g → fire k env PRE_LLM_CALL ctx w = (Ok (d, c), w') →
  classification ctx = Some secret → tier ctx = Some tier_3 → refuses d = true.
Proof.
  intros [(ident & pre & post & Hk & Hr) (raw & trusted & p & Hp & Hg)] Hf Hc Ht.
  destruct (refuses d) eqn:Hrf; [done|]. exfalso. unfold refuses in Hrf. apply bool_decide_eq_false_1 in Hrf.
  assert (outcome d = allow ∨ outcome d = transform) as Ho by (destruct (outcome d); tauto).
  destruct (fire_passed k env _ _ _ _ _ _ Hf Ho) as (tr & w1 & Hpass & _). rewrite Hk in Hpass.
  apply pass_app in Hpass as (tr1 & tr2 & c1 & w2 & H1 & H2).
  destruct (pass_raises_label _ _ _ _ _ _ _ (λ h Hh, Hr h (proj2 (elem_of_app _ _ _) (or_introl Hh))) H1) as [Hc1 Ht1].
  apply pass_one in H2 as (d2 & w3 & kept & w4 & c2 & tr' & Hcall & _ & _ & Hd2 & _).
  unfold egress_gate_hook in Hcall. simpl in Hcall. injection Hcall as Hd _. subst d2.
  assert (outcome (egress_gate_call g c1) = allow) as Hallow.
  { destruct Hd2 as [?|Htr]; [done|]. by apply gate_never_transforms in Htr. }
  apply gate_allow_iff in Hallow.
  assert (classification (strip_bot_id ctx) = Some secret ∧ tier (strip_bot_id ctx) = Some tier_3) as [Hs1 Hs2].
  { unfold strip_bot_id. by destruct (metadata ctx !! BOT_ID). }
  rewrite Hs1 in Hc1. apply secret_rises in Hc1. rewrite Hc1, Ht1, Hs2 in Hallow.
  by apply (no_gate_permits_secret raw p trusted g Hp Hg).
Qed.
End gate.

Section privacy.
Context {W : Type} `{!Part W TurnState, !PartLaws W TurnState} (env : KernelEnv W) `{!RespectsEnv same_turn env}.
Context (classify : string → DataClassification * list string).
Context (redact : option (string → string → string → string * list string)).

(** A hook that leaves the payload as it is. *)
Definition keeps_payload (h : Hook W) : Prop :=
  ∀ c w d w', hook_call h c w = (Ok d, w') → outcome d ≠ transform.

(** A kernel whose output classifier reads the result as the capability redaction leaves it. *)
Definition Classified (k : GovernanceKernel W) : Prop :=
  ∃ i j pre mid post,
    k_hooks k POST_TOOL_USE = pre ++ capability_redaction_hook redact i :: mid ++ output_classifier_hook classify j :: post ∧
    (∀ h, h ∈ pre ++ mid ++ post → raises_label h) ∧ ∀ h, h ∈ pre ++ mid → keeps_payload h.

Lemma pass_keeps_payload k point hs c w tr c' w' :
  (∀ h, h ∈ hs → keeps_payload h) → pass k env point hs c w tr c' w' → payload c' = payload c.
Proof using Type.
  intros Hk Hp. induction Hp as [|h hs c w d w1 kept w2 c1 tr c' w' Hc Ha Hu Ho Hp IH]; [done|].
  rewrite IH by (intros g Hg; apply Hk; by right). pose proof (Hk h ltac:(left) _ _ _ _ Hc) as Hn.
  unfold apply_updates in Hu. by destruct (outcome d), (transformed_payload d); try (by injection Hu as <-).
Qed.

Lemma redaction_shows ctx c' name :
  apply_updates name (capability_redaction_call redact ctx) ctx = Ok c' → payload c' = seen_payload redact ctx.
Proof using Type.
  unfold apply_updates, seen_payload, capability_redaction_call. intros Hu. revert Hu.
  repeat case_match; cbn; try (by intros [= <-]); try (by destruct (append_transformed_by _ _); intros [= <-]);
    simplify_eq; congruence.
Qed.

(** Of a plain tool the turn sees what the tool gave. *)
Lemma seen_plain ctx :
  startswith CAPABILITY_TOOL_PREFIX (str_or_empty (payload ctx !! TOOL_NAME)) = false → seen_payload redact ctx = payload ctx.
Proof using Type. intros Hp. unfold seen_payload, capability_redaction_call. by rewrite Hp. Qed.

Lemma seen_payload_same c c' : payload c = payload c' → seen_payload redact c = seen_payload redact c'.
Proof using Type.
  intros Hp. unfold seen_payload, capability_redaction_call. rewrite Hp. repeat case_match; simplify_eq; reflexivity.
Qed.

(** A result that is let through leaves its call with at least the class of its text. *)
Lemma classified_result k ctx w d c w' :
  Classified k → fire k env POST_TOOL_USE ctx w = (Ok (d, c), w') → refuses d = false →
  extract_text (seen_payload redact ctx) _RESULT_KEYS ≠ "" →
  rises (Some (classify (extract_text (seen_payload redact ctx) _RESULT_KEYS)).1) (classification c).
Proof using Type.
  intros (i & j & pre & mid & post & Hk & Hr & Hkp) Hf Hrf Hne.
  unfold refuses in Hrf. apply bool_decide_eq_false_1 in Hrf.
  assert (outcome d = allow ∨ outcome d = transform) as Ho by (destruct (outcome d); tauto).
  destruct (fire_passed k env _ _ _ _ _ _ Hf Ho) as (tr & w1 & Hpass & _). rewrite Hk in Hpass.
  apply pass_app in Hpass as (tr1 & tr2 & c1 & w2 & H1 & H2).
  apply pass_one in H2 as (d2 & w3 & kept & w4 & c2 & tr' & Hcall & _ & Hu & _ & H2).
  injection Hcall as Hd _. subst d2. apply redaction_shows in Hu.
  apply pass_app in H2 as (tr3 & tr4 & c3 & w5 & H3 & H4).
  apply pass_one in H4 as (d4 & w6 & kept4 & w7 & c4 & tr5 & Hcall & _ & Hu4 & _ & Hp).
  injection Hcall as Hd _. subst d4.
  assert (payload c3 = seen_payload redact ctx) as Hpl.
  { rewrite (pass_keeps_payload _ _ _ _ _ _ _ _ (λ h Hh, Hkp h (proj2 (elem_of_app _ _ _) (or_intror Hh))) H3), Hu.
    apply seen_payload_same.
    rewrite (pass_keeps_payload _ _ _ _ _ _ _ _ (λ h Hh, Hkp h (proj2 (elem_of_app _ _ _) (or_introl Hh))) H1).
    unfold strip_bot_id. by destruct (metadata ctx !! BOT_ID). }
  destruct (output_classifier_raises classify c3) as (Hal & Htp & Htier & _ & Hseen).
  rewrite Hpl in Hseen. specialize (Hseen Hne).
  assert (match set_classification (output_classifier_call classify c3) with Some x => Some x | None => classification c3 end
          = classification c4) as Hc4.
  { unfold apply_updates in Hu4. rewrite Hal in Hu4. by injection Hu4 as <-. }
  rewrite Hc4 in Hseen. etrans; [exact Hseen|].
  refine (proj1 (pass_raises_label _ _ _ _ _ _ _ _ _ _ Hp)). intros h Hh. apply Hr. rewrite !elem_of_app. by right; right.
Qed.

Lemma fire_post_labels k own ctx w d c w' h :
  RespectsKernel same_turn k → turn_ok (the_turn w) →
  fire_post env k own ctx w = (Ok (d, c), w') → turn_var (the_turn w) = Some h → is_Some (holders (the_turn w) !! h) →
  (∃ wf, fire k env POST_TOOL_USE ctx w = (Ok (d, c), wf)) ∧ turn_ok (the_turn w') ∧
  ∃ l, holders (the_turn w') !! h = Some l ∧ rises (classification c) l.
Proof using All.
  intros Hk Hok Hf Hv [l0 Hl0]. pose proof (fire_post_same_turn env k own ctx w) as [Hs _]. rewrite Hf in Hs.
  revert Hf. unfold fire_post. run_monad. pose proof (respects_fire same_turn k env POST_TOOL_USE ctx w) as [Hfs Hfv].
  destruct (fire _ _ _ _ _) as [[[d1 c1]|e] w1]; [|done]. cbn [snd] in Hfs, Hfv.
  destruct (Hfs Hok) as [Hok1 Hr1]. destruct (Hr1 h l0 Hl0) as (l1 & Hl1 & _).
  unfold on_part, zoom, lift_turn_label, modify. cbn [fst snd]. intros [= <- <- <-].
  split; [by eexists|]. split; [by apply Hs|]. unfold the_turn in *. rewrite part_set, Hfv, Hv. cbn [holders].
  exists (more_restrictive l1 (more_restrictive own (classification c1))).
  rewrite lookup_alter_eq, Hl1. split; [done|]. etrans; apply rises_join_r.
Qed.

(** A turn whose label is [secret], as a model call of it finds it. *)
Section held.
Context (w : W) (h : nat) (k : GovernanceKernel W) (g : EgressGate).
Context (Hok : turn_ok (the_turn w)) (Hv : turn_var (the_turn w) = Some h).
Context (Hl : holders (the_turn w) !! h = Some (Some secret)) `{!RespectsKernel same_turn k} (Hg : Gated k g).

Lemma held_floor a stripped w' : same_turn w w' → apply_turn_floor a stripped (part w') = Some secret.
Proof using All.
  intros [Hs Hv']. destruct (Hs Hok) as [_ Hr]. destruct (Hr _ _ Hl) as (l & Hl' & Hs').
  apply secret_rises in Hs' as ->. unfold the_turn in *. unfold apply_turn_floor, current_turn_label. rewrite Hv', Hv.
  cbn. rewrite Hl'. cbn.
  assert (more_restrictive a (Some secret) = Some secret) as -> by (by destruct a as [[]|]). by destruct stripped.
Qed.

Lemma held_client cl prompt run d p w' :
  lc_target_tier cl = Some tier_3 → client_pre_llm env (Some k) cl prompt run w = (Ok (Some d, p), w') → refuses d = true.
Proof using All.
  intros Ht. unfold client_pre_llm. run_monad.
  match goal with |- context [fire k env PRE_CLASSIFY ?x w] =>
    pose proof (respects_fire same_turn k env PRE_CLASSIFY x w) as Hst; destruct (fire k env PRE_CLASSIFY x w) as [[dc|e] w1] end; [|done].
  destruct (refuses dc.1) eqn:Hr; [by intros [= <- _ _]|]. rewrite (held_floor _ _ w1 Hst).
  match goal with |- context [fire k env PRE_LLM_CALL ?x w1] => destruct (fire k env PRE_LLM_CALL x w1) as [[[d2 c2]|e] w2] eqn:Hf end;
    [|done]. intros [= <- _ _]. eapply (gated_secret_refused k env g); [exact Hg|exact Hf|done|exact Ht].
Qed.

Lemma held_loop lp query prompt run cached step used evicted d p l w' :
  lp_target_tier lp = Some tier_3 →
  loop_pre_llm env (Some k) lp query prompt run cached step used evicted w = (Ok (Some d, p, l), w') → refuses d = true.
Proof using All.
  intros Ht. unfold loop_pre_llm. unfold mbind at 1, M_bind at 1.
  match goal with |- context [match cached with Some c => mret (None, Some c) | None => ?m end w] =>
    assert (Respects same_turn (match cached with Some c => mret (None, Some c) | None => m end)) as Hst end.
  { destruct cached; [apply _|]. apply respects_bind; [apply _|by apply respects_fire; apply _|]. intros dc. apply _. }
  specialize (Hst w).
  match goal with |- context [match cached with Some c => mret (None, Some c) | None => ?m end w] =>
    destruct (match cached with Some c => mret (None, Some c) | None => m end w) as [[[[dx|] cx]|e] w1] eqn:Hx end; [| |done].
  - intros [= <- _ _ _]. destruct cached as [cc|]; [done|]. revert Hx. run_monad. clear.
    match goal with |- context [fire k env PRE_CLASSIFY ?x w] => destruct (fire k env PRE_CLASSIFY x w) as [[dc|e] w2] end; [|done].
    destruct (refuses dc.1) eqn:Hr; [|done]. by intros [= <- _ _].
  - run_monad. rewrite (held_floor _ _ w1 Hst).
    match goal with |- context [fire k env PRE_LLM_CALL ?x w1] => destruct (fire k env PRE_LLM_CALL x w1) as [[[d2 c2]|e] w2] eqn:Hf end;
      [|done]. intros [= <- _ _ _]. eapply (gated_secret_refused k env g); [exact Hg|exact Hf|done|exact Ht].
Qed.
End held.

(** C13. What a tool brought into a turn stays under the turn's label.  When a tool result whose
    text -- as the redaction of a capability's result leaves it, a plain tool's as it is -- the
    classifier holds for [secret] has been let through [PostToolUse] inside a turn, then
    whatever happens next -- other results, model calls, the screen of another turn, nested turns,
    work on other threads that share the turn's holder, code that touches labels only by lifting
    them, in any interleaving -- every later model call of that turn, by a client or by the loop,
    however tame its own prompt and even with the search exemption, is refused toward the cloud by
    a kernel that holds the egress gate. *)
Theorem secret_result_stays_local kp own ctx w1 d c w2 h w3 k g :
  turn_ok (the_turn w1) → turn_var (the_turn w1) = Some h → is_Some (holders (the_turn w1) !! h) →
  RespectsKernel same_turn kp → Classified kp →
  (classify (extract_text (seen_payload redact ctx) _RESULT_KEYS)).1 = secret →
  extract_text (seen_payload redact ctx) _RESULT_KEYS ≠ "" →
  fire_post env kp own ctx w1 = (Ok (d, c), w2) → refuses d = false →
  rtc (turn_step env) w2 w3 → turn_var (the_turn w3) = Some h →
  RespectsKernel same_turn k → Gated k g →
  (∀ cl prompt run dm p w4, lc_target_tier cl = Some tier_3 →
     client_pre_llm env (Some k) cl prompt run w3 = (Ok (Some dm, p), w4) → refuses dm = true) ∧
  (∀ lp query prompt run cached step used evicted dm p l w4, lp_target_tier lp = Some tier_3 →
     loop_pre_llm env (Some k) lp query prompt run cached step used evicted w3 = (Ok (Some dm, p, l), w4) → refuses dm = true).
Proof using All.
  intros Hok Hv Hh Hkp Hcl Hsec Hne Hf Hrf Hsteps Hv3 Hk Hg.
  destruct (fire_post_labels _ _ _ _ _ _ _ _ Hkp Hok Hf Hv Hh) as ([wf Hfire] & Hok2 & l & Hl & Hrl).
  pose proof (classified_result _ _ _ _ _ _ Hcl Hfire Hrf Hne) as Hcls. rewrite Hsec in Hcls.
  apply secret_rises in Hcls. rewrite Hcls in Hrl. apply secret_rises in Hrl as ->.
  destruct (turn_steps_labels env _ _ Hsteps Hok2) as [Hok3 Hr3]. destruct (Hr3 _ _ Hl) as (l3 & Hl3 & Hs3).
  apply secret_rises in Hs3 as ->. split.
  - intros cl prompt run dm p w4. exact (held_client w3 h k g Hok3 Hv3 Hl3 Hg cl prompt run dm p w4).
  - intros lp query prompt run cached step used evicted dm p l w4.
    exact (held_loop w3 h k g Hok3 Hv3 Hl3 Hg lp query prompt run cached step used evicted dm p l w4).
Qed.
End privacy.

(** A tool returns a cloud key; a worker of another turn runs; then the turn's own loop asks a
    cloud model about the weather. *)
Record TurnWorld := { tw_turn : TurnState; tw_log : list AuditRow }.
#[export] Instance tw_part : Part TurnWorld TurnState :=
  {| part := tw_turn; set_part := λ s w, {| tw_turn := s; tw_log := tw_log w |} |}.
#[export] Instance tw_laws : PartLaws TurnWorld TurnState.
Proof. split; [done|by intros []]. Qed.

Definition tw_env : KernelEnv TurnWorld :=
  {| env_audit_log := Some (λ r w, (Ok 1%Z, {| tw_turn := tw_turn w; tw_log := tw_log w ++ [r] |}));
     env_lineage_of := λ _ _, None; env_is_run_resumed := λ _ _, false; env_session_id := λ _, None;
     env_turn_id := λ _, None; env_trace_id := λ _, None; env_note_unrecorded := λ _ _ w, w |}.
#[export] Instance tw_env_same : RespectsEnv same_turn tw_env.
Proof.
  split; [intros f r [= <-] w|intros host call w; reflexivity]. split; [|done].
  intros Hw. split; [exact Hw|]. intros h l Hl. by exists l.
Qed.

Definition keys_are_secret (s : string) : DataClassification * list string :=
  if str_contains "AKIA" s then (secret, ["aws_key"]) else (public, []).
(** An owner whose one secret is a key. *)
Definition mask_owner : option (string → string → string → string * list string) :=
  Some (λ _ _ s, if str_contains "AKIA0" s then ("[redacted]", ["secret"]) else (s, [])).
Definition capability_result : HookContext :=
  hook_context POST_TOOL_USE "r" "chat" None None None
    (<[TOOL_NAME := VStr "capability:notes.read"]> {["fields" := VDict [("a", VStr "AKIA0"); ("b", VStr "plain")]]}).
Example secret_masked_for_consumer :
  seen_payload mask_owner capability_result !! RESULT = Some (VStr (join newline ["[redacted]"; "plain"])) ∧
  outcome (capability_redaction_call mask_owner capability_result) = transform ∧
  set_classification (capability_redaction_call mask_owner capability_result) = Some personal.
Proof. vm_compute. done. Qed.
Definition shipped_gate : EgressGate :=
  {| trusted_cloud_for := [personal];
     gate_policy := match complete_and_safe shipped_classes with Ok p => p | Raise _ => Build_EgressPolicy (λ _, Build_ClassRule tier_1 on_deny) end |}.
Definition tw_kernel : GovernanceKernel TurnWorld :=
  {| k_hooks := λ p, if decide (p = POST_TOOL_USE) then
                       [capability_redaction_hook mask_owner 3; output_classifier_hook keys_are_secret 1]
                     else if decide (p = PRE_LLM_CALL) then [egress_gate_hook 2 shipped_gate] else [];
     k_init_locked := true; k_bot_hook := None |}.

#[export] Instance tw_kernel_same : RespectsKernel same_turn tw_kernel.
Proof.
  split; [|done]. intros p h. simpl. destruct (decide _); [|destruct (decide _)];
    rewrite ?elem_of_cons, ?elem_of_nil; intros Hh; destruct_or?; subst; try done; split; try done; intros c w; reflexivity.
Qed.

Lemma tw_classified : Classified keys_are_secret mask_owner tw_kernel.
Proof.
  exists 3, 1, [], [], []. split_and!; [done|intros h Hh; by apply elem_of_nil in Hh..].
Qed.

Lemma tw_gated : Gated tw_kernel shipped_gate.
Proof.
  split.
  - exists 2, [], []. split; [done|]. intros h Hh. by apply elem_of_nil in Hh.
  - exists shipped_classes, [personal]. eexists. by split.
Qed.

Definition in_turn : TurnWorld :=
  {| tw_turn := {| holders := {[0 := None]}; next_holder := 1; turn_var := Some 0 |}; tw_log := [] |}.

Lemma in_turn_ok : turn_ok (the_turn in_turn).
Proof.
  intros h [x Hx]. unfold the_turn, in_turn in *. simpl in *. destruct (decide (h = 0)) as [->|Hne]; [lia|].
  by rewrite lookup_singleton_ne in Hx.
Qed.

Definition key_result : HookContext :=
  hook_context POST_TOOL_USE "r" "chat" None None None (<["result" := mcp_result]> ∅).
Definition cloud_client : LlmClient :=
  {| lc_agent_type := "narrator"; lc_target_tier := Some tier_3; lc_stripped_public_content := true;
     lc_model := "m"; lc_provider := "p" |}.

(** The world after the result, and after a worker of no turn ran. *)
Definition after_result : TurnWorld := run_state (fire_post tw_env tw_kernel None key_result) in_turn.
Definition back_again : TurnWorld :=
  set_part (set_turn_var (Some 0) (the_turn (set_part (set_turn_var None (the_turn after_result)) after_result)))
    (set_part (set_turn_var None (the_turn after_result)) after_result).

Lemma secret_result_stays_local_witness :
  ∃ dm p w, client_pre_llm tw_env (Some tw_kernel) cloud_client "What is the weather?" "r2" back_again = (Ok (Some dm, p), w) ∧
    refuses dm = true.
Proof.
  destruct (client_pre_llm tw_env (Some tw_kernel) cloud_client "What is the weather?" "r2" back_again) as [[[[dm|] p]|e] w] eqn:Hc.
  2,3: exfalso; revert Hc; vm_compute; discriminate.
  exists dm, p, w. split; [reflexivity|].
  destruct (fire_post tw_env tw_kernel None key_result in_turn) as [[[d c]|e] w2] eqn:Hf.
  2: exfalso; revert Hf; vm_compute; discriminate.
  assert (refuses d = false) as Hd.
  { change d with (match fst (@Ok (HookDecision * HookContext) (d, c), w2) with Ok (d, _) => d | _ => d end).
    rewrite <- Hf. vm_compute. reflexivity. }
  assert (w2 = after_result) as -> by (unfold after_result; by rewrite Hf).
  refine (proj1 (secret_result_stays_local tw_env keys_are_secret mask_owner tw_kernel None key_result in_turn d c after_result 0 back_again
    tw_kernel shipped_gate in_turn_ok eq_refl _ tw_kernel_same tw_classified _ _ Hf Hd _ _ tw_kernel_same tw_gated)
    cloud_client "What is the weather?" "r2" dm p w eq_refl Hc).
  - by eexists.
  - vm_compute. reflexivity.
  - vm_compute. discriminate.
  - eapply rtc_l; [apply step_switch|]. eapply rtc_l; [apply step_switch|]. apply rtc_refl.
  - reflexivity.
Defined.
