(* ===== verification/Approvals.v ===== *)
(** * The approval queue ([kernel/governance/approvals/store.py], [queue.py], [gate.py])

    The table of approvals and its conditional writes, the facade that audits each change,
    and the poll that waits for an answer.  A table is the list of its rows in insertion
    order; an instant ([requested_at], [timeout_at], ...) is a number of microseconds, and
    the clock and the new row's uuid are arguments of the operation that reads them. *)

From S2P Require Import Prelude PyVal Hooks Kernel.
From stdpp Require Import options.

(** ** Rows *)

(** [ApprovalItem]: one pinned call, its arguments as canonical JSON. *)
Record ApprovalItem := { item_tool : string; args_json : string }.

#[export] Instance ApprovalItem_eq_dec : EqDecision ApprovalItem.
Proof. solve_decision. Defined.

Definition ApprovalItem_of (tool : string) (args : list (string * pyval)) : ApprovalItem :=
  {| item_tool := tool; args_json := json_dumps (VDict args) |}.

Definition render (i : ApprovalItem) : string := item_tool i +:+ " " +:+ args_json i.

Inductive CardEffect := eff_destructive | eff_write.

#[export] Instance CardEffect_eq_dec : EqDecision CardEffect.
Proof. solve_decision. Defined.

Record ApprovalCard := {
  card_title_text : string;
  card_lines : list string;
  undo_tool : option string;
  undo_window_days : option Z;
  asked : option string;
  card_effect : CardEffect;
}.

#[export] Instance ApprovalCard_eq_dec : EqDecision ApprovalCard.
Proof. solve_decision. Defined.

Definition undo_sentence (c : ApprovalCard) : string :=
  match undo_tool c with
  | None => "This cannot be undone."
  | Some t =>
      match undo_window_days c with
      | Some n =>
          if (n =? 0)%Z then "Reversible (undo: " +:+ t +:+ ")."
          else "Reversible for " +:+ pretty n +:+ " days (undo: " +:+ t +:+ ")."
      | None => "Reversible (undo: " +:+ t +:+ ")."
      end
  end.

(** What a card reads as after [_card_to_json] and [_card_from_json]. *)
Definition stored_card (c : ApprovalCard) : ApprovalCard :=
  {| card_title_text := card_title_text c; card_lines := card_lines c;
     undo_tool := nonempty (undo_tool c);
     undo_window_days := match undo_window_days c with
                         | Some n => if (n =? 0)%Z then None else Some n
                         | None => None
                         end;
     asked := nonempty (asked c); card_effect := card_effect c |}.

Inductive ApprovalStatus := pending | approved | rejected | timed_out.

#[export] Instance ApprovalStatus_eq_dec : EqDecision ApprovalStatus.
Proof. solve_decision. Defined.

Definition status_str (s : ApprovalStatus) : string :=
  match s with
  | pending => "pending" | approved => "approved"
  | rejected => "rejected" | timed_out => "timed_out"
  end.

Record ApprovalRow := {
  approval_id : string;
  ap_run_id : string;
  checkpoint_id : option string;
  signal : string;
  context_summary : string;
  requested_at : Z;
  channel : string;
  status : ApprovalStatus;
  responded_at : option Z;
  response_actor : option string;
  timeout_at : Z;
  policy_on_timeout : string;
  ap_session_id : option string;
  items : option (list ApprovalItem);
  card : option ApprovalCard;
  caller : option string;
  executed_at : option Z;
  ap_call_id : option string;
  ap_step_id : option Z;
  ap_turn_id : option string;
}.

#[export] Instance ApprovalRow_eq_dec : EqDecision ApprovalRow.
Proof. solve_decision. Defined.

Definition is_deferred_call (r : ApprovalRow) : bool :=
  bool_decide (caller r ≠ None) && bool_decide (items r ≠ None).

(** [lapse_consequence] *)
Definition lapse_consequence (r : ApprovalRow) : string :=
  if is_deferred_call r then
    let tool := match items r with Some (i :: _) => item_tool i | _ => "the call" end in
    "the call to " +:+ tool +:+ " (asked by " +:+ default "None" (caller r) +:+ ") was not run"
  else "the run stays halted".

(** The columns an [UPDATE] writes. *)
Definition answer_row (st : ApprovalStatus) (at_ : option Z) (actor : option string)
    (r : ApprovalRow) : ApprovalRow :=
  {| approval_id := approval_id r; ap_run_id := ap_run_id r; checkpoint_id := checkpoint_id r;
     signal := signal r; context_summary := context_summary r; requested_at := requested_at r;
     channel := channel r; status := st; responded_at := at_; response_actor := actor;
     timeout_at := timeout_at r; policy_on_timeout := policy_on_timeout r;
     ap_session_id := ap_session_id r; items := items r; card := card r; caller := caller r;
     executed_at := executed_at r; ap_call_id := ap_call_id r; ap_step_id := ap_step_id r;
     ap_turn_id := ap_turn_id r |}.

Definition expire_row (r : ApprovalRow) : ApprovalRow :=
  answer_row timed_out (responded_at r) (response_actor r) r.

Definition claim_row (now : Z) (r : ApprovalRow) : ApprovalRow :=
  {| approval_id := approval_id r; ap_run_id := ap_run_id r; checkpoint_id := checkpoint_id r;
     signal := signal r; context_summary := context_summary r; requested_at := requested_at r;
     channel := channel r; status := status r; responded_at := responded_at r;
     response_actor := response_actor r; timeout_at := timeout_at r;
     policy_on_timeout := policy_on_timeout r; ap_session_id := ap_session_id r;
     items := items r; card := card r; caller := caller r; executed_at := Some now;
     ap_call_id := ap_call_id r; ap_step_id := ap_step_id r; ap_turn_id := ap_turn_id r |}.

Definition link_row (cp : string) (r : ApprovalRow) : ApprovalRow :=
  {| approval_id := approval_id r; ap_run_id := ap_run_id r; checkpoint_id := Some cp;
     signal := signal r; context_summary := context_summary r; requested_at := requested_at r;
     channel := channel r; status := status r; responded_at := responded_at r;
     response_actor := response_actor r; timeout_at := timeout_at r;
     policy_on_timeout := policy_on_timeout r; ap_session_id := ap_session_id r;
     items := items r; card := card r; caller := caller r; executed_at := executed_at r;
     ap_call_id := ap_call_id r; ap_step_id := ap_step_id r; ap_turn_id := ap_turn_id r |}.

(** ** The store *)

Abbreviation Table := (list ApprovalRow).

(** The keyword arguments of [enqueue]. *)
Record Enqueue := {
  eq_run_id : string;
  eq_checkpoint_id : option string;
  eq_signal : string;
  eq_context_summary : string;
  eq_channel : string;
  eq_timeout_minutes : Z;
  eq_policy : string;
  eq_session_id : option string;
  eq_items : option (list ApprovalItem);
  eq_card : option ApprovalCard;
  eq_caller : option string;
  eq_call_id : option string;
  eq_step_id : option Z;
  eq_turn_id : option string;
}.

Definition MINUTE : Z := 60000000.

Definition new_row (uuid : string) (now : Z) (e : Enqueue) : ApprovalRow :=
  {| approval_id := uuid; ap_run_id := eq_run_id e; checkpoint_id := eq_checkpoint_id e;
     signal := eq_signal e; context_summary := eq_context_summary e; requested_at := now;
     channel := eq_channel e; status := pending; responded_at := None; response_actor := None;
     timeout_at := (now + eq_timeout_minutes e * MINUTE)%Z; policy_on_timeout := eq_policy e;
     ap_session_id := eq_session_id e; items := eq_items e;
     card := stored_card <$> eq_card e; caller := eq_caller e; executed_at := None;
     ap_call_id := eq_call_id e; ap_step_id := eq_step_id e; ap_turn_id := eq_turn_id e |}.

Definition has_id (id : string) (r : ApprovalRow) : bool := String.eqb (approval_id r) id.
Definition is_pending (r : ApprovalRow) : bool := bool_decide (status r = pending).
Definition is_due (now : Z) (r : ApprovalRow) : bool := is_pending r && (timeout_at r <=? now)%Z.

(** [approval_id] is the primary key: a second insert of one raises. *)
Definition enqueue (uuid : string) (now : Z) (e : Enqueue) : M Table string := λ t,
  if existsb (has_id uuid) t then
    (Raise (Exn "IntegrityError" "UNIQUE constraint failed: approval_queue.approval_id"), t)
  else (Ok uuid, t ++ [new_row uuid now e]).

Definition get (id : string) (t : Table) : option ApprovalRow := select_one (has_id id) t.

Definition list_pending (due_only : bool) (now : Z) (t : Table) : list ApprovalRow :=
  sort_by requested_at (select_where (if due_only then is_due now else is_pending) t).

Definition pending_for_run (run : string) (t : Table) : option ApprovalRow :=
  max_by requested_at (select_where (λ r, String.eqb (ap_run_id r) run && is_pending r) t).

Definition list_by_status (st : ApprovalStatus) (t : Table) : list ApprovalRow :=
  sort_by requested_at (select_where (λ r, bool_decide (status r = st)) t).

Definition not_found (id : string) : exn := Exn "ApprovalNotFoundError" id.

Definition parse_answer (s : string) : option ApprovalStatus :=
  if String.eqb s "approved" then Some approved
  else if String.eqb s "rejected" then Some rejected else None.

(** [fetchone()] then [_row(...)] *)
Definition fetch (id : string) : M Table ApprovalRow := λ t,
  match get id t with
  | Some r => (Ok r, t)
  | None => (Raise (Exn "TypeError" "'NoneType' object is not subscriptable"), t)
  end.

Definition respond (id : string) (answer : string) (actor : string) (now : Z)
    : M Table ApprovalRow :=
  match parse_answer answer with
  | None => raise (Exn "ValueError"
              ("status must be 'approved' or 'rejected', got " +:+ py_repr answer))
  | Some st => λ t,
      let hit := λ r, has_id id r && is_pending r in
      let t' := update_where hit (answer_row st (Some now) (Some actor)) t in
      if Nat.eqb (count_where hit t) 1 then fetch id t'
      else match get id t' with
           | None => (Raise (not_found id), t')
           | Some r => (Raise (Exn "ApprovalAlreadyAnsweredError"
                          ("approval " +:+ py_repr id +:+ " already has status "
                           +:+ py_repr (status_str (status r)))), t')
           end
  end.

Definition claimable (id : string) (r : ApprovalRow) : bool :=
  has_id id r && bool_decide (status r = approved) && bool_decide (executed_at r = None).

Definition claim_execution (id : string) (now : Z) : M Table (option ApprovalRow) := λ t,
  let t' := update_where (claimable id) (claim_row now) t in
  if Nat.eqb (count_where (claimable id) t) 1 then (Ok (get id t'), t') else (Ok None, t').

Definition set_checkpoint (id cp : string) : M Table ApprovalRow := λ t,
  match get id t with
  | None => (Raise (not_found id), t)
  | Some _ => fetch id (update_where (has_id id) (link_row cp) t)
  end.

(** The UPDATE, for the rows the SELECT found. *)
Definition expire_due (now : Z) (due : list ApprovalRow) : M Table (list ApprovalRow) := λ t,
  match due with
  | [] => (Ok [], t)
  | due => (Ok (map expire_row due), update_where (is_due now) expire_row t)
  end.
(** With no other process between the two: the SELECT takes no lock, so one can be
    ([answered_before_the_update]). *)
Definition expire_stale (now : Z) : M Table (list ApprovalRow) := λ t, expire_due now (list_pending true now t) t.

(** ** Histories of the table

    Any interleaving of the processes that open the file is a sequence of these calls.  A sweep is
    one of them when nothing comes between its two statements ([CExpire]); when something does, it
    is the calls in between and then its UPDATE, with the rows it read before ([CUpdate]). *)

Inductive store_call :=
| CEnqueue (uuid : string) (now : Z) (e : Enqueue)
| CRespond (id answer actor : string) (now : Z)
| CClaim (id : string) (now : Z)
| CLink (id cp : string)
| CExpire (now : Z)
| CUpdate (now : Z) (due : list ApprovalRow).

(** What a call told its caller. *)
Inductive store_event :=
| Enqueued (id : string)
| Answered (row : ApprovalRow)
| Claimed (row : ApprovalRow)
| Linked (row : ApprovalRow)
| Expired (rows : list ApprovalRow)
| Refused.

Definition exec (c : store_call) (t : Table) : store_event * Table :=
  match c with
  | CEnqueue u now e =>
      match enqueue u now e t with (Ok id, t') => (Enqueued id, t') | (_, t') => (Refused, t') end
  | CRespond id a who now =>
      match respond id a who now t with (Ok r, t') => (Answered r, t') | (_, t') => (Refused, t') end
  | CClaim id now =>
      match claim_execution id now t with
      | (Ok (Some r), t') => (Claimed r, t')
      | (_, t') => (Refused, t')
      end
  | CLink id cp =>
      match set_checkpoint id cp t with (Ok r, t') => (Linked r, t') | (_, t') => (Refused, t') end
  | CExpire now =>
      match expire_stale now t with (Ok l, t') => (Expired l, t') | (_, t') => (Refused, t') end
  | CUpdate now due =>
      match expire_due now due t with (Ok l, t') => (Expired l, t') | (_, t') => (Refused, t') end
  end.

Fixpoint history (cs : list store_call) (t : Table) : list store_event * Table :=
  match cs with
  | [] => ([], t)
  | c :: cs' =>
      let '(ev, t1) := exec c t in
      let '(evs, t2) := history cs' t1 in (ev :: evs, t2)
  end.

(** ** What never changes *)

(** The columns no operation writes after the insert. *)
Definition pinned (r : ApprovalRow) :=
  (approval_id r, ap_run_id r, signal r, context_summary r, requested_at r, channel r,
   timeout_at r, policy_on_timeout r, ap_session_id r, items r, card r, caller r,
   (ap_call_id r, ap_step_id r, ap_turn_id r)).

(** A row is well formed: only an answered row has an answer, only an approved row was
    claimed to run. *)
Definition row_ok (r : ApprovalRow) : Prop :=
  (status r = approved ∨ status r = rejected ↔ response_actor r ≠ None) ∧
  (response_actor r = None ↔ responded_at r = None) ∧
  (executed_at r ≠ None → status r = approved).

Definition table_ok (t : Table) : Prop :=
  NoDup (map approval_id t) ∧ Forall row_ok t.

(** How a row may differ from what it was. *)
Definition evolves (r r' : ApprovalRow) : Prop :=
  pinned r' = pinned r ∧
  (status r ≠ pending →
   status r' = status r ∧ responded_at r' = responded_at r ∧
   response_actor r' = response_actor r) ∧
  (executed_at r ≠ None → executed_at r' = executed_at r).

#[export] Instance evolves_preorder : PreOrder evolves.
Proof.
  split.
  - intros r. by split_and!.
  - intros r1 r2 r3 (Hp1 & Hs1 & He1) (Hp2 & Hs2 & He2). split; [congruence|]. split.
    + intros Hr. destruct (Hs1 Hr) as (E1 & E2 & E3).
      destruct (Hs2 ltac:(by rewrite E1)) as (F1 & F2 & F3). split_and!; congruence.
    + intros Hr. pose proof (He1 Hr) as E1. rewrite He2; [done|]. by rewrite E1.
Qed.

Definition table_evolves (t t' : Table) : Prop :=
  ∀ r, r ∈ t → ∃ r', r' ∈ t' ∧ evolves r r'.

#[export] Instance table_evolves_preorder : PreOrder table_evolves.
Proof.
  split.
  - intros t r Hr. by exists r.
  - intros t1 t2 t3 H1 H2 r Hr. destruct (H1 r Hr) as (r1 & Hr1 & E1).
    destruct (H2 r1 Hr1) as (r2 & Hr2 & E2). exists r2. split; [done|by etrans].
Qed.

(** A conditional write that keeps each row it hits well formed. *)
Definition sound_write (p : ApprovalRow → bool) (f : ApprovalRow → ApprovalRow) : Prop :=
  ∀ r, p r = true → row_ok r → row_ok (f r) ∧ evolves r (f r).

Lemma evolves_id r r' : evolves r r' → approval_id r' = approval_id r.
Proof. intros (Hp & _). by injection Hp. Qed.

Lemma sound_write_table p f t :
  sound_write p f → (∀ r, approval_id (f r) = approval_id r) →
  table_ok t → table_ok (update_where p f t) ∧ table_evolves t (update_where p f t).
Proof.
  intros Hw Hid [Hd Hok]. rewrite Forall_forall in Hok. split; [split|].
  - by rewrite map_update_where.
  - apply Forall_forall. intros r (r0 & Hr0 & ->)%elem_of_update_where.
    destruct (p r0) eqn:Hp; [apply (Hw r0 Hp)|]; auto.
  - intros r Hr. eexists. split; [apply elem_of_update_where; exists r; split; [exact Hr|reflexivity]|].
    destruct (p r) eqn:Hp; [|done]. apply (Hw r Hp); auto.
Qed.

Lemma answer_sound id st at_ actor :
  st = approved ∨ st = rejected →
  sound_write (λ r, has_id id r && is_pending r) (answer_row st (Some at_) (Some actor)).
Proof.
  intros Hst r Hp (H1 & H2 & H3). unfold is_pending in Hp. to_props.
  assert (executed_at r = None) as He.
  { destruct (executed_at r) eqn:E; [|done]. by rewrite H3 in H0. }
  split; [|split_and!; simpl; [done|done|done]].
  split_and!; simpl; [done|done|by rewrite He].
Qed.

Lemma claim_sound id now : sound_write (claimable id) (claim_row now).
Proof.
  intros r Hp (H1 & H2 & H3). unfold claimable in Hp. to_props.
  split; split_and!; simpl; try done.
Qed.

Lemma link_sound id cp : sound_write (has_id id) (link_row cp).
Proof. intros r _ (H1 & H2 & H3). by split; split_and!. Qed.

Lemma expire_sound now : sound_write (is_due now) expire_row.
Proof.
  intros r Hp (H1 & H2 & H3). unfold is_due, is_pending in Hp. to_props.
  assert (response_actor r = None) as Ha.
  { destruct (response_actor r) eqn:E; [|done]. exfalso.
    destruct H1 as [_ H1]. destruct H1; [done|congruence..]. }
  assert (executed_at r = None) as He.
  { destruct (executed_at r) eqn:E; [|done]. by rewrite H3 in H. }
  split; [|by split_and!]. split_and!; simpl; [|done|by rewrite He].
  rewrite Ha. split; [by intros [?|?]|done].
Qed.

Lemma parse_answer_Some s st : parse_answer s = Some st → st = approved ∨ st = rejected.
Proof. unfold parse_answer. repeat case_match; intros; simplify_eq; auto. Qed.

#[export] Hint Resolve answer_sound claim_sound link_sound expire_sound parse_answer_Some : gov.

Lemma respond_table id a who now t :
  run_state (respond id a who now) t = t ∨
  ∃ st, parse_answer a = Some st ∧
    run_state (respond id a who now) t
    = update_where (λ r, has_id id r && is_pending r) (answer_row st (Some now) (Some who)) t.
Proof.
  unfold respond. destruct (parse_answer a) as [st|]; [|by left].
  right. exists st. split; [done|]. unfold fetch. by repeat case_match.
Qed.

Lemma exec_ok c t :
  table_ok t → table_ok (exec c t).2 ∧ table_evolves t (exec c t).2.
Proof.
  intros Hok. destruct c as [u now e|id a who now|id now|id cp|now|now due]; simpl.
  - unfold enqueue. destruct (existsb (has_id u) t) eqn:Hex; simpl; [by split|].
    destruct Hok as [Hd Hok]. split; [split|].
    + rewrite map_app. apply NoDup_app. split_and!; [done| |apply NoDup_singleton].
      intros x (r & -> & Hr)%list_elem_of_fmap Hu%list_elem_of_singleton. simpl in Hu.
      assert (existsb (has_id u) t = true) as Ht; [|congruence].
      apply existsb_exists. exists r. split; [by apply list_elem_of_In|].
      unfold has_id. rewrite Hu. apply String.eqb_refl.
    + apply Forall_app. split; [done|]. rewrite Forall_singleton.
      split_and!; simpl; try done. split; [by intros [?|?]|done].
    + intros r Hr. exists r. split; [apply elem_of_app; by left|done].
  - pose proof (respond_table id a who now t) as Ht.
    destruct (respond id a who now t) as [[r|e] t'] eqn:Hr; simpl in Ht |- *;
      (destruct Ht as [->|(st & Hst & ->)]; [by split|]);
      apply sound_write_table; eauto with gov.
  - unfold claim_execution. destruct (Nat.eqb _ 1); [destruct (get _ _)|]; simpl;
      apply sound_write_table; eauto with gov.
  - unfold set_checkpoint. destruct (get id t); simpl; [|by split].
    unfold fetch. destruct (get _ _); simpl; apply sound_write_table; eauto with gov.
  - unfold expire_stale, expire_due. destruct (list_pending true now t) eqn:Hl; simpl; [by split|].
    apply sound_write_table; eauto with gov.
  - destruct due; simpl; [by split|]. apply sound_write_table; eauto with gov.
Qed.

Lemma exec_history_evolves cs t evs t' :
  table_ok t → history cs t = (evs, t') → table_ok t' ∧ table_evolves t t'.
Proof.
  revert t evs. induction cs as [|c cs IH]; intros t evs Hok; simpl.
  { by intros [= <- <-]. }
  pose proof (exec_ok c t Hok) as [Hok1 Hev1].
  destruct (exec c t) as [ev t1]. destruct (history cs t1) as [evs' t2] eqn:Hh.
  intros [= <- <-]. destruct (IH t1 evs' Hok1 Hh) as [Hok2 Hev2].
  split; [done|]. by etrans.
Qed.

Lemma exec_history_ok cs t evs t' : table_ok t → history cs t = (evs, t') → table_ok t'.
Proof. intros. by eapply exec_history_evolves. Qed.

(** C16. The life of an approval: whatever calls whatever processes make in whatever order,
    a sweep's two statements apart or not, ids stay unique and rows well formed (an answer only on an answered row, a claim only on
    an approved one); every row is still there afterwards with exactly the calls, card,
    caller, run and deadline it was written with; once it is answered or timed out its
    status, answer and actor never change, and once it was claimed its claim never does. *)
Theorem approval_lifecycle cs t evs t' :
  table_ok t → history cs t = (evs, t') →
  table_ok t' ∧
  ∀ r, r ∈ t → ∃ r', r' ∈ t' ∧ row_ok r' ∧ pinned r' = pinned r ∧
    (status r ≠ pending →
     status r' = status r ∧ responded_at r' = responded_at r ∧
     response_actor r' = response_actor r) ∧
    (executed_at r ≠ None → executed_at r' = executed_at r).
Proof.
  intros Hok Hh. destruct (exec_history_evolves _ _ _ _ Hok Hh) as [Hok' He].
  split; [done|]. intros r Hr. destruct (He r Hr) as (r' & Hr' & Hrr).
  exists r'. destruct Hok' as [_ Hf]. rewrite Forall_forall in Hf. auto.
Qed.

(** ** What each conditional write does, by the row it addresses *)

Section by_row.
Context (t : Table) (Hd : NoDup (map approval_id t)).

Lemma get_update p f id :
  (∀ r, approval_id (f r) = approval_id r) →
  get id (update_where p f t) = (λ r, if p r then f r else r) <$> get id t.
Proof using Type.
  intros Hf. apply select_one_update_where. intros r. unfold has_id. by rewrite Hf.
Qed.

Lemma get_id id r : get id t = Some r → approval_id r = id ∧ r ∈ t.
Proof using Type. by intros [? ?%String.eqb_eq]%select_one_Some. Qed.

Lemma hits_one id q :
  count_where (λ r, has_id id r && q r) t
  = match get id t with Some r => if q r then 1 else 0 | None => 0 end.
Proof using Hd. by apply count_where_key. Qed.

Lemma respond_spec id a who now :
  respond id a who now t =
  match parse_answer a with
  | None => (Raise (Exn "ValueError"
               ("status must be 'approved' or 'rejected', got " +:+ py_repr a)), t)
  | Some st =>
      match get id t with
      | None => (Raise (not_found id), t)
      | Some r =>
          if is_pending r then
            (Ok (answer_row st (Some now) (Some who) r),
             update_where (λ r, has_id id r && is_pending r) (answer_row st (Some now) (Some who)) t)
          else (Raise (Exn "ApprovalAlreadyAnsweredError"
                  ("approval " +:+ py_repr id +:+ " already has status "
                   +:+ py_repr (status_str (status r)))), t)
      end
  end.
Proof using Hd.
  unfold respond. destruct (parse_answer a) as [st|]; [|done].
  pose proof (hits_one id is_pending) as Hc.
  destruct (get id t) as [r|] eqn:Hg.
  - destruct (is_pending r) eqn:Hp; rewrite Hc; simpl.
    + unfold fetch. rewrite get_update by done. rewrite Hg. simpl.
      destruct (get_id _ _ Hg) as [Hid _]. unfold has_id at 1. by rewrite Hid, String.eqb_refl, Hp.
    + rewrite (update_where_none _ _ _ Hc), Hg. done.
  - rewrite Hc. simpl. by rewrite (update_where_none _ _ _ Hc), Hg.
Qed.

Lemma claim_spec id now :
  claim_execution id now t =
  match get id t with
  | Some r =>
      if bool_decide (status r = approved) && bool_decide (executed_at r = None) then
        (Ok (Some (claim_row now r)), update_where (claimable id) (claim_row now) t)
      else (Ok None, t)
  | None => (Ok None, t)
  end.
Proof using Hd.
  unfold claim_execution.
  pose proof (hits_one id (λ r, bool_decide (status r = approved)
                                && bool_decide (executed_at r = None))) as Hc.
  assert (count_where (claimable id) t
          = match get id t with
            | Some r => if bool_decide (status r = approved)
                           && bool_decide (executed_at r = None) then 1 else 0
            | None => 0 end) as Hc'.
  { rewrite <- Hc. unfold count_where, select_where. f_equal. apply List.filter_ext.
    intros r. unfold claimable. by rewrite andb_assoc. }
  destruct (get id t) as [r|] eqn:Hg.
  - destruct (_ && _) eqn:Hp in Hc' |- *; rewrite Hc'; simpl.
    + rewrite get_update by done. rewrite Hg. simpl.
      destruct (get_id _ _ Hg) as [Hid _]. unfold claimable at 1, has_id.
      rewrite Hid, String.eqb_refl. simpl. by rewrite Hp.
    + by rewrite (update_where_none _ _ _ Hc').
  - rewrite Hc'. simpl. by rewrite (update_where_none _ _ _ Hc').
Qed.

Lemma link_spec id cp :
  set_checkpoint id cp t =
  match get id t with
  | Some r => (Ok (link_row cp r), update_where (has_id id) (link_row cp) t)
  | None => (Raise (not_found id), t)
  end.
Proof using Type.
  unfold set_checkpoint. destruct (get id t) as [r|] eqn:Hg; [|done].
  unfold fetch. rewrite get_update by done. rewrite Hg. simpl.
  destruct (get_id _ _ Hg) as [Hid _]. unfold has_id at 1. by rewrite Hid, String.eqb_refl.
Qed.

Lemma expire_spec now :
  expire_stale now t = (Ok (map expire_row (list_pending true now t)),
                        update_where (is_due now) expire_row t).
Proof using Type.
  unfold expire_stale, expire_due. destruct (list_pending true now t) as [|r l] eqn:Hl; [|done].
  rewrite update_where_none; [done|]. unfold count_where.
  unfold list_pending in Hl. rewrite <- (length_sort_by requested_at), Hl. done.
Qed.

(** How often the rows a sweep returns carry an id. *)
Lemma lapses_of_id now id :
  count_where (has_id id) (map expire_row (list_pending true now t))
  = match get id t with Some r => if is_due now r then 1 else 0 | None => 0 end.
Proof using Hd.
  rewrite <- (hits_one id (is_due now)).
  rewrite <- count_where_select. unfold list_pending.
  transitivity (count_where (has_id id) (sort_by requested_at (select_where (is_due now) t))).
  - generalize (sort_by requested_at (select_where (is_due now) t)) as l.
    unfold count_where, select_where. induction l as [|r l IH]; simpl; [done|].
    unfold has_id in *. simpl. destruct (String.eqb _ _); simpl; auto.
  - by rewrite sort_by_perm.
Qed.
End by_row.

(** ** One decision, one claim, one lapse notice *)

(** What a call told its caller about one approval. *)
Definition decided (id : string) (ev : store_event) : nat :=
  match ev with
  | Answered r => if has_id id r then 1 else 0
  | Expired l => count_where (has_id id) l
  | _ => 0
  end.

Definition granted (id : string) (ev : store_event) : nat :=
  match ev with
  | Answered r => if has_id id r && bool_decide (status r = approved) then 1 else 0
  | _ => 0
  end.

Definition claimed (id : string) (ev : store_event) : nat :=
  match ev with Claimed r => if has_id id r then 1 else 0 | _ => 0 end.

Definition times (f : store_event → nat) (evs : list store_event) : nat := list_sum (map f evs).

(** The same, read off the row. *)
Definition row_decided (o : option ApprovalRow) : nat :=
  match o with Some r => if is_pending r then 0 else 1 | None => 0 end.
Definition row_granted (o : option ApprovalRow) : nat :=
  match o with Some r => if bool_decide (status r = approved) then 1 else 0 | None => 0 end.
Definition row_claimed (o : option ApprovalRow) : nat :=
  match o with Some r => if bool_decide (executed_at r = None) then 0 else 1 | None => 0 end.

Definition tallies (id : string) (o o' : option ApprovalRow) (n1 n2 n3 : nat) : Prop :=
  row_decided o' = row_decided o + n1 ∧ row_granted o' = row_granted o + n2 ∧
  row_claimed o' = row_claimed o + n3.

Lemma tallies_same id o o' :
  (λ r, (status r, executed_at r)) <$> o' = (λ r, (status r, executed_at r)) <$> o →
  tallies id o o' 0 0 0.
Proof.
  unfold tallies, row_decided, row_granted, row_claimed, is_pending.
  destruct o as [r|], o' as [r'|]; simpl; try done.
  intros [= -> ->]. repeat case_bool_decide; split_and!; lia.
Qed.

(** A call that no other call cuts in two. *)
Definition undivided (c : store_call) : Prop := match c with CUpdate _ _ => False | _ => True end.

Lemma exec_tallies c t id :
  table_ok t → undivided c →
  tallies id (get id t) (get id (exec c t).2)
    (decided id (exec c t).1) (granted id (exec c t).1) (claimed id (exec c t).1).
Proof.
  intros [Hd Hok] Hu. destruct c as [u now e|id1 a who now|id1 now|id1 cp|now|now due]; [| | | | |done]; simpl.
  - unfold enqueue. destruct (existsb _ t); simpl; [by apply tallies_same|].
    unfold get. rewrite select_one_app. destruct (select_one _ t); [by apply tallies_same|].
    unfold select_one. simpl. by destruct (has_id id _).
  - rewrite respond_spec by done. destruct (parse_answer a) as [st|] eqn:Ha;
      [|by apply tallies_same].
    destruct (get id1 t) as [r|] eqn:Hg; [|by apply tallies_same].
    destruct (is_pending r) eqn:Hp; [|by apply tallies_same]. simpl.
    rewrite get_update by done. destruct (get_id _ _ _ Hg) as [Hid _].
    apply parse_answer_Some in Ha. unfold has_id. simpl. rewrite Hid.
    destruct (String.eqb_spec id1 id) as [->|Hne].
    + rewrite Hg. simpl. unfold tallies, row_decided, row_granted, row_claimed. simpl.
      rewrite Hid, String.eqb_refl, Hp. simpl. unfold is_pending in *. to_props.
      destruct Ha as [->| ->]; simpl; rewrite Hp; simpl; split_and!; lia.
    + apply tallies_same. destruct (get id t) as [r'|] eqn:Hg'; simpl; [|done].
      destruct (get_id _ _ _ Hg') as [-> _]. by rewrite (proj2 (String.eqb_neq id id1)).
  - rewrite claim_spec by done. destruct (get id1 t) as [r|] eqn:Hg; [|by apply tallies_same].
    destruct (_ && _) eqn:Hp; [|by apply tallies_same]. simpl. to_props.
    rewrite get_update by done. destruct (get_id _ _ _ Hg) as [Hid _].
    unfold claimable, has_id. simpl. rewrite Hid.
    destruct (String.eqb_spec id1 id) as [->|Hne].
    + rewrite Hg. simpl. rewrite Hid, String.eqb_refl.
      unfold tallies, row_decided, row_granted, row_claimed, is_pending.
      simpl. repeat case_bool_decide; simpl in *; split_and!; (lia || congruence).
    + apply tallies_same. destruct (get id t) as [r'|] eqn:Hg'; simpl; [|done].
      destruct (get_id _ _ _ Hg') as [-> _]. by rewrite (proj2 (String.eqb_neq id id1)).
  - rewrite link_spec. destruct (get id1 t) as [r|] eqn:Hg; simpl; apply tallies_same; [|done].
    rewrite get_update by done. destruct (get id t) as [r'|]; simpl; [|done].
    by destruct (has_id id1 r').
  - rewrite expire_spec. simpl. rewrite get_update, lapses_of_id by done.
    destruct (get id t) as [r|]; simpl; [|by apply tallies_same].
    destruct (is_due now r) eqn:Hdue; [|by apply tallies_same].
    unfold is_due, is_pending in Hdue. to_props.
    unfold tallies, row_decided, row_granted, row_claimed, is_pending. simpl.
    rewrite H. simpl. repeat case_bool_decide; split_and!; done || lia.
Qed.

Lemma history_tallies cs t evs t' id :
  table_ok t → Forall undivided cs → history cs t = (evs, t') →
  tallies id (get id t) (get id t')
    (times (decided id) evs) (times (granted id) evs) (times (claimed id) evs).
Proof.
  intros Hok Hu. revert t evs Hok. induction Hu as [|c cs Hc Hu IH]; intros t evs Hok; simpl.
  { intros [= <- <-]. by apply tallies_same. }
  pose proof (exec_tallies c t id Hok Hc) as (A1 & A2 & A3).
  pose proof (exec_ok c t Hok) as [Hok1 _].
  destruct (exec c t) as [ev t1]. destruct (history cs t1) as [evs' t2] eqn:Hh.
  intros [= <- <-]. destruct (IH t1 evs' Hok1 Hh) as (B1 & B2 & B3).
  simpl in A1, A2, A3. unfold tallies, times in *. simpl. split_and!; lia.
Qed.

(** One decision per approval: over any sequence of calls on a new table whose sweeps are not
    cut in two (of one that is, see [answered_before_the_update]), at most one
    call decides a given approval -- one answer or one lapse, never both, however many
    answers race and however many sweeps run -- and at most one call claims it to run, and
    then exactly one answer approved it. *)
Theorem approval_decided_once cs evs t id :
  Forall undivided cs → history cs [] = (evs, t) →
  times (decided id) evs ≤ 1 ∧ times (claimed id) evs ≤ times (granted id) evs ∧
  times (granted id) evs ≤ times (decided id) evs.
Proof.
  assert (table_ok []) as Hnil by (split; constructor).
  intros Hu Hh. destruct (history_tallies _ _ _ _ id Hnil Hu Hh) as (H1 & H2 & H3). simpl in *.
  destruct (exec_history_ok _ _ _ _ Hnil Hh) as [_ Hok]. rewrite Forall_forall in Hok.
  destruct (get id t) as [r|] eqn:Hg; simpl in *; [|lia].
  apply get_id in Hg as [_ Hr]. destruct (Hok r Hr) as (_ & _ & He).
  unfold is_pending in H1. repeat case_bool_decide; try lia; try congruence.
  all: exfalso; naive_solver.
Qed.

Lemma approval_decided_once_witness :
  let e := {| eq_run_id := "run"; eq_checkpoint_id := None; eq_signal := "s";
              eq_context_summary := "c"; eq_channel := "cli"; eq_timeout_minutes := 60;
              eq_policy := "fail_closed"; eq_session_id := None; eq_items := Some [];
              eq_card := None; eq_caller := Some "plugin:x"; eq_call_id := None;
              eq_step_id := None; eq_turn_id := None |} in
  let cs := [CEnqueue "a" 0 e; CRespond "a" "approved" "owner" 5; CRespond "a" "rejected" "cli" 6;
             CClaim "a" 7; CClaim "a" 8; CExpire 9000000000] in
  times (decided "a") (history cs []).1 = 1 ∧ times (claimed "a") (history cs []).1 = 1 ∧
  times (decided "a") (history cs []).1 ≤ 1.
Proof.
  intros e cs. split; [reflexivity|]. split; [reflexivity|].
  exact (proj1 (approval_decided_once cs (history cs []).1 (history cs []).2 "a" ltac:(by repeat constructor) eq_refl)).
Defined.

Definition sample_enqueue : Enqueue :=
  {| eq_run_id := "run"; eq_checkpoint_id := None; eq_signal := "s";
     eq_context_summary := "c"; eq_channel := "cli"; eq_timeout_minutes := 60;
     eq_policy := "fail_closed"; eq_session_id := None;
     eq_items := Some [ApprovalItem_of "rm" [("path", VStr "x")]]; eq_card := None;
     eq_caller := Some "plugin:x"; eq_call_id := None; eq_step_id := None;
     eq_turn_id := None |}.

Lemma sample_table_ok : table_ok [new_row "a" 0 sample_enqueue].
Proof.
  split; [apply NoDup_singleton|]. rewrite Forall_singleton.
  split_and!; simpl; try done. split; [by intros [?|?]|done].
Qed.

Lemma approval_lifecycle_witness :
  let t := [new_row "a" 0 sample_enqueue] in
  let cs := [CRespond "a" "rejected" "owner" 5; CClaim "a" 7; CExpire 9000000000] in
  table_ok (history cs t).2 ∧ status <$> get "a" (history cs t).2 = Some rejected.
Proof.
  intros t cs. split; [|reflexivity].
  exact (proj1 (approval_lifecycle cs t (history cs t).1 (history cs t).2 sample_table_ok eq_refl)).
Defined.

(** ** [ApprovalGate.await_approval]

    One turn of the loop reads the store, then the clock; [seen i] is what the [i]-th turn
    reads, whatever other processes did in between. *)

Section gate.
Context (id : string) (seen : nat → Table * Z).

Definition rejected_error (r : ApprovalRow) : exn :=
  Exn "ApprovalRejectedError"
    ("approval " +:+ py_repr id +:+ " was rejected (run=" +:+ ap_run_id r +:+ ")").

Definition timed_out_error (r : ApprovalRow) : exn :=
  Exn "ApprovalTimedOutError"
    ("approval " +:+ py_repr id +:+ " timed out (run=" +:+ ap_run_id r +:+ ")").

(** [timeout] in microseconds. *)
Definition effective_deadline (r : ApprovalRow) (now0 : Z) (timeout : option Z) : Z :=
  match timeout with
  | Some s => Z.min (timeout_at r) (now0 + s)
  | None => timeout_at r
  end.

(** [None] when the fuel ran out before the loop ended. *)
Fixpoint poll (deadline : Z) (fuel i : nat) : option (res ApprovalRow) :=
  match fuel with
  | 0 => None
  | S n =>
      match get id (seen i).1 with
      | None => Some (Raise (not_found id))
      | Some r =>
          match status r with
          | approved => Some (Ok r)
          | rejected => Some (Raise (rejected_error r))
          | timed_out => Some (Raise (timed_out_error r))
          | pending =>
              if (deadline <=? (seen i).2)%Z then Some (Raise (timed_out_error r))
              else poll deadline n (S i)
          end
      end
  end.

Definition await_approval (t0 : Table) (now0 : Z) (timeout : option Z) (fuel : nat)
    : option (res ApprovalRow) :=
  match get id t0 with
  | None => Some (Raise (not_found id))
  | Some r => poll (effective_deadline r now0 timeout) fuel 0
  end.

(** The loop is still waiting after turn [i]. *)
Definition waits (deadline : Z) (i : nat) : Prop :=
  ∃ r, get id (seen i).1 = Some r ∧ status r = pending ∧ ((seen i).2 < deadline)%Z.

Lemma poll_waits deadline n i k :
  (∀ j, i ≤ j < i + k → waits deadline j) → poll deadline (k + n) i = poll deadline n (i + k).
Proof.
  revert i. induction k as [|k IH]; intros i Hw; simpl; [by rewrite Nat.add_0_r|].
  destruct (Hw i ltac:(lia)) as (r & -> & -> & Hlt).
  destruct (Z.leb_spec deadline (seen i).2); [lia|].
  rewrite IH; [f_equal; lia|]. intros j Hj. apply Hw. lia.
Qed.

Lemma poll_ends deadline n i :
  ¬ waits deadline i → poll deadline (S n) i = poll deadline 1 i ∧ poll deadline 1 i ≠ None.
Proof.
  intros Hn. simpl. destruct (get id (seen i).1) as [r|] eqn:Hg; [|done].
  destruct (status r) eqn:Hs; try done.
  destruct (Z.leb_spec deadline (seen i).2); [done|]. destruct Hn. by exists r.
Qed.

Lemma poll_first deadline n i :
  (deadline ≤ (seen (i + n)).2)%Z →
  ∃ k, k ≤ n ∧ (∀ j, i ≤ j < i + k → waits deadline j) ∧ ¬ waits deadline (i + k).
Proof.
  revert i. induction n as [|n IH]; intros i Hd.
  - exists 0. split; [lia|]. split; [intros; lia|]. rewrite Nat.add_0_r in *.
    intros (r & _ & _ & ?). lia.
  - destruct (decide ((seen i).2 < deadline)%Z) as [Hlt|Hge].
    + destruct (get id (seen i).1) as [r|] eqn:Hg.
      * destruct (decide (status r = pending)) as [Hp|Hp].
        -- destruct (IH (S i)) as (k & Hk & Hw & Hn); [by replace (S i + n) with (i + S n) by lia|].
           exists (S k). split; [lia|]. replace (i + S k) with (S i + k) by lia. split; [|done].
           intros j Hj. destruct (decide (j = i)) as [->|]; [by exists r|]. apply Hw. lia.
        -- exists 0. split; [lia|]. split; [intros; lia|]. rewrite Nat.add_0_r.
           intros (r' & Hg' & Hp' & _). congruence.
      * exists 0. split; [lia|]. split; [intros; lia|]. rewrite Nat.add_0_r.
        intros (r' & Hg' & _). congruence.
    + exists 0. split; [lia|]. split; [intros; lia|]. rewrite Nat.add_0_r.
      intros (r' & _ & _ & ?). lia.
Qed.
End gate.

(** C17. Waiting for an answer ends: once some turn's clock has reached the effective deadline
    -- the row's, or the caller's if it is earlier -- the wait returns by that turn, whatever
    the other processes do; every turn before the last saw the approval pending and the
    deadline ahead; and what that turn read is what the wait ends with: the row when it is
    [approved], and otherwise the error of a rejection, of a lapse (also of a row still pending,
    at the deadline only) or of a missing row. *)
Theorem await_approval_ends id seen t0 r0 now0 timeout n :
  get id t0 = Some r0 →
  (effective_deadline r0 now0 timeout ≤ (seen n).2)%Z →
  ∃ k out, k ≤ n ∧
    (∀ fuel, k < fuel → await_approval id seen t0 now0 timeout fuel = Some out) ∧
    (∀ j, j < k → waits id seen (effective_deadline r0 now0 timeout) j) ∧
    match get id (seen k).1 with
    | None => out = Raise (not_found id)
    | Some r =>
        out = match status r with
              | approved => Ok r
              | rejected => Raise (rejected_error id r)
              | timed_out | pending => Raise (timed_out_error id r)
              end ∧
        (status r = pending → (effective_deadline r0 now0 timeout ≤ (seen k).2)%Z)
    end.
Proof.
  intros Hg Hd. unfold await_approval. rewrite Hg.
  set (dl := effective_deadline _ _ _) in *.
  destruct (poll_first id seen dl n 0 Hd) as (k & Hk & Hw & Hn). simpl in Hw, Hn.
  destruct (poll id seen dl 1 k) as [out|] eqn:Ho;
    [|by destruct (poll_ends id seen dl 0 k Hn)].
  exists k, out. split; [done|]. split; [|split; [by intros; apply Hw; lia|]].
  - intros fuel Hf. replace fuel with (k + S (fuel - S k)) by lia.
    rewrite poll_waits by (simpl; intros; apply Hw; lia). simpl (0 + k).
    by rewrite (proj1 (poll_ends id seen dl (fuel - S k) k Hn)).
  - clear -Ho. cbn in Ho.
    destruct (get id (seen k).1) as [r|] eqn:Hr; [|by injection Ho as <-].
    destruct (status r) eqn:Hs; [destruct (Z.leb_spec dl (seen k).2); [|done]|..]; injection Ho as <-; by split.
Qed.

(** A row the owner approves between the sweep's SELECT and its UPDATE stays approved, and is
    returned, and then announced, as timed out. *)
Example answered_before_the_update :
  let t := [new_row "a" 0 sample_enqueue] in
  let due := list_pending true 4000000000 t in
  let t1 := (respond "a" "approved" "owner" 4000000000 t).2 in
  match expire_due 4000000000 due t1 with
  | (Ok rows, t2) => map status rows = [timed_out] ∧ map status t2 = [approved]
  | _ => False
  end.
Proof. by vm_compute. Qed.

Lemma await_approval_ends_witness :
  let t := [new_row "a" 0 sample_enqueue] in
  let t' := (history [CRespond "a" "approved" "owner" 5] t).2 in
  let seen := λ i, if Nat.ltb i 3 then (t, Z.of_nat i) else (t', 4000000000%Z) in
  ∃ k out, await_approval "a" seen t 0 None 10 = Some out ∧ k ≤ 5 ∧
           (ap_run_id <$> (match out with Ok r => Some r | _ => None end)) = Some "run".
Proof.
  intros t t' seen.
  destruct (await_approval_ends "a" seen t (new_row "a" 0 sample_enqueue) 0 None 5
              eq_refl ltac:(vm_compute; discriminate)) as (k & out & Hk & Ho & _).
  exists k, out. specialize (Ho 10 ltac:(lia)).
  split; [exact Ho|]. split; [exact Hk|]. vm_compute in Ho. injection Ho as <-. reflexivity.
Defined.
