(* ===== verification/ApprovalService.v ===== *)
(** * Answering approvals ([approvals/queue.py], [approvals/service.py])

    The audited queue, the answer that records a decision and then continues what it was
    about, and the sweep that times out overdue approvals.  The world [W] holds the
    approvals table as a part; the ledger, the runtime that resumes a run or executes an
    approved call and the delivery of notices are arguments. *)

From S2P Require Import Prelude PyVal PyText Hooks Kernel Approvals.
From stdpp Require Import options.

(** ** [ApprovalQueue] *)

Definition with_call_id (p : dict) (call_id : option string) : dict :=
  match nonempty call_id with Some c => <["call_id" := VStr c]> p | None => p end.

Definition queue_row (run decision sev why : string) (p : dict) : AuditRow :=
  {| row_run_id := run; row_step_id := None; row_agent_type := "approvals";
     row_hook_point := "approval_queue"; row_plugin := "ApprovalQueue";
     row_decision := decision; row_severity := sev; row_reason := why;
     row_classification := None; row_tier := None; row_payload := p |}.

Inductive ApprovedCallStatus := ran | failed | call_denied | call_rejected | call_expired.

#[export] Instance ApprovedCallStatus_eq_dec : EqDecision ApprovedCallStatus.
Proof. solve_decision. Defined.

Definition call_status_str (s : ApprovedCallStatus) : string :=
  match s with
  | ran => "ran" | failed => "failed" | call_denied => "denied"
  | call_rejected => "rejected" | call_expired => "expired"
  end.

Record ApprovedCallResult := { res_status : ApprovedCallStatus; res_summary : string }.

(** What the queue and the service call: the ledger ([AuditLog], none when the queue has
    none), the runtime's [RunResumer] and [ApprovedCallExecutor], the drift store's
    [settle_run], and the surfaces that announce a lapse. *)
Record Surfaces (W : Type) := {
  sf_record : option (AuditRow → M W Z);
  sf_settle_run : string → bool → M W Z;
  sf_resume : option (string → Z → string → M W string);
  sf_execute : option (ApprovalRow → M W ApprovedCallResult);
  sf_settle_unrun : ApprovalRow → ApprovedCallStatus → M W ApprovedCallResult;
  sf_notify_timeout : option (ApprovalRow → M W unit);
  sf_deliver : option (option string → string → string → M W unit);
}.
Arguments sf_record {W} _.
Arguments sf_settle_run {W} _.
Arguments sf_resume {W} _.
Arguments sf_execute {W} _.
Arguments sf_settle_unrun {W} _.
Arguments sf_notify_timeout {W} _.
Arguments sf_deliver {W} _.

Section queue.
Context {W : Type} `{!Part W Table} (sf : Surfaces W).

Definition record_row (r : AuditRow) : M W unit :=
  match sf_record sf with
  | Some f => _ ← f r; mret tt
  | None => mret tt
  end.

Definition queue_enqueue (uuid : string) (now : Z) (e : Enqueue) : M W string :=
  id ← on_part (enqueue uuid now e);
  record_row (queue_row (eq_run_id e) "require_approval" "warn"
    ("approval enqueued: signal=" +:+ eq_signal e +:+ " channel=" +:+ eq_channel e)
    (with_call_id (<["approval_id" := VStr id]> (<["signal" := VStr (eq_signal e)]>
      {["channel" := VStr (eq_channel e)]})) (eq_call_id e)));;
  mret id.

Definition queue_get (id : string) : M W (option ApprovalRow) := gets (get id ∘ part).

Definition queue_respond (id answer actor : string) (now : Z) : M W ApprovalRow :=
  row ← on_part (respond id answer actor now);
  record_row (queue_row (ap_run_id row) answer "info"
    ("approval " +:+ answer +:+ " by " +:+ actor)
    (with_call_id (<["approval_id" := VStr id]> {["actor" := VStr actor]}) (ap_call_id row)));;
  mret row.

Definition queue_claim (id : string) (now : Z) : M W (option ApprovalRow) :=
  row ← on_part (claim_execution id now);
  match row with
  | None => mret None
  | Some r =>
      record_row (queue_row (ap_run_id r) "claimed" "info"
        ("approved call claimed to run for " +:+ default "None" (caller r))
        (with_call_id (<["approval_id" := VStr id]> {["caller" := opt_val (caller r)]})
           (ap_call_id r)));;
      mret (Some r)
  end.

Definition first_tool (r : ApprovalRow) : option string :=
  match items r with Some (i :: _) => Some (item_tool i) | _ => None end.

Definition record_call_outcome (r : ApprovalRow) (st : ApprovedCallStatus) (summary : string)
    : M W unit :=
  let tool := first_tool r in
  record_row (queue_row (ap_run_id r) ("call_" +:+ call_status_str st)
    (if bool_decide (st = ran) then "info" else "warn")
    ("approved call " +:+ call_status_str st +:+ ": " +:+ default "None" tool +:+ " for "
     +:+ default "None" (caller r))
    (with_call_id
       (<["approval_id" := VStr (approval_id r)]> (<["caller" := opt_val (caller r)]>
         (<["tool" := opt_val tool]> (<["status" := VStr (call_status_str st)]>
           {["summary" := VStr summary]})))) (ap_call_id r))).

Definition queue_set_checkpoint (id cp : string) : M W ApprovalRow :=
  on_part (set_checkpoint id cp).

Definition lapse_row (r : ApprovalRow) : AuditRow :=
  queue_row (ap_run_id r) "timed_out" "warn"
    ("approval timed out unanswered after " +:+ iso19 (timeout_at r) +:+ " (signal="
     +:+ signal r +:+ ", policy=" +:+ policy_on_timeout r +:+ ")")
    (with_call_id (<["approval_id" := VStr (approval_id r)]> (<["signal" := VStr (signal r)]>
      (<["channel" := VStr (channel r)]> {["policy_on_timeout" := VStr (policy_on_timeout r)]})))
      (ap_call_id r)).

(** [for x in l: body(x)] *)
Fixpoint for_each {A} (body : A → M W unit) (l : list A) : M W unit :=
  match l with
  | [] => mret tt
  | x :: l' => body x;; for_each body l'
  end.

Definition queue_expire (now : Z) : M W (list ApprovalRow) :=
  rows ← on_part (expire_stale now);
  for_each (λ r, record_row (lapse_row r)) rows;;
  mret rows.

(** ** The service *)

Definition lapse_notice (r : ApprovalRow) : string :=
  let nl := String (ascii_of_N 10) "" in
  if is_deferred_call r then
    "The approval I was waiting on has expired, so " +:+ lapse_consequence r
    +:+ ". Nothing was changed." +:+ nl +:+ nl +:+ "What it was for: " +:+ context_summary r
    +:+ nl +:+ "No answer arrived before " +:+ iso19 (timeout_at r) +:+ " UTC."
    +:+ nl +:+ nl +:+ "Ask again if you still want it done."
  else
    "The approval I was waiting on has expired, so run " +:+ ap_run_id r
    +:+ " is still stopped where it was." +:+ nl +:+ nl +:+ "Why it stopped: "
    +:+ context_summary r +:+ nl +:+ "No answer arrived before " +:+ iso19 (timeout_at r)
    +:+ " UTC (policy: " +:+ policy_on_timeout r +:+ "), so nothing further has run."
    +:+ nl +:+ nl +:+ "Tell me how you'd like to proceed and I'll start from there.".

Record ApprovalOutcome := {
  oc_row : ApprovalRow;
  resumed : bool;
  detail : string;
  executed : bool;
}.

Definition outcome_of (r : ApprovalRow) (res : bool) (d : string) : ApprovalOutcome :=
  {| oc_row := r; resumed := res; detail := d; executed := false |}.

(** [parse_checkpoint_id]: [int] raises on a superscript digit. *)
Definition parse_checkpoint_id (cp : option string) : res (option (string * Z)) :=
  match nonempty cp with
  | None => Ok None
  | Some s =>
      match rpartition ":" s with
      | Some (run, step) =>
          if negb (str_truthy run) || negb (isdigit step) then Ok None
          else match int_of_digits step with
               | Ok n => Ok (Some (run, n))
               | Raise e => Raise e
               end
      | None => Ok None
      end
  end.

Definition tool_of (r : ApprovalRow) : string := default "" (first_tool r).

Definition notice (x : ApprovedCallResult) (tool : string) : string :=
  let head :=
    match res_status x with
    | ran => "The approved call to " +:+ tool +:+ " ran."
    | failed => "The approved call to " +:+ tool +:+ " ran and failed."
    | call_denied => "The approved call to " +:+ tool +:+ " was refused when it came to run."
    | call_rejected => "The call to " +:+ tool +:+ " was rejected; nothing was run."
    | call_expired => "The approval for " +:+ tool +:+ " expired; nothing was run."
    end in
  let nl := String (ascii_of_N 10) "" in
  if str_truthy (res_summary x) then head +:+ nl +:+ nl +:+ res_summary x else head.

Definition settle_unrun (r : ApprovalRow) (st : ApprovedCallStatus) : M W ApprovedCallResult :=
  result ← try_except (sf_settle_unrun sf r st)
             (λ _, mret {| res_status := st; res_summary := "" |});
  record_call_outcome r st (res_summary result);;
  mret result.

(** [_settle_deferred_call] *)
Definition settle_deferred_call (r : ApprovalRow) : M W ApprovalOutcome :=
  if negb (bool_decide (status r = approved)) then
    let d := "Rejected, nothing was run." in
    match sf_execute sf with
    | None => record_call_outcome r call_rejected d;; mret (outcome_of r false d)
    | Some _ =>
        result ← settle_unrun r call_rejected;
        mret (outcome_of r false (or_str (Some (res_summary result)) d))
    end
  else
    match sf_execute sf with
    | None => mret (outcome_of r false "Approved, but no runtime is here to run it.")
    | Some execute =>
        result ← try_except (execute r)
                   (λ e, mret {| res_status := failed;
                                 res_summary := "It could not be run: " +:+ exn_str e |});
        record_call_outcome r (res_status result) (res_summary result);;
        now_row ← queue_get (approval_id r);
        mret {| oc_row := default r now_row; resumed := false;
                detail := "Approved. " +:+ notice result (tool_of r);
                executed := bool_decide (res_status result = ran ∨ res_status result = failed) |}
    end.

(** [_settle_drift_exemptions] *)
Definition settle_drift_exemptions (r : ApprovalRow) : M W unit :=
  if String.eqb (signal r) "goal_drift" then
    try_except (_ ← sf_settle_run sf (ap_run_id r) (bool_decide (status r = approved)); mret tt)
      (λ _, mret tt)
  else mret tt.

(** The approval is of a call nobody here can run. *)
Definition unrunnable (answer : string) (existing : option ApprovalRow) : option ApprovalRow :=
  match existing with
  | Some r => if is_deferred_call r && is_pending r && String.eqb answer "approved"
                 && negb (bool_decide (is_Some (sf_execute sf))) then Some r else None
  | None => None
  end.

(** What follows an answer to a loop's approval. *)
Definition continue_run (r : ApprovalRow) : M W ApprovalOutcome :=
  if negb (bool_decide (status r = approved)) && bool_decide (items r = None) then
    mret (outcome_of r false "Rejected — the run stays halted.")
  else
    let verb := if bool_decide (status r = approved) then "Approved"
                else "Rejected, nothing was changed" in
    match parse_checkpoint_id (checkpoint_id r) with
    | Raise e => raise e
    | Ok None =>
        mret (outcome_of r false
          (verb +:+ ". No checkpoint is linked to this approval, so there is nothing to continue automatically."))
    | Ok (Some (run, step)) =>
        match sf_resume sf with
        | None =>
            mret (outcome_of r false
              (verb +:+ ". Run " +:+ run +:+ " is resumable from step " +:+ pretty step
               +:+ ", but no runtime is available here to continue it."))
        | Some resume =>
            try_except
              (answer ← resume run step (or_str (Some (channel r)) "console");
               mret (outcome_of r true answer))
              (λ e, mret (outcome_of r false
                 (verb +:+ ", but the run could not be continued: " +:+ exn_str e)))
        end
    end.

(** Record the answer, then do what it sets off. *)
Definition take_answer (id answer actor : string) (now : Z) : M W ApprovalOutcome :=
  row ← queue_respond id answer actor now;
  if is_deferred_call row then settle_deferred_call row
  else settle_drift_exemptions row;; continue_run row.

Definition respond_to_approval (id answer actor : string) (now : Z) : M W ApprovalOutcome :=
  existing ← queue_get id;
  match unrunnable answer existing with
  | Some r =>
      mret (outcome_of r false
        "Not approved yet: this approval runs a call, and no runtime is available here to run it. It is still waiting; answer it where Evarness is running.")
  | None => take_answer id answer actor now
  end.

Lemma respond_cases id answer actor now w :
  respond_to_approval id answer actor now w =
  match unrunnable answer (get id (part w)) with
  | Some r =>
      (Ok (outcome_of r false
        "Not approved yet: this approval runs a call, and no runtime is available here to run it. It is still waiting; answer it where Evarness is running."), w)
  | None => take_answer id answer actor now w
  end.
Proof using Type.
  unfold respond_to_approval, queue_get, gets, mbind, M_bind, compose.
  by destruct (unrunnable _ _).
Qed.

(** The body of [sweep_expired]'s loop. *)
Definition announce_lapse (r : ApprovalRow) : M W unit :=
  match sf_notify_timeout sf with
  | Some f => try_except (f r) (λ _, mret tt)
  | None => mret tt
  end;;
  if is_deferred_call r && bool_decide (is_Some (sf_execute sf)) then
    _ ← settle_unrun r call_expired; mret tt
  else
    match sf_deliver sf with
    | Some f =>
        try_except (f (ap_session_id r) (or_str (Some (channel r)) "console") (lapse_notice r))
          (λ _, mret tt)
    | None => mret tt
    end.

Definition sweep_expired (now : Z) : M W (list ApprovalRow) :=
  rows ← queue_expire now;
  for_each announce_lapse rows;;
  mret rows.
End queue.

(** ** Computations that keep the table's promises *)

Section keeps.
Context {W : Type} `{!Part W Table, !PartLaws W Table}.

(** [m] leaves the table well formed and every row at most further along. *)
Definition keeps {A} (m : M W A) : Prop :=
  ∀ w, table_ok (part w) →
       table_ok (part (run_state m w)) ∧ table_evolves (part w) (part (run_state m w)).

(** [m] never raises. *)
Definition total {A} (m : M W A) : Prop := ∀ w, ∃ a w', m w = (Ok a, w').

Lemma keeps_ret {A} (a : A) : keeps (mret a).
Proof. by intros w. Qed.

Lemma keeps_raise {A} e : keeps (raise e : M W A).
Proof. by intros w. Qed.

Lemma keeps_gets {A} (f : W → A) : keeps (gets f).
Proof. by intros w. Qed.

Lemma keeps_seq w1 w2 w3 :
  table_ok (part w2) ∧ table_evolves (part w1) (part w2) →
  (table_ok (part w2) → table_ok (part w3) ∧ table_evolves (part w2) (part w3)) →
  table_ok (part w3) ∧ table_evolves (part w1) (part w3).
Proof. intros [H1 H2] H. destruct (H H1). split; [done|by etrans]. Qed.

Lemma keeps_bind {A B} (m : M W A) (f : A → M W B) :
  keeps m → (∀ a, keeps (f a)) → keeps (m ≫= f).
Proof.
  intros Hm Hf w Hw. specialize (Hm w Hw). unfold mbind, M_bind.
  destruct (m w) as [[a|e] w1]; simpl in Hm |- *; [|done].
  eapply keeps_seq; [exact Hm|apply Hf].
Qed.

Lemma keeps_try {A} (m : M W A) h : keeps m → (∀ e, keeps (h e)) → keeps (try_except m h).
Proof.
  intros Hm Hh w Hw. specialize (Hm w Hw). unfold try_except.
  destruct (m w) as [[a|e] w1]; simpl in Hm |- *; [done|].
  eapply keeps_seq; [exact Hm|apply Hh].
Qed.

Lemma keeps_for_each {A} (body : A → M W unit) l :
  (∀ x, keeps (body x)) → keeps (for_each body l).
Proof.
  intros Hb. induction l as [|x l IH]; simpl; [apply keeps_ret|]. by apply keeps_bind.
Qed.

Lemma keeps_respond id a who now : keeps (on_part (respond id a who now)).
Proof using All.
  intros w Hw. pose proof (exec_ok (CRespond id a who now) (part w) Hw) as Hk.
  unfold on_part, zoom. simpl in Hk.
  destruct (respond id a who now (part w)) as [[r|e] t']; simpl in *; by rewrite part_set.
Qed.

Lemma keeps_claim id now : keeps (on_part (claim_execution id now)).
Proof using All.
  intros w Hw. pose proof (exec_ok (CClaim id now) (part w) Hw) as Hk.
  unfold on_part, zoom. simpl in Hk.
  destruct (claim_execution id now (part w)) as [[[r|]|e] t']; simpl in *; by rewrite part_set.
Qed.

Lemma keeps_expire now : keeps (on_part (expire_stale now)).
Proof using All.
  intros w Hw. pose proof (exec_ok (CExpire now) (part w) Hw) as Hk.
  unfold on_part, zoom. simpl in Hk.
  destruct (expire_stale now (part w)) as [[r|e] t']; simpl in *; by rewrite part_set.
Qed.

Lemma keeps_enqueue u now e : keeps (on_part (enqueue u now e)).
Proof using All.
  intros w Hw. pose proof (exec_ok (CEnqueue u now e) (part w) Hw) as Hk.
  unfold on_part, zoom. simpl in Hk.
  destruct (enqueue u now e (part w)) as [[r|ex] t']; simpl in *; by rewrite part_set.
Qed.

(** A row a table had is found again after a computation that keeps it. *)
Lemma get_evolves t t' id r :
  get id t = Some r → table_ok t' → table_evolves t t' →
  ∃ r', get id t' = Some r' ∧ evolves r r' ∧ row_ok r'.
Proof.
  intros Hg [Hd Hf] He. destruct (get_id _ _ _ Hg) as [Hid Hr].
  destruct (He r Hr) as (r' & Hr' & Hrr). exists r'.
  rewrite Forall_forall in Hf. split; [|auto].
  apply select_one_key_Some; [done|]. split; [done|]. rewrite <- Hid. by apply evolves_id.
Qed.

Lemma total_ret {A} (a : A) : total (mret a).
Proof. intros w. by eexists _, _. Qed.

Lemma total_bind {A B} (m : M W A) (f : A → M W B) :
  total m → (∀ a, total (f a)) → total (m ≫= f).
Proof.
  intros Hm Hf w. destruct (Hm w) as (a & w1 & E). unfold mbind, M_bind. rewrite E. apply Hf.
Qed.

Lemma total_try {A} (m : M W A) h : (∀ e, total (h e)) → total (try_except m h).
Proof.
  intros Hh w. unfold try_except. destruct (m w) as [[a|e] w1]; [by eexists _, _|apply Hh].
Qed.

Lemma total_gets {A} (f : W → A) : total (gets f).
Proof. intros w. by eexists _, _. Qed.

Lemma total_for_each {A} (body : A → M W unit) l :
  (∀ x, total (body x)) → total (for_each body l).
Proof.
  intros Hb. induction l as [|x l IH]; simpl; [apply total_ret|]. by apply total_bind.
Qed.
End keeps.

#[export] Hint Resolve keeps_ret keeps_raise keeps_gets keeps_bind keeps_try keeps_for_each
  keeps_respond keeps_claim keeps_expire keeps_enqueue
  total_ret total_bind total_try total_gets total_for_each : gov.

(** What the service relies on of the surfaces: none writes the table but through the
    store's operations.  Any of them may raise, the ledger included. *)
Class SurfacesOk {W} `{!Part W Table} (sf : Surfaces W) : Prop := {
  ok_record f r : sf_record sf = Some f → keeps (f r);
  ok_settle_run s b : keeps (sf_settle_run sf s b);
  ok_resume f s n c : sf_resume sf = Some f → keeps (f s n c);
  ok_execute f r : sf_execute sf = Some f → keeps (f r);
  ok_settle_unrun r s : keeps (sf_settle_unrun sf r s);
  ok_notify f r : sf_notify_timeout sf = Some f → keeps (f r);
  ok_deliver f s c x : sf_deliver sf = Some f → keeps (f s c x);
}.

(** The ledger takes every row: the database does, or its spool ([AuditLog.record] raises
    when both fail). *)
Definition ledger_takes {W} (sf : Surfaces W) : Prop := ∀ f r, sf_record sf = Some f → total (f r).

Section service.
Context {W : Type} `{!Part W Table, !PartLaws W Table} (sf : Surfaces W) `{!SurfacesOk sf}.

Lemma record_row_ok r : keeps (record_row sf r) ∧ (ledger_takes sf → total (record_row sf r)).
Proof using All.
  unfold record_row. destruct (sf_record sf) as [f|] eqn:Hf; [|auto with gov].
  pose proof (ok_record f r Hf). split; [auto with gov|]. intros Hl. pose proof (Hl f r Hf). auto with gov.
Qed.

Lemma record_call_outcome_ok r st d :
  keeps (record_call_outcome sf r st d) ∧ (ledger_takes sf → total (record_call_outcome sf r st d)).
Proof using All. apply record_row_ok. Qed.

Lemma settle_unrun_ok r st : keeps (settle_unrun sf r st) ∧ (ledger_takes sf → total (settle_unrun sf r st)).
Proof using All.
  pose proof ok_settle_unrun. unfold settle_unrun. split; [|intros Hl];
    repeat (apply keeps_bind || apply total_bind || intros); try (by apply record_call_outcome_ok); auto with gov.
Qed.

Lemma settle_deferred_ok r :
  keeps (settle_deferred_call sf r) ∧ (ledger_takes sf → total (settle_deferred_call sf r)).
Proof using All.
  unfold settle_deferred_call, queue_get. destruct (negb _), (sf_execute sf) as [ex|] eqn:Hex.
  - destruct (settle_unrun_ok r call_rejected). split; [|intros Hl]; auto with gov.
  - destruct (record_call_outcome_ok r call_rejected "Rejected, nothing was run.").
    split; [|intros Hl]; auto with gov.
  - pose proof (ok_execute ex r Hex).
    split; [|intros Hl]; repeat (apply keeps_bind || apply total_bind || intros);
      try (by apply record_call_outcome_ok); auto with gov.
  - split; [|intros Hl]; auto with gov.
Qed.

Lemma settle_drift_ok r :
  keeps (settle_drift_exemptions sf r) ∧ total (settle_drift_exemptions sf r).
Proof using All.
  pose proof ok_settle_run. unfold settle_drift_exemptions.
  destruct (String.eqb _ _); auto with gov.
Qed.

Lemma continue_run_keeps r : keeps (continue_run sf r).
Proof using All.
  unfold continue_run. destruct (_ && _); [auto with gov|].
  destruct (parse_checkpoint_id _) as [[[run step]|]|e]; try auto with gov.
  destruct (sf_resume sf) as [f|] eqn:Hf; [|auto with gov].
  pose proof (λ s n c, ok_resume f s n c Hf). auto with gov.
Qed.

Lemma continue_run_total r :
  (∀ e, parse_checkpoint_id (checkpoint_id r) ≠ Raise e) → total (continue_run sf r).
Proof using All.
  intros Hp. unfold continue_run. destruct (_ && _); [auto with gov|].
  destruct (parse_checkpoint_id _) as [[[run step]|]|e]; [|auto with gov|by destruct (Hp e)].
  destruct (sf_resume sf); auto with gov.
Qed.

(** An accepted answer: the table after [queue_respond], which raises only when the ledger does. *)
Lemma queue_respond_ok id answer who now st r w :
  table_ok (part w) → get id (part w) = Some r → status r = pending →
  parse_answer answer = Some st →
  ∃ x w', queue_respond sf id answer who now w = (x, w') ∧
    (∀ row, x = Ok row → row = answer_row st (Some now) (Some who) r) ∧ (ledger_takes sf → ∃ row, x = Ok row) ∧
    table_ok (part w') ∧
    ∃ r', get id (part w') = Some r' ∧ evolves (answer_row st (Some now) (Some who) r) r'.
Proof using All.
  intros Hok Hg Hp Ha. unfold queue_respond, on_part, zoom, mbind, M_bind.
  rewrite respond_spec by apply Hok. rewrite Ha, Hg. unfold is_pending at 1.
  rewrite bool_decide_eq_true_2 by done.
  pose proof (keeps_respond id answer who now w Hok) as [Hk _].
  unfold on_part, zoom in Hk. rewrite respond_spec, Ha, Hg in Hk by apply Hok.
  unfold is_pending at 1 in Hk. rewrite bool_decide_eq_true_2 in Hk by done.
  simpl in Hk. set (w1 := set_part _ w) in *.
  assert (get id (part w1) = Some (answer_row st (Some now) (Some who) r)) as Hg1.
  { unfold w1. rewrite part_set, get_update, Hg by done. simpl.
    unfold has_id, is_pending. destruct (get_id _ _ _ Hg) as [-> _].
    by rewrite String.eqb_refl, bool_decide_eq_true_2. }
  match goal with |- context [record_row sf ?x] => destruct (record_row_ok x) as [Hrk Hrt] end.
  destruct (Hrk w1 Hk) as [Hk2 He2]. destruct (get_evolves _ _ _ _ Hg1 Hk2 He2) as (r' & ? & ? & _).
  destruct (record_row sf _ w1) as [[u|e] w2] eqn:E; (eexists _, w2; split; [reflexivity|]; split_and!; [|intros Hl|done|eauto]).
  - by intros row [= <-].
  - by eexists.
  - done.
  - destruct (Hrt Hl w1) as (u & w3 & E'). congruence.
Qed.

Lemma announce_lapse_ok r : keeps (announce_lapse sf r) ∧ (ledger_takes sf → total (announce_lapse sf r)).
Proof using All.
  destruct (settle_unrun_ok r call_expired) as [Hk Ht]. unfold announce_lapse.
  destruct (sf_notify_timeout sf) as [n|] eqn:Hn, (sf_deliver sf) as [d|] eqn:Hd;
    try pose proof (ok_notify n r Hn);
    try pose proof (λ s c x, ok_deliver d s c x Hd);
    (split; [|intros Hl]); destruct (_ && _); auto 8 with gov.
Qed.

Lemma queue_expire_ok now : keeps (queue_expire sf now) ∧ (ledger_takes sf → total (queue_expire sf now)).
Proof using All.
  unfold queue_expire.
  split; [apply keeps_bind; [auto with gov|]|intros Hl; apply total_bind].
  - intros rows. apply keeps_bind; [|auto with gov]. apply keeps_for_each.
    intros r. apply record_row_ok.
  - intros w. unfold on_part, zoom. rewrite expire_spec. by eexists _, _.
  - intros rows. apply total_bind; [|auto with gov]. apply total_for_each.
    intros r. by apply record_row_ok.
Qed.

Lemma sweep_total now : ledger_takes sf → total (sweep_expired sf now).
Proof using All.
  intros Hl. unfold sweep_expired. apply total_bind; [by apply queue_expire_ok|]. intros rows.
  apply total_bind; [|auto with gov]. apply total_for_each. intros r. by apply announce_lapse_ok.
Qed.

Lemma queue_expire_rows now w rows w' :
  table_ok (part w) → queue_expire sf now w = (Ok rows, w') →
  rows = map expire_row (list_pending true now (part w)) ∧ table_ok (part w') ∧
  table_evolves (update_where (is_due now) expire_row (part w)) (part w').
Proof using All.
  intros Hok. unfold queue_expire, on_part, zoom. unfold mbind, M_bind.
  pose proof (exec_ok (CExpire now) (part w) Hok) as [Hk _].
  rewrite expire_spec. simpl in Hk. rewrite expire_spec in Hk. simpl in Hk.
  assert (keeps (for_each (λ r, record_row sf (lapse_row r))
            (map expire_row (list_pending true now (part w))))) as Hkeep.
  { apply keeps_for_each. intros r. apply record_row_ok. }
  specialize (Hkeep (set_part (update_where (is_due now) expire_row (part w)) w)).
  rewrite part_set in Hkeep. specialize (Hkeep Hk).
  destruct (for_each _ _ _) as [[u|e] w2]; [|done]. intros [= <- <-]. by split.
Qed.

Lemma sweep_rows now w rows w' :
  table_ok (part w) → sweep_expired sf now w = (Ok rows, w') →
  rows = map expire_row (list_pending true now (part w)) ∧ table_ok (part w') ∧
  ∀ r, r ∈ list_pending true now (part w) →
       ∃ r', get (approval_id r) (part w') = Some r' ∧ status r' = timed_out.
Proof using All.
  intros Hok Hs. unfold sweep_expired, mbind, M_bind in Hs.
  destruct (queue_expire sf now w) as [[rows1|e] w1] eqn:Hq; [|done].
  apply queue_expire_rows in Hq as (-> & Hok1 & He1); [|done].
  assert (keeps (for_each (announce_lapse sf)
            (map expire_row (list_pending true now (part w))))) as Hkeep.
  { apply keeps_for_each. intros r. apply announce_lapse_ok. }
  specialize (Hkeep w1 Hok1). destruct (for_each _ _ w1) as [[u|e] w2]; [|done].
  injection Hs as <- <-. destruct Hkeep as [Hok2 He2]. split_and!; [done|done|].
  intros r Hr. unfold list_pending in Hr. rewrite sort_by_perm in Hr.
  apply elem_of_select_where in Hr as [Hin Hdue].
  destruct (He1 (expire_row r)) as (r1 & Hr1 & Hr1e).
  { apply elem_of_update_where. exists r. by rewrite Hdue. }
  destruct (He2 r1 Hr1) as (r2 & Hr2 & Hr2e). exists r2.
  destruct (transitivity Hr1e Hr2e) as (Hp & Hst & _).
  split; [|by apply Hst]. apply select_one_key_Some; [apply Hok2|].
  split; [done|]. by injection Hp.
Qed.

(** What the outcomes may report. *)
Lemma settle_deferred_outcome r w oc w' :
  settle_deferred_call sf r w = (Ok oc, w') →
  resumed oc = false ∧ (executed oc = true → status r = approved).
Proof using Type.
  unfold settle_deferred_call. case_bool_decide as Hs; simpl.
  - destruct (sf_execute sf) as [ex|]; run_monad; [|by intros [= <- _]].
    repeat case_match; intros; simplify_eq; by split.
  - destruct (sf_execute sf) as [ex|]; run_monad; repeat case_match; intros; simplify_eq; by split.
Qed.

Lemma continue_run_outcome r w oc w' :
  continue_run sf r w = (Ok oc, w') →
  executed oc = false ∧ (resumed oc = true → status r = approved ∨ items r ≠ None).
Proof using Type.
  unfold continue_run. destruct (_ && _) eqn:Hh; [by intros [= <- _]|].
  assert (status r = approved ∨ items r ≠ None) as Hr.
  { apply andb_false_iff in Hh as [Hh|Hh]; to_props; auto. }
  destruct (parse_checkpoint_id _) as [[[run step]|]|e]; [|by intros [= <- _]|done].
  destruct (sf_resume sf) as [f|]; run_monad; [|by intros [= <- _]].
  repeat case_match; intros; simplify_eq; by split.
Qed.
End service.

(** ** The decision survives whatever follows it *)

(** C18. A person's answer is recorded first and survives: when the approval is pending, the
    answer is one of the two the queue takes and this process can do what it sets off, then
    after [respond_to_approval], whether it returns or raises, and whatever the ledger, the
    resumed run, the executed call, the drift store or the notices do, even raise, the stored
    row has that answer, that actor and that time, with the calls it pinned unchanged.  It
    raises only when the ledger does not take a row (the database and the spool both fail) or
    when the row's checkpoint link is one [int] refuses.  A run is only continued by an approval or
    by the rejection of a pinned call, and a call is only reported run when the owner approved it. *)
Theorem respond_answer_survives {W} `{!Part W Table, !PartLaws W Table} (sf : Surfaces W)
    `{!SurfacesOk sf} id answer who now st r w :
  table_ok (part w) → get id (part w) = Some r → status r = pending →
  parse_answer answer = Some st →
  unrunnable sf answer (Some r) = None →
  ∃ x w' r', respond_to_approval sf id answer who now w = (x, w') ∧
    get id (part w') = Some r' ∧ pinned r' = pinned r ∧ status r' = st ∧
    response_actor r' = Some who ∧ responded_at r' = Some now ∧
    (ledger_takes sf → (∀ e, parse_checkpoint_id (checkpoint_id r) ≠ Raise e) → ∃ oc, x = Ok oc) ∧
    (∀ oc, x = Ok oc →
       (resumed oc = true → is_deferred_call r = false ∧ (st = approved ∨ items r ≠ None)) ∧
       (executed oc = true → is_deferred_call r = true ∧ st = approved)).
Proof.
  intros Hok Hg Hp Ha Hun.
  destruct (queue_respond_ok sf id answer who now st r w Hok Hg Hp Ha)
    as (x & w1 & Hq & Hrow & Htot & Hok1 & r1 & Hg1 & He1).
  rewrite respond_cases, Hg, Hun. unfold take_answer. unfold mbind at 1, M_bind. rewrite Hq.
  set (row := answer_row st (Some now) (Some who) r) in *.
  assert (st ≠ pending) as Hst by (apply parse_answer_Some in Ha; destruct Ha; subst; done).
  assert (∀ (m : M W ApprovalOutcome), keeps m → ∃ x w' r', m w1 = (x, w') ∧
      get id (part w') = Some r' ∧ pinned r' = pinned r ∧ status r' = st ∧
      response_actor r' = Some who ∧ responded_at r' = Some now) as Hfin.
  { intros m Hk. destruct (m w1) as [y w'] eqn:Hm. exists y, w'.
    specialize (Hk w1 Hok1). rewrite Hm in Hk. destruct Hk as [Hok' He'].
    destruct (get_evolves _ _ _ _ Hg1 Hok' He') as (r' & Hg' & He2 & _).
    exists r'. destruct (transitivity He1 He2) as (P1 & P2 & _). destruct (P2 Hst) as (-> & -> & ->). by split_and!. }
  destruct x as [row'|e]; cycle 1.
  { destruct (Hfin (raise e) (keeps_raise e)) as (x & w' & r' & [= <- <-] & H1 & H2 & H3 & H4 & H5).
    exists (Raise e), w1, r'. split_and!; [done..| |done]. intros Hl _. by destruct (Htot Hl). }
  rewrite (Hrow row' eq_refl). fold row. assert (is_deferred_call row = is_deferred_call r) as -> by done.
  destruct (is_deferred_call r) eqn:Hd.
  - destruct (settle_deferred_ok sf row) as [Hk Ht]. destruct (Hfin _ Hk) as (x & w' & r' & Hm & H1 & H2 & H3 & H4 & H5).
    exists x, w', r'. split_and!; [done..|intros Hl _; destruct (Ht Hl w1) as (oc & ? & E); exists oc; congruence|].
    intros oc ->. apply settle_deferred_outcome in Hm as [-> Hx]. split; [done|]. intros Hr. split; [done|]. exact (Hx Hr).
  - assert (keeps (settle_drift_exemptions sf row;; continue_run sf row)) as Hk
      by (apply keeps_bind; [by apply settle_drift_ok|intros _; by apply continue_run_keeps]).
    destruct (Hfin _ Hk) as (x & w' & r' & Hm & H1 & H2 & H3 & H4 & H5).
    exists x, w', r'. split_and!; [done..| |].
    + intros Hl Hcp. assert (total (settle_drift_exemptions sf row;; continue_run sf row)) as Ht
        by (apply total_bind; [by apply settle_drift_ok|intros _; by apply continue_run_total]).
      destruct (Ht w1) as (oc & ? & E). exists oc. congruence.
    + intros oc ->. revert Hm. unfold mbind, M_bind. destruct (settle_drift_exemptions _ _ _) as [[[]|e] w2]; [|done].
      intros [-> Hx]%continue_run_outcome. split; [|done]. intros Hr. split; [done|]. by destruct (Hx Hr) as [Hr'|Hr']; [left|right].
Qed.

(** ** Refusals change nothing *)

(** An answer the queue does not take changes nothing and says why: approving a call no
    runtime here can run leaves it waiting; an unknown id, an approval already answered or
    timed out and a word that is no answer raise the store's errors -- in each case with the
    table, the ledger and the rest of the world exactly as they were, and nothing is resumed
    or executed. *)
Theorem respond_refused {W} `{!Part W Table, !PartLaws W Table} (sf : Surfaces W)
    id answer who now w :
  table_ok (part w) →
  match get id (part w), parse_answer answer with
  | _, None => ∃ m, respond_to_approval sf id answer who now w = (Raise (Exn "ValueError" m), w)
  | None, Some _ => respond_to_approval sf id answer who now w = (Raise (not_found id), w)
  | Some r, Some st =>
      match unrunnable sf answer (Some r) with
      | Some _ => ∃ d, respond_to_approval sf id answer who now w = (Ok (outcome_of r false d), w)
      | None =>
          status r ≠ pending →
          ∃ m, respond_to_approval sf id answer who now w
               = (Raise (Exn "ApprovalAlreadyAnsweredError" m), w)
      end
  end.
Proof.
  intros Hok. rewrite respond_cases.
  assert (∀ e, respond id answer who now (part w) = (Raise e, part w) →
               take_answer sf id answer who now w = (Raise e, w)) as Href.
  { intros e He. unfold take_answer, queue_respond, on_part, zoom, mbind, M_bind.
    by rewrite He, set_part_part. }
  rewrite respond_spec in Href by apply Hok.
  destruct (parse_answer answer) as [st|] eqn:Ha.
  - destruct (get id (part w)) as [r|] eqn:Hg; [|by apply Href].
    destruct (unrunnable sf answer (Some r)) as [r'|] eqn:Hu.
    + unfold unrunnable in Hu. destruct (_ && _) in Hu; [|done]. injection Hu as <-. by eexists.
    + intros Hp. eexists. apply Href. unfold is_pending. by rewrite bool_decide_eq_false_2.
  - assert (unrunnable sf answer (get id (part w)) = None) as ->.
    { unfold unrunnable. destruct (get id (part w)); [|done]. unfold parse_answer in Ha.
      destruct (String.eqb answer "approved"); [done|]. by rewrite andb_false_r. }
    destruct (get id (part w)); eexists; by apply Href.
Qed.

(** ** The sweep *)

(** Every lapse is announced, once: a sweep returns exactly the overdue pending
    approvals, in the order they were requested, each now [timed_out]; as long as the ledger takes
    its rows it never raises, even when every channel, notice and executor does; and no later sweep, at any time and
    whatever happened in between, returns any of them again.  A sweep is here one step: of one
    whose two statements another process comes between, [answered_before_the_update] says what
    becomes. *)
Theorem sweep_announces_once {W} `{!Part W Table, !PartLaws W Table} (sf : Surfaces W)
    `{!SurfacesOk sf} now w :
  ledger_takes sf → table_ok (part w) →
  ∃ w', sweep_expired sf now w = (Ok (map expire_row (list_pending true now (part w))), w') ∧
    table_ok (part w') ∧
    (∀ r, r ∈ list_pending true now (part w) →
       ∃ r', get (approval_id r) (part w') = Some r' ∧ status r' = timed_out) ∧
    ∀ w1 now1 rows1 w1',
      table_ok (part w1) → table_evolves (part w') (part w1) →
      sweep_expired sf now1 w1 = (Ok rows1, w1') →
      ∀ r r1, r ∈ list_pending true now (part w) → r1 ∈ rows1 → approval_id r1 ≠ approval_id r.
Proof.
  intros Hl Hok.
  pose proof (sweep_rows sf) as Hrows.
  destruct (sweep_total sf now Hl w) as (rows & w' & Hs).
  destruct (Hrows _ _ _ _ Hok Hs) as (-> & Hok' & Hto).
  exists w'. split_and!; [done|done|done|].
  intros w1 now1 rows1 w1' Hok1 He1 Hs1 r r1 Hr Hr1 Hid.
  destruct (Hrows _ _ _ _ Hok1 Hs1) as (-> & _ & _).
  apply list_elem_of_fmap in Hr1 as (r2 & -> & Hr2). simpl in Hid.
  destruct (Hto r Hr) as (r' & Hg' & Ht').
  destruct (get_evolves _ _ _ _ Hg' Hok1 He1) as (r3 & Hg3 & (_ & Hst & _) & _).
  destruct (Hst ltac:(by rewrite Ht')) as (Hst3 & _ & _).
  unfold list_pending in Hr2. rewrite sort_by_perm in Hr2.
  apply elem_of_select_where in Hr2 as [Hin Hdue]. unfold is_due, is_pending in Hdue. to_props.
  assert (get (approval_id r2) (part w1) = Some r2) as Hg2.
  { apply select_one_key_Some; [apply Hok1|done]. }
  rewrite Hid in Hg2. congruence.
Qed.

(** ** Checkpoint links *)

(** The link the loop writes: [f"{run_id}:{step_id}"]. *)
Definition checkpoint_link (run : string) (step : N) : string :=
  run +:+ String ":" (pretty step).

(** A checkpoint link reads back as the run and step it was written for, whatever colons
    the run id has. *)
Theorem checkpoint_round_trip run step :
  str_truthy run = true →
  parse_checkpoint_id (Some (checkpoint_link run step)) = Ok (Some (run, Z.of_N step)).
Proof.
  intros Hr. destruct (int_of_pretty step) as [Hd Hi].
  unfold parse_checkpoint_id, nonempty, checkpoint_link.
  assert (str_truthy (run +:+ String ":" (pretty step)) = true) as ->.
  { destruct run; [done|]. by rewrite string_cons_app. }
  rewrite rpartition_app.
  - rewrite Hr, Hd. simpl. by rewrite Hi.
  - apply digits_free; [done|]. unfold isdigit in Hd. by apply andb_true_iff in Hd as [_ ?].
Qed.

Lemma checkpoint_round_trip_witness :
  parse_checkpoint_id (Some (checkpoint_link "a:b" 12)) = Ok (Some ("a:b", 12%Z)).
Proof. exact (checkpoint_round_trip "a:b" 12 eq_refl). Defined.

(** [str.isdigit] takes a superscript that [int] refuses: the one link that makes the answer
    raise after it was recorded. *)
Example superscript_step_raises :
  ∃ e, parse_checkpoint_id (Some ("r:" +:+ String (ascii_of_N 178) "")) = Raise e.
Proof. by eexists. Qed.

(** ** A desk: the table and its ledger *)

Record Desk := { desk_rows : Table; desk_log : list AuditRow }.

#[export] Instance desk_part : Part Desk Table :=
  {| part := desk_rows; set_part := λ t d, {| desk_rows := t; desk_log := desk_log d |} |}.
#[export] Instance desk_part_laws : PartLaws Desk Table.
Proof. split; [done|]. by intros []. Qed.

Definition broken {A} : M Desk A := raise (Exn "RuntimeError" "boom").

(** Everything past the answer fails. *)
Definition broken_surfaces : Surfaces Desk :=
  {| sf_record := Some (λ r d, (Ok 1%Z, {| desk_rows := desk_rows d;
                                           desk_log := desk_log d ++ [r] |}));
     sf_settle_run := λ _ _, broken; sf_resume := Some (λ _ _ _, broken);
     sf_execute := Some (λ _, broken); sf_settle_unrun := λ _ _, broken;
     sf_notify_timeout := Some (λ _, broken); sf_deliver := Some (λ _ _ _, broken) |}.

#[export] Instance broken_surfaces_ok : SurfacesOk broken_surfaces.
Proof.
  split; simpl; intros; simplify_eq; by intros w.
Qed.
Lemma broken_takes : ledger_takes broken_surfaces.
Proof. intros f r [= <-] w. by eexists _, _. Qed.

Definition desk : Desk := {| desk_rows := [new_row "a" 0 sample_enqueue]; desk_log := [] |}.

Lemma desk_ok : table_ok (part desk).
Proof. exact sample_table_ok. Qed.

Lemma respond_answer_survives_witness :
  ∃ oc w' r', respond_to_approval broken_surfaces "a" "approved" "owner" 7 desk = (Ok oc, w') ∧
    get "a" (part w') = Some r' ∧ status r' = approved ∧ map row_decision (desk_log w')
      = ["approved"; "call_failed"].
Proof.
  destruct (respond_answer_survives broken_surfaces "a" "approved" "owner" 7 approved
    (new_row "a" 0 sample_enqueue) desk desk_ok eq_refl eq_refl eq_refl eq_refl)
    as (x & w' & r' & Hr & Hg & _ & Hs & _ & _ & Hx & _).
  destruct (Hx broken_takes ltac:(discriminate)) as [oc ->].
  exists oc, w', r'. split; [exact Hr|]. split; [exact Hg|]. split; [exact Hs|].
  vm_compute in Hr. injection Hr as _ <-. reflexivity.
Defined.

Lemma respond_refused_witness :
  respond_to_approval broken_surfaces "b" "approved" "owner" 7 desk
  = (Raise (Exn "ApprovalNotFoundError" "b"), desk).
Proof. exact (respond_refused broken_surfaces "b" "approved" "owner" 7 desk desk_ok). Defined.

Lemma sweep_announces_once_witness :
  ∃ w', sweep_expired broken_surfaces 4000000000 desk
        = (Ok [expire_row (new_row "a" 0 sample_enqueue)], w') ∧
    (sweep_expired broken_surfaces 5000000000 w').1 = Ok [].
Proof.
  destruct (sweep_announces_once broken_surfaces 4000000000 desk broken_takes desk_ok)
    as (w' & Hs & _). exists w'. split; [exact Hs|].
  vm_compute in Hs. injection Hs as <-. reflexivity.
Defined.
