(* ===== verification/ApprovalHook.v ===== *)
(** * The destructive-approval hook ([plugins/destructive_approval.py])

    A call its declaration pins to an approval waits for the owner: the first attempt queues
    an itemised approval and asks; the approved re-execution is checked against the queue. *)

From S2P Require Import Prelude PyVal PyText Hooks CallContext Kernel Approvals ApprovalService.
From stdpp Require Import options.

Definition SIGNAL : string := "destructive_tool".
Definition DESTRUCTIVE_TIMEOUT_MINUTES : Z := 60.

(** [pinned_by_declaration(effect, confirm)] *)
Definition pinned_by_declaration (effect confirm : option pyval) : bool :=
  match effect with Some (VStr e) => String.eqb e "destructive" | _ => false end ||
  match confirm with Some (VStr c) => String.eqb c "approval" | _ => false end.

Definition approved_per_call (m : dict) : bool :=
  pinned_by_declaration (m !! TOOL_EFFECT) (m !! "tool_confirm") || is_true m "per_call_approval".

(** [_metadata_str] *)
Definition metadata_str (ctx : HookContext) (key : string) : option string :=
  nonempty (Some (str_strip (str_or_empty (metadata ctx !! key)))).

(** [raw if isinstance(raw, dict) else {}] *)
Definition dict_or_empty (raw : option pyval) : list (string * pyval) :=
  match raw with Some (VDict d) => d | _ => [] end.

Definition declares_write (d : list (string * pyval)) : bool :=
  match od_get "effect" d with Some (VStr e) => String.eqb e "write" | _ => false end.

Definition card_title (tool : string) (raw : option pyval) : string :=
  let d := dict_or_empty raw in
  let title := str_strip (str_or_empty (od_get "title" d)) in
  if str_truthy title then title
  else if declares_write d then tool +:+ " wants to act on your behalf"
  else tool +:+ " wants to delete or overwrite your data".

(** [isinstance(days, int) and days > 0]: a [bool] is an [int]. *)
Definition window_days (v : option pyval) : option Z :=
  match v with
  | Some (VInt n) => if (0 <? n)%Z then Some n else None
  | Some (VBool true) => Some 1%Z
  | _ => None
  end.

Definition str_if_truthy (v : option pyval) : option string :=
  match v with Some x => if truthy x then Some (str_val x) else None | None => None end.

(** [build_card]: iterating a [lines] that is no iterable raises. *)
Definition build_card (item : ApprovalItem) (raw : option pyval) : res ApprovalCard :=
  let d := dict_or_empty raw in
  match (match od_get "lines" d with
         | Some v => if truthy v then iter_val v else Ok []
         | None => Ok []
         end) with
  | Raise e => Raise e
  | Ok vs =>
      let shown := List.filter (λ s, str_truthy (str_strip s)) (map str_val vs) in
      let lines := match shown with [] => [render item] | _ => shown end in
      let why := str_strip (str_or_empty (od_get "reason" d)) in
      Ok {| card_title_text := card_title (item_tool item) raw;
            card_lines := if str_truthy why then lines ++ [why] else lines;
            undo_tool := str_if_truthy (od_get "undo_tool" d);
            undo_window_days := window_days (od_get "undo_window_days" d);
            asked := str_strip <$> str_if_truthy (od_get "asked" d);
            card_effect := if declares_write d then eff_write else eff_destructive |}
  end.

Definition summarise (c : ApprovalCard) (its : list ApprovalItem) : string :=
  join (String (ascii_of_N 10) "")
    (card_title_text c :: map (λ l, "- " +:+ l) (card_lines c) ++ [undo_sentence c]
     ++ match nonempty (asked c) with
        | Some a => ["You asked: " +:+ dquote +:+ a +:+ dquote]
        | None => []
        end
     ++ ["Exact call: " +:+ join "; " (map render its)]).

Section hook.
Context {W : Type} `{!Part W Table} (sf : Surfaces W).

(** What the hook was built with: a queue or none, a router or none, how long an approval
    stays answerable; and what it reads of the process (the clock, the next uuid, the turn). *)
Record DestructiveApprovalHook := {
  has_queue : bool;
  notify_router : option (ApprovalRow → M W unit);
  timeout_minutes : Z;
  clock : W → Z;
  fresh_uuid : W → string;
  current_turn_id : W → option string;
}.

Definition pinned_item (ctx : HookContext) : ApprovalItem :=
  ApprovalItem_of (str_or_empty (payload ctx !! TOOL_NAME)) (dict_or_empty (payload ctx !! ARGS)).

Definition verify_audit (id : string) (item : ApprovalItem) (who : option string)
    (row : option ApprovalRow) : dict :=
  let m := <["tool_name" := VStr (item_tool item)]> (<["approval_id" := VStr id]>
             {["caller" := opt_val who]}) in
  match nonempty (row ≫= ap_call_id) with
  | Some c => <[HELD_CALL_ID := VStr c]> m
  | None => m
  end.

(** [_verify] *)
Definition verify (h : DestructiveApprovalHook) (id : string) (item : ApprovalItem)
    (who : option string) : M W HookDecision :=
  row ← queue_get id;
  let audit := verify_audit id item who row in
  let no why := mk_decision deny ("destructive_approval: " +:+ why) warn audit in
  let yes := mk_decision allow ("destructive_approval: pinned by approved " +:+ id) info audit in
  match row with
  | None => mret (no ("approval " +:+ id +:+ " is missing"))
  | Some r =>
      if negb (bool_decide (status r = approved)) then
        mret (no ("approval " +:+ id +:+ " is " +:+ status_str (status r)))
      else if negb (bool_decide (item ∈ default [] (items r))) then
        mret (no (py_repr (item_tool item) +:+ " with these arguments is not what approval "
                  +:+ id +:+ " pinned"))
      else
        match caller r with
        | None => mret yes
        | Some c =>
            if negb (bool_decide (who = Some c)) then
              mret (no ("approval " +:+ id +:+ " was given to " +:+ c +:+ ", not "
                        +:+ default "None" who))
            else
              now ← gets (clock h);
              claimed ← queue_claim sf id now;
              match claimed with
              | None => mret (no ("approval " +:+ id +:+ " has already run"))
              | Some _ => mret yes
              end
        end
  end.

Definition is_deferred (ctx : HookContext) : bool := is_true (metadata ctx) "deferred_executor".

(** What [_request] enqueues. *)
Definition request_of (h : DestructiveApprovalHook) (ctx : HookContext) (item : ApprovalItem)
    (c : ApprovalCard) (turn : option string) : Enqueue :=
  {| eq_run_id := run_id ctx; eq_checkpoint_id := None; eq_signal := card_title_text c;
     eq_context_summary := summarise c [item];
     eq_channel := default "cli" (metadata_str ctx "origin_channel");
     eq_timeout_minutes := timeout_minutes h; eq_policy := "fail_closed";
     eq_session_id := metadata_str ctx "session_id"; eq_items := Some [item];
     eq_card := Some c;
     eq_caller := if is_deferred ctx then metadata_str ctx "caller" else None;
     eq_call_id := metadata_str ctx CALL_ID; eq_step_id := step_id ctx; eq_turn_id := turn |}.

(** [_request] *)
Definition request (h : DestructiveApprovalHook) (ctx : HookContext) (item : ApprovalItem)
    : M W HookDecision :=
  match build_card item (metadata ctx !! "approval_card") with
  | Raise e => raise e
  | Ok c =>
      turn ← gets (current_turn_id h);
      uuid ← gets (fresh_uuid h);
      now ← gets (clock h);
      id ← queue_enqueue sf uuid now (request_of h ctx item c turn);
      row ← queue_get id;
      match row, notify_router h with
      | Some r, Some notify => try_except (notify r) (λ _, mret tt)
      | _, _ => mret tt
      end;;
      mret {| outcome := require_approval;
              reason := "destructive_approval: " +:+ py_repr (item_tool item) +:+ " "
                +:+ (if bool_decide (card_effect c = eff_write) then "acts on the owner's behalf"
                     else "deletes or overwrites the owner's data")
                +:+ " and waits for their approval";
              transformed_payload := None; set_classification := None; set_tier := None;
              approval_request_id := Some id; severity := warn;
              audit_metadata := <["tool_name" := VStr (item_tool item)]>
                (<["approval_id" := VStr id]> {["signal" := VStr SIGNAL]});
              decided_by := None |}
  end.

Definition refuse_call (item : ApprovalItem) (why : string) : HookDecision :=
  mk_decision deny
    ("destructive_approval: " +:+ py_repr (item_tool item) +:+ " needs the owner's approval"
     +:+ why) warn {["tool_name" := VStr (item_tool item)]}.

(** [DestructiveApprovalHook.__call__] *)
Definition destructive_call (h : DestructiveApprovalHook) (ctx : HookContext) : M W HookDecision :=
  if negb (approved_per_call (metadata ctx)) then
    mret (mk_decision allow "destructive_approval: not approved per call" info ∅)
  else
    let item := pinned_item ctx in
    if negb (has_queue h) then
      mret (refuse_call item " and no approval queue is configured; nothing was changed")
    else if get_truthy (metadata ctx) "approved_by" then
      verify h (str_or_empty (metadata ctx !! "approved_by")) item (metadata_str ctx "caller")
    else if negb (is_true (metadata ctx) "resumable") && negb (is_deferred ctx) then
      mret (refuse_call item ", and this run cannot pause for one; nothing was changed")
    else request h ctx item.

Definition destructive_hook (ident : nat) (h : DestructiveApprovalHook) : Hook W :=
  {| hook_ident := ident; hook_name := "destructive_approval"; hook_at := PRE_TOOL_USE;
     hook_priority := 50; hook_call := destructive_call h; hook_bot := None |}.
End hook.
Arguments DestructiveApprovalHook W : clear implicits.

(** ** Facts *)

Section facts.
Context {W : Type} `{!Part W Table, !PartLaws W Table} (sf : Surfaces W) `{!SurfacesOk sf}.
Implicit Types (h : DestructiveApprovalHook W).

(** A successful claim: the row was approved and unclaimed, and is claimed now. *)
Lemma queue_claim_won id now w r' w' :
  table_ok (part w) → queue_claim sf id now w = (Ok (Some r'), w') →
  ∃ r, get id (part w) = Some r ∧ status r = approved ∧ executed_at r = None ∧
    ∃ r2, get id (part w') = Some r2 ∧ evolves (claim_row now r) r2.
Proof using All.
  intros Hok. unfold queue_claim, on_part, zoom. unfold mbind at 1, M_bind.
  rewrite claim_spec by apply Hok. destruct (get id (part w)) as [r|] eqn:Hg; [|done].
  destruct (_ && _) eqn:Hc; [|done]. to_props.
  set (w1 := set_part _ w).
  assert (get id (part w1) = Some (claim_row now r)) as Hg1.
  { unfold w1. rewrite part_set, get_update, Hg by done. simpl. unfold claimable, has_id.
    destruct (get_id _ _ _ Hg) as [-> _]. rewrite String.eqb_refl, !bool_decide_eq_true_2; done. }
  assert (table_ok (part w1)) as Hok1.
  { unfold w1. rewrite part_set.
    pose proof (exec_ok (CClaim id now) (part w) Hok) as [Hk _]. simpl in Hk.
    rewrite claim_spec, Hg, !bool_decide_eq_true_2 in Hk by (done || apply Hok). done. }
  unfold mbind, M_bind.
  match goal with |- context [record_row sf ?x] => destruct (record_row_ok sf x) as [Hk _] end.
  destruct (record_row sf _ w1) as [[u|e] w2] eqn:E; [|done]. intros [= _ <-].
  exists r. split_and!; [done..|]. destruct (Hk w1 Hok1) as [Hok2 He2].
  rewrite E in Hok2, He2. destruct (get_evolves _ _ _ _ Hg1 Hok2 He2) as (r2 & ? & ? & _). eauto.
Qed.

(** What an allow of [verify] rests on. *)
Definition authorised (item : ApprovalItem) (who : option string) (id : string) (w w' : W) : Prop :=
  ∃ r, get id (part w) = Some r ∧ status r = approved ∧ item ∈ default [] (items r) ∧
    match caller r with
    | None => w' = w
    | Some c => who = Some c ∧ executed_at r = None ∧
                ∃ r', get id (part w') = Some r' ∧ evolves r r' ∧ executed_at r' ≠ None
    end.

Lemma verify_allows h id item who w d w' :
  table_ok (part w) → verify sf h id item who w = (Ok d, w') → outcome d = allow →
  authorised item who id w w'.
Proof using All.
  intros Hok. unfold verify, queue_get, gets. unfold mbind at 1, M_bind. unfold compose.
  destruct (get id (part w)) as [r|] eqn:Hg; [|by intros [= <- <-]].
  case_bool_decide as Hs; simpl; [|by intros [= <- <-]].
  case_bool_decide as Hi; simpl; [|by intros [= <- <-]].
  destruct (caller r) as [c|] eqn:Hc.
  - case_bool_decide as Hw; simpl; [|by intros [= <- <-]]. unfold mbind, M_bind.
    destruct (queue_claim sf id (clock h w) w) as [[[r'|]|e] w1] eqn:Hq;
      [|by intros [= <- <-]|done].
    intros [= <- <-] _. exists r. split_and!; [done..|]. rewrite Hc.
    apply queue_claim_won in Hq as (r0 & Hg0 & _ & He & r2 & Hg2 & Hev); [|done].
    assert (r0 = r) as -> by congruence. split_and!; [done..|]. exists r2. split; [done|].
    assert (evolves r (claim_row (clock h w) r)) as Hcl by (split_and!; by rewrite ?He).
    split; [by etrans|]. destruct Hev as (_ & _ & Hex). by rewrite Hex.
  - intros [= <- <-] _. exists r. rewrite Hc. by split_and!.
Qed.
Lemma verify_outcome h id item who w d w' :
  verify sf h id item who w = (Ok d, w') → outcome d = allow ∨ outcome d = deny.
Proof using Type.
  unfold verify, queue_get, gets. unfold mbind at 1, M_bind.
  destruct ((get id ∘ part) w) as [r|]; [|intros [= <- <-]; by right].
  destruct (negb _); [intros [= <- <-]; by right|].
  destruct (negb _); [intros [= <- <-]; by right|].
  destruct (caller r) as [c|]; [|intros [= <- <-]; by left].
  destruct (negb _); [intros [= <- <-]; by right|]. unfold mbind, M_bind.
  destruct (queue_claim _ _ _ _) as [[[r'|]|e] w1]; intros [= <- <-]; [by left|by right].
Qed.

Lemma request_outcome h ctx item w d w' :
  request sf h ctx item w = (Ok d, w') → outcome d = require_approval.
Proof using Type.
  unfold request. destruct (build_card _ _) as [c|e]; [|done].
  unfold gets, queue_get, mbind, M_bind.
  destruct (queue_enqueue _ _ _ _ _) as [[id|e] w1]; [|done].
  repeat case_match; by intros [= <- _].
Qed.

Lemma destructive_call_pinned h ctx w d w' :
  table_ok (part w) → approved_per_call (metadata ctx) = true →
  destructive_call sf h ctx w = (Ok d, w') →
  outcome d ≠ transform ∧
  (outcome d = allow →
   get_truthy (metadata ctx) "approved_by" = true ∧
   authorised (pinned_item ctx) (metadata_str ctx "caller")
     (str_or_empty (metadata ctx !! "approved_by")) w w').
Proof using All.
  intros Hok Hpc. unfold destructive_call. rewrite Hpc. simpl.
  destruct (has_queue h); simpl; [|by intros [= <- <-]].
  destruct (get_truthy (metadata ctx) "approved_by") eqn:Ha.
  - intros Hv. split; [|intros Ho; split; [done|by eapply verify_allows]].
    apply verify_outcome in Hv. destruct Hv as [Hv|Hv]; by rewrite Hv.
  - destruct (_ && _); [by intros [= <- <-]|]. intros Hr%request_outcome. by rewrite Hr.
Qed.

Lemma destructive_call_authorised h ctx w d w' :
  table_ok (part w) → approved_per_call (metadata ctx) = true →
  destructive_call sf h ctx w = (Ok d, w') → outcome d = allow →
  authorised (pinned_item ctx) (metadata_str ctx "caller")
    (str_or_empty (metadata ctx !! "approved_by")) w w'.
Proof using All.
  intros Hok Hpc Hd Ho. by apply (destructive_call_pinned h ctx w d w' Hok Hpc Hd).
Qed.

Lemma queue_enqueue_ok uuid now e w :
  ledger_takes sf → table_ok (part w) → get uuid (part w) = None →
  ∃ w', queue_enqueue sf uuid now e w = (Ok uuid, w') ∧ table_ok (part w') ∧
    ∃ r, get uuid (part w') = Some r ∧ evolves (new_row uuid now e) r.
Proof using All.
  intros Hl Hok Hg. unfold queue_enqueue, on_part, zoom, mbind, M_bind.
  assert (existsb (has_id uuid) (part w) = false) as Hex.
  { apply not_true_iff_false. intros (r & Hr & Hid)%existsb_exists.
    rewrite (select_one_None _ _ r Hg) in Hid; [done|by apply list_elem_of_In]. }
  pose proof (exec_ok (CEnqueue uuid now e) (part w) Hok) as [Hk _].
  simpl in Hk. unfold enqueue in *. rewrite Hex in *. simpl in Hk.
  set (w1 := set_part _ w).
  assert (get uuid (part w1) = Some (new_row uuid now e)) as Hg1.
  { unfold w1. rewrite part_set. unfold get. rewrite select_one_app. unfold get in Hg.
    rewrite Hg. unfold select_one, has_id. simpl. by rewrite String.eqb_refl. }
  assert (table_ok (part w1)) as Hok1 by (unfold w1; by rewrite part_set).
  match goal with |- context [record_row sf ?x] => destruct (record_row_ok sf x) as [Hrk Hrt] end.
  destruct (Hrt Hl w1) as (u & w2 & E). rewrite E. exists w2. split; [done|].
  destruct (Hrk w1 Hok1) as [Hok2 He2]. rewrite E in Hok2, He2. split; [done|].
  destruct (get_evolves _ _ _ _ Hg1 Hok2 He2) as (r' & ? & ? & _). eauto.
Qed.
End facts.

(** C31. A pinned call passes only on the owner's word: when the hook lets a call that waits
    for a pinned approval through, the call named an approval that the queue holds, that is
    [approved], and that pins exactly this tool with exactly these arguments; and if a code
    caller asked for it, this call is made as that caller, no execution had claimed it before
    and it is claimed now.  A changed argument, a second item, a forged id or another caller
    is never let through, and the hook never rewrites a call.  An approval a loop asked for has no caller
    and the hook keeps no count of its executions: a second execution is refused only for a code caller's. *)
Theorem destructive_allow_authorised {W} `{!Part W Table, !PartLaws W Table} (sf : Surfaces W)
    `{!SurfacesOk sf} (h : DestructiveApprovalHook W) ctx w d w' :
  table_ok (part w) → approved_per_call (metadata ctx) = true →
  destructive_call sf h ctx w = (Ok d, w') →
  outcome d ≠ transform ∧
  (outcome d = allow →
   get_truthy (metadata ctx) "approved_by" = true ∧
   authorised (pinned_item ctx) (metadata_str ctx "caller")
     (str_or_empty (metadata ctx !! "approved_by")) w w').
Proof. intros Hok Hpc Hd. by apply (destructive_call_pinned sf h ctx w d w' Hok Hpc Hd). Qed.

(** An approved call of a code caller runs at most once: after one call was let through
    on an approval, no later call naming it is, whatever its arguments, caller or hook, and
    whatever was answered, linked, expired, claimed or queued in between. *)
Theorem approved_call_runs_once {W} `{!Part W Table, !PartLaws W Table} (sf : Surfaces W)
    `{!SurfacesOk sf} (h1 h2 : DestructiveApprovalHook W) ctx1 ctx2 w w' w1 w1' d1 d2 id r :
  str_or_empty (metadata ctx1 !! "approved_by") = id →
  str_or_empty (metadata ctx2 !! "approved_by") = id →
  approved_per_call (metadata ctx1) = true → approved_per_call (metadata ctx2) = true →
  table_ok (part w) → get id (part w) = Some r → caller r ≠ None →
  destructive_call sf h1 ctx1 w = (Ok d1, w') → outcome d1 = allow →
  table_ok (part w1) → table_evolves (part w') (part w1) →
  destructive_call sf h2 ctx2 w1 = (Ok d2, w1') → outcome d2 ≠ allow.
Proof.
  intros Hid1 Hid2 Hp1 Hp2 Hok Hg Hc H1 Ho1 Hok1 He H2 Ho2.
  destruct (destructive_call_authorised sf h1 ctx1 w d1 w' Hok Hp1 H1 Ho1) as (r1 & Hg1 & _ & _ & A1).
  rewrite Hid1, Hg in Hg1. injection Hg1 as <-.
  destruct (caller r) as [c|] eqn:Hcr; [|done].
  destruct A1 as (_ & _ & r' & Hg' & (Hpin & _) & Hx). rewrite Hid1 in Hg'.
  destruct (destructive_call_authorised sf h2 ctx2 w1 d2 w1' Hok1 Hp2 H2 Ho2)
    as (r2 & Hg2 & _ & _ & A2).
  rewrite Hid2 in Hg2.
  destruct (get_evolves _ _ _ _ Hg' Hok1 He) as (r3 & Hg3 & (Hpin3 & _ & Hx3) & _).
  assert (r3 = r2) as -> by congruence. rewrite Hpin in Hpin3.
  assert (caller r2 = Some c) as Hc2 by (injection Hpin3; congruence).
  rewrite Hc2 in A2. destruct A2 as (_ & A2 & _). by rewrite (Hx3 Hx) in A2.
Qed.

(** Asking pins the call: as long as the ledger takes its rows, a pinned call a run can wait for is answered with a request
    for approval carrying the id of a new row, and that row -- whatever the router did with
    it -- pins exactly this one call, for this run, with the asking caller on it when the
    harness itself is to run it, and the deadline the hook was built with. *)
Theorem destructive_request_pins {W} `{!Part W Table, !PartLaws W Table} (sf : Surfaces W)
    `{!SurfacesOk sf} (h : DestructiveApprovalHook W) ctx w c :
  ledger_takes sf → table_ok (part w) → approved_per_call (metadata ctx) = true → has_queue h = true →
  get_truthy (metadata ctx) "approved_by" = false →
  is_true (metadata ctx) "resumable" = true ∨ is_deferred ctx = true →
  build_card (pinned_item ctx) (metadata ctx !! "approval_card") = Ok c →
  (∀ f r, notify_router h = Some f → keeps (f r)) →
  get (fresh_uuid h w) (part w) = None →
  ∃ d w' r, destructive_call sf h ctx w = (Ok d, w') ∧
    outcome d = require_approval ∧ approval_request_id d = Some (fresh_uuid h w) ∧
    get (fresh_uuid h w) (part w') = Some r ∧
    items r = Some [pinned_item ctx] ∧ ap_run_id r = run_id ctx ∧
    caller r = (if is_deferred ctx then metadata_str ctx "caller" else None) ∧
    timeout_at r = (clock h w + timeout_minutes h * MINUTE)%Z.
Proof.
  intros Hl Hok Hpc Hq Ha Hr Hcard Hn Hfresh. unfold destructive_call.
  rewrite Hpc, Hq, Ha. simpl.
  assert (negb (is_true (metadata ctx) "resumable") && negb (is_deferred ctx) = false) as ->.
  { destruct Hr as [-> | ->]; [done|by rewrite andb_false_r]. }
  unfold request. rewrite Hcard. unfold gets.
  set (rq := request_of h ctx (pinned_item ctx) c (current_turn_id h w)).
  destruct (queue_enqueue_ok sf (fresh_uuid h w) (clock h w) rq w Hl Hok Hfresh)
    as (w1 & He & Hok1 & r1 & Hg1 & Hr1).
  unfold mbind, M_bind. fold rq. rewrite He. unfold queue_get, gets, compose. rewrite Hg1.
  set (nt := match notify_router h with
             | Some notify => try_except (notify r1) (λ _, mret tt)
             | None => mret tt
             end : M W unit).
  assert (keeps nt ∧ total nt) as [Hnk Hnt].
  { unfold nt. destruct (notify_router h) as [f|] eqn:Hf; [|auto with gov].
    specialize (Hn f r1 eq_refl). auto with gov. }
  destruct (Hnt w1) as (u & w2 & E). rewrite E. 
  destruct (Hnk w1 Hok1) as [Hok2 He2]. rewrite E in Hok2, He2.
  destruct (get_evolves _ _ _ _ Hg1 Hok2 He2) as (r2 & Hg2 & Hr2 & _).
  eexists _, w2, r2. split; [reflexivity|].
  destruct (transitivity Hr1 Hr2) as (Hp & _). injection Hp. intros.
  split_and!; try done; congruence.
Qed.

(** ** A call held, approved, run once and refused the second time *)

Definition desk_hook : DestructiveApprovalHook Desk :=
  {| has_queue := true; notify_router := Some (λ _, broken); timeout_minutes := 60;
     clock := λ _, 1000%Z; fresh_uuid := λ d, "id" +:+ pretty (length (desk_rows d));
     current_turn_id := λ _, None |}.

Definition rm_call (m : dict) : HookContext :=
  {| ctx_hook_point := PRE_TOOL_USE; run_id := "run"; agent_type := "chat"; step_id := None;
     persona := None; route := None;
     payload := <[TOOL_NAME := VStr "rm"]> {[ ARGS := VDict [("path", VStr "x")] ]};
     classification := None; tier := None;
     metadata := <[TOOL_EFFECT := VStr "destructive"]>
                   (<["deferred_executor" := VBool true]> (<["caller" := VStr "plugin:x"]> m)) |}.

Definition ask : HookContext := rm_call ∅.
Definition run_approved : HookContext := rm_call {[ "approved_by" := VStr "id0" ]}.

Definition empty_desk : Desk := {| desk_rows := []; desk_log := [] |}.
Definition held_desk : Desk := (destructive_call broken_surfaces desk_hook ask empty_desk).2.
Definition approved_desk : Desk :=
  (queue_respond broken_surfaces "id0" "approved" "owner" 2000 held_desk).2.
Definition ran_desk : Desk :=
  (destructive_call broken_surfaces desk_hook run_approved approved_desk).2.

Lemma held_history : ∃ evs,
  history [CEnqueue "id0" 1000 (request_of desk_hook ask (pinned_item ask)
             {| card_title_text := "rm wants to delete or overwrite your data";
                card_lines := [render (pinned_item ask)]; undo_tool := None;
                undo_window_days := None; asked := None; card_effect := eff_destructive |} None);
           CRespond "id0" "approved" "owner" 2000] [] = (evs, part approved_desk).
Proof. eexists. vm_compute. reflexivity. Qed.

Lemma approved_desk_ok : table_ok (part approved_desk).
Proof.
  destruct held_history as (evs & Hh). eapply exec_history_ok; [|exact Hh]. split; constructor.
Qed.

Lemma ran_history : ∃ evs,
  history [CClaim "id0" 1000] (part approved_desk) = (evs, part ran_desk).
Proof. eexists. vm_compute. reflexivity. Qed.

Lemma ran_desk_ok : table_ok (part ran_desk).
Proof. destruct ran_history as (evs & Hh). eapply exec_history_ok; [apply approved_desk_ok|exact Hh]. Qed.

Lemma empty_desk_ok : table_ok (part empty_desk).
Proof. split; constructor. Qed.

Lemma destructive_request_pins_witness :
  ∃ d w' r, destructive_call broken_surfaces desk_hook ask empty_desk = (Ok d, w') ∧
    outcome d = require_approval ∧ items r = Some [pinned_item ask].
Proof.
  destruct (destructive_request_pins broken_surfaces desk_hook ask empty_desk _ broken_takes empty_desk_ok
    ltac:(vm_compute; reflexivity) eq_refl ltac:(vm_compute; reflexivity)
    ltac:(right; vm_compute; reflexivity) ltac:(vm_compute; reflexivity)
    ltac:(intros f r [= <-]; apply keeps_raise) ltac:(vm_compute; reflexivity))
    as (d & w' & r & Hc & Ho & _ & _ & Hi & _).
  exists d, w', r. split; [exact Hc|]. split; [exact Ho|exact Hi].
Defined.

Lemma destructive_allow_authorised_witness :
  ∃ d, destructive_call broken_surfaces desk_hook run_approved approved_desk = (Ok d, ran_desk) ∧
    outcome d = allow ∧
    authorised (pinned_item run_approved) (Some "plugin:x") "id0" approved_desk ran_desk.
Proof.
  eexists. split; [vm_compute; reflexivity|]. split; [reflexivity|].
  refine (proj2 (proj2 (destructive_allow_authorised broken_surfaces desk_hook run_approved
    approved_desk _ ran_desk approved_desk_ok _ _) _)); vm_compute; reflexivity.
Defined.

Lemma approved_call_runs_once_witness :
  ∃ d w', destructive_call broken_surfaces desk_hook run_approved ran_desk = (Ok d, w') ∧
    outcome d ≠ allow.
Proof.
  eexists _, _. split; [vm_compute; reflexivity|].
  refine (approved_call_runs_once broken_surfaces desk_hook desk_hook run_approved run_approved
    approved_desk ran_desk ran_desk _ _ _ "id0" _ _ _ _ _ approved_desk_ok _ _ _ _ ran_desk_ok _ _);
    first [discriminate | reflexivity | vm_compute; reflexivity].
Defined.
