(* ===== verification/Bots.v ===== *)
(** * Bot identities ([bots/store.py], [bots/service.py], [plugins/bot_status.py])

    The table with one row per bot, the audited service over it and the hook that denies
    every call of a bot that is not active, with its cache. *)

From S2P Require Import Prelude PyVal PyText Hooks Kernel.
From stdpp Require Import options.

Inductive BotStatus := active | disabled | revoked.

#[export] Instance BotStatus_eq_dec : EqDecision BotStatus.
Proof. solve_decision. Defined.

Definition bot_status_str (s : BotStatus) : string :=
  match s with active => "active" | disabled => "disabled" | revoked => "revoked" end.

(** [validate_bot_status] *)
Definition validate_bot_status (s : string) : res BotStatus :=
  if String.eqb s "active" then Ok active
  else if String.eqb s "disabled" then Ok disabled
  else if String.eqb s "revoked" then Ok revoked
  else Raise (Exn "ValueError"
         ("status must be one of active, disabled, revoked; got " +:+ py_repr s)).

Definition BOT_SCOPE_PREFIX : string := "bot:".

Definition in_range (lo hi : N) (c : ascii) : bool :=
  let n := N_of_ascii c in (lo <=? n)%N && (n <=? hi)%N.

Definition is_lower (c : ascii) : bool := in_range 97 122 c.
Definition is_name_char (c : ascii) : bool :=
  is_lower c || in_range 48 57 c || char_is 95 c || char_is 45 c.

(** [_NAME.fullmatch]: a lower-case letter, then 1 to 31 letters, digits, [_] or [-]. *)
Definition name_matches (s : string) : bool :=
  match s with
  | EmptyString => false
  | String c s' => is_lower c && str_all is_name_char s'
                   && Nat.leb 1 (String.length s') && Nat.leb (String.length s') 31
  end.

Definition validate_bot_name (s : string) : res string :=
  if name_matches s then Ok s
  else Raise (Exn "ValueError"
    ("a bot name is 2 to 32 lower-case letters, digits, '_' or '-', starting with a letter; got "
     +:+ py_repr s)).

Definition validate_definition_sha256 (digest : string) : res string :=
  let v := str_lower digest in
  if Nat.eqb (String.length v) 64 && str_all (λ c, in_range 48 57 c || in_range 97 102 c) v
  then Ok v
  else Raise (Exn "ValueError" "definition_sha256 must be 64 hexadecimal characters").

Record BotIdentity := {
  bot_id : string;
  bot_name : string;
  bot_status : BotStatus;
  workspace_path : string;
  vault_namespace : string;
  memory_scope : string;
  definition_sha256 : string;
  created_at : Z;
  updated_at : Z;
  revoked_at : option Z;
}.

#[export] Instance BotIdentity_eq_dec : EqDecision BotIdentity.
Proof. solve_decision. Defined.

Abbreviation BotTable := (list BotIdentity).

(** ** The workspace of a bot *)

(** What the operating system answers about paths. *)
Record FileSystem := {
  fs_home : string;                       (* the resolved Evarness home *)
  fs_expanduser : string → string;
  fs_resolve : string → string;
  fs_exists : string → bool;
  fs_samefile : string → string → bool;
}.

(** [bot_workspace(name)] for a valid name. *)
Definition bot_workspace (fs : FileSystem) (name : string) : string :=
  fs_home fs +:+ "/bots/" +:+ name.

Definition resolve_workspace (fs : FileSystem) (name raw : string) : res string :=
  let expected := bot_workspace fs name in
  if negb (str_truthy raw) then Raise (Exn "ValueError" "workspace_path must not be empty")
  else
    let path := fs_expanduser fs raw in
    if negb (startswith "/" path) then
      Raise (Exn "ValueError" ("workspace_path must be absolute; got " +:+ py_repr raw))
    else
      let resolved := fs_resolve fs path in
      let same := String.eqb (str_lower resolved) (str_lower expected) in
      let same := if same && fs_exists fs resolved && fs_exists fs expected
                  then fs_samefile fs resolved expected else same in
      if same then Ok expected
      else Raise (Exn "ValueError"
        ("workspace_path must be " +:+ expected +:+ " (<home>/bots/<name>); got " +:+ py_repr raw)).

(** ** The store *)

Definition named (name : string) (b : BotIdentity) : bool := String.eqb (bot_name b) name.
Definition with_bot_id (id : string) (b : BotIdentity) : bool := String.eqb (bot_id b) id.

Definition bot_get (name : string) (t : BotTable) : option BotIdentity := select_one (named name) t.

Definition is_revoked (b : BotIdentity) : bool := bool_decide (bot_status b = revoked).

Definition redefine (digest : string) (now : Z) (b : BotIdentity) : BotIdentity :=
  {| bot_id := bot_id b; bot_name := bot_name b; bot_status := bot_status b;
     workspace_path := workspace_path b; vault_namespace := vault_namespace b;
     memory_scope := memory_scope b; definition_sha256 := digest; created_at := created_at b;
     updated_at := now; revoked_at := revoked_at b |}.

Definition switch (st : BotStatus) (now : Z) (b : BotIdentity) : BotIdentity :=
  {| bot_id := bot_id b; bot_name := bot_name b; bot_status := st;
     workspace_path := workspace_path b; vault_namespace := vault_namespace b;
     memory_scope := memory_scope b; definition_sha256 := definition_sha256 b;
     created_at := created_at b; updated_at := now;
     revoked_at := if bool_decide (st = revoked) then Some now else revoked_at b |}.

Definition new_bot (id name workspace digest : string) (now : Z) : BotIdentity :=
  {| bot_id := id; bot_name := name; bot_status := active; workspace_path := workspace;
     vault_namespace := BOT_SCOPE_PREFIX +:+ name; memory_scope := BOT_SCOPE_PREFIX +:+ name;
     definition_sha256 := digest; created_at := now; updated_at := now; revoked_at := None |}.

(** The [UNIQUE] columns of the schema. *)
Definition clashes (b b' : BotIdentity) : bool :=
  String.eqb (bot_id b) (bot_id b') || String.eqb (bot_name b) (bot_name b')
  || String.eqb (vault_namespace b) (vault_namespace b')
  || String.eqb (memory_scope b) (memory_scope b').

Definition fetch_bot (id : string) : M BotTable BotIdentity := λ t,
  match select_one (with_bot_id id) t with
  | Some b => (Ok b, t)
  | None => (Raise (Exn "TypeError" "'NoneType' object is not subscriptable"), t)
  end.

Definition insert_bot (b : BotIdentity) : M BotTable unit := λ t,
  if existsb (clashes b) t then
    (Raise (Exn "IntegrityError" "UNIQUE constraint failed: bot_identity"), t)
  else (Ok tt, t ++ [b]).

(** The transaction of [register]: [name], [digest] and [workspace] are validated. *)
Definition register_row (name digest workspace : string) (now : Z) (ulid : string)
    : M BotTable BotIdentity :=
  existing ← gets (bot_get name);
  match existing with
  | Some row =>
      if is_revoked row then
        raise (Exn "BotRevokedError"
          ("bot " +:+ py_repr name +:+ " is revoked and cannot be registered"))
      else if negb (String.eqb (workspace_path row) workspace) then
        raise (Exn "ValueError"
          ("bot " +:+ py_repr name +:+ " is registered with workspace "
           +:+ py_repr (workspace_path row) +:+ "; a register with " +:+ py_repr workspace
           +:+ " is refused (the workspace never moves)"))
      else
        modify (update_where (with_bot_id (bot_id row)) (redefine digest now));;
        fetch_bot (bot_id row)
  | None =>
      shared ← gets (select_one (λ o, String.eqb (str_lower (workspace_path o))
                                        (str_lower workspace)));
      match shared with
      | Some other =>
          raise (Exn "ValueError"
            ("workspace " +:+ py_repr workspace +:+ " is the workspace of bot "
             +:+ py_repr (bot_name other) +:+ "; two bots never share a folder (B3)"))
      | None =>
          insert_bot (new_bot ulid name workspace digest now);;
          fetch_bot ulid
      end
  end.

Definition bot_register (fs : FileSystem) (name workspace digest : string) (now : Z)
    (ulid : string) : M BotTable BotIdentity :=
  name ← lift_res (validate_bot_name name);
  digest ← lift_res (validate_definition_sha256 digest);
  workspace ← lift_res (resolve_workspace fs name workspace);
  register_row name digest workspace now ulid.

Definition bot_set_status (name status : string) (now : Z) : M BotTable BotIdentity :=
  target ← lift_res (validate_bot_status status);
  existing ← gets (bot_get name);
  match existing with
  | None => raise (Exn "BotNotFoundError" name)
  | Some row =>
      if is_revoked row then
        raise (Exn "BotRevokedError" ("bot " +:+ py_repr name +:+ " is revoked; revoked is terminal"))
      else
        modify (update_where (with_bot_id (bot_id row)) (switch target now));;
        fetch_bot (bot_id row)
  end.

(** [ORDER BY created_at, bot_id] *)
Fixpoint insert_bot_order (b : BotIdentity) (l : BotTable) : BotTable :=
  match l with
  | [] => [b]
  | c :: l' =>
      if ((created_at b <? created_at c)
          || ((created_at b =? created_at c) && String.ltb (bot_id b) (bot_id c)))%Z
      then b :: l else c :: insert_bot_order b l'
  end.

Definition bot_list (t : BotTable) : BotTable :=
  fold_left (λ acc b, insert_bot_order b acc) t [].

(** ** The service *)

Section service.
Context {W : Type} `{!Part W BotTable} (fs : FileSystem).
Context (is_bot_process : bool) (record : AuditRow → M W Z).

Definition refuse_in_a_bot (event : string) : M W unit :=
  if is_bot_process then
    raise (Exn "BotWriteRefusedError"
      (event +:+ ": a bot's own process (EVARNESS_BOT set) may not change a bot identity"))
  else mret tt.

Definition bot_row (b : BotIdentity) (actor why event sev : string) : AuditRow :=
  {| row_run_id := "bot:" +:+ bot_name b; row_step_id := None; row_agent_type := "bots";
     row_hook_point := "bot_identity"; row_plugin := "BotService"; row_decision := "allow";
     row_severity := sev; row_reason := why; row_classification := None; row_tier := None;
     row_payload := <["event" := VStr event]> (<["subject_bot_id" := VStr (bot_id b)]>
       (<[BOT_NAME := VStr (bot_name b)]> (<["status" := VStr (bot_status_str (bot_status b))]>
       (<["definition_sha256" := VStr (definition_sha256 b)]> {["actor" := VStr actor]})))) |}.

Definition service_register (name workspace digest actor : string) (now : Z) (ulid : string)
    : M W BotIdentity :=
  refuse_in_a_bot "bot.register";;
  before ← gets (bot_get name ∘ part);
  row ← on_part (bot_register fs name workspace digest now ulid);
  record (bot_row row actor
    ("bot " +:+ py_repr (bot_name row)
     +:+ (match before with None => " registered" | Some _ => " re-registered (definition updated)" end))
    "bot.register" "info");;
  mret row.

Definition service_set_status (name status actor : string) (now : Z) : M W BotIdentity :=
  refuse_in_a_bot "bot.status";;
  row ← on_part (bot_set_status name status now);
  record (bot_row row actor
    ("bot " +:+ py_repr (bot_name row) +:+ " set to " +:+ bot_status_str (bot_status row))
    "bot.status" (if bool_decide (bot_status row = revoked) then "warn" else "info"));;
  mret row.
End service.

(** ** The hook *)

(** Which bot a process runs: the pinned read of [EVARNESS_BOT]. *)
Inductive ProcessBot :=
| OwnerProcess
| BotProcess (name : string)
| InvalidBot (err : string).

(** [_read_bot_env] *)
Definition read_bot_env (value : string) : ProcessBot :=
  let raw := str_strip value in
  if negb (str_truthy raw) then OwnerProcess
  else match validate_bot_name raw with
       | Ok n => BotProcess n
       | Raise e => InvalidBot (exn_str e)
       end.

Record BotCache := {
  cached : option BotIdentity;
  cached_at : option Z;
  kept_bot_id : option string;
}.

Definition empty_cache : BotCache := {| cached := None; cached_at := None; kept_bot_id := None |}.

(** [_cached_at is not None and now - _cached_at < ttl] *)
Definition is_fresh (ttl now : Z) (c : BotCache) : bool :=
  match cached_at c with Some t => (now - t <? ttl)%Z | None => false end.

Section bot_hook.
Context (ttl : Z) (who : ProcessBot).

(** One reading of the process: the monotonic clock, and what the store would answer. *)
Record Reading := { now_at : Z; store_answer : string → res (option BotIdentity) }.

(** [_read] *)
Definition cache_read (rd : Reading) (name : string) : M BotCache (option BotIdentity) := λ c,
  if is_fresh ttl (now_at rd) c then (Ok (cached c), c)
  else match store_answer rd name with
       | Raise e => (Raise e, c)
       | Ok row => (Ok row, {| cached := row; cached_at := Some (now_at rd);
                               kept_bot_id := match row with
                                              | Some b => Some (bot_id b)
                                              | None => kept_bot_id c
                                              end |})
       end.

(** [audit_bot_id] *)
Definition audit_bot_id (rd : Reading) : M BotCache (option string) :=
  match who with
  | BotProcess name => λ c,
      match kept_bot_id c with
      | Some b => (Ok (Some b), c)
      | None => match cache_read rd name c with
                | (Ok _, c') => (Ok (kept_bot_id c'), c')
                | (Raise _, c') => (Ok None, c')
                end
      end
  | _ => mret None
  end.

Definition invalidate : M BotCache unit :=
  modify (λ c, {| cached := None; cached_at := None; kept_bot_id := kept_bot_id c |}).

Definition bot_deny (why : string) (m : dict) : HookDecision :=
  mk_decision deny ("bot_status: " +:+ why)
    (match m !! "error" with Some _ => error | None => warn end) m.

(** [BotStatusHook.__call__] *)
Definition bot_status_call (rd : Reading) : M BotCache HookDecision :=
  match who with
  | InvalidBot err =>
      mret (bot_deny ("EVARNESS_BOT is not a valid bot name (" +:+ err +:+ "); every call is denied")
              {["error" := VStr "InvalidBotName"]})
  | OwnerProcess => mret (mk_decision allow "bot_status: not a bot process" info ∅)
  | BotProcess name => λ c,
      match (if is_fresh ttl (now_at rd) c then (Ok (cached c), c) else cache_read rd name c) with
      | (Raise e, c') =>
          (Ok (bot_deny ("the bot identity store could not be read (" +:+ exn_class e
                 +:+ "); every call is denied until it can")
                 (<["bot_name" := VStr name]> {["error" := VStr (exn_class e)]})), c')
      | (Ok None, c') =>
          (Ok (bot_deny ("bot " +:+ py_repr name +:+ " has no identity row; register it before it runs")
                 (<["bot_name" := VStr name]> {["status" := VStr "unregistered"]})), c')
      | (Ok (Some b), c') =>
          if bool_decide (bot_status b = active) then
            (Ok (mk_decision allow ("bot_status: bot " +:+ py_repr (bot_name b) +:+ " is active") info
                   (<[BOT_ID := VStr (bot_id b)]> {[BOT_NAME := VStr (bot_name b)]})), c')
          else
            (Ok (bot_deny ("bot " +:+ py_repr (bot_name b) +:+ " is " +:+ bot_status_str (bot_status b)
                   +:+ "; its calls are denied")
                   (<[BOT_ID := VStr (bot_id b)]> (<[BOT_NAME := VStr (bot_name b)]>
                     {["status" := VStr (bot_status_str (bot_status b))]}))), c')
      end
  end.
End bot_hook.

(** [BotStatusHook] as the kernel registers it, over a world that holds its cache. *)
Definition bot_status_hook {W} `{!Part W BotCache} (ident : nat) (ttl : Z) (who : ProcessBot)
    (read : W → Reading) : Hook W :=
  {| hook_ident := ident; hook_name := BOT_STATUS_HOOK; hook_at := PRE_TOOL_USE;
     hook_priority := 5;
     hook_call := λ _ w, on_part (bot_status_call ttl who (read w)) w;
     hook_bot := Some (λ w, on_part (audit_bot_id ttl who (read w)) w) |}.

(** ** The table's invariant *)

Section store_facts.
Context (fs : FileSystem).

(** A row as the kernel promises it. *)
Definition bot_ok (b : BotIdentity) : Prop :=
  validate_bot_name (bot_name b) = Ok (bot_name b) ∧
  workspace_path b = bot_workspace fs (bot_name b) ∧
  vault_namespace b = BOT_SCOPE_PREFIX +:+ bot_name b ∧
  memory_scope b = BOT_SCOPE_PREFIX +:+ bot_name b ∧
  (bot_status b = revoked ↔ revoked_at b ≠ None).

Definition bots_ok (t : BotTable) : Prop :=
  NoDup (map bot_id t) ∧ NoDup (map bot_name t) ∧ Forall bot_ok t.

(** What may become of a row: its identity never changes, and a revoked row never does. *)
Definition bot_evolves (b b' : BotIdentity) : Prop :=
  (bot_id b', bot_name b', workspace_path b', vault_namespace b', memory_scope b', created_at b')
  = (bot_id b, bot_name b, workspace_path b, vault_namespace b, memory_scope b, created_at b) ∧
  (bot_status b = revoked → b' = b).

#[export] Instance bot_evolves_preorder : PreOrder bot_evolves.
Proof.
  split.
  - by intros b.
  - intros b1 b2 b3 [E1 R1] [E2 R2]. split; [congruence|].
    intros Hr. rewrite <- (R1 Hr). apply R2. by rewrite (R1 Hr).
Qed.

Definition bots_evolve (t t' : BotTable) : Prop := ∀ b, b ∈ t → ∃ b', b' ∈ t' ∧ bot_evolves b b'.

#[export] Instance bots_evolve_preorder : PreOrder bots_evolve.
Proof.
  split.
  - intros t b Hb. by exists b.
  - intros t1 t2 t3 H1 H2 b Hb. destruct (H1 b Hb) as (b1 & Hb1 & E1).
    destruct (H2 b1 Hb1) as (b2 & Hb2 & E2). exists b2. split; [done|by etrans].
Qed.

Definition step_ok (t t' : BotTable) : Prop := bots_ok t' ∧ bots_evolve t t'.

(** Rewriting the one row of a bot that is not revoked. *)
Lemma rewrite_row_ok f row t :
  (∀ b, (bot_id (f b), bot_name (f b), workspace_path (f b), vault_namespace (f b),
         memory_scope (f b), created_at (f b))
        = (bot_id b, bot_name b, workspace_path b, vault_namespace b, memory_scope b,
           created_at b)) →
  (∀ b, bot_ok b → bot_status b ≠ revoked → bot_ok (f b)) →
  row ∈ t → bot_status row ≠ revoked → bots_ok t →
  step_ok t (update_where (with_bot_id (bot_id row)) f t).
Proof.
  intros Hf Hfok Hrow Hnr (Hid & Hname & Hok). rewrite Forall_forall in Hok.
  assert (∀ b, b ∈ t → with_bot_id (bot_id row) b = true → b = row) as Hone.
  { intros b Hb He%String.eqb_eq. by apply (unique_key bot_id t). }
  split; [split_and!|].
  - rewrite map_update_where; [done|]. intros b. by injection (Hf b).
  - rewrite map_update_where; [done|]. intros b. by injection (Hf b).
  - apply Forall_forall. intros b (b0 & Hb0 & ->)%elem_of_update_where.
    destruct (with_bot_id _ b0) eqn:He; [|auto]. rewrite (Hone b0 Hb0 He). auto.
  - intros b Hb. exists (if with_bot_id (bot_id row) b then f b else b).
    split; [apply elem_of_update_where; by exists b|].
    destruct (with_bot_id _ b) eqn:He; [|done]. split; [apply Hf|].
    rewrite (Hone b Hb He). intros; congruence.
Qed.

Lemma lift_bind {S A B} (r : res A) (k : A → M S B) s :
  (a ← lift_res r; k a) s = match r with Ok a => k a s | Raise e => (Raise e, s) end.
Proof. by destruct r. Qed.

Lemma redefine_ok digest now b : bot_ok b → bot_ok (redefine digest now b).
Proof. done. Qed.

Lemma switch_ok st now b : bot_status b ≠ revoked → bot_ok b → bot_ok (switch st now b).
Proof.
  intros Hn (H1 & H2 & H3 & H4 & H5). split_and!; simpl; try done.
  case_bool_decide; [by split|]. rewrite <- H5. tauto.
Qed.

Lemma bot_get_Some name t b : bot_get name t = Some b → b ∈ t ∧ bot_name b = name.
Proof. by intros [? ?%String.eqb_eq]%select_one_Some. Qed.

Lemma fetch_bot_state id t : (fetch_bot id t).2 = t.
Proof. unfold fetch_bot. by destruct (select_one _ _). Qed.

Lemma insert_bot_ok b t :
  bot_ok b → bots_ok t → existsb (clashes b) t = false → step_ok t (t ++ [b]).
Proof.
  intros Hb (Hid & Hname & Hok) Hex.
  assert (∀ b', b' ∈ t → clashes b b' = false) as Hc.
  { intros b' Hb'. apply not_true_iff_false. intros Ht.
    assert (existsb (clashes b) t = true); [|congruence].
    apply existsb_exists. exists b'. split; [by apply list_elem_of_In|done]. }
  split; [split_and!|].
  - rewrite map_app. apply NoDup_app. split_and!; [done| |apply NoDup_singleton].
    intros x (b' & -> & Hb')%list_elem_of_fmap Hx%list_elem_of_singleton.
    specialize (Hc b' Hb'). unfold clashes in Hc. simpl in Hx. rewrite Hx, String.eqb_refl in Hc. done.
  - rewrite map_app. apply NoDup_app. split_and!; [done| |apply NoDup_singleton].
    intros x (b' & -> & Hb')%list_elem_of_fmap Hx%list_elem_of_singleton.
    specialize (Hc b' Hb'). unfold clashes in Hc. simpl in Hx.
    rewrite Hx, String.eqb_refl, orb_true_r in Hc. done.
  - apply Forall_app. split; [done|]. by rewrite Forall_singleton.
  - intros b' Hb'. exists b'. split; [apply elem_of_app; by left|done].
Qed.

Lemma step_refl t : bots_ok t → step_ok t t.
Proof. by split. Qed.

Lemma register_step name ws dg now ulid t :
  bots_ok t → step_ok t (bot_register fs name ws dg now ulid t).2.
Proof.
  intros Hok. unfold bot_register. rewrite lift_bind.
  unfold validate_bot_name. destruct (name_matches name) eqn:Hn; [|by apply step_refl].
  rewrite lift_bind. destruct (validate_definition_sha256 dg) as [d|e]; [|by apply step_refl].
  rewrite lift_bind. destruct (resolve_workspace fs name ws) as [w|e] eqn:Hw; [|by apply step_refl].
  assert (w = bot_workspace fs name) as ->.
  { unfold resolve_workspace in Hw. by repeat case_match; simplify_eq. }
  unfold register_row, gets, mbind, M_bind.
  destruct (bot_get name t) as [row|] eqn:Hg.
  - apply bot_get_Some in Hg as [Hrow _]. unfold is_revoked.
    case_bool_decide as Hr; [by apply step_refl|].
    destruct (negb _); [by apply step_refl|]. unfold modify. rewrite fetch_bot_state.
    apply rewrite_row_ok; auto using redefine_ok.
  - destruct (select_one _ t); [by apply step_refl|]. unfold insert_bot.
    destruct (existsb _ t) eqn:Hex; [by apply step_refl|]. rewrite fetch_bot_state.
    apply insert_bot_ok; [|done|done].
    split_and!; simpl; try done. unfold validate_bot_name. by rewrite Hn.
Qed.

Lemma set_status_step name st now t :
  bots_ok t → step_ok t (bot_set_status name st now t).2.
Proof.
  intros Hok. unfold bot_set_status. rewrite lift_bind.
  destruct (validate_bot_status st) as [target|e]; [|by apply step_refl].
  unfold gets, mbind, M_bind. destruct (bot_get name t) as [row|] eqn:Hg; [|by apply step_refl].
  apply bot_get_Some in Hg as [Hrow _]. unfold is_revoked.
  case_bool_decide as Hr; [by apply step_refl|]. unfold modify. rewrite fetch_bot_state.
  apply rewrite_row_ok; auto using switch_ok.
Qed.
End store_facts.

(** Any sequence of changes, by any process. *)
Inductive bot_change :=
| BRegister (name workspace digest : string) (now : Z) (ulid : string)
| BStatus (name status : string) (now : Z).

Definition apply_change (fs : FileSystem) (t : BotTable) (c : bot_change) : BotTable :=
  match c with
  | BRegister n ws dg now u => (bot_register fs n ws dg now u t).2
  | BStatus n st now => (bot_set_status n st now t).2
  end.

Lemma string_app_inj (p s1 s2 : string) : p +:+ s1 = p +:+ s2 → s1 = s2.
Proof. induction p as [|c p IH]; [done|]. rewrite !string_cons_app. by intros [= ?%IH]. Qed.

Lemma changes_step fs cs t :
  bots_ok fs t → step_ok fs t (fold_left (apply_change fs) cs t).
Proof.
  revert t. induction cs as [|c cs IH]; intros t Hok; simpl; [by apply step_refl|].
  assert (step_ok fs t (apply_change fs t c)) as [Hok1 He1].
  { destruct c; simpl; [by apply register_step|by apply set_status_step]. }
  destruct (IH _ Hok1) as [Hok2 He2]. split; [done|by etrans].
Qed.

(** C32. Bots stay apart and revocation is final: whatever registrations and status changes
    are made, every row keeps its id, name, workspace and scopes for good, its workspace is
    [<home>/bots/<name>] and its scopes are [bot:<name>]; no two rows share a name, an id, a
    workspace, a vault namespace or a memory scope; and a revoked row is never written
    again. *)
Theorem bots_apart_and_terminal fs cs t t' :
  bots_ok fs t → t' = fold_left (apply_change fs) cs t →
  bots_ok fs t' ∧
  (∀ b, b ∈ t → ∃ b', b' ∈ t' ∧ bot_id b' = bot_id b ∧ bot_name b' = bot_name b ∧
        workspace_path b' = workspace_path b ∧ (bot_status b = revoked → b' = b)) ∧
  (∀ b1 b2, b1 ∈ t' → b2 ∈ t' → b1 ≠ b2 →
     workspace_path b1 ≠ workspace_path b2 ∧ vault_namespace b1 ≠ vault_namespace b2 ∧
     memory_scope b1 ≠ memory_scope b2).
Proof.
  intros Hok ->. destruct (changes_step fs cs t Hok) as [Hok' He]. split; [done|]. split.
  - intros b Hb. destruct (He b Hb) as (b' & Hb' & Hi & Hr). exists b'.
    injection Hi. intros. by split_and!.
  - intros b1 b2 H1 H2 Hne. destruct Hok' as (_ & Hn & Hf). rewrite Forall_forall in Hf.
    destruct (Hf b1 H1) as (_ & W1 & V1 & M1 & _), (Hf b2 H2) as (_ & W2 & V2 & M2 & _).
    assert (bot_name b1 ≠ bot_name b2) as Hnn.
    { intros Heq. apply Hne. by apply (unique_key bot_name (fold_left (apply_change fs) cs t)). }
    rewrite W1, W2, V1, V2, M1, M2. unfold bot_workspace.
    split_and!; intros Heq; apply Hnn; by repeat apply string_app_inj in Heq.
Qed.

(** ** What the hook lets through *)

Section hook_facts.
Context (ttl : Z) (name : string) (answers : Z → res (option BotIdentity)).

(** The readings of a process whose store answers [answers t] at clock [t]. *)
Definition reading (t : Z) : Reading :=
  {| now_at := t; store_answer := λ _, answers t |}.

Fixpoint hook_calls (ts : list Z) (c : BotCache) : list HookDecision * BotCache :=
  match ts with
  | [] => ([], c)
  | t :: ts' =>
      match bot_status_call ttl (BotProcess name) (reading t) c with
      | (Ok d, c1) => let '(ds, c2) := hook_calls ts' c1 in (d :: ds, c2)
      | (Raise _, c1) => hook_calls ts' c1
      end
  end.

(** The cache holds what the store answered when it was filled. *)
Definition cache_ok (c : BotCache) : Prop :=
  match cached_at c with Some t => answers t = Ok (cached c) | None => True end.

Lemma status_call_spec t c :
  cache_ok c →
  ∃ d c', bot_status_call ttl (BotProcess name) (reading t) c = (Ok d, c') ∧ cache_ok c' ∧
    (cached_at c' = cached_at c ∨ cached_at c' = Some t) ∧
    outcome d ≠ transform ∧ outcome d ≠ require_approval ∧
    (outcome d = allow →
     ∃ t0 b, (t0 = t ∨ (cached_at c = Some t0 ∧ (t - t0 < ttl)%Z)) ∧
             answers t0 = Ok (Some b) ∧ bot_status b = active).
Proof.
  intros Hc. unfold bot_status_call. simpl.
  assert (∃ r c', (if is_fresh ttl t c then (Ok (cached c), c) else cache_read ttl (reading t) name c)
                  = (r, c') ∧ cache_ok c' ∧
                  (cached_at c' = cached_at c ∨ cached_at c' = Some t) ∧
                  (∀ row, r = Ok row → ∃ t0, (t0 = t ∨ (cached_at c = Some t0 ∧ (t - t0 < ttl)%Z)) ∧
                                      answers t0 = Ok row)) as (r & c' & -> & Hc' & Hat & Hrow).
  { destruct (is_fresh ttl t c) eqn:Hf.
    - unfold is_fresh in Hf. unfold cache_ok in Hc.
      destruct (cached_at c) as [t0|] eqn:Ht0; [|done]. to_props.
      eexists _, c. split; [done|]. unfold cache_ok. rewrite Ht0. split_and!; [done|by left|].
      intros row [= <-]. exists t0. auto.
    - unfold cache_read. simpl. rewrite Hf. destruct (answers t) as [row|e] eqn:Ha.
      + eexists _, _. split; [done|]. split_and!; [done|by right|].
        intros row' [= <-]. exists t. auto.
      + eexists _, _. split; [done|]. split_and!; [done|by left|done]. }
  destruct r as [[b|]|e].
  - destruct (Hrow (Some b) eq_refl) as (t0 & Ht0 & Hans).
    case_bool_decide as Hb; eexists _, c'; (split; [done|]); split_and!; try done.
    intros _. by exists t0, b.
  - eexists _, c'. split; [done|]. by split_and!.
  - eexists _, c'. split; [done|]. by split_and!.
Qed.
End hook_facts.

(** A bot that is not active runs nothing: a call of a bot's process is let through only
    if the store, read at that call or less than [ttl] before, answered with a row of that
    bot whose status is [active]; so once the store has answered anything else -- revoked,
    disabled, no row, an error -- throughout a window of [ttl], the next call is denied,
    and nothing stale is served after a failed read.  A process with an invalid name denies
    every call. *)
Theorem bot_denied_within_ttl ttl name answers ts t c c' ds :
  hook_calls ttl name answers ts empty_cache = (ds, c') →
  (∀ t0, (t - ttl < t0 ≤ t)%Z ∨ t0 = t → ∀ b, answers t0 = Ok (Some b) → bot_status b ≠ active) →
  (∀ t0, t0 ∈ ts → (t0 ≤ t)%Z) →
  (∃ d, (bot_status_call ttl (BotProcess name) (reading answers t) c').1 = Ok d ∧
        outcome d = deny) ∧
  ∀ err, ∃ d, (bot_status_call ttl (InvalidBot err) (reading answers t) c).1 = Ok d ∧
              outcome d = deny.
Proof.
  intros Hh Hna Hts. split; [|intros err; by eexists].
  assert (cache_ok answers c' ∧ ∀ t0, cached_at c' = Some t0 → (t0 ≤ t)%Z) as [Hc' Hle].
  { assert (cache_ok answers empty_cache ∧
            ∀ t0, cached_at empty_cache = Some t0 → (t0 ≤ t)%Z) as [H1 H2] by done.
    revert Hh H1 H2. generalize empty_cache as c0. revert ds.
    induction ts as [|t1 ts IH]; intros ds c0; cbn [hook_calls]; [by intros [= <- <-]|].
    intros Hh Hc0 Hle0.
    destruct (status_call_spec ttl name answers t1 c0 Hc0) as (d1 & c1 & E & Hc1 & Hat & _).
    rewrite E in Hh. destruct (hook_calls ttl name answers ts c1) as [ds' c2] eqn:Hh2.
    injection Hh as <- <-. eapply IH; [intros; apply Hts; by right|exact Hh2|done|].
    intros t0 Ht0. destruct Hat as [Hat|Hat]; rewrite Hat in Ht0; [auto|].
    injection Ht0 as <-. apply Hts. left. }
  destruct (status_call_spec ttl name answers t c' Hc') as (d & c2 & -> & _ & _ & Hnt & Hnr & Hal).
  exists d. split; [done|]. destruct (outcome d) eqn:Ho; try done. exfalso.
  destruct (Hal eq_refl) as (t0 & b & Ht0 & Hans & Hb). apply (Hna t0) in Hans; [done|].
  destruct Ht0 as [->|[Hat Hlt]]; [by right|]. left. specialize (Hle t0 Hat). lia.
Qed.

(** ** Concrete bots *)

Definition plain_fs : FileSystem :=
  {| fs_home := "/home/o/.evarness"; fs_expanduser := id; fs_resolve := id;
     fs_exists := λ _, false; fs_samefile := String.eqb |}.

Definition zeros64 : string :=
  "0000000000000000000000000000000000000000000000000000000000000000".

Definition two_bots : list bot_change :=
  [BRegister "helper" "/home/o/.evarness/bots/helper" zeros64 1 "u1";
   BRegister "clerk" "/home/o/.evarness/bots/helper" zeros64 2 "u2";
   BRegister "clerk" "/home/o/.evarness/bots/clerk" zeros64 3 "u3";
   BStatus "helper" "revoked" 4; BStatus "helper" "active" 5;
   BRegister "helper" "/home/o/.evarness/bots/helper" zeros64 6 "u4"].

Lemma bots_apart_and_terminal_witness :
  map bot_status (fold_left (apply_change plain_fs) two_bots []) = [revoked; active] ∧
  bots_ok plain_fs (fold_left (apply_change plain_fs) two_bots []).
Proof.
  split; [vm_compute; reflexivity|].
  refine (proj1 (bots_apart_and_terminal plain_fs two_bots [] _ _ eq_refl)).
  split; [constructor|]. split; [constructor|]. constructor.
Defined.

Definition helper : BotIdentity := new_bot "u1" "helper" "/w" zeros64 1.

Lemma bot_denied_within_ttl_witness :
  let answers := λ t, if (t <? 10)%Z then Ok (Some helper)
                      else Ok (Some (switch revoked 10 helper)) in
  map outcome (hook_calls 2 "helper" answers [8; 9; 11]%Z empty_cache).1 = [allow; allow; deny] ∧
  ∃ d, (bot_status_call 2 (BotProcess "helper") (reading answers 12)
          (hook_calls 2 "helper" answers [8; 9; 11]%Z empty_cache).2).1 = Ok d ∧ outcome d = deny.
Proof.
  intros answers. split; [vm_compute; reflexivity|].
  refine (proj1 (bot_denied_within_ttl 2 "helper" answers [8; 9; 11]%Z 12 empty_cache _ _ _ _ _)).
  - vm_compute. reflexivity.
  - intros t0 Ht0 b. unfold answers. destruct (Z.ltb_spec t0 10); [lia|].
    intros Hb. injection Hb as <-. discriminate.
  - intros t0 Ht0. repeat (apply elem_of_cons in Ht0 as [->|Ht0]; [lia|]).
    by apply elem_of_nil in Ht0.
Defined.
