(* ===== verification/SideEffects.v ===== *)
(** * The side-effect ledger ([side_effects/store.py], [plugins/pre_tool_use_ledger.py],
      [plugins/post_tool_use_ledger.py])

    The table of irreversible effects with its append-only event log, the hook that writes a
    pending row before a high-risk call runs and the hook that settles it afterwards. *)

From S2P Require Import Prelude PyVal PyText Hooks CallContext Kernel Approvals ApprovalHook.
From stdpp Require Import options.

(** ** The store *)

Record SideEffectRow := {
  side_effect_id : string;
  se_run_id : string;
  se_step_id : Z;
  se_tool : string;
  verification_probe : string;
  probe_metadata : dict;
  se_status : string;
  completed_at : option Z;
  se_error : option string;
  se_call_id : option string;
  se_parent_call_id : option string;
  se_attempt : option Z;
  se_replay_of : option string;
  record_id : string;
}.

Record SideEffectEvent := {
  event_id : string;
  ev_side_effect_id : string;
  ev_status : string;
  ev_ts : Z;
  ev_call_id : option string;
}.

(** The two tables; [se_fault] is what opening the database raises now, if it does. *)
Record SideEffectLedger := {
  se_rows : list SideEffectRow;
  se_events : list SideEffectEvent;
  se_fault : option exn;
}.

Definition keyed (key : string) (r : SideEffectRow) : bool := String.eqb (side_effect_id r) key.

Definition se_find (key : string) (l : SideEffectLedger) : option SideEffectRow :=
  select_one (keyed key) (se_rows l).

(** [with self._connect() as conn:] *)
Definition connected {A} (m : M SideEffectLedger A) : M SideEffectLedger A := λ l,
  match se_fault l with
  | Some e => (Raise e, l)
  | None => m l
  end.

(** The identity a caller may pass: [call_id], [parent_call_id], [attempt], [replay_of]. *)
Definition CallIdentity : Type := option (string * option string * option Z * option string).

Definition pending_row (key run : string) (step : Z) (tool probe : string) (m : dict)
    (who : CallIdentity) (ulid : string) : SideEffectRow :=
  {| side_effect_id := key; se_run_id := run; se_step_id := step; se_tool := tool;
     verification_probe := probe; probe_metadata := m; se_status := "pending";
     completed_at := None; se_error := None;
     se_call_id := match who with Some (c, _, _, _) => Some c | None => None end;
     se_parent_call_id := match who with Some (_, p, _, _) => p | None => None end;
     se_attempt := match who with Some (_, _, a, _) => a | None => None end;
     se_replay_of := match who with Some (_, _, _, r) => r | None => None end;
     record_id := ulid |}.

(** [_append_event] *)
Definition append_event (ulid key st : string) (now : Z) (call : option string)
    (l : SideEffectLedger) : SideEffectLedger :=
  {| se_rows := se_rows l;
     se_events := se_events l ++ [{| event_id := ulid; ev_side_effect_id := key;
                                     ev_status := st; ev_ts := now; ev_call_id := call |}];
     se_fault := se_fault l |}.

Definition set_rows (rs : list SideEffectRow) (l : SideEffectLedger) : SideEffectLedger :=
  {| se_rows := rs; se_events := se_events l; se_fault := se_fault l |}.

Definition key_exists (key : string) : exn := Exn "SideEffectKeyExists" key.

(** The ids and the clock one write of the store reads. *)
Record Stamp := { st_now : Z; st_record : string; st_event : string; st_uuid : string }.

Definition se_record (key : option string) (run : string) (step : Z) (tool probe : string)
    (m : dict) (exclusive : bool) (who : CallIdentity) (st : Stamp) : M SideEffectLedger string :=
  let key := or_str key (st_uuid st) in
  connected (λ l,
    match se_find key l with
    | Some _ => if exclusive then (Raise (key_exists key), l) else (Ok key, l)
    | None =>
        let row := pending_row key run step tool probe m who (st_record st) in
        (Ok key, append_event (st_event st) key "pending" (st_now st) (se_call_id row)
                   (set_rows (se_rows l ++ [row]) l))
    end).

Definition se_get (key : string) : M SideEffectLedger (option SideEffectRow) :=
  connected (gets (se_find key)).

Definition se_pending (run : string) : M SideEffectLedger (list SideEffectRow) :=
  connected (gets (λ l, sort_by se_step_id
    (select_where (λ r, String.eqb (se_run_id r) run && negb (String.eqb (se_status r) "completed"))
       (se_rows l)))).

Definition list_by_run (run : string) : M SideEffectLedger (list SideEffectRow) :=
  connected (gets (λ l, sort_by se_step_id
    (select_where (λ r, String.eqb (se_run_id r) run) (se_rows l)))).

Definition settle_row (status : string) (done : option Z) (err : option string) (probe : string)
    (m : dict) (r : SideEffectRow) : SideEffectRow :=
  {| side_effect_id := side_effect_id r; se_run_id := se_run_id r; se_step_id := se_step_id r;
     se_tool := se_tool r; verification_probe := probe; probe_metadata := m;
     se_status := status; completed_at := done; se_error := err; se_call_id := se_call_id r;
     se_parent_call_id := se_parent_call_id r; se_attempt := se_attempt r;
     se_replay_of := se_replay_of r; record_id := record_id r |}.

(** [_call_id_of] *)
Definition call_of (key : string) (l : SideEffectLedger) : option string :=
  se_find key l ≫= se_call_id.

Definition completion (status : string) (now : Z) : option Z :=
  if String.eqb status "completed" then Some now else None.

Definition se_set_status (key status : string) (err : option string) (st : Stamp)
    : M SideEffectLedger unit :=
  connected (λ l,
    let l1 := set_rows (update_where (keyed key)
                (λ r, settle_row status (completion status (st_now st)) err
                        (verification_probe r) (probe_metadata r) r) (se_rows l)) l in
    (Ok tt, append_event (st_event st) key status (st_now st) (call_of key l1) l1)).

Definition finalize (key status : string) (err probe : option string) (m : option dict)
    (st : Stamp) : M SideEffectLedger bool :=
  connected (λ l,
    match se_find key l with
    | None => (Ok false, l)
    | Some row =>
        let merged := default ∅ m ∪ probe_metadata row in
        let l1 := set_rows (update_where (keyed key)
                    (settle_row status (completion status (st_now st)) err
                       (default (verification_probe row) probe) merged) (se_rows l)) l in
        (Ok true, append_event (st_event st) key status (st_now st) (call_of key l1) l1)
    end).

(** ** The hooks *)

Definition NO_PROBE : string := "".
Definition PRE_RECORDED : string := "pre_recorded".
Definition PARTIAL_STREAM : string := "PartialStream".

Definition side_effect_key (run : string) (step : Z) (call : option string) : string :=
  run +:+ ":" +:+ pretty step +:+ ":" +:+ or_str call "-".

(** [str(payload.get(key, fallback))] *)
Definition str_get (p : dict) (key fallback : string) : string :=
  match p !! key with Some v => str_val v | None => fallback end.

Definition git_commit_meta (p : dict) : dict := {[ "repo_path" := VStr (str_get p "cwd" ".") ]}.
Definition git_push_meta (p : dict) : dict :=
  <["repo_path" := VStr (str_get p "cwd" ".")]>
    {[ "commit_sha" := VStr (str_get p "commit_sha" "") ]}.

(** [TOOL_PROBE_MAP.get(tool)] *)
Definition tool_probe (tool : string) : option (string * string * (dict → dict)) :=
  if String.eqb tool "git_commit" then Some ("git_commit", "commit_sha", git_commit_meta)
  else if String.eqb tool "git_push" then Some ("git_push", "branch_remote", git_push_meta)
  else if String.eqb tool "github_create_pr" then Some ("github_create_pr", "pr_url", λ _, ∅)
  else if String.eqb tool "write_file" then Some ("write_file", "file_path_sha", λ _, ∅)
  else if String.eqb tool "create_pull_request" then Some ("github_create_pr", "pr_url", λ _, ∅)
  else None.

Section hooks.
Context {W : Type} `{!Part W SideEffectLedger}.
Context (calls_of : W → CallState) (stamp_of : W → Stamp).
(** [json.loads] of a text: [None] when it raises. *)
Context (json_loads : string → option pyval).

Definition pre_deny (tool why : string) : HookDecision :=
  mk_decision deny
    ("pre_tool_use_ledger: " +:+ py_repr tool +:+ " is irreversible and needs a durable record before it runs, but "
     +:+ why +:+ "; nothing was run") error {[ "tool_name" := VStr tool ]}.

Definition high_risk (ctx : HookContext) : bool :=
  pinned_by_declaration (metadata ctx !! TOOL_EFFECT) (metadata ctx !! "tool_confirm").

(** [ctx.step_id or 0] *)
Definition step_of (ctx : HookContext) : Z := default 0%Z (step_id ctx).

Definition call_key (ctx : HookContext) : string :=
  side_effect_key (run_id ctx) (step_of ctx) (call_id_of (metadata ctx)).

(** [PreToolUseLedgerHook.__call__]; [has_ledger] says whether it was given a ledger. *)
Definition pre_ledger_call (has_ledger : bool) (ctx : HookContext) : M W HookDecision := λ w,
  let tool := tool_name_of (payload ctx) in
  if negb (str_truthy tool) || negb (high_risk ctx) then
    (Ok (mk_decision allow "pre_tool_use_ledger: not a high-risk call" info ∅), w)
  else if negb (get_truthy (metadata ctx) "approved_by")
          && bool_decide (payload ctx !! "capability" = None) then
    (Ok (mk_decision allow "pre_tool_use_ledger: the call is not approved to run" info ∅), w)
  else if negb has_ledger then (Ok (pre_deny tool "no side-effect ledger is configured"), w)
  else
    let key := call_key ctx in
    let meta : dict := <["subject" := VStr key]>
                 (<["effect" := default VNone (metadata ctx !! TOOL_EFFECT)]>
                   {[ PRE_RECORDED := VBool true ]}) in
    match on_part (se_record (Some key) (run_id ctx) (step_of ctx) tool NO_PROBE meta true
                     (identity_kwargs (calls_of w) (call_id_of (metadata ctx))) (stamp_of w)) w with
    | (Ok _, w') =>
        (Ok (mk_decision allow ("pre_tool_use_ledger: recorded " +:+ tool +:+ " before it runs")
               info {[ SIDE_EFFECT_ID := VStr key ]}), w')
    | (Raise e, w') =>
        (Ok (pre_deny tool
               (if String.eqb (exn_class e) "SideEffectKeyExists"
                then "its ledger key already holds a record of another call"
                else "the pre-execution record could not be written (" +:+ exn_class e +:+ ")")),
         w')
    end.

Definition pre_ledger_hook (ident : nat) (has_ledger : bool) : Hook W :=
  {| hook_ident := ident; hook_name := "pre_tool_use_ledger"; hook_at := PRE_TOOL_USE;
     hook_priority := 100; hook_call := pre_ledger_call has_ledger; hook_bot := None |}.

Definition mapped_subject (field : string) (result : pyval) : option string :=
  let v := match result with
           | VStr s => if startswith "{" (lstrip s) then json_loads s else Some result
           | _ => Some result
           end in
  match v with
  | Some (VDict d) => str_if_truthy (od_get field d)
  | _ => None
  end.

(** [_probe_for] *)
Definition probe_for (tool : string) (ctx : HookContext) : string * option string * dict :=
  match tool_probe tool with
  | Some (probe, field, meta) =>
      match mapped_subject field (result_of (payload ctx)) with
      | Some subject => (probe, Some subject, meta (payload ctx))
      | None => (NO_PROBE, None, ∅)
      end
  | None =>
      match get_nonempty (metadata ctx) TOOL_VERIFY with
      | Some declared => (declared, None, ∅)
      | None => (NO_PROBE, None, ∅)
      end
  end.

(** [ctx.payload.get(key) is not None] *)
Definition present (p : dict) (key : string) : bool :=
  match p !! key with Some VNone => false | Some _ => true | None => false end.

Definition is_pre_row (r : SideEffectRow) : bool :=
  is_true (probe_metadata r) PRE_RECORDED && String.eqb (se_status r) "pending".

(** [_written_before]: a ledger that cannot be read answers no. *)
Definition written_before (key : string) (w : W) : bool :=
  match on_part (se_get key) w with
  | (Ok (Some r), _) => is_pre_row r
  | _ => false
  end.

Definition is_own_stream_row (key tool : string) (ctx : HookContext) (w : W) : bool :=
  if negb (present (payload ctx) "stream_item") && negb (is_true (payload ctx) "stream_end")
  then false
  else match on_part (se_get key) w with
       | (Ok (Some r), _) => String.eqb (se_tool r) tool
       | _ => false
       end.

(** The class of what the tool raised, or of a stream that stopped part-way. *)
Definition call_error (ctx : HookContext) : option string :=
  match get_nonempty (metadata ctx) TOOL_ERROR with
  | Some e => Some e
  | None => if is_true (payload ctx) "stream_partial" then Some PARTIAL_STREAM else None
  end.

Definition observed (why : string) (sev : HookSeverity) (m : dict) : HookDecision :=
  mk_decision allow ("post_tool_use_ledger: " +:+ why) sev m.

(** [_settle] *)
Definition settle (key tool probe : string) (subject : option string) (m : dict)
    (ctx : HookContext) : M W HookDecision := λ w,
  if present (payload ctx) "stream_item" then (Ok (observed "stream item" info ∅), w)
  else
    let err := call_error ctx in
    let status := match err with Some _ => "error" | None => "completed" end in
    let named := match err with None => negb (String.eqb probe NO_PROBE) | Some _ => false end in
    match on_part (finalize key status err
                     (if named then Some probe else None)
                     (if named then Some (<["subject" := VStr (or_str subject key)]> m) else None)
                     (stamp_of w)) w with
    | (Ok _, w') =>
        (Ok (observed ("settled " +:+ tool +:+ " as " +:+ status) info
               (<[SIDE_EFFECT_ID := VStr key]> {[ "status" := VStr status ]})), w')
    | (Raise _, w') => (Ok (observed ("could not settle " +:+ tool) warn ∅), w')
    end.

(** [PostToolUseLedgerHook.__call__] *)
Definition post_ledger_call (high_risk_only : bool) (ctx : HookContext) : M W HookDecision := λ w,
  let tool := tool_name_of (payload ctx) in
  match get_str (metadata ctx) TOOL_EFFECT with
  | None => (Ok (observed "not a side effect" info ∅), w)
  | Some effect =>
      if negb (str_truthy tool) || String.eqb effect "read" then
        (Ok (observed "not a side effect" info ∅), w)
      else if high_risk_only && negb (high_risk ctx) then
        (Ok (observed "not recorded (high-risk only)" info ∅), w)
      else
        let key := call_key ctx in
        let '(probe, subject, m) := probe_for tool ctx in
        if written_before key w then settle key tool probe subject m ctx w
        else
          match on_part (se_record (Some key) (run_id ctx) (step_of ctx) tool probe
                           (<["effect" := VStr effect]> (<["subject" := VStr (or_str subject key)]> m))
                           true (identity_kwargs (calls_of w) (call_id_of (metadata ctx)))
                           (stamp_of w)) w with
          | (Ok _, w') =>
              (Ok (observed ("recorded " +:+ tool +:+ " side effect") info
                     (<[SIDE_EFFECT_ID := VStr key]> {[ "probe" := VStr (or_str (Some probe) "none") ]})), w')
          | (Raise e, w') =>
              if String.eqb (exn_class e) "SideEffectKeyExists" then
                if is_own_stream_row key tool ctx w' then
                  (Ok (observed "stream already recorded" info ∅), w')
                else
                  (Ok (observed ("could not record " +:+ tool +:+ ": its key is already taken") warn ∅), w')
              else (Ok (observed ("could not record " +:+ tool) warn ∅), w')
          end
  end.

Definition post_ledger_hook (ident : nat) (high_risk_only : bool) : Hook W :=
  {| hook_ident := ident; hook_name := "post_tool_use_ledger"; hook_at := POST_TOOL_USE;
     hook_priority := 40; hook_call := post_ledger_call high_risk_only; hook_bot := None |}.
End hooks.

(** ** The log and the rows agree *)

Definition for_key (key : string) (e : SideEffectEvent) : bool :=
  String.eqb (ev_side_effect_id e) key.

Definition last_status (key : string) (evs : list SideEffectEvent) : option string :=
  ev_status <$> last (select_where (for_key key) evs).

Lemma last_status_snoc key evs e :
  last_status key (evs ++ [e])
  = if for_key key e then Some (ev_status e) else last_status key evs.
Proof.
  unfold last_status. rewrite select_where_app. unfold select_where at 2. simpl.
  destruct (for_key key e); [by rewrite last_snoc|by rewrite app_nil_r].
Qed.

(** Every row's status is the last transition logged for it. *)
Definition ledger_ok (l : SideEffectLedger) : Prop :=
  NoDup (map side_effect_id (se_rows l)) ∧
  ∀ r, r ∈ se_rows l → last_status (side_effect_id r) (se_events l) = Some (se_status r).

(** The columns that identify an effect and the call it belongs to. *)
Definition se_identity (r : SideEffectRow) :=
  (side_effect_id r, se_run_id r, se_step_id r, se_tool r, se_call_id r, se_parent_call_id r,
   se_attempt r, se_replay_of r, record_id r).

Definition ledger_grows (l l' : SideEffectLedger) : Prop :=
  (∃ new, se_events l' = se_events l ++ new) ∧
  ∀ r, r ∈ se_rows l → ∃ r', r' ∈ se_rows l' ∧ se_identity r' = se_identity r.

#[export] Instance ledger_grows_preorder : PreOrder ledger_grows.
Proof.
  split.
  - intros l. split; [exists []; by rewrite app_nil_r|]. intros r Hr. by exists r.
  - intros l1 l2 l3 [[n1 E1] R1] [[n2 E2] R2]. split.
    + exists (n1 ++ n2). by rewrite E2, E1, app_assoc.
    + intros r Hr. destruct (R1 r Hr) as (r1 & Hr1 & I1). destruct (R2 r1 Hr1) as (r2 & Hr2 & I2).
      exists r2. split; [done|congruence].
Qed.

Definition ledger_step (l l' : SideEffectLedger) : Prop := ledger_ok l' ∧ ledger_grows l l'.

Lemma settle_id s d e p m r : side_effect_id (settle_row s d e p m r) = side_effect_id r.
Proof. done. Qed.

(** One status written on a key and logged. *)
Lemma settle_step key st f ev l :
  (∀ r, se_identity (f r) = se_identity r ∧ se_status (f r) = st) →
  ev_side_effect_id ev = key → ev_status ev = st →
  ledger_ok l →
  ledger_step l {| se_rows := update_where (keyed key) f (se_rows l);
                   se_events := se_events l ++ [ev]; se_fault := se_fault l |}.
Proof.
  intros Hf Hk Hs [Hd Hl].
  assert (∀ r, side_effect_id (f r) = side_effect_id r) as Hid.
  { intros r. destruct (Hf r) as [Hi _]. by injection Hi. }
  split; [split|split].
  - simpl. by rewrite map_update_where.
  - simpl. intros r (r0 & Hr0 & ->)%elem_of_update_where.
    rewrite last_status_snoc. unfold for_key, keyed. rewrite Hk, Hs.
    rewrite String.eqb_sym. destruct (String.eqb_spec (side_effect_id r0) key) as [<-|Hne].
    + rewrite Hid, String.eqb_refl. by destruct (Hf r0) as [_ ->].
    + rewrite (proj2 (String.eqb_neq (side_effect_id r0) key)) by done. by apply Hl.
  - by eexists.
  - simpl. intros r Hr. eexists. split; [apply elem_of_update_where; exists r; split; [exact Hr|done]|].
    destruct (keyed key r); [apply Hf|done].
Qed.

Lemma se_find_None key l : se_find key l = None ↔ key ∉ map side_effect_id (se_rows l).
Proof. apply select_one_key_None. Qed.

Lemma record_step row ev l :
  se_find (side_effect_id row) l = None →
  ev_side_effect_id ev = side_effect_id row → ev_status ev = se_status row →
  ledger_ok l →
  ledger_step l {| se_rows := se_rows l ++ [row]; se_events := se_events l ++ [ev];
                   se_fault := se_fault l |}.
Proof.
  intros Hn%se_find_None Hk Hs [Hd Hl]. split; [split|split]; simpl.
  - rewrite map_app. apply NoDup_app. split_and!; [done| |apply NoDup_singleton].
    intros x Hx ->%list_elem_of_singleton. done.
  - intros r Hr. rewrite last_status_snoc. unfold for_key. rewrite Hk, Hs.
    apply elem_of_app in Hr as [Hr| ->%list_elem_of_singleton]; [|by rewrite String.eqb_refl].
    rewrite (proj2 (String.eqb_neq _ _)); [by apply Hl|].
    intros Heq. apply Hn. rewrite Heq. by apply list_elem_of_fmap_2.
  - by eexists.
  - intros r Hr. exists r. split; [apply elem_of_app; by left|done].
Qed.

Lemma connected_step {A} (m : M SideEffectLedger A) l :
  (ledger_ok l → ledger_step l (m l).2) → ledger_ok l → ledger_step l (connected m l).2.
Proof. intros Hm Hl. unfold connected. destruct (se_fault l); [by split|by apply Hm]. Qed.

Lemma se_record_step key run step tool probe m ex who st l :
  ledger_ok l → ledger_step l (se_record key run step tool probe m ex who st l).2.
Proof.
  unfold se_record. apply connected_step. intros Hl.
  destruct (se_find _ l) eqn:Hf; [destruct ex; by split|].
  unfold append_event, set_rows. simpl. by apply record_step.
Qed.

Lemma se_set_status_step key status err st l :
  ledger_ok l → ledger_step l (se_set_status key status err st l).2.
Proof. unfold se_set_status. apply connected_step. intros Hl.
  unfold append_event, set_rows. simpl. by apply (settle_step key status).
Qed.

Lemma finalize_step key status err probe m st l :
  ledger_ok l → ledger_step l (finalize key status err probe m st l).2.
Proof.
  unfold finalize. apply connected_step. intros Hl. destruct (se_find key l); [|by split].
  unfold append_event, set_rows. simpl. by apply (settle_step key status).
Qed.

(** The writes any process makes; opening the database may fail at any of them. *)
Inductive ledger_call :=
| LRecord (key : option string) (run : string) (step : Z) (tool probe : string) (m : dict)
    (exclusive : bool) (who : CallIdentity)
| LSetStatus (key status : string) (err : option string)
| LFinalize (key status : string) (err probe : option string) (m : option dict).

Definition with_fault (e : option exn) (l : SideEffectLedger) : SideEffectLedger :=
  {| se_rows := se_rows l; se_events := se_events l; se_fault := e |}.

Definition ledger_write (l : SideEffectLedger) (x : ledger_call * Stamp * option exn)
    : SideEffectLedger :=
  let '(c, st, e) := x in
  let l := with_fault e l in
  match c with
  | LRecord k r s t p m ex who => (se_record k r s t p m ex who st l).2
  | LSetStatus k s err => (se_set_status k s err st l).2
  | LFinalize k s err p m => (finalize k s err p m st l).2
  end.

(** The ledger keeps its history: whatever rows are recorded, settled or updated by
    whatever processes, and however often a write fails, no row and no event is ever removed
    or rewritten in its identity, every event is appended, keys stay unique, and each row's
    status is the last transition logged for it. *)
Theorem ledger_history xs l l' :
  ledger_ok l → l' = fold_left ledger_write xs l →
  ledger_ok l' ∧ (∃ new, se_events l' = se_events l ++ new) ∧
  (∀ r, r ∈ se_rows l → ∃ r', r' ∈ se_rows l' ∧ se_identity r' = se_identity r) ∧
  ∀ r, r ∈ se_rows l' → last_status (side_effect_id r) (se_events l') = Some (se_status r).
Proof.
  intros Hl ->. assert (ledger_step l (fold_left ledger_write xs l)) as (Hok & Hev & Hrows).
  { revert l Hl. induction xs as [|[[c st] e] xs IH]; intros l Hl; simpl; [by split|].
    assert (ledger_step (with_fault e l)
              (ledger_write l (c, st, e))) as [Hok1 Hg1].
    { destruct c; simpl;
        [by apply se_record_step|by apply se_set_status_step|by apply finalize_step]. }
    destruct (IH _ Hok1) as [Hok2 Hg2]. split; [done|]. etrans; [|exact Hg2]. exact Hg1. }
  split_and!; [done|done|done|apply Hok].
Qed.

(** ** What the hooks do to the ledger *)

Section hook_facts.
Context {W : Type} `{!Part W SideEffectLedger, !PartLaws W SideEffectLedger}.
Context (calls_of : W → CallState) (stamp_of : W → Stamp).

(** A call the write-ahead row is for. *)
Definition needs_pre_row (ctx : HookContext) : Prop :=
  tool_name_of (payload ctx) ≠ "" ∧ high_risk ctx = true ∧
  (get_truthy (metadata ctx) "approved_by" = true ∨ payload ctx !! "capability" ≠ None).

Lemma call_key_truthy ctx : str_truthy (call_key ctx) = true.
Proof using Type. unfold call_key, side_effect_key. by destruct (run_id ctx). Qed.

Lemma pre_ledger_cases has_ledger ctx w :
  needs_pre_row ctx →
  ∃ d w', pre_ledger_call calls_of stamp_of has_ledger ctx w = (Ok d, w') ∧
    ((outcome d = allow ∧ has_ledger = true ∧ se_fault (part w) = None ∧
      se_find (call_key ctx) (part w) = None ∧
      audit_metadata d = {[ SIDE_EFFECT_ID := VStr (call_key ctx) ]} ∧
      ∃ row, se_rows (part w') = se_rows (part w) ++ [row] ∧
        side_effect_id row = call_key ctx ∧ se_tool row = tool_name_of (payload ctx) ∧
        is_pre_row row = true) ∨
     (outcome d = deny ∧ w' = w ∧
      (has_ledger = false ∨ se_fault (part w) ≠ None ∨ se_find (call_key ctx) (part w) ≠ None))).
Proof using All.
  intros (Ht & Hr & Ha). unfold pre_ledger_call.
  assert (str_truthy (tool_name_of (payload ctx)) = true) as ->.
  { apply not_false_iff_true. by rewrite str_truthy_false. }
  rewrite Hr. simpl.
  assert (negb (get_truthy (metadata ctx) "approved_by")
          && bool_decide (payload ctx !! "capability" = None) = false) as ->.
  { destruct Ha as [-> |Hc]; [done|]. rewrite (bool_decide_eq_false_2 _ Hc). apply andb_false_r. }
  destruct has_ledger; simpl; [|eexists _, w; split; [done|]; right; auto].
  unfold on_part, zoom, se_record, connected.
  destruct (se_fault (part w)) as [e|] eqn:Hf.
  { rewrite set_part_part. eexists _, w. split; [done|]. right. split_and!; auto. }
  unfold or_str. rewrite call_key_truthy.
  destruct (se_find (call_key ctx) (part w)) as [r|] eqn:Hk.
  { rewrite set_part_part. eexists _, w. split; [done|]. right. split_and!; auto. }
  eexists _, _. split; [done|]. left. rewrite part_set. split_and!; try done.
  eexists. split; [done|]. by split_and!.
Qed.

#[export] Instance needs_pre_row_dec ctx : Decision (needs_pre_row ctx).
Proof. apply _. Defined.

Lemma pre_ledger_other has_ledger ctx w :
  ¬ needs_pre_row ctx →
  ∃ d, pre_ledger_call calls_of stamp_of has_ledger ctx w = (Ok d, w) ∧ outcome d = allow ∧
    side_effect_id_of (audit_metadata d) = None.
Proof using Type.
  intros Hn. unfold pre_ledger_call.
  destruct (negb (str_truthy (tool_name_of (payload ctx))) || negb (high_risk ctx)) eqn:H1; [by eexists|].
  apply orb_false_iff in H1 as [Ht%negb_false_iff Hr%negb_false_iff].
  destruct (negb (get_truthy (metadata ctx) "approved_by") && bool_decide (payload ctx !! "capability" = None)) eqn:H2;
    [by eexists|].
  exfalso. apply Hn. split_and!; [by intros He; rewrite He in Ht|done|].
  destruct (get_truthy (metadata ctx) "approved_by"); [by left|right]. by apply bool_decide_eq_false_1 in H2.
Qed.

Context (json_loads : string → option pyval).

(** What a write of the store may do to the rows of a call. *)
Definition settles (key : string) (rs rs' : list SideEffectRow) : Prop :=
  ∀ r, r ∈ rs → r ∈ rs' ∨
    (side_effect_id r = key ∧ is_pre_row r = true ∧
     ∃ r', r' ∈ rs' ∧ se_identity r' = se_identity r ∧
           (se_status r' = "completed" ∨ se_status r' = "error")).

Lemma finalize_settles key err probe m st l :
  ledger_ok l → (∀ r, se_find key l = Some r → is_pre_row r = true) →
  settles key (se_rows l)
    (se_rows (finalize key (match err with Some _ => "error" | None => "completed" end)
                err probe m st l).2).
Proof using Type.
  intros [Hd _] Hpre r Hr. unfold finalize, connected.
  destruct (se_fault l); [by left|]. destruct (se_find key l) as [row|] eqn:Hk; [|by left]. simpl.
  destruct (keyed key r) eqn:He.
  - right. apply String.eqb_eq in He.
    assert (row = r) as ->.
    { apply select_one_Some in Hk as [Hrow Hid%String.eqb_eq].
      apply (unique_key side_effect_id (se_rows l)); congruence. }
    split_and!; [done|by apply Hpre|]. eexists. split.
    + apply elem_of_update_where. exists r. split; [exact Hr|]. unfold keyed.
      by rewrite He, String.eqb_refl.
    + split; [done|]. destruct err; simpl; auto.
  - left. apply elem_of_update_where. exists r. by rewrite He.
Qed.

Lemma post_ledger_cases hro ctx w :
  ledger_ok (part w) →
  ∃ d w', post_ledger_call calls_of stamp_of json_loads hro ctx w = (Ok d, w') ∧
    outcome d = allow ∧ ledger_step (part w) (part w') ∧
    settles (call_key ctx) (se_rows (part w)) (se_rows (part w')).
Proof using All.
  intros Hl. assert (∀ d, outcome d = allow →
    ∃ d0 w', (Ok d, w) = (Ok d0, w') ∧ outcome d0 = allow ∧ ledger_step (part w) (part w') ∧
      settles (call_key ctx) (se_rows (part w)) (se_rows (part w'))) as Hsame.
  { intros d Hd. exists d, w. split_and!; [done|done|by split|]. intros r Hr. by left. }
  unfold post_ledger_call. destruct (get_str _ _) as [effect|]; [|by apply Hsame].
  destruct (_ || _); [by apply Hsame|]. destruct (_ && _); [by apply Hsame|].
  destruct (probe_for json_loads _ ctx) as [[probe subject] m].
  destruct (written_before (call_key ctx) w) eqn:Hw.
  - unfold settle. destruct (present _ "stream_item"); [by apply Hsame|].
    unfold on_part, zoom.
    match goal with |- context [finalize ?k ?s ?e ?p ?mm ?st (part w)] =>
      pose proof (finalize_step k s e p mm st (part w) Hl) as Hstep;
      pose proof (finalize_settles k (call_error ctx) p mm st (part w) Hl) as Hset;
      destruct (finalize k s e p mm st (part w)) as [[b|ex] l'] end;
      eexists _, _; (split; [done|]); split_and!; try done; rewrite part_set; try done; apply Hset;
      intros r Hr; unfold written_before, on_part, zoom, se_get, connected, gets in Hw;
      destruct (se_fault (part w)); try done; by rewrite Hr in Hw.
  - unfold on_part, zoom.
    match goal with |- context [se_record ?k ?r ?s ?t ?p ?mm ?ex ?who ?st (part w)] =>
      pose proof (se_record_step k r s t p mm ex who st (part w) Hl) as Hstep;
      assert (settles (call_key ctx) (se_rows (part w))
                (se_rows (se_record k r s t p mm ex who st (part w)).2)) as Hset;
      [|destruct (se_record k r s t p mm ex who st (part w)) as [[b|e] l']] end.
    { intros r Hr. left. unfold se_record, connected.
      destruct (se_fault (part w)); [done|]. destruct (se_find _ _); [done|]. simpl.
      apply elem_of_app. by left. }
    + eexists _, _. split; [done|]. rewrite part_set. by split_and!.
    + destruct (String.eqb _ _); [destruct (is_own_stream_row _ _ _ _)|];
        (eexists _, _; (split; [done|]); rewrite part_set; by split_and!).
Qed.
End hook_facts.

(** C35. An irreversible call runs only with its record: at [PreToolUse] a high-risk call that
    carries an approval, or is a capability's, is let through exactly when the ledger took a new
    pending row under this call's own key, a key no other row had, and the decision names that
    key; with no ledger, a ledger that cannot be written or a taken key it is denied and nothing
    in the world changed.  Any other call passes with no row and with no key in the decision (a
    high-risk one among them is the runner's to refuse). *)
Theorem pre_row_before_effect {W} `{!Part W SideEffectLedger, !PartLaws W SideEffectLedger}
    calls_of stamp_of has_ledger ctx (w : W) :
  ∃ d w', pre_ledger_call calls_of stamp_of has_ledger ctx w = (Ok d, w') ∧
  (¬ needs_pre_row ctx → outcome d = allow ∧ w' = w ∧ side_effect_id_of (audit_metadata d) = None) ∧
  (needs_pre_row ctx →
    ((outcome d = allow ∧ has_ledger = true ∧ se_fault (part w) = None ∧
      se_find (call_key ctx) (part w) = None ∧
      side_effect_id_of (audit_metadata d) = Some (call_key ctx) ∧
      ∃ row, se_rows (part w') = se_rows (part w) ++ [row] ∧
        side_effect_id row = call_key ctx ∧ se_tool row = tool_name_of (payload ctx) ∧
        is_pre_row row = true) ∨
     (outcome d = deny ∧ w' = w ∧
      (has_ledger = false ∨ se_fault (part w) ≠ None ∨ se_find (call_key ctx) (part w) ≠ None)))).
Proof.
  destruct (decide (needs_pre_row ctx)) as [Hn|Hn].
  2:{ destruct (pre_ledger_other calls_of stamp_of has_ledger ctx w Hn) as (d & Hd & Ho & Hs). by exists d, w. }
  destruct (pre_ledger_cases calls_of stamp_of has_ledger ctx w Hn)
    as (d & w' & Hd & [(Ho & H1 & H2 & H3 & Ha & Hrow)|Hdeny]); exists d, w'; (split; [done|]); (split; [done|]); intros _;
    [left|by right].
  split_and!; try done. rewrite Ha. unfold side_effect_id_of. apply get_nonempty_Some.
  rewrite lookup_singleton_eq. split; [done|apply call_key_truthy].
Qed.

(** The observer never blocks and never rewrites: at [PostToolUse] the hook always
    allows, whatever the ledger does, and of the rows that were there it changes at most
    one: the row this very call wrote before it ran, still pending, which becomes
    [completed] or [error].  A row another call settled, a plain row under the same key and
    every other row stay exactly as they were. *)
Theorem post_settles_own_row {W} `{!Part W SideEffectLedger, !PartLaws W SideEffectLedger}
    calls_of stamp_of json_loads hro ctx (w : W) :
  ledger_ok (part w) →
  ∃ d w', post_ledger_call calls_of stamp_of json_loads hro ctx w = (Ok d, w') ∧
    outcome d = allow ∧ ledger_ok (part w') ∧
    ∀ r, r ∈ se_rows (part w) → r ∈ se_rows (part w') ∨
      (side_effect_id r = call_key ctx ∧ is_pre_row r = true ∧
       ∃ r', r' ∈ se_rows (part w') ∧ se_identity r' = se_identity r ∧
             (se_status r' = "completed" ∨ se_status r' = "error")).
Proof.
  intros Hl.
  destruct (post_ledger_cases calls_of stamp_of json_loads hro ctx w Hl)
    as (d & w' & Hd & Ho & [Hok _] & Hs).
  exists d, w'. by split_and!.
Qed.

(** ** A call that records, runs and settles *)

Definition some_stamp : Stamp := {| st_now := 7; st_record := "rec"; st_event := "ev"; st_uuid := "u" |}.
Definition no_calls : CallState := {| current_call := None; calls := []; resumed_runs := [] |}.
Definition no_json : string → option pyval := λ _, None.

Definition send_call (point : HookPoint) : HookContext :=
  {| ctx_hook_point := point; run_id := "run"; agent_type := "chat"; step_id := Some 3%Z;
     persona := None; route := None;
     payload := <[TOOL_NAME := VStr "send_email"]> {[ "args" := VDict [("to", VStr "a@b")] ]};
     classification := None; tier := None;
     metadata := <[TOOL_EFFECT := VStr "write"]> (<["tool_confirm" := VStr "approval"]>
       (<["approved_by" := VStr "id0"]> {[ CALL_ID := VStr "c1" ]})) |}.

Definition fresh_ledger : SideEffectLedger := {| se_rows := []; se_events := []; se_fault := None |}.

Lemma fresh_ledger_ok : ledger_ok fresh_ledger.
Proof. split; [constructor|]. intros r Hr. by apply elem_of_nil in Hr. Qed.

Definition recorded_ledger : SideEffectLedger :=
  (pre_ledger_call (λ _, no_calls) (λ _, some_stamp) true (send_call PRE_TOOL_USE) fresh_ledger).2.

Lemma ledger_history_witness :
  let xs := [(LRecord (Some "k") "r" 1 "t" "" ∅ true None, some_stamp, None);
             (LSetStatus "k" "completed" None, some_stamp, Some (Exn "OSError" "disk"));
             (LFinalize "k" "error" (Some "ValueError") None None, some_stamp, None)] in
  ledger_ok (fold_left ledger_write xs fresh_ledger) ∧
  map ev_status (se_events (fold_left ledger_write xs fresh_ledger)) = ["pending"; "error"].
Proof.
  intros xs. split; [|vm_compute; reflexivity].
  exact (proj1 (ledger_history xs fresh_ledger _ fresh_ledger_ok eq_refl)).
Defined.

Lemma pre_row_before_effect_witness :
  ∃ d w', pre_ledger_call (λ _, no_calls) (λ _, some_stamp) true (send_call PRE_TOOL_USE) fresh_ledger
          = (Ok d, w') ∧ outcome d = allow ∧ map se_status (se_rows w') = ["pending"].
Proof.
  destruct (pre_row_before_effect (λ _, no_calls) (λ _, some_stamp) true (send_call PRE_TOOL_USE)
    fresh_ledger) as (d & w' & Hd & _ & Hrow).
  destruct Hrow as [(Ho & _)|(_ & _ & Hno)].
  - split; [discriminate|]. split; [reflexivity|]. left. reflexivity.
  - exists d, w'. split; [exact Hd|]. split; [exact Ho|]. vm_compute in Hd. injection Hd as _ <-. reflexivity.
  - exfalso. destruct Hno as [|[Hno|Hno]]; [discriminate| |]; apply Hno; vm_compute; reflexivity.
Defined.

Lemma recorded_ledger_ok : ledger_ok (part recorded_ledger).
Proof.
  pose proof (se_record_step (Some (call_key (send_call PRE_TOOL_USE))) "run" 3 "send_email" NO_PROBE
    (<["subject" := VStr (call_key (send_call PRE_TOOL_USE))]>
       (<["effect" := VStr "write"]> {[ PRE_RECORDED := VBool true ]})) true
    (identity_kwargs no_calls (Some "c1")) some_stamp fresh_ledger fresh_ledger_ok) as [H _].
  exact H.
Qed.

Lemma post_settles_own_row_witness :
  ∃ d w', post_ledger_call (λ _, no_calls) (λ _, some_stamp) no_json true (send_call POST_TOOL_USE)
            recorded_ledger = (Ok d, w') ∧
    outcome d = allow ∧ map se_status (se_rows w') = ["completed"].
Proof.
  destruct (post_settles_own_row (λ _, no_calls) (λ _, some_stamp) no_json true
    (send_call POST_TOOL_USE) recorded_ledger recorded_ledger_ok) as (d & w' & Hd & Ho & _).
  exists d, w'. split; [exact Hd|]. split; [exact Ho|].
  vm_compute in Hd. injection Hd as _ <-. reflexivity.
Defined.
