(* ===== verification/Devices.v ===== *)
(** * Paired devices ([devices/throttle.py], [devices/store.py], [devices/service.py])

    The sliding window over failed claims, the tables of pairing codes and devices and the
    service that pairs, verifies and revokes.  Instants are microseconds; the random code,
    token and device id, the clocks and the digest are arguments. *)

From S2P Require Import Prelude PyVal PyText Hooks Kernel.
From stdpp Require Import options.

(** ** The throttle *)

Definition CLAIM_FAILURE_LIMIT : nat := 10.
Definition CLAIM_FAILURE_WINDOW : Z := 60 * SECOND.

Record ClaimThrottle := {
  limit : nat;
  window : Z;
  failures : list Z;      (* oldest first *)
  tripped : bool;
}.

(** [while failures and now - failures[0] >= window: failures.popleft()] *)
Fixpoint drop_old (window now : Z) (l : list Z) : list Z :=
  match l with
  | [] => []
  | t :: l' => if (window <=? now - t)%Z then drop_old window now l' else l
  end.

(** [_expire] *)
Definition expire (now : Z) (th : ClaimThrottle) : ClaimThrottle :=
  let kept := drop_old (window th) now (failures th) in
  {| limit := limit th; window := window th; failures := kept;
     tripped := if Nat.ltb (length kept) (limit th) then false else tripped th |}.

Definition ceil_seconds (us : Z) : Z := (- ((- us) / SECOND))%Z.

(** [retry_after()]; the index is in range: the window is full. *)
Definition retry_after (now : Z) : M ClaimThrottle (option Z) := λ th,
  let th' := expire now th in
  if Nat.ltb (length (failures th')) (limit th') then (Ok None, th')
  else
    let reopening := default now (failures th' !! (length (failures th') - limit th')) in
    (Ok (Some (Z.max 1 (ceil_seconds (reopening + window th' - now)))), th').

Definition record_failure (now : Z) : M ClaimThrottle bool := λ th,
  let th1 := expire now th in
  let fs := failures th1 ++ [now] in
  let trips := Nat.leb (limit th1) (length fs) && negb (tripped th1) in
  (Ok trips, {| limit := limit th1; window := window th1; failures := fs;
                tripped := tripped th1 || trips |}).

(** ** The store *)

Record DeviceRow := {
  device_id : string;
  dev_name : string;
  dev_kind : string;
  dev_scope : string;
  token_hash : string;
  dev_created_at : Z;
  last_seen_at : option Z;
  dev_revoked_at : option Z;
}.

Record CodeRow := {
  code_hash : string;
  code_scope : string;
  code_created_at : Z;
  expires_at : Z;
  attempts : Z;
  used_at : option Z;
}.

Record DeviceStore := { devices : list DeviceRow; codes : list CodeRow }.

Definition code_is (h : string) (c : CodeRow) : bool := String.eqb (code_hash c) h.
Definition device_is (id : string) (d : DeviceRow) : bool := String.eqb (device_id d) id.

Definition live_code (now : Z) (c : CodeRow) : bool :=
  bool_decide (used_at c = None) && (now <? expires_at c)%Z.

Definition integrity (what : string) : exn := Exn "IntegrityError" ("UNIQUE constraint failed: " +:+ what).

Definition add_pairing_code (h scope : string) (now ttl : Z) : M DeviceStore Z := λ s,
  let kept := select_where (λ c, negb (bool_decide (used_at c ≠ None) || (expires_at c <=? now)%Z))
                (codes s) in
  if existsb (code_is h) kept then (Raise (integrity "pairing_codes.code_hash"), s)
  else (Ok (now + ttl)%Z,
        {| devices := devices s;
           codes := kept ++ [{| code_hash := h; code_scope := scope; code_created_at := now;
                                expires_at := now + ttl; attempts := 0; used_at := None |}] |}).

Definition spend (now : Z) (c : CodeRow) : CodeRow :=
  {| code_hash := code_hash c; code_scope := code_scope c; code_created_at := code_created_at c;
     expires_at := expires_at c; attempts := attempts c; used_at := Some now |}.

Definition claimable_code (h : string) (now max_attempts : Z) (c : CodeRow) : bool :=
  code_is h c && (live_code now c && (attempts c <? max_attempts)%Z).

Definition new_device (id name kind scope th : string) (now : Z) : DeviceRow :=
  {| device_id := id; dev_name := name; dev_kind := kind; dev_scope := scope; token_hash := th;
     dev_created_at := now; last_seen_at := None; dev_revoked_at := None |}.

(** One transaction: an error rolls the spent code back. *)
Definition store_claim (h th name kind : string) (now max_attempts : Z) (uuid : string)
    : M DeviceStore (option DeviceRow) := λ s,
  let hit := claimable_code h now max_attempts in
  if negb (Nat.eqb (count_where hit (codes s)) 1) then (Ok None, s)
  else
    let codes' := update_where hit (spend now) (codes s) in
    match select_one (code_is h) codes' with
    | None => (Raise (Exn "TypeError" "'NoneType' object is not subscriptable"), s)
    | Some c =>
        let d := new_device uuid name kind (code_scope c) th now in
        if existsb (λ d', device_is uuid d' || String.eqb (token_hash d') th) (devices s)
        then (Raise (integrity "devices"), s)
        else (Ok (Some d), {| devices := devices s ++ [d]; codes := codes' |})
    end.

Definition charge (c : CodeRow) : CodeRow :=
  {| code_hash := code_hash c; code_scope := code_scope c; code_created_at := code_created_at c;
     expires_at := expires_at c; attempts := attempts c + 1; used_at := used_at c |}.

Definition record_failed_claim (now max_attempts : Z) : M DeviceStore nat := λ s,
  let voided := count_where (λ c, live_code now c && (attempts c =? max_attempts - 1)%Z) (codes s) in
  (Ok voided,
   {| devices := devices s;
      codes := update_where (λ c, live_code now c && (attempts c <? max_attempts)%Z) charge (codes s) |}).

Definition find_live (th : string) (s : DeviceStore) : option DeviceRow :=
  select_one (λ d, String.eqb (token_hash d) th && bool_decide (dev_revoked_at d = None)) (devices s).

Definition seen_at (now : Z) (d : DeviceRow) : DeviceRow :=
  {| device_id := device_id d; dev_name := dev_name d; dev_kind := dev_kind d;
     dev_scope := dev_scope d; token_hash := token_hash d; dev_created_at := dev_created_at d;
     last_seen_at := Some now; dev_revoked_at := dev_revoked_at d |}.

Definition touch (id : string) (now min_interval : Z) : M DeviceStore unit :=
  modify (λ s, {| devices := update_where
                    (λ d, device_is id d && match last_seen_at d with
                                            | None => true
                                            | Some t => (t <? now - min_interval)%Z
                                            end) (seen_at now) (devices s);
                  codes := codes s |}).

Definition device_get (id : string) (s : DeviceStore) : option DeviceRow :=
  select_one (device_is id) (devices s).

Definition revoke_device (now : Z) (d : DeviceRow) : DeviceRow :=
  {| device_id := device_id d; dev_name := dev_name d; dev_kind := dev_kind d;
     dev_scope := dev_scope d; token_hash := token_hash d; dev_created_at := dev_created_at d;
     last_seen_at := last_seen_at d; dev_revoked_at := Some now |}.

Definition store_revoke (id : string) (now : Z) : M DeviceStore (DeviceRow * bool) := λ s,
  let hit := λ d, device_is id d && bool_decide (dev_revoked_at d = None) in
  let s' := {| devices := update_where hit (revoke_device now) (devices s); codes := codes s |} in
  match device_get id s' with
  | None => (Raise (Exn "DeviceNotFoundError" id), s')
  | Some d => (Ok (d, Nat.eqb (count_where hit (devices s)) 1), s')
  end.

(** ** The service *)

Definition TOKEN_PREFIX : string := "evarnessd_".
Definition PAIRING_CODE_TTL : Z := 300 * SECOND.
Definition PAIRING_MAX_ATTEMPTS : Z := 5.
Definition LAST_SEEN_RESOLUTION : Z := 60 * SECOND.
Definition MAX_NAME_LENGTH : nat := 64.

Definition is_alnum (c : ascii) : bool :=
  let n := N_of_ascii c in
  ((48 <=? n) && (n <=? 57) || (65 <=? n) && (n <=? 90) || (97 <=? n) && (n <=? 122))%N.

Fixpoint str_filter (p : ascii → bool) (s : string) : string :=
  match s with
  | EmptyString => EmptyString
  | String c s' => if p c then String c (str_filter p s') else str_filter p s'
  end.

(** Pairing codes are typed in ASCII. *)
Definition normalise_code (code : string) : string := str_filter is_alnum (str_map ascii_upper code).

(** [s.split()] *)
Fixpoint split_ws (s : string) (word : string) : list string :=
  match s with
  | EmptyString => if str_truthy word then [String.rev word] else []
  | String c s' =>
      if is_space c then
        if str_truthy word then String.rev word :: split_ws s' "" else split_ws s' ""
      else split_ws s' (String c word)
  end.

Definition is_printable (c : ascii) : bool :=
  let n := N_of_ascii c in ((32 <=? n) && (n <=? 126) || (161 <=? n) && negb (n =? 173))%N.

Definition clean_name (name : string) : res string :=
  let cleaned := join " " (split_ws name "") in
  if negb (str_truthy cleaned) || Nat.ltb MAX_NAME_LENGTH (String.length cleaned)
     || negb (str_all is_printable cleaned)
  then Raise (Exn "ValueError" "device name must be 1-64 printable characters")
  else Ok cleaned.

Section service.
Context {W : Type} `{!Part W DeviceStore, !Part W ClaimThrottle}.
Context (record : AuditRow → M W Z) (digest : string → string).

Definition device_row (decision subject sev why : string) (p : dict) : AuditRow :=
  {| row_run_id := "device:" +:+ subject; row_step_id := None; row_agent_type := "devices";
     row_hook_point := "device_pairing"; row_plugin := "DeviceService"; row_decision := decision;
     row_severity := sev; row_reason := why; row_classification := None; row_tier := None;
     row_payload := p |}.

(** [start_pairing]; [raw] is the random code. *)
Definition start_pairing (scope actor raw : string) (now : Z) : M W (string * string * Z) :=
  if negb (str_in scope ["read"; "control"]) then
    raise (Exn "ValueError" "scope must be one of ['control', 'read']")
  else
    expires ← on_part (add_pairing_code (digest raw) scope now PAIRING_CODE_TTL);
    record (device_row "pairing_started" "pairing" "info"
      ("pairing code issued by " +:+ actor +:+ " for a " +:+ scope +:+ " device")
      (<["actor" := VStr actor]> (<["scope" := VStr scope]>
        {[ "expires_at" := VStr (isoformat expires) ]})));;
    mret (String.substring 0 4 raw +:+ "-" +:+ str_drop 4 raw, scope, expires).

(** What a refused claim records and raises. *)
Definition refuse_claim (now mono : Z) {A} : M W A :=
  voided ← on_part (record_failed_claim now PAIRING_MAX_ATTEMPTS);
  (if Nat.ltb 0 voided then
     _ ← record (device_row "pairing_code_voided" "pairing" "warn"
       (pretty voided +:+ " pairing code(s) voided after " +:+ pretty PAIRING_MAX_ATTEMPTS
        +:+ " failed claims") {[ "voided" := VInt (Z.of_nat voided) ]});
     mret tt
   else mret tt);;
  trips ← on_part (record_failure mono);
  th ← gets (part (T := ClaimThrottle));
  (if trips : bool then
     _ ← record (device_row "pairing_throttled" "pairing" "warn"
       ("claims paused: " +:+ pretty (limit th) +:+ " failed claims within "
        +:+ pretty (window th / SECOND)%Z +:+ "s")
       (<["limit" := VInt (Z.of_nat (limit th))]>
          {[ "window_seconds" := VInt (window th / SECOND) ]}));
     mret tt
   else mret tt);;
  raise (Exn "PairingRefusedError" "pairing code is not valid").

(** [claim]; [mono1] and [mono2] are what the throttle's clock reads, [secret] is
    [secrets.token_urlsafe(32)]. *)
Definition claim (code name kind : string) (now mono1 mono2 : Z) (secret uuid : string)
    : M W (DeviceRow * string) :=
  wait ← on_part (retry_after mono1);
  match wait with
  | Some s => raise (Exn "PairingThrottledError" "too many pairing attempts")
  | None =>
      if negb (str_in kind ["app"; "browser"]) then
        raise (Exn "ValueError" "kind must be one of ['app', 'browser']")
      else
        match clean_name name with
        | Raise e => raise e
        | Ok cleaned =>
            let token := TOKEN_PREFIX +:+ secret in
            device ← on_part (store_claim (digest (normalise_code code)) (digest token) cleaned kind
                                now PAIRING_MAX_ATTEMPTS uuid);
            match device with
            | None => refuse_claim now mono2
            | Some d =>
                record (device_row "paired" (device_id d) "info"
                  ("device paired: " +:+ dev_name d +:+ " (" +:+ dev_kind d +:+ ", " +:+ dev_scope d +:+ ")")
                  (<["device_id" := VStr (device_id d)]> (<["name" := VStr (dev_name d)]>
                    (<["kind" := VStr (dev_kind d)]> {[ "scope" := VStr (dev_scope d) ]}))));;
                mret (d, token)
            end
        end
  end.

(** [verify] *)
Definition verify_token (token : string) (now : Z) : M W (option (string * string)) :=
  if negb (startswith TOKEN_PREFIX token) then mret None
  else
    device ← gets (find_live (digest token) ∘ part);
    match device with
    | None => mret None
    | Some d =>
        on_part (touch (device_id d) now LAST_SEEN_RESOLUTION);;
        mret (Some (device_id d, dev_scope d))
    end.

Definition revoke (id actor : string) (now : Z) : M W DeviceRow :=
  x ← on_part (store_revoke id now);
  let '(d, changed) := x in
  (if changed : bool then
     _ ← record (device_row "revoked" (device_id d) "warn"
       ("device revoked by " +:+ actor +:+ ": " +:+ dev_name d)
       (<["device_id" := VStr (device_id d)]> (<["name" := VStr (dev_name d)]>
         {[ "actor" := VStr actor ]})));
     mret tt
   else mret tt);;
  mret d.
End service.

(** ** Sequences of store operations *)

Inductive device_op :=
| DAdd (h scope : string) (now ttl : Z)
| DClaim (h th name kind : string) (now : Z) (uuid : string)
| DFail (now : Z)
| DTouch (id : string) (now min_interval : Z)
| DRevoke (id : string) (now : Z).

Definition run_op (o : device_op) (s : DeviceStore) : DeviceStore :=
  match o with
  | DAdd h sc now ttl => (add_pairing_code h sc now ttl s).2
  | DClaim h th n k now u => (store_claim h th n k now PAIRING_MAX_ATTEMPTS u s).2
  | DFail now => (record_failed_claim now PAIRING_MAX_ATTEMPTS s).2
  | DTouch id now mi => (touch id now mi s).2
  | DRevoke id now => (store_revoke id now s).2
  end.

Definition run_ops (os : list device_op) (s : DeviceStore) : DeviceStore :=
  fold_left (λ s o, run_op o s) os s.

Definition store_ok (s : DeviceStore) : Prop :=
  NoDup (map code_hash (codes s)) ∧ NoDup (map device_id (devices s)).

Definition code_of (h : string) (s : DeviceStore) : option CodeRow :=
  select_one (code_is h) (codes s).

(** Whether an operation paired a device with the code [h], and whether it was a wrong guess
    charged to it. *)
Definition pairs_with (h : string) (o : device_op) (s : DeviceStore) : nat :=
  match o with
  | DClaim h' th n k now u =>
      match store_claim h' th n k now PAIRING_MAX_ATTEMPTS u s with
      | (Ok (Some _), _) => if String.eqb h' h then 1 else 0
      | _ => 0
      end
  | _ => 0
  end.

(** The same, of a claim made at [e] or later. *)
Definition pairs_late (e : Z) (h : string) (o : device_op) (s : DeviceStore) : nat :=
  match o with
  | DClaim _ _ _ _ now _ => if (e <=? now)%Z then pairs_with h o s else 0
  | _ => 0
  end.

Definition guess_at (h : string) (o : device_op) (s : DeviceStore) : nat :=
  match o with
  | DFail now => match code_of h s with Some c => if live_code now c then 1 else 0 | None => 0 end
  | _ => 0
  end.

Fixpoint sum_ops (f : device_op → DeviceStore → nat) (os : list device_op) (s : DeviceStore) : nat :=
  match os with
  | [] => 0
  | o :: os' => f o s + sum_ops f os' (run_op o s)
  end.

(** The wrong guesses a code can still take. *)
Definition budget (h : string) (s : DeviceStore) : nat :=
  match code_of h s with
  | Some c => if bool_decide (used_at c = None) then Z.to_nat (PAIRING_MAX_ATTEMPTS - attempts c) else 0
  | None => 0
  end.

Definition adds (h : string) (o : device_op) : bool :=
  match o with DAdd h' _ _ _ => String.eqb h' h | _ => false end.

Lemma code_of_update h p f s :
  (∀ c, code_hash (f c) = code_hash c) →
  select_one (code_is h) (update_where p f (codes s))
  = (λ c, if p c then f c else c) <$> code_of h s.
Proof. intros Hf. apply select_one_update_where. intros c. unfold code_is. by rewrite Hf. Qed.

Lemma code_of_id h s c : code_of h s = Some c → code_hash c = h.
Proof. by intros [_ ?%String.eqb_eq]%select_one_Some. Qed.

Lemma claimable_count h now m s :
  NoDup (map code_hash (codes s)) →
  count_where (claimable_code h now m) (codes s)
  = match code_of h s with
    | Some c => if live_code now c && (attempts c <? m)%Z then 1 else 0
    | None => 0
    end.
Proof. intros Hd. unfold claimable_code, code_is. by apply count_where_key. Qed.

(** What a claim does to the tables. *)
Lemma store_claim_cases h th n k now m u s :
  NoDup (map code_hash (codes s)) →
  (∃ c d, code_of h s = Some c ∧ used_at c = None ∧ (now < expires_at c)%Z ∧ (attempts c < m)%Z ∧
     device_id d = u ∧ (u ∉ map device_id (devices s)) ∧ dev_revoked_at d = None ∧
     store_claim h th n k now m u s
     = (Ok (Some d), {| devices := devices s ++ [d];
                        codes := update_where (claimable_code h now m) (spend now) (codes s) |})) ∨
  (∃ r, store_claim h th n k now m u s = (r, s) ∧ ∀ d, r ≠ Ok (Some d)).
Proof.
  intros Hd. unfold store_claim. rewrite claimable_count by done.
  destruct (code_of h s) as [c|] eqn:Hc; [|right; eexists; by split].
  destruct (live_code now c && (attempts c <? m)%Z) eqn:Hl; simpl; [|right; eexists; by split].
  rewrite code_of_update, Hc by done. simpl.
  destruct (existsb _ _) eqn:Hex; [right; eexists; by split|].
  unfold live_code in Hl. to_props. left.
  exists c, (new_device u n k (code_scope c) th now). split_and!; try done.
  - intros (d & Hid & Hd')%list_elem_of_fmap.
    assert (existsb (λ d', device_is u d' || String.eqb (token_hash d') th) (devices s) = true);
      [|congruence].
    apply existsb_exists. exists d. split; [by apply list_elem_of_In|].
    unfold device_is. by rewrite <- Hid, String.eqb_refl.
  - by destruct (claimable_code h now m c).
Qed.

Lemma code_of_other h h' now m s :
  h' ≠ h →
  select_one (code_is h) (update_where (claimable_code h' now m) (spend now) (codes s)) = code_of h s.
Proof.
  intros Hne. rewrite code_of_update by done. destruct (code_of h s) as [c|] eqn:Hc; [|done]. simpl.
  unfold claimable_code, code_is. rewrite (code_of_id _ _ _ Hc).
  by rewrite (proj2 (String.eqb_neq h h')) by done.
Qed.

Lemma select_one_filter {R} (q p : R → bool) (t : list R) (key : R → string) k :
  NoDup (map key t) → (∀ r, q r = String.eqb (key r) k) →
  select_one q (select_where p t)
  = match select_one q t with Some r => if p r then Some r else None | None => None end.
Proof.
  intros Hd Hq. unfold select_one, select_where. induction t as [|r t IH]; simpl; [done|].
  apply NoDup_cons in Hd as [Hn Hd]. destruct (p r) eqn:Hp, (q r) eqn:Hqr; simpl.
  - by rewrite Hqr, Hp.
  - rewrite Hqr. by apply IH.
  - rewrite Hp. rewrite IH by done. destruct (List.find q t) as [r'|] eqn:Hf; [|done].
    exfalso. apply find_some in Hf as [Hin Hqr']. apply Hn.
    rewrite Hq in Hqr, Hqr'. apply String.eqb_eq in Hqr, Hqr'. rewrite Hqr, <- Hqr'.
    apply list_elem_of_fmap_2. by apply list_elem_of_In.
  - by apply IH.
Qed.

Lemma NoDup_select {R K} (key : R → K) (p : R → bool) (t : list R) :
  NoDup (map key t) → NoDup (map key (select_where p t)).
Proof.
  unfold select_where. induction t as [|r t IH]; simpl; [done|]. intros [Hn Hd]%NoDup_cons.
  destruct (p r); simpl; [|auto]. apply NoDup_cons. split; [|auto].
  intros (r' & Hk & Hr')%list_elem_of_fmap. apply Hn. rewrite Hk. apply list_elem_of_fmap_2.
  change (List.filter p t) with (select_where p t) in Hr'.
  by apply elem_of_select_where in Hr' as [? _].
Qed.

Lemma NoDup_snoc_map {R K} (key : R → K) (t : list R) r :
  NoDup (map key t) → key r ∉ map key t → NoDup (map key (t ++ [r])).
Proof.
  intros Hd Hn. rewrite map_app. apply NoDup_app. split_and!; [done| |apply NoDup_singleton].
  by intros x Hx ->%list_elem_of_singleton.
Qed.

Lemma run_op_ok o s : store_ok s → store_ok (run_op o s).
Proof.
  intros [Hc Hd]. destruct o as [h sc now ttl|h th n k now u|now|id now mi|id now]; simpl.
  - unfold add_pairing_code. destruct (existsb _ _) eqn:Hex; simpl; [done|]. split; [|done].
    apply NoDup_snoc_map; [by apply NoDup_select|]. simpl. intros (c & Hh & Hin)%list_elem_of_fmap.
    match type of Hex with existsb _ ?l = _ => assert (existsb (code_is h) l = true); [|congruence] end.
    apply existsb_exists. exists c. split; [by apply list_elem_of_In|].
    unfold code_is. by rewrite <- Hh, String.eqb_refl.
  - destruct (store_claim_cases h th n k now PAIRING_MAX_ATTEMPTS u s Hc)
      as [(c & d & _ & _ & _ & _ & Hid & Hu & _ & ->)|(r & -> & _)]; simpl; [|done].
    split; simpl; [by rewrite map_update_where|]. apply NoDup_snoc_map; [done|]. by rewrite Hid.
  - split; simpl; [by rewrite map_update_where|done].
  - split; simpl; [done|by rewrite map_update_where].
  - unfold store_revoke. destruct (device_get _ _); simpl; (split; [done|]); simpl;
      by rewrite map_update_where.
Qed.

(** One operation: a pairing needs budget and ends it, a guess costs one. *)
Lemma run_op_budget h o s :
  store_ok s → adds h o = false →
  budget h (run_op o s) ≤ budget h s - guess_at h o s ∧
  (pairs_with h o s = 0 ∨ pairs_with h o s = 1 ∧ 0 < budget h s ∧ budget h (run_op o s) = 0).
Proof.
  intros [Hc Hd] Ha. destruct o as [h' sc now ttl|h' th n k now u|now|id now mi|id now]; simpl in *.
  - split; [|by left]. unfold add_pairing_code. destruct (existsb _ _); simpl; [lia|].
    unfold budget, code_of. simpl. rewrite select_one_app.
    rewrite (select_one_filter _ _ _ code_hash h) by done.
    fold (code_of h s). destruct (code_of h s) as [c|].
    + destruct (negb _); [lia|]. unfold select_one. simpl. unfold code_is. simpl. rewrite Ha. lia.
    + unfold select_one. simpl. unfold code_is. simpl. rewrite Ha. lia.
  - destruct (store_claim_cases h' th n k now PAIRING_MAX_ATTEMPTS u s Hc)
      as [(c & d & Hco & Hu & Hx & Hat & _ & _ & _ & ->)|(r & -> & Hr)]; simpl.
    + destruct (String.eqb_spec h' h) as [->|Hne].
      * assert (budget h {| devices := devices s ++ [d]; codes :=
          update_where (claimable_code h now PAIRING_MAX_ATTEMPTS) (spend now) (codes s) |} = 0) as ->.
        { unfold budget, code_of. simpl. rewrite code_of_update, Hco by done. simpl.
          unfold claimable_code, live_code, code_is. rewrite (code_of_id _ _ _ Hco), String.eqb_refl.
          rewrite (bool_decide_eq_true_2 _ Hu). simpl.
          apply Z.ltb_lt in Hx, Hat. by rewrite Hx, Hat. }
        split; [lia|]. right. split_and!; [done| |done].
        unfold budget. rewrite Hco, bool_decide_eq_true_2 by done. lia.
      * split; [|by left]. unfold budget, code_of. simpl. rewrite code_of_other by done. fold (code_of h s). lia.
    + split; [lia|]. left. destruct r as [[d|]|]; [by destruct (Hr d)|done..].
  - split; [|by left]. unfold budget, code_of. simpl. rewrite code_of_update by done.
    fold (code_of h s). destruct (code_of h s) as [c|]; simpl; [|lia].
    destruct (live_code now c) eqn:Hl; simpl; [|lia]. unfold live_code in Hl. to_props.
    destruct (attempts c <? PAIRING_MAX_ATTEMPTS)%Z eqn:Hat; to_props; simpl;
      rewrite bool_decide_eq_true_2 by done; lia.
  - split; [|by left]. unfold budget, code_of. simpl. lia.
  - split; [|by left]. unfold store_revoke.
    destruct (device_get _ _); simpl; unfold budget, code_of; simpl; lia.
Qed.

Lemma run_ops_budget h os s :
  store_ok s → existsb (adds h) os = false →
  budget h (run_ops os s) ≤ budget h s - sum_ops (guess_at h) os s ∧
  (sum_ops (pairs_with h) os s = 0 ∨
   sum_ops (pairs_with h) os s = 1 ∧ 0 < budget h s ∧ budget h (run_ops os s) = 0).
Proof.
  revert s. induction os as [|o os IH]; intros s Hok; simpl; [intros _; split; [lia|by left]|].
  intros [Ha Hos]%orb_false_iff. destruct (run_op_budget h o s Hok Ha) as [B1 P1].
  destruct (IH (run_op o s) (run_op_ok o s Hok) Hos) as [B2 P2].
  change (run_ops (o :: os) s) with (run_ops os (run_op o s)). split; [lia|].
  lia.
Qed.

Lemma run_ops_app os1 os2 s : run_ops (os1 ++ os2) s = run_ops os2 (run_ops os1 s).
Proof. apply fold_left_app. Qed.

Lemma run_ops_ok os s : store_ok s → store_ok (run_ops os s).
Proof.
  revert s. induction os as [|o os IH]; intros s Hok; simpl; [done|]. by apply IH, run_op_ok.
Qed.

(** The expiry a code has, it keeps. *)
Definition expires_by (e : Z) (h : string) (s : DeviceStore) : Prop := ∀ c, code_of h s = Some c → expires_at c = e.

Lemma expires_by_update e h p f s ds :
  (∀ c, code_hash (f c) = code_hash c ∧ expires_at (f c) = expires_at c) → expires_by e h s →
  expires_by e h {| devices := ds; codes := update_where p f (codes s) |}.
Proof.
  intros Hf He c. unfold code_of. simpl. rewrite code_of_update by apply Hf.
  intros (c0 & Hc0 & ->)%fmap_Some. destruct (p c0); [rewrite (proj2 (Hf c0))|]; by apply He.
Qed.

Lemma run_op_expiry e h o s :
  store_ok s → adds h o = false → expires_by e h s → expires_by e h (run_op o s) ∧ pairs_late e h o s = 0.
Proof.
  intros [Hc Hd] Ha He. destruct o as [h' sc now ttl|h' th n k now u|now|id now mi|id now]; simpl in *.
  - split; [|done]. unfold add_pairing_code. destruct (existsb _ _); [done|]. intros c. unfold code_of. simpl.
    rewrite select_one_app, (select_one_filter _ _ _ code_hash h) by done. fold (code_of h s).
    unfold expires_by in He. unfold select_one at 1. simpl. unfold code_is at 1. simpl. rewrite Ha.
    destruct (code_of h s) as [c0|]; [|done]. destruct (negb _); [|done]. intros [= <-]. by apply He.
  - destruct (store_claim_cases h' th n k now PAIRING_MAX_ATTEMPTS u s Hc)
      as [(c & d & Hco & Hu & Hx & Hat & _ & _ & _ & ->)|(r & -> & Hr)]; simpl.
    + split; [by apply expires_by_update|]. destruct (Z.leb_spec e now) as [Hle|]; [|done].
      destruct (String.eqb_spec h' h) as [->|]; [|done]. apply He in Hco. lia.
    + split; [done|]. destruct (e <=? now)%Z; [|done]. destruct r as [[d|]|]; [by destruct (Hr d)|done..].
  - split; [|done]. by apply expires_by_update.
  - by split.
  - split; [|done]. unfold store_revoke. by destruct (device_get _ _).
Qed.

Lemma run_ops_expiry e h os s :
  store_ok s → existsb (adds h) os = false → expires_by e h s → sum_ops (pairs_late e h) os s = 0.
Proof.
  revert s. induction os as [|o os IH]; intros s Hok; simpl; [done|]. intros [Ha Hos]%orb_false_iff He.
  destruct (run_op_expiry e h o s Hok Ha He) as [He' ->]. simpl. apply IH; [by apply run_op_ok|done|done].
Qed.

(** What issuing a code leaves. *)
Lemma issued_code h scope now ttl s e s0 :
  store_ok s → add_pairing_code h scope now ttl s = (Ok e, s0) →
  store_ok s0 ∧ budget h s0 = 5 ∧ expires_by e h s0.
Proof.
  intros Hok Hadd. pose proof (run_op_ok (DAdd h scope now ttl) s Hok) as Hs. simpl in Hs. rewrite Hadd in Hs.
  split; [done|]. unfold add_pairing_code in Hadd. destruct (existsb _ _) eqn:Hex; [done|].
  injection Hadd as <- <-. unfold budget, expires_by, code_of. simpl. rewrite select_one_app.
  destruct (select_one (code_is h) (select_where _ _)) as [c|] eqn:Hc.
  - apply select_one_Some in Hc as [Hin Hc]. exfalso.
    match type of Hex with existsb _ ?l = _ => assert (existsb (code_is h) l = true); [|congruence] end.
    apply existsb_exists. exists c. split; [by apply list_elem_of_In|done].
  - unfold select_one. simpl. unfold code_is. simpl. rewrite String.eqb_refl. split; [done|]. by intros c [= <-].
Qed.

(** C36. A pairing code is spent once, guessed at most five times and dies with its time: after
    a code is issued, whatever claims, guesses, touches, revocations and other codes follow in
    any order and from any process, at most one claim pairs a device with it; once five wrong
    guesses were made while it was live, no claim does any more; and no claim at or after the
    expiry it was issued with ever does. *)
Theorem pairing_code_bounded h scope now ttl s e s0 os1 os2 :
  store_ok s → add_pairing_code h scope now ttl s = (Ok e, s0) →
  existsb (adds h) (os1 ++ os2) = false →
  sum_ops (pairs_with h) (os1 ++ os2) s0 ≤ 1 ∧
  (5 ≤ sum_ops (guess_at h) os1 s0 → sum_ops (pairs_with h) os2 (run_ops os1 s0) = 0) ∧
  sum_ops (pairs_late e h) (os1 ++ os2) s0 = 0.
Proof.
  intros Hok Hadd Hos. destruct (issued_code _ _ _ _ _ _ _ Hok Hadd) as (Hok0 & Hb & He).
  split_and!; [| |by apply run_ops_expiry].
  - destruct (run_ops_budget h _ s0 Hok0 Hos) as [_ [-> |(-> & _)]]; lia.
  - intros Hg. rewrite existsb_app in Hos. apply orb_false_iff in Hos as [H1 H2].
    destruct (run_ops_budget h os1 s0 Hok0 H1) as [B1 _].
    destruct (run_ops_budget h os2 _ (run_ops_ok os1 s0 Hok0) H2) as [_ [-> |(_ & Hp & _)]]; lia.
Qed.

(** ** Revocation *)

Definition locked_out (id : string) (s : DeviceStore) : Prop :=
  ∀ d, d ∈ devices s → device_id d = id → dev_revoked_at d ≠ None.

Lemma run_op_locked id o s :
  store_ok s → locked_out id s → id ∈ map device_id (devices s) →
  locked_out id (run_op o s) ∧ id ∈ map device_id (devices (run_op o s)).
Proof.
  intros [Hc Hd] Hl Hin. destruct o as [h' sc now ttl|h' th n k now u|now|id' now mi|id' now]; simpl.
  - unfold add_pairing_code. by destruct (existsb _ _).
  - destruct (store_claim_cases h' th n k now PAIRING_MAX_ATTEMPTS u s Hc)
      as [(c & d & _ & _ & _ & _ & Hid & Hu & _ & ->)|(r & -> & Hr)]; simpl; [|done]. split.
    + intros d' [Hd'| ->%list_elem_of_singleton]%elem_of_app Hid'; [by apply Hl|].
      destruct Hu. by rewrite <- Hid, Hid'.
    + rewrite map_app. apply elem_of_app. by left.
  - done.
  - split; simpl; [|by rewrite map_update_where].
    intros d (d0 & Hd0 & ->)%elem_of_update_where. destruct (_ && _); simpl; apply Hl; done.
  - unfold store_revoke. destruct (device_get _ _); simpl;
      (split; simpl; [|by rewrite map_update_where]);
      intros d' (d0 & Hd0 & ->)%elem_of_update_where; destruct (_ && _); simpl; auto.
Qed.

(** Revoking a device locks it out for good: after a revoke, whatever is paired, claimed,
    touched or revoked in any order, no token at all is ever verified as that device again. *)
Theorem revoked_device_locked_out id now s d changed s1 os th d' :
  store_ok s → store_revoke id now s = (Ok (d, changed), s1) →
  find_live th (run_ops os s1) = Some d' → device_id d' ≠ id.
Proof.
  intros Hok Hr Hf Hid.
  assert (store_ok s1 ∧ locked_out id s1 ∧ id ∈ map device_id (devices s1)) as (Hok1 & Hl & Hin).
  { pose proof (run_op_ok (DRevoke id now) s Hok) as Hs. simpl in Hs. rewrite Hr in Hs.
    split; [done|]. unfold store_revoke in Hr. destruct (device_get id _) as [d1|] eqn:Hg; [|done].
    injection Hr as _ _ <-. split.
    - simpl. intros d2 (d0 & Hd0 & ->)%elem_of_update_where Hid2. unfold device_is in *.
      destruct (String.eqb_spec (device_id d0) id) as [He|He]; simpl in *; [|done].
      case_bool_decide; simpl; done.
    - unfold device_get in Hg. apply select_one_Some in Hg as [Hin Hi%String.eqb_eq].
      apply list_elem_of_fmap. by exists d1. }
  clear Hr Hok. revert s1 Hok1 Hl Hin Hf. induction os as [|o os IH]; intros s1 Hok1 Hl Hin Hf.
  - apply select_one_Some in Hf as [Hd' Hq]. to_props. by apply (Hl d').
  - destruct (run_op_locked id o s1 Hok1 Hl Hin) as [Hl1 Hin1].
    apply (IH (run_op o s1)); [by apply run_op_ok|done..].
Qed.

(** ** The window *)

(** The calls one process makes on its throttle. *)
Inductive throttle_call := TFail (now : Z) | TCheck (now : Z).

Definition call_time (c : throttle_call) : Z := match c with TFail t | TCheck t => t end.

Definition throttle_step (th : ClaimThrottle) (c : throttle_call) : ClaimThrottle :=
  match c with
  | TFail t => (record_failure t th).2
  | TCheck t => (retry_after t th).2
  end.

Definition all_failures (cs : list throttle_call) : list Z :=
  flat_map (λ c, match c with TFail t => [t] | TCheck _ => [] end) cs.

Definition recent (w now : Z) (l : list Z) : list Z := select_where (λ t, now - t <? w)%Z l.

Definition fresh_throttle (l : nat) (w : Z) : ClaimThrottle :=
  {| limit := l; window := w; failures := []; tripped := false |}.

(** A monotonic clock: the times of [cs] never go back and end by [now]. *)
Fixpoint clock_from (t : Z) (cs : list throttle_call) (now : Z) : Prop :=
  match cs with
  | [] => (t ≤ now)%Z
  | c :: cs' => (t ≤ call_time c)%Z ∧ clock_from (call_time c) cs' now
  end.

Definition ascending (l : list Z) : Prop := StronglySorted Z.le l.

Lemma drop_old_recent w now l : ascending l → drop_old w now l = recent w now l.
Proof.
  induction 1 as [|t l Hs IH Hf]; [done|]. unfold recent in *. simpl.
  destruct (Z.leb_spec w (now - t)), (Z.ltb_spec (now - t) w); try lia; [done|].
  f_equal. unfold select_where. clear IH Hs.
  induction Hf as [|t' l Ht' Hf IH]; simpl; [done|].
  destruct (Z.ltb_spec (now - t') w); [|lia]. by rewrite <- IH.
Qed.

Lemma recent_recent w now now' l :
  (now ≤ now')%Z → recent w now' (recent w now l) = recent w now' l.
Proof.
  intros Hle. unfold recent, select_where. induction l as [|t l IH]; simpl; [done|].
  destruct (Z.ltb_spec (now - t) w); simpl; [by rewrite IH|].
  destruct (Z.ltb_spec (now' - t) w); [lia|done].
Qed.

Lemma ascending_recent w now l : ascending l → ascending (recent w now l).
Proof.
  unfold recent, select_where. induction 1 as [|t l Hs IH Hf]; simpl; [constructor|].
  destruct (_ <? _)%Z; [|done]. constructor; [done|].
  rewrite Forall_forall in Hf |- *. intros x Hx. apply Hf.
  apply list_elem_of_In, filter_In in Hx as [Hx _]. by apply list_elem_of_In.
Qed.

Lemma ascending_snoc l t : ascending l → Forall (λ x, x ≤ t)%Z l → ascending (l ++ [t]).
Proof.
  induction 1 as [|x l Hs IH Hf]; simpl; intros Hle; [repeat constructor|].
  apply Forall_cons in Hle as [Hx Hle]. constructor; [by apply IH|].
  apply Forall_app. split; [done|]. by rewrite Forall_singleton.
Qed.

(** The throttle remembers exactly the failures that may still count. *)
Definition remembers (th : ClaimThrottle) (t : Z) (all : list Z) : Prop :=
  ascending (failures th) ∧ Forall (λ x, x ≤ t)%Z (failures th) ∧
  ∀ now, (t ≤ now)%Z → recent (window th) now (failures th) = recent (window th) now all.

Lemma remembers_expire th t now all :
  (t ≤ now)%Z → remembers th t all → remembers (expire now th) now all.
Proof.
  intros Hle (Ha & Hf & Hr). unfold expire. split_and!; simpl.
  - rewrite drop_old_recent by done. by apply ascending_recent.
  - rewrite drop_old_recent by done. apply Forall_forall. intros x Hx.
    unfold recent in Hx. apply elem_of_select_where in Hx as [Hx _].
    rewrite Forall_forall in Hf. specialize (Hf x Hx). lia.
  - intros now' Hn. rewrite drop_old_recent, recent_recent by done. apply Hr. lia.
Qed.

Lemma throttle_step_remembers th t c all :
  (t ≤ call_time c)%Z → remembers th t all →
  remembers (throttle_step th c) (call_time c) (all ++ all_failures [c]) ∧
  limit (throttle_step th c) = limit th ∧ window (throttle_step th c) = window th.
Proof.
  intros Hle Hr. pose proof (remembers_expire _ _ _ _ Hle Hr) as (Ha & Hf & Hn).
  destruct c as [now|now]; simpl in *.
  - split; [|done]. split_and!; simpl.
    + by apply ascending_snoc.
    + apply Forall_app. split; [done|]. rewrite Forall_singleton. lia.
    + intros now' Hle'. unfold recent in *. rewrite !select_where_app.
      specialize (Hn now' Hle'). simpl in Hn. by rewrite Hn.
  - rewrite app_nil_r. unfold retry_after. destruct (Nat.ltb _ _); by split_and!.
Qed.

Lemma throttle_remembers cs th t now all :
  remembers th t all → clock_from t cs now →
  ∃ t', (t' ≤ now)%Z ∧
    remembers (fold_left throttle_step cs th) t' (all ++ all_failures cs) ∧
    limit (fold_left throttle_step cs th) = limit th ∧
    window (fold_left throttle_step cs th) = window th.
Proof.
  revert th t all. induction cs as [|c cs IH]; intros th t all Hr; simpl.
  - intros Hle. exists t. rewrite app_nil_r. by split_and!.
  - intros [Hle Hc]. destruct (throttle_step_remembers th t c all Hle Hr) as (Hr1 & Hl & Hw).
    destruct (IH _ _ _ Hr1 Hc) as (t' & Ht' & Hr' & Hl' & Hw').
    exists t'. rewrite <- Hl, <- Hw. split_and!; try done.
    destruct c; simpl in Hr' |- *; [by rewrite <- app_assoc in Hr'|by rewrite app_nil_r in Hr'].
Qed.

Lemma drop_old_past w now l i x :
  ascending l → l !! i = Some x → (w ≤ now - x)%Z → length (drop_old w now l) < length l - i.
Proof.
  intros Ha. revert i. induction Ha as [|t l Hs IH Hf]; intros i; [done|].
  destruct i as [|i]; simpl.
  - intros [= ->] Hx. rewrite (proj2 (Z.leb_le w (now - x))) by lia.
    clear. induction l as [|t l IH]; simpl; [lia|]. destruct (_ <=? _)%Z; simpl in *; lia.
  - intros Hi Hx. assert (t ≤ x)%Z as Hle.
    { rewrite Forall_forall in Hf. apply Hf. by eapply list_elem_of_lookup_2. }
    rewrite (proj2 (Z.leb_le w (now - t))) by lia. by apply IH.
Qed.

(** The claim window is exact and always reopens: after any failures and checks on a
    monotonic clock, claims are looked at exactly when fewer than [limit] failures happened
    within the last [window]; otherwise the caller is told to wait a whole number of seconds,
    at least one, and if no failure is added meanwhile the claim path is open again once it
    has waited that long. *)
Theorem throttle_exact l w cs t0 now th :
  0 < l → clock_from t0 cs now →
  th = fold_left throttle_step cs (fresh_throttle l w) →
  (run_res (retry_after now) th = Ok None ↔ length (recent w now (all_failures cs)) < l) ∧
  ∀ r, run_res (retry_after now) th = Ok (Some r) →
    (1 ≤ r)%Z ∧
    ∀ now', (now + r * SECOND ≤ now')%Z →
      run_res (retry_after now') (run_state (retry_after now) th) = Ok None.
Proof.
  intros Hl Hc ->.
  assert (remembers (fresh_throttle l w) t0 []) as H0 by (split_and!; [constructor..|done]).
  destruct (throttle_remembers cs _ _ _ _ H0 Hc) as (t' & Ht' & Hr & Hlim & Hwin).
  set (th := fold_left throttle_step cs (fresh_throttle l w)) in *. simpl in Hr, Hlim, Hwin.
  pose proof Hr as (Ha & _ & Hrec). specialize (Hrec now Ht').
  assert (failures (expire now th) = recent w now (all_failures cs)) as Hk.
  { unfold expire. simpl. rewrite Hwin in Hrec |- *. by rewrite drop_old_recent, Hrec. }
  assert (limit (expire now th) = l ∧ window (expire now th) = w) as [Hl1 Hw1] by done.
  unfold retry_after. rewrite Hk, Hl1.
  destruct (Nat.ltb_spec (length (recent w now (all_failures cs))) l) as [Hlt|Hge]; simpl.
  - split; [done|]. done.
  - split; [split; [done|lia]|]. intros r [= <-]. rewrite Hwin. split; [lia|]. intros now' Hn.
    set (fs := recent w now (all_failures cs)) in *.
    destruct (lookup_lt_is_Some_2 fs (length fs - l) ltac:(lia)) as [x Hx]. rewrite Hx in Hn. simpl in Hn.
    assert (w ≤ now' - x)%Z as Hold.
    { unfold ceil_seconds, SECOND in *.
      pose proof (Z.div_mod (- (x + w - now)) 1000000 ltac:(lia)).
      pose proof (Z.mod_pos_bound (- (x + w - now)) 1000000 ltac:(lia)). lia. }
    assert (ascending fs) as Hfs.
    { rewrite <- Hk. unfold expire. simpl. rewrite Hwin, drop_old_recent by done.
      by apply ascending_recent. }
    pose proof (drop_old_past w now' fs _ x Hfs Hx Hold) as Hd.
    unfold expire at 1. simpl.
    assert (failures (expire now th) = fs) as Hk' by done.
    unfold expire in Hk'. simpl in Hk'. rewrite Hwin in Hk' |- *. rewrite Hk'.
    by rewrite (proj2 (Nat.ltb_lt (length (drop_old w now' fs)) (limit th))) by lia.
Qed.

(** ** A pairing *)

Definition no_store : DeviceStore := {| devices := []; codes := [] |}.
Definition coded_store : DeviceStore := (add_pairing_code "h" "read" 0 300000000 no_store).2.
Definition pair_ops : list device_op :=
  [DFail 1; DClaim "h" "t1" "phone" "app" 2 "d1"; DClaim "h" "t2" "phone" "app" 3 "d2"].
Definition guess_ops : list device_op := [DFail 1; DFail 2; DFail 3; DFail 4; DFail 5].

Lemma no_store_ok : store_ok no_store.
Proof. split; constructor. Qed.

Lemma pairing_code_bounded_witness :
  sum_ops (pairs_with "h") pair_ops coded_store = 1 ∧
  sum_ops (pairs_with "h") pair_ops (run_ops guess_ops coded_store) = 0.
Proof.
  split; [reflexivity|].
  refine (proj1 (proj2 (pairing_code_bounded "h" "read" 0 300000000 no_store 300000000 coded_store
    guess_ops pair_ops no_store_ok eq_refl eq_refl)) _).
  vm_compute. lia.
Defined.

Definition paired_store : DeviceStore := run_ops pair_ops coded_store.
Definition revoked_store : DeviceStore := (store_revoke "d1" 9 paired_store).2.

Lemma paired_store_ok : store_ok paired_store.
Proof. apply run_ops_ok. exact (run_op_ok (DAdd "h" "read" 0 300000000) _ no_store_ok). Qed.

Lemma revoked_device_locked_out_witness :
  device_id <$> find_live "t1" paired_store = Some "d1" ∧
  ∀ d', find_live "t1" (run_ops [DTouch "d1" 10 0] revoked_store) = Some d' → device_id d' ≠ "d1".
Proof.
  split; [reflexivity|]. intros d' Hf.
  exact (revoked_device_locked_out "d1" 9 paired_store _ true revoked_store [DTouch "d1" 10 0] "t1" d'
    paired_store_ok eq_refl Hf).
Defined.

Lemma throttle_exact_witness :
  let cs := [TFail 0; TFail 1; TCheck 2; TFail 3]%Z in
  let th := fold_left throttle_step cs (fresh_throttle 3 (60 * SECOND)) in
  run_res (retry_after 4) th = Ok (Some 60%Z) ∧
  run_res (retry_after (4 + 60 * SECOND)) (run_state (retry_after 4) th) = Ok None.
Proof.
  intros cs th. split; [reflexivity|].
  refine (proj2 (proj2 (throttle_exact 3 (60 * SECOND) cs 0 4 th _ _ eq_refl) 60%Z eq_refl) _ _).
  - lia.
  - simpl. lia.
  - lia.
Defined.
