(* ===== verification/Evaluator.v ===== *)
(** * The evaluator ([evaluator/types.py], [registry.py], [hook.py], [signals/])

    Signals read the record of one step and their own per-run state; the registry runs every
    signal and the hook turns the worst verdict into a decision at [PostStep]. *)

From S2P Require Import Prelude PyVal PyText Hooks Kernel Approvals ApprovalService ApprovalHook.
From stdpp Require Import options.

Inductive SignalVerdict := ok | warned | needs_approval | halt.

#[export] Instance SignalVerdict_eq_dec : EqDecision SignalVerdict.
Proof. solve_decision. Defined.

Definition verdict_str (v : SignalVerdict) : string :=
  match v with
  | ok => "ok" | warned => "warn" | needs_approval => "require_approval" | halt => "halt"
  end.

(** [_VERDICT_RANK] *)
Definition VERDICT_RANK (v : SignalVerdict) : Z :=
  match v with ok => 0 | warned => 1 | needs_approval => 2 | halt => 3 end.

Record StepRecord := {
  sr_run_id : string;
  sr_step_id : Z;
  sr_agent_type : string;
  thought : option string;
  sr_tool_name : option string;
  tool_args_hash : option string;
  tool_args_text : option string;
  tool_error : option string;
  sr_tier : option LLMTier;
  sr_classification : option DataClassification;
  cost_usd : option pyval;
  original_task : option string;
  sr_metadata : dict;
}.

Record SignalResult := {
  res_name : string;
  verdict : SignalVerdict;
  res_reason : string;
  res_severity : HookSeverity;
  res_metadata : dict;
}.

Definition signal_result (name : string) (v : SignalVerdict) (why : string) (sev : HookSeverity)
    (m : dict) : SignalResult :=
  {| res_name := name; verdict := v; res_reason := why; res_severity := sev; res_metadata := m |}.

(** ** The registry *)

Section registry.
Context {St : Type} (empty_state : St).

(** A signal, over the type of the states the registry keeps. *)
Record Signal := {
  sig_name : string;
  sig_priority : Z;
  sig_call : StepRecord → M St SignalResult;
}.

Record EvaluatorRegistry := {
  signals : list Signal;
  reg_locked : bool;
  run_states : gmap string (gmap string St);
}.

Definition new_registry : EvaluatorRegistry :=
  {| signals := []; reg_locked := false; run_states := ∅ |}.

Definition register_signal (s : Signal) : M EvaluatorRegistry unit := λ r,
  if reg_locked r then
    (Raise (Exn "EvaluatorRegistryLockedError"
      ("signal " +:+ py_repr (sig_name s)
       +:+ " cannot be registered after init_lock(); registration is frozen at process start (design §5.3).")), r)
  else (Ok tt, {| signals := sort_by sig_priority (signals r ++ [s]); reg_locked := false;
                  run_states := run_states r |}).

Definition lock_registry (r : EvaluatorRegistry) : EvaluatorRegistry :=
  {| signals := signals r; reg_locked := true; run_states := run_states r |}.

Definition signal_count (r : EvaluatorRegistry) : nat := length (signals r).

Definition reset_run_state (run : string) (r : EvaluatorRegistry) : EvaluatorRegistry :=
  {| signals := signals r; reg_locked := reg_locked r; run_states := delete run (run_states r) |}.

(** [self._state[run_id][name]] of the nested defaultdict. *)
Definition state_of (run name : string) (r : EvaluatorRegistry) : St :=
  default empty_state (run_states r !! run ≫= lookup name).

Definition put_state (run name : string) (s : St) (r : EvaluatorRegistry) : EvaluatorRegistry :=
  {| signals := signals r; reg_locked := reg_locked r;
     run_states := <[run := <[name := s]> (default ∅ (run_states r !! run))]> (run_states r) |}.

(** One signal on one step: an error is a [halt]. *)
Definition run_signal (s : Signal) (step : StepRecord) (st : St) : SignalResult * St :=
  match sig_call s step st with
  | (Ok res, st') => (res, st')
  | (Raise e, st') =>
      (signal_result (sig_name s) halt
         ("signal " +:+ py_repr (sig_name s) +:+ " raised: " +:+ exn_class e) error
         {[ "exception" := VStr (exn_str e) ]}, st')
  end.

Fixpoint evaluate_all (ss : list Signal) (step : StepRecord) (r : EvaluatorRegistry)
    : list SignalResult * EvaluatorRegistry :=
  match ss with
  | [] => ([], r)
  | s :: ss' =>
      let '(res, st) := run_signal s step (state_of (sr_run_id step) (sig_name s) r) in
      let '(rest, r') := evaluate_all ss' step (put_state (sr_run_id step) (sig_name s) st r) in
      (res :: rest, r')
  end.

(** [evaluate(step)] *)
Definition evaluate (step : StepRecord) (r : EvaluatorRegistry)
    : list SignalResult * EvaluatorRegistry := evaluate_all (signals r) step r.
End registry.
Arguments Signal St : clear implicits.
Arguments EvaluatorRegistry St : clear implicits.

(** [EvaluatorRegistry.worst], and the hook's [_worst] *)
Definition worst (rs : list SignalResult) : option SignalResult :=
  max_by (λ r, VERDICT_RANK (verdict r)) rs.

(** ** The signals *)

Record SignalState := {
  counts : gmap (string * string) Z;
  streak : Z;
}.

Definition blank : SignalState := {| counts := ∅; streak := 0 |}.

Definition int_meta (k : string) (n : Z) (m : dict) : dict := <[k := VInt n]> m.

Definition threshold_for (thresholds : gmap string Z) (fallback : Z) (agent : string) : Z :=
  default fallback (thresholds !! agent).

Definition default_thresholds : gmap string Z := <["chat" := 20%Z]> {[ "coding" := 50%Z ]}.

Definition step_cap (thresholds : gmap string Z) (fallback : Z) : Signal SignalState :=
  {| sig_name := "step_cap"; sig_priority := 10;
     sig_call := λ step,
       let n := threshold_for thresholds fallback (sr_agent_type step) in
       let m := int_meta "step_id" (sr_step_id step) (int_meta "threshold" n ∅) in
       if (sr_step_id step <? n)%Z then
         mret (signal_result "step_cap" ok
                 ("step " +:+ pretty (sr_step_id step) +:+ "/" +:+ pretty n) info m)
       else
         mret (signal_result "step_cap" halt
                 ("step_cap: step " +:+ pretty (sr_step_id step) +:+ " reached threshold "
                  +:+ pretty n +:+ " for agent_type=" +:+ sr_agent_type step) warn
                 (<["agent_type" := VStr (sr_agent_type step)]> m)) |}.

Definition given (s : option string) : option string := nonempty s.

Definition action_repeat_call (threshold : Z) (step : StepRecord) : M SignalState SignalResult :=
  match given (sr_tool_name step), given (tool_args_hash step) with
  | Some tool, Some hash => λ st,
      let count := (default 0 (counts st !! (tool, hash)) + 1)%Z in
      let st' := {| counts := <[(tool, hash) := count]> (counts st); streak := streak st |} in
      let m := <["tool_name" := VStr tool]> (<["tool_args_hash" := VStr hash]>
                 (int_meta "count" count (int_meta "threshold" threshold ∅))) in
      if (threshold <=? count)%Z then
        (Ok (signal_result "action_repeat" halt
               ("action_repeat: tool " +:+ py_repr tool +:+ " called " +:+ pretty count
                +:+ " times with the same args (threshold=" +:+ pretty threshold +:+ ")") warn m), st')
      else (Ok (signal_result "action_repeat" ok
                  ("action_repeat: " +:+ pretty count +:+ "/" +:+ pretty threshold) info m), st')
  | _, _ => mret (signal_result "action_repeat" ok "action_repeat: step had no tool call" info ∅)
  end.

(** The constructor refuses a threshold below 2. *)
Definition action_repeat (threshold : Z) : res (Signal SignalState) :=
  if (threshold <? 2)%Z then Raise (Exn "ValueError" "action_repeat threshold must be >= 2")
  else Ok {| sig_name := "action_repeat"; sig_priority := 20;
             sig_call := action_repeat_call threshold |}.

Definition failure_streak_call (threshold : Z) (step : StepRecord) : M SignalState SignalResult :=
  match given (sr_tool_name step) with
  | None => λ st,
      (Ok (signal_result "tool_failure_streak" ok
             ("tool_failure_streak: no tool call (streak=" +:+ pretty (streak st) +:+ ")") info
             (int_meta "streak" (streak st) (int_meta "threshold" threshold ∅))), st)
  | Some tool => λ st,
      let n := match given (tool_error step) with Some _ => streak st + 1 | None => 0 end%Z in
      let st' := {| counts := counts st; streak := n |} in
      let m := <["tool_name" := VStr tool]> (int_meta "streak" n (int_meta "threshold" threshold ∅)) in
      if (threshold <=? n)%Z then
        (Ok (signal_result "tool_failure_streak" halt
               ("tool_failure_streak: " +:+ pretty n +:+ " consecutive tool errors (threshold="
                +:+ pretty threshold +:+ ")") error m), st')
      else (Ok (signal_result "tool_failure_streak" ok
                  ("tool_failure_streak: " +:+ pretty n +:+ "/" +:+ pretty threshold) info m), st')
  end.

Definition tool_failure_streak (threshold : Z) : res (Signal SignalState) :=
  if (threshold <? 1)%Z then Raise (Exn "ValueError" "tool_failure_streak threshold must be >= 1")
  else Ok {| sig_name := "tool_failure_streak"; sig_priority := 30;
             sig_call := failure_streak_call threshold |}.

Definition tier_val (t : option LLMTier) : pyval := from_option (VStr ∘ tier_str) VNone t.
Definition class_val (c : option DataClassification) : pyval :=
  from_option (VStr ∘ class_str) VNone c.

Definition forbidden_on_cloud (c : option DataClassification) : bool :=
  match c with Some personal | Some secret => true | _ => false end.

Definition classification_violation : Signal SignalState :=
  {| sig_name := "classification_violation"; sig_priority := 5;
     sig_call := λ step,
       let m : dict := <["tier" := tier_val (sr_tier step)]>
                  {[ "classification" := class_val (sr_classification step) ]} in
       if negb (bool_decide (sr_tier step = Some tier_3))
          || negb (forbidden_on_cloud (sr_classification step)) then
         mret (signal_result "classification_violation" ok
                 ("classification_violation: tier=" +:+ str_val (tier_val (sr_tier step))
                  +:+ " class=" +:+ str_val (class_val (sr_classification step)) +:+ " ok") info m)
       else
         mret (signal_result "classification_violation" halt
                 ("classification_violation: classification="
                  +:+ repr_val (class_val (sr_classification step))
                  +:+ " reached tier_3 (cloud) — should never happen if EgressGate is wired")
                 critical (<["policy" := VStr "personal_or_secret_to_cloud"]> m)) |}.

(** ** The hook *)

Definition pick (ctx : HookContext) (key : string) : option pyval :=
  match payload ctx !! key with Some v => Some v | None => metadata ctx !! key end.

Definition pick_str (ctx : HookContext) (key : string) : option string :=
  match pick ctx key with
  | Some (VStr s) => if str_truthy s then Some s else None
  | _ => None
  end.

Definition STEP_KEYS : list string :=
  ["thought"; "tool_name"; "tool_args_hash"; "tool_args_text"; "tool_error"; "cost_usd";
   "original_task"].

(** [_build_step_record] *)
Definition build_step_record (ctx : HookContext) : StepRecord :=
  {| sr_run_id := run_id ctx; sr_step_id := default 0%Z (step_id ctx);
     sr_agent_type := agent_type ctx; thought := pick_str ctx "thought";
     sr_tool_name := pick_str ctx "tool_name"; tool_args_hash := pick_str ctx "tool_args_hash";
     tool_args_text := pick_str ctx "tool_args_text"; tool_error := pick_str ctx "tool_error";
     sr_tier := tier ctx; sr_classification := classification ctx;
     cost_usd := match pick ctx "cost_usd" with
                 | Some (VInt n) => Some (VInt n)
                 | Some (VBool b) => Some (VInt (if b then 1 else 0))
                 | Some (VFloat r) => Some (VFloat r)
                 | _ => None
                 end;
     original_task := pick_str ctx "original_task";
     sr_metadata := foldr delete (metadata ctx) STEP_KEYS |}.

(** [_collect_audit_metadata] *)
Definition collect_audit_metadata (rs : list SignalResult) : dict :=
  {[ "signals" := VList (map (λ r, VDict (map_to_list (res_metadata r ∪
       <["name" := VStr (res_name r)]> (<["verdict" := VStr (verdict_str (verdict r))]>
       (<["severity" := VStr (severity_str (res_severity r))]>
       {[ "reason" := VStr (res_reason r) ]}))))) rs) ]}.

Definition outcome_for (v : SignalVerdict) : HookOutcome :=
  match v with
  | ok | warned => allow
  | needs_approval => require_approval
  | halt => deny
  end.

Section hook.
Context {W St : Type} (empty_state : St) `{!Part W (EvaluatorRegistry St), !Part W Table}.
Context (sf : Surfaces W).

(** The queue and router the hook was built with, the clock and the next uuid. *)
Record EvaluatorHook := {
  ev_has_queue : bool;
  ev_notify : option (ApprovalRow → M W unit);
  ev_clock : W → Z;
  ev_uuid : W → string;
}.

Definition origin_channel (ctx : HookContext) : string :=
  or_str (Some (str_lower (str_strip (str_or_empty (metadata ctx !! "origin_channel"))))) "cli".

Definition halt_request (ctx : HookContext) (step : StepRecord) (w : SignalResult) : Enqueue :=
  {| eq_run_id := sr_run_id step; eq_checkpoint_id := None; eq_signal := res_name w;
     eq_context_summary := "Signal '" +:+ res_name w +:+ "' triggered: " +:+ res_reason w;
     eq_channel := origin_channel ctx; eq_timeout_minutes := 10; eq_policy := "fail_closed";
     eq_session_id := metadata_str ctx "session_id"; eq_items := None; eq_card := None;
     eq_caller := None; eq_call_id := None; eq_step_id := None; eq_turn_id := None |}.

Definition evaluated (o : HookOutcome) (why : string) (sev : HookSeverity) (m : dict)
    (approval : option string) : HookDecision :=
  {| outcome := o; reason := why; transformed_payload := None; set_classification := None;
     set_tier := None; approval_request_id := approval; severity := sev; audit_metadata := m;
     decided_by := None |}.

(** [EvaluatorHook.__call__] with the in-process registry as its backend. *)
Definition evaluator_call (h : EvaluatorHook) (ctx : HookContext) : M W HookDecision := λ w,
  let reg := part w in
  if Nat.eqb (signal_count reg) 0 then
    (Ok (mk_decision allow "evaluator: no signals registered" info ∅), w)
  else
    let step := build_step_record ctx in
    let '(results, reg1) := evaluate empty_state step reg in
    match worst results with
    | None => (Ok (mk_decision allow "evaluator: no signal results" info ∅), set_part reg1 w)
    | Some worst =>
        let terminal := bool_decide (verdict worst = halt ∨ verdict worst = needs_approval) in
        let w1 := set_part (if terminal then reset_run_state (sr_run_id step) reg1 else reg1) w in
        let m := collect_audit_metadata results in
        let o := outcome_for (verdict worst) in
        let why := "evaluator: " +:+ res_name worst +:+ " -> " +:+ verdict_str (verdict worst)
                   +:+ ": " +:+ res_reason worst in
        if bool_decide (o = require_approval) && bool_decide (res_severity worst = critical) then
          (Ok (evaluated deny
                 ("evaluator: " +:+ res_name worst +:+ " -> critical severity (hard halt): "
                  +:+ res_reason worst) (res_severity worst) m None), w1)
        else if bool_decide (o = require_approval) && ev_has_queue h then
          (id ← queue_enqueue sf (ev_uuid h w1) (ev_clock h w1) (halt_request ctx step worst);
           row ← queue_get id;
           match row, ev_notify h with
           | Some r, Some notify => notify r
           | _, _ => mret tt
           end;;
           mret (evaluated o why (res_severity worst) (<["approval_id" := VStr id]> m) (Some id))) w1
        else (Ok (evaluated o why (res_severity worst) m None), w1)
    end.

Definition evaluator_hook (ident : nat) (h : EvaluatorHook) : Hook W :=
  {| hook_ident := ident; hook_name := "evaluator"; hook_at := POST_STEP; hook_priority := 50;
     hook_call := evaluator_call h; hook_bot := None |}.
End hook.
Arguments EvaluatorHook W : clear implicits.

(** ** Facts about the registry *)

Section registry_facts.
Context {St : Type} (e0 : St).
Implicit Types (r : EvaluatorRegistry St) (s : Signal St).

Lemma state_of_put run name st r run' name' :
  state_of e0 run' name' (put_state run name st r)
  = if String.eqb run run' && String.eqb name name' then st else state_of e0 run' name' r.
Proof.
  unfold state_of, put_state. simpl. destruct (String.eqb_spec run run') as [<-|Hr].
  - rewrite lookup_insert_eq. simpl. destruct (String.eqb_spec name name') as [<-|Hn].
    + by rewrite lookup_insert_eq.
    + rewrite lookup_insert_ne by done. by destruct (run_states r !! run).
  - by rewrite lookup_insert_ne.
Qed.

(** Distinct signals do not see each other, and runs do not see each other. *)
Lemma evaluate_all_spec ss step r :
  NoDup (map sig_name ss) →
  (evaluate_all e0 ss step r).1
  = map (λ s, (run_signal s step (state_of e0 (sr_run_id step) (sig_name s) r)).1) ss ∧
  ∀ run s, run ≠ sr_run_id step ∨ sig_name s ∉ map sig_name ss →
    state_of e0 run (sig_name s) (evaluate_all e0 ss step r).2 = state_of e0 run (sig_name s) r.
Proof.
  revert r. induction ss as [|s ss IH]; intros r; simpl; [done|].
  intros [Hn Hd]%NoDup_cons.
  destruct (run_signal s step _) as [res st] eqn:Hs.
  specialize (IH (put_state (sr_run_id step) (sig_name s) st r) Hd).
  destruct (evaluate_all e0 ss step _) as [rest r'] eqn:He. simpl in IH |- *.
  destruct IH as [IH1 IH2]. split.
  - simpl. f_equal. rewrite IH1. apply map_ext_in. intros s' Hs'.
    rewrite state_of_put. rewrite (proj2 (String.eqb_neq (sig_name s) (sig_name s'))).
    + by rewrite andb_false_r.
    + intros Heq. apply Hn. rewrite Heq. apply list_elem_of_fmap_2. by apply list_elem_of_In.
  - intros run s' Hor. rewrite IH2.
    + rewrite state_of_put. destruct (String.eqb_spec (sr_run_id step) run) as [<-|]; [|done].
      rewrite (proj2 (String.eqb_neq _ _)); [done|].
      destruct Hor as [?|Hno]; [done|]. intros Heq. apply Hno. rewrite Heq. left.
    + destruct Hor as [?|Hno]; [by left|]. right. intros Hin. apply Hno. by right.
Qed.

Lemma evaluate_all_state ss step r s :
  NoDup (map sig_name ss) → s ∈ ss →
  state_of e0 (sr_run_id step) (sig_name s) (evaluate_all e0 ss step r).2
  = (run_signal s step (state_of e0 (sr_run_id step) (sig_name s) r)).2.
Proof.
  revert r. induction ss as [|s1 ss IH]; intros r; simpl; [by intros _ ?%elem_of_nil|].
  intros [Hn Hd]%NoDup_cons Hin.
  destruct (run_signal s1 step _) as [res st] eqn:Hs.
  pose proof (evaluate_all_spec ss step (put_state (sr_run_id step) (sig_name s1) st r) Hd) as [_ Hsame].
  specialize (IH (put_state (sr_run_id step) (sig_name s1) st r) Hd).
  destruct (evaluate_all e0 ss step _) as [rest r'] eqn:He. simpl in Hsame, IH |- *.
  apply elem_of_cons in Hin as [->|Hin].
  - rewrite Hsame by (by right). rewrite state_of_put, !String.eqb_refl. simpl. by rewrite Hs.
  - rewrite IH by done. rewrite state_of_put.
    rewrite (proj2 (String.eqb_neq (sig_name s1) (sig_name s))); [by rewrite andb_false_r|].
    intros Heq. apply Hn. rewrite Heq. by apply list_elem_of_fmap_2.
Qed.

Lemma evaluate_all_signals ss step r : signals (evaluate_all e0 ss step r).2 = signals r.
Proof.
  revert r. induction ss as [|s ss IH]; intros r; simpl; [done|].
  destruct (run_signal _ _ _) as [res st].
  specialize (IH (put_state (sr_run_id step) (sig_name s) st r)).
  destruct (evaluate_all _ _ _ _). simpl in *. by rewrite IH.
Qed.

Definition after (hist : list StepRecord) r : EvaluatorRegistry St :=
  fold_left (λ r step, (evaluate e0 step r).2) hist r.

Definition of_run (run : string) (hist : list StepRecord) : list StepRecord :=
  select_where (λ x : StepRecord, String.eqb (sr_run_id x) run) hist.

Definition signal_state s (steps : list StepRecord) (st : St) : St :=
  fold_left (λ st step, (run_signal s step st).2) steps st.

(** A signal's state in a run is what the run's own steps made it. *)
Lemma after_state hist r s run :
  NoDup (map sig_name (signals r)) → s ∈ signals r →
  signals (after hist r) = signals r ∧
  state_of e0 run (sig_name s) (after hist r)
  = signal_state s (of_run run hist) (state_of e0 run (sig_name s) r).
Proof.
  revert r. induction hist as [|step hist IH]; intros r Hd Hs; [done|]. simpl.
  assert (signals (evaluate e0 step r).2 = signals r) as Hsig by apply evaluate_all_signals.
  destruct (IH (evaluate e0 step r).2) as [IH1 IH2]; [by rewrite Hsig|by rewrite Hsig|].
  split; [congruence|]. rewrite IH2. unfold of_run, select_where. simpl.
  destruct (String.eqb_spec (sr_run_id step) run) as [<-|Hne]; simpl.
  - f_equal. by apply evaluate_all_state.
  - f_equal. unfold evaluate.
    destruct (evaluate_all_spec (signals r) step r Hd) as [_ ->]; [done|]. left. congruence.
Qed.

(** A step's results, from the run's own history. *)
Lemma evaluate_after hist r s step :
  NoDup (map sig_name (signals r)) → s ∈ signals r → run_states r = ∅ →
  (run_signal s step (signal_state s (of_run (sr_run_id step) hist) e0)).1
  ∈ (evaluate e0 step (after hist r)).1.
Proof.
  intros Hd Hs He. destruct (after_state hist r s (sr_run_id step) Hd Hs) as [Hsig Hst].
  unfold evaluate. rewrite Hsig.
  destruct (evaluate_all_spec (signals r) step (after hist r) Hd) as [-> _].
  apply list_elem_of_In, in_map_iff. exists s. split; [|by apply list_elem_of_In].
  rewrite Hst. unfold state_of. by rewrite He, lookup_empty.
Qed.

Lemma raising_signal_halts ss step r s :
  s ∈ ss → (∀ st, ∃ e st', sig_call s step st = (Raise e, st')) →
  ∃ res, res ∈ (evaluate_all e0 ss step r).1 ∧ verdict res = halt.
Proof.
  revert r. induction ss as [|s1 ss IH]; intros r; [by intros ?%elem_of_nil|].
  intros [->|Hin]%elem_of_cons Hr; simpl.
  - unfold run_signal. destruct (Hr (state_of e0 (sr_run_id step) (sig_name s1) r)) as (e & st' & ->).
    destruct (evaluate_all _ _ _ _) as [rest r']. eexists. split; [left|done].
  - destruct (run_signal s1 step _) as [res st].
    destruct (IH (put_state (sr_run_id step) (sig_name s1) st r) Hin Hr) as (res' & Hres & Hv).
    destruct (evaluate_all _ _ _ _) as [rest r']. exists res'. split; [by right|done].
Qed.

Lemma evaluate_all_length ss step r : length (evaluate_all e0 ss step r).1 = length ss.
Proof.
  revert r. induction ss as [|s ss IH]; intros r; simpl; [done|].
  destruct (run_signal _ _ _) as [res st].
  specialize (IH (put_state (sr_run_id step) (sig_name s) st r)).
  destruct (evaluate_all _ _ _ _). simpl in *. by rewrite IH.
Qed.
End registry_facts.

Lemma worst_rank rs w : worst rs = Some w → w ∈ rs ∧ ∀ r, r ∈ rs → (VERDICT_RANK (verdict r) ≤ VERDICT_RANK (verdict w))%Z.
Proof. apply (max_by_Some (λ r, VERDICT_RANK (verdict r))). Qed.

(** The worst verdict decides, and an evaluator that fails closes: whenever the hook
    answers, it allows exactly when every signal said [ok] or [warn]; it denies when any
    signal said [halt] or raised, whatever its state; a [require_approval] of critical
    severity is a denial too; and it never rewrites the step. *)
Theorem evaluator_worst_wins {W St} (e0 : St) `{!Part W (EvaluatorRegistry St), !Part W Table}
    (sf : Surfaces W) (h : EvaluatorHook W) ctx w d w' :
  signals (part (T := EvaluatorRegistry St) w) ≠ [] →
  evaluator_call e0 sf h ctx w = (Ok d, w') →
  let results := (evaluate e0 (build_step_record ctx) (part w)).1 in
  (outcome d = allow ↔ ∀ r, r ∈ results → verdict r = ok ∨ verdict r = warned) ∧
  ((∃ r, r ∈ results ∧ verdict r = halt) → outcome d = deny) ∧
  (∀ s, s ∈ signals (part (T := EvaluatorRegistry St) w) →
     (∀ st, ∃ e st', sig_call s (build_step_record ctx) st = (Raise e, st')) → outcome d = deny) ∧
  outcome d ≠ transform.
Proof.
  intros Hne Hc results.
  assert (outcome d ≠ transform ∧ ∃ m, worst results = Some m ∧
    match verdict m with
    | ok | warned => outcome d = allow
    | halt => outcome d = deny
    | needs_approval => outcome d = require_approval ∨ outcome d = deny
    end) as (Hnt & m & Hm & Ho).
  { unfold evaluator_call in Hc. unfold signal_count in Hc.
    destruct (signals (part w)) as [|s ss] eqn:Hss; [done|]. simpl in Hc.
    destruct (evaluate e0 (build_step_record ctx) (part w)) as [rs reg1] eqn:He.
    change results with rs. destruct (worst rs) as [m|] eqn:Hm.
    - destruct (bool_decide (outcome_for (verdict m) = require_approval)
                && bool_decide (res_severity m = critical)) eqn:Hcr.
      { injection Hc as <- <-. split; [done|]. exists m. split; [done|].
        to_props. by destruct (verdict m); auto. }
      destruct (bool_decide (outcome_for (verdict m) = require_approval) && ev_has_queue h) eqn:Hq.
      + to_props. assert (verdict m = needs_approval) as Hv by (by destruct (verdict m)).
        unfold mbind, M_bind in Hc. destruct (queue_enqueue _ _ _ _ _) as [[id|e] w2]; [|done].
        simpl in Hc. destruct (get id (part w2)), (ev_notify h);
          try (destruct (m0 a w2) as [[u|e] w3]; [|done]);
          try (destruct (m0 _ w2) as [[u|e] w3]; [|done]);
          injection Hc as <- <-; (split; [by destruct (verdict m)|]); exists m;
          (split; [done|]); rewrite Hv; by left.
      + injection Hc as <- <-. split; [by destruct (verdict m)|]. exists m. split; [done|].
        by destruct (verdict m); auto.
    - exfalso. apply (max_by_None (λ r, VERDICT_RANK (verdict r))) in Hm.
      pose proof (evaluate_all_length e0 (signals (part w)) (build_step_record ctx) (part w)) as Hl.
      unfold evaluate in He. rewrite He, Hss in Hl. by rewrite Hm in Hl. }
  apply worst_rank in Hm as [Hin Hmax].
  assert ((∃ r, r ∈ results ∧ verdict r = halt) → outcome d = deny) as Hhalt.
  { intros (r & Hr & Hv). specialize (Hmax r Hr). rewrite Hv in Hmax. simpl in Hmax.
    destruct (verdict m); simpl in Hmax; done || lia. }
  split_and!; [|done| |done].
  - split.
    + intros Ha r Hr. specialize (Hmax r Hr).
      destruct (verdict m), (verdict r); simpl in *; auto; lia || (destruct Ho; congruence) || congruence.
    + intros Hall. destruct (Hall m Hin) as [Hv|Hv]; by rewrite Hv in Ho.
  - intros s Hs Hr. apply Hhalt. by apply (raising_signal_halts e0 _ _ _ s).
Qed.

(** ** What the counting signals count *)

(** The step called this tool with these arguments. *)
Definition calls_same (tool hash : string) (s : StepRecord) : bool :=
  bool_decide (given (sr_tool_name s) = Some tool ∧ given (tool_args_hash s) = Some hash).

(** The tool errors since the last tool call that did not fail, latest step first; steps
    without a tool call do not count. *)
Fixpoint failures_in_a_row (latest_first : list StepRecord) : nat :=
  match latest_first with
  | [] => 0
  | s :: l =>
      match given (sr_tool_name s) with
      | None => failures_in_a_row l
      | Some _ => match given (tool_error s) with
                  | Some _ => S (failures_in_a_row l)
                  | None => 0
                  end
      end
  end.

Lemma action_repeat_counts th s steps tool hash :
  action_repeat th = Ok s →
  default 0%Z (counts (signal_state s steps blank) !! (tool, hash))
  = Z.of_nat (count_where (calls_same tool hash) steps).
Proof.
  unfold action_repeat. destruct (th <? 2)%Z; [done|]. intros [= <-].
  induction steps as [|x steps IH] using rev_ind; [done|].
  unfold signal_state in *. rewrite fold_left_app, count_where_app. simpl.
  set (st := fold_left _ steps blank) in *. unfold run_signal. simpl.
  unfold action_repeat_call, count_where at 2, select_where. simpl. unfold calls_same at 2.
  destruct (given (sr_tool_name x)) as [t|], (given (tool_args_hash x)) as [h|]; simpl;
    try (try rewrite bool_decide_eq_false_2 by (intros (Hx & Hy); congruence); simpl; rewrite IH; lia).
  assert (∀ b : bool, (if b then 1 else 0) = length (if b then [x] else [])) as Hlen by by intros [].
  destruct (decide ((t, h) = (tool, hash))) as [[= -> ->]|Hne].
  - rewrite bool_decide_eq_true_2 by done. simpl.
    destruct (th <=? _)%Z; simpl; rewrite lookup_insert_eq; simpl; lia.
  - rewrite bool_decide_eq_false_2 by naive_solver. simpl.
    destruct (th <=? _)%Z; simpl; rewrite lookup_insert_ne by done; lia.
Qed.

Lemma failure_streak_counts th s steps :
  tool_failure_streak th = Ok s →
  streak (signal_state s steps blank) = Z.of_nat (failures_in_a_row (reverse steps)).
Proof.
  unfold tool_failure_streak. destruct (th <? 1)%Z; [done|]. intros [= <-].
  induction steps as [|x steps IH] using rev_ind; [done|].
  unfold signal_state in *. rewrite fold_left_app, reverse_snoc. simpl.
  set (st := fold_left _ steps blank) in *. unfold run_signal. simpl.
  unfold failure_streak_call. destruct (given (sr_tool_name x)) as [t|]; simpl; [|done].
  destruct (given (tool_error x)); simpl; destruct (th <=? _)%Z; simpl; lia.
Qed.

(** The counting signals count a run's own steps: in a registry whose signals have
    distinct names, after any interleaving of the steps of any runs, [action_repeat] halts a
    step exactly when its tool call was made [threshold] times with the same arguments in
    that run, and [tool_failure_streak] halts exactly when the run's last [threshold] tool
    calls all failed -- whatever the other runs did. *)
Theorem signals_count_own_run th1 th2 s1 s2 r hist step :
  action_repeat th1 = Ok s1 → tool_failure_streak th2 = Ok s2 →
  NoDup (map sig_name (signals r)) → s1 ∈ signals r → s2 ∈ signals r → run_states r = ∅ →
  let own := of_run (sr_run_id step) hist in
  (∃ r1, r1 ∈ (evaluate blank step (after blank hist r)).1 ∧ res_name r1 = "action_repeat" ∧
     (verdict r1 = halt ↔
      ∃ tool hash, given (sr_tool_name step) = Some tool ∧ given (tool_args_hash step) = Some hash ∧
        (th1 ≤ Z.of_nat (count_where (calls_same tool hash) (own ++ [step])))%Z)) ∧
  (∃ r2, r2 ∈ (evaluate blank step (after blank hist r)).1 ∧ res_name r2 = "tool_failure_streak" ∧
     (verdict r2 = halt ↔
      given (sr_tool_name step) ≠ None ∧
      (th2 ≤ Z.of_nat (failures_in_a_row (reverse (own ++ [step]))))%Z)).
Proof.
  intros H1 H2 Hd Hs1 Hs2 He own. split.
  - eexists. split; [by apply (evaluate_after blank hist r s1)|].
    pose proof (λ t h, action_repeat_counts th1 s1 own t h H1) as Hc. fold own.
    set (st := signal_state s1 own blank) in *.
    unfold action_repeat in H1. destruct (th1 <? 2)%Z eqn:Hth; [done|]. injection H1 as <-.
    unfold run_signal. simpl. unfold action_repeat_call.
    destruct (given (sr_tool_name step)) as [t|] eqn:Ht; [|split; [done|]; naive_solver].
    destruct (given (tool_args_hash step)) as [h|] eqn:Hh; [|split; [done|]; naive_solver].
    assert (count_where (calls_same t h) (own ++ [step]) = S (count_where (calls_same t h) own)) as Hn.
    { rewrite count_where_app. unfold count_where at 2, select_where. simpl. unfold calls_same at 2.
      rewrite bool_decide_eq_true_2 by done. simpl. lia. }
    specialize (Hc t h).
    destruct (th1 <=? _)%Z eqn:Hle; to_props; simpl; (split; [done|]).
    + split; [|done]. intros _. exists t, h. split_and!; [done|done|]. lia.
    + split; [done|]. intros (t' & h' & [= <-] & [= <-] & Hge). lia.
  - eexists. split; [by apply (evaluate_after blank hist r s2)|].
    pose proof (failure_streak_counts th2 s2 own H2) as Hc. fold own.
    set (st := signal_state s2 own blank) in *. rewrite reverse_snoc.
    unfold tool_failure_streak in H2. destruct (th2 <? 1)%Z eqn:Hth; [done|]. injection H2 as <-.
    unfold run_signal. simpl. unfold failure_streak_call.
    destruct (given (sr_tool_name step)) as [t|] eqn:Ht; [|split; [done|]; naive_solver].
    destruct (given (tool_error step)) as [e|];
      destruct (th2 <=? _)%Z eqn:Hle; to_props; simpl; (split; [done|]);
      (split; [intros Hv; (done || (split; [done|lia]))|intros [_ Hv]; (done || lia)]).
Qed.

(** ** A run that repeats itself *)

Definition demo_signals : list (Signal SignalState) :=
  match action_repeat 2, tool_failure_streak 2 with
  | Ok a, Ok b => [classification_violation; step_cap default_thresholds 20; a; b]
  | _, _ => []
  end.

Definition demo_registry : EvaluatorRegistry SignalState :=
  {| signals := demo_signals; reg_locked := true; run_states := ∅ |}.

Definition demo_step (run : string) (n : Z) : StepRecord :=
  {| sr_run_id := run; sr_step_id := n; sr_agent_type := "chat"; thought := None;
     sr_tool_name := Some "search"; tool_args_hash := Some "h"; tool_args_text := None;
     tool_error := None; sr_tier := Some tier_1; sr_classification := None; cost_usd := None;
     original_task := None; sr_metadata := ∅ |}.

Lemma signals_count_own_run_witness :
  map verdict (evaluate blank (demo_step "a" 2)
                 (after blank [demo_step "a" 0; demo_step "b" 0] demo_registry)).1
  = [ok; ok; halt; ok] ∧
  ∃ r1, r1 ∈ (evaluate blank (demo_step "a" 2)
                (after blank [demo_step "a" 0; demo_step "b" 0] demo_registry)).1 ∧
        res_name r1 = "action_repeat".
Proof.
  split; [vm_compute; reflexivity|].
  destruct (signals_count_own_run 2 2 _ _ demo_registry [demo_step "a" 0; demo_step "b" 0]
    (demo_step "a" 2) eq_refl eq_refl) as ((r1 & Hr1 & Hn & _) & _).
  - vm_compute. repeat constructor; intros Hx; repeat (apply elem_of_cons in Hx as [Hx|Hx]; [discriminate|]);
      by apply elem_of_nil in Hx.
  - right. right. left.
  - right. right. right. left.
  - reflexivity.
  - exists r1. split; [exact Hr1|exact Hn].
Defined.

(** The evaluator's part of a process: its registry and the approvals table. *)
Record EvalDesk := { ed_registry : EvaluatorRegistry SignalState; ed_table : Table }.

#[export] Instance eval_registry_part : Part EvalDesk (EvaluatorRegistry SignalState) :=
  {| part := ed_registry; set_part := λ r d, {| ed_registry := r; ed_table := ed_table d |} |}.
#[export] Instance eval_table_part : Part EvalDesk Table :=
  {| part := ed_table; set_part := λ t d, {| ed_registry := ed_registry d; ed_table := t |} |}.

Definition no_surfaces : Surfaces EvalDesk :=
  {| sf_record := None; sf_settle_run := λ _ _, mret 0%Z; sf_resume := None; sf_execute := None;
     sf_settle_unrun := λ _ s, mret {| res_status := s; res_summary := "" |};
     sf_notify_timeout := None; sf_deliver := None |}.

Definition plain_evaluator : EvaluatorHook EvalDesk :=
  {| ev_has_queue := false; ev_notify := None; ev_clock := λ _, 0%Z; ev_uuid := λ _, "u" |}.

Definition cloud_step : HookContext :=
  {| ctx_hook_point := POST_STEP; run_id := "r"; agent_type := "chat"; step_id := Some 1%Z;
     persona := None; route := None; payload := ∅; classification := Some secret;
     tier := Some tier_3; metadata := ∅ |}.

Definition cloud_desk : EvalDesk := {| ed_registry := demo_registry; ed_table := [] |}.

(** What the evaluator answers the step, and what it leaves. *)
Definition cloud_answer : HookDecision :=
  match run_res (evaluator_call blank no_surfaces plain_evaluator cloud_step) cloud_desk with
  | Ok d => d
  | Raise _ => mk_decision allow "" info ∅
  end.

Definition cloud_after : EvalDesk :=
  run_state (evaluator_call blank no_surfaces plain_evaluator cloud_step) cloud_desk.

Lemma cloud_step_answered :
  evaluator_call blank no_surfaces plain_evaluator cloud_step cloud_desk
  = (Ok cloud_answer, cloud_after).
Proof.
  assert (match run_res (evaluator_call blank no_surfaces plain_evaluator cloud_step) cloud_desk with
          | Ok _ => true | Raise _ => false end = true) as Hok by (vm_compute; reflexivity).
  unfold cloud_answer, cloud_after.
  destruct (evaluator_call blank no_surfaces plain_evaluator cloud_step cloud_desk) as [[d|e] w];
    [done|discriminate Hok].
Qed.

Lemma cloud_step_halts :
  existsb (λ r, bool_decide (verdict r = halt))
    (evaluate blank (build_step_record cloud_step) demo_registry).1 = true.
Proof. vm_compute. reflexivity. Qed.

Lemma evaluator_worst_wins_witness :
  evaluator_call blank no_surfaces plain_evaluator cloud_step cloud_desk
  = (Ok cloud_answer, cloud_after) ∧ outcome cloud_answer = deny.
Proof.
  split; [exact cloud_step_answered|].
  refine (proj1 (proj2 (evaluator_worst_wins blank no_surfaces plain_evaluator cloud_step
    cloud_desk _ _ _ cloud_step_answered)) _).
  - discriminate.
  - pose proof cloud_step_halts as Hx. apply existsb_exists in Hx as (r & Hr & Hv).
    exists r. split; [by apply list_elem_of_In|]. by apply bool_decide_eq_true in Hv.
Defined.
