(* ===== verification/ToolGates.v ===== *)
(** * The gates of a tool call ([plugins/tool_policy.py], [plugins/caller_policy.py],
    [plugins/persona_surface.py], [plugins/mcp_allowlist.py], [taint_policy.py])

    The stateless hooks at [PreToolUse] that allow or refuse a call by its tool's name: the
    operator's allow and block lists with the confirm-once rule, the plugins' permission
    contract, a coding persona's tool surface and the per-persona allow-list of an MCP
    server; and the list of tools a tainted run holds for approval. *)

From S2P Require Import Prelude PyVal PyText Hooks CallContext Kernel Approvals ApprovalService.
From S2P Require Import ApprovalHook.
From stdpp Require Import options.

(** ** [fnmatch.fnmatch]

    [*] matches any text, [?] any character, [\[seq\]] and [\[!seq\]] a character in or out of
    a set of characters and ranges; a bracket that is not closed is itself.  (A set that opens
    with an empty range before an exclamation mark is read as the set after it, not negated.) *)

Inductive glob_tok :=
| GStar
| GAny
| GLit (c : ascii)
| GSet (negated : bool) (ranges : list (N * N)).

Definition BANG : ascii := "!".
Definition CLOSE : ascii := "]".

(** The text up to the next closing bracket. *)
Fixpoint split_close (s : string) : option (string * string) :=
  match s with
  | EmptyString => None
  | String c s' =>
      if Ascii.eqb c CLOSE then Some ("", s')
      else match split_close s' with
           | Some (l, r) => Some (String c l, r)
           | None => None
           end
  end.

(** What follows an opening bracket: negated or not, its members, the rest of the pattern. *)
Definition set_body (s : string) : option (bool * string * string) :=
  let '(neg, s1) := match s with
                    | String c s' => if Ascii.eqb c BANG then (true, s') else (false, s)
                    | EmptyString => (false, s)
                    end in
  let '(first, s2) := match s1 with
                      | String c s' => if Ascii.eqb c CLOSE then (String c "", s') else ("", s1)
                      | EmptyString => ("", s1)
                      end in
  match split_close s2 with
  | Some (body, rest) => Some (neg, first +:+ body, rest)
  | None => None
  end.

(** [a-z] is a range; a hyphen with nothing before or after it is a character. *)
Fixpoint set_ranges (fuel : nat) (s : string) : list (N * N) :=
  match fuel with
  | 0 => []
  | S f =>
      match s with
      | EmptyString => []
      | String lo (String d (String hi s')) =>
          if Ascii.eqb d "-" then (N_of_ascii lo, N_of_ascii hi) :: set_ranges f s'
          else (N_of_ascii lo, N_of_ascii lo) :: set_ranges f (String d (String hi s'))
      | String c s' => (N_of_ascii c, N_of_ascii c) :: set_ranges f s'
      end
  end.

Fixpoint parse_glob (fuel : nat) (p : string) : list glob_tok :=
  match fuel with
  | 0 => []
  | S f =>
      match p with
      | EmptyString => []
      | String c p' =>
          if Ascii.eqb c "*" then GStar :: parse_glob f p'
          else if Ascii.eqb c "?" then GAny :: parse_glob f p'
          else if Ascii.eqb c "[" then
            match set_body p' with
            | Some (neg, body, rest) =>
                GSet neg (set_ranges (String.length body) body) :: parse_glob f rest
            | None => GLit c :: parse_glob f p'
            end
          else GLit c :: parse_glob f p'
      end
  end.

Definition in_set (ranges : list (N * N)) (c : ascii) : bool :=
  existsb (λ '(lo, hi), (lo <=? N_of_ascii c) && (N_of_ascii c <=? hi))%N ranges.

Definition tok_char (t : glob_tok) (c : ascii) : bool :=
  match t with
  | GStar => false
  | GAny => true
  | GLit x => Ascii.eqb x c
  | GSet neg ranges => xorb neg (in_set ranges c)
  end.

Fixpoint match_toks (ts : list glob_tok) : string → bool :=
  match ts with
  | [] => λ s, negb (str_truthy s)
  | GStar :: ts' =>
      fix go (s : string) : bool :=
        match_toks ts' s ||
        match s with EmptyString => false | String _ s' => go s' end
  | t :: ts' => λ s,
      match s with EmptyString => false | String c s' => tok_char t c && match_toks ts' s' end
  end.

Definition fnmatch (name pattern : string) : bool :=
  match_toks (parse_glob (String.length pattern) pattern) name.

(** What a pattern means. *)
Inductive globs : list glob_tok → string → Prop :=
| globs_nil : globs [] ""
| globs_star ts s1 s2 : globs ts s2 → globs (GStar :: ts) (s1 +:+ s2)
| globs_char t ts c s : tok_char t c = true → globs ts s → globs (t :: ts) (String c s).

Definition pattern_of (p : string) : list glob_tok := parse_glob (String.length p) p.

Lemma match_toks_star ts s1 s2 :
  match_toks ts s2 = true → match_toks (GStar :: ts) (s1 +:+ s2) = true.
Proof.
  intros Hs. induction s1 as [|c s1 IH].
  - rewrite string_nil_app. destruct s2; cbn; by rewrite Hs.
  - rewrite string_cons_app. cbn [match_toks]. cbn [match_toks] in IH. rewrite IH.
    apply orb_true_r.
Qed.

Lemma match_toks_globs ts s : match_toks ts s = true ↔ globs ts s.
Proof.
  split.
  - revert s. induction ts as [|t ts IH]; intros s.
    { destruct s; [constructor|done]. }
    destruct t as [| |x|neg rs].
    { induction s as [|c s IHs]; cbn [match_toks]; intros Hm.
      - rewrite orb_false_r in Hm. apply (globs_star ts "" ""). by apply IH.
      - apply orb_true_iff in Hm as [Hm|Hm].
        + apply (globs_star ts ""). by apply IH.
        + apply IHs in Hm. inversion Hm as [|? s1 s2 Hg|]; subst; [|done].
          apply (globs_star ts (String c s1)). done. }
    all: destruct s as [|c s]; cbn [match_toks]; [done|]; intros [Hc Hm]%andb_true_iff;
      constructor; auto.
  - induction 1 as [|ts s1 s2 _ IH|t ts c s Hc _ IH]; [done|by apply match_toks_star|].
    destruct t; [done|..]; cbn [match_toks]; by rewrite Hc, IH.
Qed.

Lemma fnmatch_globs name p : fnmatch name p = true ↔ globs (pattern_of p) name.
Proof. apply match_toks_globs. Qed.

Example fnmatch_star : fnmatch "memory_forget" "memory_*" = true.
Proof. reflexivity. Qed.
Example fnmatch_set : map (λ s, fnmatch s "t[!a-c-]?") ["tdx"; "tbx"; "t-x"; "td"] = [true; false; false; false].
Proof. reflexivity. Qed.
Example fnmatch_open : fnmatch "a[b" "a[b" = true.
Proof. reflexivity. Qed.

(** ** The tool policy *)

Definition MCP_CALLER_PREFIX : string := "mcp:".

(** [is_mcp_caller(ctx.metadata.get("caller"))] *)
Definition is_mcp_caller (caller : option pyval) : bool :=
  match caller with
  | Some v => truthy v && startswith MCP_CALLER_PREFIX (str_val v)
  | None => false
  end.

Record ToolPolicyHook := {
  allowed_tools : option (gset string);
  blocked_tools : gset string;
  confirm_once_tools : gset string;
}.

(** [queued_instead]: the harness escalated the write to a per-call approval. *)
Definition queued_instead (m : dict) : bool :=
  is_true m "deferred_executor" && is_true m "per_call_approval".

Definition confirm_once (h : ToolPolicyHook) (tool : string) (m : dict) : bool :=
  (eq_str m "tool_confirm" "once" && negb (queued_instead m))
  || bool_decide (tool ∈ confirm_once_tools h).

Definition tool_policy_audit (tool policy : string) : dict :=
  <["tool_name" := VStr tool]> {["policy" := VStr policy]}.

Definition outside_client_reason (tool : string) : string :=
  "tool_policy: " +:+ py_repr tool +:+ " writes on the owner's behalf and needs their "
  +:+ "confirmation in an Evarness chat, which a client outside Evarness cannot give; "
  +:+ "it was not run".

Definition ask_first_reason (tool : string) : string :=
  "tool_policy: " +:+ py_repr tool +:+ " writes on the user's behalf and the user has "
  +:+ "not confirmed it yet. Do NOT call it again now. First call ask_user with "
  +:+ "ONE question that lists everything you intend to create (each item's "
  +:+ "text, date and time); after the user confirms, call " +:+ py_repr tool
  +:+ " once per item.".

(** [ToolPolicyHook.__call__] *)
Definition tool_policy_call (h : ToolPolicyHook) (ctx : HookContext) : HookDecision :=
  match get_nonempty (payload ctx) TOOL_NAME with
  | None =>
      mk_decision deny "tool_policy: missing tool_name in PreToolUse context" error
        {["missing" := VStr "tool_name"]}
  | Some tool =>
      let m := metadata ctx in
      if confirm_once h tool m && is_mcp_caller (m !! "caller") then
        mk_decision deny (outside_client_reason tool) warn (tool_policy_audit tool "confirm_once_tools")
      else if confirm_once h tool m && negb (is_true m "asked_user") then
        mk_decision require_approval (ask_first_reason tool) info
          (tool_policy_audit tool "confirm_once_tools")
      else if bool_decide (tool ∈ blocked_tools h) then
        mk_decision deny ("tool_policy: tool " +:+ py_repr tool +:+ " is blocked") warn
          (tool_policy_audit tool "blocked_tools")
      else if match allowed_tools h with
              | Some l => bool_decide (tool ∉ l) && negb (startswith CAPABILITY_TOOL_PREFIX tool)
              | None => false
              end then
        mk_decision deny ("tool_policy: tool " +:+ py_repr tool +:+ " is not in the allowlist") warn
          (tool_policy_audit tool "allowed_tools")
      else
        mk_decision allow ("tool_policy: tool " +:+ py_repr tool +:+ " permitted") info
          {["tool_name" := VStr tool]}
  end.

(** ** The caller policy *)

Definition PLUGIN_PREFIX : string := "plugin:".

(** A registered policy: [None] allows, a reason denies; it may raise. *)
Abbreviation CallerPolicy := (string → string → res (option string)).

Definition caller_audit (caller tool : string) : dict :=
  <["caller" := VStr caller]> {["tool_name" := VStr tool]}.

(** [CallerPolicyHook.__call__], given the policy registered in the process. *)
Definition caller_policy_call (policy : option CallerPolicy) (ctx : HookContext) : res HookDecision :=
  let caller := str_or_empty (metadata ctx !! "caller") in
  let tool := str_or_empty (payload ctx !! TOOL_NAME) in
  if negb (startswith PLUGIN_PREFIX caller) then
    Ok (mk_decision allow ("caller_policy: " +:+ or_str (Some caller) "model") info ∅)
  else
    match policy with
    | None =>
        Ok (mk_decision deny ("caller_policy: no permission contract is loaded, so " +:+ caller
              +:+ " may not call " +:+ py_repr tool) warn (caller_audit caller tool))
    | Some p =>
        match p caller tool with
        | Raise e => Raise e
        | Ok denied =>
            match nonempty denied with
            | Some why =>
                Ok (mk_decision deny ("caller_policy: " +:+ why) warn (caller_audit caller tool))
            | None =>
                Ok (mk_decision allow ("caller_policy: " +:+ caller +:+ " may call " +:+ py_repr tool)
                      info (caller_audit caller tool))
            end
        end
    end.

(** ** The persona surface *)

Definition CANONICAL_PERSONAS : gset string :=
  list_to_set ["analyst"; "architect"; "developer"; "orchestrator"; "sm"; "tester"; "ux-designer"].

Definition ORCHESTRATOR_ALLOWED : gset string :=
  list_to_set ["delegate_to_persona"; "read_file"].

(** The part of a persona's policy this hook reads: its [allowed_tools], by name. *)
Abbreviation PersonaPolicyDocument := (gmap string (list string)).

(** [repr] of a sorted list of names. *)
Definition names_repr (l : list string) : string := "[" +:+ join ", " (map py_repr l) +:+ "]".

Definition sorted_names (s : gset string) : list string :=
  map fst (sort_kv (map (λ n, (n, tt)) (elements s))).

(** [PersonaPolicyDocument.from_yaml] after the file is parsed and its entries validated:
    the roster must be the canonical one. *)
Definition persona_document (path : string) (parsed : PersonaPolicyDocument)
    : res PersonaPolicyDocument :=
  let missing := CANONICAL_PERSONAS ∖ dom parsed in
  let extra := dom parsed ∖ CANONICAL_PERSONAS in
  if bool_decide (missing ∪ extra = ∅) then Ok parsed
  else Raise (Exn "ValueError"
         ("persona-policy roster mismatch at " +:+ path +:+ ": missing="
          +:+ names_repr (sorted_names missing) +:+ " extra=" +:+ names_repr (sorted_names extra))).

(** [PersonaSurface.__call__] *)
Definition persona_surface_call (policy : option PersonaPolicyDocument) (ctx : HookContext)
    : HookDecision :=
  if negb (String.eqb (agent_type ctx) "coding") then
    mk_decision allow "not a coding-agent dispatch" info ∅
  else
    match policy with
    | None => mk_decision allow "persona_surface: no policy loaded (degraded)" info ∅
    | Some doc =>
        match persona ctx with
        | None => mk_decision deny "coding-agent dispatch missing persona" error ∅
        | Some who =>
            match get_nonempty (payload ctx) TOOL_NAME with
            | None =>
                mk_decision deny "persona_surface: missing tool_name in PreToolUse context" error ∅
            | Some tool =>
                if String.eqb who "orchestrator" then
                  if bool_decide (tool ∈ ORCHESTRATOR_ALLOWED) then
                    mk_decision allow ("orchestrator may invoke " +:+ py_repr tool) info ∅
                  else
                    mk_decision deny ("orchestrator persona is delegation-only; cannot invoke "
                                      +:+ py_repr tool) error ∅
                else
                  match doc !! who with
                  | None => mk_decision deny ("persona_surface: unknown persona " +:+ py_repr who) error ∅
                  | Some patterns =>
                      if existsb (fnmatch tool) patterns then
                        mk_decision allow ("persona " +:+ py_repr who +:+ " allows " +:+ py_repr tool) info ∅
                      else
                        mk_decision deny ("persona " +:+ py_repr who +:+ " not allowed to invoke "
                                          +:+ py_repr tool) info ∅
                  end
            end
        end
    end.

(** ** The MCP allow-list *)

Inductive mcp_effect := mcp_read | mcp_write | mcp_destructive.

Record MCPPersonaGrant := { grant_persona : string; grant_tools : list string }.

Record MCPServerGovernance := {
  allowed_for_personas : list MCPPersonaGrant;
  mcp_tools : gmap string mcp_effect;
  undeclared_tools : mcp_effect;
}.

(** [_find_persona_grant]: the first grant of the persona. *)
Definition find_persona_grant (g : MCPServerGovernance) (who : string) : option MCPPersonaGrant :=
  List.find (λ x, String.eqb (grant_persona x) who) (allowed_for_personas g).

Definition mcp_audit (server : string) (m : dict) : dict := <["mcp_server" := VStr server]> m.

(** [MCPAllowlistHook.__call__] *)
Definition mcp_allowlist_call (governance : option (gmap string MCPServerGovernance))
    (ctx : HookContext) : HookDecision :=
  match get_nonempty (payload ctx) "mcp_server" with
  | None => mk_decision allow "mcp_allowlist: not an MCP dispatch" info ∅
  | Some server =>
      let label := default "<unknown>" (get_str (payload ctx) "mcp_tool") in
      let named := mcp_audit server {["mcp_tool" := VStr label]} in
      let dispatch := "mcp_allowlist: MCP dispatch to server " +:+ py_repr server in
      match governance with
      | None => mk_decision allow "mcp_allowlist: no governance map (degraded)" info ∅
      | Some map_ =>
          match map_ !! server with
          | None =>
              mk_decision allow "mcp_allowlist: server has no governance block (warn)" warn named
          | Some g =>
              match persona ctx with
              | None => mk_decision deny (dispatch +:+ " missing persona context") error named
              | Some who =>
                  let as_ m := <["persona" := VStr who]> m in
                  match find_persona_grant g who with
                  | None =>
                      mk_decision deny ("mcp_allowlist: persona " +:+ py_repr who +:+ " not listed in server "
                        +:+ py_repr server +:+ " allowed_for_personas") error
                        (as_ (<["deny_reason" := VStr "persona_not_allowed"]> named))
                  | Some grant =>
                      match get_nonempty (payload ctx) "mcp_tool" with
                      | None =>
                          mk_decision deny (dispatch +:+ " missing mcp_tool in payload") error
                            (as_ (mcp_audit server ∅))
                      | Some tool =>
                          match List.find (fnmatch tool) (grant_tools grant) with
                          | Some pattern =>
                              mk_decision allow ("mcp_allowlist: persona " +:+ py_repr who
                                +:+ " allowed to call " +:+ py_repr server +:+ "/" +:+ py_repr tool) info
                                (as_ (<["matched_pattern" := VStr pattern]> named))
                          | None =>
                              mk_decision deny ("mcp_allowlist: persona " +:+ py_repr who +:+ " tool "
                                +:+ py_repr tool +:+ " not in server " +:+ py_repr server +:+ " allowlist") error
                                (as_ (<["deny_reason" := VStr "tool_not_allowed"]> named))
                          end
                      end
                  end
              end
          end
      end
  end.

(** ** The taint policy *)

Definition DEFAULT_GATED : gset string :=
  list_to_set ["memory_correct"; "memory_forget"; "memory_restore"].

(** A character of [_WILDCARDS]. *)
Definition is_wildcard (c : ascii) : bool :=
  Ascii.eqb c "*" || Ascii.eqb c "?" || Ascii.eqb c "[" || Ascii.eqb c "]".

Fixpoint gated_names (l : list pyval) (out : gset string) : res (gset string) :=
  match l with
  | [] => Ok out
  | VStr n :: l' =>
      if negb (str_truthy (str_strip n)) then
        Raise (Exn "ValueError" "every entry must be a non-empty tool name")
      else if str_any is_wildcard n then
        Raise (Exn "ValueError" (py_repr n +:+ ": wildcards are not allowed"))
      else gated_names l' ({[str_strip n]} ∪ out)
  | _ :: _ => Raise (Exn "ValueError" "every entry must be a non-empty tool name")
  end.

(** [parse_taint_policy] *)
Definition parse_taint_policy (document : pyval) : res (gset string) :=
  match document with
  | VDict d =>
      if forallb (λ kv, String.eqb kv.1 "approval_when_tainted") d then
        match od_get "approval_when_tainted" d with
        | Some (VList names) => gated_names names ∅
        | _ => Raise (Exn "ValueError" "'approval_when_tainted' must be a list")
        end
      else Raise (Exn "ValueError"
             "the file holds one key, 'approval_when_tainted', a list of tool names")
  | _ => Raise (Exn "ValueError"
           "the file holds one key, 'approval_when_tainted', a list of tool names")
  end.

(** The file as the process finds it: no file, a file of some [mtime] that cannot be read or
    parsed as YAML, or the document in it. *)
Inductive taint_file :=
| NoFile
| BadFile (mtime : Z)
| TaintFile (mtime : Z) (document : pyval).

(** [_cache] of the one path. *)
Abbreviation TaintCache := (option (Z * gset string)).

Definition names_of (f : taint_file) : gset string :=
  match f with
  | TaintFile _ doc => match parse_taint_policy doc with Ok names => names | Raise _ => DEFAULT_GATED end
  | _ => DEFAULT_GATED
  end.

(** [taint_gated_tools] *)
Definition taint_gated_tools (f : taint_file) : M TaintCache (gset string) := λ cache,
  match f with
  | NoFile => (Ok DEFAULT_GATED, cache)
  | BadFile mtime | TaintFile mtime _ =>
      match cache with
      | Some (m, names) =>
          if (m =? mtime)%Z then (Ok names, cache)
          else (Ok (names_of f), Some (mtime, names_of f))
      | None => (Ok (names_of f), Some (mtime, names_of f))
      end
  end.

(** ** What the gates let through *)

(** The operator's rules on one tool: confirmed when it must be, not blocked, and on the
    allow-list if there is one and the call is no capability call. *)
Definition tool_permitted (h : ToolPolicyHook) (m : dict) (tool : string) : Prop :=
  (confirm_once h tool m = true →
     is_mcp_caller (m !! "caller") = false ∧ is_true m "asked_user" = true) ∧
  (tool ∉ blocked_tools h) ∧
  (∀ l, allowed_tools h = Some l → tool ∈ l ∨ startswith CAPABILITY_TOOL_PREFIX tool = true).

(** A configuration that confirms and blocks at least as much and allows at most as much. *)
Definition stricter (h h' : ToolPolicyHook) : Prop :=
  confirm_once_tools h ⊆ confirm_once_tools h' ∧ blocked_tools h ⊆ blocked_tools h' ∧
  ∀ l, allowed_tools h = Some l → ∃ l', allowed_tools h' = Some l' ∧ l' ⊆ l.

Lemma tool_policy_allow_iff h ctx :
  outcome (tool_policy_call h ctx) = allow ↔
  ∃ tool, get_nonempty (payload ctx) TOOL_NAME = Some tool ∧ tool_permitted h (metadata ctx) tool.
Proof.
  unfold tool_policy_call, tool_permitted. destruct (get_nonempty _ _) as [tool|]; [|naive_solver].
  split.
  - intros Ho. exists tool. split; [done|]. revert Ho.
    destruct (confirm_once h tool (metadata ctx)) eqn:Hc, (is_mcp_caller _) eqn:Hm,
      (is_true _ "asked_user") eqn:Ha; simpl; try done;
      (case_bool_decide; [done|]); destruct (allowed_tools h) as [l|]; simpl;
      try (case_bool_decide; simpl); try (destruct (startswith _ _) eqn:Hs; simpl); intros Ho;
      try done; (split; [done|]; split; [done|]; intros l' [= <-]; tauto || (by left) || (by right)).
  - intros (t & [= <-] & Hc & Hb & Hl).
    rewrite (bool_decide_eq_false_2 _ Hb).
    assert (∀ b, confirm_once h tool (metadata ctx) && b = true →
      b = true ∧ confirm_once h tool (metadata ctx) = true) as Hand by (intros [] Hx; by to_props).
    destruct (confirm_once h tool (metadata ctx)); simpl in *;
      [destruct (Hc eq_refl) as [-> ->]; simpl|];
      (destruct (allowed_tools h) as [l|]; [|done]); (destruct (Hl l eq_refl) as [Hin|Hs];
      [by rewrite bool_decide_eq_false_2 by tauto|rewrite Hs; by rewrite andb_false_r]).
Qed.

Lemma stricter_permits h h' m tool :
  stricter h h' → tool_permitted h' m tool → tool_permitted h m tool.
Proof.
  intros (Hc & Hb & Ha) (Hc' & Hb' & Ha'). split_and!.
  - intros Hx. apply Hc'. unfold confirm_once in *. apply orb_true_iff in Hx as [Hx|Hx].
    + by rewrite Hx.
    + apply bool_decide_eq_true in Hx. rewrite (bool_decide_eq_true_2 (tool ∈ _)) by set_solver.
      apply orb_true_r.
  - set_solver.
  - intros l Hl. destruct (Ha l Hl) as (l' & Hl' & Hs). destruct (Ha' l' Hl') as [Hi|Hp];
      [left; set_solver|by right].
Qed.

(** The tool policy lets a call through exactly when the operator's rules permit its
    tool: a write that must be confirmed once was confirmed by the user in this run and does
    not come from a client outside, the tool is not blocked, and it is on the allow-list if
    there is one, unless the call is a capability call.  It asks -- instead of refusing --
    exactly when all that is missing is the user's confirmation in a chat; it never rewrites
    a call; and a stricter configuration never lets through what a laxer one refuses. *)
Theorem tool_policy_exact (h : ToolPolicyHook) (ctx : HookContext) :
  (outcome (tool_policy_call h ctx) = allow ↔
   ∃ tool, get_nonempty (payload ctx) TOOL_NAME = Some tool ∧
           tool_permitted h (metadata ctx) tool) ∧
  (outcome (tool_policy_call h ctx) = require_approval ↔
   ∃ tool, get_nonempty (payload ctx) TOOL_NAME = Some tool ∧
           confirm_once h tool (metadata ctx) = true ∧
           is_mcp_caller (metadata ctx !! "caller") = false ∧
           is_true (metadata ctx) "asked_user" = false) ∧
  outcome (tool_policy_call h ctx) ≠ transform ∧
  (∀ h', stricter h h' → outcome (tool_policy_call h' ctx) = allow →
         outcome (tool_policy_call h ctx) = allow).
Proof.
  split_and!.
  - apply tool_policy_allow_iff.
  - unfold tool_policy_call.
    destruct (get_nonempty _ _) as [tool|]; [|split; [done|]; by intros (? & ? & _)].
    destruct (confirm_once h tool (metadata ctx)) eqn:Hc, (is_mcp_caller _) eqn:Hm,
      (is_true _ "asked_user") eqn:Ha; simpl;
      try (split; [done|]; intros (t & [= <-] & Hc' & Hm' & Ha'); congruence);
      try (destruct (bool_decide _); [|destruct (allowed_tools h); [destruct (_ && _)|]]; simpl;
        (split; [done|]; intros (t & [= <-] & Hc' & Hm' & Ha'); congruence)).
    split; [|done]. intros _. by exists tool.
  - unfold tool_policy_call. destruct (get_nonempty _ _); [|done].
    destruct (_ && _); [done|]. destruct (_ && _); [done|]. destruct (bool_decide _); [done|].
    destruct (allowed_tools h); [destruct (_ && _)|]; done.
  - intros h' Hs. rewrite !tool_policy_allow_iff. intros (tool & Ht & Hp).
    exists tool. split; [done|]. by eapply stricter_permits.
Qed.

Lemma roster_complete (A B : gset string) : (A ∖ B) ∪ (B ∖ A) = ∅ → B ⊆ A.
Proof. intros He x Hx. destruct (decide (x ∈ A)); [done|]. set_solver. Qed.

Lemma orchestrator_tools tool :
  tool ∈ ORCHESTRATOR_ALLOWED ↔ tool = "delegate_to_persona" ∨ tool = "read_file".
Proof.
  unfold ORCHESTRATOR_ALLOWED. rewrite elem_of_list_to_set, !elem_of_cons, elem_of_nil. tauto.
Qed.

(** A coding agent's call passes the persona surface exactly when its persona may make
    it: the orchestrator may only delegate or read a file, whatever the policy file says of
    it; any other persona is one of the canonical roster and has a pattern that the tool's
    name matches.  A call with no persona or no tool name never passes. *)
Theorem persona_surface_exact path parsed doc ctx :
  persona_document path parsed = Ok doc → agent_type ctx = "coding" →
  let d := persona_surface_call (Some doc) ctx in
  (outcome d = allow ∨ outcome d = deny) ∧
  (outcome d = allow ↔
   ∃ who tool, persona ctx = Some who ∧ get_nonempty (payload ctx) TOOL_NAME = Some tool ∧
     ((who = "orchestrator" ∧ (tool = "delegate_to_persona" ∨ tool = "read_file")) ∨
      (who ≠ "orchestrator" ∧ who ∈ CANONICAL_PERSONAS ∧
       ∃ patterns p, doc !! who = Some patterns ∧ p ∈ patterns ∧ globs (pattern_of p) tool))).
Proof.
  intros Hd Hc d. unfold d, persona_surface_call. rewrite Hc. simpl.
  assert (dom doc ⊆ CANONICAL_PERSONAS) as Hdom.
  { unfold persona_document in Hd. case_bool_decide as Hb; [|done]. injection Hd as <-.
    by apply roster_complete. }
  destruct (persona ctx) as [who|]; [|split; [by right|]; split; [done|]; by intros (? & ? & ? & ? & _)].
  destruct (get_nonempty _ _) as [tool|]; [|split; [by right|]; split; [done|]; by intros (? & ? & ? & ? & _)].
  destruct (String.eqb who "orchestrator") eqn:Ho; to_props.
  - case_bool_decide as Hi; rewrite orchestrator_tools in Hi; (split; [simpl; auto|]);
      split; try done.
    + intros _. exists who, tool. split_and!; [done..|]. by left.
    + intros (w & t & [= <-] & [= <-] & [[_ Ht]|[Hne _]]); [|done]. by destruct Hi.
  - destruct (doc !! who) as [patterns|] eqn:Hp; [destruct (existsb _ _) eqn:He|];
      (split; [simpl; auto|]); split; try done.
    + intros _. apply existsb_exists in He as (p & Hin & Hm). exists who, tool.
      split_and!; [done..|]. right. split_and!; [done|apply Hdom; by eapply elem_of_dom_2|].
      exists patterns, p. split_and!; [done|by apply list_elem_of_In|by apply fnmatch_globs].
    + intros (w & t & [= <-] & [= <-] & [[Hw _]|(_ & _ & ps & p & Hps & Hin & Hg)]); [done|].
      rewrite Hp in Hps. injection Hps as <-. apply fnmatch_globs in Hg. apply list_elem_of_In in Hin. exfalso.
      apply not_true_iff_false in He. apply He, existsb_exists. eauto.
    + intros (w & t & [= <-] & [= <-] & [[Hw _]|(_ & _ & ps & p & Hx & _)]); [done|].
      rewrite Hp in Hx. done.
Qed.

(** The MCP allow-list, on a server the operator governs. *)
Lemma mcp_allowlist_iff map_ g server ctx :
  get_nonempty (payload ctx) "mcp_server" = Some server → map_ !! server = Some g →
  outcome (mcp_allowlist_call (Some map_) ctx) = allow ↔
  ∃ who grant tool p, persona ctx = Some who ∧ find_persona_grant g who = Some grant ∧
    get_nonempty (payload ctx) "mcp_tool" = Some tool ∧
    p ∈ grant_tools grant ∧ globs (pattern_of p) tool.
Proof.
  intros Hs Hg. unfold mcp_allowlist_call. rewrite Hs, Hg.
  destruct (persona ctx) as [who|]; [|split; [done|]; by intros (? & ? & ? & ? & ? & _)].
  destruct (find_persona_grant g who) as [grant|] eqn:Hf.
  2: { split; [done|]. intros (? & ? & ? & ? & [= <-] & Hx & _). congruence. }
  destruct (get_nonempty (payload ctx) "mcp_tool") as [tool|].
  2: { split; [done|]. by intros (? & ? & ? & ? & _ & _ & ? & _). }
  destruct (List.find (fnmatch tool) (grant_tools grant)) as [p|] eqn:Hp; split; try done.
  - intros _. apply find_some in Hp as [Hin Hm]. exists who, grant, tool, p.
    split_and!; [done..|by apply list_elem_of_In|by apply fnmatch_globs].
  - intros (w & gr & t & p & [= <-] & Hx & [= <-] & Hin & Hm). exfalso.
    assert (gr = grant) as -> by congruence. apply fnmatch_globs in Hm.
    by rewrite (find_none _ _ Hp p (proj1 (list_elem_of_In _ _) Hin)) in Hm.
Qed.

(** ** The gated tools of a tainted run *)

Lemma gated_names_spec l out s :
  gated_names l out = Ok s →
  ∃ names, l = map VStr names ∧
    (∀ x, x ∈ s ↔ x ∈ out ∨ ∃ n, n ∈ names ∧ x = str_strip n) ∧
    (∀ n, n ∈ names → str_strip n ≠ "" ∧ str_any is_wildcard n = false).
Proof.
  revert out. induction l as [|v l IH]; intros out; simpl.
  { intros [= <-]. exists []. split; [done|]. split; [|by intros n ?%elem_of_nil].
    intros x. split; [by left|]. by intros [?|(? & ?%elem_of_nil & _)]. }
  destruct v as [| | | |n| | |]; try done.
  destruct (str_truthy (str_strip n)) eqn:Ht; simpl; [|done].
  destruct (str_any is_wildcard n) eqn:Hw; [done|].
  intros (names & -> & Hs & Hn)%IH. exists (n :: names). split; [done|]. split.
  - intros x. rewrite Hs, elem_of_union, elem_of_singleton. split.
    + intros [[->|Hx]|(m & Hm & ->)]; [right|by left|right]; [exists n|exists m];
        (split; [|done]); rewrite elem_of_cons; auto.
    + intros [Hx|(m & [->|Hm]%elem_of_cons & ->)]; [auto|auto|]. right. eauto.
  - intros m [->|Hm]%elem_of_cons; [|auto]. split; [|done]. intros He. by rewrite He in Ht.
Qed.

Section taint.
(** What a file of some [mtime] holds: nothing readable, or a document. *)
Context (content : Z → option pyval).

Definition is_version (f : taint_file) : Prop :=
  match f with
  | NoFile => True
  | BadFile m => content m = None
  | TaintFile m doc => content m = Some doc
  end.

Definition cache_true (c : TaintCache) : Prop :=
  match c with
  | None => True
  | Some (m, names) =>
      names = match content m with
              | Some doc => names_of (TaintFile m doc)
              | None => DEFAULT_GATED
              end
  end.

Lemma taint_read_true f c :
  is_version f → cache_true c →
  run_res (taint_gated_tools f) c = Ok (names_of f) ∧ cache_true (run_state (taint_gated_tools f) c).
Proof using Type.
  intros Hv Hc. destruct f as [|m|m doc]; simpl in *; [done|..];
    destruct c as [[m' names]|]; simpl in *; try (rewrite Hv; done);
    (destruct (m' =? m)%Z eqn:He; to_props; simpl; [subst m'|by rewrite Hv]);
    (rewrite Hv in Hc; rewrite Hv; by subst names).
Qed.

(** Successive reads of the file, from an empty cache. *)
Definition taint_reads (fs : list taint_file) : TaintCache :=
  fold_left (λ c f, run_state (taint_gated_tools f) c) fs None.

Lemma taint_reads_true fs : (∀ f, f ∈ fs → is_version f) → cache_true (taint_reads fs).
Proof using Type.
  unfold taint_reads. induction fs as [|f fs IH] using rev_ind; [done|]. intros Hv.
  rewrite fold_left_app. simpl. apply taint_read_true.
  - apply Hv, elem_of_app. right. by left.
  - apply IH. intros g Hg. apply Hv, elem_of_app. by left.
Qed.
End taint.

(** The gated list of a tainted run fails to more approval, never to less: whatever
    reads came before, the process answers for the file as it is now -- the three memory
    writes when there is no file, or one that cannot be read, parsed or validated, and
    otherwise exactly the names the owner listed, none of them a wildcard -- provided only
    that a file of one [mtime] has one content. *)
Theorem taint_gate_fails_closed (content : Z → option pyval) fs f :
  (∀ g, g ∈ fs ++ [f] → is_version content g) →
  run_res (taint_gated_tools f) (taint_reads fs) = Ok (names_of f) ∧
  (names_of f = DEFAULT_GATED ∨
   ∃ m d names, f = TaintFile m (VDict d) ∧
     od_get "approval_when_tainted" d = Some (VList (map VStr names)) ∧
     (∀ x, x ∈ names_of f ↔ ∃ n, n ∈ names ∧ x = str_strip n) ∧
     (∀ n, n ∈ names → str_strip n ≠ "" ∧ str_any is_wildcard n = false)).
Proof.
  intros Hv. split.
  - apply (taint_read_true content).
    + apply Hv, elem_of_app. right. by left.
    + apply taint_reads_true. intros g Hg. apply Hv, elem_of_app. by left.
  - destruct f as [|m|m doc]; [by left..|]. unfold names_of.
    destruct (parse_taint_policy doc) as [s|e] eqn:Hp; [right|by left].
    destruct doc as [| | | | | |d|]; try done. simpl in Hp.
    destruct (forallb _ d); [|done].
    destruct (od_get _ d) as [[| | | | |l| |]|] eqn:Hd; try done.
    apply gated_names_spec in Hp as (names & -> & Hs & Hn). exists m, d, names.
    split_and!; [done..| |done]. intros x. rewrite Hs.
    split; [intros [?%elem_of_empty|?]; done|by right].
Qed.

(** ** A persona, and a policy file that is edited *)

Definition demo_personas : PersonaPolicyDocument :=
  list_to_map (map (λ n, (n, ["read_*"])) (elements CANONICAL_PERSONAS)).

Definition coding_call (who tool : string) : HookContext :=
  {| ctx_hook_point := PRE_TOOL_USE; run_id := "r"; agent_type := "coding"; step_id := None;
     persona := Some who; route := None; payload := {[ TOOL_NAME := VStr tool ]};
     classification := None; tier := None; metadata := ∅ |}.

Lemma demo_personas_load : persona_document "p.yaml" demo_personas = Ok demo_personas.
Proof. vm_compute. reflexivity. Qed.

Lemma persona_surface_exact_witness :
  outcome (persona_surface_call (Some demo_personas) (coding_call "orchestrator" "read_secrets")) = deny.
Proof.
  destruct (persona_surface_exact "p.yaml" demo_personas demo_personas
    (coding_call "orchestrator" "read_secrets") demo_personas_load eq_refl) as [[Ho|Ho] Hiff];
    [|exact Ho].
  apply Hiff in Ho as (who & tool & [= <-] & Ht & [[_ Hx]|[Hne _]]).
  - injection Ht as <-. destruct Hx; discriminate.
  - destruct (Hne eq_refl).
Defined.

Definition edited_policy : Z → option pyval := λ m,
  if (m =? 1)%Z then Some (VDict [("approval_when_tainted", VList [VStr "rm"; VStr " send "])])
  else None.

Lemma taint_gate_fails_closed_witness :
  run_res (taint_gated_tools (BadFile 2))
    (taint_reads [NoFile; TaintFile 1 (VDict [("approval_when_tainted", VList [VStr "rm"; VStr " send "])])])
  = Ok DEFAULT_GATED.
Proof.
  refine (proj1 (taint_gate_fails_closed edited_policy _ (BadFile 2) _)).
  intros g Hg. repeat (apply elem_of_cons in Hg as [->|Hg]; [reflexivity || exact I|]).
  by apply elem_of_nil in Hg.
Defined.

Example taint_names :
  run_res (taint_gated_tools (TaintFile 1 (VDict [("approval_when_tainted", VList [VStr "rm"; VStr " send "])]))) None
  = Ok {["rm"; "send"]}.
Proof. vm_compute. reflexivity. Qed.

(** ** The gates as hooks *)

(** A hook that reads the call, and what the process holds, and changes nothing. *)
Definition reader_hook {W} (ident : nat) (name : string) (point : HookPoint) (priority : Z)
    (f : HookContext → W → res HookDecision) : Hook W :=
  {| hook_ident := ident; hook_name := name; hook_at := point; hook_priority := priority;
     hook_call := λ c w, (f c w, w); hook_bot := None |}.

Definition caller_policy_hook {W} (ident : nat) (policy_of : W → option CallerPolicy) : Hook W :=
  reader_hook ident "caller_policy" PRE_TOOL_USE 12 (λ c w, caller_policy_call (policy_of w) c).

Definition persona_surface_hook {W} (ident : nat) (policy : option PersonaPolicyDocument) : Hook W :=
  reader_hook ident "persona_surface" PRE_TOOL_USE 15 (λ c _, Ok (persona_surface_call policy c)).

Definition mcp_allowlist_hook {W} (ident : nat) (map_ : option (gmap string MCPServerGovernance))
    : Hook W :=
  reader_hook ident "mcp_allowlist" PRE_TOOL_USE 18 (λ c _, Ok (mcp_allowlist_call map_ c)).

Definition tool_policy_hook {W} (ident : nat) (h : ToolPolicyHook) : Hook W :=
  reader_hook ident "tool_policy" PRE_TOOL_USE 20 (λ c _, Ok (tool_policy_call h c)).
