(* ===== verification/CredentialBroker.v ===== *)
(** * The credential broker ([plugins/credential_broker.py])

    The hook at [PreToolUse], after the owner's approval, that puts the vault's secrets where a
    call's arguments name them.  The vault is an argument. *)

From S2P Require Import Prelude PyVal PyText Hooks CallContext Kernel.
From stdpp Require Import options.

Local Abbreviation pydict := (list (string * pyval)).

Definition VAULT_PREFIX : string := "vault://".

(** [_walk]: the leaves that name a handle, in order. *)
Fixpoint _walk (v : pyval) : list string :=
  match v with
  | VStr s => if startswith VAULT_PREFIX s then [s] else []
  | VDict d => flat_map (λ kv, _walk kv.2) d
  | VList l => flat_map _walk l
  | _ => []
  end.

(** [list(dict.fromkeys(l))] *)
Fixpoint from_keys (seen l : list string) : list string :=
  match l with
  | [] => []
  | x :: l => if str_in x seen then from_keys seen l else x :: from_keys (x :: seen) l
  end.
Definition _find_vault_handles (v : pyval) : list string := from_keys [] (_walk v).

(** [_substitute] *)
Fixpoint _substitute (resolved : list (string * string)) (v : pyval) : pyval :=
  match v with
  | VStr s => VStr (if startswith VAULT_PREFIX s then default s (od_get s resolved) else s)
  | VDict d => VDict (map (λ kv, (kv.1, _substitute resolved kv.2)) d)
  | VList l => VList (map (_substitute resolved) l)
  | v => v
  end.

(** The members of an iterable that are texts, not empty ones. *)
Definition declared_handles_of (v : option pyval) : res (list string) :=
  let texts l := omap (λ x, match x with VStr s => if str_truthy s then Some s else None | _ => None end) l in
  match v with
  | None => Ok []
  | Some v =>
      if negb (truthy v) then Ok []
      else match iter_val v with Ok l => Ok (texts l) | Raise _ => Raise (Exn "TypeError" "object is not iterable") end
  end.

Definition names (l : list string) : pyval := VList (map VStr l).

Section broker.
Context {W : Type} (vault : option (string → M W (option string))).

(** The handles one after the other: what was found of each, and what was not. *)
Fixpoint look_up (get : string → M W (option string)) (handles : list string) : M W (list (string * string) * list string) :=
  match handles with
  | [] => mret ([], [])
  | h :: handles =>
      value ← get h;
      rest ← look_up get handles;
      mret (match value with
            | Some s => ((h, s) :: rest.1, rest.2)
            | None => (rest.1, h :: rest.2)
            end)
  end.

(** [CredentialBroker.__call__]; the order of a Python set is any order. *)
Definition credential_broker_call (ctx : HookContext) : M W HookDecision :=
  let tool_args := args_of (payload ctx) in
  declared ← lift_res (declared_handles_of (metadata ctx !! "required_credentials"));
  let found := match tool_args with Some a => _find_vault_handles (VDict a) | None => [] end in
  let all := elements (list_to_set (found ++ declared) : gset string) in
  match all, vault with
  | [], _ => mret (mk_decision allow "credential_broker: no vault handles in tool arguments" info ∅)
  | _, None =>
      if get_truthy (metadata ctx) "requires_credentials" || match declared with [] => false | _ => true end
      then mret (mk_decision deny "credential_broker: tool declares required credentials but the vault is unavailable (fail-closed)" critical
                   (<["handles" := names all]> {["vault_available" := VBool false]}))
      else mret (mk_decision allow "credential_broker: vault unavailable, no required credentials declared" warn
                   (<["handles" := names all]> {["vault_available" := VBool false]}))
  | _, Some get =>
      r ← look_up get all;
      match r.2, found, tool_args with
      | _ :: _, _, _ =>
          mret (mk_decision deny ("credential_broker: vault handle(s) not found: " +:+ str_val (names (sorted r.2))) error
                  (<["missing_handles" := names (sorted r.2)]> {["resolved_count" := VInt (Z.of_nat (length r.1))]}))
      | [], _ :: _, Some a =>
          mret {| outcome := transform;
                  reason := "credential_broker: resolved " +:+ pretty (length found) +:+ " handle(s) in the arguments";
                  transformed_payload := Some (<[ARGS := _substitute r.1 (VDict a)]> (payload ctx));
                  set_classification := None; set_tier := None; approval_request_id := None; severity := info;
                  audit_metadata := {["resolved_handles" := names (sorted found)]}; decided_by := None |}
      | [], _, _ =>
          mret (mk_decision allow "credential_broker: declared credentials available" info
                  {["resolved_handles" := names (sorted (map fst r.1))]})
      end
  end.

Definition broker_hook (ident : nat) : Hook W :=
  {| hook_ident := ident; hook_name := "credential_broker"; hook_at := PRE_TOOL_USE; hook_priority := 90;
     hook_call := credential_broker_call; hook_bot := None |}.

(** ** What the broker does to a call *)

(** What the vault gives for a handle, at some moment. *)
Definition vault_gives (h s : string) : Prop :=
  ∃ get w w', vault = Some get ∧ get h w = (Ok (Some s), w').

(** The arguments with every handle in them replaced by what the vault gives for it. *)
Definition filled (args args' : pydict) : Prop :=
  ∃ resolved, (∀ h s, (h, s) ∈ resolved → vault_gives h s) ∧
    (∀ h, h ∈ _walk (VDict args) → h ∈ map fst resolved) ∧
    VDict args' = _substitute resolved (VDict args).

Lemma from_keys_in x seen l : x ∈ l → x ∈ seen ∨ x ∈ from_keys seen l.
Proof using Type.
  revert seen. induction l as [|y l IH]; intros seen; [by intros ?%elem_of_nil|]. intros [->|Hx]%elem_of_cons; cbn [from_keys].
  - destruct (str_in y seen) eqn:Hy; [left; by apply str_in_elem|right; by left].
  - destruct (str_in y seen); [by apply IH|]. destruct (IH (y :: seen) Hx) as [[->|?]%elem_of_cons|?]; [right; by left|by left|right; by right].
Qed.

Lemma look_up_gives get handles w r w' : look_up get handles w = (Ok r, w') →
  (∀ h s, (h, s) ∈ r.1 → ∃ w1 w2, get h w1 = (Ok (Some s), w2)) ∧ (r.2 = [] → ∀ h, h ∈ handles → h ∈ map fst r.1).
Proof using Type.
  revert w r w'. induction handles as [|h handles IH]; intros w r w'; cbn [look_up].
  { intros [= <- <-]. split; [by intros ? ? ?%elem_of_nil|by intros _ ? ?%elem_of_nil]. }
  run_monad. destruct (get h w) as [[value|e] w1] eqn:Hv; [|done]. destruct (look_up get handles w1) as [[rest|e] w2] eqn:Hr; [|done].
  intros [= <- <-]. destruct (IH _ _ _ Hr) as [Hg Hall]. destruct value as [s|]; cbn [fst snd].
  - split; [intros h' s' [[= -> ->]|Hin]%elem_of_cons; eauto|]. intros Hn h' [->|Hin]%elem_of_cons; [by left|right; auto].
  - split; [done|by intros]. 
Qed.

(** It rewrites at most the arguments, and those only by filling them from the vault. *)
Lemma broker_fills ctx w d w' p : credential_broker_call ctx w = (Ok d, w') → outcome d = transform → transformed_payload d = Some p →
  p !! TOOL_NAME = payload ctx !! TOOL_NAME ∧ ∃ a a', args_of (payload ctx) = Some a ∧ p !! ARGS = Some (VDict a') ∧ filled a a'.
Proof using Type.
  unfold credential_broker_call. run_monad. destruct (declared_handles_of _) as [declared|e]; [|done]. unfold lift_res.
  set (found := match args_of (payload ctx) with Some a => _ | None => _ end). set (all := elements _).
  destruct all as [|h0 all'] eqn:Hall; [by intros [= <- _]|]. rewrite <- Hall. destruct vault as [get|] eqn:Hv.
  2: { destruct (_ || _); by intros [= <- _]. }
  destruct (look_up get all w) as [[r|e] w1] eqn:Hr; [|done]. apply look_up_gives in Hr as [Hg Hdone].
  destruct r.2 eqn:Hmiss; [|by intros [= <- _]]. destruct found as [|f fs] eqn:Hf; [by intros [= <- _]|].
  destruct (args_of (payload ctx)) as [a|] eqn:Ha; [|done]. intros [= <- _] _ [= <-]. cbn [_substitute]. split; [by rewrite lookup_insert_ne|].
  exists a, (map (λ kv, (kv.1, _substitute r.1 kv.2)) a). split; [done|]. split; [apply lookup_insert_eq|]. exists r.1. split_and!; [| |done].
  - intros h s Hin. destruct (Hg _ _ Hin) as (w2 & w3 & E). by exists get, w2, w3.
  - intros h Hh. apply Hdone; [done|]. unfold all. apply elem_of_elements, elem_of_list_to_set, elem_of_app. left. rewrite <- Hf. unfold found.
    unfold _find_vault_handles. by destruct (from_keys_in h [] _ Hh) as [?%elem_of_nil|?].
Qed.

Lemma broker_respects R `{!PreOrder R} : (∀ get h, vault = Some get → Respects R (get h)) → ∀ ident, RespectsHook R (broker_hook ident).
Proof using Type.
  intros Hget ident. split; [|done]. intros c. cbn. unfold credential_broker_call. apply respects_bind; [apply _..|]. intros declared.
  destruct (elements _); [apply _|]. destruct vault as [get|]; [|destruct (_ || _); apply _]. specialize (λ h, Hget get h eq_refl).
  apply respects_bind; [apply _| |].
  - generalize (s :: l). intros hs. induction hs as [|h hs IH]; cbn [look_up]; [apply _|].
    apply respects_bind; [apply _|apply Hget|]. intros v. apply respects_bind; [apply _|apply IH|]. intros rest. apply _.
  - intros [resolved missing]. cbn. repeat case_match; apply _.
Qed.
End broker.

(** A handle in a call's arguments, and the secret the tool gets. *)
Example handle_filled :
  let vault : option (string → M unit (option string)) := Some (λ h, mret (if String.eqb h "vault://k" then Some "s3cret" else None)) in
  let ctx args := {| ctx_hook_point := PRE_TOOL_USE; run_id := "r"; agent_type := "chat"; step_id := None; persona := None; route := None;
    payload := <[TOOL_NAME := VStr "post"]> {[ARGS := VDict args]}; classification := None; tier := None; metadata := ∅ |} in
  match credential_broker_call vault (ctx [("key", VStr "vault://k"); ("to", VList [VStr "a"; VStr "vault://k"])]) tt with
  | (Ok d, _) => (λ p : dict, p !! ARGS) <$> transformed_payload d = Some (Some (VDict [("key", VStr "s3cret"); ("to", VList [VStr "a"; VStr "s3cret"])]))
  | _ => False
  end ∧
  match credential_broker_call vault (ctx [("key", VStr "vault://other")]) tt with (Ok d, _) => outcome d = deny | _ => False end.
Proof. by vm_compute. Qed.
