(* ===== verification/ToolCall.v ===== *)
(** * A tool call through the whole gate

    The hooks of the other files composed the way [wiring.py] registers them: a call that
    [GovernanceKernel.fire(PRE_TOOL_USE)] lets out was permitted by the tool policy, approved
    by the owner when it had to be, and recorded in the side-effect ledger before it ran.

    The hooks share one world.  What a hook, the audit log or a surface may do to the books
    of the others -- the approvals table and the side-effect ledger -- is the interface
    [KeepsBooks]; the hooks of this library are its instances. *)

From S2P Require Import Prelude PyVal PyText Hooks CallContext Kernel Approvals ApprovalService.
From S2P Require Import ApprovalHook Bots SideEffects ToolGates CredentialBroker.
From stdpp Require Import options.

Section books.
Context {W : Type} `{!Part W Table, !Part W SideEffectLedger}.

Definition the_table (w : W) : Table := part w.
Definition the_ledger (w : W) : SideEffectLedger := part w.

Definition books_ok (w : W) : Prop := table_ok (the_table w) ∧ ledger_ok (the_ledger w).

Definition books_grow (w w' : W) : Prop :=
  table_evolves (the_table w) (the_table w') ∧ ledger_grows (the_ledger w) (the_ledger w').

#[export] Instance books_grow_preorder : PreOrder books_grow.
Proof.
  split.
  - intros w. split; reflexivity.
  - intros w1 w2 w3 [A1 B1] [A2 B2]. split; by etrans.
Qed.

(** What a computation promises to the owners of the books: it leaves them well formed, and
    forgets and rewrites nothing in them. *)
Definition book_step (w w' : W) : Prop := books_ok w → books_ok w' ∧ books_grow w w'.

#[export] Instance book_step_preorder : PreOrder book_step.
Proof.
  split.
  - intros w Hw. split; [done|reflexivity].
  - intros w1 w2 w3 H12 H23 H1. destruct (H12 H1) as [H2 G1]. destruct (H23 H2) as [H3 G2].
    split; [done|by etrans].
Qed.

Lemma kb_bind {A B} (m : M W A) (f : A → M W B) :
  Respects book_step m → (∀ a, Respects book_step (f a)) → Respects book_step (m ≫= f).
Proof using Type. apply respects_bind, _. Qed.

Lemma kb_try {A} (m : M W A) h :
  Respects book_step m → (∀ e, Respects book_step (h e)) → Respects book_step (try_except m h).
Proof using Type. apply respects_try, _. Qed.

Lemma kb_seq w1 w2 w3 :
  (books_ok w2 ∧ books_grow w1 w2) → (books_ok w2 → books_ok w3 ∧ books_grow w2 w3) →
  books_ok w3 ∧ books_grow w1 w3.
Proof using Type. intros [H1 G1] H2. destruct (H2 H1). split; [done|by etrans]. Qed.

Lemma kb_same {A} (m : M W A) :
  (∀ w, the_table (run_state m w) = the_table w ∧ the_ledger (run_state m w) = the_ledger w) →
  Respects book_step m.
Proof using Type.
  intros Hm w [Ht Hl]. destruct (Hm w) as [E1 E2]. unfold books_ok, books_grow.
  rewrite E1, E2. by split_and!.
Qed.

(** A write of the table that the table's own laws allow. *)
Lemma kb_table {A} `{!PartLaws W Table, !Apart W Table SideEffectLedger} (m : M Table A) :
  keeps (on_part m : M W A) → Respects book_step (on_part m : M W A).
Proof using Type.
  intros Hm w [Ht Hl]. destruct (Hm w Ht) as [Ht' He].
  assert (the_ledger (run_state (on_part m) w) = the_ledger w) as E.
  { unfold on_part, zoom. destruct (m (part w)) as [r t]. apply apart. }
  unfold books_ok, books_grow. rewrite E. by split_and!.
Qed.

Lemma kb_ledger {A} `{!PartLaws W SideEffectLedger, !Apart W SideEffectLedger Table}
    (m : M SideEffectLedger A) :
  (∀ l, ledger_ok l → ledger_step l (run_state m l)) → Respects book_step (on_part m : M W A).
Proof using Type.
  intros Hm w [Ht Hl]. unfold on_part, zoom. specialize (Hm (part w) Hl).
  destruct (m (part w)) as [r l']. simpl in *. destruct Hm as [Hok Hg].
  unfold books_ok, books_grow, the_table, the_ledger. rewrite part_set, apart. by split_and!.
Qed.

End books.

(** The interfaces: a computation, a hook, a kernel's hooks and the audit log. *)
Abbreviation KeepsBooks := (Respects book_step).
Abbreviation BookHook := (RespectsHook book_step).
Abbreviation BookKernel := (RespectsKernel book_step).
Abbreviation BookEnv := (RespectsEnv book_step).

(** ** The instances *)

Section instances.
Context {W : Type} `{!Part W Table, !Part W SideEffectLedger}.
Context `{!PartLaws W Table, !PartLaws W SideEffectLedger}.
Context `{!Apart W Table SideEffectLedger, !Apart W SideEffectLedger Table}.

#[export] Instance reader_hook_books ident name point priority f :
  BookHook (reader_hook ident name point priority f : Hook W).
Proof using Type. split; [intros c; by apply kb_same|done]. Qed.

#[export] Instance pre_ledger_books calls_of stamp_of ident has :
  BookHook (pre_ledger_hook calls_of stamp_of ident has : Hook W).
Proof using All.
  split; [|done]. intros c w Hw. simpl. unfold pre_ledger_call.
  destruct (_ || _); [by split|]. destruct (_ && _); [by split|].
  destruct (negb has); [by split|].
  match goal with |- context [on_part ?m w] => pose proof (kb_ledger (W := W) m) as Hk end.
  match type of Hk with ?P → _ => assert P as Hs by (intros l Hl; by apply se_record_step) end.
  specialize (Hk Hs w Hw). destruct (on_part _ w) as [[x|e] w']; by simpl in *.
Qed.

Context (sf : Surfaces W) `{!SurfacesOk sf}.

(** What the approval queue's ledger may do to the books. *)
Class BookSurfaces : Prop := book_sf_record f r : sf_record sf = Some f → KeepsBooks (f r).

Context `{!BookSurfaces}.

Lemma record_row_books r : KeepsBooks (record_row sf r).
Proof using All.
  unfold record_row. destruct (sf_record sf) as [f|] eqn:Hf; [|apply _].
  pose proof (book_sf_record f r Hf). apply _.
Qed.

Lemma destructive_books ident (h : DestructiveApprovalHook W) :
  (∀ f r, notify_router h = Some f → KeepsBooks (f r)) →
  BookHook (destructive_hook sf ident h).
Proof using All.
  intros Hn. split; [|done]. intros c. simpl. unfold destructive_call.
  destruct (negb _); [apply _|]. destruct (negb _); [apply _|]. destruct (get_truthy _ _).
  - unfold verify, queue_get. apply kb_bind; [apply _|]. intros [r|]; [|apply _].
    destruct (negb _); [apply _|]. destruct (negb _); [apply _|].
    destruct (caller r); [|apply _]. destruct (negb _); [apply _|].
    apply kb_bind; [apply _|]. intros now. apply kb_bind; [|intros [x|]; apply _].
    unfold queue_claim. apply kb_bind; [apply kb_table; auto with gov|].
    intros [x|]; [|apply _]. apply kb_bind; [apply record_row_books|]. intros _. apply _.
  - destruct (_ && _); [apply _|]. unfold request. destruct (build_card _ _); [|apply _].
    apply kb_bind; [apply _|]. intros turn. apply kb_bind; [apply _|]. intros uuid.
    apply kb_bind; [apply _|]. intros now. apply kb_bind.
    { unfold queue_enqueue. apply kb_bind; [apply kb_table; auto with gov|].
      intros id. apply kb_bind; [apply record_row_books|]. intros _. apply _. }
    intros id. apply kb_bind; [apply _|]. intros row. apply kb_bind; [|intros _; apply _].
    destruct row as [r|], (notify_router h) as [f|] eqn:Hf; try apply _.
    apply kb_try; [by apply Hn|intros e; apply _].
Qed.
End instances.

(** ** What a firing may do to the call *)

(** Same run, same step and the same metadata, but for what [apply_updates] itself writes. *)
Definition same_call (c c' : HookContext) : Prop :=
  run_id c' = run_id c ∧ step_id c' = step_id c ∧
  ∀ x, x ≠ SIDE_EFFECT_ID → x ≠ "transformed_by" → metadata c' !! x = metadata c !! x.

#[export] Instance same_call_preorder : PreOrder same_call.
Proof.
  split.
  - intros c. by split_and!.
  - intros c1 c2 c3 (R1 & S1 & M1) (R2 & S2 & M2). split_and!; [congruence..|].
    intros x Hx Hy. by rewrite M2, M1.
Qed.

Lemma apply_updates_same name d c c' : apply_updates name d c = Ok c' → same_call c c'.
Proof.
  unfold apply_updates. intros Hu.
  assert (∀ x, x ≠ SIDE_EFFECT_ID →
    match get_nonempty (audit_metadata d) SIDE_EFFECT_ID with
    | Some key => <[SIDE_EFFECT_ID := VStr key]> (metadata c)
    | None => metadata c
    end !! x = metadata c !! x) as Hm.
  { intros x Hx. destruct (get_nonempty _ _); [by rewrite lookup_insert_ne|done]. }
  destruct (outcome d), (transformed_payload d);
    try destruct (append_transformed_by _ _); try done; injection Hu as <-;
    split_and!; try done; simpl; intros x Hx Hy; rewrite ?lookup_insert_ne by done; auto.
Qed.

Section same_call.
Context (c c' : HookContext) (Hs : same_call c c').

Lemma same_lookup x :
  negb (str_in x [SIDE_EFFECT_ID; "transformed_by"]) = true → metadata c' !! x = metadata c !! x.
Proof using Hs.
  intros Hx. destruct Hs as (_ & _ & Hm). simpl in Hx. to_props. by apply Hm.
Qed.

Lemma same_approved_per_call : approved_per_call (metadata c') = approved_per_call (metadata c).
Proof using Hs. unfold approved_per_call, is_true. by rewrite !same_lookup. Qed.

Lemma same_high_risk : high_risk c' = high_risk c.
Proof using Hs. unfold high_risk. by rewrite !same_lookup. Qed.

Lemma same_call_key : call_key c' = call_key c.
Proof using Hs.
  unfold call_key, step_of, call_id_of, get_truthy. rewrite !same_lookup by done.
  destruct Hs as (-> & -> & _). done.
Qed.

Lemma same_approved_by : metadata c' !! "approved_by" = metadata c !! "approved_by".
Proof using Hs. by rewrite same_lookup. Qed.

Lemma same_caller : metadata_str c' "caller" = metadata_str c "caller".
Proof using Hs. unfold metadata_str. by rewrite same_lookup. Qed.

Lemma same_permitted h tool :
  tool_permitted h (metadata c) tool → tool_permitted h (metadata c') tool.
Proof using Hs.
  unfold tool_permitted, confirm_once, queued_instead, eq_str, is_true. by rewrite !same_lookup.
Qed.
End same_call.

(** A hook that rewrites no call, and one that at least keeps the tool's name. *)
Definition rewrites_nothing {W} (h : Hook W) : Prop :=
  ∀ c w d w', hook_call h c w = (Ok d, w') → outcome d ≠ transform.

Definition keeps_tool_name {W} (h : Hook W) : Prop :=
  ∀ c w d w' p, hook_call h c w = (Ok d, w') → transformed_payload d = Some p →
    p !! TOOL_NAME = payload c !! TOOL_NAME.

(** A hook that may come after the approval: it rewrites nothing, or it is the broker that
    fills the vault's handles. *)
Definition fills_at_most {W} (vault : option (string → M W (option string))) (h : Hook W) : Prop :=
  rewrites_nothing h ∨ ∃ ident, h = broker_hook vault ident.

(** The call as it was, and with the handles in its arguments filled. *)
Definition fills_call {W} (vault : option (string → M W (option string))) (c c' : HookContext) : Prop :=
  payload c' !! TOOL_NAME = payload c !! TOOL_NAME ∧
  (payload c' !! ARGS = payload c !! ARGS ∨
   ∃ a a', payload c !! ARGS = Some (VDict a) ∧ payload c' !! ARGS = Some (VDict a') ∧ rtc (filled vault) a a').

#[export] Instance fills_call_preorder {W} (vault : option (string → M W (option string))) : PreOrder (fills_call vault).
Proof.
  split; [intros c; split; [done|by left]|]. intros c1 c2 c3 [N1 A1] [N2 A2]. split; [congruence|].
  destruct A1 as [A1|(a & a' & Ha & Ha' & R1)], A2 as [A2|(b & b' & Hb & Hb' & R2)]; [left; congruence|right..].
  - exists b, b'. split_and!; [congruence|done|done].
  - exists a, a'. split_and!; [done|congruence|done].
  - assert (a' = b) as -> by congruence. exists a, b'. split_and!; [done|done|by etrans].
Qed.

Section pass.
Context {W : Type} (k : GovernanceKernel W) (env : KernelEnv W).

Lemma pass_same point hs c w tr c' w' : pass k env point hs c w tr c' w' → same_call c c'.
Proof using Type.
  intros Hp. induction Hp as [|h hs c w d w1 kept w2 c1 tr c' w' Hc Ha Hu Ho Hp IH]; [reflexivity|].
  etrans; [by eapply apply_updates_same|done].
Qed.

Lemma apply_updates_payload name d c c' :
  apply_updates name d c = Ok c' →
  payload c' = payload c ∨ (outcome d = transform ∧ transformed_payload d = Some (payload c')).
Proof using Type.
  unfold apply_updates. destruct (outcome d), (transformed_payload d) eqn:Ht;
    try (intros [= <-]; by left).
  destruct (append_transformed_by _ _); [|done]. intros [= <-]. by right.
Qed.

Lemma pass_payload point hs c w tr c' w' :
  (∀ h, h ∈ hs → rewrites_nothing h) → pass k env point hs c w tr c' w' →
  payload c' = payload c.
Proof using Type.
  intros Hr Hp. induction Hp as [|h hs c w d w1 kept w2 c1 tr c' w' Hc Ha Hu Ho Hp IH]; [done|].
  rewrite IH by (intros g Hg; apply Hr; by right).
  apply apply_updates_payload in Hu as [->|[Ht _]]; [done|].
  by destruct (Hr h ltac:(left) _ _ _ _ Hc).
Qed.

Lemma pass_fills vault point hs c w tr c' w' :
  (∀ h, h ∈ hs → fills_at_most vault h) → pass k env point hs c w tr c' w' → fills_call vault c c'.
Proof using Type.
  intros Hr Hp. induction Hp as [|h hs c w d w1 kept w2 c1 tr c' w' Hc Ha Hu Ho Hp IH]; [reflexivity|].
  etrans; [|apply IH; intros g Hg; apply Hr; by right]. apply apply_updates_payload in Hu as [Hu|[Ht Hpay]].
  - split; [by rewrite Hu|left; by rewrite Hu].
  - destruct (Hr h ltac:(left)) as [Hn|[ident ->]]; [by destruct (Hn _ _ _ _ Hc)|].
    destruct (broker_fills vault c w d w1 _ Hc Ht Hpay) as (Hn & a & a' & Hargs & Ha' & Hf). split; [done|right]. exists a, a'.
    split_and!; [|done|by apply rtc_once]. unfold args_of in Hargs. destruct (payload c !! ARGS) as [[]|]; naive_solver.
Qed.

Lemma pass_tool_name point hs c w tr c' w' :
  (∀ h, h ∈ hs → keeps_tool_name h) → pass k env point hs c w tr c' w' →
  payload c' !! TOOL_NAME = payload c !! TOOL_NAME.
Proof using Type.
  intros Hr Hp. induction Hp as [|h hs c w d w1 kept w2 c1 tr c' w' Hc Ha Hu Ho Hp IH]; [done|].
  rewrite IH by (intros g Hg; apply Hr; by right).
  apply apply_updates_payload in Hu as [->|[_ Ht]]; [done|].
  by apply (Hr h ltac:(left) _ _ _ _ _ Hc).
Qed.

End pass.

(** ** The governed call *)

(** What the approvals table says of a call that was let out on an approval: the row pins the
    call as it was written, with the handles that were filled since. *)
Definition call_approved {W} (vault : option (string → M W (option string))) (c : HookContext) (t : Table) : Prop :=
  get_truthy (metadata c) "approved_by" = true ∧
  ∃ r written, get (str_or_empty (metadata c !! "approved_by")) t = Some r ∧ status r = approved ∧
    fills_call vault written c ∧ pinned_item written ∈ default [] (items r) ∧
    ∀ who, caller r = Some who → metadata_str c "caller" = Some who ∧ executed_at r ≠ None.

(** The record the side-effect ledger holds of it. *)
Definition call_recorded (c : HookContext) (l : SideEffectLedger) : Prop :=
  ∃ row, row ∈ se_rows l ∧ side_effect_id row = call_key c ∧ se_tool row = tool_name_of (payload c).

Lemma high_risk_per_call c : high_risk c = true → approved_per_call (metadata c) = true.
Proof. unfold high_risk, approved_per_call. by intros ->. Qed.

Section governed.
Context {W : Type} `{!Part W Table, !Part W SideEffectLedger}.
Context `{!PartLaws W Table, !PartLaws W SideEffectLedger}.
Context (k : GovernanceKernel W) (env : KernelEnv W) `{!BookKernel k, !BookEnv env}.
Context (sf : Surfaces W) `{!SurfacesOk sf} (vault : option (string → M W (option string))).

Lemma pass_approval ident h hs c w tr c' w' :
  (∀ g, g ∈ destructive_hook sf ident h :: hs → BookHook g) →
  (∀ g, g ∈ hs → fills_at_most vault g) →
  books_ok w → pass k env PRE_TOOL_USE (destructive_hook sf ident h :: hs) c w tr c' w' →
  approved_per_call (metadata c') = true → call_approved vault c' (the_table w').
Proof using All.
  intros Hb Hr Hw Hp Hpc. pose proof (pass_same k env _ _ _ _ _ _ _ Hp) as Hs.
  apply pass_one in Hp as (d & w1 & kept & w2 & c1 & tr' & Hc & Ha & Hu & Ho & Hp).
  simpl in Hc. rewrite (same_approved_per_call _ _ Hs) in Hpc.
  assert (outcome d = allow ∧ get_truthy (metadata c) "approved_by" = true ∧
    authorised (pinned_item c) (metadata_str c "caller")
      (str_or_empty (metadata c !! "approved_by")) w w1) as (Hal & Hby & r & Hg & Hst & Hit & Hcl).
  { destruct (destructive_call_pinned sf h c w d w1 (proj1 Hw) Hpc Hc) as [Hnt Hal].
    destruct Ho as [Ho|Ho]; [by split; [|apply Hal]|done]. }
  assert (books_ok w1 ∧ books_grow w w1) as [Hw1 _].
  { pose proof (respects_call _ (RespectsHook := Hb _ ltac:(left)) c w Hw) as H1.
    simpl in H1. by rewrite Hc in H1. }
  assert (books_ok w2 ∧ books_grow w1 w2) as H2.
  { pose proof (respects_audit book_step k env PRE_TOOL_USE (hook_name (destructive_hook sf ident h)) d c w1 Hw1)
      as H2. by rewrite Ha in H2. }
  assert (books_ok w' ∧ books_grow w1 w') as [[Ht' _] [Htg _]].
  { eapply kb_seq; [exact H2|]. eapply (respects_pass book_step); [..|exact Hp]; [done..|].
    intros g Hg'. apply Hb. by right. }
  assert (fills_call vault c c') as Hpay.
  { pose proof (pass_fills k env vault _ _ _ _ _ _ _ Hr Hp) as Hf.
    apply apply_updates_payload in Hu as [Hu|[Ht _]]; [|congruence]. unfold fills_call in *. by rewrite <- Hu. }
  unfold call_approved. rewrite (same_approved_by _ _ Hs), (same_caller _ _ Hs).
  split; [unfold get_truthy in *; by rewrite (same_approved_by _ _ Hs)|].
  assert (∃ r1, get (str_or_empty (metadata c !! "approved_by")) (the_table w1) = Some r1 ∧
    evolves r r1 ∧ (∀ who, caller r = Some who → metadata_str c "caller" = Some who ∧
                    executed_at r1 ≠ None)) as (r1 & Hg1 & He1 & Hx1).
  { destruct (caller r) as [who|] eqn:Hcr.
    - destruct Hcl as (Hwho & _ & r' & Hg' & He & Hx). exists r'. split_and!; [done..|].
      by intros ? [= <-].
    - exists r. subst w1. split_and!; [done|reflexivity|done]. }
  destruct (get_evolves _ _ _ _ Hg1 Ht' Htg) as (r2 & Hg2 & He2 & _). exists r2, c.
  pose proof (transitivity He1 He2) as (Hpn & Hsn & _). injection Hpn as Hid.
  destruct (Hsn ltac:(by rewrite Hst)) as (Hs2 & _). split_and!; [done|congruence|done|congruence|].
  intros who Hwho. destruct (Hx1 who ltac:(congruence)) as [Hm Hx]. split; [done|].
  destruct He2 as (_ & _ & Hex). by rewrite Hex.
Qed.
Lemma pass_record calls_of stamp_of ident hs c w tr c' w' :
  (∀ g, g ∈ pre_ledger_hook calls_of stamp_of ident true :: hs → BookHook g) →
  (∀ g, g ∈ hs → fills_at_most vault g) →
  books_ok w →
  pass k env PRE_TOOL_USE (pre_ledger_hook calls_of stamp_of ident true :: hs) c w tr c' w' →
  tool_name_of (payload c') ≠ "" → high_risk c' = true →
  get_truthy (metadata c') "approved_by" = true → call_recorded c' (the_ledger w').
Proof using All.
  intros Hb Hr Hw Hp Htool Hrisk Hby. pose proof (pass_same k env _ _ _ _ _ _ _ Hp) as Hs.
  apply pass_one in Hp as (d & w1 & kept & w2 & c1 & tr' & Hc & Ha & Hu & Ho & Hp).
  simpl in Hc.
  assert (tool_name_of (payload c') = tool_name_of (payload c1)) as Hpay1.
  { destruct (pass_fills k env vault _ _ _ _ _ _ _ Hr Hp) as [Hn _]. unfold tool_name_of, get_str. by rewrite Hn. }
  assert (needs_pre_row c → outcome d = allow ∧ ∃ row, se_rows (the_ledger w1)
    = se_rows (the_ledger w) ++ [row] ∧ side_effect_id row = call_key c ∧
      se_tool row = tool_name_of (payload c)) as Hrow.
  { intros Hn. destruct (pre_ledger_cases calls_of stamp_of true c w Hn)
      as (d' & w1' & Hc' & [(Hal & _ & _ & _ & _ & row & Hrs & Hk & Ht & _)|(Hdn & _)]);
      rewrite Hc in Hc'; injection Hc' as <- <-; [|destruct Ho; congruence]. eauto 6. }
  assert (payload c1 = payload c) as Hpay.
  { apply apply_updates_payload in Hu as [Hu|[Ht _]]; [done|].
    unfold pre_ledger_call in Hc. repeat case_match; simplify_eq; done. }
  assert (needs_pre_row c) as Hn.
  { rewrite Hpay1, Hpay in Htool. rewrite (same_high_risk _ _ Hs) in Hrisk.
    split_and!; [done..|]. left. unfold get_truthy in *. by rewrite (same_approved_by _ _ Hs) in Hby. }
  destruct (Hrow Hn) as (_ & row & Hrs & Hk & Ht).
  assert (books_ok w1) as Hw1.
  { pose proof (respects_call _ (RespectsHook := Hb _ ltac:(left)) c w Hw) as H1. simpl in H1.
    rewrite Hc in H1. apply H1. }
  assert (books_ok w2 ∧ books_grow w1 w2) as H2.
  { pose proof (respects_audit book_step k env PRE_TOOL_USE "pre_tool_use_ledger" d c w1 Hw1) as H2.
    simpl in Ha. by rewrite Ha in H2. }
  assert (books_ok w' ∧ books_grow w1 w') as [_ [_ [_ Hgr]]].
  { eapply kb_seq; [exact H2|]. eapply (respects_pass book_step); [..|exact Hp]; [done..|].
    intros g Hg. apply Hb. by right. }
  destruct (Hgr row) as (row' & Hin & Hid); [rewrite Hrs; apply elem_of_app; right; by left|].
  exists row'. injection Hid as Hkey _ _ Htl _. rewrite (same_call_key _ _ Hs), Hpay1, Hpay.
  split_and!; congruence.
Qed.
End governed.

(** The hooks of this library that rewrite no call. *)
Lemma destructive_rewrites_nothing {W} `{!Part W Table} (sf : Surfaces W) ident h :
  rewrites_nothing (destructive_hook sf ident h).
Proof.
  intros c w d w'. simpl. unfold destructive_call.
  destruct (negb _); [by intros [= <- _]|]. destruct (negb _); [by intros [= <- _]|].
  destruct (get_truthy _ _).
  - intros Hv Ht. apply verify_outcome in Hv. destruct Hv; congruence.
  - destruct (_ && _); [by intros [= <- _]|]. intros Hr Ht. apply request_outcome in Hr. congruence.
Qed.

Lemma pre_ledger_rewrites_nothing {W} `{!Part W SideEffectLedger} calls_of stamp_of ident has :
  rewrites_nothing (pre_ledger_hook calls_of stamp_of ident has : Hook W).
Proof. intros c w d w'. simpl. unfold pre_ledger_call. repeat case_match; by intros [= <- _]. Qed.

Lemma tool_policy_rewrites_nothing {W} ident policy :
  rewrites_nothing (tool_policy_hook ident policy : Hook W).
Proof. intros c w d w'. simpl. intros [= <- _]. unfold tool_policy_call. by repeat case_match. Qed.

Section split.
Context {W : Type} `{!Part W Table, !Part W SideEffectLedger}.
Context (k : GovernanceKernel W) (env : KernelEnv W) `{!BookKernel k, !BookEnv env}.

Lemma pass_split point hs1 hs2 c w tr c' w' :
  (∀ g, g ∈ hs1 ++ hs2 → BookHook g) → books_ok w →
  pass k env point (hs1 ++ hs2) c w tr c' w' →
  ∃ tr1 tr2 c1 w1, pass k env point hs1 c w tr1 c1 w1 ∧ pass k env point hs2 c1 w1 tr2 c' w' ∧
    books_ok w1.
Proof using All.
  intros Hb Hw Hp. apply pass_app in Hp as (tr1 & tr2 & c1 & w1 & H1 & H2).
  exists tr1, tr2, c1, w1. split_and!; [done..|].
  eapply (respects_pass book_step); [..|exact H1|exact Hw]; [done..|]. intros g Hg. apply Hb, elem_of_app. by left.
Qed.
End split.

Lemma nonempty_tool_name c tool :
  get_nonempty (payload c) TOOL_NAME = Some tool → tool_name_of (payload c) ≠ "".
Proof.
  intros [Hl Ht]%get_nonempty_Some. unfold tool_name_of, get_str. rewrite Hl. simpl.
  by destruct tool.
Qed.

(** Nothing ungoverned gets out: whatever the other hooks at [PreToolUse] are and do --
    as long as none of them loses what the approvals table or the side-effect ledger holds,
    none changes the tool's name once the tool policy has looked at it, and none but the
    credential broker rewrites the call once the approval hook has -- a call that [fire] lets out is one the operator's tool
    policy permits; if it waits for approval it names an approved row that pins exactly this
    tool with exactly these arguments, as they were before the broker filled in the vault's handles, claimed in this caller's name when code asked for it;
    and if it is irreversible the side-effect ledger holds the record written under its own
    key before it runs. *)
Theorem governed_tool_call {W} `{!Part W Table, !Part W SideEffectLedger}
    `{!PartLaws W Table, !PartLaws W SideEffectLedger}
    (k : GovernanceKernel W) env `{!BookKernel k, !BookEnv env}
    (sf : Surfaces W) `{!SurfacesOk sf} vault policy h calls_of stamp_of i1 i2 i3 hs0 hs1 hs2 hs3
    ctx w d c w' :
  k_hooks k PRE_TOOL_USE
    = hs0 ++ tool_policy_hook i1 policy :: hs1 ++ destructive_hook sf i2 h :: hs2
          ++ pre_ledger_hook calls_of stamp_of i3 true :: hs3 →
  (∀ g, g ∈ hs1 → keeps_tool_name g) →
  (∀ g, g ∈ hs2 ++ hs3 → fills_at_most vault g) →
  books_ok w →
  fire k env PRE_TOOL_USE ctx w = (Ok (d, c), w') →
  outcome d = allow ∨ outcome d = transform →
  (∃ tool, get_nonempty (payload c) TOOL_NAME = Some tool ∧ tool_permitted policy (metadata c) tool) ∧
  (approved_per_call (metadata c) = true → call_approved vault c (the_table w')) ∧
  (high_risk c = true → call_recorded c (the_ledger w')).
Proof.
  intros Hk Hname Hrw Hw Hf Ho.
  apply (fire_passed k env) in Hf as (tr & w1 & Hp & [-> |[Hpt _]]); [|done|done].
  assert (∀ g, g ∈ k_hooks k PRE_TOOL_USE → BookHook g) as Hb by (intros g; by apply respects_hooks).
  rewrite Hk in Hp, Hb.
  apply pass_split in Hp as (_ & tr1 & c0 & w0 & _ & Hp & Hw0); [|done..].
  assert (∀ g, g ∈ tool_policy_hook i1 policy :: hs1 ++ destructive_hook sf i2 h :: hs2
     ++ pre_ledger_hook calls_of stamp_of i3 true :: hs3 → BookHook g) as Hb0
    by (intros g Hg; apply Hb, elem_of_app; by right).
  apply (pass_split k env _ (_ :: hs1)) in Hp as (trA & tr2 & c1 & w2 & HpA & Hp & Hw2); [|done..].
  assert (∀ g, g ∈ destructive_hook sf i2 h :: hs2 ++ pre_ledger_hook calls_of stamp_of i3 true :: hs3
    → BookHook g) as Hb2 by (intros g Hg; apply Hb0; right; apply elem_of_app; by right).
  assert (∀ g, g ∈ hs2 ++ pre_ledger_hook calls_of stamp_of i3 true :: hs3 → fills_at_most vault g) as Hrw2.
  { intros g [Hg|[->|Hg]%elem_of_cons]%elem_of_app; [|left; apply pre_ledger_rewrites_nothing|];
      apply Hrw, elem_of_app; auto. }
  assert (payload c !! TOOL_NAME = payload c1 !! TOOL_NAME) as Hpay.
  { eapply (pass_fills k env vault); [|exact Hp]. intros g [->|Hg]%elem_of_cons;
      [left; apply destructive_rewrites_nothing|by apply Hrw2]. }
  assert (∃ tool, get_nonempty (payload c) TOOL_NAME = Some tool ∧
            tool_permitted policy (metadata c) tool) as Htool.
  { pose proof (pass_same k env _ _ _ _ _ _ _ HpA) as HsA.
    pose proof (pass_same k env _ _ _ _ _ _ _ Hp) as HsB.
    apply pass_one in HpA as (d1 & w3 & kept & w4 & c2 & tr3 & Hc & _ & Hu & Hd1 & HpA).
    simpl in Hc. injection Hc as Hd <-.
    assert (outcome d1 ≠ transform) as Hnt.
    { apply (tool_policy_rewrites_nothing i1 policy c0 w0 d1 w0). simpl. by rewrite Hd. }
    destruct Hd1 as [Hd1|]; [|done]. rewrite <- Hd in Hd1.
    apply tool_policy_allow_iff in Hd1 as (tool & Ht & Hperm). exists tool. split.
    - unfold get_nonempty in *. rewrite Hpay, (pass_tool_name k env _ _ _ _ _ _ _ Hname HpA).
      apply apply_updates_payload in Hu as [->|[? _]]; done.
    - apply (same_permitted c0 c); [by etrans|done]. }
  assert (approved_per_call (metadata c) = true → call_approved vault c (the_table w1)) as Happ.
  { exact (pass_approval k env sf vault i2 h _ c1 w2 tr2 c w1 Hb2 Hrw2 Hw2 Hp). }
  split_and!; [exact Htool|exact Happ|]. intros Hrisk.
  destruct Htool as (tool & Htn & _). destruct (Happ (high_risk_per_call c Hrisk)) as [Hby _].
  apply (pass_split k env _ (_ :: hs2)) in Hp as (_ & tr4 & c3 & w5 & _ & Hp & Hw5); [|done..].
  refine (pass_record k env sf vault calls_of stamp_of i3 hs3 c3 w5 tr4 c w1 _ _ Hw5 Hp
            (nonempty_tool_name c tool Htn) Hrisk Hby).
  - intros g Hg. apply Hb2. right. apply elem_of_app. by right.
  - intros g Hg. apply Hrw, elem_of_app. by right.
Qed.

(** ** An approved call, let out once *)

Record CallDesk := { cd_table : Table; cd_ledger : SideEffectLedger; cd_log : list AuditRow }.

#[export] Instance cd_table_part : Part CallDesk Table :=
  {| part := cd_table;
     set_part := λ t w, {| cd_table := t; cd_ledger := cd_ledger w; cd_log := cd_log w |} |}.
#[export] Instance cd_ledger_part : Part CallDesk SideEffectLedger :=
  {| part := cd_ledger;
     set_part := λ l w, {| cd_table := cd_table w; cd_ledger := l; cd_log := cd_log w |} |}.
#[export] Instance cd_table_laws : PartLaws CallDesk Table.
Proof. split; [done|by intros []]. Qed.
#[export] Instance cd_ledger_laws : PartLaws CallDesk SideEffectLedger.
Proof. split; [done|by intros []]. Qed.
#[export] Instance cd_apart : Apart CallDesk Table SideEffectLedger.
Proof. done. Qed.
#[export] Instance cd_apart' : Apart CallDesk SideEffectLedger Table.
Proof. done. Qed.

Definition cd_record (r : AuditRow) : M CallDesk Z := λ w,
  (Ok 1%Z, {| cd_table := cd_table w; cd_ledger := cd_ledger w; cd_log := cd_log w ++ [r] |}).

Definition cd_env : KernelEnv CallDesk :=
  {| env_audit_log := Some cd_record; env_lineage_of := λ _ _, None;
     env_is_run_resumed := λ _ _, false; env_session_id := λ _, None; env_turn_id := λ _, None;
     env_trace_id := λ _, None; env_note_unrecorded := λ _ _ w, w |}.

#[export] Instance cd_env_books : BookEnv cd_env.
Proof. split; [intros f r [= <-]; by apply kb_same|done]. Qed.

Definition cd_surfaces : Surfaces CallDesk :=
  {| sf_record := Some cd_record; sf_settle_run := λ _ _, mret 0%Z; sf_resume := None;
     sf_execute := None; sf_settle_unrun := λ _ s, mret {| res_status := s; res_summary := "" |};
     sf_notify_timeout := None; sf_deliver := None |}.

Lemma cd_record_keeps r : keeps (cd_record r).
Proof. intros w Hw. by split. Qed.

#[export] Instance cd_surfaces_ok : SurfacesOk cd_surfaces.
Proof.
  split; try done. intros f r [= <-]. apply cd_record_keeps.
Qed.

#[export] Instance cd_book_surfaces : BookSurfaces cd_surfaces.
Proof. intros f r [= <-]. by apply kb_same. Qed.

Definition open_policy : ToolPolicyHook :=
  {| allowed_tools := None; blocked_tools := {["format_disk"]}; confirm_once_tools := ∅ |}.

Definition cd_hook : DestructiveApprovalHook CallDesk :=
  {| has_queue := true; notify_router := None; timeout_minutes := 60; clock := λ _, 5000%Z;
     fresh_uuid := λ _, "u"; current_turn_id := λ _, None |}.

Definition cd_hooks : list (Hook CallDesk) :=
  [tool_policy_hook 1 open_policy; destructive_hook cd_surfaces 2 cd_hook;
   pre_ledger_hook (λ _, no_calls) (λ _, some_stamp) 3 true].

Definition cd_kernel : GovernanceKernel CallDesk :=
  {| k_hooks := λ p, if decide (p = PRE_TOOL_USE) then cd_hooks else [];
     k_init_locked := true; k_bot_hook := None |}.

#[export] Instance cd_kernel_books : BookKernel cd_kernel.
Proof.
  split; [|done]. intros p h. simpl. destruct (decide _); [|by intros ?%elem_of_nil].
  unfold cd_hooks. rewrite !elem_of_cons, elem_of_nil. intros [-> |[-> |[-> |[]]]]; [apply _| |apply _].
  by apply (destructive_books cd_surfaces).
Qed.

Definition approved_books : CallDesk :=
  {| cd_table := part approved_desk; cd_ledger := fresh_ledger; cd_log := [] |}.

Lemma approved_books_ok : books_ok approved_books.
Proof. split; [apply approved_desk_ok|apply fresh_ledger_ok]. Qed.

Lemma approved_call_fires :
  match run_res (fire cd_kernel cd_env PRE_TOOL_USE run_approved) approved_books with
  | Ok (d, c) => bool_decide (outcome d = allow) && high_risk c
  | Raise _ => false
  end = true.
Proof. vm_compute. reflexivity. Qed.

Lemma governed_tool_call_witness :
  ∃ d c w', fire cd_kernel cd_env PRE_TOOL_USE run_approved approved_books = (Ok (d, c), w') ∧
    outcome d = allow ∧ call_recorded c (the_ledger w').
Proof.
  pose proof approved_call_fires as Hx.
  destruct (fire cd_kernel cd_env PRE_TOOL_USE run_approved approved_books) as [[[d c]|e] w'] eqn:Hf;
    [|discriminate Hx].
  apply andb_true_iff in Hx as [Ho Hr]. apply bool_decide_eq_true in Ho.
  exists d, c, w'. split; [reflexivity|]. split; [exact Ho|].
  refine (proj2 (proj2 (governed_tool_call cd_kernel cd_env cd_surfaces None open_policy cd_hook
    (λ _, no_calls) (λ _, some_stamp) 1 2 3 [] [] [] [] run_approved approved_books d c w'
    eq_refl _ _ approved_books_ok Hf (or_introl Ho))) Hr).
  - intros g Hg. by apply elem_of_nil in Hg.
  - intros g Hg. by apply elem_of_nil in Hg.
Defined.
