(* ===== verification/ToolRunner.v ===== *)
(** * The governed tool runner ([agent/tool_runner.py])

    One tool call from its arguments to what its caller is told: the card, the firing at
    [PreToolUse], the tool's own code inside its scopes, and the firing at [PostToolUse] whose
    verdict the outcome carries. *)

From S2P Require Import Prelude PyVal PyText Hooks CallContext Kernel Egress Approvals ApprovalService.
From S2P Require Import ApprovalHook Bots SideEffects ToolGates CredentialBroker ToolCall Transport PluginEgress GovernedHttp TurnLabel.
From stdpp Require Import options.

(** ** What a call is made of *)

Definition TOOL_SENDS_TO : string := "tool_sends_to".
Definition TOOL_REPORTED_ERROR : string := "ToolReportedError".
Definition NOT_RUN : string := "NotRun".
Definition NO_PRE_RECORD : string :=
  "no durable pre-execution record was made for this irreversible call "
  +:+ "(the side-effect ledger's pre-execution hook did not confirm one); nothing was run".
Definition TAINT_REASON : string :=
  "Evarness read text from outside (a page, an email, a document) earlier in this turn and "
  +:+ "now wants to make this change. Approve it only if you asked for it.".

Abbreviation pydict := (list (string * pyval)).

(** What the runner reads of a [ToolSpec]; [describe] and [validate] are a plugin's code. *)
Record ToolSpec := {
  ts_name : string; ts_effect : string; ts_confirm : string;
  ts_describe : option (pydict → res (pyval * list pyval));
  ts_undo : option string; ts_undo_window_days : option Z;
  ts_validate : option (pydict → res pyval);
  ts_content : string; ts_verify : option string; ts_sends_to : option string; ts_plugin : string }.

(** [ToolCall]: who is calling. *)
Record Caller := {
  tc_run_id : option string; tc_classification : option DataClassification; tc_step_id : option Z;
  tc_asked_user : bool; tc_approved_by : option string; tc_query : option string; tc_caller : option string;
  tc_deferred : bool; tc_held_call_id : option string; tc_tainted : bool }.

Record PostOutcome := {
  po_classification : option DataClassification; po_text : string; po_decision : option HookDecision;
  po_withheld : bool }.

Inductive ToolStatus := ran | held | refused_ .
#[export] Instance ToolStatus_eq_dec : EqDecision ToolStatus.
Proof. solve_decision. Defined.

Record ToolOutcome := {
  to_status : ToolStatus; to_text : string; to_ok : bool; to_decision : option HookDecision;
  to_approval_card : option pydict; to_classification : option DataClassification; to_post : option PostOutcome;
  to_call_id : option string }.

(** How a tool's code ends: a value, with its [str] and whether it is a [FailedResult];
    [ToolUnavailable], with its message and the class of its cause; another exception. *)
Inductive ToolEnd :=
| ToolReturned (text : string) (failed : bool)
| ToolUnavailable (message cause : string)
| ToolRaised (e : exn).

(** The audit digester: the keyed fingerprint of a value's canonical JSON. *)
Record AuditDigester := { digest : pyval → res string; digest_alg : string }.

Definition args_fields (dg : AuditDigester) (args : pyval) : res dict :=
  let! d := digest dg args in Ok (<["args_digest" := VStr d]> (<["digest_alg" := VStr (digest_alg dg)]> ∅)).
Definition result_fields (dg : AuditDigester) (result : pyval) : res dict :=
  let! d := digest dg result in Ok (<["result_digest" := VStr d]> (<["digest_alg" := VStr (digest_alg dg)]> ∅)).

(** [pre_tool_payload] and [post_tool_payload], for extra keys that are not the contract's. *)
Definition pre_tool_payload (tool_name : string) (args : pydict) (extra : dict) : dict :=
  extra ∪ <[TOOL_NAME := VStr tool_name]> (<[ARGS := VDict args]> ∅).
Definition post_tool_payload (tool_name : string) (result : pyval) (extra : dict) : dict :=
  extra ∪ <[TOOL_NAME := VStr tool_name]> (<[RESULT := result]> ∅).

(** ** The runner *)

Record GovernedToolRunner := {
  gr_agent_type : string; gr_origin_channel : option string; gr_session_id : option string; gr_resumable : bool }.

(** [approved_per_call(tool)] *)
Definition declared_per_call (tool : ToolSpec) : bool :=
  pinned_by_declaration (Some (VStr (ts_effect tool))) (Some (VStr (ts_confirm tool))).

Definition refused (tool : ToolSpec) : string :=
  if String.eqb (ts_effect tool) "destructive" then
    "Refused: " +:+ py_repr (ts_name tool) +:+ " deletes or overwrites the user's data, and each such call needs "
    +:+ "the owner's itemised approval, which this harness cannot take here (no approval "
    +:+ "queue). Nothing was changed. Tell the user plainly that you did not do it."
  else
    "Refused: each " +:+ py_repr (ts_name tool) +:+ " call needs the owner's approval, which this harness cannot "
    +:+ "take here (no approval queue). It was not run: nothing was sent or changed. Tell the "
    +:+ "user plainly that you did not do it.".

Definition governance_block_message (d : HookDecision) : string :=
  "Request " +:+ (if bool_decide (outcome d = deny) then "blocked" else "needs approval")
  +:+ " by governance: " +:+ reason d.

Definition _recorded_row (d : HookDecision) (final_ctx : HookContext) : option string :=
  match side_effect_id_of (audit_metadata d) with
  | Some key => Some key
  | None => side_effect_id_of (metadata final_ctx)
  end.

Definition _no_pre_record : HookDecision :=
  with_decided_by "tool_runner" (mk_decision deny NO_PRE_RECORD error ∅).

Definition invalid_destructive_args (tool : ToolSpec) (args : pydict) : option string :=
  match ts_validate tool with
  | None => None
  | Some validate =>
      match validate args with
      | Raise _ => Some (ts_name tool +:+ " could not check these arguments.")
      | Ok problem => if truthy problem then nonempty (Some (str_strip (str_val problem))) else None
      end
  end.

Definition approval_card_for (tool : ToolSpec) (args : pydict) (query : option string) (tainted : bool) : pydict :=
  let '(title, lines) :=
    match ts_describe tool ≫= λ f, match f args with Ok x => Some x | Raise _ => None end with
    | Some (t, ls) => (nonempty (Some (str_strip (str_val t))), map str_val ls)
    | None => (None, [])
    end in
  [("title", opt_val title); ("lines", VList (map VStr lines)); ("undo_tool", opt_val (ts_undo tool));
   ("undo_window_days", from_option VInt VNone (ts_undo_window_days tool)); ("asked", opt_val query);
   ("effect", VStr (ts_effect tool)); ("reason", if tainted then VStr TAINT_REASON else VNone)].

(** The fresh values of one call. *)
Record RunnerFresh := { rf_run_id : string; rf_call_id : string; rf_pre_run : string; rf_post_run : string }.

Definition caller_of (r : GovernedToolRunner) (call : Caller) : string :=
  default ("model:" +:+ gr_agent_type r) (nonempty (tc_caller call)).

(** The context [pre] fires. *)
Definition pre_context (r : GovernedToolRunner) (tool : ToolSpec) (args : pydict) (call : Caller) (digests : dict)
    (approval_card : option pydict) (per_call : bool) (call_id uuid_run : string) : HookContext :=
  {| ctx_hook_point := PRE_TOOL_USE; run_id := default uuid_run (nonempty (tc_run_id call));
     agent_type := gr_agent_type r; step_id := tc_step_id call; persona := None;
     route := Some ("tool/" +:+ ts_name tool);
     payload := pre_tool_payload (ts_name tool) args (<["tool_plugin" := VStr (ts_plugin tool)]> digests);
     classification := tc_classification call; tier := None;
     metadata := list_to_map
       [("caller", VStr (caller_of r call)); ("asked_user", VBool (tc_asked_user call));
        (TOOL_EFFECT, VStr (ts_effect tool)); ("tool_confirm", VStr (ts_confirm tool));
        (CALL_ID, VStr call_id); (TOOL_CALL_ID, VStr call_id); (HELD_CALL_ID, opt_val (tc_held_call_id call));
        (TOOL_VERIFY, opt_val (ts_verify tool)); (TOOL_SENDS_TO, opt_val (ts_sends_to tool));
        ("origin_channel", opt_val (gr_origin_channel r)); ("session_id", opt_val (gr_session_id r));
        ("approved_by", opt_val (tc_approved_by call));
        ("approval_card", from_option VDict VNone approval_card); ("resumable", VBool (gr_resumable r));
        ("deferred_executor", VBool (tc_deferred call)); ("per_call_approval", VBool per_call)] |}.

(** The context [post] fires. *)
Definition post_context (r : GovernedToolRunner) (tool : ToolSpec) (observation : string) (call : Caller) (digests : dict)
    (call_id uuid_run : string) (err : option string) : HookContext :=
  {| ctx_hook_point := POST_TOOL_USE; run_id := default uuid_run (nonempty (tc_run_id call));
     agent_type := gr_agent_type r; step_id := tc_step_id call; persona := None;
     route := Some ("tool/" +:+ ts_name tool);
     payload := post_tool_payload (ts_name tool) (VStr observation) (<["tool_plugin" := VStr (ts_plugin tool)]> digests);
     classification := tc_classification call; tier := None;
     metadata := tool_post_metadata (Some (ts_effect tool)) (ts_content tool) (ts_verify tool) (Some call_id) err
                   (tc_held_call_id call)
                 ∪ list_to_map [("caller", VStr (caller_of r call)); ("session_id", opt_val (gr_session_id r));
                                ("tool_confirm", VStr (ts_confirm tool))] |}.

(** What a verdict at [PostToolUse] hands on. *)
Definition transformers (c : HookContext) : string :=
  or_str (Some match metadata c !! "transformed_by" with Some (VList l) => join ", " (map str_val l) | _ => "" end) "unknown".

Definition handed_on (tool : ToolSpec) (own : option DataClassification) (d : HookDecision) (c : HookContext) : PostOutcome :=
  let label := more_restrictive own (classification c) in
  if refuses d then
    {| po_classification := label; po_text := governance_block_message d; po_decision := Some d; po_withheld := true |}
  else match result_of (payload c) with
       | VStr text => {| po_classification := label; po_text := text; po_decision := Some d; po_withheld := false |}
       | _ =>
           let refusal := mk_decision deny ("POST_TOOL_USE left a result for " +:+ py_repr (ts_name tool)
             +:+ " that is not text (transformed by: " +:+ transformers c +:+ "), so it is withheld") error ∅ in
           {| po_classification := label; po_text := governance_block_message refusal; po_decision := Some refusal;
              po_withheld := true |}
       end.

Section runner.
Context {W : Type} `{!Part W CallState, !Part W TurnState, !Part W TaintCache}.
Context (env : KernelEnv W) (audit_digester : W → res AuditDigester) (taint_file_now : W → taint_file).
(** [effects.append(tool.effect)] on the caller's list. *)
Context (note_effect : string → W → W).

(** [taint_applies] *)
Definition taint_applies (tool : ToolSpec) (call : Caller) : M W bool :=
  if tc_tainted call then
    f ← gets taint_file_now;
    names ← on_part (taint_gated_tools f : M TaintCache (gset string));
    mret (bool_decide (ts_name tool ∈ names))
  else mret false.

Definition approved_per_call_for (tool : ToolSpec) (call : Caller) : M W bool :=
  if declared_per_call tool || (tc_deferred call && String.eqb (ts_confirm tool) "once") then mret true
  else taint_applies tool call.

(** [post] *)
Definition post (kernel : option (GovernanceKernel W)) (r : GovernedToolRunner) (tool : ToolSpec) (observation : string)
    (call : Caller) (call_id uuid_run : string) (err : option string) : M W PostOutcome :=
  match kernel with
  | None => mret {| po_classification := tc_classification call; po_text := observation; po_decision := None; po_withheld := false |}
  | Some k =>
      dg ← gets audit_digester;
      dg ← lift_res dg;
      digests ← lift_res (result_fields dg (VStr observation));
      dc ← fire_post env k (tc_classification call) (post_context r tool observation call digests call_id uuid_run err);
      mret (handed_on tool (tc_classification call) dc.1 dc.2)
  end.

(** [_settle_unrun_tool] *)
Definition _settle_unrun_tool (kernel : option (GovernanceKernel W)) (r : GovernedToolRunner) (tool : ToolSpec)
    (call : Caller) (call_id uuid_run : string) (final_ctx : HookContext) : M W unit :=
  match side_effect_id_of (metadata final_ctx), kernel with
  | Some _, Some _ =>
      try_except (_ ← post kernel r tool "" call call_id uuid_run (Some NOT_RUN); mret ()) (λ _, mret ())
  | _, _ => mret ()
  end.

(** [pre] *)
Definition pre (kernel : option (GovernanceKernel W)) (r : GovernedToolRunner) (tool : ToolSpec) (args : pydict)
    (call : Caller) (approval_card : option pydict) (per_call : bool) (fresh : RunnerFresh)
    : M W (option HookDecision * pydict) :=
  match kernel with
  | None => mret (None, args)
  | Some k =>
      dg ← gets audit_digester;
      dg ← lift_res dg;
      digests ← lift_res (args_fields dg (VDict args));
      dc ← fire k env PRE_TOOL_USE (pre_context r tool args call digests approval_card per_call (rf_call_id fresh) (rf_pre_run fresh));
      let '(d, final_ctx) := dc in
      if declared_per_call tool && match nonempty (tc_approved_by call) with Some _ => true | None => false end
         && negb (refuses d) && match _recorded_row d final_ctx with Some _ => false | None => true end
      then mret (Some _no_pre_record, args)
      else
        (if refuses d then _settle_unrun_tool kernel r tool call (rf_call_id fresh) (rf_post_run fresh) final_ctx else mret ());;
        mret (Some d, default args (args_of (payload final_ctx)))
  end.

Definition mint_run (call : Caller) (fresh : RunnerFresh) : Caller :=
  match tc_run_id call with
  | Some _ => call
  | None =>
      {| tc_run_id := Some (rf_run_id fresh); tc_classification := tc_classification call; tc_step_id := tc_step_id call;
         tc_asked_user := tc_asked_user call; tc_approved_by := tc_approved_by call; tc_query := tc_query call;
         tc_caller := tc_caller call; tc_deferred := tc_deferred call; tc_held_call_id := tc_held_call_id call;
         tc_tainted := tc_tainted call |}
  end.

Definition outcome_of (st : ToolStatus) (text : string) (call : Caller) (id : option string) : ToolOutcome :=
  {| to_status := st; to_text := text; to_ok := false; to_decision := None; to_approval_card := None;
     to_classification := tc_classification call; to_post := None; to_call_id := id |}.

(** The scope the tool's requests are made inside. *)
Definition tool_scope (r : GovernedToolRunner) (tool : ToolSpec) (call : Caller) (call_id : string) : EgressScope :=
  {| sc_run_id := default "" (tc_run_id call); sc_agent_type := gr_agent_type r; sc_tool := ts_name tool;
     sc_tool_plugin := Some (ts_plugin tool); sc_caller := Some (caller_of r call); sc_step_id := tc_step_id call;
     sc_classification := tc_classification call; sc_tool_call_id := Some call_id |}.

(** What the runner makes of how the tool's code ended: the result, [ok] and the error's class. *)
Definition tool_result (e : ToolEnd) : string * bool * option string :=
  match e with
  | ToolReturned text false => (text, true, None)
  | ToolReturned text true => (text, false, Some TOOL_REPORTED_ERROR)
  | ToolUnavailable message cause => (message, false, Some cause)
  | ToolRaised e => ("Tool error: " +:+ exn_str e, false, Some (exn_class e))
  end.

(** The [with egress_scope(...), call_scope(...): tool.call(tool_args)] block. *)
Definition run_body (body : EgressScope → pydict → M W ToolEnd) (scope : EgressScope) (call_id : string)
    (args : pydict) : M W ToolEnd := λ w,
  let previous := current_call (part w : CallState) in
  let '(e, w') := body scope args (set_part (set_current (Some call_id) (part w)) w) in
  (e, set_part (set_current previous (part w')) w').

Definition present_ (x : option string) : bool := match nonempty x with Some _ => true | None => false end.

(** [if tool.effect != "read": effects.append(tool.effect)] *)
Definition noted (tool : ToolSpec) : M W unit :=
  if String.eqb (ts_effect tool) "read" then mret () else modify (note_effect (ts_effect tool)).

(** [execute], once the call is let through: the tool's code, and [post] over its result. *)
Definition run_tool (kernel : option (GovernanceKernel W)) (r : GovernedToolRunner) (tool : ToolSpec)
    (body : EgressScope → pydict → M W ToolEnd) (tool_args : pydict) (call : Caller) (fresh : RunnerFresh) : M W ToolOutcome :=
  noted tool;;
  e ← run_body body (tool_scope r tool call (rf_call_id fresh)) (rf_call_id fresh) tool_args;
  let '(result, ok, err) := tool_result e in
  p ← post kernel r tool result call (rf_call_id fresh) (rf_post_run fresh) err;
  mret {| to_status := ran; to_text := po_text p; to_ok := ok && negb (po_withheld p); to_decision := None;
          to_approval_card := None; to_classification := po_classification p; to_post := Some p;
          to_call_id := Some (rf_call_id fresh) |}.

(** The card of a call about to ask. *)
Definition asked_card (tool : ToolSpec) (args : pydict) (call : Caller) (asks : bool) : M W (option pydict) :=
  if asks then
    tainted ← taint_applies tool call;
    mret (Some (approval_card_for tool args (tc_query call) tainted))
  else mret None.

(** [execute], from the point where the arguments were checked. *)
Definition execute_checked (kernel : option (GovernanceKernel W)) (r : GovernedToolRunner) (tool : ToolSpec)
    (body : EgressScope → pydict → M W ToolEnd) (args : pydict) (call : Caller) (per_call can_queue : bool)
    (fresh : RunnerFresh) : M W ToolOutcome :=
  card ← asked_card tool args call (per_call && negb (present_ (tc_approved_by call)) && can_queue);
  _ ← on_part (register_call (rf_call_id fresh) (tc_held_call_id call) : M CallState CallLineage);
  da ← pre kernel r tool args call card per_call fresh;
  let '(decision, tool_args) := da in
  if match decision with Some d => refuses d | None => false end then
    mret {| to_status := held; to_text := ""; to_ok := false; to_decision := decision; to_approval_card := card;
            to_classification := tc_classification call; to_post := None; to_call_id := Some (rf_call_id fresh) |}
  else if per_call && negb (present_ (tc_approved_by call)) then
    mret (outcome_of refused_ (refused tool) call (Some (rf_call_id fresh)))
  else run_tool kernel r tool body tool_args call fresh.

(** Whether the audit key is there to record the call with. *)
Definition audit_key_missing (kernel : option (GovernanceKernel W)) (w : W) : option exn :=
  match kernel, audit_digester w with Some _, Raise e => Some e | _, _ => None end.

(** [execute] *)
Definition execute (kernel : option (GovernanceKernel W)) (r : GovernedToolRunner) (tool : ToolSpec)
    (body : EgressScope → pydict → M W ToolEnd) (args : pydict) (call : Caller) (fresh : RunnerFresh) : M W ToolOutcome :=
  missing ← gets (audit_key_missing kernel);
  match missing with
  | Some e => if String.eqb (exn_class e) "AuditKeyUnavailable" then mret (outcome_of refused_ (exn_str e) call None) else raise e
  | None =>
      let call := mint_run call fresh in
      per_call ← approved_per_call_for tool call;
      if per_call && match kernel with None => true | Some _ => false end then
        mret (outcome_of refused_ (refused tool) call None)
      else
        let can_queue := gr_resumable r || tc_deferred call in
        match (if per_call && negb (present_ (tc_approved_by call)) && can_queue then invalid_destructive_args tool args else None) with
        | Some problem =>
            mret (outcome_of refused_ ("Error: " +:+ problem +:+ " Nothing was sent for approval and nothing changed.") call None)
        | None => execute_checked kernel r tool body args call per_call can_queue fresh
        end
  end.
End runner.

(** ** What a run of a tool's code stands on *)

Lemma args_fields_keys dg v digests :
  args_fields dg v = Ok digests → digests !! TOOL_NAME = None ∧ digests !! ARGS = None.
Proof.
  unfold args_fields. destruct (digest dg v); [|done]. intros [= <-]. by rewrite !lookup_insert_ne.
Qed.

Section runs.
Context {W : Type} `{!Part W CallState, !Part W TurnState, !Part W TaintCache, !Part W Table, !Part W SideEffectLedger}.
Context `{!PartLaws W Table, !PartLaws W SideEffectLedger}.
Context `{!Apart W CallState Table, !Apart W CallState SideEffectLedger, !Apart W TaintCache Table, !Apart W TaintCache SideEffectLedger}.
Context (env : KernelEnv W) (audit_digester : W → res AuditDigester) (taint_file_now : W → taint_file) (note_effect : string → W → W).

Local Abbreviation execute := (execute env audit_digester taint_file_now note_effect).
Local Abbreviation execute_checked := (execute_checked env audit_digester taint_file_now note_effect).
Local Abbreviation pre := (pre env audit_digester).
Local Abbreviation run_tool := (run_tool env audit_digester note_effect).

(** Reading the taint policy and registering a call leave the books alone. *)
Definition same_books (w w' : W) : Prop := the_table w' = the_table w ∧ the_ledger w' = the_ledger w.
#[export] Instance same_books_preorder : PreOrder same_books.
Proof. split; [done|]. intros ? ? ? [? ?] [? ?]. split; congruence. Qed.

Lemma taint_applies_books tool call : Respects same_books (taint_applies taint_file_now tool call).
Proof using All.
  unfold taint_applies. destruct (tc_tainted call); [|apply _]. apply respects_bind; [apply _..|]. intros f.
  apply respects_bind; [apply _| |intros s; apply _]. intros w. unfold on_part, zoom. destruct (taint_gated_tools f _).
  unfold same_books, the_table, the_ledger. simpl. by rewrite !apart.
Qed.

Lemma approved_for_books tool call : Respects same_books (approved_per_call_for taint_file_now tool call).
Proof using All. unfold approved_per_call_for. destruct (_ || _); [apply _|apply taint_applies_books]. Qed.

Lemma asked_card_books tool args call asks : Respects same_books (asked_card taint_file_now tool args call asks).
Proof using All.
  unfold asked_card. destruct asks; [|apply _]. apply respects_bind; [apply _|apply taint_applies_books|]. intros t. apply _.
Qed.

Lemma register_books cid h : Respects same_books (on_part (register_call cid h) : M W CallLineage).
Proof using Type Apart0 Apart1. intros w. unfold on_part, zoom, same_books, the_table, the_ledger. simpl. by rewrite !apart. Qed.

(** The call that was let through, and the world its code found. *)
Definition let_through k r tool args call per_call fresh (w : W) (c : HookContext) (args' : pydict) (w1 : W) : Prop :=
  ∃ digests card d w0, digests !! TOOL_NAME = None ∧ digests !! ARGS = None ∧
    fire k env PRE_TOOL_USE (pre_context r tool args call digests card per_call (rf_call_id fresh) (rf_pre_run fresh)) w0 = (Ok (d, c), w1) ∧
    (outcome d = allow ∨ outcome d = transform) ∧ args' = default args (args_of (payload c)) ∧ same_books w w0 ∧
    (declared_per_call tool = true → present_ (tc_approved_by call) = true → _recorded_row d c ≠ None).

(** The runner runs a tool's code only past [pre]; before that nothing depends on it. *)
Lemma execute_inv k r tool body args call fresh w o w' :
  execute (Some k) r tool body args call fresh w = (Ok o, w') →
  (to_status o ≠ ran ∧ ∀ body', execute (Some k) r tool body' args call fresh w = (Ok o, w')) ∨
  ∃ per_call c args' w1,
    run_res (approved_per_call_for taint_file_now tool (mint_run call fresh)) w = Ok per_call ∧
    let_through k r tool args (mint_run call fresh) per_call fresh w c args' w1 ∧
    (per_call = true → present_ (tc_approved_by call) = true) ∧
    run_tool (Some k) r tool body args' (mint_run call fresh) fresh w1 = (Ok o, w').
Proof using All.
  assert (tc_approved_by (mint_run call fresh) = tc_approved_by call) as Hby by (unfold mint_run; by destruct (tc_run_id call)).
  unfold execute. run_monad. destruct (audit_key_missing _ _ _) as [e|].
  { destruct (String.eqb _ _); [|done]. intros [= <- <-]. by left. }
  pose proof (approved_for_books tool (mint_run call fresh) w) as Hb1.
  destruct (approved_per_call_for _ _ _ w) as [[per_call|e] w2]; [|done]. rewrite andb_false_r.
  set (call' := mint_run call fresh) in *. cbn [fst snd] in *.
  destruct (if per_call && _ && _ then _ else None) as [problem|].
  { intros [= <- <-]. by left. }
  unfold execute_checked. run_monad.
  match goal with |- context [asked_card _ tool args call' ?b w2] =>
    pose proof (asked_card_books tool args call' b w2) as Hb2; destruct (asked_card _ tool args call' b w2) as [[card|e] w3] end;
    [|done]. cbn [snd] in Hb2.
  pose proof (register_books (rf_call_id fresh) (tc_held_call_id call') w3) as Hb3.
  destruct (on_part _ w3) as [[lin|e] w4]; [|done]. cbn [snd] in Hb3.
  destruct (pre (Some k) r tool args call' card per_call fresh w4) as [[[decision args']|e] w5] eqn:Hpre; [|done].
  destruct (match decision with Some d => refuses d | None => false end) eqn:Hrf.
  { intros [= <- <-]. by left. }
  destruct (per_call && negb (present_ (tc_approved_by call'))) eqn:Happ.
  { intros [= <- <-]. by left. }
  intros Hrun. right. exists per_call.
  revert Hpre. unfold pre. run_monad. destruct (audit_digester w4) as [dg|e]; [|done]. unfold lift_res at 1.
  destruct (args_fields dg _) as [digests|e] eqn:Hdg; [|done]. unfold lift_res. apply args_fields_keys in Hdg as [Hd1 Hd2].
  destruct (fire k env PRE_TOOL_USE _ w4) as [[[d c]|e] w6] eqn:Hf; [|done].
  destruct (_ && _ && _ && _) eqn:Hnr; [by intros [= <- _ _]|].
  destruct (refuses d) eqn:Hrd.
  { destruct (_settle_unrun_tool _ _ _ _ _ _ _ _ _ w6) as [[[]|e] w7]; [|done]. intros [= <- _ _]. congruence. }
  intros [= <- <- <-]. exists c, (default args (args_of (payload c))), w6. split_and!; [done| | |done].
  - exists digests, card, d, w4. split_and!; [done|done|done| |done| |].
    + unfold refuses in Hrd. apply bool_decide_eq_false_1 in Hrd. destruct (outcome d); tauto.
    + etrans; [exact Hb1|]. etrans; [exact Hb2|]. exact Hb3.
    + intros Hdec Hpres. rewrite Hdec in Hnr. unfold present_ in Hpres.
      destruct (nonempty (tc_approved_by call')); [|done]. intros Hno. rewrite Hno in Hnr. done.
  - intros ->. rewrite <- Hby. simpl in Happ. by destruct (present_ _).
Qed.
End runs.

Ltac look_up :=
  unfold pre_context; cbn [metadata]; rewrite !list_to_map_cons; cbn [fst snd];
  repeat (rewrite lookup_insert_ne by done); apply lookup_insert_eq.

(** ** The stamps of a call *)

Section stamps.
Context (r : GovernedToolRunner) (tool : ToolSpec) (args : pydict) (call : Caller) (digests : dict).
Context (card : option pydict) (per_call : bool) (cid uuid : string).
Local Abbreviation ctx := (pre_context r tool args call digests card per_call cid uuid).
Local Abbreviation m := (metadata ctx).

Lemma stamped_approved_by : m !! "approved_by" = Some (opt_val (tc_approved_by call)).
Proof. look_up. Qed.
Lemma stamped_caller : m !! "caller" = Some (VStr (caller_of r call)).
Proof. look_up. Qed.
Lemma stamped_effect : m !! TOOL_EFFECT = Some (VStr (ts_effect tool)).
Proof. look_up. Qed.
Lemma stamped_confirm : m !! "tool_confirm" = Some (VStr (ts_confirm tool)).
Proof. look_up. Qed.
Lemma stamped_per_call : m !! "per_call_approval" = Some (VBool per_call).
Proof. look_up. Qed.
Lemma stamped_call_id : m !! CALL_ID = Some (VStr cid).
Proof. look_up. Qed.
Lemma not_stamped_bot : m !! BOT_ID = None.
Proof.
  unfold pre_context. cbn [metadata]. rewrite !list_to_map_cons. cbn [fst snd].
  repeat (rewrite lookup_insert_ne by done). apply lookup_empty.
Qed.

Lemma strip_nothing : strip_bot_id ctx = ctx.
Proof. unfold strip_bot_id. by rewrite not_stamped_bot. Qed.

Lemma stamped_name : digests !! TOOL_NAME = None → payload ctx !! TOOL_NAME = Some (VStr (ts_name tool)).
Proof.
  intros Hd. cbn [pre_context payload]. unfold pre_tool_payload.
  rewrite lookup_union_r by (by rewrite lookup_insert_ne). apply lookup_insert_eq.
Qed.

Lemma stamped_args : digests !! ARGS = None → payload ctx !! ARGS = Some (VDict args).
Proof.
  intros Hd. cbn [pre_context payload]. unfold pre_tool_payload.
  rewrite lookup_union_r by (by rewrite lookup_insert_ne). rewrite lookup_insert_ne by done. apply lookup_insert_eq.
Qed.

Lemma stamped_call_key :
  str_truthy cid = true →
  call_key ctx = side_effect_key (default uuid (nonempty (tc_run_id call))) (default 0%Z (tc_step_id call)) (Some cid).
Proof.
  intros Hc. unfold call_key, step_of, call_id_of, get_truthy. rewrite stamped_call_id. cbn [truthy].
  by rewrite !Hc.
Qed.
End stamps.


(** ** The promise of a run *)

Lemma same_call_sym c c' : same_call c c' → same_call c' c.
Proof. intros (H1 & H2 & H3). split_and!; [done|done|]. intros x Hx Hy. by rewrite H3. Qed.

(** The owner's approval of exactly this call, in this caller's name: the row pins the arguments
    the code gets, but for the vault's handles in them that were filled since. *)
Definition approved_for_run {W} (vault : option (string → M W (option string))) (r : GovernedToolRunner) (tool : ToolSpec) (call : Caller)
    (args' : pydict) (t : Table) : Prop :=
  ∃ id row written, tc_approved_by call = Some id ∧ get id t = Some row ∧ status row = approved ∧
    rtc (filled vault) written args' ∧ ApprovalItem_of (ts_name tool) written ∈ default [] (items row) ∧
    ∀ who, caller row = Some who → nonempty (Some (str_strip (caller_of r call))) = Some who ∧ executed_at row ≠ None.

(** The record of an irreversible call, under its own key. *)
Definition recorded_for_run (tool : ToolSpec) (call : Caller) (cid uuid : string) (l : SideEffectLedger) : Prop :=
  ∃ row, row ∈ se_rows l ∧ se_tool row = ts_name tool ∧
    side_effect_id row = side_effect_key (default uuid (nonempty (tc_run_id call))) (default 0%Z (tc_step_id call)) (Some cid).

(** A hook that rewrites at most the arguments of a call, which stay a dict. *)
Definition rewrites_args_only {W} (g : Hook W) : Prop :=
  ∀ c w d w' p, hook_call g c w = (Ok d, w') → transformed_payload d = Some p →
    p !! TOOL_NAME = payload c !! TOOL_NAME ∧ ∃ a, p !! ARGS = Some (VDict a).

Section promise.
Context {W : Type} `{!Part W CallState, !Part W TurnState, !Part W TaintCache, !Part W Table, !Part W SideEffectLedger}.
Context `{!PartLaws W Table, !PartLaws W SideEffectLedger}.
Context `{!Apart W CallState Table, !Apart W CallState SideEffectLedger, !Apart W TaintCache Table, !Apart W TaintCache SideEffectLedger}.
Context (env : KernelEnv W) (audit_digester : W → res AuditDigester) (taint_file_now : W → taint_file) (note_effect : string → W → W).
Context (k : GovernanceKernel W) `{!BookKernel k, !BookEnv env} (sf : Surfaces W) `{!SurfacesOk sf}.
Context (vault : option (string → M W (option string))).

(** A kernel whose [PreToolUse] hooks are in the order the program registers them; after the
    approval only the credential broker rewrites a call, and only its vault handles. *)
Record ToolKernel (policy : ToolPolicyHook) : Prop := {
  tk_hooks : ∃ h calls_of stamp_of i1 i2 i3 hs0 hs1 hs2 hs3,
    k_hooks k PRE_TOOL_USE
      = hs0 ++ tool_policy_hook i1 policy :: hs1 ++ destructive_hook sf i2 h :: hs2
            ++ pre_ledger_hook calls_of stamp_of i3 true :: hs3 ∧
    (∀ g, g ∈ hs0 ++ hs1 → rewrites_args_only g) ∧ (∀ g, g ∈ hs2 ++ hs3 → fills_at_most vault g) }.

(** The name stays and the arguments stay a dict. *)
Lemma pass_shape point hs c w tr c' w' :
  (∀ g, g ∈ hs → rewrites_args_only g ∨ rewrites_nothing g) → pass k env point hs c w tr c' w' →
  payload c' !! TOOL_NAME = payload c !! TOOL_NAME ∧
  ((∃ a, payload c !! ARGS = Some (VDict a)) → ∃ a, payload c' !! ARGS = Some (VDict a)).
Proof using Type.
  intros Hg Hp. induction Hp as [|g hs c w d w1 kept w2 c1 tr c' w' Hc Ha Hu Ho Hp IH]; [done|].
  destruct IH as [Hn Hargs]; [intros g' ?; apply Hg; by right|].
  apply apply_updates_payload in Hu as [Hu|[Htr Ht]]; [by rewrite Hn, <- Hu|].
  destruct (Hg g ltac:(left)) as [Hr|Hr]; [|by destruct (Hr _ _ _ _ Hc)].
  destruct (Hr _ _ _ _ _ Hc Ht) as [Hn1 Ha1]. split; [congruence|auto].
Qed.

Lemma broker_args_only ident : rewrites_args_only (broker_hook vault ident).
Proof using Type.
  intros c w d w' p Hc Hp. destruct (decide (outcome d = transform)) as [Ht|Hn].
  - destruct (broker_fills vault c w d w' p Hc Ht Hp) as (Hn & a & a' & _ & Ha & _). eauto.
  - exfalso. cbn in Hc. unfold credential_broker_call in Hc. revert Hc. run_monad. unfold lift_res. repeat case_match; intros; simplify_eq; done.
Qed.
Lemma after_shape g : fills_at_most vault g → rewrites_args_only g ∨ rewrites_nothing g.
Proof using Type. intros [H|[ident ->]]; [by right|left; apply broker_args_only]. Qed.

Lemma hooks_shape point policy i1 hs0 hs1 hs2 hs3 h i2 i3 calls_of stamp_of :
  k_hooks k point = hs0 ++ tool_policy_hook i1 policy :: hs1 ++ destructive_hook sf i2 h :: hs2
    ++ pre_ledger_hook calls_of stamp_of i3 true :: hs3 →
  (∀ g, g ∈ hs0 ++ hs1 → rewrites_args_only g) → (∀ g, g ∈ hs2 ++ hs3 → fills_at_most vault g) →
  ∀ g, g ∈ k_hooks k point → rewrites_args_only g ∨ rewrites_nothing g.
Proof using Type.
  intros -> Hname Hrw g Hg. rewrite !elem_of_app, !elem_of_cons, !elem_of_app, !elem_of_cons, !elem_of_app, !elem_of_cons in Hg.
  destruct Hg as [Hg|[->|[Hg|[->|[Hg|[->|Hg]]]]]].
  - left. apply Hname, elem_of_app. by left.
  - right. apply tool_policy_rewrites_nothing.
  - left. apply Hname, elem_of_app. by right.
  - right. apply destructive_rewrites_nothing.
  - apply after_shape, Hrw, elem_of_app. by left.
  - right. apply pre_ledger_rewrites_nothing.
  - apply after_shape, Hrw, elem_of_app. by right.
Qed.

(** What [fire] lets out is governed, in terms of the call the runner built. *)
Lemma let_through_governed policy r tool args call per_call fresh w c args' w1 :
  ToolKernel policy → books_ok w → ts_name tool ≠ "" → str_truthy (rf_call_id fresh) = true →
  (declared_per_call tool = true → per_call = true) →
  let_through env k r tool args call per_call fresh w c args' w1 →
  (∃ card, tool_permitted policy (metadata (pre_context r tool args call ∅ card per_call (rf_call_id fresh) (rf_pre_run fresh))) (ts_name tool)) ∧
  (per_call = true → approved_for_run vault r tool call args' (the_table w1)) ∧
  (declared_per_call tool = true → recorded_for_run tool call (rf_call_id fresh) (rf_pre_run fresh) (the_ledger w1)).
Proof using All.
  intros [(h & calls_of & stamp_of & i1 & i2 & i3 & hs0 & hs1 & hs2 & hs3 & Hk & Hname & Hrw)] Hw Hn Hcid Hdecl
    (digests & card & d & w0 & Hd1 & Hd2 & Hf & Ho & -> & [Ht Hl] & _).
  assert (books_ok w0) as Hw0 by (unfold books_ok in *; by rewrite Ht, Hl).
  assert (∀ g, g ∈ hs1 → keeps_tool_name g) as Hkn.
  { intros g Hg c0 wa d0 wb p Hc Hp. by apply (Hname g (proj2 (elem_of_app _ _ _) (or_intror Hg)) _ _ _ _ _ Hc Hp). }
  destruct (governed_tool_call k env sf vault policy h calls_of stamp_of i1 i2 i3 hs0 hs1 hs2 hs3 _ w0 d c w1 Hk Hkn Hrw Hw0 Hf Ho)
    as ((name & Hnm & Hperm) & Happ & Hrec).
  destruct (fire_passed k env _ _ _ _ _ _ Hf Ho) as (tr & w2 & Hp & _). rewrite strip_nothing in Hp.
  pose proof (pass_same k env _ _ _ _ _ _ _ Hp) as Hs.
  destruct (pass_shape _ _ _ _ _ _ _ (hooks_shape _ _ _ _ _ _ _ _ _ _ _ _ Hk Hname Hrw) Hp) as [Hpn Hpa].
  rewrite (stamped_name _ _ _ _ _ _ _ _ _ Hd1) in Hpn. rewrite (stamped_args _ _ _ _ _ _ _ _ _ Hd2) in Hpa.
  destruct Hpa as [a Ha]; [by eexists|].
  assert (name = ts_name tool) as ->.
  { apply get_nonempty_Some in Hnm as [Hnm _]. congruence. }
  assert (args_of (payload c) = Some a) as -> by (unfold args_of; by rewrite Ha).
  split_and!.
  - exists card. exact (same_permitted _ _ (same_call_sym _ _ Hs) policy _ Hperm).
  - intros Hpc. destruct Happ as (Hby & row & written & Hg & Hst & [Hfn Hfa] & Hit & Hcl).
    { rewrite (same_approved_per_call _ _ Hs). unfold approved_per_call, is_true. by rewrite stamped_per_call, Hpc, orb_true_r. }
    unfold get_truthy in Hby. rewrite (same_approved_by _ _ Hs), stamped_approved_by in Hby, Hg.
    destruct (tc_approved_by call) as [id|] eqn:Hid; [|done]. cbn in Hby, Hg. rewrite Hby in Hg.
    assert (∃ a0, payload written !! ARGS = Some (VDict a0) ∧ rtc (filled vault) a0 a) as (a0 & Ha0 & Hfill).
    { destruct Hfa as [Hfa|(b & b' & Hb & Hb' & Hfl)]; [exists a; split; [congruence|done]|]. exists b. split; [done|]. by assert (b' = a) as -> by congruence. }
    exists id, row, a0. split_and!; [done|done|done|done| |].
    + unfold pinned_item in Hit. rewrite <- Hfn, Hpn, Ha0 in Hit. cbn [str_or_empty truthy] in Hit.
      by destruct (ts_name tool).
    + intros who Hwho. destruct (Hcl who Hwho) as [Hm Hx]. split; [|done].
      rewrite (same_caller _ _ Hs) in Hm. unfold metadata_str in Hm. rewrite stamped_caller in Hm. rewrite <- Hm.
      cbn [str_or_empty truthy str_val]. by destruct (caller_of r call).
  - intros Hdec. destruct Hrec as (row & Hin & Hkey & Htool).
    { rewrite (same_high_risk _ _ Hs). unfold high_risk. by rewrite stamped_effect, stamped_confirm. }
    exists row. split_and!; [done| |].
    + rewrite Htool. unfold tool_name_of, get_str. by rewrite Hpn.
    + by rewrite Hkey, (same_call_key _ _ Hs), stamped_call_key.
Qed.

Context `{!PartLaws W CallState} (Hnote : ∀ eff w, same_books w (note_effect eff w)).

Lemma declared_waits tool call w per_call :
  run_res (approved_per_call_for taint_file_now tool call) w = Ok per_call → declared_per_call tool = true → per_call = true.
Proof using Type. intros H Hd. unfold approved_per_call_for in H. rewrite Hd in H. by injection H as <-. Qed.

(** The code's own world: the books of the call it was let through with, inside its own call. *)
Lemma run_tool_inv r tool body args' call fresh w1 o w' :
  run_tool env audit_digester note_effect (Some k) r tool body args' call fresh w1 = (Ok o, w') →
  to_status o = ran ∧
  ∃ ws e we digests wp d c wf, same_books w1 ws ∧ current_call (part ws : CallState) = Some (rf_call_id fresh) ∧
    body (tool_scope r tool call (rf_call_id fresh)) args' ws = (Ok e, we) ∧
    fire k env POST_TOOL_USE (post_context r tool (tool_result e).1.1 call digests (rf_call_id fresh) (rf_post_run fresh) (tool_result e).2) wp
      = (Ok (d, c), wf) ∧
    to_text o = po_text (handed_on tool (tc_classification call) d c) ∧
    (to_ok o = true → refuses d = false ∧ ∃ text, e = ToolReturned text false ∧ payload c !! RESULT = Some (VStr (to_text o))).
Proof using All.
  unfold run_tool, run_body. run_monad.
  assert (∃ w2, noted note_effect tool w1 = (Ok (), w2) ∧ same_books w1 w2) as (w2 & -> & Hb).
  { unfold noted. destruct (String.eqb _ _); [by exists w1|]. eexists. split; [done|]. apply Hnote. }
  set (ws := set_part (set_current (Some (rf_call_id fresh)) (part w2)) w2).
  assert (same_books w1 ws) as Hbs.
  { etrans; [exact Hb|]. unfold same_books, the_table, the_ledger, ws. by rewrite !apart. }
  destruct (body _ args' ws) as [[e|ex] we] eqn:Hbody; [|done].
  destruct (tool_result e) as [[result ok] err] eqn:Hres. unfold post.
  set (wp := set_part _ we). run_monad. destruct (audit_digester wp) as [dg|ex]; [|done]. unfold lift_res at 1.
  destruct (result_fields dg _) as [digests|ex]; [|done]. unfold lift_res, fire_post. run_monad.
  destruct (fire k env POST_TOOL_USE _ wp) as [[[d c]|ex] wf] eqn:Hf; [|done].
  destruct (on_part _ wf) as [[[]|ex] wl]; [|done]. intros [= <- <-]. split; [done|].
  exists ws, e, we, digests, wp, d, c, wf. rewrite Hres. split_and!; try done.
  - unfold ws. by rewrite part_set.
  - cbn [to_ok to_text]. intros [-> Hw]%andb_prop. apply negb_true_iff in Hw. unfold handed_on in *.
    destruct (refuses d); [done|]. split; [done|]. destruct (result_of (payload c)) eqn:Hr; try done.
    destruct e as [text []|? ?|?]; try done. exists text. split; [done|].
    unfold result_of in Hr. cbn [po_text]. destruct (payload c !! RESULT) as [x|]; cbn in Hr; [by rewrite Hr|done].
Qed.

(** C4. A tool's code, from its caller to what its caller is told.  Over a kernel whose hooks at
    [PreToolUse] stand in the program's order, a call of the runner either does not run the tool's
    code at all -- whatever that code is, outcome and world are the same -- or runs it on arguments
    and in a world of which all this holds: the operator's policy permits this very tool; when the
    call waits for the owner (by its declaration, because a program makes it, or because its run
    read outside text), the approvals table holds an approved row that pins exactly this tool with
    exactly the arguments the code gets, but that the credential broker has filled each [vault://]
    handle in them with what the vault gives for it; when the tool is irreversible, the side-effect ledger
    already holds the record of the call under its own key; and the code finds itself inside its
    own call, so that what it starts names it as parent.  The text the caller gets is then never
    the tool's own but what the verdict at [PostToolUse] hands on, and the call counts as done only
    if the code returned, nothing was refused and that text is the final result. *)
Theorem governed_tool_run policy r tool body args call fresh w o w' :
  ToolKernel policy → books_ok w → ts_name tool ≠ "" → str_truthy (rf_call_id fresh) = true →
  execute env audit_digester taint_file_now note_effect (Some k) r tool body args call fresh w = (Ok o, w') →
  (to_status o ≠ ran ∧
   ∀ body', execute env audit_digester taint_file_now note_effect (Some k) r tool body' args call fresh w = (Ok o, w')) ∨
  (to_status o = ran ∧ ∃ per_call args' ws e we digests wp d c wf,
   let call := mint_run call fresh in
   run_res (approved_per_call_for taint_file_now tool call) w = Ok per_call ∧
   (∃ card, tool_permitted policy (metadata (pre_context r tool args call ∅ card per_call (rf_call_id fresh) (rf_pre_run fresh))) (ts_name tool)) ∧
   (per_call = true → approved_for_run vault r tool call args' (the_table ws)) ∧
   (declared_per_call tool = true → recorded_for_run tool call (rf_call_id fresh) (rf_pre_run fresh) (the_ledger ws)) ∧
   current_call (part ws : CallState) = Some (rf_call_id fresh) ∧
   body (tool_scope r tool call (rf_call_id fresh)) args' ws = (Ok e, we) ∧
   fire k env POST_TOOL_USE (post_context r tool (tool_result e).1.1 call digests (rf_call_id fresh) (rf_post_run fresh) (tool_result e).2) wp
     = (Ok (d, c), wf) ∧
   to_text o = po_text (handed_on tool (tc_classification call) d c) ∧
   (to_ok o = true → refuses d = false ∧ ∃ text, e = ToolReturned text false ∧ payload c !! RESULT = Some (VStr (to_text o)))).
Proof using All.
  intros Hk Hw Hn Hcid [[Hst Hsame]|(per_call & c0 & args' & w1 & Hpc & Hlet & _ & Hrun)]%execute_inv; [by left|right].
  destruct (let_through_governed policy _ _ _ _ _ _ _ _ _ _ Hk Hw Hn Hcid (declared_waits _ _ _ _ Hpc) Hlet) as (Hperm & Happ & Hrec).
  destruct (run_tool_inv _ _ _ _ _ _ _ _ _ Hrun)
    as (Hst & ws & e & we & digests & wp & d & c & wf & [Ht Hl] & Hcur & Hbody & Hfire & Htext & Hok).
  split; [done|]. exists per_call, args', ws, e, we, digests, wp, d, c, wf. rewrite Ht, Hl. by split_and!.
Qed.
End promise.

(** ** An approved destructive call, run *)

Record RunWorld := {
  rw_calls : CallState; rw_turn : TurnState; rw_taint : TaintCache; rw_table : Table; rw_ledger : SideEffectLedger;
  rw_log : list AuditRow }.

#[export] Instance rw_calls_part : Part RunWorld CallState :=
  {| part := rw_calls; set_part := λ x w, {| rw_calls := x; rw_turn := rw_turn w; rw_taint := rw_taint w; rw_table := rw_table w; rw_ledger := rw_ledger w; rw_log := rw_log w |} |}.
#[export] Instance rw_turn_part : Part RunWorld TurnState :=
  {| part := rw_turn; set_part := λ x w, {| rw_calls := rw_calls w; rw_turn := x; rw_taint := rw_taint w; rw_table := rw_table w; rw_ledger := rw_ledger w; rw_log := rw_log w |} |}.
#[export] Instance rw_taint_part : Part RunWorld TaintCache :=
  {| part := rw_taint; set_part := λ x w, {| rw_calls := rw_calls w; rw_turn := rw_turn w; rw_taint := x; rw_table := rw_table w; rw_ledger := rw_ledger w; rw_log := rw_log w |} |}.
#[export] Instance rw_table_part : Part RunWorld Table :=
  {| part := rw_table; set_part := λ x w, {| rw_calls := rw_calls w; rw_turn := rw_turn w; rw_taint := rw_taint w; rw_table := x; rw_ledger := rw_ledger w; rw_log := rw_log w |} |}.
#[export] Instance rw_ledger_part : Part RunWorld SideEffectLedger :=
  {| part := rw_ledger; set_part := λ x w, {| rw_calls := rw_calls w; rw_turn := rw_turn w; rw_taint := rw_taint w; rw_table := rw_table w; rw_ledger := x; rw_log := rw_log w |} |}.

#[export] Instance rw_table_laws : PartLaws RunWorld Table.
Proof. split; [done|by intros []]. Qed.
#[export] Instance rw_ledger_laws : PartLaws RunWorld SideEffectLedger.
Proof. split; [done|by intros []]. Qed.
#[export] Instance rw_calls_laws : PartLaws RunWorld CallState.
Proof. split; [done|by intros []]. Qed.
#[export] Instance rw_apart1 : Apart RunWorld CallState Table.
Proof. done. Qed.
#[export] Instance rw_apart2 : Apart RunWorld CallState SideEffectLedger.
Proof. done. Qed.
#[export] Instance rw_apart3 : Apart RunWorld TaintCache Table.
Proof. done. Qed.
#[export] Instance rw_apart4 : Apart RunWorld TaintCache SideEffectLedger.
Proof. done. Qed.
#[export] Instance rw_apart5 : Apart RunWorld Table SideEffectLedger.
Proof. done. Qed.
#[export] Instance rw_apart6 : Apart RunWorld SideEffectLedger Table.
Proof. done. Qed.

Definition rw_record (r : AuditRow) : M RunWorld Z := λ w,
  (Ok 1%Z, {| rw_calls := rw_calls w; rw_turn := rw_turn w; rw_taint := rw_taint w; rw_table := rw_table w;
              rw_ledger := rw_ledger w; rw_log := rw_log w ++ [r] |}).

Definition rw_env : KernelEnv RunWorld :=
  {| env_audit_log := Some rw_record; env_lineage_of := λ w, lineage_of (rw_calls w);
     env_is_run_resumed := λ w, is_run_resumed (rw_calls w); env_session_id := λ _, None; env_turn_id := λ _, None;
     env_trace_id := λ _, None; env_note_unrecorded := λ _ _ w, w |}.

#[export] Instance rw_env_books : BookEnv rw_env.
Proof. split; [intros f r [= <-]; by apply kb_same|done]. Qed.

Definition rw_surfaces : Surfaces RunWorld :=
  {| sf_record := Some rw_record; sf_settle_run := λ _ _, mret 0%Z; sf_resume := None;
     sf_execute := None; sf_settle_unrun := λ _ s, mret {| res_status := s; res_summary := "" |};
     sf_notify_timeout := None; sf_deliver := None |}.

#[export] Instance rw_surfaces_ok : SurfacesOk rw_surfaces.
Proof.
  split; try done. intros f r [= <-] w Hw. by split.
Qed.
#[export] Instance rw_book_surfaces : BookSurfaces rw_surfaces.
Proof. intros f r [= <-]. by apply kb_same. Qed.

Definition rw_hook : DestructiveApprovalHook RunWorld :=
  {| has_queue := true; notify_router := None; timeout_minutes := 60; clock := λ _, 5000%Z;
     fresh_uuid := λ _, "u"; current_turn_id := λ _, None |}.

Definition rw_vault : option (string → M RunWorld (option string)) := Some (λ h, mret (Some "s3cret")).
Definition rw_hooks : list (Hook RunWorld) :=
  [tool_policy_hook 1 open_policy; destructive_hook rw_surfaces 2 rw_hook; broker_hook rw_vault 4;
   pre_ledger_hook rw_calls (λ _, some_stamp) 3 true].
Definition rw_kernel : GovernanceKernel RunWorld :=
  {| k_hooks := λ p, if decide (p = PRE_TOOL_USE) then rw_hooks else []; k_init_locked := true; k_bot_hook := None |}.

#[export] Instance rw_kernel_books : BookKernel rw_kernel.
Proof.
  split; [|done]. intros p h. simpl. destruct (decide _); [|by intros ?%elem_of_nil].
  unfold rw_hooks. rewrite !elem_of_cons, elem_of_nil. intros [-> |[-> |[-> |[-> |[]]]]]; [apply _| | |apply _].
  - by apply (destructive_books rw_surfaces).
  - apply broker_respects; [apply _|]. intros get id [= <-]. apply _.
Qed.

Lemma rw_tool_kernel : ToolKernel rw_kernel rw_surfaces rw_vault open_policy.
Proof.
  split. exists rw_hook, rw_calls, (λ _, some_stamp), 1, 2, 3, [], [], [broker_hook rw_vault 4], [].
  split; [done|]. split; [by intros g ?%elem_of_nil|]. intros g [->|?%elem_of_nil]%elem_of_cons; [right; by eexists|done].
Qed.

Definition rw_digester : AuditDigester := {| digest := λ _, Ok "d"; digest_alg := "hmac" |}.
Definition rm_tool : ToolSpec :=
  {| ts_name := "rm"; ts_effect := "destructive"; ts_confirm := "approval"; ts_describe := None; ts_undo := None;
     ts_undo_window_days := None; ts_validate := None; ts_content := "internal"; ts_verify := None; ts_sends_to := None;
     ts_plugin := "files" |}.
Definition rm_caller : Caller :=
  {| tc_run_id := Some "r1"; tc_classification := None; tc_step_id := Some 1%Z; tc_asked_user := false;
     tc_approved_by := Some "id0"; tc_query := None; tc_caller := Some "plugin:x"; tc_deferred := true;
     tc_held_call_id := None; tc_tainted := false |}.
Definition rm_args : pydict := default [] (args_of (payload run_approved)).
Definition rm_runner : GovernedToolRunner :=
  {| gr_agent_type := "chat"; gr_origin_channel := None; gr_session_id := None; gr_resumable := false |}.
Definition rm_fresh : RunnerFresh := {| rf_run_id := "u1"; rf_call_id := "c1"; rf_pre_run := "u2"; rf_post_run := "u3" |}.
Definition rm_body (scope : EgressScope) (args : pydict) : M RunWorld ToolEnd := mret (ToolReturned "removed" false).
Definition rw_start : RunWorld :=
  {| rw_calls := no_calls; rw_turn := {| holders := ∅; next_holder := 0; turn_var := None |}; rw_taint := None;
     rw_table := part approved_desk; rw_ledger := fresh_ledger; rw_log := [] |}.

Definition rm_run : M RunWorld ToolOutcome :=
  execute rw_env (λ _, Ok rw_digester) (λ _, NoFile) (λ _ w, w) (Some rw_kernel) rm_runner rm_tool rm_body rm_args rm_caller rm_fresh.

Lemma rm_ran : match run_res rm_run rw_start with Ok o => bool_decide (to_status o = ran) && to_ok o | Raise _ => false end = true.
Proof. vm_compute. reflexivity. Qed.

Lemma rw_start_ok : books_ok rw_start.
Proof. split; [apply approved_desk_ok|apply fresh_ledger_ok]. Qed.

Lemma rw_noting (eff : string) (w : RunWorld) : same_books w w.
Proof. done. Qed.

Lemma governed_tool_run_witness :
  ∃ o w' ws args', rm_run rw_start = (Ok o, w') ∧ to_status o = ran ∧
    recorded_for_run rm_tool rm_caller "c1" "u2" (the_ledger (W := RunWorld) ws) ∧
    approved_for_run rw_vault rm_runner rm_tool rm_caller args' (the_table (W := RunWorld) ws).
Proof.
  pose proof rm_ran as Hx. destruct (rm_run rw_start) as [[o|e] w'] eqn:Hrun; [|discriminate Hx].
  apply andb_true_iff in Hx as [Hran _]. apply bool_decide_eq_true in Hran.
  destruct (governed_tool_run rw_env (λ _, Ok rw_digester) (λ _, NoFile) (λ _ w, w) rw_kernel rw_surfaces rw_vault rw_noting open_policy
    rm_runner rm_tool rm_body rm_args rm_caller rm_fresh rw_start o w' rw_tool_kernel rw_start_ok ltac:(discriminate) eq_refl Hrun)
    as [[Hn _]|[_ (pc & args' & ws & e & we & dg & wp & d & c & wf & Hpc & _ & Happ & Hrec & _)]]; [destruct (Hn Hran)|].
  exists o, w', ws, args'. split; [reflexivity|]. split; [exact Hran|]. split; [exact (Hrec eq_refl)|].
  vm_compute in Hpc. injection Hpc as <-. exact (Happ eq_refl).
Defined.
