(* ===== verification/CapabilityFields.v ===== *)
(** * The text of a capability's result ([foundation/capability_fields.py])

    A result is walked along its declared type: its text by concrete path, and a copy of it with
    that text replaced. *)

From S2P Require Import Prelude PyVal PyText CallContext.
From stdpp Require Import options.

(** ** Values and types *)

Inductive plain_kind := KInt | KFloat | KBool | KDecimal | KDatetime | KDate | KTime | KTimedelta | KUuid.
#[export] Instance plain_kind_eq_dec : EqDecision plain_kind.
Proof. solve_decision. Defined.

Definition kind_name (k : plain_kind) : string :=
  match k with
  | KInt => "int" | KFloat => "float" | KBool => "bool" | KDecimal => "Decimal" | KDatetime => "datetime"
  | KDate => "date" | KTime => "time" | KTimedelta => "timedelta" | KUuid => "UUID"
  end.

(** A provider's value: exact [str]s, [None], plain leaves by their [repr], enum members, lists and
    tuples, instances of a dataclass or a model with what they carry beside its fields, dicts, and
    anything else. *)
Inductive value :=
| PStr (s : string)
| PNone
| PPlain (k : plain_kind) (repr : string)
| PEnum (cls member : string)
| PSeq (is_tuple : bool) (items : list value)
| PRec (cls : string) (fields : list (string * value)) (extra : list string)
| PDict (items : list (string * value))
| POther (cls : string).

Inductive record_kind := Dataclass | Model | TypedDict.
#[export] Instance record_kind_eq_dec : EqDecision record_kind.
Proof. solve_decision. Defined.

Inductive seq_kind := SList | STuple | SSequence.

(** A declared type.  A sequence may be a tuple of fixed length ([ok] false), a record one whose
    class runs code or hides state ([bad], the reason). *)
Inductive pytype :=
| TStr
| TNoneType
| TLiteral (args : list value)
| TUnion (arms : list pytype)
| TEnum (cls : string)
| TPlain (k : plain_kind)
| TSeq (kind : seq_kind) (ok : bool) (item : pytype)
| TRecord (cls : string) (kind : record_kind) (bad : option string) (fields : list (string * pytype))
| TOpaque.

(** Induction on the nested types. *)
Section type_induction.
Context (P : pytype → Prop).
Context (Hstr : P TStr) (Hnone : P TNoneType) (Hlit : ∀ args, P (TLiteral args)).
Context (Hunion : ∀ arms, Forall P arms → P (TUnion arms)) (Henum : ∀ c, P (TEnum c)) (Hplain : ∀ k, P (TPlain k)).
Context (Hseq : ∀ kind ok item, P item → P (TSeq kind ok item)).
Context (Hrec : ∀ cls kind bad fields, Forall (λ nt, P nt.2) fields → P (TRecord cls kind bad fields)) (Hop : P TOpaque).

Fixpoint pytype_ind' (t : pytype) : P t :=
  match t with
  | TStr => Hstr
  | TNoneType => Hnone
  | TLiteral args => Hlit args
  | TUnion arms =>
      Hunion arms ((fix go l : Forall P l :=
        match l with [] => Forall_nil_2 _ | t :: l' => Forall_cons_2 _ _ _ (pytype_ind' t) (go l') end) arms)
  | TEnum c => Henum c
  | TPlain k => Hplain k
  | TSeq kind ok item => Hseq kind ok item (pytype_ind' item)
  | TRecord cls kind bad fields =>
      Hrec cls kind bad fields ((fix go l : Forall (λ nt, P nt.2) l :=
        match l with [] => Forall_nil_2 _ | nt :: l' => Forall_cons_2 _ _ _ (pytype_ind' nt.2) (go l') end) fields)
  | TOpaque => Hop
  end.
End type_induction.

Definition ITEM : string := "[]".
Definition path_join (prefix segment : string) : string :=
  if str_truthy prefix then prefix +:+ "." +:+ segment else segment.

Definition UndeclarableType (why : string) : exn := Exn "UndeclarableType" why.
Definition ResultMismatch (why : string) : exn := Exn "ResultMismatch" why.

Section fields.
(** [repr(tp)], [type(value).__name__], and the error of reading a field that has no value. *)
Context (repr_type : pytype → string) (read_error : string → string).

Definition type_name (v : value) : string :=
  match v with
  | PStr _ => "str" | PNone => "NoneType" | PPlain k _ => kind_name k | PEnum c _ => c
  | PSeq is_tuple _ => if is_tuple then "tuple" else "list" | PRec c _ _ => c | PDict _ => "dict" | POther c => c
  end.

Definition record_refusal (cls : string) (bad : option string) : res unit :=
  match bad with Some why => Raise (UndeclarableType (cls +:+ ": " +:+ why)) | None => Ok tt end.

(** ** The paths of a type *)

(** [text_paths]; a declared type is a finite tree here, so it is never recursive. *)
Fixpoint text_paths (tp : pytype) (prefix : string) : res (gset string) :=
  match tp with
  | TStr => Ok {[prefix]}
  | TPlain _ | TNoneType | TEnum _ | TLiteral _ => Ok ∅
  | TUnion arms =>
      (fix go l := match l with
                   | [] => Ok ∅
                   | t :: l' => let! a := text_paths t prefix in let! b := go l' in Ok (a ∪ b)
                   end) arms
  | TSeq _ ok item =>
      if ok then text_paths item (path_join prefix ITEM)
      else Raise (UndeclarableType (repr_type tp +:+ ": only tuple[X, ...] has declarable elements"))
  | TRecord cls _ bad fields =>
      let! _ := record_refusal cls bad in
      (fix go l := match l with
                   | [] => Ok ∅
                   | (name, t) :: l' => let! a := text_paths t (path_join prefix name) in let! b := go l' in Ok (a ∪ b)
                   end) fields
  | TOpaque => Raise (UndeclarableType (repr_type tp +:+ " is not plain data"))
  end.

(** ** The walk *)

Abbreviation texts := (list (string * string)).

(** [texts.update(found)] *)
Definition update_texts (found : texts) (t : texts) : texts := fold_left (λ acc kv, kv_set kv.1 kv.2 acc) found t.

Definition mismatch {A} (path expected : string) (v : value) : res A :=
  Raise (ResultMismatch (or_str (Some path) "the result" +:+ ": declared " +:+ expected +:+ ", got " +:+ type_name v)).

(** [a == b] of two literal constants, and [type(a) is type(b)]. *)
Definition number_repr (k : plain_kind) (r : string) : string :=
  match k with KBool => if String.eqb r "True" then "1" else "0" | _ => r end.
Definition literal_eq (a b : value) : bool :=
  match a, b with
  | PStr x, PStr y => String.eqb x y
  | PNone, PNone => true
  | PPlain k x, PPlain k' y => String.eqb (number_repr k x) (number_repr k' y)
  | PEnum c x, PEnum c' y => String.eqb c c' && String.eqb x y
  | _, _ => false
  end.
Definition same_class (a b : value) : bool := String.eqb (type_name a) (type_name b).
Definition is_literal (v : value) (args : list value) : bool :=
  existsb (same_class v) args && existsb (literal_eq v) args.

Definition seq_takes (kind : seq_kind) (is_tuple : bool) : bool :=
  match kind with SList => negb is_tuple | STuple => is_tuple | SSequence => true end.

Definition is_mismatch (e : exn) : bool := String.eqb (exn_class e) "ResultMismatch".

(** The keys of [value] that the type does not name. *)
Definition stray_keys {A B} (items : list (string * A)) (fields : list (string * B)) : list string :=
  List.filter (λ n, negb (str_in n (map fst fields))) (map fst items).

Section walking.
Context (updates : texts).

Definition Walked : Type := value * texts.

(** The loop over the elements of a sequence, from index [i]. *)
Fixpoint walk_items (walk : value → string → res Walked) (path : string) (i : nat) (items : list value)
    : res (list value * texts) :=
  match items with
  | [] => Ok ([], [])
  | v :: items' =>
      let! cf := walk v (path_join path ("[" +:+ pretty i +:+ "]")) in
      let! rest := walk_items walk path (S i) items' in
      Ok (cf.1 :: rest.1, update_texts rest.2 (update_texts cf.2 []))
  end.

(** The loop over named fields: each with its walker and its value. *)
Fixpoint walk_fields (path : string) (todo : list (string * res (value * (value → string → res Walked))))
    : res (list (string * value) * texts) :=
  match todo with
  | [] => Ok ([], [])
  | (name, job) :: todo' =>
      let! vw := job in
      let! cf := vw.2 vw.1 (path_join path name) in
      let! rest := walk_fields path todo' in
      Ok ((name, cf.1) :: rest.1, update_texts rest.2 (update_texts cf.2 []))
  end.

(** [_read] *)
Definition read_field (fields : list (string * value)) (path name : string) : res value :=
  match od_get name fields with
  | Some v => Ok v
  | None => Raise (ResultMismatch (path_join path name +:+ ": could not be read (" +:+ read_error name +:+ ")"))
  end.

(** [_walk_record], from the walker of each declared field. *)
Definition walk_record (cls : string) (kind : record_kind) (walkers : list (string * (value → string → res Walked)))
    (v : value) (path : string) : res Walked :=
  match kind, v with
  | TypedDict, PDict items =>
      match stray_keys items walkers with
      | [] =>
          let! ct := walk_fields path
            (map (λ kv, (kv.1, match od_get kv.1 walkers with
                               | Some w => Ok (kv.2, w)
                               | None => Raise (Exn "KeyError" kv.1)
                               end)) items) in
          Ok (PDict ct.1, ct.2)
      | _ => Raise (ResultMismatch (or_str (Some path) "the result" +:+ ": keys are not in " +:+ cls))
      end
  | TypedDict, _ => mismatch path cls v
  | _, PRec c vals extra =>
      if negb (String.eqb c cls) then mismatch path cls v
      else match extra with
           | [] =>
               let! ct := walk_fields path
                 (map (λ nw, (nw.1, let! x := read_field vals path nw.1 in Ok (x, nw.2))) walkers) in
               Ok (PRec cls ct.1 [], ct.2)
           | _ => Raise (ResultMismatch (or_str (Some path) "the result" +:+ ": extra fields are not in " +:+ cls))
           end
  | _, _ => mismatch path cls v
  end.

(** [_walk] along the type. *)
Fixpoint walk (tp : pytype) (v : value) (path : string) : res Walked :=
  match tp with
  | TStr => match v with
            | PStr s => Ok (PStr (default s (od_get path updates)), [(path, s)])
            | _ => mismatch path "str" v
            end
  | TNoneType => match v with PNone => Ok (PNone, []) | _ => mismatch path "None" v end
  | TLiteral args => if is_literal v args then Ok (v, []) else mismatch path (repr_type tp) v
  | TUnion arms =>
      (fix go l := match l with
                   | [] => mismatch path (repr_type tp) v
                   | t :: l' => match walk t v path with
                                | Raise e => if is_mismatch e then go l' else Raise e
                                | Ok r => Ok r
                                end
                   end) arms
  | TEnum cls => match v with PEnum c _ => if String.eqb c cls then Ok (v, []) else mismatch path cls v | _ => mismatch path cls v end
  | TPlain k => match v with PPlain k' _ => if decide (k' = k) then Ok (v, []) else mismatch path (kind_name k) v
                | _ => mismatch path (kind_name k) v end
  | TSeq kind _ item =>
      match v with
      | PSeq is_tuple items =>
          if seq_takes kind is_tuple then
            let! ct := walk_items (walk item) path 0 items in Ok (PSeq is_tuple ct.1, ct.2)
          else mismatch path (repr_type tp) v
      | _ => mismatch path (repr_type tp) v
      end
  | TRecord cls kind bad fields =>
      let! _ := record_refusal cls bad in
      walk_record cls kind
        ((fix go (l : list (string * pytype)) := match l with [] => [] | (n, t) :: l' => (n, walk t) :: go l' end) fields) v path
  | TOpaque => mismatch path (repr_type tp) v
  end.
End walking.

(** [_matches] *)
Definition path_segments (p : string) : list string := if str_truthy p then split_char "." p else [].
Definition segment_matches (a b : string) : bool :=
  String.eqb a b || String.eqb a ITEM && startswith "[" b && endswith "]" b.
Fixpoint all2 {A} (f : A → A → bool) (l1 l2 : list A) : bool :=
  match l1, l2 with
  | [], [] => true
  | a :: l1', b :: l2' => f a b && all2 f l1' l2'
  | _, _ => false
  end.
Definition path_matches (pattern concrete : string) : bool :=
  all2 segment_matches (path_segments pattern) (path_segments concrete).

Definition extract_fields (v : value) (tp : pytype) (patterns : list string) : res texts :=
  let! ct := walk [] tp v "" in
  match List.filter (λ kv, negb (existsb (λ p, path_matches p kv.1) patterns)) ct.2 with
  | [] => Ok ct.2
  | _ => Raise (ResultMismatch "text at undeclared path(s)")
  end.

Definition rebuild (v : value) (tp : pytype) (updates : texts) : res value :=
  let! ct := walk updates tp v "" in Ok ct.1.
End fields.

(** ** The catalogue ([foundation/capabilities.py]) *)

(** A method's contract with governance; [confirm] only with effect [write]. *)
Record MethodSpec := {
  ms_effect : string; ms_confirm : option string; ms_fields : list string; ms_content : string; ms_sends_to : option string }.

Definition method_spec_valid (ms : MethodSpec) : res unit :=
  if negb (String.eqb (ms_effect ms) "write") && match ms_confirm ms with Some _ => true | None => false end then
    Raise (Exn "ValueError" "'confirm' only applies to a method with effect: write")
  else Ok tt.

Definition confirm_mode (ms : MethodSpec) : string :=
  if String.eqb (ms_effect ms) "read" then "never" else or_str (ms_confirm ms) "once".

(** The check of a method's [fields] against the text its declared type has. *)
Definition check_fields (repr_type : pytype → string) (ms : MethodSpec) (value_type : pytype) : res unit :=
  match text_paths repr_type value_type "" with
  | Raise e => Raise (Exn "ValueError" (exn_str e))
  | Ok declarable =>
      if decide (list_to_set (ms_fields ms) = declarable) then Ok tt
      else Raise (Exn "ValueError" "'fields' must name every text field of the return type, and only those")
  end.

(** [weather.forecast], the capability the catalogue publishes. *)
Definition ForecastPeriod : pytype :=
  TRecord "ForecastPeriod" Dataclass None
    [("start", TPlain KDatetime); ("end", TPlain KDatetime); ("temperature_c", TPlain KFloat);
     ("precipitation_probability", TUnion [TPlain KFloat; TNoneType]);
     ("wind_speed_kph", TUnion [TPlain KFloat; TNoneType]); ("summary", TStr)].
Definition Forecast : pytype :=
  TRecord "Forecast" Dataclass None
    [("location", TStr); ("issued_at", TPlain KDatetime); ("periods", TSeq STuple true ForecastPeriod)].
Definition forecast_spec : MethodSpec :=
  {| ms_effect := "read"; ms_confirm := None; ms_fields := ["location"; "periods.[].summary"];
     ms_content := "external"; ms_sends_to := Some "external_service" |}.

(** ** What a value says, and what a type fixes *)

Fixpoint strings_of (v : value) : list string :=
  match v with
  | PStr s => [s]
  | PSeq _ items => flat_map strings_of items
  | PRec _ fields _ => flat_map (λ nv, strings_of nv.2) fields
  | PDict items => flat_map (λ nv, strings_of nv.2) items
  | _ => []
  end.

(** The strings a type's [Literal]s name. *)
Fixpoint constants (tp : pytype) : list string :=
  match tp with
  | TLiteral args => flat_map strings_of args
  | TUnion arms => flat_map constants arms
  | TSeq _ _ item => constants item
  | TRecord _ _ _ fields => flat_map (λ nt, constants nt.2) fields
  | _ => []
  end.

Lemma elem_of_flat_map {A B} (f : A → list B) l b : b ∈ flat_map f l ↔ ∃ a, a ∈ l ∧ b ∈ f a.
Proof. rewrite list_elem_of_In, in_flat_map. by setoid_rewrite list_elem_of_In. Qed.

(** ** Text found, by path *)

Definition has_path (t : list (string * string)) (k : string) : Prop := od_get k t ≠ None.

Lemma od_get_update_texts k f t : has_path (update_texts f t) k ↔ has_path f k ∨ has_path t k.
Proof.
  unfold has_path, update_texts. revert t. induction f as [|[k' v] f IH]; intros t; cbn [fold_left]; [simpl; tauto|].
  rewrite IH, od_get_kv_set, od_get_cons. cbn [fst snd].
  assert (Some v ≠ None) by done. destruct (String.eqb k' k); tauto.
Qed.

(** The result of a walk with its copy left out. *)
Definition found (r : res (value * list (string * string))) : res (list (string * string)) :=
  match r with Ok ct => Ok ct.2 | Raise e => Raise e end.
Definition founds {A} (r : res (A * list (string * string))) : res (list (string * string)) :=
  match r with Ok ct => Ok ct.2 | Raise e => Raise e end.

Section walks.
Context (repr_type : pytype → string) (read_error : string → string).
Local Abbreviation walk := (walk repr_type read_error).
Local Abbreviation rebuild := (rebuild repr_type read_error).
Local Abbreviation extract_fields := (extract_fields repr_type read_error).

(** Walkers that find the same text whatever they write. *)
Definition same_finds (w1 w2 : value → string → res Walked) : Prop := ∀ v p, found (w1 v p) = found (w2 v p).

Lemma walk_items_found w1 w2 path i items :
  same_finds w1 w2 → founds (walk_items w1 path i items) = founds (walk_items w2 path i items).
Proof.
  intros Hw. revert i. induction items as [|v items IH]; intros i; cbn [walk_items]; [done|].
  pose proof (Hw v (path_join path ("[" +:+ pretty i +:+ "]"))) as H1. specialize (IH (S i)).
  destruct (w1 v _) as [[c1 t1]|e1], (w2 v _) as [[c2 t2]|e2]; cbn in H1; try done; simplify_eq; cbn [res_bind fst snd]; try done.
  by destruct (walk_items w1 _ _ _) as [[? ?]|], (walk_items w2 _ _ _) as [[? ?]|]; cbn in IH |- *; simplify_eq.
Qed.

(** One field to walk, twice. *)
Definition same_job (j1 j2 : string * res (value * (value → string → res Walked))) : Prop :=
  j1.1 = j2.1 ∧ match j1.2, j2.2 with
                | Ok vw1, Ok vw2 => vw1.1 = vw2.1 ∧ same_finds vw1.2 vw2.2
                | Raise e1, Raise e2 => e1 = e2
                | _, _ => False
                end.

Lemma walk_fields_found path todo1 todo2 :
  Forall2 same_job todo1 todo2 → founds (walk_fields path todo1) = founds (walk_fields path todo2).
Proof.
  induction 1 as [|[n1 j1] [n2 j2] l1 l2 [Hn Hj] _ IH]; cbn [walk_fields]; [done|].
  cbn in Hn, Hj. subst n2. destruct j1 as [[v1 w1]|e1], j2 as [[v2 w2]|e2]; cbn in Hj |- *; try done; [|by subst].
  destruct Hj as [-> Hw]. specialize (Hw v2 (path_join path n1)).
  destruct (w1 _ _) as [[c1 t1]|], (w2 _ _) as [[c2 t2]|]; cbn in Hw |- *; try done; simplify_eq; try done.
  by destruct (walk_fields path l1) as [[? ?]|], (walk_fields path l2) as [[? ?]|]; cbn in IH |- *; simplify_eq.
Qed.

(** Walkers of the same fields. *)
Definition same_walkers (ws1 ws2 : list (string * (value → string → res Walked))) : Prop :=
  Forall2 (λ nw1 nw2, nw1.1 = nw2.1 ∧ same_finds nw1.2 nw2.2) ws1 ws2.

Lemma same_walkers_get ws1 ws2 n :
  same_walkers ws1 ws2 →
  match od_get n ws1, od_get n ws2 with
  | Some w1, Some w2 => same_finds w1 w2
  | None, None => True
  | _, _ => False
  end.
Proof.
  induction 1 as [|[n1 w1] [n2 w2] ws1 ws2 [Hn Hw] _ IH]; [done|]. cbn in Hn. subst n2. rewrite !od_get_cons.
  by destruct (String.eqb n1 n).
Qed.

Lemma same_walkers_names ws1 ws2 : same_walkers ws1 ws2 → map fst ws1 = map fst ws2.
Proof. induction 1 as [|? ? ? ? [Hn _] _ IH]; [done|]. cbn. by rewrite Hn, IH. Qed.

Lemma walk_record_found cls kind ws1 ws2 :
  same_walkers ws1 ws2 → same_finds (walk_record read_error cls kind ws1) (walk_record read_error cls kind ws2).
Proof.
  intros Hs v p. unfold walk_record.
  assert (∀ A (f : list (string * value) → A) todo1 todo2, Forall2 same_job todo1 todo2 →
    founds (let! ct := walk_fields p todo1 in Ok (f ct.1, ct.2)) = founds (let! ct := walk_fields p todo2 in Ok (f ct.1, ct.2))) as Hgo.
  { intros A f todo1 todo2 H%(walk_fields_found p).
    by destruct (walk_fields p todo1) as [[? ?]|], (walk_fields p todo2) as [[? ?]|]; cbn in H |- *; simplify_eq. }
  assert (∀ vals, Forall2 same_job
    (map (λ nw, (nw.1, let! x := read_field read_error vals p nw.1 in Ok (x, nw.2))) ws1)
    (map (λ nw, (nw.1, let! x := read_field read_error vals p nw.1 in Ok (x, nw.2))) ws2)) as Hrec.
  { intros vals. apply Forall2_fmap_2. eapply Forall2_impl; [exact Hs|]. intros [n1 w1] [n2 w2] [Hn Hw].
    cbn in Hn. subst n2. split; [done|]. cbn [fst snd]. by destruct (read_field _ _ _ _). }
  destruct kind; destruct v; try done; try (destruct (negb _); [done|]; destruct extra; [|done]; apply (Hgo _ (λ l, PRec _ l [])), Hrec).
  unfold stray_keys. rewrite (same_walkers_names ws1 ws2 Hs). destruct (List.filter _ _); [|done].
  apply (Hgo _ PDict), Forall2_fmap_2, Forall_Forall2_diag, Forall_true. intros [n x]. split; [done|]. cbn [fst snd].
  pose proof (same_walkers_get ws1 ws2 n Hs). by destruct (od_get n ws1), (od_get n ws2).
Qed.

(** The walkers of a record's fields. *)
Definition walkers (u : list (string * string)) : list (string * pytype) → list (string * (value → string → res Walked)) :=
  fix go l := match l with [] => [] | (n, t) :: l' => (n, walk u t) :: go l' end.

Lemma walk_record_eq u cls kind bad fields v path :
  walk u (TRecord cls kind bad fields) v path =
  let! _ := record_refusal cls bad in walk_record read_error cls kind (walkers u fields) v path.
Proof. reflexivity. Qed.

(** The text a walk finds, and whether it refuses, do not depend on the text it writes. *)
Lemma walk_found u1 u2 tp : same_finds (walk u1 tp) (walk u2 tp).
Proof.
  induction tp as [| |args|arms IH|cls|k|kind ok item IH|cls kind bad fields IH|] using pytype_ind'; intros v p;
    [by destruct v|by destruct v|by cbn; destruct (is_literal _ _)| | | | | |done].
  - cbn [CapabilityFields.walk]. generalize (repr_type (TUnion arms)) as full. intros full. induction IH as [|t arms Ht _ IH]; [done|]. cbn iota beta. specialize (Ht v p).
    destruct (walk u1 t v p) as [[c1 t1]|e1], (walk u2 t v p) as [[c2 t2]|e2]; cbn in Ht; try done; simplify_eq; try done.
    by destruct (is_mismatch _).
  - by destruct v.
  - by destruct v.
  - destruct v; try done. cbn [CapabilityFields.walk]. destruct (seq_takes _ _); [|done].
    pose proof (walk_items_found (walk u1 item) (walk u2 item) p 0 items IH) as H.
    by destruct (walk_items (walk u1 item) _ _ _) as [[? ?]|], (walk_items (walk u2 item) _ _ _) as [[? ?]|]; cbn in H |- *; simplify_eq.
  - rewrite !walk_record_eq. destruct (record_refusal cls bad) as [[]|e]; [|done]. cbn [res_bind].
    apply walk_record_found. induction IH as [|[n t] fields Ht _ IH]; constructor; done.
Qed.
End walks.

(** ** A walk as a derivation *)

Definition is_leaf (tp : pytype) : bool :=
  match tp with TNoneType | TLiteral _ | TEnum _ | TPlain _ => true | _ => false end.

(** A field to walk: its name, its declared type and its value. *)
Definition field_job : Type := string * pytype * value.

Section derivation.
Context (u : list (string * string)).
Local Abbreviation texts := (list (string * string)).

Inductive walks : pytype → value → string → value → texts → Prop :=
| walks_str s p : walks TStr (PStr s) p (PStr (default s (od_get p u))) [(p, s)]
| walks_leaf tp v p :
    is_leaf tp = true → (∀ s, s ∈ strings_of v → s ∈ constants tp) → walks tp v p v []
| walks_arm t arms v p c f : t ∈ arms → walks t v p c f → walks (TUnion arms) v p c f
| walks_seq kind ok item b items p cs f :
    walked_items item p 0 items cs f → walks (TSeq kind ok item) (PSeq b items) p (PSeq b cs) f
| walks_dict cls bad fields jobs p cs f :
    (∀ n t x, (n, t, x) ∈ jobs → (n, t) ∈ fields) → walked_fields p jobs cs f →
    walks (TRecord cls TypedDict bad fields) (PDict (map (λ j : field_job, (j.1.1, j.2)) jobs)) p (PDict cs) f
| walks_rec cls kind bad jobs vals p cs f :
    (∀ n t x, (n, t, x) ∈ jobs → od_get n vals = Some x) → walked_fields p jobs cs f →
    walks (TRecord cls kind bad (map fst jobs)) (PRec cls vals []) p (PRec cls cs []) f
with walked_items : pytype → string → nat → list value → list value → texts → Prop :=
| walked_items_nil item p i : walked_items item p i [] [] []
| walked_items_cons item p i v items c f cs g :
    walks item v (path_join p ("[" +:+ pretty i +:+ "]")) c f → walked_items item p (S i) items cs g →
    walked_items item p i (v :: items) (c :: cs) (update_texts g (update_texts f []))
with walked_fields : string → list field_job → list (string * value) → texts → Prop :=
| walked_fields_nil p : walked_fields p [] [] []
| walked_fields_cons p n t x jobs c f cs g :
    walks t x (path_join p n) c f → walked_fields p jobs cs g →
    walked_fields p ((n, t, x) :: jobs) ((n, c) :: cs) (update_texts g (update_texts f [])).
End derivation.

Scheme walks_mind := Minimality for walks Sort Prop
  with walked_items_mind := Minimality for walked_items Sort Prop
  with walked_fields_mind := Minimality for walked_fields Sort Prop.
Combined Scheme walks_mutind from walks_mind, walked_items_mind, walked_fields_mind.

Lemma literal_constants v args s : is_literal v args = true → s ∈ strings_of v → s ∈ flat_map strings_of args.
Proof.
  unfold is_literal. intros [_ (a & Ha%list_elem_of_In & Heq)%existsb_exists]%andb_true_iff Hs.
  apply elem_of_flat_map. exists a. split; [done|]. destruct v, a; cbn in Heq, Hs |- *; try done; try (by apply elem_of_nil in Hs).
  apply String.eqb_eq in Heq as ->. done.
Qed.

Section derive.
Context (repr_type : pytype → string) (read_error : string → string) (u : list (string * string)).
Local Abbreviation walk := (walk repr_type read_error).

(** What a walk returns is derivable. *)
Definition derives (tp : pytype) : Prop := ∀ v p ct, walk u tp v p = Ok ct → walks u tp v p ct.1 ct.2.

Lemma items_derive item p i items ct :
  derives item → walk_items (walk u item) p i items = Ok ct → walked_items u item p i items ct.1 ct.2.
Proof.
  intros Hd. revert i ct. induction items as [|v items IH]; intros i ct; cbn [walk_items]; [intros [= <-]; constructor|].
  intros ([c f] & Hw & H)%res_bind_ok. apply res_bind_ok in H as ([cs g] & Hr & [= <-]). cbn [fst snd].
  constructor; [exact (Hd _ _ _ Hw)|exact (IH _ _ Hr)].
Qed.

(** Typed jobs, as the walk has them. *)
Definition job_walk (j : field_job) : string * res (value * (value → string → res Walked)) :=
  (j.1.1, Ok (j.2, walk u j.1.2)).

Lemma fields_derive p jobs ct :
  Forall (λ j : field_job, derives j.1.2) jobs → walk_fields p (map job_walk jobs) = Ok ct → walked_fields u p jobs ct.1 ct.2.
Proof.
  intros Hd. revert ct. induction Hd as [|[[n t] x] jobs Hj _ IH]; intros ct; cbn [map walk_fields]; [intros [= <-]; constructor|].
  cbn [job_walk fst snd res_bind]. intros ([c f] & Hw & H)%res_bind_ok. apply res_bind_ok in H as ([cs g] & Hr & [= <-]).
  constructor; [exact (Hj _ _ _ Hw)|exact (IH _ Hr)].
Qed.

(** A loop over jobs that went through had a value for each. *)
Lemma walk_fields_jobs {A} p (name : A → string) (job : A → res (value * (value → string → res Walked))) l ct :
  walk_fields p (map (λ a, (name a, job a)) l) = Ok ct → Forall (λ a, ∃ vw, job a = Ok vw) l.
Proof.
  revert ct. induction l as [|a l IH]; intros ct; cbn [map walk_fields]; [constructor|].
  intros (vw & Hj & H)%res_bind_ok. apply res_bind_ok in H as (cf & _ & H). apply res_bind_ok in H as (rest & Hr & _).
  constructor; [by exists vw|]. by eapply IH.
Qed.

Lemma walkers_get n fields w :
  od_get n (walkers repr_type read_error u fields) = Some w → ∃ t, (n, t) ∈ fields ∧ w = walk u t.
Proof.
  induction fields as [|[n' t] fields IH]; [done|]. cbn -[od_get]. rewrite od_get_cons. destruct (String.eqb_spec n' n) as [->|].
  - intros [= <-]. exists t. split; [by left|done].
  - intros (t' & Ht & ->)%IH. exists t'. split; [by right|done].
Qed.

(** The jobs of a [TypedDict]'s items. *)
Lemma dict_jobs fields items :
  Forall (λ kv : string * value, ∃ vw, match od_get kv.1 (walkers repr_type read_error u fields) with
                      | Some w => Ok (kv.2, w)
                      | None => Raise (Exn "KeyError" kv.1)
                      end = Ok vw) items →
  ∃ jobs, items = map (λ j : field_job, (j.1.1, j.2)) jobs ∧ (∀ n t x, (n, t, x) ∈ jobs → (n, t) ∈ fields) ∧
    map (λ kv : string * value, (kv.1, match od_get kv.1 (walkers repr_type read_error u fields) with
                      | Some w => Ok (kv.2, w)
                      | None => Raise (Exn "KeyError" kv.1)
                      end)) items = map job_walk jobs.
Proof.
  induction 1 as [|[n x] items (vw & Hn) _ (jobs & -> & Hin & Hm)].
  { exists []. split_and!; [done| |done]. intros n t x Hx. by apply elem_of_nil in Hx. }
  cbn [fst snd] in Hn. destruct (od_get n _) as [w|] eqn:Hw; [|done]. destruct (walkers_get n fields w Hw) as (t & Ht & ->).
  exists ((n, t, x) :: jobs). split_and!; [done| |].
  - intros n' t' x' [[= -> -> ->]|H]%elem_of_cons; [done|by eapply Hin].
  - cbn [map fst snd]. by rewrite Hw, Hm.
Qed.

(** The jobs of a record's declared fields. *)
Lemma record_jobs fields vals p :
  Forall (λ nw : string * (value → string → res Walked),
    ∃ vw, (let! x := read_field read_error vals p nw.1 in Ok (x, nw.2)) = Ok vw) (walkers repr_type read_error u fields) →
  ∃ jobs, map fst jobs = fields ∧ (∀ n t x, (n, t, x) ∈ jobs → od_get n vals = Some x) ∧
    map (λ nw : string * (value → string → res Walked), (nw.1, let! x := read_field read_error vals p nw.1 in Ok (x, nw.2)))
      (walkers repr_type read_error u fields) = map job_walk jobs.
Proof.
  induction fields as [|[n t] fields IH]; cbn -[od_get].
  { exists []. split_and!; [done| |done]. intros n t x Hx. by apply elem_of_nil in Hx. }
  intros [(vw & Hx) Hr]%Forall_cons. destruct (IH Hr) as (jobs & <- & Hin & Hm). cbn [fst snd] in Hx.
  apply res_bind_ok in Hx as (x & Hx & _). exists ((n, t, x) :: jobs). split_and!; [done| |].
  - intros n' t' x' [[= -> -> ->]|H]%elem_of_cons; [|by eapply Hin]. unfold read_field in Hx.
    by destruct (od_get n vals); simplify_eq.
  - cbn [map]. f_equal; [|done]. cbn. by rewrite Hx.
Qed.

Lemma jobs_derive fields (jobs : list field_job) :
  Forall (λ nt, derives nt.2) fields → (∀ n t x, (n, t, x) ∈ jobs → (n, t) ∈ fields) → Forall (λ j : field_job, derives j.1.2) jobs.
Proof.
  intros Hf Hin. apply Forall_forall. intros [[n t] x] Hj. apply Hin in Hj. by apply (proj1 (Forall_forall _ _) Hf (n, t)).
Qed.

Lemma record_derives cls kind bad fields :
  Forall (λ nt, derives nt.2) fields → derives (TRecord cls kind bad fields).
Proof.
  intros Hf v p ct. rewrite walk_record_eq. intros ([] & _ & H)%res_bind_ok. unfold walk_record in H.
  assert (∀ vals extra c, v = PRec c vals extra → kind ≠ TypedDict →
    (if negb (String.eqb c cls) then mismatch p cls v else match extra with
     | [] => let! ct := walk_fields p (map (λ nw, (nw.1, let! x := read_field read_error vals p nw.1 in Ok (x, nw.2)))
                (walkers repr_type read_error u fields)) in Ok (PRec cls ct.1 [], ct.2)
     | _ => Raise (ResultMismatch (or_str (Some p) "the result" +:+ ": extra fields are not in " +:+ cls)) end) = Ok ct →
    walks u (TRecord cls kind bad fields) v p ct.1 ct.2) as Hrec.
  { intros vals extra c -> _ He. destruct (String.eqb_spec c cls) as [Heq|]; [subst c|done]. destruct extra; [|done].
    apply res_bind_ok in He as (cg & Hw & [= <-]). pose proof (walk_fields_jobs _ _ _ _ _ Hw) as Hj.
    destruct (record_jobs fields vals p Hj) as (jobs & <- & Hin & Hm). rewrite Hm in Hw.
    constructor; [done|]. apply fields_derive; [|done]. eapply jobs_derive; [exact Hf|].
    intros n t x Hx. apply list_elem_of_fmap. by exists (n, t, x). }
  destruct kind; destruct v as [| | | | |c vals extra|items|]; try done; try by eapply Hrec.
  destruct (stray_keys _ _); [|done]. apply res_bind_ok in H as (cg & Hw & [= <-]).
  pose proof (walk_fields_jobs _ _ _ _ _ Hw) as Hj. destruct (dict_jobs fields items Hj) as (jobs & -> & Hin & Hm).
  rewrite Hm in Hw. constructor; [done|]. apply fields_derive; [|done]. by eapply jobs_derive.
Qed.

Lemma walk_walks tp : derives tp.
Proof.
  induction tp as [| |args|arms IH|cls|k|kind ok item IH|cls kind bad fields IH|] using pytype_ind'; intros v p ct; cbn [CapabilityFields.walk].
  - destruct v; try done. intros [= <-]. constructor.
  - destruct v; try done. intros [= <-]. constructor; [done|]. intros s Hs. by apply elem_of_nil in Hs.
  - destruct (is_literal v args) eqn:Hl; [|done]. intros [= <-]. constructor; [done|]. intros s. by apply literal_constants.
  - generalize (repr_type (TUnion arms)). intros full H.
    assert (∃ t, t ∈ arms ∧ walks u t v p ct.1 ct.2) as (t & Ht & Hw) by
      (induction IH as [|t arms Ht _ IH]; [done|]; cbn iota beta in H; destruct (walk u t v p) as [ct'|e] eqn:Hw;
       [injection H as ->; exists t; split; [by left|by apply Ht]|];
       destruct (is_mismatch e); [|done]; destruct (IH H) as (t' & ? & ?); exists t'; split; [by right|done]).
    by eapply walks_arm.
  - destruct v; try done. destruct (String.eqb _ _); [|done]. intros [= <-]. constructor; [done|].
    intros s Hs. by apply elem_of_nil in Hs.
  - destruct v; try done. destruct (decide _); [|done]. intros [= <-]. constructor; [done|].
    intros s Hs. by apply elem_of_nil in Hs.
  - destruct v; try done. destruct (seq_takes _ _); [|done]. intros (ct' & Hw & [= <-])%res_bind_ok.
    constructor. by apply items_derive.
  - by apply record_derives.
  - done.
Qed.
End derive.

(** ** Text put together *)

Lemma od_get_update f t k :
  NoDup (map fst f) → od_get k (update_texts f t) = match od_get k f with Some s => Some s | None => od_get k t end.
Proof.
  unfold update_texts. revert t. induction f as [|[k' s] f IH]; intros t; cbn [fold_left map fst]; [done|].
  intros [Hk Hnd]%NoDup_cons. rewrite IH by done. rewrite od_get_cons, od_get_kv_set. cbn [fst snd].
  destruct (String.eqb_spec k' k) as [->|]; [|done].
  by rewrite (proj1 (od_get_None k f) Hk).
Qed.

Lemma update_texts_nodup f t : NoDup (map fst t) → NoDup (map fst (update_texts f t)).
Proof.
  unfold update_texts. revert t. induction f as [|[k s] f IH]; intros t Ht; cbn [fold_left]; [done|].
  by apply IH, kv_set_nodup.
Qed.

Definition merged (f g : list (string * string)) : list (string * string) := update_texts g (update_texts f []).

Lemma has_path_merged f g k : has_path (merged f g) k ↔ has_path f k ∨ has_path g k.
Proof. unfold merged. rewrite !od_get_update_texts. unfold has_path at 3. simpl. tauto. Qed.

Lemma od_get_merged f g k :
  NoDup (map fst f) → NoDup (map fst g) →
  od_get k (merged f g) = match od_get k g with Some s => Some s | None => od_get k f end.
Proof.
  intros Hf Hg. unfold merged. rewrite !od_get_update by done. destruct (od_get k g); [done|]. by destruct (od_get k f).
Qed.

Lemma walks_nodup u :
  (∀ tp v p c f, walks u tp v p c f → NoDup (map fst f)) ∧
  (∀ item p i items cs f, walked_items u item p i items cs f → NoDup (map fst f)) ∧
  (∀ p jobs cs f, walked_fields u p jobs cs f → NoDup (map fst f)).
Proof.
  apply walks_mutind; intros; try done; try apply NoDup_nil_2; try apply NoDup_singleton;
    apply update_texts_nodup, update_texts_nodup, NoDup_nil_2.
Qed.

(** ** What the consumer's copy says *)

Section copies.
Context (u : list (string * string)).

(** Text handed over for a path that was found. *)
Definition handed (f : list (string * string)) (s : string) : Prop := ∃ k, has_path f k ∧ od_get k u = Some s.

Lemma handed_merged f g s : handed f s ∨ handed g s → handed (merged f g) s.
Proof. intros [(k & Hk & Hs)|(k & Hk & Hs)]; exists k; rewrite has_path_merged; auto. Qed.

Definition covers (f : list (string * string)) : Prop := ∀ k, has_path f k → has_path u k.
Lemma covers_merged f g : covers (merged f g) → covers f ∧ covers g.
Proof. intros H. split; intros k Hk; apply H, has_path_merged; auto. Qed.

Lemma walks_given :
  (∀ tp v p c f, walks u tp v p c f → covers f → ∀ s, s ∈ strings_of c → handed f s ∨ s ∈ constants tp) ∧
  (∀ item p i items cs f, walked_items u item p i items cs f → covers f →
    ∀ s, s ∈ flat_map strings_of cs → handed f s ∨ s ∈ constants item) ∧
  (∀ p jobs cs f, walked_fields u p jobs cs f → covers f →
    ∀ s, s ∈ flat_map (λ nv, strings_of nv.2) cs → handed f s ∨ ∃ n t x, (n, t, x) ∈ jobs ∧ s ∈ constants t).
Proof.
  apply walks_mutind.
  - intros s p Hc s' ->%list_elem_of_singleton. left. assert (has_path [(p, s)] p) as Hp by (unfold has_path; by rewrite od_get_cons, string_eqb_refl).
    exists p. split; [done|]. specialize (Hc p Hp). unfold has_path in Hc. by destruct (od_get p u).
  - intros tp v p Hl Hv _ s Hs. right. by apply Hv.
  - intros t arms v p c f Ht _ IH Hc s Hs. destruct (IH Hc s Hs) as [|Hk]; [by left|]. right. apply elem_of_flat_map. by exists t.
  - intros kind ok item b items p cs f _ IH Hc s Hs. by apply IH.
  - intros cls bad fields jobs p cs f Hin _ IH Hc s Hs. destruct (IH Hc s Hs) as [|(n & t & x & Hj & Hk)]; [by left|].
    right. apply elem_of_flat_map. exists (n, t). split; [by eapply Hin|done].
  - intros cls kind bad jobs vals p cs f Hin _ IH Hc s Hs. destruct (IH Hc s Hs) as [|(n & t & x & Hj & Hk)]; [by left|].
    right. apply elem_of_flat_map. exists (n, t). split; [|done]. apply list_elem_of_fmap. by exists (n, t, x).
  - intros ? ? ? _ s Hs. by apply elem_of_nil in Hs.
  - intros item p i v items c f cs g _ IHv _ IH [Hf Hg]%covers_merged s [Hs|Hs]%elem_of_app.
    + destruct (IHv Hf s Hs); [left; apply handed_merged|]; auto.
    + destruct (IH Hg s Hs); [left; apply handed_merged|]; auto.
  - intros ? _ s Hs. by apply elem_of_nil in Hs.
  - intros p n t x jobs c f cs g _ IHv _ IH [Hf Hg]%covers_merged s [Hs|Hs]%elem_of_app.
    + destruct (IHv Hf s Hs); [left; apply handed_merged; auto|]. right. exists n, t, x. split; [by left|done].
    + destruct (IH Hg s Hs) as [|(n' & t' & x' & Hj & Hk)]; [left; apply handed_merged; auto|].
      right. exists n', t', x'. split; [by right|done].
Qed.
End copies.

(** ** Paths *)

Definition plain_name (n : string) : bool := str_truthy n && negb (str_any (Ascii.eqb ".") n).

(** Field names without dots, each once in its record. *)
Fixpoint plain_names (tp : pytype) : bool :=
  match tp with
  | TUnion arms => forallb plain_names arms
  | TSeq _ _ item => plain_names item
  | TRecord _ _ _ fields =>
      bool_decide (NoDup (map fst fields)) && forallb (λ nt, plain_name nt.1 && plain_names nt.2) fields
  | _ => true
  end.

Local Abbreviation index i := ("[" +:+ pretty (i : nat) +:+ "]").

Lemma plain_index i : plain_name (index i) = true.
Proof.
  unfold plain_name. apply andb_true_iff. split; [done|]. rewrite negb_true_iff, !str_any_app. cbn [str_any].
  rewrite (digits_free "." (pretty i)); [done|done|]. unfold pretty, pretty_nat.
  destruct (int_of_pretty (N.of_nat i)) as [H _]. unfold isdigit in H. by apply andb_true_iff in H as [_ H].
Qed.

Lemma index_inj i j : index i = index j → i = j.
Proof.
  intros H. assert (rpartition "]" (index i) = rpartition "]" (index j)) as Hr by (by rewrite H).
  rewrite <- !string_app_assoc, !(rpartition_app "]" _ "") in Hr by done. injection Hr as Hr.
  by apply (inj pretty).
Qed.

Lemma segments_join p n : plain_name n = true → path_segments (path_join p n) = path_segments p ++ [n].
Proof.
  unfold plain_name. intros [Ht Hd%negb_true_iff]%andb_true_iff. unfold path_join, path_segments.
  destruct (str_truthy p) eqn:Hp; [|by rewrite Ht, split_char_no_sep].
  assert (str_truthy (p +:+ "." +:+ n) = true) as -> by (by destruct p).
  change ("." +:+ n) with (String "." n). by rewrite split_char_sep, (split_char_no_sep _ _ Hd).
Qed.

Lemma all2_app {A} (f : A → A → bool) l1 l2 a b : all2 f l1 l2 = true → f a b = true → all2 f (l1 ++ [a]) (l2 ++ [b]) = true.
Proof.
  revert l2. induction l1 as [|x l1 IH]; intros [|y l2]; cbn [all2 app]; try done.
  - by intros _ ->.
  - intros [-> Hl]%andb_true_iff Hab. by apply IH.
Qed.

Lemma path_matches_join q p a b :
  plain_name a = true → plain_name b = true → path_matches q p = true → segment_matches a b = true →
  path_matches (path_join q a) (path_join p b) = true.
Proof. intros Ha Hb Hqp Hab. unfold path_matches. rewrite !segments_join by done. by apply all2_app. Qed.

Lemma item_matches i : segment_matches ITEM (index i) = true.
Proof.
  unfold segment_matches. apply orb_true_iff. right. apply andb_true_iff. split; [unfold startswith; apply prefix_spec; by eexists|].
  apply endswith_spec. exists ("[" +:+ pretty i). symmetry. apply string_app_assoc.
Qed.

Section patterns.
Context (repr_type : pytype → string) (u : list (string * string)).
Local Abbreviation text_paths := (text_paths repr_type).

(** Every text a walk finds is at a path the type declares. *)
Definition declared (ps : gset string) (f : list (string * string)) : Prop :=
  ∀ k, has_path f k → ∃ pat, pat ∈ ps ∧ path_matches pat k = true.

Lemma declared_merged ps f g : declared ps f → declared ps g → declared ps (merged f g).
Proof. intros Hf Hg k [Hk|Hk]%has_path_merged; auto. Qed.
Lemma declared_nil ps : declared ps [].
Proof. intros k Hk. by destruct Hk. Qed.
Lemma declared_subseteq ps ps' f : ps ⊆ ps' → declared ps f → declared ps' f.
Proof. intros Hs Hf k Hk. destruct (Hf k Hk) as (pat & ? & ?). exists pat. split; [set_solver|done]. Qed.

Lemma arm_paths t arms q ps :
  text_paths (TUnion arms) q = Ok ps → t ∈ arms → ∃ ps', text_paths t q = Ok ps' ∧ ps' ⊆ ps.
Proof.
  cbn [CapabilityFields.text_paths]. revert ps. induction arms as [|a arms IH]; intros ps; [intros _ H; by apply elem_of_nil in H|].
  cbn iota beta. intros (pa & Ha & H)%res_bind_ok. apply res_bind_ok in H as (pb & Hb & [= <-]).
  intros [->|Ht]%elem_of_cons; [exists pa; split; [done|set_solver]|].
  destruct (IH pb Hb Ht) as (ps' & ? & ?). exists ps'. split; [done|set_solver].
Qed.

Lemma field_paths n t cls kind bad fields q ps :
  text_paths (TRecord cls kind bad fields) q = Ok ps → (n, t) ∈ fields →
  ∃ ps', text_paths t (path_join q n) = Ok ps' ∧ ps' ⊆ ps.
Proof.
  cbn [CapabilityFields.text_paths]. intros ([] & _ & H)%res_bind_ok. revert ps H.
  induction fields as [|[n' a] fields IH]; intros ps; [intros _ H; by apply elem_of_nil in H|].
  cbn iota beta. intros (pa & Ha & H)%res_bind_ok. apply res_bind_ok in H as (pb & Hb & [= <-]).
  intros [[= -> ->]|Ht]%elem_of_cons; [exists pa; split; [done|set_solver]|].
  destruct (IH pb Hb Ht) as (ps' & ? & ?). exists ps'. split; [done|set_solver].
Qed.

Lemma plain_field n t cls kind bad fields :
  plain_names (TRecord cls kind bad fields) = true → (n, t) ∈ fields → plain_name n = true ∧ plain_names t = true.
Proof.
  cbn [plain_names]. intros [_ H]%andb_true_iff Hin%list_elem_of_In. apply forallb_forall with (x := (n, t)) in H; [|done].
  by apply andb_true_iff in H.
Qed.

Lemma plain_arm t arms : plain_names (TUnion arms) = true → t ∈ arms → plain_names t = true.
Proof. cbn [plain_names]. intros H Hin%list_elem_of_In. by apply forallb_forall with (x := t) in H. Qed.

Lemma segment_matches_refl n : segment_matches n n = true.
Proof. unfold segment_matches. by rewrite string_eqb_refl. Qed.

Lemma walks_declared :
  (∀ tp v p c f, walks u tp v p c f → plain_names tp = true → ∀ q ps, path_matches q p = true →
    text_paths tp q = Ok ps → declared ps f) ∧
  (∀ item p i items cs f, walked_items u item p i items cs f → plain_names item = true → ∀ q ps, path_matches q p = true →
    text_paths item (path_join q ITEM) = Ok ps → declared ps f) ∧
  (∀ p jobs cs f, walked_fields u p jobs cs f → ∀ q ps, path_matches q p = true →
    (∀ n t x, (n, t, x) ∈ jobs → plain_name n = true ∧ plain_names t = true ∧
       ∃ ps', text_paths t (path_join q n) = Ok ps' ∧ ps' ⊆ ps) → declared ps f).
Proof.
  apply walks_mutind.
  - intros s p _ q ps Hq [= <-] k Hk. exists q. split; [set_solver|]. unfold has_path in Hk.
    rewrite od_get_cons in Hk. by destruct (String.eqb_spec p k) as [->|].
  - intros tp v p Hl _ _ q ps _ _. apply declared_nil.
  - intros t arms v p c f Ht _ IH Hp q ps Hq Hps. destruct (arm_paths t arms q ps Hps Ht) as (ps' & Hps' & Hsub).
    apply (declared_subseteq ps'); [done|]. eapply IH; [by eapply plain_arm|done|done].
  - intros kind ok item b items p cs f _ IH Hp q ps Hq Hps. cbn [CapabilityFields.text_paths] in Hps. destruct ok; [|done].
    by eapply IH.
  - intros cls bad fields jobs p cs f Hin _ IH Hp q ps Hq Hps. apply (IH q ps Hq). intros n t x Hj%Hin.
    destruct (plain_field _ _ _ _ _ _ Hp Hj). split_and!; [done|done|]. by eapply field_paths.
  - intros cls kind bad jobs vals p cs f Hin _ IH Hp q ps Hq Hps. apply (IH q ps Hq). intros n t x Hj.
    assert ((n, t) ∈ map fst jobs) as Hf by (apply list_elem_of_fmap; by exists (n, t, x)).
    destruct (plain_field _ _ _ _ _ _ Hp Hf). split_and!; [done|done|]. by eapply field_paths.
  - intros ? ? ? _ q ps _ _. apply declared_nil.
  - intros item p i v items c f cs g _ IHv _ IH Hp q ps Hq Hps. apply declared_merged; [|by eapply IH].
    apply (IHv Hp (path_join q ITEM)); [|done]. apply path_matches_join; [done|apply plain_index|done|apply item_matches].
  - intros ? q ps _ _. apply declared_nil.
  - intros p n t x jobs c f cs g _ IHv _ IH q ps Hq Hj. destruct (Hj n t x) as (Hn & Ht & ps' & Hps' & Hsub); [by left|].
    apply declared_merged.
    + apply (declared_subseteq ps'); [done|]. apply (IHv Ht (path_join q n)); [|done].
      apply path_matches_join; [done|done|done|apply segment_matches_refl].
    + apply (IH q ps Hq). intros n' t' x' H. apply (Hj n' t' x'). by right.
Qed.
End patterns.

(** ** Each text has a path of its own *)

(** A dict's keys are distinct. *)
Fixpoint dict_keys_ok (v : value) : bool :=
  match v with
  | PSeq _ items => forallb dict_keys_ok items
  | PRec _ fields _ => forallb (λ nv, dict_keys_ok nv.2) fields
  | PDict items => bool_decide (NoDup (map fst items)) && forallb (λ nv, dict_keys_ok nv.2) items
  | _ => true
  end.

(** The same data: a record's declared fields, in any order, and nothing beside them. *)
Inductive same_data : value → value → Prop :=
| same_leaf v : same_data v v
| same_seq b l l' : Forall2 same_data l l' → same_data (PSeq b l) (PSeq b l')
| same_dict l l' : Forall2 (λ kv kv', kv.1 = kv'.1 ∧ same_data kv.2 kv'.2) l l' → same_data (PDict l) (PDict l')
| same_rec cls vals vals' :
    Forall (λ kv', ∃ x, od_get kv'.1 vals = Some x ∧ same_data x kv'.2) vals' →
    same_data (PRec cls vals []) (PRec cls vals' []).

Lemma od_get_in {A} k (d : list (string * A)) x : od_get k d = Some x → (k, x) ∈ d.
Proof.
  induction d as [|[k' y] d IH]; [done|]. rewrite od_get_cons. destruct (String.eqb_spec k' k) as [->|]; [intros [= ->]; by left|].
  intros H. right. by apply IH.
Qed.

Section own_paths.
Context (u : list (string * string)).
Local Abbreviation plain_job j := (plain_name (j : field_job).1.1 && plain_names j.1.2).

Lemma walks_paths :
  (∀ tp v p c f, walks u tp v p c f → plain_names tp = true → ∀ k, has_path f k →
    ∃ rest, path_segments k = path_segments p ++ rest) ∧
  (∀ item p i items cs f, walked_items u item p i items cs f → plain_names item = true → ∀ k, has_path f k →
    ∃ j rest, i ≤ j ∧ path_segments k = path_segments p ++ index j :: rest) ∧
  (∀ p jobs cs f, walked_fields u p jobs cs f → (∀ j, j ∈ jobs → plain_job j = true) → ∀ k, has_path f k →
    ∃ n rest, n ∈ map (λ j : field_job, j.1.1) jobs ∧ path_segments k = path_segments p ++ n :: rest).
Proof.
  apply walks_mutind.
  - intros s p _ k Hk. exists []. unfold has_path in Hk. rewrite od_get_cons in Hk.
    destruct (String.eqb_spec p k) as [->|]; [by rewrite app_nil_r|done].
  - intros tp v p _ _ _ k Hk. by destruct Hk.
  - intros t arms v p c f Ht _ IH Hp. apply IH. by eapply plain_arm.
  - intros kind ok item b items p cs f _ IH Hp k Hk. destruct (IH Hp k Hk) as (j & rest & _ & ->). by eexists.
  - intros cls bad fields jobs p cs f Hin _ IH Hp k Hk. destruct (λ H, IH H k Hk) as (n & rest & _ & ->); [|by eexists].
    intros [[n t] x] Hj%Hin. destruct (plain_field _ _ _ _ _ _ Hp Hj) as [H1 H2]. cbn. by rewrite H1, H2.
  - intros cls kind bad jobs vals p cs f Hin _ IH Hp k Hk. destruct (λ H, IH H k Hk) as (n & rest & _ & ->); [|by eexists].
    intros [[n t] x] Hj. assert ((n, t) ∈ map fst jobs) as Hf by (apply list_elem_of_fmap; by exists (n, t, x)).
    destruct (plain_field _ _ _ _ _ _ Hp Hf) as [H1 H2]. cbn. by rewrite H1, H2.
  - intros ? ? ? _ k Hk. by destruct Hk.
  - intros item p i v items c f cs g _ IHv _ IH Hp k [Hk|Hk]%has_path_merged.
    + destruct (IHv Hp k Hk) as (rest & ->). rewrite (segments_join p (index i) (plain_index i)), <- app_assoc. by exists i, rest.
    + destruct (IH Hp k Hk) as (j & rest & ? & ->). exists j, rest. split; [lia|done].
  - intros ? _ k Hk. by destruct Hk.
  - intros p n t x jobs c f cs g _ IHv _ IH Hj k [Hk|Hk]%has_path_merged.
    + destruct (proj1 (andb_true_iff _ _) (Hj (n, t, x) ltac:(left))) as [Hn Ht]. cbn in Hn, Ht.
      destruct (IHv Ht k Hk) as (rest & ->). rewrite (segments_join p n Hn), <- app_assoc. exists n, rest. split; [by left|done].
    + destruct (IH (λ j H, Hj j (list_elem_of_further _ _ _ H)) k Hk) as (n' & rest & Hn' & ->). exists n', rest. split; [by right|done].
Qed.

Definition sub (f h : list (string * string)) : Prop := ∀ k s, od_get k f = Some s → od_get k h = Some s.

Lemma merged_sub f g :
  NoDup (map fst f) → NoDup (map fst g) → (∀ k, has_path f k → has_path g k → False) →
  sub f (merged f g) ∧ sub g (merged f g).
Proof.
  intros Hf Hg Hd. split; intros k s Hk; rewrite od_get_merged by done; [|by rewrite Hk].
  destruct (od_get k g) eqn:E; [|done]. destruct (Hd k); unfold has_path; congruence.
Qed.

(** What is written where it was found is what was there. *)
Definition written_back (f : list (string * string)) : Prop := ∀ k s, od_get k f = Some s → default s (od_get k u) = s.

Lemma written_merged f g :
  NoDup (map fst f) → NoDup (map fst g) → (∀ k, has_path f k → has_path g k → False) →
  written_back (merged f g) → written_back f ∧ written_back g.
Proof. intros Hf Hg Hd Hw. destruct (merged_sub f g Hf Hg Hd) as [Hs1 Hs2]. split; intros k s Hk; apply Hw; auto. Qed.

Lemma walks_copy :
  (∀ tp v p c f, walks u tp v p c f → plain_names tp = true → dict_keys_ok v = true → written_back f → same_data v c) ∧
  (∀ item p i items cs f, walked_items u item p i items cs f → plain_names item = true →
    forallb dict_keys_ok items = true → written_back f → Forall2 same_data items cs) ∧
  (∀ p jobs cs f, walked_fields u p jobs cs f → (∀ j, j ∈ jobs → plain_job j = true ∧ dict_keys_ok j.2 = true) →
    NoDup (map (λ j : field_job, j.1.1) jobs) → written_back f →
    Forall2 (λ j kv, j.1.1 = kv.1 ∧ same_data j.2 kv.2) jobs cs).
Proof.
  pose proof (walks_nodup u) as (Hn1 & Hn2 & Hn3). pose proof walks_paths as (Hp1 & Hp2 & Hp3).
  apply walks_mutind.
  - intros s p _ _ Hw. rewrite (Hw p s) by (by rewrite od_get_cons, string_eqb_refl). constructor.
  - intros tp v p _ _ _ _ _. constructor.
  - intros t arms v p c f Ht _ IH Hp. apply IH. by eapply plain_arm.
  - intros kind ok item b items p cs f _ IH Hp Hv Hw. constructor. by apply IH.
  - intros cls bad fields jobs p cs f Hin Hwf IH Hp Hv Hw. cbn [dict_keys_ok] in Hv. apply andb_true_iff in Hv as [Hnd Hv].
    apply bool_decide_eq_true in Hnd. rewrite map_map in Hnd. cbn [fst] in Hnd.
    constructor. apply Forall2_fmap_l. cbn [fst snd]. apply IH; [|done|done]. intros [[n t] x] Hj.
    destruct (plain_field _ _ _ _ _ _ Hp (Hin _ _ _ Hj)) as [H1 H2]. split; [cbn; by rewrite H1, H2|].
    apply (proj1 (forallb_forall _ _) Hv (n, x)). apply list_elem_of_In, list_elem_of_fmap. by exists (n, t, x).
  - intros cls kind bad jobs vals p cs f Hin Hwf IH Hp Hv Hw. cbn [dict_keys_ok] in Hv.
    assert (NoDup (map (λ j : field_job, j.1.1) jobs)) as Hnd.
    { cbn [plain_names] in Hp. apply andb_true_iff in Hp as [Hp _]. apply bool_decide_eq_true in Hp. by rewrite map_map in Hp. }
    assert (Forall2 (λ (j : field_job) (kv : string * value), j.1.1 = kv.1 ∧ same_data j.2 kv.2) jobs cs) as HF.
    { apply IH; [|done|done]. intros [[n t] x] Hj.
      assert ((n, t) ∈ map fst jobs) as Hf by (apply list_elem_of_fmap; by exists (n, t, x)).
      destruct (plain_field _ _ _ _ _ _ Hp Hf) as [H1 H2]. split; [cbn; by rewrite H1, H2|].
      apply (proj1 (forallb_forall _ _) Hv (n, x)). by eapply list_elem_of_In, od_get_in, Hin. }
    constructor. apply Forall_forall. intros kv Hkv. apply list_elem_of_lookup in Hkv as [i Hi].
    destruct (Forall2_lookup_r _ _ _ _ _ HF Hi) as ([[n t] x] & Hj%list_elem_of_lookup_2 & Hn & Hs).
    exists x. cbn in Hn. subst n. split; [by eapply Hin|done].
  - intros. constructor.
  - intros item p i v items c f cs g Hv IHv Hr IH Hp Hok Hw. apply andb_true_iff in Hok as [Hok1 Hok2].
    destruct (written_merged f g) as [Hwf Hwg]; [by eapply Hn1|by eapply Hn2| |done|constructor; [by apply IHv|by apply IH]].
    intros k Hkf Hkg. destruct (Hp1 _ _ _ _ _ Hv Hp k Hkf) as (rest & Hk). destruct (Hp2 _ _ _ _ _ _ Hr Hp k Hkg) as (j & rest' & Hj & Hk').
    rewrite (segments_join p (index i) (plain_index i)), <- app_assoc in Hk. rewrite Hk in Hk'.
    apply app_inv_head in Hk'. apply (f_equal head), (inj Some), index_inj in Hk'. lia.
  - intros. constructor.
  - intros p n t x jobs c f cs g Hx IHv Hr IH Hj [Hnin Hnd]%NoDup_cons Hw.
    destruct (Hj (n, t, x) ltac:(left)) as [[Hn Ht]%andb_true_iff Hok]. cbn in Hn, Ht, Hok.
    assert (∀ j, j ∈ jobs → plain_job j = true ∧ dict_keys_ok j.2 = true) as Hjs by (intros j H; apply Hj; by right).
    destruct (written_merged f g) as [Hwf Hwg]; [by eapply Hn1|by eapply Hn3| |done|].
    { intros k Hkf Hkg. destruct (Hp1 _ _ _ _ _ Hx Ht k Hkf) as (rest & Hk).
      destruct (Hp3 _ _ _ _ Hr (λ j H, proj1 (Hjs j H)) k Hkg) as (n' & rest' & Hn' & Hk').
      rewrite (segments_join p n Hn), <- app_assoc in Hk. rewrite Hk in Hk'. apply app_inv_head in Hk'.
      injection Hk' as -> _. done. }
    constructor; [split; [done|by apply IHv]|by apply IH].
Qed.
End own_paths.

(** ** The contract of extraction and rebuilding *)

Section contract.
Context (repr_type : pytype → string) (read_error : string → string).
Local Abbreviation rebuild := (rebuild repr_type read_error).
Local Abbreviation extract_fields := (extract_fields repr_type read_error).
Local Abbreviation walk := (walk repr_type read_error).

Lemma extract_walk v tp patterns f :
  extract_fields v tp patterns = Ok f → ∃ c, walk [] tp v "" = Ok (c, f).
Proof.
  unfold CapabilityFields.extract_fields. intros ([c t] & Hw & H)%res_bind_ok. cbn [snd] in H.
  destruct (List.filter _ _); [|done]. injection H as <-. by exists c.
Qed.

(** A value that was extracted from can be rebuilt, from any text. *)
Lemma rebuild_total v tp patterns f u :
  extract_fields v tp patterns = Ok f → ∃ c, rebuild v tp u = Ok c ∧ walk u tp v "" = Ok (c, f).
Proof.
  intros (c0 & Hw)%extract_walk. pose proof (walk_found repr_type read_error [] u tp v "") as Hf. rewrite Hw in Hf.
  unfold CapabilityFields.rebuild. destruct (walk u tp v "") as [[c t]|]; [|done]. cbn in Hf. injection Hf as <-. by exists c.
Qed.

Lemma masked_copy v tp patterns f u :
  extract_fields v tp patterns = Ok f → (∀ k, has_path f k → has_path u k) →
  ∃ c, rebuild v tp u = Ok c ∧ ∀ s, s ∈ strings_of c → s ∈ map snd u ∨ s ∈ constants tp.
Proof using Type.
  intros Hx Hk. destruct (rebuild_total v tp patterns f u Hx) as (c & Hc & Hw). exists c. split; [done|].
  apply walk_walks in Hw. cbn [fst snd] in Hw. intros s Hs.
  destruct (proj1 (walks_given u) _ _ _ _ _ Hw) with s as [(k & _ & Hks)|Hks]; [by intros k ?%Hk|done| |by right].
  left. apply list_elem_of_fmap. exists (k, s). split; [done|]. by apply od_get_in.
Qed.

(** The consumer's copy holds no text but what the hooks handed back: once a provider's value
    was extracted from, rebuilding it with any field map for the same paths succeeds, and every
    string of the copy is a text of that map or a constant the declared type itself names. *)
Theorem masked_copy_only v tp patterns f u :
  extract_fields v tp patterns = Ok f → (∀ k, has_path f k ↔ has_path u k) →
  ∃ c, rebuild v tp u = Ok c ∧ ∀ s, s ∈ strings_of c → s ∈ map snd u ∨ s ∈ constants tp.
Proof using Type. intros Hx Hk. eapply masked_copy; [exact Hx|]. intros k. apply Hk. Qed.

(** A spec whose [fields] passed the catalogue's check covers its method's results: a value
    that walks as the declared type is never refused for text at an undeclared path, so what the
    hooks read is every text the walk found. *)
Theorem declared_fields_suffice ms tp v :
  check_fields repr_type ms tp = Ok tt → plain_names tp = true →
  extract_fields v tp (ms_fields ms) = (let! ct := walk [] tp v "" in Ok ct.2).
Proof using Type.
  unfold check_fields, CapabilityFields.extract_fields. destruct (text_paths repr_type tp "") as [ps|] eqn:Hps; [|done].
  destruct (decide (list_to_set (ms_fields ms) = ps)) as [Heq|]; [|done]. intros _ Hp.
  destruct (walk [] tp v "") as [[c f]|e] eqn:Hw; [|done]. cbn [res_bind snd]. apply walk_walks in Hw. cbn [fst snd] in Hw.
  pose proof (proj1 (walks_declared repr_type []) _ _ _ _ _ Hw Hp "" ps eq_refl Hps) as Hd.
  destruct (List.filter _ f) as [|[k s] l] eqn:Hfil; [done|]. exfalso.
  assert ((k, s) ∈ List.filter (λ kv, negb (existsb (λ p, path_matches p kv.1) (ms_fields ms))) f) as [Hin Hno]%list_elem_of_In%filter_In
    by (rewrite Hfil; left).
  destruct (Hd k) as (pat & Hpat & Hm).
  { unfold has_path. rewrite <- od_get_None. intros Hni. apply Hni, list_elem_of_fmap. exists (k, s).
    by rewrite list_elem_of_In. }
  subst ps. apply elem_of_list_to_set in Hpat. apply negb_true_iff in Hno. cbn [fst] in Hno.
  assert (existsb (λ p, path_matches p k) (ms_fields ms) = true); [|congruence].
  apply existsb_exists. exists pat. by rewrite <- list_elem_of_In.
Qed.

(** Hooks that change nothing change nothing: a value rebuilt with the very text that was
    extracted from it is the same data, each text back at its own place, whenever the type's field
    names have no dots. *)
Theorem unmasked_round_trip v tp patterns f :
  plain_names tp = true → dict_keys_ok v = true → extract_fields v tp patterns = Ok f →
  ∃ c, rebuild v tp f = Ok c ∧ same_data v c.
Proof using Type.
  intros Hp Hv Hx. destruct (rebuild_total v tp patterns f f Hx) as (c & Hc & Hw). exists c. split; [done|].
  apply walk_walks in Hw. eapply (proj1 (walks_copy f)); [exact Hw|done|done|]. intros k s Hk. cbn [snd] in Hk. by rewrite Hk.
Qed.
End contract.

(** ** A forecast *)

Definition shown_type (_ : pytype) : string := "a type".
Definition unreadable (_ : string) : string := "AttributeError".

Definition rainy : value :=
  PRec "Forecast"
    [("location", PStr "Rua do Sol 4, Lisbon"); ("issued_at", PPlain KDatetime "2026-01-02T08:00");
     ("periods", PSeq true
       [PRec "ForecastPeriod"
         [("start", PPlain KDatetime "09:00"); ("end", PPlain KDatetime "12:00"); ("temperature_c", PPlain KFloat "11.5");
          ("precipitation_probability", PNone); ("wind_speed_kph", PPlain KFloat "20.0"); ("summary", PStr "Light rain")] []])] [].

Definition rainy_texts : list (string * string) :=
  [("location", "Rua do Sol 4, Lisbon"); ("periods.[0].summary", "Light rain")].
Definition rainy_masked : list (string * string) := [("location", "[address]"); ("periods.[0].summary", "Light rain")].

Lemma masked_copy_only_witness :
  extract_fields shown_type unreadable rainy Forecast (ms_fields forecast_spec) = Ok rainy_texts ∧
  ∃ c, rebuild shown_type unreadable rainy Forecast rainy_masked = Ok c ∧
       ∀ s, s ∈ strings_of c → s ∈ map snd rainy_masked ∨ s ∈ constants Forecast.
Proof.
  assert (extract_fields shown_type unreadable rainy Forecast (ms_fields forecast_spec) = Ok rainy_texts) as Hx by (vm_compute; reflexivity).
  split; [exact Hx|]. apply (masked_copy_only shown_type unreadable rainy Forecast _ _ rainy_masked Hx).
  intros k. unfold has_path, rainy_texts, rainy_masked. rewrite !od_get_cons.
  destruct (String.eqb "location" k), (String.eqb "periods.[0].summary" k); split; intros H; try done.
Defined.

Lemma declared_fields_suffice_witness :
  check_fields shown_type forecast_spec Forecast = Ok tt ∧
  extract_fields shown_type unreadable rainy Forecast (ms_fields forecast_spec)
  = (let! ct := walk shown_type unreadable [] Forecast rainy "" in Ok ct.2).
Proof.
  assert (check_fields shown_type forecast_spec Forecast = Ok tt) as Hc.
  { unfold check_fields. cbn -[decide]. rewrite decide_True; [done|]. set_solver. }
  split; [exact Hc|]. apply (declared_fields_suffice shown_type unreadable forecast_spec Forecast rainy Hc). vm_compute. reflexivity.
Defined.

Lemma unmasked_round_trip_witness :
  ∃ c, rebuild shown_type unreadable rainy Forecast rainy_texts = Ok c ∧ same_data rainy c.
Proof.
  apply (unmasked_round_trip shown_type unreadable rainy Forecast (ms_fields forecast_spec) rainy_texts);
    vm_compute; reflexivity.
Defined.

(** A [TypedDict] whose keys hold dots: two texts, one path.  The hooks are shown the second only, and
    the consumer's copy holds it in both places. *)
Definition dotted : pytype :=
  TRecord "Reply" TypedDict None [("a.b", TStr); ("a", TRecord "Inner" TypedDict None [("b", TStr)])].
Definition two_texts : value := PDict [("a.b", PStr "first"); ("a", PDict [("b", PStr "second")])].

Example dotted_names_collide :
  extract_fields shown_type unreadable two_texts dotted ["a.b"] = Ok [("a.b", "second")] ∧
  rebuild shown_type unreadable two_texts dotted [("a.b", "second")]
  = Ok (PDict [("a.b", PStr "second"); ("a", PDict [("b", PStr "second")])]).
Proof. split; vm_compute; reflexivity. Qed.
