(* ===== verification/CapabilityCalls.v ===== *)
(** * Capability calls ([agent/tool_runner.py], [foundation/capabilities.py])

    A capability method call from its arguments to what its consumer is handed: the firing at
    [PreToolUse], the provider's code inside its scopes, the firing at [PostToolUse] over the text
    of its result, and the copy rebuilt from the final field map; a stream, item by item. *)

From S2P Require Import Prelude PyVal PyText Hooks CallContext Kernel Egress Approvals ApprovalService.
From S2P Require Import ApprovalHook Bots SideEffects ToolGates CredentialBroker ToolCall GovernedHttp TurnLabel ToolRunner CapabilityFields.
From stdpp Require Import options.

(** ** What a call is made of *)

Record CapabilityCall := {
  cc_caller : string; cc_provider : string; cc_capability : string; cc_method : string; cc_effect : string;
  cc_confirm : string; cc_fields : list string; cc_shape : string; cc_value_type : pytype; cc_content : string;
  cc_sends_to : option string; cc_classification : option DataClassification }.

Definition capability_tool_name (capability method : string) : string :=
  CAPABILITY_TOOL_PREFIX +:+ capability +:+ "." +:+ method.
Definition cc_tool_name (call : CapabilityCall) : string := capability_tool_name (cc_capability call) (cc_method call).

Definition _capability_is_high_risk (call : CapabilityCall) : bool :=
  pinned_by_declaration (Some (VStr (cc_effect call))) (Some (VStr (cc_confirm call))).

(** [CapabilityDenied], with its outcome and the class of its [__cause__]. *)
Record Denial := { dn_reason : string; dn_outcome : HookOutcome; dn_cause : option string }.
Definition denied_because (why : string) : Denial := {| dn_reason := why; dn_outcome := deny; dn_cause := None |}.

(** What a governed step comes to: a value, or a [CapabilityDenied]. *)
Inductive governed (A : Type) := Allowed (a : A) | Denied (d : Denial).
Arguments Allowed {A}. Arguments Denied {A}.

Definition CapabilityDenied_class : string := "CapabilityDenied".
(** The class [_cause] settles a failed step under. *)
Definition cause_class (d : Denial) : string := default CapabilityDenied_class (dn_cause d).

Definition _NO_KERNEL : string := "no governance kernel is bound, so capability calls fail closed".
Definition _IN_LOOP : string :=
  "a sync capability method cannot be governed inside a running event loop (the kernel "
  +:+ "is async); call it from sync code, or declare the method async".

(** The text of a field map, as a payload carries it. *)
Definition field_dict (f : list (string * string)) : pyval := VDict (map (λ kv, (kv.1, VStr kv.2)) f).
Definition field_map (v : pyval) : option (list (string * string)) :=
  match v with VDict d => mapM (λ kv, match kv.2 with VStr s => Some (kv.1, s) | _ => None end) d | _ => None end.

(** ["\n".join(m[k] for k in keys)] *)
Definition joined (keys : list string) (m : list (string * string)) : string :=
  join newline (map (λ k, default "" (od_get k m)) keys).

Section jsonable.
(** A plain leaf or an enum member, as [json.dumps(..., default=str)] writes it. *)
Context (leaf : value → pyval).
(** [_jsonable] *)
Fixpoint _jsonable (v : value) : pyval :=
  match v with
  | PStr s => VStr s
  | PNone => VNone
  | PSeq _ items => VList (map _jsonable items)
  | PRec _ fields _ => VDict (map (λ nv, (nv.1, _jsonable nv.2)) fields)
  | PDict items => VDict (map (λ nv, (nv.1, _jsonable nv.2)) items)
  | _ => leaf v
  end.
End jsonable.

Record CapabilityFresh := { cf_run_id : string; cf_call_id : string }.

(** [_capability_ctx] *)
Definition _capability_ctx (r : GovernedToolRunner) (point : HookPoint) (call : CapabilityCall) (fresh : CapabilityFresh)
    (own : dict) (err : option string) : HookContext :=
  {| ctx_hook_point := point; run_id := cf_run_id fresh; agent_type := gr_agent_type r; step_id := None; persona := None;
     route := Some ("tool/" +:+ cc_tool_name call);
     payload := list_to_map
       [("caller", VStr (cc_caller call)); ("capability", VStr (cc_capability call)); ("method", VStr (cc_method call));
        ("capability_provider", VStr (cc_provider call)); ("tool_plugin", VStr (cc_provider call))] ∪ own;
     classification := cc_classification call; tier := None;
     metadata :=
       tool_post_metadata (Some (cc_effect call)) (cc_content call) None (Some (cf_call_id fresh)) err None
       ∪ list_to_map
       [("caller", VStr (cc_caller call)); ("asked_user", VBool false); ("tool_confirm", VStr (cc_confirm call));
        (TOOL_SENDS_TO, opt_val (cc_sends_to call)); ("origin_channel", opt_val (gr_origin_channel r));
        ("session_id", opt_val (gr_session_id r)); ("approved_by", VNone); ("approval_card", VNone);
        ("resumable", VBool false)] |}.

Definition capability_pre_context r call fresh (args : pydict) (digests : dict) : HookContext :=
  _capability_ctx r PRE_TOOL_USE call fresh (pre_tool_payload (cc_tool_name call) args digests) None.

(** The context over a value: its text, joined and by path. *)
Definition value_context r call fresh (f : list (string * string)) (item : option nat) (digests : dict) : HookContext :=
  let own := post_tool_payload (cc_tool_name call) (VStr (join newline (map snd f))) (<["fields" := field_dict f]> digests) in
  _capability_ctx r POST_TOOL_USE call fresh (match item with Some i => <["stream_item" := VInt (Z.of_nat i)]> own | None => own end) None.

(** The context at the end of a stream. *)
Definition end_context r call fresh (partial : bool) (digests : dict) (err : option string) : HookContext :=
  _capability_ctx r POST_TOOL_USE call fresh
    (post_tool_payload (cc_tool_name call) (VStr "")
       (<["fields" := VDict []]> (<["stream_end" := VBool true]> (<["stream_partial" := VBool partial]> digests)))) err.

(** The context that settles a call that failed. *)
Definition failed_context r call fresh (digests : dict) (err : string) : HookContext :=
  _capability_ctx r POST_TOOL_USE call fresh
    (post_tool_payload (cc_tool_name call) (VStr "") (<["fields" := VDict []]> (<["call_failed" := VBool true]> digests))) (Some err).

Definition capability_scope r (call : CapabilityCall) (fresh : CapabilityFresh) : EgressScope :=
  {| sc_run_id := cf_run_id fresh; sc_agent_type := gr_agent_type r; sc_tool := cc_tool_name call;
     sc_tool_plugin := Some (cc_provider call); sc_caller := Some (cc_caller call); sc_step_id := None;
     sc_classification := cc_classification call; sc_tool_call_id := Some (cf_call_id fresh) |}.

(** [_allowed_args] *)
Definition _allowed_args (call : CapabilityCall) (d : HookDecision) (final_ctx : HookContext) (args : pydict) : governed pydict :=
  if refuses d then
    Denied {| dn_reason := governance_block_message d; dn_outcome := outcome d; dn_cause := None |}
  else if _capability_is_high_risk call && match _recorded_row d final_ctx with None => true | Some _ => false end then
    Denied (denied_because (governance_block_message _no_pre_record))
  else Allowed (default args (args_of (payload final_ctx))).

Section redacted.
Context (repr_type : pytype → string) (read_error : string → string).

(** The final field map, when it and the joined text agree and its paths are those extracted. *)
Definition final_fields (fields : list (string * string)) (c : HookContext) : option (list (string * string)) :=
  match payload c !! "fields" ≫= field_map with
  | Some m =>
      if bool_decide ((list_to_set (map fst m) : gset string) = list_to_set (map fst fields))
         && match payload c !! RESULT with Some (VStr s) => String.eqb s (joined (map fst fields) m) | _ => false end
      then Some m else None
  | None => None
  end.

(** [_redacted], for a value. *)
Definition _redacted (call : CapabilityCall) (d : HookDecision) (c : HookContext) (v : value)
    (fields : list (string * string)) : res (governed value) :=
  if refuses d then Ok (Denied {| dn_reason := governance_block_message d; dn_outcome := outcome d; dn_cause := None |})
  else match final_fields fields c with
       | None => Ok (Denied (denied_because (cc_tool_name call
           +:+ ": POST_TOOL_USE left payload['result'] and payload['fields'] disagreeing (transformed by: " +:+ transformers c
           +:+ "); a result-rewriting hook must rewrite the field map, so the result is withheld")))
       | Some m =>
           match rebuild repr_type read_error v (cc_value_type call) m with
           | Ok copy => Ok (Allowed copy)
           | Raise e =>
               if is_mismatch e then
                 Ok (Denied {| dn_reason := cc_tool_name call +:+ ": the consumer's copy could not be built (" +:+ exn_str e +:+ ")";
                               dn_outcome := deny; dn_cause := Some (exn_class e) |})
               else Raise e
           end
       end.
End redacted.

(** ** The calls *)

(** [try: m except Exception as exc: ...], as a value. *)
Definition attempted {S A} (m : M S A) : M S (res A) := λ s, let '(r, s') := m s in (Ok r, s').

Section calls.
Context {W : Type} `{!Part W CallState, !Part W TurnState}.
Context (env : KernelEnv W) (audit_digester : W → res AuditDigester).
Context (repr_type : pytype → string) (read_error : string → string) (leaf : value → pyval).
(** Whether an event loop runs in the calling thread. *)
Context (in_loop : W → bool).

Section of_kernel.
Context (kernel : option (GovernanceKernel W)) (r : GovernedToolRunner) (call : CapabilityCall) (fresh : CapabilityFresh).
(** The sync entry points, or their async twins. *)
Context (sync : bool).

(** [_capability_digester] *)
Definition _capability_digester : M W (governed AuditDigester) :=
  dg ← gets audit_digester;
  match dg with
  | Ok d => mret (Allowed d)
  | Raise e =>
      if String.eqb (exn_class e) "AuditKeyUnavailable" then
        mret (Denied {| dn_reason := exn_str e; dn_outcome := deny; dn_cause := Some (exn_class e) |})
      else raise e
  end.

(** [_refuse_inside_a_loop], on the sync path. *)
Definition _refuse_inside_a_loop : M W bool := looping ← gets in_loop; mret (sync && looping).

(** [_failed_ctx] and [_capability_failed] *)
Definition failed_digests : M W dict :=
  r ← attempted (dg ← _capability_digester;
                 match dg with Allowed d => lift_res (result_fields d (VStr "")) | Denied _ => mret ∅ end);
  mret (match r with Ok digests => digests | Raise _ => ∅ end).

Definition settling (k : GovernanceKernel W) (err : string) : M W unit :=
  digests ← failed_digests;
  looping ← _refuse_inside_a_loop;
  if (looping : bool) then mret () else (_ ← fire k env POST_TOOL_USE (failed_context r call fresh digests err); mret ()).

Definition _capability_failed (err : string) : M W unit :=
  match kernel with
  | Some k => if _capability_is_high_risk call then try_except (settling k err) (λ _, mret ()) else mret ()
  | None => mret ()
  end.

(** [_pre_ctx] *)
Definition _pre_ctx (args : pydict) : M W (governed (GovernanceKernel W * HookContext)) :=
  match kernel with
  | None => mret (Denied (denied_because _NO_KERNEL))
  | Some k =>
      dg ← _capability_digester;
      match dg with
      | Denied d => mret (Denied d)
      | Allowed dg =>
          digests ← lift_res (args_fields dg (VDict args));
          mret (Allowed (k, capability_pre_context r call fresh args digests))
      end
  end.

(** [except CapabilityDenied:] of a call that was recorded and then not run. *)
Definition settle_denied (final_ctx : HookContext) : M W unit :=
  match side_effect_id_of (metadata final_ctx) with Some _ => _capability_failed NOT_RUN | None => mret () end.

(** [capability_pre] and [capability_apre] *)
Definition capability_pre (args : pydict) : M W (governed pydict) :=
  kc ← _pre_ctx args;
  match kc with
  | Denied d => mret (Denied d)
  | Allowed (k, ctx) =>
      looping ← _refuse_inside_a_loop;
      if (looping : bool) then mret (Denied (denied_because _IN_LOOP))
      else
        dc ← fire k env PRE_TOOL_USE ctx;
        match _allowed_args call dc.1 dc.2 args with
        | Allowed a => mret (Allowed a)
        | Denied d =>
            settle_denied dc.2;;
            mret (Denied d)
        end
  end.

(** [_post_ctx], over a value. *)
Definition _post_ctx (v : value) (item : option nat)
    : M W (governed (GovernanceKernel W * HookContext * list (string * string))) :=
  match kernel with
  | None => mret (Denied (denied_because _NO_KERNEL))
  | Some k =>
      dg ← _capability_digester;
      match dg with
      | Denied d => mret (Denied d)
      | Allowed dg =>
          match extract_fields repr_type read_error v (cc_value_type call) (cc_fields call) with
          | Raise e =>
              if is_mismatch e then
                mret (Denied {| dn_reason := cc_tool_name call +:+ ": provider " +:+ py_repr (cc_provider call)
                    +:+ " returned a value that is not its declared type, so it cannot be redacted (" +:+ exn_str e +:+ ")";
                  dn_outcome := deny; dn_cause := Some (exn_class e) |})
              else raise e
          | Ok fields =>
              digests ← lift_res (result_fields dg (_jsonable leaf v));
              mret (Allowed (k, value_context r call fresh fields item digests, fields))
          end
      end
  end.

(** [_post_ctx], at the end of a stream. *)
Definition _end_ctx (digests : list string) (partial : bool) (err : option string)
    : M W (governed (GovernanceKernel W * HookContext)) :=
  match kernel with
  | None => mret (Denied (denied_because _NO_KERNEL))
  | Some k =>
      dg ← _capability_digester;
      match dg with
      | Denied d => mret (Denied d)
      | Allowed dg =>
          fs ← lift_res (result_fields dg (VList (map VStr digests)));
          mret (Allowed (k, end_context r call fresh partial fs err))
      end
  end.

(** What [capability_post] does with a context that could not be built: a whole call is settled. *)
Definition settle_unpostable {A} (m : M W (governed A)) (whole : bool) : M W (governed A) :=
  x ← attempted m;
  match x with
  | Ok (Allowed a) => mret (Allowed a)
  | Ok (Denied d) => (if whole then _capability_failed (cause_class d) else mret ());; mret (Denied d)
  | Raise e => (if whole then _capability_failed (exn_class e) else mret ());; raise e
  end.

(** [capability_post] and [capability_apost], over a value. *)
Definition capability_post (v : value) (item : option nat) : M W (governed value) :=
  x ← settle_unpostable (_post_ctx v item) (match item with None => true | Some _ => false end);
  match x with
  | Denied d => mret (Denied d)
  | Allowed (k, ctx, fields) =>
      looping ← _refuse_inside_a_loop;
      if (looping : bool) then mret (Denied (denied_because _IN_LOOP))
      else
        dc ← fire_post env k (cc_classification call) ctx;
        lift_res (_redacted repr_type read_error call dc.1 dc.2 v fields)
  end.

(** [capability_post] at the end of a stream. *)
Definition capability_end (digests : list string) (partial : bool) (err : option string) : M W (governed unit) :=
  x ← settle_unpostable (_end_ctx digests partial err) true;
  match x with
  | Denied d => mret (Denied d)
  | Allowed (k, ctx) =>
      looping ← _refuse_inside_a_loop;
      if (looping : bool) then mret (Denied (denied_because _IN_LOOP))
      else
        dc ← fire_post env k (cc_classification call) ctx;
        mret (if refuses dc.1 then Denied {| dn_reason := governance_block_message dc.1; dn_outcome := outcome dc.1; dn_cause := None |}
              else Allowed tt)
  end.

(** [with call_scope(call_id):] around the provider's code. *)
Definition in_call {A} (m : M W A) : M W A := λ w,
  let previous := current_call (part w : CallState) in
  let '(e, w') := m (set_part (set_current (Some (cf_call_id fresh)) (part w)) w) in
  (e, set_part (set_current previous (part w')) w').

(** [execute_call] and [aexecute_call], for a method that returns a value. *)
Definition execute_call (provider : EgressScope → pydict → M W value) (args : pydict) : M W (governed value) :=
  _ ← on_part (register_call (cf_call_id fresh) None : M CallState CallLineage);
  a ← capability_pre args;
  match a with
  | Denied d => mret (Denied d)
  | Allowed args' =>
      v ← attempted (in_call (provider (capability_scope r call fresh) args'));
      match v with
      | Raise e => _capability_failed (exn_class e);; raise e
      | Ok v => capability_post v None
      end
  end.

(** ** Streams *)

(** How a stream came to its end: exhausted, closed by its consumer, or stopped by an error. *)
Inductive stream_stop := Exhausted | Closed | Raised (e : exn) | ItemDenied (d : Denial).

Definition stop_class (s : stream_stop) : option string :=
  match s with
  | Exhausted => None | Closed => Some "GeneratorExit" | Raised e => Some (exn_class e)
  | ItemDenied _ => Some CapabilityDenied_class
  end.
Definition exhausted (s : stream_stop) : bool := match s with Exhausted => true | _ => false end.

(** The items, for a consumer that takes at most [want] of them: the copies it was handed, the
    digests of what the provider yielded, and how it ended. *)
Fixpoint pull (dg : AuditDigester) (next : nat → M W (option value)) (want : nat) (digests : list string)
    : M W (list value * list string * stream_stop) :=
  match want with
  | O => mret ([], digests, Closed)
  | S want' =>
      x ← attempted (in_call (next (length digests)));
      match x with
      | Raise e => mret ([], digests, Raised e)
      | Ok None => mret ([], digests, Exhausted)
      | Ok (Some v) =>
          match digest dg (_jsonable leaf v) with
          | Raise e => mret ([], digests, Raised e)
          | Ok d =>
              p ← attempted (capability_post v (Some (length digests)));
              match p with
              | Raise e => mret ([], digests ++ [d], Raised e)
              | Ok (Denied n) => mret ([], digests ++ [d], ItemDenied n)
              | Ok (Allowed copy) =>
                  rest ← pull dg next want' (digests ++ [d]);
                  mret (copy :: rest.1.1, rest.1.2, rest.2)
              end
          end
      end
  end.

(** What the consumer of a stream saw. *)
Record StreamRun := { sr_items : list value; sr_stop : stream_stop }.

(** The [finally] of a stream: its end is audited, and a denied partial end is only logged. *)
Definition stream_end (items : list value) (digests : list string) (stop : stream_stop) : M W StreamRun :=
  e ← capability_end digests (negb (exhausted stop)) (stop_class stop);
  mret {| sr_items := items;
          sr_stop := match e with Denied d => if exhausted stop then ItemDenied d else stop | Allowed _ => stop end |}.

(** [_governed_stream]: nothing of it runs before the first item is asked for. *)
Definition _governed_stream (next : nat → M W (option value)) (want : nat) : M W (governed StreamRun) :=
  match want with
  | O => mret (Allowed {| sr_items := []; sr_stop := Closed |})
  | _ =>
      dg ← _capability_digester;
      match dg with
      | Denied d => mret (Denied d)
      | Allowed dg =>
          x ← pull dg next want [];
          s ← stream_end x.1.1 x.1.2 x.2;
          mret (Allowed s)
      end
  end.

(** [execute_call] for a stream; [iter] of what the provider returned may raise. *)
Definition execute_stream (provider : EgressScope → pydict → M W (res (nat → M W (option value)))) (args : pydict) (want : nat)
    : M W (governed StreamRun) :=
  _ ← on_part (register_call (cf_call_id fresh) None : M CallState CallLineage);
  a ← capability_pre args;
  match a with
  | Denied d => mret (Denied d)
  | Allowed args' =>
      v ← attempted (in_call (provider (capability_scope r call fresh) args'));
      match v with
      | Raise e => _capability_failed (exn_class e);; raise e
      | Ok returned => next ← lift_res returned; _governed_stream next want
      end
  end.

(** [aexecute_stream]: one generator, from [PreToolUse] on; the provider's code runs outside the
    egress scope, and the error of [__aiter__] ends the stream. *)
Definition aexecute_stream (provider : pydict → M W (res (nat → M W (option value)))) (args : pydict) (want : nat)
    : M W (governed StreamRun) :=
  match want with
  | O => mret (Allowed {| sr_items := []; sr_stop := Closed |})
  | _ =>
      _ ← on_part (register_call (cf_call_id fresh) None : M CallState CallLineage);
      a ← capability_pre args;
      match a with
      | Denied d => mret (Denied d)
      | Allowed args' =>
          v ← attempted (in_call (provider args'));
          match v with
          | Raise e => _capability_failed (exn_class e);; raise e
          | Ok returned =>
              dg ← _capability_digester;
              match dg with
              | Denied d => mret (Denied d)
              | Allowed dg =>
                  x ← match returned with
                      | Ok next => pull dg next want []
                      | Raise e => mret ([], [], Raised e)
                      end;
                  s ← stream_end x.1.1 x.1.2 x.2;
                  mret (Allowed s)
              end
          end
      end
  end.
End of_kernel.
End calls.

(** ** What a consumer is handed *)

Lemma field_map_dict f : field_map (field_dict f) = Some f.
Proof.
  cbn [field_map field_dict]. induction f as [|[k s] f IH]; [done|]. cbn. by rewrite IH.
Qed.

Section inversions.
Context {W : Type} `{!Part W CallState, !Part W TurnState}.
Context (env : KernelEnv W) (audit_digester : W → res AuditDigester).
Context (repr_type : pytype → string) (read_error : string → string) (leaf : value → pyval) (in_loop : W → bool).
Context (k : GovernanceKernel W) (r : GovernedToolRunner) (call : CapabilityCall) (fresh : CapabilityFresh) (sync : bool).
Local Abbreviation capability_post := (capability_post env audit_digester repr_type read_error leaf in_loop (Some k) r call fresh sync).
Local Abbreviation pull := (pull env audit_digester repr_type read_error leaf in_loop (Some k) r call fresh sync).

(** A copy released to the consumer: every text of the provider's value was fired at
    [PostToolUse], by path and joined; the verdict let it through; and the copy is the value
    rebuilt from the final field map, its joined text the final result, with no other string in
    it but the constants of the declared type. *)
Definition released (item : option nat) (v c : value) : Prop :=
  ∃ f digests w0 d ctx w1 m,
    extract_fields repr_type read_error v (cc_value_type call) (cc_fields call) = Ok f ∧
    fire k env POST_TOOL_USE (value_context r call fresh f item digests) w0 = (Ok (d, ctx), w1) ∧
    refuses d = false ∧ payload ctx !! "fields" ≫= field_map = Some m ∧
    payload ctx !! RESULT = Some (VStr (joined (map fst f) m)) ∧
    rebuild repr_type read_error v (cc_value_type call) m = Ok c ∧
    ∀ s, s ∈ strings_of c → s ∈ map snd m ∨ s ∈ constants (cc_value_type call).

Lemma redacted_inv d c v fields copy :
  _redacted repr_type read_error call d c v fields = Ok (Allowed copy) →
  refuses d = false ∧ ∃ m, payload c !! "fields" ≫= field_map = Some m ∧
    payload c !! RESULT = Some (VStr (joined (map fst fields) m)) ∧ (∀ k, has_path fields k → has_path m k) ∧
    rebuild repr_type read_error v (cc_value_type call) m = Ok copy.
Proof using Type.
  unfold _redacted. destruct (refuses d); [done|]. unfold final_fields.
  destruct (payload c !! "fields" ≫= field_map) as [m|]; [|done].
  destruct (bool_decide _ && _) eqn:Hb; [|done]. apply andb_true_iff in Hb as [Hset Hres]. apply bool_decide_eq_true in Hset.
  destruct (rebuild _ _ _ _ m) as [copy'|e] eqn:Hr; [|by destruct (is_mismatch e)]. intros [= <-]. split; [done|].
  exists m. split_and!; [done| | |done].
  - destruct (payload c !! RESULT) as [[| | | |s| | |]|]; try done. by apply String.eqb_eq in Hres as ->.
  - intros p. unfold has_path. rewrite <- !od_get_None. intros Hp Hm. apply Hp. intros Hin. apply Hm.
    apply (elem_of_list_to_set (C := gset string)). rewrite Hset. by apply elem_of_list_to_set.
Qed.

Lemma settle_unpostable_inv {A} (m : M W (governed A)) whole w a w' :
  settle_unpostable env audit_digester in_loop (Some k) r call fresh sync m whole w = (Ok (Allowed a), w') →
  m w = (Ok (Allowed a), w').
Proof using Type.
  unfold settle_unpostable, attempted. run_monad. destruct (m w) as [[[b|d]|e] w1].
  - intros [= -> ->]. done.
  - destruct (_ w1) as [[[]|e] w2]; done.
  - destruct (_ w1) as [[[]|e'] w2]; done.
Qed.

Lemma capability_digester_inv dg w w' :
  _capability_digester audit_digester w = (Ok (Allowed dg), w') → w' = w ∧ audit_digester w = Ok dg.
Proof using Type.
  unfold _capability_digester. run_monad. destruct (audit_digester w) as [d|e]; [by intros [= -> ->]|].
  by destruct (String.eqb _ _).
Qed.

Lemma post_ctx_inv v item w k' ctx fields w' :
  _post_ctx audit_digester repr_type read_error leaf (Some k) r call fresh v item w = (Ok (Allowed (k', ctx, fields)), w') →
  k' = k ∧ extract_fields repr_type read_error v (cc_value_type call) (cc_fields call) = Ok fields ∧
  ∃ digests, ctx = value_context r call fresh fields item digests.
Proof using Type.
  unfold _post_ctx. run_monad. destruct (_capability_digester _ w) as [[[dg|d]|e] w1]; [|done..].
  destruct (extract_fields _ _ _ _ _) as [f|e] eqn:Hx; [|by destruct (is_mismatch e)].
  unfold lift_res. destruct (result_fields dg _) as [digests|e]; [|done]. intros [= <- <- <- _]. split_and!; [done|done|].
  by eexists.
Qed.

Lemma capability_post_inv v item w c w' :
  capability_post v item w = (Ok (Allowed c), w') → released item v c.
Proof using Type.
  unfold CapabilityCalls.capability_post. run_monad.
  destruct (settle_unpostable _ _ _ _ _ _ _ _ _ _ w) as [[[[[k' ctx] fields]|d]|e] w1] eqn:Hs; [|done..].
  apply settle_unpostable_inv, post_ctx_inv in Hs as (-> & Hx & digests & ->).
  unfold _refuse_inside_a_loop. run_monad. destruct (sync && in_loop w1); [done|].
  unfold fire_post. run_monad. destruct (fire k env POST_TOOL_USE _ w1) as [[[d c1]|e] w2] eqn:Hf; [|done].
  destruct (on_part _ w2) as [[[]|e] w3]; [|done]. unfold lift_res. cbn [fst snd]. intros [= Hr _].
  apply redacted_inv in Hr as (Hrf & m & Hm & Hres & Hk & Hc).
  destruct (masked_copy repr_type read_error v (cc_value_type call) _ fields m Hx Hk) as (c' & Hc' & Hs).
  rewrite Hc in Hc'. injection Hc' as <-. by exists fields, digests, w1, d, c1, w2, m.
Qed.

(** An item the provider yielded, inside its own call. *)
Definition yielded (next : nat → M W (option value)) (i : nat) (v : value) : Prop :=
  ∃ w1 w2, current_call (part w1 : CallState) = Some (cf_call_id fresh) ∧ next i w1 = (Ok (Some v), w2).

Lemma in_call_inv `{!PartLaws W CallState} {A} (m : M W A) w e w' :
  in_call fresh m w = (e, w') → ∃ ws we, current_call (part ws : CallState) = Some (cf_call_id fresh) ∧ m ws = (e, we).
Proof using Type.
  unfold in_call. destruct (m _) as [e' we] eqn:Hm. intros [= <- _]. eexists _, we. split; [|exact Hm]. by rewrite part_set.
Qed.

Definition items_released (next : nat → M W (option value)) (from : nat) (items : list value) : Prop :=
  ∀ j c, items !! j = Some c → ∃ v, yielded next (from + j) v ∧ released (Some (from + j)) v c.

Lemma items_none next from : items_released next from [].
Proof using Type. by intros j c. Qed.

Local Ltac stopped :=
  intros [= <- <-]; split_and!; simpl; rewrite ?length_app; simpl; [lia|lia|apply items_none].

Lemma pull_inv `{!PartLaws W CallState} dg next want digests w x w' :
  pull dg next want digests w = (Ok x, w') →
  length x.1.1 ≤ want ∧ length digests + length x.1.1 ≤ length x.1.2 ∧ items_released next (length digests) x.1.1.
Proof using Type.
  revert digests w x w'. induction want as [|want IH]; intros digests w x w'; cbn [CapabilityCalls.pull]; run_monad.
  { stopped. }
  unfold attempted at 1. destruct (in_call fresh _ w) as [[[v|]|e] w1] eqn:Hn; [|stopped..].
  destruct (digest dg _) as [d|e]; [|stopped].
  unfold attempted. destruct (capability_post v _ w1) as [[[c|n]|e] w2] eqn:Hp;
    [|stopped..].
  destruct (pull dg next want _ w2) as [[rest|e] w3] eqn:Hr; [|done]. intros [= <- <-]. cbn [fst snd].
  destruct (IH _ _ _ _ Hr) as (Hw & Hl & Hitems). rewrite length_app in Hl, Hitems. cbn [length] in Hl, Hitems |- *.
  split_and!; [lia| |].
  - lia.
  - intros [|j] c' Hj.
    + injection Hj as <-. rewrite Nat.add_0_r. exists v. split; [|by eapply capability_post_inv].
      destruct (in_call_inv _ _ _ _ Hn) as (ws & we & Hc & He). by exists ws, we.
    + cbn in Hj. replace (length digests + S j) with (length digests + 1 + j) by lia. by apply Hitems.
Qed.
End inversions.

(** ** The contract of a capability call *)

Section contract.
Context {W : Type} `{!Part W CallState, !Part W TurnState, !Part W Table, !Part W SideEffectLedger}.
Context `{!PartLaws W CallState, !PartLaws W Table, !PartLaws W SideEffectLedger}.
Context `{!Apart W CallState Table, !Apart W CallState SideEffectLedger}.
Context (env : KernelEnv W) (audit_digester : W → res AuditDigester).
Context (repr_type : pytype → string) (read_error : string → string) (leaf : value → pyval) (in_loop : W → bool).
Context (k : GovernanceKernel W) (r : GovernedToolRunner) (call : CapabilityCall) (fresh : CapabilityFresh) (sync : bool).
Local Abbreviation execute_call := (execute_call env audit_digester repr_type read_error leaf in_loop (Some k) r call fresh sync).
Local Abbreviation execute_stream := (execute_stream env audit_digester repr_type read_error leaf in_loop (Some k) r call fresh sync).
Local Abbreviation aexecute_stream := (aexecute_stream env audit_digester repr_type read_error leaf in_loop (Some k) r call fresh sync).
Local Abbreviation capability_pre := (capability_pre env audit_digester in_loop (Some k) r call fresh sync).
Local Abbreviation released := (released env repr_type read_error k r call fresh).
Local Abbreviation items_released := (items_released env repr_type read_error k r call fresh).

(** ** Streams *)

Lemma stream_end_items items digests stop w run w' :
  stream_end env audit_digester in_loop (Some k) r call fresh sync items digests stop w = (Ok run, w') → sr_items run = items.
Proof using Type.
  unfold stream_end. run_monad. by destruct (capability_end _ _ _ _ _ _ _ _ _ _ _ w) as [[e|e] w1]; [intros [= <- _]|].
Qed.

Definition stream_contained (want : nat) (run : StreamRun) (next : nat → M W (option value)) : Prop :=
  length (sr_items run) ≤ want ∧ items_released next 0 (sr_items run).

Lemma governed_stream_inv next want w run w' :
  _governed_stream env audit_digester repr_type read_error leaf in_loop (Some k) r call fresh sync next want w = (Ok (Allowed run), w') →
  stream_contained want run next.
Proof using All.
  unfold _governed_stream, stream_contained. destruct want as [|want]; [intros [= <- _]; split; [simpl; lia|apply items_none]|]. run_monad.
  destruct (_capability_digester _ w) as [[[dg|d]|e] w1]; [|done..].
  destruct (pull _ _ _ _ _ _ _ _ _ _ _ dg next (S want) [] w1) as [[x|e] w2] eqn:Hp; [|done].
  destruct (stream_end _ _ _ _ _ _ _ _ _ _ _ w2) as [[s|e] w3] eqn:He; [|done]. intros [= <- _].
  rewrite (stream_end_items _ _ _ _ _ _ He). apply pull_inv in Hp as (Hl & _ & Hi); [done|apply _].
Qed.

(** A governed stream hands its consumer released copies and nothing else: at most as many as
    it asked for, the [i]-th one a copy released from the [i]-th value the provider yielded inside
    the call -- its text judged at [PostToolUse] by path, the verdict not a refusal, and no string
    in it beside the final field map's and the declared type's constants -- however the stream
    ended, and whatever its provider did. *)
Theorem governed_stream_items provider args want w run w' :
  execute_stream provider args want w = (Ok (Allowed run), w') →
  length (sr_items run) ≤ want ∧
  ∃ args' ws we next, provider (capability_scope r call fresh) args' ws = (Ok (Ok next), we) ∧
    ∀ i c, sr_items run !! i = Some c → ∃ v, yielded fresh next i v ∧ released (Some i) v c.
Proof using All.
  unfold CapabilityCalls.execute_stream, attempted. run_monad. destruct (on_part _ w) as [[lin|e] w1]; [|done].
  destruct (capability_pre args w1) as [[[a|d]|e] w2]; [|done..].
  destruct (in_call fresh _ w2) as [[returned|e] w3] eqn:Hp; [|by destruct (_capability_failed _ _ _ _ _ _ _ _ _ w3) as [[]]].
  unfold lift_res. destruct returned as [next|e]; [|done]. intros [Hl Hi]%governed_stream_inv. split; [done|].
  destruct (in_call_inv _ _ _ _ _ Hp) as (ws & we & _ & Hc). by exists a, ws, we, next.
Qed.

(** The same for a stream that is one async generator from [PreToolUse] on. *)
Theorem governed_astream_items provider args want w run w' :
  aexecute_stream provider args want w = (Ok (Allowed run), w') →
  sr_items run = [] ∨
  ∃ args' ws we next, provider args' ws = (Ok (Ok next), we) ∧ stream_contained want run next.
Proof using All.
  unfold CapabilityCalls.aexecute_stream, attempted. destruct want as [|want]; [intros [= <- _]; by left|]. run_monad.
  destruct (on_part _ w) as [[lin|e] w1]; [|done].
  destruct (capability_pre args w1) as [[[a|d]|e] w2]; [|done..].
  destruct (in_call fresh _ w2) as [[returned|e] w3] eqn:Hp; [|by destruct (_capability_failed _ _ _ _ _ _ _ _ _ w3) as [[]]].
  destruct (in_call_inv _ _ _ _ _ Hp) as (ws & we & _ & Hc).
  destruct (_capability_digester _ w3) as [[[dg|d]|e] w4]; [|done..]. destruct returned as [next|e].
  - destruct (pull _ _ _ _ _ _ _ _ _ _ _ dg next (S want) [] w4) as [[x|e] w5] eqn:Hx; [|done].
    destruct (stream_end _ _ _ _ _ _ _ _ _ _ _ w5) as [[s|e] w6] eqn:He; [|done]. intros [= <- _]. right.
    exists a, ws, we, next. split; [done|]. unfold stream_contained. rewrite (stream_end_items _ _ _ _ _ _ He).
    apply pull_inv in Hx as (Hl & _ & Hi); [done|apply _].
  - destruct (stream_end _ _ _ _ _ _ _ _ _ _ _ w4) as [[s|e'] w6] eqn:He; [|done]. intros [= <- _]. left.
    by rewrite (stream_end_items _ _ _ _ _ _ He).
Qed.

(** ** One value *)

(** What a provider says when it fails reaches no one but the consumer it raises to: two
    providers that fail in the same place with the same class of exception leave the same world
    behind, whatever their messages -- hooks, audit log and side-effect ledger are told the class. *)
Theorem failure_tells_class_only p1 p2 args w :
  (∀ scope a ws, ∃ e1 e2 we, p1 scope a ws = (Raise e1, we) ∧ p2 scope a ws = (Raise e2, we) ∧ exn_class e1 = exn_class e2) →
  run_state (execute_call p1 args) w = run_state (execute_call p2 args) w.
Proof using Type.
  intros Hp. unfold run_state, CapabilityCalls.execute_call, attempted. run_monad. destruct (on_part _ w) as [[lin|e] w1]; [|done].
  destruct (capability_pre args w1) as [[[a|d]|e] w2]; [|done..]. unfold in_call.
  destruct (Hp (capability_scope r call fresh) a (set_part (set_current (Some (cf_call_id fresh)) (part w2)) w2))
    as (e1 & e2 & we & -> & -> & <-).
  by destruct (_capability_failed _ _ _ _ _ _ _ _ _ _) as [[]].
Qed.
End contract.

Section promise.
Context {W : Type} `{!Part W CallState, !Part W TurnState, !Part W Table, !Part W SideEffectLedger}.
Context `{!PartLaws W CallState, !PartLaws W Table, !PartLaws W SideEffectLedger}.
Context `{!Apart W CallState Table, !Apart W CallState SideEffectLedger}.
Context (env : KernelEnv W) (audit_digester : W → res AuditDigester).
Context (repr_type : pytype → string) (read_error : string → string) (leaf : value → pyval) (in_loop : W → bool).
Context (k : GovernanceKernel W) `{!BookKernel k, !BookEnv env} (sf : Surfaces W) `{!SurfacesOk sf}.
Context (vault : option (string → M W (option string))).
Context (r : GovernedToolRunner) (call : CapabilityCall) (fresh : CapabilityFresh) (sync : bool).
Local Abbreviation execute_call := (execute_call env audit_digester repr_type read_error leaf in_loop (Some k) r call fresh sync).
Local Abbreviation capability_pre := (capability_pre env audit_digester in_loop (Some k) r call fresh sync).
Local Abbreviation released := (released env repr_type read_error k r call fresh).
Local Abbreviation ctx args digests := (capability_pre_context r call fresh args digests).

Lemma pre_meta args digests x :
  metadata (ctx args digests) !! x = metadata (ctx args ∅) !! x.
Proof using Type. done. Qed.

Lemma pre_approved_by args digests : metadata (ctx args digests) !! "approved_by" = Some VNone.
Proof using Type. reflexivity. Qed.
Lemma pre_per_call args digests : approved_per_call (metadata (ctx args digests)) = _capability_is_high_risk call.
Proof using Type. unfold approved_per_call. rewrite orb_false_r. reflexivity. Qed.
Lemma pre_no_bot args digests : strip_bot_id (ctx args digests) = ctx args digests.
Proof using Type. reflexivity. Qed.

Lemma pre_name args digests :
  digests !! TOOL_NAME = None → payload (ctx args digests) !! TOOL_NAME = Some (VStr (cc_tool_name call)).
Proof using Type.
  intros Hd. cbn [capability_pre_context _capability_ctx payload]. rewrite lookup_union_r by reflexivity.
  unfold pre_tool_payload. rewrite lookup_union_r by done. apply lookup_insert_eq.
Qed.

(** A capability call that the kernel let through. *)
Lemma capability_pre_inv args w a w' :
  capability_pre args w = (Ok (Allowed a), w') →
  ∃ digests d c, digests !! TOOL_NAME = None ∧ digests !! ARGS = None ∧
    fire k env PRE_TOOL_USE (ctx args digests) w = (Ok (d, c), w') ∧ (outcome d = allow ∨ outcome d = transform).
Proof using Type.
  unfold CapabilityCalls.capability_pre, _pre_ctx. run_monad.
  destruct (_capability_digester _ w) as [[[dg|d]|e] w1] eqn:Hdg; [|done..].
  apply capability_digester_inv in Hdg as [-> _]. unfold lift_res.
  destruct (args_fields dg _) as [digests|e] eqn:Hd; [|done]. apply args_fields_keys in Hd as [Hd1 Hd2].
  unfold _refuse_inside_a_loop. run_monad. destruct (sync && in_loop w); [done|].
  destruct (fire k env PRE_TOOL_USE _ w) as [[[d c]|e] w2] eqn:Hf; [|done]. cbn [fst snd].
  destruct (_allowed_args call d c args) as [a'|n] eqn:Ha; [|by destruct (settle_denied _ _ _ _ _ _ _ _ _ w2) as [[[]|e] w3]].
  intros [= <- <-]. exists digests, d, c. split_and!; [done|done|done|].
  unfold _allowed_args, refuses in Ha. destruct (bool_decide _) eqn:Hb; [done|]. apply bool_decide_eq_false_1 in Hb.
  destruct (outcome d); tauto.
Qed.

(** C11. A capability call, from its consumer's arguments to the copy it is handed.  Over a kernel
    whose hooks at [PreToolUse] stand in the program's order (after the approval only the
    credential broker rewrites a call, and only its vault handles), the provider's code is either not
    run at all -- whatever it is, the consumer gets the same answer and the world is the same --
    or all of this holds: the operator's policy permits the pseudo-tool that names the capability
    and the method; the method is not one whose calls wait for the owner (a code caller has no
    approval to show, so an irreversible one never runs); and the code ran inside its own call,
    under its provider's egress scope.  And a value the consumer gets is a copy released from what
    the code returned, never the provider's own object. *)
Theorem governed_capability_call policy provider args w o w' :
  ToolKernel k sf vault policy → books_ok w →
  execute_call provider args w = (o, w') →
  (∀ provider', execute_call provider' args w = (o, w')) ∨
  (tool_permitted policy (metadata (ctx args ∅)) (cc_tool_name call) ∧ _capability_is_high_risk call = false ∧
   ∃ args' ws e we, current_call (part ws : CallState) = Some (cf_call_id fresh) ∧
     provider (capability_scope r call fresh) args' ws = (e, we) ∧
     ∀ c, o = Ok (Allowed c) → ∃ v, e = Ok v ∧ released None v c).
Proof using All.
  intros Hk Hw. unfold CapabilityCalls.execute_call. run_monad.
  pose proof (register_books (W := W) (cf_call_id fresh) None w) as [Ht Hl].
  destruct (on_part _ w) as [[lin|e] w1]; [|by intros [= <- <-]; left]. cbn [snd] in Ht, Hl.
  destruct (capability_pre args w1) as [[[a|d]|e] w2] eqn:Hpre; [|by intros [= <- <-]; left..].
  intros Hrun. right. apply capability_pre_inv in Hpre as (digests & d & c & Hd1 & _ & Hf & Ho).
  assert (books_ok w1) as Hw1 by (unfold books_ok in *; by rewrite Ht, Hl).
  destruct Hk as [(h & calls_of & stamp_of & i1 & i2 & i3 & hs0 & hs1 & hs2 & hs3 & Hk & Hname & Hrw)].
  assert (∀ g, g ∈ hs1 → keeps_tool_name g) as Hkn.
  { intros g Hg c0 wa d0 wb p Hc Hp. by apply (Hname g (proj2 (elem_of_app _ _ _) (or_intror Hg)) _ _ _ _ _ Hc Hp). }
  destruct (governed_tool_call k env sf vault policy h calls_of stamp_of i1 i2 i3 hs0 hs1 hs2 hs3 _ w1 d c w2 Hk Hkn Hrw Hw1 Hf Ho)
    as ((name & Hnm & Hperm) & Happ & _).
  destruct (fire_passed k env _ _ _ _ _ _ Hf Ho) as (tr & w3 & Hp & _). rewrite pre_no_bot in Hp.
  pose proof (pass_same k env _ _ _ _ _ _ _ Hp) as Hs.
  destruct (pass_shape env k _ _ _ _ _ _ _ (hooks_shape k sf vault _ _ _ _ _ _ _ _ _ _ _ _ Hk Hname Hrw) Hp) as [Hpn _].
  rewrite (pre_name _ _ Hd1) in Hpn.
  assert (name = cc_tool_name call) as -> by (apply get_nonempty_Some in Hnm as [Hnm _]; congruence).
  split; [exact (same_permitted _ _ (same_call_sym _ _ Hs) policy _ Hperm)|]. split.
  { destruct (_capability_is_high_risk call) eqn:Hr; [|done]. destruct Happ as [Hby _].
    { by rewrite (same_approved_per_call _ _ Hs), pre_per_call. }
    unfold get_truthy in Hby. rewrite (same_approved_by _ _ Hs) in Hby. by rewrite pre_approved_by in Hby. }
  unfold attempted in Hrun. destruct (in_call fresh _ w2) as [e w4] eqn:Hin.
  destruct (in_call_inv _ _ _ _ _ Hin) as (ws & we & Hc & He). exists a, ws, e, we. split_and!; [done|done|].
  intros copy ->. destruct e as [v|e].
  - exists v. split; [done|]. by eapply capability_post_inv.
  - destruct (_capability_failed _ _ _ _ _ _ _ _ _ w4) as [[[]|] w5]; done.
Qed.
End promise.

(** ** A forecast, masked *)

(** A hook at [PostToolUse] that masks the place in a result's field map. *)
Definition mask_place (f : list (string * string)) : list (string * string) :=
  map (λ kv, if String.eqb kv.1 "location" then (kv.1, "[address]") else kv) f.
Definition mask_call (c : HookContext) : HookDecision :=
  let m := mask_place (default [] (payload c !! "fields" ≫= field_map)) in
  {| outcome := transform; reason := "masked";
     transformed_payload := Some (<["fields" := field_dict m]> (<[RESULT := VStr (join newline (map snd m))]> (payload c)));
     set_classification := Some personal; set_tier := None; approval_request_id := None; severity := info; audit_metadata := ∅;
     decided_by := None |}.
Definition mask_hook : Hook RunWorld := reader_hook 4 "identity_mask" POST_TOOL_USE 50 (λ c _, Ok (mask_call c)).

Definition cap_hooks (p : HookPoint) : list (Hook RunWorld) :=
  match p with PRE_TOOL_USE => rw_hooks | POST_TOOL_USE => [mask_hook] | _ => [] end.
Definition cap_kernel : GovernanceKernel RunWorld := {| k_hooks := cap_hooks; k_init_locked := true; k_bot_hook := None |}.

#[export] Instance cap_kernel_books : BookKernel cap_kernel.
Proof.
  split; [|done]. intros p h. destruct p; simpl; try by intros ?%elem_of_nil.
  - intros Hh. exact (@respects_hooks _ _ _ rw_kernel_books PRE_TOOL_USE h Hh).
  - intros ->%list_elem_of_singleton. apply _.
Qed.

Lemma cap_tool_kernel : ToolKernel cap_kernel rw_surfaces rw_vault open_policy.
Proof.
  split. exists rw_hook, rw_calls, (λ _, some_stamp), 1, 2, 3, [], [], [broker_hook rw_vault 4], [].
  split; [done|]. split; [by intros g ?%elem_of_nil|]. intros g [->|?%elem_of_nil]%elem_of_cons; [right; by eexists|done].
Qed.

Definition weather_call : CapabilityCall :=
  {| cc_caller := "core:planner"; cc_provider := "sky"; cc_capability := "weather.forecast"; cc_method := "forecast";
     cc_effect := ms_effect forecast_spec; cc_confirm := confirm_mode forecast_spec; cc_fields := ms_fields forecast_spec;
     cc_shape := "async"; cc_value_type := Forecast; cc_content := ms_content forecast_spec;
     cc_sends_to := ms_sends_to forecast_spec; cc_classification := None |}.
Definition weather_fresh : CapabilityFresh := {| cf_run_id := "u1"; cf_call_id := "c1" |}.
Definition plain_leaf (v : value) : pyval := match v with PPlain _ s => VObj s | _ => VNone end.
Definition weather_args : pydict := [("location", VStr "Rua do Sol 4, Lisbon")].

Local Abbreviation weather_execute provider :=
  (execute_call rw_env (λ _, Ok rw_digester) shown_type unreadable plain_leaf (λ _, false) (Some cap_kernel) rm_runner
     weather_call weather_fresh false provider weather_args).
Definition weather_run : M RunWorld (governed value) := weather_execute (λ _ _, mret rainy).

Lemma weather_masked :
  match run_res weather_run rw_start with Ok (Allowed c) => bool_decide (strings_of c = ["[address]"; "Light rain"]) | _ => false end = true.
Proof. vm_compute. reflexivity. Qed.

Lemma governed_capability_call_witness :
  ∃ c w' v, weather_run rw_start = (Ok (Allowed c), w') ∧ strings_of c = ["[address]"; "Light rain"] ∧
    released rw_env shown_type unreadable cap_kernel rm_runner weather_call weather_fresh None v c.
Proof.
  pose proof weather_masked as Hx. unfold run_res in Hx. destruct (weather_run rw_start) as [[[c|d]|e] w'] eqn:Hrun; [|discriminate Hx..].
  apply bool_decide_eq_true in Hx.
  pose proof (governed_capability_call rw_env (λ _, Ok rw_digester) shown_type unreadable plain_leaf (λ _, false) cap_kernel rw_surfaces rw_vault
    rm_runner weather_call weather_fresh false open_policy (λ _ _, mret rainy) weather_args rw_start _ w'
    cap_tool_kernel rw_start_ok Hrun) as Hg.
  destruct Hg as [Hn|(_ & _ & args' & ws & e & we & _ & _ & Hc)].
  - pose proof (Hn (λ _ _, raise (Exn "ValueError" ""))) as H. vm_compute in H. discriminate H.
  - destruct (Hc c eq_refl) as (v & _ & Hr). exists c, w', v. split; [reflexivity|]. split; [exact Hx|exact Hr].
Defined.

(** A stream of two lines. *)
Definition lines_call : CapabilityCall :=
  {| cc_caller := "core:planner"; cc_provider := "sky"; cc_capability := "weather.forecast"; cc_method := "lines";
     cc_effect := "read"; cc_confirm := "never"; cc_fields := [""]; cc_shape := "stream"; cc_value_type := TStr;
     cc_content := "external"; cc_sends_to := None; cc_classification := None |}.
Definition two_lines (i : nat) : M RunWorld (option value) := mret ([PStr "rain"; PStr "sun"] !! i).
Definition lines_run : M RunWorld (governed StreamRun) :=
  execute_stream rw_env (λ _, Ok rw_digester) shown_type unreadable plain_leaf (λ _, false) (Some cap_kernel) rm_runner
    lines_call weather_fresh true (λ _ _, mret (Ok two_lines)) [] 5.

Lemma lines_streamed :
  match run_res lines_run rw_start with
  | Ok (Allowed s) => bool_decide (flat_map strings_of (sr_items s) = ["rain"; "sun"]) && exhausted (sr_stop s)
  | _ => false
  end = true.
Proof. vm_compute. reflexivity. Qed.

Lemma governed_stream_items_witness :
  ∃ s w', lines_run rw_start = (Ok (Allowed s), w') ∧ flat_map strings_of (sr_items s) = ["rain"; "sun"] ∧ length (sr_items s) ≤ 5.
Proof.
  pose proof lines_streamed as Hx. unfold run_res in Hx. destruct (lines_run rw_start) as [[[s|d]|e] w'] eqn:Hrun; [|discriminate Hx..].
  apply andb_true_iff in Hx as [Hx _]. apply bool_decide_eq_true in Hx. exists s, w'. split; [reflexivity|]. split; [exact Hx|].
  exact (proj1 (governed_stream_items rw_env (λ _, Ok rw_digester) shown_type unreadable plain_leaf (λ _, false) cap_kernel rm_runner
    lines_call weather_fresh true (λ _ _, mret (Ok two_lines)) [] 5 rw_start s w' Hrun)).
Defined.

Lemma failure_tells_class_only_witness :
  run_state (weather_execute (λ _ _, raise (Exn "ValueError" "no such street: Rua do Sol 4"))) rw_start
  = run_state (weather_execute (λ _ _, raise (Exn "ValueError" "timeout"))) rw_start.
Proof.
  apply (failure_tells_class_only rw_env (λ _, Ok rw_digester) shown_type unreadable plain_leaf (λ _, false) cap_kernel rm_runner
    weather_call weather_fresh false).
  intros scope a ws. exists (Exn "ValueError" "no such street: Rua do Sol 4"), (Exn "ValueError" "timeout"), ws.
  split; [reflexivity|]. split; reflexivity.
Defined.
