(* ===== verification/AuditLog.v ===== *)
(** * The audit ledger ([audit/log.py], [audit/sequence.py], [audit/spool.py])

    One writer of the append-only ledger: the sequence numbers it takes before each write,
    the transaction that puts a row in the database with the gap rows the writer owes, the
    spool that takes the row when the database will not, the drain that puts spooled rows
    back, and the compaction that moves rows to the cold archive.

    The database refuses what its unique indexes forbid; every other failure of SQLite or of
    the file system is an argument of the operation it strikes.  A JSON column is kept as
    the value it encodes. *)

From S2P Require Import Prelude PyVal PyText Hooks Kernel.
From stdpp Require Import options.

(** ** The sequence of a writer *)

Definition START_SEQ : Z := 0.
Definition MAX_GAPS_PER_WRITE : nat := 16.
Definition KIND_GAP : string := "gap".
Definition KIND_WRITER : string := "writer".
Definition KIND_COMPACTION : string := "compaction".
Definition WRITER_START : string := "writer.start".
Definition WRITER_CLOSE : string := "writer.close".
Definition GAP_HOOK : string := "audit.gap".
Definition COMPACTION_HOOK : string := "audit.compaction".

(** A sequence number whose write failed, and what became of its record. *)
Record Missing := { miss_seq : Z; cause : string; miss_spooled : bool }.

Record Writer := {
  writer_id : string;
  next_seq : Z;
  started : bool;
  missing : list Missing;
}.

Definition new_writer (id : string) : Writer :=
  {| writer_id := id; next_seq := 1; started := false; missing := [] |}.

(** A run of consecutive missing numbers, for one gap row. *)
Record GapRange := {
  first_missing : Z;
  last_missing : Z;
  causes : list (string * Z);
  gap_spooled : Z;
  gap_lost : Z;
  gap_items : list Missing;
}.

Definition set_next (n : Z) (w : Writer) : Writer :=
  {| writer_id := writer_id w; next_seq := n; started := started w; missing := missing w |}.
Definition set_missing (l : list Missing) (w : Writer) : Writer :=
  {| writer_id := writer_id w; next_seq := next_seq w; started := started w; missing := l |}.
Definition mark_started (w : Writer) : Writer :=
  {| writer_id := writer_id w; next_seq := next_seq w; started := true; missing := missing w |}.

(** [allocate]: the number is taken before the write is attempted. *)
Definition allocate (w : Writer) : Z * Writer := (next_seq w, set_next (next_seq w + 1) w).

(** Consecutive runs of an ascending list, newest run and newest item first. *)
Definition add_to_runs (runs : list (list Missing)) (m : Missing) : list (list Missing) :=
  match runs with
  | (x :: run) :: rest =>
      if (miss_seq m =? miss_seq x + 1)%Z then (m :: x :: run) :: rest else [m] :: runs
  | _ => [m] :: runs
  end.

Definition runs_of (ordered : list Missing) : list (list Missing) :=
  reverse (map reverse (fold_left add_to_runs ordered [])).

Fixpoint count_cause (c : string) (l : list (string * Z)) : list (string * Z) :=
  match l with
  | [] => [(c, 1%Z)]
  | (c', n) :: l' => if String.eqb c c' then (c', (n + 1)%Z) :: l' else (c', n) :: count_cause c l'
  end.

(** The gap of a run; [None] for no run. *)
Definition gap_of (run : list Missing) : option GapRange :=
  match run, last run with
  | m0 :: _, Some mn =>
      let spooled := Z.of_nat (count_where miss_spooled run) in
      Some {| first_missing := miss_seq m0; last_missing := miss_seq mn;
              causes := fold_left (λ acc m, count_cause (cause m) acc) run [];
              gap_spooled := spooled; gap_lost := (Z.of_nat (length run) - spooled)%Z;
              gap_items := run |}
  | _, _ => None
  end.

Definition seq_in (l : list Missing) (m : Missing) : bool :=
  existsb (λ x, (miss_seq x =? miss_seq m)%Z) l.

(** [claim_gaps]: at most [MAX_GAPS_PER_WRITE] runs leave the writer. *)
Definition claim_gaps (w : Writer) : list GapRange * Writer :=
  match missing w with
  | [] => ([], w)
  | _ =>
      let taken := take MAX_GAPS_PER_WRITE (runs_of (sort_by miss_seq (missing w))) in
      let claimed := concat taken in
      (omap gap_of taken,
       set_missing (select_where (λ m, negb (seq_in claimed m)) (missing w)) w)
  end.

(** [restore_gaps] *)
Definition restore_gaps (gs : list GapRange) (w : Writer) : Writer :=
  set_missing (missing w ++ concat (map gap_items gs)) w.

(** [GapRange.as_payload] *)
Definition gap_payload (g : GapRange) : dict :=
  <["first_missing" := VInt (first_missing g)]> (<["last_missing" := VInt (last_missing g)]>
    (<["count" := VInt (last_missing g - first_missing g + 1)]>
      (<["causes" := VDict (sort_kv (map (λ cn, (cn.1, VInt cn.2)) (causes g)))]>
        (<["spooled" := VInt (gap_spooled g)]> {["lost" := VInt (gap_lost g)]})))).

(** ** Rows *)

(** The identity columns of a row, from the payload the kernel stamped: a value of the wrong
    type is dropped. *)
Record IdentityCols := {
  col_session : option string; col_turn : option string; col_call : option string;
  col_parent : option string; col_attempt : option Z; col_replay : option string;
  col_resumed : option string; col_bot : option string;
}.

Definition int_value (d : dict) (key : string) : option Z :=
  match d !! key with Some (VInt z) => Some z | _ => None end.

(** [_identity_values] *)
Definition identity_values (p : dict) : IdentityCols :=
  {| col_session := get_nonempty p "session_id"; col_turn := get_nonempty p TURN_ID;
     col_call := get_nonempty p CALL_ID; col_parent := get_nonempty p PARENT_CALL_ID;
     col_attempt := int_value p ATTEMPT; col_replay := get_nonempty p REPLAY_OF;
     col_resumed := get_nonempty p RESUMED_FROM_RUN; col_bot := get_nonempty p BOT_ID |}.

(** A row on its way to the database: what [record] was given, its number and its ids. *)
Record NewRow := {
  nr_ts : Z;
  nr_row : AuditRow;
  record_id : string;
  nr_writer : string;
  nr_seq : Z;
  nr_kind : option string;
}.

Record DbRow := { db_id : Z; db_new : NewRow; db_identity : IdentityCols }.

Record Db := { db_rows : list DbRow; db_next : Z }.

(** The unique indexes on [record_id] and on [(writer_id, writer_seq)]. *)
Definition same_key (n n' : NewRow) : bool :=
  String.eqb (record_id n) (record_id n') ||
  String.eqb (nr_writer n) (nr_writer n') && (nr_seq n =? nr_seq n')%Z.

Definition conflicts (n : NewRow) (d : Db) : bool :=
  existsb (λ r, same_key n (db_new r)) (db_rows d).

(** [_insert]: the new row's id, or 0 when [OR IGNORE] left it out. *)
Definition db_insert (or_ignore : bool) (n : NewRow) (d : Db) : res (Db * Z) :=
  if conflicts n d then
    if or_ignore then Ok (d, 0%Z)
    else Raise (Exn "IntegrityError" "UNIQUE constraint failed: audit_log")
  else
    Ok ({| db_rows := db_rows d ++ [{| db_id := db_next d; db_new := n;
                                       db_identity := identity_values (row_payload (nr_row n)) |}];
           db_next := (db_next d + 1)%Z |}, db_next d).

(** [_insert_meta]: a row the store writes about itself. *)
Definition meta_row (w : Writer) (seq : Z) (kind hook why : string) (payload : dict) (sev ulid : string)
    (now : Z) : NewRow :=
  {| nr_ts := now;
     nr_row := {| row_run_id := "audit:" +:+ writer_id w; row_step_id := None;
                  row_agent_type := "audit"; row_hook_point := hook; row_plugin := "audit";
                  row_decision := "allow"; row_severity := sev; row_reason := why;
                  row_classification := None; row_tier := None;
                  row_payload := setdefault "writer_id" (Some (VStr (writer_id w))) payload |};
     record_id := ulid; nr_writer := writer_id w; nr_seq := seq; nr_kind := Some kind |}.

(** ** The store *)

(** A line of the spool: a record [spool.validate] accepts, or any other text. *)
Inductive spool_line := SpoolRecord (n : NewRow) | Malformed (text : string).

(** The database, its spool, this process's writer and what the process counts; and the rows
    a compaction moved to the archive's chunks. *)
Record AuditStore := {
  db : Db;
  spool : list spool_line;
  rejected : list string;
  writer : Writer;
  lost_writes : Z;
  spooled_writes : Z;
  last_cause : option string;
  archived : list DbRow;
}.

Definition with_db (d : Db) (s : AuditStore) : AuditStore :=
  {| db := d; spool := spool s; rejected := rejected s; writer := writer s;
     lost_writes := lost_writes s; spooled_writes := spooled_writes s;
     last_cause := last_cause s; archived := archived s |}.
Definition with_spool (l : list spool_line) (bad : list string) (s : AuditStore) : AuditStore :=
  {| db := db s; spool := l; rejected := bad; writer := writer s;
     lost_writes := lost_writes s; spooled_writes := spooled_writes s;
     last_cause := last_cause s; archived := archived s |}.
Definition with_writer (w : Writer) (s : AuditStore) : AuditStore :=
  {| db := db s; spool := spool s; rejected := rejected s; writer := w;
     lost_writes := lost_writes s; spooled_writes := spooled_writes s;
     last_cause := last_cause s; archived := archived s |}.

(** [note_failure] *)
Definition note_failure (seq : Z) (e : exn) (spooled_ own : bool) (s : AuditStore) : AuditStore :=
  let m := {| miss_seq := seq; cause := exn_class e; miss_spooled := spooled_ |} in
  {| db := db s; spool := spool s; rejected := rejected s;
     writer := set_missing (missing (writer s) ++ [m]) (writer s);
     lost_writes := if own || spooled_ then lost_writes s else (lost_writes s + 1)%Z;
     spooled_writes := if negb own && spooled_ then (spooled_writes s + 1)%Z else spooled_writes s;
     last_cause := Some (exn_class e); archived := archived s |}.

(** The numbers a failed transaction took for gap rows. *)
Definition note_extra (extra : list Z) (e : exn) (s : AuditStore) : AuditStore :=
  fold_left (λ s seq, note_failure seq e false true s) extra s.

(** What SQLite does to one transaction. *)
Inductive db_fault :=
| NoFault
| FailsInsert (e : exn)
| FailsStart (e : exn)
| FailsGap (n : nat) (e : exn)
| FailsCommit (e : exn).

(** What a drain meets: nothing, a database that will not take the rows, or a spool file that
    cannot be rewritten after it did. *)
Inductive drain_fault := Drains | DrainDbFails | DrainRewriteFails.

(** What one call reads of the process, and what fails under it. *)
Record Call := {
  c_now : Z;
  c_ulid : nat → string;
  c_process : dict;
  c_db : db_fault;
  c_spool : option exn;
  c_drain : drain_fault;
}.

(** The gap rows of [_write_preamble]: the numbers taken, the database, or the exception.
    [n] counts the gap rows and [k] the ids minted so far. *)
Fixpoint insert_gaps (c : Call) (gs : list GapRange) (n k : nat) (w : Writer) (d : Db)
    : option exn * Writer * Db * list Z :=
  match gs with
  | [] => (None, w, d, [])
  | g :: gs' =>
      let '(seq, w1) := allocate w in
      let row := meta_row w seq KIND_GAP GAP_HOOK
                   "audit rows of this writer did not reach the ledger when written"
                   (gap_payload g) (if (0 <? gap_lost g)%Z then "error" else "warning")
                   (c_ulid c k) (c_now c) in
      let failed := match c_db c with FailsGap n' e => if Nat.eqb n n' then Some e else None | _ => None end in
      match failed, db_insert true row d with
      | Some e, _ | None, Raise e => (Some e, w1, d, [seq])
      | None, Ok (d1, _) =>
          let '(r, w2, d2, extra) := insert_gaps c gs' (S n) (S k) w1 d1 in
          (r, w2, d2, seq :: extra)
      end
  end.

(** [_write_preamble] inside a row's transaction: the exception it ended with, if any; the
    writer (with the gaps handed back when it failed), the database the transaction would
    commit, the gaps claimed and the numbers taken for their rows. *)
Definition write_preamble (c : Call) (k : nat) (w : Writer) (d : Db)
    : option exn * Writer * Db * list GapRange * list Z :=
  let start := meta_row w START_SEQ KIND_WRITER WRITER_START
                 "this process began writing to the ledger" (c_process c) "info" (c_ulid c k) (c_now c) in
  let begun := if started w then Ok d
               else match c_db c with
                    | FailsStart e => Raise e
                    | _ => match db_insert true start d with Ok (d', _) => Ok d' | Raise e => Raise e end
                    end in
  match begun with
  | Raise e => (Some e, w, d, [], [])
  | Ok d1 =>
      let '(gs, w1) := claim_gaps w in
      match insert_gaps c gs 0 (S k) w1 d1 with
      | (Some e, w2, d2, extra) => (Some e, restore_gaps gs w2, d2, [], extra)
      | (None, w2, d2, extra) => (None, w2, d2, gs, extra)
      end
  end.

(** [spool.drain] through [_apply_spooled]. *)
Definition spool_records (l : list spool_line) : list NewRow :=
  omap (λ x, match x with SpoolRecord n => Some n | Malformed _ => None end) l.
Definition spool_rejects (l : list spool_line) : list string :=
  omap (λ x, match x with SpoolRecord _ => None | Malformed t => Some t end) l.

Definition apply_spooled (good : list NewRow) (d : Db) : Db :=
  fold_left (λ d n, match db_insert true n d with Ok (d', _) => d' | Raise _ => d end) good d.

Definition drain_spool (f : drain_fault) (s : AuditStore) : AuditStore :=
  let good := spool_records (spool s) in
  let bad := rejected s ++ spool_rejects (spool s) in
  match spool s, f with
  | [], _ => s
  | _, Drains => with_spool [] bad (with_db (apply_spooled good (db s)) s)
  | _, DrainDbFails =>
      match good with
      | [] => with_spool [] bad s
      | _ => with_spool (match spool_rejects (spool s) with [] => spool s | _ => map SpoolRecord good end)
               bad s
      end
  | _, DrainRewriteFails => with_spool (spool s) bad (with_db (apply_spooled good (db s)) s)
  end.

(** [_spool_or_raise] *)
Definition spool_or_raise (c : Call) (n : NewRow) (e : exn) : M AuditStore unit := λ s,
  match c_spool c with
  | Some _ => (Raise e, note_failure (nr_seq n) e false false s)
  | None => (Ok tt, note_failure (nr_seq n) e true false
                      (with_spool (spool s ++ [SpoolRecord n]) (rejected s) s))
  end.

(** [_write]: number the row, write it with the writer's start and the gaps it owes, or spool
    it.  The id it returns is 0 when the spool took the row. *)
Definition write_row (c : Call) (row : AuditRow) (ts : Z) (kind : option string) : M AuditStore Z := λ s,
  let '(seq, w) := allocate (writer s) in
  let n := {| nr_ts := ts; nr_row := row; record_id := c_ulid c 0; nr_writer := writer_id w;
              nr_seq := seq; nr_kind := kind |} in
  let fail e w' extra :=
    (_ ← spool_or_raise c n e; mret 0%Z) (note_extra extra e (with_writer w' s)) in
  match (match c_db c with FailsInsert e => Raise e | _ => db_insert false n (db s) end) with
  | Raise e => fail e w []
  | Ok (d1, id) =>
      match write_preamble c 1 w d1 with
      | (Some e, w1, _, _, extra) => fail e w1 extra
      | (None, w1, d2, gs, extra) =>
          match c_db c with
          | FailsCommit e => fail e (restore_gaps gs w1) extra
          | _ => (Ok id, drain_spool (c_drain c) (with_writer (mark_started w1) (with_db d2 s)))
          end
      end
  end.

(** [_with_process_bot]: the caller's [bot_id] is replaced by the process's own, or removed. *)
Definition with_process_bot (bot : option string) (p : dict) : dict :=
  match nonempty bot with Some b => <[BOT_ID := VStr b]> p | None => delete BOT_ID p end.

Definition stamped (bot : option string) (r : AuditRow) : AuditRow :=
  {| row_run_id := row_run_id r; row_step_id := row_step_id r; row_agent_type := row_agent_type r;
     row_hook_point := row_hook_point r; row_plugin := row_plugin r;
     row_decision := row_decision r; row_severity := row_severity r; row_reason := row_reason r;
     row_classification := row_classification r; row_tier := row_tier r;
     row_payload := with_process_bot bot (row_payload r) |}.

(** [AuditLog.record]; [bot] is what the process's bot id source answers. *)
Definition record (c : Call) (bot : option string) (r : AuditRow) : M AuditStore Z :=
  write_row c (stamped bot r) (c_now c) None.

(** [_close_writer], for a started writer. *)
Definition close_writer (c : Call) (pid : Z) : M AuditStore Z := λ s,
  let w := writer s in
  write_row c
    {| row_run_id := "audit:" +:+ writer_id w; row_step_id := None; row_agent_type := "audit";
       row_hook_point := WRITER_CLOSE; row_plugin := "audit"; row_decision := "allow";
       row_severity := "info"; row_reason := "this process finished writing to the ledger";
       row_classification := None; row_tier := None;
       row_payload := <["writer_id" := VStr (writer_id w)]>
                        (<["last_seq" := VInt (next_seq w - 1)]> {["pid" := VInt pid]}) |}
    (c_now c) (Some KIND_WRITER) s.

(** A row the archive holds, by its id and record id. *)
Definition is_pair (r : DbRow) (kp : Z * string) : bool :=
  (db_id r =? kp.1)%Z && String.eqb (record_id (db_new r)) kp.2.

Definition pair_found (d : Db) (kp : Z * string) : bool := existsb (λ r, is_pair r kp) (db_rows d).

Definition in_pairs (pairs : list (Z * string)) (r : DbRow) : bool :=
  existsb (λ kp, (db_id r =? kp.1)%Z) pairs.

(** The delete of a compaction; its rows are in the archive's chunks. *)
Definition archive_rows (pairs : list (Z * string)) (s : AuditStore) : AuditStore :=
  {| db := {| db_rows := select_where (λ r, negb (in_pairs pairs r)) (db_rows (db s));
              db_next := db_next (db s) |};
     spool := spool s; rejected := rejected s; writer := writer s; lost_writes := lost_writes s;
     spooled_writes := spooled_writes s; last_cause := last_cause s;
     archived := archived s ++ select_where (in_pairs pairs) (db_rows (db s)) |}.

(** [write_compaction]: the marker and the delete, in one transaction. *)
Definition write_compaction (c : Call) (payload : dict) (pairs : list (Z * string))
    : M AuditStore Z := λ s,
  let '(seq, w) := allocate (writer s) in
  let marker := meta_row w seq KIND_COMPACTION COMPACTION_HOOK
                  "audit rows moved from the ledger to the cold archive" payload "info"
                  (c_ulid c 0) (c_now c) in
  let fail e w' extra :=
    (Raise e, note_extra extra e (note_failure seq e false true (with_writer w' s))) in
  match (match c_db c with FailsInsert e => Raise e | _ => db_insert true marker (db s) end) with
  | Raise e => fail e w []
  | Ok (d1, _) =>
      match write_preamble c 1 w d1 with
      | (Some e, w1, _, _, extra) => fail e w1 extra
      | (None, w1, d2, gs, extra) =>
          let refuse e := fail e (restore_gaps gs w1) extra in
          if negb (bool_decide (NoDup (map fst pairs))) then
            refuse (Exn "IntegrityError" "UNIQUE constraint failed: _compact_keys.id")
          else if negb (forallb (pair_found d2) pairs) then
            refuse (Exn "CompactionConflict" "archived rows changed")
          else match c_db c with
               | FailsCommit e => refuse e
               | _ => (Ok (Z.of_nat (length pairs)),
                       drain_spool (c_drain c)
                         (archive_rows pairs (with_writer (mark_started w1) (with_db d2 s))))
               end
      end
  end.

(** The rows of [record_many], one at a time inside the batch's transaction; a row whose
    insert fails ([refuses]) goes to the spool by itself.  [d] is what the transaction would
    commit. *)
Fixpoint insert_batch (c : Call) (rows : list AuditRow) (refuses : nat → option exn) (n k : nat)
    (d : Db) (s : AuditStore) : list (option Z) * Db * AuditStore :=
  match rows with
  | [] => ([], d, s)
  | r :: rows' =>
      let '(seq, w) := allocate (writer s) in
      let row := {| nr_ts := c_now c; nr_row := r; record_id := c_ulid c k;
                    nr_writer := writer_id w; nr_seq := seq; nr_kind := None |} in
      let s1 := with_writer w s in
      match (match refuses n with Some e => Raise e | None => db_insert false row d end) with
      | Ok (d1, id) =>
          let '(ids, d2, s2) := insert_batch c rows' refuses (S n) (S k) d1 s1 in
          (Some id :: ids, d2, s2)
      | Raise e =>
          let '(ids, d2, s2) := insert_batch c rows' refuses (S n) (S k) d
                                  (run_state (spool_or_raise c row e) s1) in
          (None :: ids, d2, s2)
      end
  end.

(** [record_many] *)
Definition record_many (c : Call) (rows : list AuditRow) (refuses : nat → option exn)
    : M AuditStore (list (option Z)) := λ s,
  match c_db c with
  | FailsInsert e => (Raise e, s)
  | _ =>
      match write_preamble c 0 (writer s) (db s) with
      | (Some e, w1, _, _, extra) => (Raise e, note_extra extra e (with_writer w1 s))
      | (None, w1, d1, gs, extra) =>
          let '(ids, d2, s2) := insert_batch c rows refuses 0 (S (length gs)) d1 (with_writer w1 s) in
          match c_db c with
          | FailsCommit e =>
              (Raise e, note_extra extra e (with_writer (restore_gaps gs (writer s2)) s2))
          | _ => (Ok ids, drain_spool (c_drain c)
                            (with_writer (mark_started (writer s2)) (with_db d2 s2)))
          end
      end
  end.

(** [query], without the filters on the payload: the rows in [ts] order, ties by id. *)
Record Filter := {
  f_run_id : option string; f_decision : option string; f_severity : option string;
  f_plugin : option string; f_since : option Z; f_until : option Z; f_store_rows : bool;
}.

Definition matches (f : Filter) (r : DbRow) : bool :=
  let n := db_new r in
  let eq (want : option string) (have : string) :=
    match want with Some x => String.eqb have x | None => true end in
  (f_store_rows f || bool_decide (nr_kind n = None)) &&
  eq (f_run_id f) (row_run_id (nr_row n)) && eq (f_decision f) (row_decision (nr_row n)) &&
  eq (f_severity f) (row_severity (nr_row n)) && eq (f_plugin f) (row_plugin (nr_row n)) &&
  match f_since f with Some t => (t <=? nr_ts n)%Z | None => true end &&
  match f_until f with Some t => (nr_ts n <=? t)%Z | None => true end.

Definition query (f : Filter) (limit : option nat) (s : AuditStore) : list DbRow :=
  let found := sort_by (nr_ts ∘ db_new) (select_where (matches f) (db_rows (db s))) in
  match limit with Some n => take n found | None => found end.

Definition count (store_rows : bool) (s : AuditStore) : nat :=
  count_where (λ r, store_rows || bool_decide (nr_kind (db_new r) = None)) (db_rows (db s)).

(** ** Gaps cover what they claim *)

(** A run, newest item first, goes down by one. *)
Fixpoint descends (run : list Missing) : Prop :=
  match run with
  | x :: (y :: _) as run' => miss_seq x = (miss_seq y + 1)%Z ∧ descends run'
  | _ => True
  end.

Definition runs_ok (runs : list (list Missing)) : Prop := Forall (λ r, r ≠ [] ∧ descends r) runs.

Lemma add_to_runs_ok runs m : runs_ok runs → runs_ok (add_to_runs runs m).
Proof.
  intros Hr. unfold add_to_runs. destruct runs as [|[|x run] rest]; [by repeat constructor|..].
  { constructor; [by split|done]. }
  destruct (_ =? _)%Z eqn:He; [|constructor; [by split|done]].
  apply Z.eqb_eq in He. inversion Hr as [|? ? [_ Hd] Hrest]; subst.
  constructor; [|done]. split; [done|]. split; [lia|done].
Qed.

Lemma add_to_runs_elem runs m x :
  (∃ r, r ∈ add_to_runs runs m ∧ x ∈ r) ↔ x = m ∨ ∃ r, r ∈ runs ∧ x ∈ r.
Proof.
  assert ((∃ r, r ∈ [m] :: runs ∧ x ∈ r) ↔ x = m ∨ ∃ r, r ∈ runs ∧ x ∈ r) as Hnew.
  { split.
    - intros (r & [->|Hr]%elem_of_cons & Hx); [left; by apply list_elem_of_singleton|right; eauto].
    - intros [->|(r & Hr & Hx)]; [exists [m]; split; by left|exists r; split; [by right|done]]. }
  unfold add_to_runs. destruct runs as [|[|y run] rest]; [done..|].
  destruct (_ =? _)%Z; [|done]. split.
  - intros (r & [->|Hr]%elem_of_cons & Hx); [|right; exists r; split; [by right|done]].
    apply elem_of_cons in Hx as [->|Hx]; [by left|right]. exists (y :: run). split; [by left|done].
  - intros [->|(r & [->|Hr]%elem_of_cons & Hx)].
    + eexists. split; [by left|by left].
    + eexists. split; [by left|by right].
    + exists r. split; [by right|done].
Qed.

Lemma fold_runs_ok l runs : runs_ok runs → runs_ok (fold_left add_to_runs l runs).
Proof. revert runs. induction l as [|m l IH]; intros runs Hr; [done|]. by apply IH, add_to_runs_ok. Qed.

Lemma fold_runs_elem l runs x :
  (∃ r, r ∈ fold_left add_to_runs l runs ∧ x ∈ r) ↔ x ∈ l ∨ ∃ r, r ∈ runs ∧ x ∈ r.
Proof.
  revert runs. induction l as [|m l IH]; intros runs; simpl.
  - split; [by right|]. intros [?%elem_of_nil|?]; done.
  - rewrite IH, add_to_runs_elem, elem_of_cons. tauto.
Qed.

Lemma runs_of_elem l x : (∃ r, r ∈ runs_of l ∧ x ∈ r) ↔ x ∈ l.
Proof.
  pose proof (fold_runs_elem l [] x) as Hf. unfold runs_of. split.
  - intros (r & Hr & Hx). apply elem_of_reverse, list_elem_of_fmap in Hr as (r0 & -> & Hr0).
    rewrite elem_of_reverse in Hx. assert (x ∈ l ∨ ∃ r : list Missing, r ∈ [] ∧ x ∈ r) as [?|(? & ?%elem_of_nil & _)];
      [apply Hf; eauto|done..].
  - intros Hx. destruct (proj2 Hf (or_introl Hx)) as (r & Hr & Hxr). exists (reverse r).
    split; [|by apply elem_of_reverse]. apply elem_of_reverse, list_elem_of_fmap. eauto.
Qed.

Lemma runs_of_descend l r : r ∈ runs_of l → ∃ d, r = reverse d ∧ d ≠ [] ∧ descends d.
Proof.
  unfold runs_of. intros Hr. apply elem_of_reverse, list_elem_of_fmap in Hr as (d & -> & Hd).
  exists d. split; [done|]. pose proof (fold_runs_ok l [] ltac:(constructor)) as Hok.
  unfold runs_ok in Hok. rewrite Forall_forall in Hok. by apply Hok.
Qed.

(** The first and last of a run bound it. *)
Lemma descends_bounds d x y m :
  descends (x :: d) → last (x :: d) = Some y → m ∈ x :: d →
  (miss_seq y ≤ miss_seq m ≤ miss_seq x)%Z.
Proof.
  revert x m. induction d as [|z d IH]; intros x m Hd Hl Hm.
  - injection Hl as <-. apply list_elem_of_singleton in Hm as ->. lia.
  - destruct Hd as [Hx Hd]. change (last (x :: z :: d)) with (last (z :: d)) in Hl.
    assert (miss_seq y ≤ miss_seq z)%Z.
    { destruct (IH z z Hd Hl); [by left|done]. }
    apply elem_of_cons in Hm as [->|Hm]; [lia|]. specialize (IH z m Hd Hl Hm). lia.
Qed.

Definition in_gap (g : GapRange) (seq : Z) : Prop := (first_missing g ≤ seq ≤ last_missing g)%Z.

Lemma gap_of_run l r m :
  r ∈ runs_of l → m ∈ r → ∃ g, gap_of r = Some g ∧ gap_items g = r ∧ in_gap g (miss_seq m).
Proof.
  intros (d & -> & Hne & Hd)%runs_of_descend Hm. rewrite elem_of_reverse in Hm.
  destruct d as [|x d]; [done|]. destruct (last (x :: d)) as [y|] eqn:Hl; [|by apply last_None in Hl].
  pose proof (descends_bounds d x y m Hd Hl Hm) as Hb.
  assert (last (reverse (x :: d)) = Some x) as Hlast by (by rewrite last_reverse).
  assert (head (reverse (x :: d)) = Some y) as Hhead by (by rewrite head_reverse).
  destruct (reverse (x :: d)) as [|m0 rest]; [done|]. injection Hhead as ->.
  unfold gap_of. rewrite Hlast. eexists. split; [done|]. split; [done|]. by unfold in_gap.
Qed.

(** Every missing number stays with the writer or is in a claimed gap, which carries it. *)
Lemma claim_gaps_spec w gs w' :
  claim_gaps w = (gs, w') →
  writer_id w' = writer_id w ∧ next_seq w' = next_seq w ∧ started w' = started w ∧
  ∀ m, m ∈ missing w → m ∈ missing w' ∨
    ∃ g, g ∈ gs ∧ in_gap g (miss_seq m) ∧ ∃ m', m' ∈ gap_items g ∧ miss_seq m' = miss_seq m.
Proof.
  unfold claim_gaps. destruct (missing w) as [|m0 ms] eqn:Hm.
  { intros [= <- <-]. split_and!; [done..|]. rewrite Hm. by intros m ?%elem_of_nil. }
  rewrite <- Hm. intros [= <- <-]. split_and!; [done..|]. intros m Hin. simpl.
  set (taken := take _ _). destruct (seq_in (concat taken) m) eqn:Hs.
  2: { left. apply elem_of_select_where. by rewrite Hs. }
  right. apply existsb_exists in Hs as (m' & Hm' & He%Z.eqb_eq).
  apply in_concat in Hm' as (r & Hr%list_elem_of_In & Hmr%list_elem_of_In).
  assert (r ∈ runs_of (sort_by miss_seq (missing w))) as Hrun.
  { unfold taken in Hr. apply list_elem_of_lookup_1 in Hr as (i & Hi).
    apply lookup_take_Some in Hi as [Hi _]. by eapply list_elem_of_lookup_2. }
  destruct (gap_of_run _ _ m' Hrun Hmr) as (g & Hg & Hit & Hin').
  exists g. split; [apply list_elem_of_omap; eauto|]. rewrite <- He. split; [done|].
  exists m'. by rewrite Hit.
Qed.

(** ** What a transaction adds *)

Definition by_writer (id : string) (r : DbRow) : Prop := nr_writer (db_new r) = id.

(** A row that accounts for a number of a writer: its own, or a gap row over it. *)
Definition has_number (id : string) (seq : Z) (r : DbRow) : Prop :=
  by_writer id r ∧ nr_seq (db_new r) = seq.

Definition covers (id : string) (seq : Z) (r : DbRow) : Prop :=
  by_writer id r ∧ nr_kind (db_new r) = Some KIND_GAP ∧
  ∃ a b, row_payload (nr_row (db_new r)) !! "first_missing" = Some (VInt a) ∧
         row_payload (nr_row (db_new r)) !! "last_missing" = Some (VInt b) ∧ (a ≤ seq ≤ b)%Z.

(** The ids a call mints from the [k]-th on are new to a table. *)
Definition fresh_ids (u : nat → string) (k : nat) (l : list NewRow) : Prop :=
  (∀ i j, u i = u j → i = j) ∧ ∀ i n, k ≤ i → n ∈ l → record_id n ≠ u i.

Definition news (d : Db) : list NewRow := map db_new (db_rows d).

(** A writer's rows carry numbers it has taken. *)
Definition below (w : Writer) (l : list NewRow) : Prop :=
  ∀ n, n ∈ l → nr_writer n = writer_id w → (nr_seq n < next_seq w)%Z.

Lemma elem_of_news d n : n ∈ news d ↔ ∃ r, r ∈ db_rows d ∧ db_new r = n.
Proof.
  unfold news. rewrite list_elem_of_fmap. split; intros (r & H1 & H2); exists r; auto.
Qed.

Lemma conflicts_false n d :
  (∀ n', n' ∈ news d → same_key n n' = false) → conflicts n d = false.
Proof.
  intros Hf. apply not_true_iff_false. intros (r & Hr%list_elem_of_In & Hk)%existsb_exists.
  rewrite Hf in Hk; [done|]. apply elem_of_news. eauto.
Qed.

Lemma fresh_no_conflict u k w n d :
  fresh_ids u k (news d) → below w (news d) → record_id n = u k →
  nr_writer n = writer_id w → (next_seq w ≤ nr_seq n)%Z → conflicts n d = false.
Proof.
  intros [_ Hf] Hb Hid Hw Hs. apply conflicts_false. intros n' Hn'. unfold same_key.
  apply orb_false_iff. split.
  - apply String.eqb_neq. rewrite Hid. intros He. by apply (Hf k n').
  - apply andb_false_iff. destruct (String.eqb_spec (nr_writer n) (nr_writer n')) as [He|]; [right|by left].
    apply Z.eqb_neq. specialize (Hb n' Hn' ltac:(congruence)). lia.
Qed.

Lemma db_insert_ok b n d d' id :
  db_insert b n d = Ok (d', id) →
  (d' = d ∧ conflicts n d = true) ∨
  (conflicts n d = false ∧ id = db_next d ∧ ∃ r, db_rows d' = db_rows d ++ [r] ∧ db_new r = n ∧
   db_id r = db_next d ∧ news d' = news d ++ [n]).
Proof.
  unfold db_insert. destruct (conflicts n d) eqn:Hc; [destruct b; [|done]|]; intros [= <- <-].
  - by left.
  - right. split_and!; [done..|]. eexists. split; [done|]. split_and!; [done..|].
    unfold news. simpl. by rewrite map_app.
Qed.

Lemma db_insert_fresh b n d :
  conflicts n d = false →
  ∃ d' r, db_insert b n d = Ok (d', db_next d) ∧ db_rows d' = db_rows d ++ [r] ∧ db_new r = n ∧
    news d' = news d ++ [n].
Proof.
  intros Hc. unfold db_insert. rewrite Hc. eexists _, _. split; [done|]. split; [done|].
  split; [done|]. unfold news. simpl. by rewrite map_app.
Qed.

Lemma fresh_ids_snoc u k k' l n :
  fresh_ids u k l → record_id n = u k → k < k' → fresh_ids u k' (l ++ [n]).
Proof.
  intros [Hi Hf] Hn Hk. split; [done|]. intros i n' Hle [Hin| ->%list_elem_of_singleton]%elem_of_app.
  - apply Hf; [lia|done].
  - rewrite Hn. intros He. apply Hi in He. lia.
Qed.

Lemma below_snoc w l n :
  below w l → (nr_writer n = writer_id w → nr_seq n ≤ next_seq w)%Z →
  below (set_next (next_seq w + 1) w) (l ++ [n]).
Proof.
  intros Hb Hn n' [Hin| ->%list_elem_of_singleton]%elem_of_app Hw; simpl in *.
  - specialize (Hb n' Hin Hw). lia.
  - specialize (Hn Hw). lia.
Qed.

Lemma gap_row_covers w seq g id now r sev why seq' :
  db_new r = meta_row w seq' KIND_GAP GAP_HOOK why (gap_payload g) sev id now →
  in_gap g seq → covers (writer_id w) seq r.
Proof.
  intros Hr Hg. unfold covers, by_writer. rewrite Hr. split_and!; [done..|].
  exists (first_missing g), (last_missing g). cbn [nr_row meta_row row_payload].
  rewrite !lookup_setdefault. unfold gap_payload.
  rewrite lookup_insert_eq, lookup_insert_ne by done. rewrite lookup_insert_eq.
  split; [reflexivity|]. split; [reflexivity|done].
Qed.

(** Numbers taken between two states of a writer. *)
Definition taken (w w' : Writer) (seq : Z) : Prop := (next_seq w ≤ seq < next_seq w')%Z.

(** A row this call wrote: by the writer, under an id it minted, with a number it took (the
    writer's start has the first). *)
Definition own_row (c : Call) (id : string) (lo : Z) (n : NewRow) : Prop :=
  nr_writer n = id ∧ (∃ i, record_id n = c_ulid c i) ∧ ((lo ≤ nr_seq n)%Z ∨ nr_seq n = START_SEQ).

Lemma own_row_weaken c id lo lo' n : (lo' ≤ lo)%Z → own_row c id lo n → own_row c id lo' n.
Proof. intros Hle (H1 & H2 & [H3|H3]); (split_and!; [done..|]); [left; lia|by right]. Qed.

Record gaps_result (c : Call) (gs : list GapRange) (k : nat) (w : Writer) (d : Db)
    (r : option exn) (w' : Writer) (d' : Db) (extra : list Z) : Prop := {
  gr_id : writer_id w' = writer_id w;
  gr_missing : missing w' = missing w;
  gr_started : started w' = started w;
  gr_next : (next_seq w ≤ next_seq w')%Z;
  gr_extra seq : taken w w' seq → seq ∈ extra;
  gr_rows : ∃ new, db_rows d' = db_rows d ++ new ∧
    (∀ x, x ∈ new → own_row c (writer_id w) (next_seq w) (db_new x)) ∧
    (r = None → ∀ seq, taken w w' seq → ∃ x, x ∈ new ∧ has_number (writer_id w) seq x) ∧
    (r = None → ∀ g seq, g ∈ gs → in_gap g seq → ∃ x, x ∈ new ∧ covers (writer_id w) seq x);
  gr_fresh : r = None → fresh_ids (c_ulid c) (k + length gs) (news d');
  gr_below : r = None → below w' (news d');
}.

Lemma insert_gaps_spec c gs n k w d r w' d' extra :
  insert_gaps c gs n k w d = (r, w', d', extra) →
  fresh_ids (c_ulid c) k (news d) → below w (news d) →
  gaps_result c gs k w d r w' d' extra.
Proof.
  revert n k w d r w' d' extra. induction gs as [|g gs IH]; intros n k w d r w' d' extra Hi Hf Hb.
  { injection Hi as <- <- <- <-. split; try done.
    - intros seq [? ?]. lia.
    - exists []. rewrite app_nil_r. split_and!; [done|by intros x ?%elem_of_nil| |].
      + intros _ seq [? ?]. lia.
      + by intros _ g seq ?%elem_of_nil.
    - by rewrite Nat.add_0_r. }
  cbn [insert_gaps allocate] in Hi.
  set (w1 := set_next (next_seq w + 1) w) in Hi.
  match type of Hi with context [db_insert true ?m d] => set (row := m) in Hi end.
  assert (conflicts row d = false) as Hc by (eapply (fresh_no_conflict _ _ w); [exact Hf|exact Hb|done|done|simpl; lia]).
  destruct (db_insert_fresh true row d Hc) as (d1 & x & Hins & Hrows & Hx & Hn). rewrite Hins in Hi.
  destruct (match c_db c with FailsGap n' e => if Nat.eqb n n' then Some e else None | _ => None end) as [e|].
  { injection Hi as <- <- <- <-. split; try done; simpl; [lia|intros seq [H1 H2]; simpl in *|].
    - apply list_elem_of_singleton. lia.
    - exists []. rewrite app_nil_r. split; [done|]. split; [by intros x' ?%elem_of_nil|done]. }
  destruct (insert_gaps c gs (S n) (S k) w1 d1) as [[[r2 w2] d2] extra2] eqn:Hrec.
  injection Hi as <- <- <- <-. apply IH in Hrec as [Gi Gm Gs Gn Ge (new & Gr & Gown & Gnum & Gcov) Gf Gb].
  - split; try done; simpl in *.
    + lia.
    + intros seq [H1 H2]. apply elem_of_cons. destruct (decide (seq = next_seq w)); [by left|right].
      apply Ge. split; simpl; lia.
    + exists (x :: new). split; [by rewrite Gr, Hrows, <- app_assoc|]. split; [|split].
      * intros y [->|Hy]%elem_of_cons.
        { rewrite Hx. split_and!; [done|by eexists|left; simpl; lia]. }
        eapply own_row_weaken; [|by apply Gown]. simpl. lia.
      * intros -> seq [H1 H2]. destruct (decide (seq = next_seq w)) as [->|].
        { exists x. split; [by left|]. unfold has_number, by_writer. by rewrite Hx. }
        destruct (Gnum eq_refl seq) as (y & Hy & Hhas); [split; simpl; lia|]. exists y. by split; [right|].
      * intros -> g' seq [->|Hg]%elem_of_cons Hin.
        { exists x. split; [by left|]. by eapply (gap_row_covers w seq g). }
        destruct (Gcov eq_refl g' seq Hg Hin) as (y & Hy & Hcv). exists y. by split; [right|].
    + intros ->. replace (k + S (length gs)) with (S k + length gs) by lia. by apply Gf.
  - rewrite Hn. eapply fresh_ids_snoc; [exact Hf|done|lia].
  - rewrite Hn. apply below_snoc; [done|]. intros _. simpl. lia.
Qed.

Record preamble_result (c : Call) (k : nat) (w : Writer) (d : Db)
    (r : option exn) (w' : Writer) (d' : Db) (gs : list GapRange) (extra : list Z) : Prop := {
  pr_id : writer_id w' = writer_id w;
  pr_next : (next_seq w ≤ next_seq w')%Z;
  pr_extra seq : taken w w' seq → seq ∈ extra;
  pr_failed m : m ∈ missing w →
    ∃ m', m' ∈ missing (match r with Some _ => w' | None => restore_gaps gs w' end) ∧ miss_seq m' = miss_seq m;
  pr_rows : r = None → ∃ new, db_rows d' = db_rows d ++ new ∧
    (∀ x, x ∈ new → own_row c (writer_id w) (next_seq w) (db_new x)) ∧
    (∀ seq, taken w w' seq → ∃ x, x ∈ new ∧ has_number (writer_id w) seq x) ∧
    (∀ m, m ∈ missing w → m ∈ missing w' ∨ ∃ x, x ∈ new ∧ covers (writer_id w) (miss_seq m) x);
  pr_fresh : r = None → fresh_ids (c_ulid c) (S k + length gs) (news d');
  pr_below : r = None → below w' (news d');
}.

(** The start row is there once, with the number 0. *)
Lemma start_spec c k w d row d1 id :
  nr_writer row = writer_id w → nr_seq row = START_SEQ → record_id row = c_ulid c k →
  (1 ≤ next_seq w)%Z → fresh_ids (c_ulid c) k (news d) → below w (news d) →
  db_insert true row d = Ok (d1, id) →
  (∃ new, db_rows d1 = db_rows d ++ new ∧
     ∀ x, x ∈ new → own_row c (writer_id w) (next_seq w) (db_new x)) ∧
  fresh_ids (c_ulid c) (S k) (news d1) ∧ below w (news d1).
Proof.
  intros Hw Hs Hid Hn Hf Hb [[-> _]|(_ & _ & r & Hr & Hx & _ & Hnews)]%db_insert_ok.
  - split; [exists []; rewrite app_nil_r; by split; [|intros x ?%elem_of_nil]|].
    split; [|done]. destruct Hf as [Hi Hf]. split; [done|]. intros i n Hle. apply Hf. lia.
  - split; [|split].
    + exists [r]. split; [done|]. intros x ->%list_elem_of_singleton. rewrite Hx.
      split_and!; [done|by eexists|by right].
    + rewrite Hnews. eapply fresh_ids_snoc; [exact Hf|done|lia].
    + rewrite Hnews. intros n [Hin| ->%list_elem_of_singleton]%elem_of_app Hwn; [by apply Hb|].
      rewrite Hs. unfold START_SEQ. lia.
Qed.

Lemma write_preamble_spec c k w d r w' d' gs extra :
  write_preamble c k w d = (r, w', d', gs, extra) →
  (1 ≤ next_seq w)%Z → fresh_ids (c_ulid c) k (news d) → below w (news d) →
  preamble_result c k w d r w' d' gs extra.
Proof.
  unfold write_preamble. intros Hp Hn Hf Hb.
  match type of Hp with match ?b with _ => _ end = _ => set (begun := b) in Hp end.
  assert (∀ d1, begun = Ok d1 →
    (∃ new, db_rows d1 = db_rows d ++ new ∧
       ∀ x, x ∈ new → own_row c (writer_id w) (next_seq w) (db_new x)) ∧
    fresh_ids (c_ulid c) (S k) (news d1) ∧ below w (news d1)) as Hbegun.
  { intros d1 Hd1. unfold begun in Hd1. destruct (started w).
    - injection Hd1 as <-. split; [exists []; rewrite app_nil_r; by split; [|intros x ?%elem_of_nil]|].
      split; [|done]. destruct Hf as [Hi Hf]. split; [done|]. intros i n Hle. apply Hf. lia.
    - match type of Hd1 with context [db_insert true ?m d] =>
        destruct (db_insert true m d) as [[d0 id]|e] eqn:Hins;
        [|destruct (c_db c); done];
        assert (d0 = d1) as -> by (destruct (c_db c); simplify_eq; done);
        by apply (start_spec c k w d m d1 id) end. }
  destruct begun as [d1|e].
  2: { injection Hp as <- <- <- <- <-. split; try done; [intros seq [? ?]; lia|]. intros m Hm. by exists m. }
  destruct (Hbegun d1 eq_refl) as ((new1 & Hr1 & Hown1) & Hf1 & Hb1).
  destruct (claim_gaps w) as [gs0 w1] eqn:Hcl.
  apply claim_gaps_spec in Hcl as (Hid & Hnx & Hst & Hcov).
  assert (below w1 (news d1)) as Hbw by (unfold below; by rewrite Hid, Hnx).
  destruct (insert_gaps c gs0 0 (S k) w1 d1) as [[[r0 w2] d2] extra0] eqn:Hg.
  destruct (insert_gaps_spec _ _ _ _ _ _ _ _ _ _ Hg Hf1 Hbw) as [Gi Gm Gs Gn Ge (new & Gr & Gown & Gnum & Gcov) Gf Gb].
  assert (∀ m, m ∈ missing w → ∃ m', m' ∈ missing (restore_gaps gs0 w2) ∧ miss_seq m' = miss_seq m) as Hrest.
  { intros m Hm. simpl. rewrite Gm. destruct (Hcov m Hm) as [Hin|(g & Hg' & _ & m' & Hm' & He)].
    - exists m. split; [apply elem_of_app; by left|done].
    - exists m'. split; [|done]. apply elem_of_app. right. apply list_elem_of_In, in_concat.
      exists (gap_items g). split; [apply list_elem_of_In, list_elem_of_fmap; eauto|by apply list_elem_of_In]. }
  assert (∀ seq, taken w w2 seq → taken w1 w2 seq) as Htk by (unfold taken; by rewrite Hnx).
  rewrite Hid in *. rewrite Hnx in *.
  destruct r0 as [e|]; injection Hp as <- <- <- <- <-; split; try done; try (intros seq Hs; apply Ge; by apply Htk).
  intros _. exists (new1 ++ new). split; [by rewrite Gr, Hr1, <- app_assoc|]. split_and!.
  - intros x [Hx|Hx]%elem_of_app; auto.
  - intros seq Hs. destruct (Gnum eq_refl seq (Htk _ Hs)) as (x & Hx & Hh). exists x.
    split; [apply elem_of_app; by right|done].
  - intros m Hm. rewrite Gm. destruct (Hcov m Hm) as [|(g & Hg' & Hin & _)]; [by left|right].
    destruct (Gcov eq_refl g _ Hg' Hin) as (x & Hx & Hc). exists x. split; [apply elem_of_app; by right|done].
Qed.

(** ** The invariant of the store *)

Definition this_writer (s : AuditStore) : string := writer_id (writer s).

(** A number this writer took is explained: a row carries it, a gap row covers it (in the
    database or in the archive), or the writer still owes it a gap row. *)
Definition accounted (s : AuditStore) (seq : Z) : Prop :=
  (∃ r, r ∈ db_rows (db s) ++ archived s ∧
        (has_number (this_writer s) seq r ∨ covers (this_writer s) seq r)) ∨
  ∃ m, m ∈ missing (writer s) ∧ miss_seq m = seq.

(** A row is kept: in the database, in the archive or in the spool. *)
Definition kept (s : AuditStore) (n : NewRow) : Prop :=
  (∃ r, r ∈ db_rows (db s) ++ archived s ∧ db_new r = n) ∨ n ∈ spool_records (spool s).

Record store_ok (s : AuditStore) : Prop := {
  so_next : (1 ≤ next_seq (writer s))%Z;
  so_rows : below (writer s) (news (db s));
  so_archived : below (writer s) (map db_new (archived s));
  so_spooled : below (writer s) (spool_records (spool s));
  so_accounted seq : (0 < seq < next_seq (writer s))%Z → accounted s seq;
  so_positive n : n ∈ spool_records (spool s) → nr_writer n = writer_id (writer s) →
    (0 < nr_seq n)%Z;
  so_replay n n' : n ∈ spool_records (spool s) →
    n' ∈ news (db s) ++ spool_records (spool s) → same_key n n' = true → n' = n;
}.

(** The ids of a call are new to the database and the spool: what a ULID is for. *)
Definition fresh_call (c : Call) (s : AuditStore) : Prop :=
  fresh_ids (c_ulid c) 0 (news (db s) ++ spool_records (spool s)).

Lemma fresh_call_db c s : fresh_call c s → fresh_ids (c_ulid c) 0 (news (db s)).
Proof. intros [Hi Hf]. split; [done|]. intros i n Hle Hn. apply Hf; [done|]. apply elem_of_app. by left. Qed.

(** What every operation does: the invariant holds again and nothing kept is lost. *)
Definition store_step (s s' : AuditStore) : Prop :=
  store_ok s' ∧ this_writer s' = this_writer s ∧ ∀ n, kept s n → kept s' n.

Lemma below_app w l1 l2 : below w (l1 ++ l2) ↔ below w l1 ∧ below w l2.
Proof.
  unfold below. setoid_rewrite elem_of_app. split; [|intros [? ?]; naive_solver].
  intros H. split; intros n Hn; apply H; auto.
Qed.

Lemma below_next w w' l :
  writer_id w' = writer_id w → (next_seq w ≤ next_seq w')%Z → below w l → below w' l.
Proof. intros Hid Hle Hb n Hn Hw. specialize (Hb n Hn ltac:(congruence)). lia. Qed.

Lemma same_key_sym n n' : same_key n n' = same_key n' n.
Proof.
  unfold same_key. rewrite (String.eqb_sym (record_id n)), (String.eqb_sym (nr_writer n)).
  by rewrite (Z.eqb_sym (nr_seq n)).
Qed.

(** A row of this call clashes with nothing the database or the spool holds, but for the
    writer's start in the database. *)
Lemma own_row_no_clash c s n n' :
  store_ok s → fresh_call c s → n ∈ news (db s) ++ spool_records (spool s) →
  own_row c (this_writer s) (next_seq (writer s)) n' →
  (nr_seq n' = START_SEQ → n ∈ spool_records (spool s)) → same_key n n' = false.
Proof.
  intros Hok [_ Hf] Hn (Hw & (i & Hid) & Hs) Hstart. unfold same_key. apply orb_false_iff. split.
  - apply String.eqb_neq. rewrite Hid. apply (Hf i n); [lia|done].
  - apply andb_false_iff. destruct (String.eqb_spec (nr_writer n) (nr_writer n')) as [He|]; [right|by left].
    apply Z.eqb_neq. assert (nr_writer n = this_writer s) as Hwn by congruence.
    assert (nr_seq n < next_seq (writer s))%Z as Hlt.
    { apply elem_of_app in Hn as [Hn|Hn]; [by apply (so_rows s Hok)|by apply (so_spooled s Hok)]. }
    destruct Hs as [Hs|Hs]; [lia|]. specialize (so_positive s Hok n (Hstart Hs) Hwn).
    rewrite Hs. unfold START_SEQ. lia.
Qed.

(** A transaction that failed: the database is as it was and every number it took is owed;
    the spool may hold one row more. *)
Record failed (c : Call) (s s' : AuditStore) : Prop := {
  fd_db : db s' = db s;
  fd_archived : archived s' = archived s;
  fd_id : this_writer s' = this_writer s;
  fd_next : (next_seq (writer s) ≤ next_seq (writer s'))%Z;
  fd_owed m : m ∈ missing (writer s) → ∃ m', m' ∈ missing (writer s') ∧ miss_seq m' = miss_seq m;
  fd_taken seq : taken (writer s) (writer s') seq → ∃ m, m ∈ missing (writer s') ∧ miss_seq m = seq;
  fd_spool : spool_records (spool s') = spool_records (spool s) ∨
    ∃ n, spool_records (spool s') = spool_records (spool s) ++ [n] ∧
         own_row c (this_writer s) (next_seq (writer s)) n ∧
         (next_seq (writer s) ≤ nr_seq n < next_seq (writer s'))%Z;
}.

Lemma failed_step c s s' : store_ok s → fresh_call c s → failed c s s' → store_step s s'.
Proof.
  intros Hok Hf [Hdb Har Hid Hnx Ho Ht Hsp]. unfold this_writer in *.
  assert (∀ n, n ∈ spool_records (spool s) → n ∈ spool_records (spool s')) as Hin.
  { intros n Hn. destruct Hsp as [-> |(x & -> & _)]; [done|]. apply elem_of_app. by left. }
  split; [split|split; [done|]].
  - pose proof (so_next s Hok). lia.
  - rewrite Hdb. eapply below_next; [done|done|by apply so_rows].
  - rewrite Har. eapply below_next; [done|done|by apply so_archived].
  - destruct Hsp as [-> |(x & -> & _ & Hx)]; [eapply below_next; [done|done|by apply so_spooled]|].
    apply below_app. split; [eapply below_next; [done|done|by apply so_spooled]|].
    intros n ->%list_elem_of_singleton _. lia.
  - intros seq Hs. destruct (decide (seq < next_seq (writer s))%Z).
    + destruct (so_accounted s Hok seq ltac:(lia)) as [(r & Hr & Hc)|(m & Hm & <-)].
      * left. exists r. rewrite Hdb, Har. unfold this_writer. by rewrite Hid.
      * destruct (Ho m Hm) as (m' & Hm' & He). right. by exists m'.
    + right. apply Ht. unfold taken. lia.
  - intros n Hn Hw. destruct Hsp as [Hsp|(x & Hsp & _ & Hx)]; rewrite Hsp in Hn.
    { by apply (so_positive s Hok); [|rewrite <- Hid]. }
    apply elem_of_app in Hn as [Hn| ->%list_elem_of_singleton].
    + by apply (so_positive s Hok); [|rewrite <- Hid].
    + pose proof (so_next s Hok). lia.
  - intros n n' Hn Hn' Hk. rewrite Hdb in Hn'.
    destruct Hsp as [Hsp|(x & Hsp & Hown & Hx)]; rewrite Hsp in Hn, Hn'; [by eapply so_replay|].
    assert (∀ y, y ∈ news (db s) ++ spool_records (spool s) → same_key y x = false) as Hclash.
    { intros y Hy. apply (own_row_no_clash c s); [done..|]. intros Hz. rewrite Hz in Hx.
      unfold START_SEQ in Hx. pose proof (so_next s Hok). lia. }
    apply elem_of_app in Hn as [Hn| ->%list_elem_of_singleton];
      rewrite app_assoc in Hn'; apply elem_of_app in Hn' as [Hn'| ->%list_elem_of_singleton].
    + by eapply so_replay.
    + rewrite Hclash in Hk; [done|]. apply elem_of_app. by right.
    + by rewrite same_key_sym, Hclash in Hk.
    + done.
  - intros n [(r & Hr & Hrn)|Hn]; [left; exists r; by rewrite Hdb, Har|right; auto].
Qed.

(** A transaction that committed: new rows of this writer, one for every number it took. *)
Record committed (c : Call) (s s' : AuditStore) : Prop := {
  cm_archived : archived s' = archived s;
  cm_spool : spool s' = spool s;
  cm_id : this_writer s' = this_writer s;
  cm_next : (next_seq (writer s) ≤ next_seq (writer s'))%Z;
  cm_below : below (writer s') (news (db s'));
  cm_rows : ∃ new, db_rows (db s') = db_rows (db s) ++ new ∧
    (∀ x, x ∈ new → own_row c (this_writer s) (next_seq (writer s)) (db_new x)) ∧
    (∀ seq, taken (writer s) (writer s') seq →
       (∃ x, x ∈ new ∧ has_number (this_writer s) seq x) ∨
       ∃ m, m ∈ missing (writer s') ∧ miss_seq m = seq) ∧
    (∀ m, m ∈ missing (writer s) → m ∈ missing (writer s') ∨
       ∃ x, x ∈ new ∧ covers (this_writer s) (miss_seq m) x);
}.

Lemma committed_step c s s' : store_ok s → fresh_call c s → committed c s s' → store_step s s'.
Proof.
  intros Hok Hf [Har Hsp Hid Hnx Hbl (new & Hr & Hown & Hnum & Hcov)]. unfold this_writer in *.
  assert (∀ x, x ∈ db_rows (db s) ++ archived s → x ∈ db_rows (db s') ++ archived s') as Hin.
  { intros x. rewrite Hr, Har, !elem_of_app. tauto. }
  assert (∀ x, x ∈ new → x ∈ db_rows (db s') ++ archived s') as Hnew.
  { intros x Hx. rewrite Hr, !elem_of_app. auto. }
  split; [split|split; [done|]].
  - pose proof (so_next s Hok). lia.
  - done.
  - rewrite Har. eapply below_next; [done|done|by apply so_archived].
  - rewrite Hsp. eapply below_next; [done|done|by apply so_spooled].
  - intros seq Hs. unfold accounted, this_writer. rewrite Hid.
    destruct (decide (seq < next_seq (writer s))%Z).
    + destruct (so_accounted s Hok seq ltac:(lia)) as [(r & Hrr & Hc)|(m & Hm & <-)]; [left; eauto|].
      destruct (Hcov m Hm) as [Hm'|(x & Hx & Hc)]; [right; eauto|left; eauto].
    + destruct (Hnum seq) as [(x & Hx & Hc)|Hm]; [unfold taken; lia|left; eauto|by right].
  - intros n. rewrite Hsp, Hid. by apply so_positive.
  - intros n n' Hn Hn' Hk. rewrite Hsp in Hn, Hn'. unfold news in Hn'. rewrite Hr, map_app in Hn'.
    apply elem_of_app in Hn' as [[Hn'|Hn']%elem_of_app|Hn'].
    + eapply so_replay; [done|done| |done]. apply elem_of_app. by left.
    + apply list_elem_of_fmap in Hn' as (x & -> & Hx).
      rewrite (own_row_no_clash c s) in Hk; [done|done|done| |by apply Hown|done].
      apply elem_of_app. by right.
    + eapply so_replay; [done|done| |done]. apply elem_of_app. by right.
  - intros n [(r & Hrr & Hrn)|Hn]; [left; eauto|right; by rewrite Hsp].
Qed.

(** Rows moved from the database to the archive. *)
Lemma archived_step s s' :
  store_ok s → writer s' = writer s → spool_records (spool s') = spool_records (spool s) →
  (∀ r, r ∈ db_rows (db s') → r ∈ db_rows (db s)) →
  (∀ r, r ∈ db_rows (db s') ++ archived s' ↔ r ∈ db_rows (db s) ++ archived s) →
  store_step s s'.
Proof.
  intros Hok Hw Hsp Hsub Heq.
  assert (∀ n, n ∈ news (db s') → n ∈ news (db s)) as Hnews.
  { intros n. rewrite !elem_of_news. intros (r & Hr & Hn). eauto. }
  split; [split|split; [unfold this_writer; by rewrite Hw|]]; rewrite ?Hw, ?Hsp.
  - by apply so_next.
  - intros n Hn. by apply (so_rows s Hok), Hnews.
  - intros n Hn. apply list_elem_of_fmap in Hn as (r & -> & Hr).
    assert (r ∈ db_rows (db s) ++ archived s) as Hin by (apply Heq, elem_of_app; by right).
    apply elem_of_app in Hin as [Hin|Hin].
    + apply (so_rows s Hok), elem_of_news. eauto.
    + apply (so_archived s Hok), list_elem_of_fmap. eauto.
  - by apply so_spooled.
  - intros seq Hs. destruct (so_accounted s Hok seq Hs) as [(r & Hr & Hc)|Hm].
    + left. exists r. unfold this_writer. rewrite Hw. split; [by apply Heq|done].
    + right. by rewrite Hw.
  - by apply so_positive.
  - intros n n' Hn Hn'. eapply so_replay; [done|done|].
    apply elem_of_app in Hn' as [Hn'|Hn']; apply elem_of_app; auto.
  - intros n [(r & Hr & Hrn)|Hn]; [left; exists r; split; [by apply Heq|done]|right; by rewrite Hsp].
Qed.

(** ** The drain *)

Lemma apply_spooled_spec good d :
  (∀ n n', n ∈ good → n' ∈ news d ++ good → same_key n n' = true → n' = n) →
  ∃ new, db_rows (apply_spooled good d) = db_rows d ++ new ∧
    (∀ r, r ∈ new → db_new r ∈ good) ∧ (∀ n, n ∈ good → n ∈ news (apply_spooled good d)).
Proof.
  revert d. induction good as [|n good IH]; intros d Hk.
  { exists []. rewrite app_nil_r. split; [done|]. split; by intros ? ?%elem_of_nil. }
  unfold apply_spooled. simpl. destruct (db_insert true n d) as [[d1 id]|e] eqn:Hi.
  2: { unfold db_insert in Hi. by destruct (conflicts n d). }
  fold (apply_spooled good d1).
  assert (n ∈ news d1 ∧ ∃ new1, db_rows d1 = db_rows d ++ new1 ∧ (∀ r, r ∈ new1 → db_new r = n) ∧
    ∀ n', n' ∈ news d1 → n' ∈ news d ∨ n' = n) as (Hin & new1 & Hr1 & Hnew1 & Hsub).
  { apply db_insert_ok in Hi as [[-> Hc]|(_ & _ & r & Hr & Hn & _ & Hnews)].
    - unfold conflicts in Hc. apply existsb_exists in Hc as (r & Hr%list_elem_of_In & Hs).
      assert (db_new r = n) as He.
      { apply (Hk n); [by left| |done]. apply elem_of_app. left. apply elem_of_news. eauto. }
      split; [apply elem_of_news; eauto|]. exists []. rewrite app_nil_r. split; [done|].
      split; [by intros ? ?%elem_of_nil|auto].
    - rewrite Hnews. split; [apply elem_of_app; right; by left|]. exists [r]. split; [done|].
      split; [by intros x ->%list_elem_of_singleton|].
      intros n' [?| ->%list_elem_of_singleton]%elem_of_app; auto. }
  destruct (IH d1) as (new & Hr & Hnew & Hall).
  { intros m m' Hm Hm' Hs. apply (Hk m); [by right| |done].
    apply elem_of_app in Hm' as [[Hm'| ->]%Hsub|Hm']; apply elem_of_app; [by left|right; by left|].
    right. by right. }
  exists (new1 ++ new). split; [by rewrite Hr, Hr1, <- app_assoc|]. split.
  - intros r [Hrr|Hrr]%elem_of_app; [rewrite (Hnew1 r Hrr); by left|right; auto].
  - intros m [->|Hm]%elem_of_cons; [|auto]. apply elem_of_news in Hin as (r & Hrr & He).
    apply elem_of_news. exists r. split; [|done]. rewrite Hr. apply elem_of_app. by left.
Qed.

(** The database took the spool's records; the spool keeps some or all of its lines. *)
Lemma replayed_step s s' :
  store_ok s → writer s' = writer s → archived s' = archived s →
  db s' = apply_spooled (spool_records (spool s)) (db s) →
  (spool_records (spool s') = spool_records (spool s) ∨ spool_records (spool s') = []) →
  store_step s s'.
Proof.
  intros Hok Hw Har Hdb Hsp.
  destruct (apply_spooled_spec (spool_records (spool s)) (db s)) as (new & Hr & Hnew & Hall);
    [apply (so_replay s Hok)|].
  rewrite <- Hdb in Hr, Hall.
  assert (∀ n, n ∈ spool_records (spool s') → n ∈ spool_records (spool s)) as Hsub.
  { intros n Hn. destruct Hsp as [Hsp|Hsp]; rewrite Hsp in Hn; [done|]. by apply elem_of_nil in Hn. }
  assert (∀ n, n ∈ news (db s') → n ∈ news (db s) ++ spool_records (spool s)) as Hnews.
  { intros n. unfold news. rewrite Hr, map_app, !elem_of_app. intros [?|Hn]; [by left|right].
    apply list_elem_of_fmap in Hn as (r & -> & Hrr). auto. }
  split; [split|split; [unfold this_writer; by rewrite Hw|]]; rewrite ?Hw, ?Har.
  - by apply so_next.
  - intros n [Hn|Hn]%Hnews%elem_of_app; [by apply so_rows|by apply so_spooled].
  - by apply so_archived.
  - intros n Hn. by apply (so_spooled s Hok), Hsub.
  - intros seq Hs. destruct (so_accounted s Hok seq Hs) as [(r & Hrr & Hc)|Hm]; [left|right; by rewrite Hw].
    exists r. unfold this_writer. rewrite Hw, Hr, Har. split; [|done].
    apply elem_of_app in Hrr as [Hrr|Hrr]; rewrite !elem_of_app; auto.
  - intros n Hn. by apply (so_positive s Hok), Hsub.
  - intros n n' Hn Hn'. eapply so_replay; [done|by apply Hsub|].
    apply elem_of_app in Hn' as [Hn'|Hn']; [by apply Hnews|apply elem_of_app; right; auto].
  - intros n [(r & Hrr & Hrn)|Hn].
    + left. exists r. split; [|done]. rewrite Hr, Har. apply elem_of_app in Hrr as [?|?]; rewrite !elem_of_app; auto.
    + left. apply Hall, elem_of_news in Hn as (r & Hrr & Hrn). exists r. split; [|done].
      apply elem_of_app. by left.
Qed.

Lemma spool_records_map l : spool_records (map SpoolRecord l) = l.
Proof. induction l as [|n l IH]; [done|]. cbn. by f_equal. Qed.

#[export] Instance store_step_trans : Transitive store_step.
Proof. intros s1 s2 s3 (H1 & I1 & K1) (H2 & I2 & K2). split_and!; [done|congruence|auto]. Qed.

Lemma store_step_refl s : store_ok s → store_step s s.
Proof. by split. Qed.

(** The drain, whatever it meets. *)
Lemma drain_step f s : store_ok s → store_step s (drain_spool f s).
Proof.
  intros Hok. unfold drain_spool. destruct (spool s) as [|x l] eqn:Hs; [by apply store_step_refl|].
  rewrite <- Hs. destruct f.
  - by apply replayed_step; [| | | |right].
  - destruct (spool_records (spool s)) as [|n good] eqn:Hg; apply archived_step; try done; cbn [spool with_spool].
    destruct (spool_rejects (spool s)); [done|]. by rewrite Hg, (spool_records_map (n :: good)).
  - by apply replayed_step; [| | | |left].
Qed.

(** ** The operations *)

Lemma note_extra_spec extra e s :
  let s' := note_extra extra e s in
  db s' = db s ∧ archived s' = archived s ∧ spool s' = spool s ∧ rejected s' = rejected s ∧
  writer_id (writer s') = writer_id (writer s) ∧ next_seq (writer s') = next_seq (writer s) ∧
  (∀ m, m ∈ missing (writer s) → m ∈ missing (writer s')) ∧
  (∀ seq, seq ∈ extra → ∃ m, m ∈ missing (writer s') ∧ miss_seq m = seq).
Proof.
  revert s. induction extra as [|x extra IH]; intros s; simpl.
  { split_and!; try done. by intros seq ?%elem_of_nil. }
  destruct (IH (note_failure x e false true s)) as (H1 & H2 & H3 & H4 & H5 & H6 & H7 & H8).
  unfold note_extra in *. simpl in *. split_and!; try done.
  - intros m Hm. apply H7, elem_of_app. by left.
  - intros seq [->|Hs]%elem_of_cons; [|by apply H8]. eexists. split.
    + apply H7, elem_of_app. right. by left.
    + done.
Qed.

(** The two ways a numbered write fails: with its row in the spool, or with no trace of it but
    the number it owes. *)
Lemma spooled_failed c s w' n e extra :
  store_ok s → writer_id w' = this_writer s → (next_seq (writer s) + 1 ≤ next_seq w')%Z →
  (∀ m, m ∈ missing (writer s) → ∃ m', m' ∈ missing w' ∧ miss_seq m' = miss_seq m) →
  (∀ seq, (next_seq (writer s) + 1 ≤ seq < next_seq w')%Z → seq ∈ extra) →
  nr_seq n = next_seq (writer s) → own_row c (this_writer s) (next_seq (writer s)) n →
  let s1 := note_extra extra e (with_writer w' s) in
  failed c s (run_state (spool_or_raise c n e) s1).
Proof.
  intros Hok Hid Hnx Hm Hex Hseq Hown s1.
  destruct (note_extra_spec extra e (with_writer w' s)) as (D & A & S & _ & I & N & M & X).
  fold s1 in D, A, S, I, N, M, X. simpl in *.
  unfold spool_or_raise. destruct (c_spool c) as [e'|]; simpl; split; simpl;
    rewrite ?D, ?A, ?S, ?N; unfold this_writer; simpl; rewrite ?I; try done; try lia;
    try (intros m Hmm; destruct (Hm m Hmm) as (m' & Hm' & He); exists m';
         split; [apply elem_of_app; left; by apply M|done]);
    try (unfold taken; simpl; rewrite N; intros seq Hs;
         destruct (decide (seq = next_seq (writer s))) as [->|];
         [eexists; split; [apply elem_of_app; right; by left|done]
         |destruct (X seq) as (m & Hmm & He); [apply Hex; lia|];
          exists m; split; [apply elem_of_app; by left|done]]).
  - by left.
  - right. exists n. split; [|split; [done|lia]]. unfold spool_records. by rewrite omap_app.
Qed.

(** The number a write takes, and the row it numbers. *)
Definition numbered (c : Call) (row : AuditRow) (ts : Z) (kind : option string) (s : AuditStore) : NewRow :=
  {| nr_ts := ts; nr_row := row; record_id := c_ulid c 0; nr_writer := this_writer s;
     nr_seq := next_seq (writer s); nr_kind := kind |}.

Lemma numbered_own c row ts kind s :
  own_row c (this_writer s) (next_seq (writer s)) (numbered c row ts kind s).
Proof. split_and!; [done|by eexists|left; simpl; lia]. Qed.

(** The first insert of a transaction, under the number just taken. *)
Lemma first_insert c s b n :
  store_ok s → fresh_call c s → record_id n = c_ulid c 0 → nr_writer n = this_writer s →
  nr_seq n = next_seq (writer s) →
  let w := set_next (next_seq (writer s) + 1) (writer s) in
  ∃ d r, db_insert b n (db s) = Ok (d, db_next (db s)) ∧ db_rows d = db_rows (db s) ++ [r] ∧
    db_new r = n ∧ db_id r = db_next (db s) ∧ fresh_ids (c_ulid c) 1 (news d) ∧ below w (news d) ∧ (1 ≤ next_seq w)%Z.
Proof.
  intros Hok Hf Hid Hw Hs w. apply fresh_call_db in Hf.
  assert (conflicts n (db s) = false) as Hc.
  { eapply (fresh_no_conflict _ 0 (writer s)); [done|by apply so_rows|done|done|lia]. }
  unfold db_insert. rewrite Hc. eexists _, _. split; [done|]. split; [done|]. split; [done|].
  split; [done|]. unfold news. simpl. rewrite map_app. simpl. split_and!.
  - eapply fresh_ids_snoc; [exact Hf|done|lia].
  - apply below_snoc; [by apply so_rows|]. intros _. lia.
  - pose proof (so_next s Hok). simpl. lia.
Qed.

(** The preamble after that insert, as the whole transaction sees it. *)
Lemma preamble_committed c s n d1 r w1 d2 gs extra w' :
  store_ok s → nr_seq n = next_seq (writer s) → own_row c (this_writer s) (next_seq (writer s)) n →
  db_rows d1 = db_rows (db s) ++ [r] → db_new r = n →
  preamble_result c 1 (set_next (next_seq (writer s) + 1) (writer s)) d1 None w1 d2 gs extra →
  w' = mark_started w1 →
  committed c s (with_writer w' (with_db d2 s)).
Proof.
  intros Hok Hseq Hown Hr Hn [Pi Pn Pe Pf Pr Pfr Pb] ->.
  destruct (Pr eq_refl) as (new & Hrows & Hnew & Hnum & Hcov). simpl in *.
  split; try done; simpl; try lia; [by apply Pb|].
  exists (r :: new). rewrite Hrows, Hr, <- app_assoc. split; [done|]. split; [|split].
  - intros x [->|Hx]%elem_of_cons; [by rewrite Hn|]. eapply own_row_weaken; [|by apply Hnew]. lia.
  - unfold taken. simpl. intros seq Hs. left. destruct (decide (seq = next_seq (writer s))) as [->|].
    + exists r. split; [by left|]. destruct Hown as (Hw & _). split; unfold by_writer; by rewrite Hn.
    + destruct (Hnum seq) as (x & Hx & Hh); [unfold taken; simpl; lia|]. exists x. by split; [right|].
  - intros m Hm. destruct (Hcov m Hm) as [|(x & Hx & Hc)]; [by left|right].
    exists x. by split; [right|].
Qed.

(** What became of the row of a write. *)
Definition write_outcome (n : NewRow) (r : res Z) (s s' : AuditStore) : Prop :=
  match r with
  | Ok id =>
      ((∃ x, x ∈ db_rows (db s') ∧ db_new x = n ∧ db_id x = id ∧ id = db_next (db s)) ∧
        lost_writes s' = lost_writes s ∧ spooled_writes s' = spooled_writes s) ∨
      (id = 0%Z ∧ SpoolRecord n ∈ spool s' ∧ db s' = db s ∧
        lost_writes s' = lost_writes s ∧ spooled_writes s' = (spooled_writes s + 1)%Z)
  | Raise _ =>
      db s' = db s ∧ spool s' = spool s ∧ lost_writes s' = (lost_writes s + 1)%Z ∧
      spooled_writes s' = spooled_writes s
  end.

Lemma note_extra_counts extra e s :
  lost_writes (note_extra extra e s) = lost_writes s ∧
  spooled_writes (note_extra extra e s) = spooled_writes s.
Proof.
  revert s. induction extra as [|x extra IH]; intros s; [done|].
  destruct (IH (note_failure x e false true s)) as [H1 H2]. by split.
Qed.

Lemma spool_outcome c n e extra w' s :
  let m := _ ← spool_or_raise c n e; mret 0%Z in
  let s1 := note_extra extra e (with_writer w' s) in
  write_outcome n (run_res m s1) s (run_state m s1).
Proof.
  intros m s1. unfold m, s1, mbind, M_bind, spool_or_raise.
  destruct (note_extra_counts extra e (with_writer w' s)) as [L S].
  destruct (note_extra_spec extra e (with_writer w' s)) as (D & _ & Sp & _).
  destruct (c_spool c) as [e'|]; simpl in *; rewrite ?L, ?S, ?D, ?Sp; [by split_and!|].
  right. split_and!; try done. apply elem_of_app. right. by left.
Qed.

Lemma drain_keeps f s :
  (∀ r, r ∈ db_rows (db s) → r ∈ db_rows (db (drain_spool f s))) ∧
  lost_writes (drain_spool f s) = lost_writes s ∧ spooled_writes (drain_spool f s) = spooled_writes s.
Proof.
  assert (∀ good d r, r ∈ db_rows d → r ∈ db_rows (apply_spooled good d)) as Happ.
  { intros good. induction good as [|n good IH]; intros d r Hr; [done|]. unfold apply_spooled. simpl.
    apply IH. destruct (db_insert true n d) as [[d' id]|] eqn:Hi; [|done].
    apply db_insert_ok in Hi as [[-> _]|(_ & _ & x & -> & _)]; [done|]. apply elem_of_app. by left. }
  unfold drain_spool. destruct (spool s) as [|x l] eqn:Hs; [done|].
  destruct f; cbn [db with_spool with_db lost_writes spooled_writes].
  - split; [intros r; apply Happ|done].
  - destruct (spool_records (x :: l)); done.
  - split; [intros r; apply Happ|done].
Qed.

Lemma drain_archived f s : archived (drain_spool f s) = archived s.
Proof.
  unfold drain_spool. destruct (spool s) as [|x l]; [done|].
  destruct f; try done. by destruct (spool_records (x :: l)).
Qed.

Lemma write_row_step c row ts kind s :
  store_ok s → fresh_call c s →
  let r := write_row c row ts kind s in
  store_step s r.2 ∧ write_outcome (numbered c row ts kind s) r.1 s r.2.
Proof.
  intros Hok Hf. unfold write_row. cbn [allocate].
  set (w := set_next (next_seq (writer s) + 1) (writer s)).
  change (writer_id w) with (this_writer s).
  fold (numbered c row ts kind s). set (n := numbered c row ts kind s).
  destruct (first_insert c s false n Hok Hf eq_refl eq_refl eq_refl)
    as (d1 & r & Hins & Hrows & Hr & Hidr & Hf1 & Hb1 & Hn1).
  assert (∀ e w' extra, writer_id w' = this_writer s → (next_seq (writer s) + 1 ≤ next_seq w')%Z →
    (∀ m, m ∈ missing (writer s) → ∃ m', m' ∈ missing w' ∧ miss_seq m' = miss_seq m) →
    (∀ seq, (next_seq (writer s) + 1 ≤ seq < next_seq w')%Z → seq ∈ extra) →
    let q := (_ ← spool_or_raise c n e; mret 0%Z) (note_extra extra e (with_writer w' s)) in
    store_step s q.2 ∧ write_outcome n q.1 s q.2) as Hfail.
  { intros e w' extra Hid Hnx Hm Hex q. split; [|apply spool_outcome].
    pose proof (spooled_failed c s w' n e extra Hok Hid Hnx Hm Hex eq_refl (numbered_own _ _ _ _ _)) as Hfd.
    apply (failed_step c) in Hfd; [|done..]. unfold q, mbind, M_bind.
    destruct (spool_or_raise c n e _) as [[u|e'] s']; exact Hfd. }
  assert (∀ e, let q := (_ ← spool_or_raise c n e; mret 0%Z) (note_extra [] e (with_writer w s)) in
    store_step s q.2 ∧ write_outcome n q.1 s q.2) as Hfirst.
  { intros e. apply Hfail; [done|simpl; lia|intros m Hm; by exists m|simpl; intros; lia]. }
  destruct (match c_db c with FailsInsert e => Raise e | _ => db_insert false n (db s) end)
    as [[d1' id']|e0] eqn:Hfi; [|apply Hfirst].
  assert (d1' = d1 ∧ id' = db_next (db s)) as [-> ->].
  { rewrite Hins in Hfi. destruct (c_db c); simplify_eq; done. }
  destruct (write_preamble c 1 w d1) as [[[[r0 w1] d2] gs] extra] eqn:Hp.
  apply write_preamble_spec in Hp; [|done..].
  pose proof Hp as [Pi Pn Pe Pf Pr Pfr Pb].
  destruct r0 as [e0|].
  { assert (let q := (_ ← spool_or_raise c n e0; mret 0%Z) (note_extra extra e0 (with_writer w1 s)) in
      store_step s q.2 ∧ write_outcome n q.1 s q.2) as Hpre by (by apply Hfail). exact Hpre. }
  assert (let q := (Ok (db_next (db s)),
    drain_spool (c_drain c) (with_writer (mark_started w1) (with_db d2 s))) in
    store_step s q.2 ∧ write_outcome n q.1 s q.2) as Hok2.
  { split.
    - assert (store_step s (with_writer (mark_started w1) (with_db d2 s))) as Hc.
      { apply (committed_step c); [done|done|]. by eapply preamble_committed; eauto using numbered_own. }
      etrans; [exact Hc|]. apply drain_step, Hc.
    - left. destruct (drain_keeps (c_drain c) (with_writer (mark_started w1) (with_db d2 s))) as (K & L & S).
      simpl. rewrite L, S. split; [|done]. exists r. split; [|done].
      apply K. simpl. destruct (Pr eq_refl) as (new & -> & _). rewrite Hrows.
      apply elem_of_app. left. apply elem_of_app. right. by left. }
  destruct (c_db c) as [|e|e|k e|e]; try exact Hok2.
  apply Hfail; [done|done|done|]. intros seq Hs. apply Pe. exact Hs.
Qed.

(** A compaction failed with no trace but the numbers it owes. *)
Lemma unspooled_failed c s w' e extra :
  store_ok s → writer_id w' = this_writer s → (next_seq (writer s) + 1 ≤ next_seq w')%Z →
  (∀ m, m ∈ missing (writer s) → ∃ m', m' ∈ missing w' ∧ miss_seq m' = miss_seq m) →
  (∀ seq, (next_seq (writer s) + 1 ≤ seq < next_seq w')%Z → seq ∈ extra) →
  let s1 := note_extra extra e (note_failure (next_seq (writer s)) e false true (with_writer w' s)) in
  failed c s s1 ∧ db s1 = db s ∧ archived s1 = archived s ∧ spool s1 = spool s.
Proof.
  intros Hok Hid Hnx Hm Hex s1.
  destruct (note_extra_spec extra e (note_failure (next_seq (writer s)) e false true (with_writer w' s)))
    as (D & A & S & _ & I & N & M & X).
  fold s1 in D, A, S, I, N, M, X. simpl in *.
  split; [|done]. split; unfold this_writer; rewrite ?D, ?A, ?S, ?N, ?I; try done; try lia.
  - intros m Hmm. destruct (Hm m Hmm) as (m' & Hm' & He). exists m'.
    split; [apply M, elem_of_app; by left|done].
  - unfold taken. rewrite N. intros seq Hs.
    destruct (decide (seq = next_seq (writer s))) as [->|]; [|apply X, Hex; lia].
    eexists. split; [apply M, elem_of_app; right; by left|done].
  - by left.
Qed.

(** A compaction either leaves the ledger and its archive as they were, or commits its marker
    and moves exactly the rows it was given. *)
Lemma write_compaction_cases c payload pairs s :
  store_ok s → fresh_call c s →
  let r := write_compaction c payload pairs s in
  ((∃ e, r.1 = Raise e) ∧ failed c s r.2 ∧ db r.2 = db s ∧ archived r.2 = archived s ∧ spool r.2 = spool s) ∨
  ∃ s1, r.1 = Ok (Z.of_nat (length pairs)) ∧ committed c s s1 ∧ NoDup pairs.*1 ∧
    forallb (pair_found (db s1)) pairs = true ∧
    r.2 = drain_spool (c_drain c) (archive_rows pairs s1).
Proof.
  intros Hok Hf. unfold write_compaction. cbn [allocate].
  set (w := set_next (next_seq (writer s) + 1) (writer s)).
  match goal with |- context [db_insert true ?m (db s)] => set (n := m) end.
  destruct (first_insert c s true n Hok Hf eq_refl eq_refl eq_refl)
    as (d1 & r & Hins & Hrows & Hr & Hidr & Hf1 & Hb1 & Hn1).
  assert (own_row c (this_writer s) (next_seq (writer s)) n) as Hown.
  { split_and!; [done|by eexists|left; simpl; lia]. }
  assert (∀ e w' extra, writer_id w' = this_writer s → (next_seq (writer s) + 1 ≤ next_seq w')%Z →
    (∀ m, m ∈ missing (writer s) → ∃ m', m' ∈ missing w' ∧ miss_seq m' = miss_seq m) →
    (∀ seq, (next_seq (writer s) + 1 ≤ seq < next_seq w')%Z → seq ∈ extra) →
    let q := (Raise e : res Z, note_extra extra e
                (note_failure (next_seq (writer s)) e false true (with_writer w' s))) in
    (∃ e', q.1 = Raise e') ∧ failed c s q.2 ∧ db q.2 = db s ∧ archived q.2 = archived s ∧
    spool q.2 = spool s) as Hfail.
  { intros e w' extra Hi Hx Hm Hex q. split; [by exists e|]. by apply unspooled_failed. }
  destruct (match c_db c with FailsInsert e => Raise e | _ => db_insert true n (db s) end)
    as [[d1' id']|e0] eqn:Hfi.
  2: { left. apply Hfail; [done|simpl; lia|intros m Hm; by exists m|simpl; intros; lia]. }
  assert (d1' = d1) as ->.
  { rewrite Hins in Hfi. destruct (c_db c); simplify_eq; done. }
  destruct (write_preamble c 1 w d1) as [[[[r0 w1] d2] gs] extra] eqn:Hp.
  apply write_preamble_spec in Hp; [|done..].
  pose proof Hp as [Pi Pn Pe Pf Pr Pfr Pb].
  destruct r0 as [e0|]; [left; by apply Hfail|].
  assert (∀ e, let q := (Raise e : res Z, note_extra extra e
      (note_failure (next_seq (writer s)) e false true (with_writer (restore_gaps gs w1) s))) in
    (∃ e', q.1 = Raise e') ∧ failed c s q.2 ∧ db q.2 = db s ∧ archived q.2 = archived s ∧
    spool q.2 = spool s) as Hrefuse by (intros e; by apply Hfail).
  destruct (bool_decide_reflect (NoDup (map fst pairs))) as [Hnd|]; simpl; [|left; apply Hrefuse].
  destruct (forallb (pair_found d2) pairs) eqn:Hfound; simpl; [|left; apply Hrefuse].
  assert (committed c s (with_writer (mark_started w1) (with_db d2 s))) as Hc
    by exact (preamble_committed c s n d1 r w1 d2 gs extra _ Hok eq_refl Hown Hrows Hr Hp eq_refl).
  destruct (c_db c); try (left; apply Hrefuse); right;
    by exists (with_writer (mark_started w1) (with_db d2 s)).
Qed.

Lemma archive_rows_step pairs s : store_ok s → store_step s (archive_rows pairs s).
Proof.
  intros Hok. apply archived_step; try done; intros r; simpl; rewrite ?elem_of_app, !elem_of_select_where.
  - by intros [? ?].
  - destruct (in_pairs pairs r); simpl; naive_solver.
Qed.

Lemma write_compaction_step c payload pairs s :
  store_ok s → fresh_call c s → store_step s (write_compaction c payload pairs s).2.
Proof.
  intros Hok Hf. destruct (write_compaction_cases c payload pairs s Hok Hf)
    as [(_ & Hfd & _)|(s1 & _ & Hc & _ & _ & ->)]; [by eapply failed_step|].
  pose proof (committed_step c s s1 Hok Hf Hc) as Hs1.
  pose proof (archive_rows_step pairs s1 (proj1 Hs1)) as Hs2.
  etrans; [exact Hs1|]. etrans; [exact Hs2|]. apply drain_step, Hs2.
Qed.

(** ** Runs of the ledger *)

(** An empty ledger, opened by one process. *)
Definition new_store (id : string) : AuditStore :=
  {| db := {| db_rows := []; db_next := 1 |}; spool := []; rejected := []; writer := new_writer id;
     lost_writes := 0; spooled_writes := 0; last_cause := None; archived := [] |}.

(** What may happen next: a call of this process, whatever fails under it, or another process
    that puts a row in the shared database or a line in the shared spool.  [record_many] is not
    among the calls: nothing in the program calls it, and the numbers of a batch whose commit
    fails are lost ([batch_numbers_lost] below). *)
Inductive step (s : AuditStore) : AuditStore → Prop :=
| StepRecord c bot r : fresh_call c s → step s (run_state (record c bot r) s)
| StepClose c pid : fresh_call c s → step s (run_state (close_writer c pid) s)
| StepCompact c payload pairs :
    fresh_call c s → step s (run_state (write_compaction c payload pairs) s)
| StepDrain f : step s (drain_spool f s)
| StepOtherRow n d id :
    nr_writer n ≠ this_writer s →
    forallb (λ n', negb (same_key n n')) (spool_records (spool s)) = true →
    db_insert false n (db s) = Ok (d, id) → step s (with_db d s)
| StepOtherLine n :
    nr_writer n ≠ this_writer s →
    forallb (λ n', negb (same_key n n')) (news (db s) ++ spool_records (spool s)) = true →
    step s (with_spool (spool s ++ [SpoolRecord n]) (rejected s) s)
| StepOtherText t : step s (with_spool (spool s ++ [Malformed t]) (rejected s) s).

Lemma new_store_ok id : store_ok (new_store id).
Proof. split; simpl; try lia; try (intros ? ?%elem_of_nil; done); intros ? ? ?%elem_of_nil; done. Qed.

Lemma no_clash n l n' :
  forallb (λ n', negb (same_key n n')) l = true → n' ∈ l → same_key n n' = false.
Proof.
  intros Hf Hn. rewrite forallb_forall in Hf. apply negb_true_iff, Hf. by apply list_elem_of_In.
Qed.

Lemma other_row_step s n d id :
  store_ok s → nr_writer n ≠ this_writer s →
  forallb (λ n', negb (same_key n n')) (spool_records (spool s)) = true →
  db_insert false n (db s) = Ok (d, id) → store_step s (with_db d s).
Proof.
  intros Hok Hw Hsp Hi.
  destruct (db_insert_ok _ _ _ _ _ Hi) as [[_ Hc]|(_ & _ & r & Hr & Hn & _ & Hnews)].
  { unfold db_insert in Hi. by rewrite Hc in Hi. }
  assert (∀ x, x ∈ db_rows (db s) ++ archived s → x ∈ db_rows d ++ archived s) as Hin.
  { intros x. rewrite Hr, !elem_of_app. tauto. }
  destruct Hok as [? ? ? ? Hacc ? Hrep].
  split; [split|split; [done|]]; simpl; try done.
  - rewrite Hnews. apply below_app. split; [done|]. by intros x ->%list_elem_of_singleton.
  - intros seq [(x & Hx & Hc)|Hm]%Hacc; [left; eauto|by right].
  - intros m m' Hm. rewrite Hnews, <- app_assoc, !elem_of_app. intros [Hm'|[Hm'|Hm']].
    + apply Hrep; [done|]. apply elem_of_app. by left.
    + apply list_elem_of_singleton in Hm' as ->. rewrite same_key_sym.
      by rewrite (no_clash n _ m Hsp).
    + apply Hrep; [done|]. apply elem_of_app. by right.
  - intros m [(x & Hx & Hxm)|?]; [left; eauto|by right].
Qed.

Lemma other_line_step s n :
  store_ok s → nr_writer n ≠ this_writer s →
  forallb (λ n', negb (same_key n n')) (news (db s) ++ spool_records (spool s)) = true →
  store_step s (with_spool (spool s ++ [SpoolRecord n]) (rejected s) s).
Proof.
  intros Hok Hw Hall. destruct Hok as [? ? ? ? Hacc Hpos Hrep].
  assert (spool_records (spool s ++ [SpoolRecord n]) = spool_records (spool s) ++ [n]) as Hsp.
  { unfold spool_records. by rewrite omap_app. }
  split; [split|split; [done|]]; unfold kept; cbn [db spool writer archived with_spool];
    rewrite ?Hsp; try done.
  - apply below_app. split; [done|]. by intros x ->%list_elem_of_singleton.
  - intros m [Hm| ->%list_elem_of_singleton]%elem_of_app; [by apply Hpos|done].
  - intros m m' [Hm| ->%list_elem_of_singleton]%elem_of_app Hm';
      rewrite app_assoc in Hm'; apply elem_of_app in Hm' as [Hm'| ->%list_elem_of_singleton].
    + by apply Hrep.
    + rewrite same_key_sym, (no_clash n _ m Hall); [done|]. apply elem_of_app. by right.
    + by rewrite (no_clash n _ m' Hall).
    + done.
  - intros m [?|?]; [by left|right]. apply elem_of_app. by left.
Qed.

Lemma other_text_step s t :
  store_ok s → store_step s (with_spool (spool s ++ [Malformed t]) (rejected s) s).
Proof.
  intros Hok. apply archived_step; try done.
  unfold spool_records. cbn [spool with_spool]. rewrite omap_app. cbn. by rewrite app_nil_r.
Qed.

Lemma step_store_step s s' : store_ok s → step s s' → store_step s s'.
Proof.
  intros Hok [c bot r Hf|c pid Hf|c p ps Hf|f|n d id Hw Hsp Hi|n Hw Hsp|t].
  - by apply write_row_step.
  - by apply write_row_step.
  - by apply write_compaction_step.
  - by apply drain_step.
  - by eapply other_row_step.
  - by apply other_line_step.
  - by apply other_text_step.
Qed.

Lemma steps_store_step s s' : store_ok s → rtc step s s' → store_step s s'.
Proof.
  intros Hok Hs. revert Hok. induction Hs as [s|s1 s2 s3 H1 _ IH]; intros Hok; [by apply store_step_refl|].
  pose proof (step_store_step s1 s2 Hok H1) as Hs. etrans; [exact Hs|]. apply IH, Hs.
Qed.

(** ** Catching up *)

Lemma concat_snoc {A} (ls : list (list A)) l : concat (ls ++ [l]) = concat ls ++ l.
Proof. rewrite concat_app. simpl. by rewrite app_nil_r. Qed.

Lemma concat_add_to_runs runs m :
  runs_ok runs →
  concat (reverse (map reverse (add_to_runs runs m))) = concat (reverse (map reverse runs)) ++ [m].
Proof.
  intros Hr. unfold add_to_runs. destruct runs as [|[|x run] rest]; [done| |].
  { inversion Hr as [|? ? [? _]]. done. }
  destruct (_ =? _)%Z; cbn [map].
  - by rewrite !reverse_cons, !concat_snoc, app_assoc.
  - by rewrite (reverse_cons _ (reverse [m])), concat_snoc.
Qed.

(** The runs hold what they were cut from. *)
Lemma concat_runs_of l : concat (runs_of l) = l.
Proof.
  unfold runs_of. enough (∀ runs, runs_ok runs →
    concat (reverse (map reverse (fold_left add_to_runs l runs))) = concat (reverse (map reverse runs)) ++ l) as H.
  { apply (H []). by constructor. }
  induction l as [|m l IH]; intros runs Hr; simpl; [by rewrite app_nil_r|].
  rewrite IH by (by apply add_to_runs_ok). by rewrite concat_add_to_runs, <- app_assoc.
Qed.

Lemma length_concat_nonempty {A} (ls : list (list A)) :
  (∀ l, l ∈ ls → l ≠ []) → length ls ≤ length (concat ls).
Proof.
  induction ls as [|l ls IH]; intros Hne; simpl; [done|]. rewrite length_app.
  specialize (IH ltac:(intros l' Hl'; apply Hne; by right)). specialize (Hne l ltac:(by left)).
  destruct l; [done|]. simpl. lia.
Qed.

Lemma length_select_none {A} (p : A → bool) l1 l2 l :
  l ≡ₚ l1 ++ l2 → (∀ x, x ∈ l1 → p x = false) → length (select_where p l) ≤ length l2.
Proof.
  intros -> Hp. rewrite select_where_app, length_app.
  pose proof (proj2 (count_where_zero p l1) Hp) as Hz. unfold count_where in Hz. rewrite Hz.
  unfold select_where. apply List.filter_length_le.
Qed.

(** A claim takes every owed number, or at least [MAX_GAPS_PER_WRITE] of them. *)
Lemma claim_gaps_shrinks w gs w' :
  claim_gaps w = (gs, w') →
  length (missing w') ≤ length (missing w) - MAX_GAPS_PER_WRITE.
Proof.
  unfold claim_gaps. destruct (missing w) as [|m0 ms] eqn:Hm; [intros [= <- <-]; by rewrite Hm|].
  rewrite <- Hm. intros [= <- <-]. cbn [missing set_missing].
  set (runs := runs_of (sort_by miss_seq (missing w))).
  set (taken := take MAX_GAPS_PER_WRITE runs). set (rest := drop MAX_GAPS_PER_WRITE runs).
  assert (missing w ≡ₚ concat taken ++ concat rest) as Hperm.
  { rewrite <- concat_app. unfold taken, rest. rewrite take_drop. unfold runs.
    by rewrite concat_runs_of, sort_by_perm. }
  assert (length (select_where (λ m, negb (seq_in (concat taken) m)) (missing w)) ≤ length (concat rest)) as Hle.
  { eapply length_select_none; [exact Hperm|]. intros x Hx. apply negb_false_iff, existsb_exists.
    exists x. split; [by apply list_elem_of_In|apply Z.eqb_refl]. }
  apply (f_equal length) in Hm. apply Permutation_length in Hperm. rewrite length_app in Hperm.
  assert (length taken ≤ length (concat taken)) as Hne.
  { apply length_concat_nonempty. intros r Hr. unfold taken in Hr.
    apply list_elem_of_lookup_1 in Hr as (i & Hi). apply lookup_take_Some in Hi as [Hi _].
    apply list_elem_of_lookup_2, runs_of_descend in Hi as (d & -> & Hd & _).
    by destruct d; [|rewrite reverse_cons; destruct (reverse d)]. }
  assert (length taken = MAX_GAPS_PER_WRITE `min` length runs) as Hlen by apply length_take.
  destruct (decide (MAX_GAPS_PER_WRITE ≤ length runs)) as [Hl|Hl]; [lia|].
  assert (rest = []) as Hrest by (apply drop_ge; lia). rewrite Hrest in Hle. cbn [concat length] in Hle. lia.
Qed.

(** A call under which nothing fails. *)
Definition faultless (c : Call) : Prop := c_db c = NoFault ∧ c_drain c = Drains.

Lemma insert_gaps_faultless c gs n k w d :
  c_db c = NoFault → ∃ w' d' extra, insert_gaps c gs n k w d = (None, w', d', extra) ∧ missing w' = missing w.
Proof.
  intros Hc. revert n k w d. induction gs as [|g gs IH]; intros n k w d; [by eexists _, _, _|].
  cbn [insert_gaps allocate]. rewrite Hc. unfold db_insert at 1.
  destruct (conflicts _ d).
  - destruct (IH (S n) (S k) (set_next (next_seq w + 1) w) d) as (w' & d' & extra & -> & Hm). by eexists _, _, _.
  - match goal with |- context [insert_gaps c gs (S n) (S k) ?w1 ?d1] =>
      destruct (IH (S n) (S k) w1 d1) as (w' & d' & extra & -> & Hm) end. by eexists _, _, _.
Qed.

Lemma write_preamble_faultless c k w d :
  c_db c = NoFault → ∃ w' d' gs extra, write_preamble c k w d = (None, w', d', gs, extra) ∧
    length (missing w') ≤ length (missing w) - MAX_GAPS_PER_WRITE.
Proof.
  intros Hc. unfold write_preamble. rewrite Hc.
  match goal with |- context [if started w then _ else ?b] => set (begun := b) end.
  assert (∃ d1, (if started w then Ok d else begun) = Ok d1) as (d1 & ->).
  { destruct (started w); [by eexists|]. unfold begun, db_insert. destruct (conflicts _ d); by eexists. }
  destruct (claim_gaps w) as [gs w1] eqn:Hg. apply claim_gaps_shrinks in Hg.
  destruct (insert_gaps_faultless c gs 0 (S k) w1 d1 Hc) as (w' & d' & extra & -> & Hm).
  eexists _, _, _, _. split; [done|]. by rewrite Hm.
Qed.

(** A record under which nothing fails empties the spool and pays gap rows. *)
Lemma record_faultless c bot r s :
  store_ok s → fresh_call c s → faultless c →
  let s' := run_state (record c bot r) s in
  spool s' = [] ∧ length (missing (writer s')) ≤ length (missing (writer s)) - MAX_GAPS_PER_WRITE.
Proof.
  intros Hok Hf [Hc Hd]. unfold record, write_row. cbn [allocate]. rewrite Hc, Hd.
  match goal with |- context [db_insert false ?m (db s)] => set (n := m) end.
  destruct (first_insert c s false n Hok Hf eq_refl eq_refl eq_refl) as (d1 & x & -> & _).
  destruct (write_preamble_faultless c 1 (set_next (next_seq (writer s) + 1) (writer s)) d1 Hc)
    as (w' & d' & gs & extra & -> & Hm).
  cbn [snd]. unfold drain_spool. cbn [spool with_writer with_db].
  destruct (spool s) as [|l ls] eqn:Hs; cbn; rewrite ?Hs; by split.
Qed.

(** A run of records. *)
Fixpoint record_all (l : list (Call * option string * AuditRow)) (s : AuditStore) : AuditStore :=
  match l with
  | [] => s
  | (c, bot, r) :: l' => record_all l' (run_state (record c bot r) s)
  end.

Fixpoint faultless_run (l : list (Call * option string * AuditRow)) (s : AuditStore) : Prop :=
  match l with
  | [] => True
  | (c, bot, r) :: l' => fresh_call c s ∧ faultless c ∧ faultless_run l' (run_state (record c bot r) s)
  end.

Lemma record_all_steps l s : faultless_run l s → rtc step s (record_all l s).
Proof.
  revert s. induction l as [|[[c bot] r] l IH]; intros s; simpl; [done|].
  intros (Hf & _ & Hl). eapply rtc_l; [by apply StepRecord|by apply IH].
Qed.

Lemma record_all_shrinks l s :
  store_ok s → faultless_run l s →
  length (missing (writer (record_all l s))) ≤ length (missing (writer s)) - MAX_GAPS_PER_WRITE * length l ∧
  (l ≠ [] → spool (record_all l s) = []).
Proof.
  revert s. induction l as [|[[c bot] r] l IH]; intros s Hok; simpl; [split; [lia|done]|].
  intros (Hf & Hc & Hl). destruct (record_faultless c bot r s Hok Hf Hc) as [Hs Hm].
  assert (store_ok (run_state (record c bot r) s)) as Hok'.
  { apply (step_store_step s); [done|by apply StepRecord]. }
  destruct (IH _ Hok' Hl) as [Hle Hsp]. unfold MAX_GAPS_PER_WRITE in *. split; [lia|]. intros _.
  destruct l as [|x l]; [exact Hs|by apply Hsp].
Qed.

(** ** A concrete run *)

Definition ulids (tag : ascii) (i : nat) : string := String tag (pretty i).

Definition sample_call (tag : ascii) (f : db_fault) : Call :=
  {| c_now := 1000; c_ulid := ulids tag; c_process := {["pid" := VInt 7]}; c_db := f;
     c_spool := None; c_drain := Drains |}.

Definition locked : exn := Exn "OperationalError" "database is locked".

Definition sample_row : AuditRow :=
  {| row_run_id := "r1"; row_step_id := None; row_agent_type := "chat"; row_hook_point := "tool_call";
     row_plugin := "caps"; row_decision := "deny"; row_severity := "info"; row_reason := "no";
     row_classification := None; row_tier := None; row_payload := {["bot_id" := VStr "b9"]} |}.

(** The first write finds the database locked and goes to the spool; the second is written,
    with the writer's start and the gap of the first, and the drain puts that one back. *)
Definition first_call : Call := sample_call "u" (FailsCommit locked).
Definition second_call : Call := sample_call "v" NoFault.
Definition spooled_store : AuditStore := run_state (record first_call None sample_row) (new_store "w1").
Definition drained_store : AuditStore := run_state (record second_call None sample_row) spooled_store.

Example drained_numbers :
  map (λ r, (nr_seq (db_new r), nr_kind (db_new r))) (db_rows (db drained_store)) =
  [(2%Z, None); (0%Z, Some "writer"); (3%Z, Some "gap"); (1%Z, None)].
Proof. vm_compute. reflexivity. Qed.

(** [record_many] when its transaction does not commit: it took the numbers 1 and 2, no row
    has them, and no gap row will ever cover them, for the writer owes nothing. *)
Example batch_numbers_lost :
  let s := run_state (record_many (sample_call "u" (FailsCommit locked)) [sample_row; sample_row] (λ _, None))
             (new_store "w1") in
  (next_seq (writer s) =? 3)%Z = true ∧ missing (writer s) = [] ∧ db_rows (db s) = [] ∧ spool s = [].
Proof. vm_compute. done. Qed.

Lemma ulids_inj tag i j : ulids tag i = ulids tag j → i = j.
Proof. intros [= H]. by apply (inj pretty) in H. Qed.

Definition ids_apart (tag : ascii) (s : AuditStore) : bool :=
  forallb (λ n, match record_id n with String a _ => negb (Ascii.eqb a tag) | "" => true end)
    (news (db s) ++ spool_records (spool s)).

Lemma sample_fresh tag f s : ids_apart tag s = true → fresh_call (sample_call tag f) s.
Proof.
  intros Ha. split; [apply ulids_inj|]. intros i n _ Hn He.
  unfold ids_apart in Ha. rewrite forallb_forall in Ha.
  specialize (Ha n ltac:(by apply list_elem_of_In)). rewrite He in Ha. cbn in Ha.
  by rewrite Ascii.eqb_refl in Ha.
Qed.

Lemma spooled_reached : rtc step (new_store "w1") spooled_store.
Proof. apply rtc_once, StepRecord, sample_fresh. vm_compute. reflexivity. Qed.

Lemma second_fresh : fresh_call second_call spooled_store.
Proof. apply sample_fresh. vm_compute. reflexivity. Qed.

Lemma drained_reached : rtc step (new_store "w1") drained_store.
Proof. eapply rtc_r; [apply spooled_reached|]. apply StepRecord, second_fresh. Qed.

(** The pair of the row the drain put back, which the archive then holds. *)
Definition drained_pairs : list (Z * string) := [(4%Z, "u0")].

Lemma third_fresh : fresh_call (sample_call "x" NoFault) drained_store.
Proof. apply sample_fresh. vm_compute. reflexivity. Qed.

(** ** Properties *)

(**  Every number a process takes is explained, after any calls but batches, any failures of the
    database, the spool and the drain under them, and any rows and lines of other processes:
    a row of the ledger or of its archive carries the number, a gap row there covers it, or
    the process still owes that gap row. *)
Theorem every_number_accounted id s seq :
  rtc step (new_store id) s → (0 < seq < next_seq (writer s))%Z → accounted s seq.
Proof. intros Hr. apply so_accounted, (steps_store_step _ _ (new_store_ok id) Hr). Qed.

Lemma every_number_accounted_witness :
  (0 < 1 < next_seq (writer drained_store))%Z ∧ accounted drained_store 1.
Proof.
  assert (0 < 1 < next_seq (writer drained_store))%Z as Hn.
  { split; [lia|]. apply Z.ltb_lt. vm_compute. reflexivity. }
  split; [exact Hn|]. exact (every_number_accounted "w1" drained_store 1 drained_reached Hn).
Defined.

(**  A [record] that returns has kept its row, under the id it answers or (for 0) in the
    spool, and whatever happens next the row is in the database, the spool or the archive; a
    [record] that raises has added no row anywhere and counts one lost write. *)
Theorem recorded_row_survives id s c bot r s' :
  rtc step (new_store id) s → fresh_call c s →
  let n := numbered c (stamped bot r) (c_now c) None s in
  let q := record c bot r s in
  write_outcome n q.1 s q.2 ∧
  (∀ i, q.1 = Ok i → rtc step q.2 s' → kept s' n).
Proof.
  intros Hr Hf n q. pose proof (proj1 (steps_store_step _ _ (new_store_ok id) Hr)) as Hok.
  pose proof (write_row_step c (stamped bot r) (c_now c) None s Hok Hf) as [Hs Ho].
  fold (record c bot r s) in Hs, Ho. fold n q in Hs, Ho. split; [exact Ho|]. intros i Hq Hr'.
  apply (steps_store_step q.2 s' (proj1 Hs) Hr'). rewrite Hq in Ho.
  destruct Ho as [[(x & Hx & Hn & _) _]|(_ & Hsp & _)].
  - left. exists x. split; [apply elem_of_app; by left|done].
  - right. apply list_elem_of_omap. by exists (SpoolRecord n).
Qed.

Lemma recorded_row_survives_witness :
  run_res (record first_call None sample_row) (new_store "w1") = Ok 0%Z ∧
  kept drained_store (numbered first_call (stamped None sample_row) 1000 None (new_store "w1")).
Proof.
  assert (run_res (record first_call None sample_row) (new_store "w1") = Ok 0%Z) as Hq
    by (vm_compute; reflexivity).
  split; [exact Hq|].
  refine (proj2 (recorded_row_survives "w1" (new_store "w1") first_call None sample_row drained_store
            (rtc_refl _ _) _) 0%Z Hq _).
  - apply sample_fresh. vm_compute. reflexivity.
  - apply rtc_once, StepRecord, second_fresh.
Defined.

(**  A compaction is all or nothing: when it raises, the database, the spool and the
    archive are as they were; when it returns, every row it was given was there unchanged, is
    now in the archive, and no row of the database was lost. *)
Theorem compaction_atomic id s c payload pairs :
  rtc step (new_store id) s → fresh_call c s →
  let q := write_compaction c payload pairs s in
  match q.1 with
  | Raise _ => db q.2 = db s ∧ archived q.2 = archived s ∧ spool q.2 = spool s
  | Ok k => k = Z.of_nat (length pairs) ∧ NoDup pairs.*1 ∧
      (∀ kp, kp ∈ pairs → ∃ r, is_pair r kp = true ∧ r ∈ archived q.2) ∧
      (∀ r, r ∈ db_rows (db s) → r ∈ db_rows (db q.2) ∨ r ∈ archived q.2 ∧ in_pairs pairs r = true) ∧
      (∀ r, r ∈ archived q.2 → r ∈ archived s ∨ in_pairs pairs r = true)
  end.
Proof.
  intros Hr Hf q. pose proof (proj1 (steps_store_step _ _ (new_store_ok id) Hr)) as Hok.
  unfold q. destruct (write_compaction_cases c payload pairs s Hok Hf)
    as [((e & ->) & _ & H)|(s1 & -> & Hc & Hnd & Hfound & ->)]; [exact H|].
  destruct Hc as [Har _ _ _ _ (new & Hrows & _)].
  destruct (drain_keeps (c_drain c) (archive_rows pairs s1)) as (K & _ & _).
  rewrite drain_archived. cbn [archived archive_rows]. rewrite Har. split_and!; [done|done|..].
  - intros kp Hkp. rewrite forallb_forall in Hfound.
    specialize (Hfound kp ltac:(by apply list_elem_of_In)).
    apply existsb_exists in Hfound as (r & Hin%list_elem_of_In & Hp). exists r. split; [done|].
    apply elem_of_app. right. apply elem_of_select_where. split; [done|].
    apply existsb_exists. exists kp. split; [by apply list_elem_of_In|]. by apply andb_true_iff in Hp as [? _].
  - intros r Hin. assert (r ∈ db_rows (db s1)) as Hin1 by (rewrite Hrows; apply elem_of_app; by left).
    destruct (in_pairs pairs r) eqn:Hp.
    + right. split; [|done]. apply elem_of_app. right. by apply elem_of_select_where.
    + left. apply K. simpl. apply elem_of_select_where. by rewrite Hp.
  - intros r [?|[_ ?]%elem_of_select_where]%elem_of_app; auto.
Qed.

Lemma compaction_atomic_witness :
  run_res (write_compaction (sample_call "x" NoFault) ∅ drained_pairs) drained_store = Ok 1%Z ∧
  ∃ r, r ∈ archived (run_state (write_compaction (sample_call "x" NoFault) ∅ drained_pairs) drained_store) ∧
       db_id r = 4%Z.
Proof.
  assert (run_res (write_compaction (sample_call "x" NoFault) ∅ drained_pairs) drained_store = Ok 1%Z)
    as Hq by (vm_compute; reflexivity).
  split; [exact Hq|].
  pose proof (compaction_atomic "w1" drained_store (sample_call "x" NoFault) ∅ drained_pairs
                drained_reached third_fresh) as H.
  cbv zeta in H. rewrite Hq in H. destruct H as (_ & _ & H & _).
  destruct (H (4%Z, "u0")) as (r & Hp & Hr); [by left|]. exists r. split; [exact Hr|].
  apply andb_true_iff in Hp as [Hid _]. by apply Z.eqb_eq in Hid.
Defined.

(** C19.  The ledger catches up: for a process that writes single records and compactions and
    closes, no batches, whatever failed before, once nothing fails any more each record pays the
    gap rows of sixteen owed numbers, so enough of them leave a ledger with nothing owed and an
    empty spool, where every number the process took is carried by a row or covered by a gap
    row. *)
Theorem ledger_catches_up id s l :
  rtc step (new_store id) s → faultless_run l s → l ≠ [] →
  length (missing (writer s)) ≤ MAX_GAPS_PER_WRITE * length l →
  let s' := record_all l s in
  missing (writer s') = [] ∧ spool s' = [] ∧
  ∀ seq, (0 < seq < next_seq (writer s'))%Z →
    ∃ r, r ∈ db_rows (db s') ++ archived s' ∧ (has_number (this_writer s') seq r ∨ covers (this_writer s') seq r).
Proof.
  intros Hr Hl Hne Hle s'. pose proof (proj1 (steps_store_step _ _ (new_store_ok id) Hr)) as Hok.
  destruct (record_all_shrinks l s Hok Hl) as [Hm Hs]. fold s' in Hm, Hs.
  assert (missing (writer s') = []) as Hnil by (apply length_zero_iff_nil; lia).
  split; [done|]. split; [by apply Hs|]. intros seq Hseq.
  pose proof (proj1 (steps_store_step _ _ Hok (record_all_steps l s Hl))) as Hok'. fold s' in Hok'.
  destruct (so_accounted s' Hok' seq Hseq) as [H|(m & Hm' & _)]; [exact H|].
  rewrite Hnil in Hm'. by apply elem_of_nil in Hm'.
Qed.

Lemma ledger_catches_up_witness :
  faultless_run [(second_call, None, sample_row)] spooled_store ∧ spool drained_store = [] ∧
  missing (writer drained_store) = [].
Proof.
  assert (faultless_run [(second_call, None, sample_row)] spooled_store) as Hl.
  { split; [exact second_fresh|]. by split. }
  assert (length (missing (writer spooled_store)) ≤ 16) as Hle.
  { apply Nat.leb_le. vm_compute. reflexivity. }
  destruct (ledger_catches_up "w1" spooled_store [(second_call, None, sample_row)] spooled_reached Hl
              ltac:(discriminate) Hle) as (Hm & Hs & _).
  split; [exact Hl|]. split; [exact Hs|exact Hm].
Defined.
