(* ===== verification/ProofBundle.v ===== *)
(** * The proof bundle ([audit/proof_bundle.py])

    The export of the ledger's rows as a closed JSON document and its offline verification:
    the structure check, the content hash and the three invariants.  A bundle is the parsed
    document.  SHA-256, the keyed digest of an account and [datetime.fromisoformat] are
    arguments. *)

From S2P Require Import Prelude PyVal PyText Hooks Kernel AuditLog.
From stdpp Require Import options.

Definition FORMAT : string := "evarness-proof-bundle".
Definition CLOUD_TIERS : list string := ["tier_3"].
Definition PRIVATE : list string := ["personal"; "secret"].
Definition LLM_CALL_HOOK : string := "pre_llm_call".
Definition ANSWER_HOOK : string := "pre_response".
Definition MAILBOX_WRITES_HOOK : string := "mailbox_writes".
Definition MAILBOX_WRITE_PERFORMED_HOOK : string := "mailbox_write_performed".
Definition NO_PRIVATE_TO_CLOUD : string := "no-private-to-cloud".
Definition MAILBOX_WRITE_APPROVED : string := "mailbox-write-approved".
Definition EVERY_CALL_AUDITED : string := "every-call-and-answer-audited".

Definition INVARIANTS : list (string * string) :=
  [(NO_PRIVATE_TO_CLOUD,
    "No model call whose data was classified personal or secret was allowed to a cloud tier (tier_3).");
   (MAILBOX_WRITE_APPROVED,
    "No mailbox write without an approved approval row: every account written to has a mailbox_writes approval in the ledger, recorded before the write when the write has a time.");
   (EVERY_CALL_AUDITED,
    "Every model call and every answer has an audit row: at least one pre_llm_call (run_id, step_id) per model call observed in a session, and a pre_response row in each session that answered.")].

(** The type names of a closed shape. *)
Inductive jtype := JStr | JInt | JNone.

Abbreviation shape := (list (string * list jtype)).

Definition ROW_FIELDS : shape :=
  [("id", [JInt]); ("ts", [JStr]); ("run_id", [JStr]); ("step_id", [JInt; JNone]);
   ("agent_type", [JStr]); ("hook_point", [JStr]); ("plugin", [JStr]); ("decision", [JStr]);
   ("classification", [JStr; JNone]); ("tier", [JStr; JNone]); ("severity", [JStr]);
   ("session_id", [JStr; JNone]); ("tool_name", [JStr; JNone]); ("account_ref", [JStr; JNone]);
   ("args_digest", [JStr; JNone]); ("result_digest", [JStr; JNone]); ("digest_alg", [JStr; JNone])].

Definition OBSERVATION_FIELDS : list (string * shape) :=
  [("model_calls", [("session_id", [JStr; JNone]); ("tier", [JStr; JNone])]);
   ("answers", [("session_id", [JStr])]);
   ("mailbox_writes", [("account_ref", [JStr]); ("count", [JInt]); ("at", [JStr; JNone])])].

Definition TOP_FIELDS : list string :=
  ["format"; "schema_version"; "subject"; "created_at"; "producer"; "scope"; "invariants";
   "ledger"; "observations"; "content_sha256"].

(** One way a bundle failed. *)
Record Violation := { v_invariant : string; v_detail : string }.

Record MailboxWrite := { mw_account : string; mw_count : Z; mw_at : option string }.

Record Observations := {
  o_model_calls : list (option string * option string);
  o_answers : list string;
  o_mailbox_writes : list MailboxWrite;
}.

Definition no_observations : Observations :=
  {| o_model_calls := []; o_answers := []; o_mailbox_writes := [] |}.

(** [Observations.__add__] *)
Definition add_observations (a b : Observations) : Observations :=
  {| o_model_calls := o_model_calls a ++ o_model_calls b; o_answers := o_answers a ++ o_answers b;
     o_mailbox_writes := o_mailbox_writes a ++ o_mailbox_writes b |}.

(** ** JSON objects *)

Abbreviation jobj := (list (string * pyval)).

(** [d.get(k)] on a parsed object. *)
Fixpoint jget (d : jobj) (k : string) : option pyval :=
  match d with
  | [] => None
  | (k', v) :: d' => if String.eqb k k' then Some v else jget d' k
  end.

Definition same_keys (l1 l2 : list string) : bool :=
  forallb (λ k, str_in k l2) l1 && forallb (λ k, str_in k l1) l2.

Definition sorted_strs (l : list string) : list string := map fst (sort_kv (map (λ k, (k, tt)) l)).

(** [f"missing {sorted(missing)}, unexpected {sorted(extra)}"] *)
Definition keys_differ (want have : list string) : string :=
  let names l := repr_val (VList (map VStr (sorted_strs l))) in
  "missing " +:+ names (select_where (λ k, negb (str_in k have)) want) +:+
  ", unexpected " +:+ names (select_where (λ k, negb (str_in k want)) have).

(** [isinstance(value, types)], a boolean counting as no type of a shape. *)
Definition has_jtype (v : pyval) (t : jtype) : bool :=
  match v, t with
  | VStr _, JStr | VInt _, JInt | VNone, JNone => true
  | _, _ => false
  end.

Definition field_fits (d : jobj) (f : string * list jtype) : bool :=
  match jget d f.1 with Some v => existsb (has_jtype v) f.2 | None => false end.

(** [_shape] *)
Definition shape_problem (item : pyval) (sh : shape) : option string :=
  match item with
  | VDict d =>
      if same_keys (map fst d) (map fst sh) then
        match List.find (λ f, negb (field_fits d f)) sh with
        | Some f => Some (f.1 +:+ " has the wrong type")
        | None => None
        end
      else Some (keys_differ (map fst sh) (map fst d))
  | _ => Some "not an object"
  end.

Definition bad (detail : string) : Violation := {| v_invariant := "format"; v_detail := detail |}.

Fixpoint shapes_bad (name : string) (index : Z) (items : list pyval) (sh : shape) : list Violation :=
  match items with
  | [] => []
  | item :: items' =>
      match shape_problem item sh with
      | Some p => [bad (name +:+ "[" +:+ pretty index +:+ "]: " +:+ p)]
      | None => []
      end ++ shapes_bad name (index + 1) items' sh
  end.

(** [hash(v)], as far as it raises. *)
Definition hash_error (v : pyval) : option exn :=
  match v with
  | VList _ => Some (Exn "TypeError" "unhashable type: 'list'")
  | VDict _ => Some (Exn "TypeError" "unhashable type: 'dict'")
  | _ => None
  end.

(** The set of the statements' (id, statement) pairs, in the list's order. *)
Fixpoint stated_pairs (l : list pyval) : res (list (pyval * pyval)) :=
  match l with
  | [] => Ok []
  | VDict d :: l' =>
      let i := default VNone (jget d "id") in
      let s := default VNone (jget d "statement") in
      match hash_error i, hash_error s with
      | Some e, _ | None, Some e => Raise e
      | None, None =>
          match stated_pairs l' with Ok ps => Ok ((i, s) :: ps) | Raise e => Raise e end
      end
  | _ :: l' => stated_pairs l'
  end.

Definition is_invariant (p : pyval * pyval) (inv : string * string) : bool :=
  match p with
  | (VStr i, VStr s) => String.eqb i inv.1 && String.eqb s inv.2
  | _ => false
  end.

Definition states_invariants (ps : list (pyval * pyval)) : bool :=
  forallb (λ p, existsb (is_invariant p) INVARIANTS) ps &&
  forallb (λ inv, existsb (λ p, is_invariant p inv) ps) INVARIANTS.

(** [v == 1] *)
Definition equals_one (v : pyval) : bool :=
  match v with
  | VInt z => (z =? 1)%Z
  | VBool b => b
  | VFloat r => String.eqb r "1.0"
  | _ => false
  end.

Definition top (b : dict) (k : string) : pyval := default VNone (b !! k).

Definition keys_of (b : dict) : list string := map fst (map_to_list b).

Definition when (p : bool) (v : Violation) : list Violation := if p then [v] else [].

Definition is_dict (v : pyval) : bool := match v with VDict _ => true | _ => false end.
Definition is_str (v : pyval) : bool := match v with VStr _ => true | _ => false end.

Definition observation_bad (obs : jobj) (f : string * shape) : list Violation :=
  match jget obs f.1 with
  | Some (VList items) => shapes_bad ("observations." +:+ f.1) 0 items f.2
  | _ => [bad ("observations." +:+ f.1 +:+ " is not a list")]
  end.

(** [_structure] *)
Definition structure (b : dict) : res (list Violation) :=
  if negb (eq_str b "format" FORMAT) then
    Ok [bad ("format is " +:+ repr_val (top b "format") +:+ ", not " +:+ py_repr FORMAT)]
  else if negb (equals_one (top b "schema_version")) then
    Ok [bad ("schema_version " +:+ repr_val (top b "schema_version") +:+ " is not supported (1)")]
  else if negb (same_keys (keys_of b) TOP_FIELDS) then
    Ok [bad ("top-level keys: " +:+ keys_differ TOP_FIELDS (keys_of b))]
  else
    match (match top b "invariants" with
           | VList l => match stated_pairs l with
                        | Ok ps => Ok (states_invariants ps)
                        | Raise e => Raise e
                        end
           | _ => Ok false
           end) with
    | Raise e => Raise e
    | Ok stated =>
        let out1 :=
          when (negb stated) (bad "the invariant statements are not format version 1's, verbatim") ++
          when (negb (is_str (top b "content_sha256"))) (bad "content_sha256 is not a string") ++
          when (negb (is_dict (top b "producer"))) (bad "producer is not an object") ++
          when (negb (is_dict (top b "scope"))) (bad "scope is not an object") ++
          match top b "ledger" with
          | VList rows => shapes_bad "ledger" 0 rows ROW_FIELDS
          | _ => [bad "ledger is not a list"]
          end in
        let exactly := bad ("observations must have exactly " +:+
                            repr_val (VList (map VStr (sorted_strs (map fst OBSERVATION_FIELDS))))) in
        Ok (out1 ++
            match top b "observations" with
            | VDict obs =>
                if same_keys (map fst obs) (map fst OBSERVATION_FIELDS)
                then concat (map (observation_bad obs) OBSERVATION_FIELDS)
                else [exactly]
            | _ => [exactly]
            end)
    end.

(** ** The content hash *)

(** A character of [json.dumps(..., ensure_ascii=False)]. *)
Definition json_raw_char (c : ascii) : string :=
  if (127 <=? N_of_ascii c)%N then String c EmptyString else json_char c.

Definition json_raw_str (s : string) : string := dquote +:+ str_concat_map json_raw_char s +:+ dquote.

(** [json.dumps(v, sort_keys=True, separators=(",", ":"), ensure_ascii=False)] *)
Fixpoint canonical (v : pyval) : string :=
  match v with
  | VNone => "null"
  | VBool true => "true"
  | VBool false => "false"
  | VInt z => pretty z
  | VFloat r => r
  | VStr s => json_raw_str s
  | VList l => "[" +:+ join "," (map canonical l) +:+ "]"
  | VDict d =>
      "{" +:+ join "," (map (λ kv, json_raw_str kv.1 +:+ ":" +:+ kv.2)
                          (sort_kv (map (λ kv, (kv.1, canonical kv.2)) d))) +:+ "}"
  | VObj s => json_raw_str s
  end.

(** [content_sha256] *)
Definition content_sha256 (sha256 : string → string) (b : dict) : string :=
  sha256 (canonical (VDict (map_to_list (delete "content_sha256" b)))).

(** ** The three invariants *)

Definition str_field (r : jobj) (k : string) : option string :=
  match jget r k with Some (VStr s) => Some s | _ => None end.

Definition int_field (r : jobj) (k : string) : option Z :=
  match jget r k with Some (VInt z) => Some z | _ => None end.

Definition text (r : jobj) (k : string) : string := default "" (str_field r k).
Definition number (r : jobj) (k : string) : Z := default 0%Z (int_field r k).
Definition opt_in (o : option string) (l : list string) : bool :=
  match o with Some s => str_in s l | None => false end.

Definition opt_text (o : option string) : string := default "None" o.

Definition at_hook (h : string) (r : jobj) : bool := String.eqb (text r "hook_point") h.

Definition private_to_cloud (r : jobj) : bool :=
  at_hook LLM_CALL_HOOK r && String.eqb (text r "decision") "allow" &&
  opt_in (str_field r "classification") PRIVATE && opt_in (str_field r "tier") CLOUD_TIERS.

(** [_no_private_to_cloud] *)
Definition no_private_to_cloud (rows : list jobj) : list Violation :=
  map (λ r, {| v_invariant := NO_PRIVATE_TO_CLOUD;
               v_detail := "ledger row " +:+ pretty (number r "id") +:+ ": a " +:+
                           opt_text (str_field r "classification") +:+
                           " model call was allowed to " +:+ opt_text (str_field r "tier") |})
    (select_where private_to_cloud rows).

(** The time, id and decision of an approval row. *)
Record Approval := { ap_at : option Z; ap_id : Z; ap_decision : string }.

Section verify.
Context (sha256 : string → string) (fromisoformat : string → option Z).

(** The approvals and revokes of an account, in the ledger's order. *)
Definition history (rows : list jobj) (ref : string) : list Approval :=
  map (λ r, {| ap_at := fromisoformat (text r "ts"); ap_id := number r "id";
               ap_decision := text r "decision" |})
    (select_where (λ r, at_hook MAILBOX_WRITES_HOOK r &&
                        match str_field r "account_ref" with
                        | Some a => str_truthy a && String.eqb a ref
                        | None => false
                        end) rows).

(** The order of the tuples [(moment, row_id, decision)]. *)
Definition moment_lt (x y : Z * Z * string) : bool :=
  let '(t, i, d) := x in
  let '(t', i', d') := y in
  (t <? t')%Z || (t =? t')%Z && ((i <? i')%Z || (i =? i')%Z && String.ltb d d').

Fixpoint insert_moment (x : Z * Z * string) (l : list (Z * Z * string)) : list (Z * Z * string) :=
  match l with
  | [] => [x]
  | y :: l' => if moment_lt x y then x :: l else y :: insert_moment x l'
  end.

Definition sort_moments (l : list (Z * Z * string)) : list (Z * Z * string) :=
  fold_left (λ acc x, insert_moment x acc) l [].

Definition until_moment (at_ : Z) (l : list Approval) : list (Z * Z * string) :=
  omap (λ a, match ap_at a with
             | Some t => if (t <=? at_)%Z then Some (t, ap_id a, ap_decision a) else None
             | None => None
             end) l.

(** [_write_not_authorised] *)
Definition write_not_authorised (ref : string) (at_text : option string) (l : list Approval)
    : option string :=
  match at_text with
  | None => Some ("write(s) to " +:+ ref +:+
                  " have no time, so they cannot be ordered against a revoke (an observation must carry 'at')")
  | Some txt =>
      match fromisoformat txt with
      | None => Some ("write time " +:+ py_repr txt +:+ " is not ISO 8601")
      | Some at_ =>
          if existsb (λ a, bool_decide (ap_at a = None)) l
          then Some ("an approval row for " +:+ ref +:+ " has a time that is not ISO 8601")
          else match last (sort_moments (until_moment at_ l)) with
               | None => Some ("write(s) to " +:+ ref +:+ " at " +:+ txt +:+ " came before its approval")
               | Some (_, _, d) =>
                   if String.eqb d "allow" then None
                   else Some ("write(s) to " +:+ ref +:+ " at " +:+ txt +:+
                              " came after its approval was revoked")
               end
      end
  end.

Definition write_violation (rows : list jobj) (w : jobj) : list Violation :=
  let ref := text w "account_ref" in
  let l := history rows ref in
  let violation d := {| v_invariant := MAILBOX_WRITE_APPROVED; v_detail := d |} in
  if (number w "count" <=? 0)%Z then []
  else if negb (existsb (λ a, String.eqb (ap_decision a) "allow") l) then
    [violation (pretty (number w "count") +:+ " write(s) to " +:+ ref +:+ " with no approval row")]
  else match write_not_authorised ref (str_field w "at") l with
       | Some p => [violation p]
       | None => []
       end.

(** [_mailbox_writes_approved] *)
Definition mailbox_writes_approved (rows writes : list jobj) : list Violation :=
  concat (map (write_violation rows) writes).

(** The distinct (run_id, step_id) of the model calls audited in a session, or anywhere. *)
Definition audited_keys (rows : list jobj) (session : option string) : gset (string * option Z) :=
  list_to_set (map (λ r, (text r "run_id", int_field r "step_id"))
    (select_where (λ r, at_hook LLM_CALL_HOOK r &&
                        match session with
                        | Some s => bool_decide (str_field r "session_id" = Some s)
                        | None => true
                        end) rows)).

Definition audited (rows : list jobj) (session : option string) : Z :=
  Z.of_nat (size (audited_keys rows session)).

(** [sorted(set(l))] *)
Definition sorted_set (l : list string) : list string := sorted_strs (remove_dups l).

Definition sessions_of (l : list jobj) : list string := omap (λ r, str_field r "session_id") l.

(** The model calls observed in a session. *)
Definition observed (calls : list jobj) (s : string) : Z :=
  Z.of_nat (count_where (String.eqb s) (sessions_of calls)).

Definition call_violation (rows calls : list jobj) (s : string) : list Violation :=
  when (audited rows (Some s) <? observed calls s)%Z
    {| v_invariant := EVERY_CALL_AUDITED;
       v_detail := "session " +:+ s +:+ ": " +:+ pretty (observed calls s) +:+
                   " model call(s) observed, " +:+ pretty (audited rows (Some s)) +:+
                   " audited at " +:+ LLM_CALL_HOOK |}.

Definition answer_violation (rows : list jobj) (s : string) : list Violation :=
  when (negb (existsb (λ r, at_hook ANSWER_HOOK r && bool_decide (str_field r "session_id" = Some s)) rows))
    {| v_invariant := EVERY_CALL_AUDITED;
       v_detail := "session " +:+ s +:+ ": an answer with no " +:+ ANSWER_HOOK +:+ " row" |}.

(** [_every_call_and_answer_audited] *)
Definition every_call_and_answer_audited (rows calls answers : list jobj) : list Violation :=
  let total := Z.of_nat (length calls) in
  let sessionless := (length calls - length (sessions_of calls))%nat in
  concat (map (call_violation rows calls) (sorted_set (sessions_of calls))) ++
  when (negb (Nat.eqb sessionless 0) && (audited rows None <? total)%Z)
    {| v_invariant := EVERY_CALL_AUDITED;
       v_detail := pretty total +:+ " model call(s) observed, " +:+ pretty (audited rows None) +:+
                   " audited at " +:+ LLM_CALL_HOOK |} ++
  concat (map (answer_violation rows) (sorted_set (map (λ a, text a "session_id") answers))).

(** The objects of a list the structure check accepted. *)
Definition objects (v : pyval) : list jobj :=
  match v with
  | VList l => omap (λ x, match x with VDict d => Some d | _ => None end) l
  | _ => []
  end.

Definition observations_of (b : dict) (name : string) : list jobj :=
  match top b "observations" with
  | VDict obs => match jget obs name with Some v => objects v | None => [] end
  | _ => []
  end.

(** [verify_bundle] *)
Definition verify_bundle (b : dict) : res (list Violation) :=
  match structure b with
  | Raise e => Raise e
  | Ok [] =>
      let rows := objects (top b "ledger") in
      Ok (when (negb (eq_str b "content_sha256" (content_sha256 sha256 b)))
            {| v_invariant := "integrity";
               v_detail := "content_sha256 does not match the content (edited?)" |} ++
          no_private_to_cloud rows ++
          mailbox_writes_approved rows (observations_of b "mailbox_writes") ++
          every_call_and_answer_audited rows (observations_of b "model_calls") (observations_of b "answers"))
  | Ok problems => Ok problems
  end.
End verify.

(** ** Export *)

(** [_opt_str(payload.get(key))] *)
Definition opt_str (o : option pyval) : option string :=
  match o with Some VNone | None => None | Some v => Some (str_val v) end.

Definition nullable (o : option string) : pyval := match o with Some s => VStr s | None => VNone end.

Definition payload_of (r : DbRow) : dict := row_payload (nr_row (db_new r)).
Definition hook_of (r : DbRow) : string := row_hook_point (nr_row (db_new r)).

Definition names_account (r : DbRow) : bool :=
  String.eqb (hook_of r) MAILBOX_WRITES_HOOK || String.eqb (hook_of r) MAILBOX_WRITE_PERFORMED_HOOK.

(** [_Pseudonyms.ref]; [hmac] answers the 24 digits of the export's keyed digest. *)
Definition pseudonym (hmac : string → string) (value : string) : string := "acct-" +:+ hmac value.

(** The reference of the account a row names. *)
Definition account_ref (ref : string → string) (r : DbRow) : option string :=
  if names_account r then
    match payload_of r !! "account" with
    | Some v => if truthy v then Some (ref (str_val v)) else None
    | None => None
    end
  else None.

(** [_bundle_row] *)
Definition bundle_row (ref : string → string) (r : DbRow) : jobj :=
  let n := db_new r in
  let a := nr_row n in
  [("id", VInt (db_id r)); ("ts", VStr (isoformat (nr_ts n))); ("run_id", VStr (row_run_id a));
   ("step_id", match row_step_id a with Some z => VInt z | None => VNone end);
   ("agent_type", VStr (row_agent_type a)); ("hook_point", VStr (row_hook_point a));
   ("plugin", VStr (row_plugin a)); ("decision", VStr (row_decision a));
   ("classification", nullable (class_str <$> row_classification a));
   ("tier", nullable (tier_str <$> row_tier a)); ("severity", VStr (row_severity a));
   ("session_id", nullable (opt_str (payload_of r !! "session_id")));
   ("tool_name", nullable (opt_str (payload_of r !! "tool_name")));
   ("account_ref", nullable (account_ref ref r));
   ("args_digest", nullable (opt_str (payload_of r !! "args_digest")));
   ("result_digest", nullable (opt_str (payload_of r !! "result_digest")));
   ("digest_alg", nullable (opt_str (payload_of r !! "digest_alg")))].

Definition window (run_id : option string) (since until : option Z) : Filter :=
  {| f_run_id := run_id; f_decision := None; f_severity := None; f_plugin := None;
     f_since := since; f_until := until; f_store_rows := false |}.

Definition has_id (k : Z) (r : DbRow) : bool := (db_id r =? k)%Z.

(** A row put into a dict by its id: an id already there keeps its place. *)
Definition put_row (acc : list DbRow) (r : DbRow) : list DbRow :=
  if existsb (has_id (db_id r)) acc
  then map (λ x, if has_id (db_id r) x then r else x) acc
  else acc ++ [r].

(** [_rows_in_scope] *)
Definition rows_in_scope (s : AuditStore) (since until : option Z) (run_ids : list string) : list DbRow :=
  match run_ids with
  | [] => query (window None since until) None s
  | _ => fold_left put_row (concat (map (λ k, query (window (Some k) since until) None s) run_ids)) []
  end.

(** [sorted(rows, key=_order)] *)
Definition in_order (rows : list DbRow) : list DbRow :=
  sort_by (nr_ts ∘ db_new) (sort_by db_id rows).

(** [_ledger_writes] *)
Definition ledger_write (r : DbRow) : option MailboxWrite :=
  if String.eqb (hook_of r) MAILBOX_WRITE_PERFORMED_HOOK then
    a ← get_nonempty (payload_of r) "account";
    Some {| mw_account := a; mw_count := default 1%Z (int_value (payload_of r) "count");
            mw_at := Some (isoformat (nr_ts (db_new r))) |}
  else None.

Definition ledger_writes (rows : list DbRow) : Observations :=
  {| o_model_calls := []; o_answers := []; o_mailbox_writes := omap ledger_write (in_order rows) |}.

Definition observations_json (ref : string → string) (o : Observations) : jobj :=
  [("model_calls", VList (map (λ c : option string * option string, VDict [("session_id", nullable c.1); ("tier", nullable c.2)])
                            (o_model_calls o)));
   ("answers", VList (map (λ a, VDict [("session_id", VStr a)]) (o_answers o)));
   ("mailbox_writes", VList (map (λ w, VDict [("account_ref", VStr (ref (mw_account w)));
                                              ("count", VInt (mw_count w)); ("at", nullable (mw_at w))])
                               (o_mailbox_writes o)))].

(** The ledger rows an export carries. *)
Definition exported_rows (s : AuditStore) (since until : option Z) (run_ids : list string) : list DbRow :=
  let rows := rows_in_scope s since until run_ids in
  let approvals := select_where (λ r, String.eqb (hook_of r) MAILBOX_WRITES_HOOK &&
                                      negb (existsb (has_id (db_id r)) rows))
                     (query (window None None until) None s) in
  in_order (rows ++ approvals).

(** [export_bundle] *)
Definition export_bundle (sha256 hmac : string → string) (s : AuditStore) (since until : option Z)
    (run_ids : list string) (o : Observations) (subject version : string) (now : Z) : dict :=
  let seen := add_observations o (ledger_writes (rows_in_scope s since until run_ids)) in
  let iso t := nullable (isoformat <$> t) in
  let ref := pseudonym hmac in
  let body := list_to_map
    [("format", VStr FORMAT); ("schema_version", VInt 1); ("subject", VStr subject);
     ("created_at", VStr (isoformat now));
     ("producer", VDict [("name", VStr "evarness"); ("version", VStr version)]);
     ("scope", VDict [("since", iso since); ("until", iso until);
                      ("run_ids", VList (map VStr run_ids))]);
     ("invariants", VList (map (λ i, VDict [("id", VStr i.1); ("statement", VStr i.2)]) INVARIANTS));
     ("ledger", VList (map (λ r, VDict (bundle_row ref r)) (exported_rows s since until run_ids)));
     ("observations", VDict (observations_json ref seen))] in
  <["content_sha256" := VStr (content_sha256 sha256 body)]> body.

(** ** Facts *)

Lemma forallb_elem {A} (p : A → bool) l : forallb p l = true ↔ ∀ x, x ∈ l → p x = true.
Proof. rewrite forallb_forall. split; intros H x Hx; apply H; by apply list_elem_of_In. Qed.

Lemma existsb_elem {A} (p : A → bool) l : existsb p l = true ↔ ∃ x, x ∈ l ∧ p x = true.
Proof. rewrite existsb_exists. split; intros (x & Hx & Hp); exists x; split; try done; by apply list_elem_of_In. Qed.

Lemma same_keys_spec l1 l2 : same_keys l1 l2 = true ↔ ∀ k, k ∈ l1 ↔ k ∈ l2.
Proof.
  unfold same_keys. rewrite andb_true_iff, !forallb_elem. setoid_rewrite str_in_elem.
  split; [intros [H1 H2] k; split; auto|intros H; split; intros k; apply H].
Qed.

(** An object of exactly a shape's keys, each value of one of its types. *)
Definition fits (sh : shape) (v : pyval) : Prop :=
  ∃ d, v = VDict d ∧ (∀ k, k ∈ map fst d ↔ k ∈ map fst sh) ∧ ∀ f, f ∈ sh → field_fits d f = true.

Lemma shape_problem_None v sh : shape_problem v sh = None ↔ fits sh v.
Proof.
  unfold shape_problem, fits. split.
  - destruct v as [| | | | | |d|]; try done. destruct (same_keys _ _) eqn:Hk; [|done].
    destruct (List.find _ sh) as [f|] eqn:Hf; [done|]. intros _. exists d. split; [done|].
    split; [by apply same_keys_spec|]. intros f Hin. apply list_elem_of_In in Hin.
    by apply (find_none _ _ Hf), negb_false_iff in Hin.
  - intros (d & -> & Hk%same_keys_spec & Hf). rewrite Hk.
    destruct (List.find _ sh) as [f|] eqn:He; [|done]. apply find_some in He as [Hin He].
    rewrite Hf in He; [done|]. by apply list_elem_of_In.
Qed.

Lemma shapes_bad_nil name i items sh : shapes_bad name i items sh = [] ↔ Forall (fits sh) items.
Proof.
  revert i. induction items as [|v items IH]; intros i; simpl; [by split|].
  rewrite Forall_cons, <- shape_problem_None, <- (IH (i + 1)%Z).
  destruct (shape_problem v sh); simpl; [|tauto]. split; [done|by intros [? _]].
Qed.

Lemma when_nil p v : when p v = [] ↔ p = false.
Proof. by destruct p. Qed.

Lemma concat_map_nil {A B} (f : A → list B) l : concat (map f l) = [] ↔ ∀ x, x ∈ l → f x = [].
Proof.
  induction l as [|x l IH]; simpl; [split; [by intros _ x ?%elem_of_nil|done]|].
  rewrite app_nil, IH. setoid_rewrite elem_of_cons. naive_solver.
Qed.

(** *** The order of the decisions *)

Lemma moment_lt_trans x y z : moment_lt x y = true → moment_lt y z = true → moment_lt x z = true.
Proof.
  destruct x as [[t1 i1] d1], y as [[t2 i2] d2], z as [[t3 i3] d3]. unfold moment_lt.
  rewrite !orb_true_iff, !andb_true_iff, !orb_true_iff, !andb_true_iff, !Z.ltb_lt, !Z.eqb_eq.
  intros [?|[-> [?|[-> H1]]]] [?|[-> [?|[-> H2]]]]; try (left; lia);
    right; (split; [lia|]); try (left; lia). right. split; [lia|]. by eapply string_lt_trans.
Qed.

Definition moments_sorted : list (Z * Z * string) → Prop := StronglySorted (λ x y, moment_lt y x = false).

Lemma insert_moment_perm x l : insert_moment x l ≡ₚ x :: l.
Proof.
  induction l as [|y l IH]; simpl; [done|]. destruct (moment_lt x y); [done|].
  rewrite IH. by constructor.
Qed.

Lemma insert_moment_sorted x l : moments_sorted l → moments_sorted (insert_moment x l).
Proof.
  induction 1 as [|y l Hs IH Hf]; simpl; [repeat constructor|]. rewrite Forall_forall in Hf.
  destruct (moment_lt x y) eqn:Hxy.
  - constructor; [by constructor; [|apply Forall_forall]|]. apply Forall_forall.
    intros z [->|Hz]%elem_of_cons; apply not_true_iff_false; intros Hzx.
    + pose proof (moment_lt_trans _ _ _ Hzx Hxy) as Hyy. pose proof (Hf y) as _.
      clear -Hyy. destruct y as [[t i] d]. unfold moment_lt in Hyy.
      rewrite !Z.ltb_irrefl, !Z.eqb_refl in Hyy. simpl in Hyy. unfold String.ltb in Hyy.
      pose proof (String.compare_antisym d d) as Ha. by destruct (String.compare d d).
    + pose proof (moment_lt_trans _ _ _ Hzx Hxy). specialize (Hf z Hz). congruence.
  - constructor; [done|]. apply Forall_forall. intros z Hz.
    rewrite insert_moment_perm, elem_of_cons in Hz. destruct Hz as [->|Hz]; [done|by apply Hf].
Qed.

Lemma sort_moments_spec l : moments_sorted (sort_moments l) ∧ sort_moments l ≡ₚ l.
Proof.
  unfold sort_moments. assert (moments_sorted []) as Hn by constructor.
  enough (∀ acc, moments_sorted acc →
    moments_sorted (fold_left (λ acc x, insert_moment x acc) l acc) ∧
    fold_left (λ acc x, insert_moment x acc) l acc ≡ₚ acc ++ l) as H by (by apply (H [])).
  clear Hn. induction l as [|x l IH]; intros acc Ha; simpl; [by rewrite app_nil_r|].
  destruct (IH (insert_moment x acc)) as [Hs Hp]; [by apply insert_moment_sorted|].
  split; [done|]. rewrite Hp, insert_moment_perm. simpl. apply Permutation_middle.
Qed.

Lemma sorted_last l x : moments_sorted l → last l = Some x → x ∈ l ∧ ∀ y, y ∈ l → y = x ∨ moment_lt x y = false.
Proof.
  induction 1 as [|y l Hs IH Hf]; [done|]. rewrite Forall_forall in Hf.
  destruct l as [|z l].
  - intros [= ->]. split; [by left|]. intros y ->%list_elem_of_singleton. by left.
  - change (last (y :: z :: l)) with (last (z :: l)). intros Hl. destruct (IH Hl) as [Hx Hall].
    split; [by right|]. intros w [->|Hw]%elem_of_cons; [right; by apply Hf|by apply Hall].
Qed.

Lemma last_sort_moments l :
  match last (sort_moments l) with
  | Some x => x ∈ l ∧ ∀ y, y ∈ l → y = x ∨ moment_lt x y = false
  | None => l = []
  end.
Proof.
  destruct (sort_moments_spec l) as [Hs Hp]. destruct (last (sort_moments l)) as [x|] eqn:Hl.
  - destruct (sorted_last _ _ Hs Hl) as [Hx Hall]. split; [by rewrite <- Hp|].
    intros y Hy. apply Hall. by rewrite Hp.
  - apply last_None in Hl. rewrite Hl in Hp. by apply Permutation_nil in Hp.
Qed.

(** ** What a verified bundle shows *)

(** The structure the format fixes. *)
Record well_formed (b : dict) : Prop := {
  wf_format : b !! "format" = Some (VStr FORMAT);
  wf_version : equals_one (top b "schema_version") = true;
  wf_keys k : is_Some (b !! k) ↔ k ∈ TOP_FIELDS;
  wf_statements : ∃ l ps, top b "invariants" = VList l ∧ stated_pairs l = Ok ps ∧
    ∀ p, p ∈ ps ↔ ∃ inv, inv ∈ INVARIANTS ∧ p = (VStr inv.1, VStr inv.2);
  wf_hash : ∃ h, top b "content_sha256" = VStr h;
  wf_producer : ∃ d, top b "producer" = VDict d;
  wf_scope : ∃ d, top b "scope" = VDict d;
  wf_ledger : ∃ rows, top b "ledger" = VList rows ∧ Forall (fits ROW_FIELDS) rows;
  wf_observations : ∃ obs, top b "observations" = VDict obs ∧
    (∀ k, k ∈ map fst obs ↔ k ∈ map fst OBSERVATION_FIELDS) ∧
    ∀ f, f ∈ OBSERVATION_FIELDS → ∃ items, jget obs f.1 = Some (VList items) ∧ Forall (fits f.2) items;
}.

(** No row lets private data go to a cloud tier. *)
Definition private_stays_local (rows : list jobj) : Prop :=
  ∀ r c t, r ∈ rows → text r "hook_point" = LLM_CALL_HOOK → text r "decision" = "allow" →
    str_field r "classification" = Some c → c ∈ PRIVATE →
    str_field r "tier" = Some t → t ∉ CLOUD_TIERS.

(** The account a write names had an approval at the write's time: of its rows at or before
    that time, none comes after one that allows; and every row of it has a time. *)
Definition write_approved (fromisoformat : string → option Z) (rows : list jobj) (w : jobj) : Prop :=
  let l := history fromisoformat rows (text w "account_ref") in
  ∃ txt t a m, str_field w "at" = Some txt ∧ fromisoformat txt = Some t ∧
    (∀ x, x ∈ l → ap_at x ≠ None) ∧
    a ∈ l ∧ ap_at a = Some m ∧ (m ≤ t)%Z ∧ ap_decision a = "allow" ∧
    ∀ x m', x ∈ l → ap_at x = Some m' → (m' ≤ t)%Z →
      (m', ap_id x, ap_decision x) = (m, ap_id a, "allow") ∨
      moment_lt (m, ap_id a, "allow") (m', ap_id x, ap_decision x) = false.

Definition writes_approved (fromisoformat : string → option Z) (rows writes : list jobj) : Prop :=
  ∀ w, w ∈ writes → (0 < number w "count")%Z → write_approved fromisoformat rows w.

(** As many audited calls as observed ones, in each session and, when one of them names no
    session, in all; and a row for each answer. *)
Definition calls_and_answers_audited (rows calls answers : list jobj) : Prop :=
  (∀ s, (observed calls s ≤ audited rows (Some s))%Z) ∧
  ((∃ c, c ∈ calls ∧ str_field c "session_id" = None) →
   (Z.of_nat (length calls) ≤ audited rows None)%Z) ∧
  ∀ a, a ∈ answers → ∃ r, r ∈ rows ∧ text r "hook_point" = ANSWER_HOOK ∧
    str_field r "session_id" = Some (text a "session_id").

Lemma keys_of_spec b k : k ∈ keys_of b ↔ is_Some (b !! k).
Proof.
  unfold keys_of. rewrite list_elem_of_fmap. split.
  - intros ([k' v] & -> & Hin%elem_of_map_to_list). by exists v.
  - intros [v Hv]. exists (k, v). by rewrite elem_of_map_to_list.
Qed.

Lemma is_invariant_spec p inv : is_invariant p inv = true ↔ p = (VStr inv.1, VStr inv.2).
Proof.
  destruct p as [[] []]; simpl; try done. rewrite andb_true_iff, !String.eqb_eq.
  split; [by intros [-> ->]|by intros [= -> ->]].
Qed.

Lemma states_invariants_spec ps :
  states_invariants ps = true ↔ ∀ p, p ∈ ps ↔ ∃ inv, inv ∈ INVARIANTS ∧ p = (VStr inv.1, VStr inv.2).
Proof.
  unfold states_invariants. rewrite andb_true_iff, !forallb_elem.
  setoid_rewrite existsb_elem. setoid_rewrite is_invariant_spec. split.
  - intros [H1 H2] p. split; [apply H1|]. intros (inv & Hi & ->).
    destruct (H2 inv Hi) as (p & Hp & ->). exact Hp.
  - intros H. split; [intros p; apply H|]. intros inv Hi. exists (VStr inv.1, VStr inv.2).
    split; [|done]. apply H. eauto.
Qed.

Lemma observation_bad_nil obs f :
  observation_bad obs f = [] ↔ ∃ items, jget obs f.1 = Some (VList items) ∧ Forall (fits f.2) items.
Proof.
  unfold observation_bad. destruct (jget obs f.1) as [[]|]; try (split; [done|by intros (? & ? & _)]).
  rewrite shapes_bad_nil. split; [intros H; eauto|by intros (l' & [= ->] & H)].
Qed.

Lemma structure_nil b : structure b = Ok [] ↔ well_formed b.
Proof.
  unfold structure. split.
  - destruct (eq_str b "format" FORMAT) eqn:Hf; cbn [negb]; [|done].
    destruct (equals_one _) eqn:Hv; cbn [negb]; [|done].
    destruct (same_keys _ _) eqn:Hk; cbn [negb]; [|done].
    destruct (match top b "invariants" with VList _ => _ | _ => _ end) as [stated|] eqn:Hs; [|done].
    intros [= Hout]. rewrite !app_nil, !when_nil, !negb_false_iff in Hout.
    destruct Hout as ((-> & Hh & Hp & Hsc & Hl) & Ho).
    split; try done.
    + by apply eq_str_spec.
    + intros k. rewrite <- keys_of_spec. by apply same_keys_spec.
    + destruct (top b "invariants") as [| | | | |l| |] eqn:Hi; try done.
      destruct (stated_pairs l) as [ps|] eqn:Hps; [|done]. injection Hs as Hs.
      exists l, ps. split; [done|]. split; [done|]. by apply states_invariants_spec.
    + destruct (top b "content_sha256"); try done. eauto.
    + destruct (top b "producer"); try done. eauto.
    + destruct (top b "scope"); try done. eauto.
    + destruct (top b "ledger"); try done. apply shapes_bad_nil in Hl. eauto.
    + destruct (top b "observations") as [| | | | | |obs|]; try done.
      destruct (same_keys (map fst obs) _) eqn:Hok; [|done]. exists obs. split; [done|].
      split; [by apply same_keys_spec|]. intros f Hin. apply observation_bad_nil.
      by apply (proj1 (concat_map_nil (observation_bad obs) OBSERVATION_FIELDS)).
  - intros [Hf Hv Hk (l & ps & Hl & Hps & Hst) (h & Hh) (p & Hp) (sc & Hsc) (rows & Hr & Hrows)
      (obs & Hobs & Hok & Hall)].
    rewrite (proj2 (eq_str_spec b "format" FORMAT) Hf), Hv. cbn [negb].
    assert (same_keys (keys_of b) TOP_FIELDS = true) as ->.
    { apply same_keys_spec. intros k. by rewrite keys_of_spec. }
    rewrite Hl, Hps, (proj2 (states_invariants_spec ps) Hst), Hh, Hp, Hsc, Hr, Hobs.
    rewrite (proj2 (same_keys_spec _ _) Hok). cbn [negb is_str is_dict when app].
    rewrite (proj2 (shapes_bad_nil "ledger" 0 rows ROW_FIELDS) Hrows).
    f_equal. rewrite app_nil_l. apply concat_map_nil. intros f Hin. by apply observation_bad_nil, Hall.
Qed.

Lemma no_private_to_cloud_nil rows : no_private_to_cloud rows = [] ↔ private_stays_local rows.
Proof.
  unfold no_private_to_cloud, private_stays_local. split.
  - intros Hn r c t Hr Hh Hd Hc Hp Ht Hcl. apply map_eq_nil in Hn.
    assert (r ∈ select_where private_to_cloud rows) as Hin.
    { apply elem_of_select_where. split; [done|]. unfold private_to_cloud, at_hook.
      rewrite Hh, Hd, Hc, Ht. unfold opt_in. by rewrite !String.eqb_refl, (proj2 (str_in_elem _ _) Hp), (proj2 (str_in_elem _ _) Hcl). }
    rewrite Hn in Hin. by apply elem_of_nil in Hin.
  - intros H. destruct (select_where private_to_cloud rows) as [|r l] eqn:Hs; [done|exfalso].
    assert (r ∈ select_where private_to_cloud rows) as Hin by (rewrite Hs; by left).
    apply elem_of_select_where in Hin as [Hr Hp]. unfold private_to_cloud, at_hook in Hp.
    rewrite !andb_true_iff, !String.eqb_eq in Hp. destruct Hp as (((Hh & Hd) & Hc) & Ht).
    destruct (str_field r "classification") as [c|] eqn:Ec; [|done].
    destruct (str_field r "tier") as [t|] eqn:Et; [|done].
    by apply (H r c t Hr Hh Hd Ec (proj1 (str_in_elem _ _) Hc) Et), str_in_elem.
Qed.

Lemma moment_total x y : moment_lt x y = false → moment_lt y x = false → x = y.
Proof.
  destruct x as [[t i] d], y as [[t' i'] d']. unfold moment_lt.
  rewrite !orb_false_iff, !andb_false_iff, !orb_false_iff, !andb_false_iff, !Z.ltb_ge, !Z.eqb_neq.
  intros [H1 H2] [H3 H4]. assert (t' = t) as -> by lia.
  destruct H2 as [?|[H2 H2']]; [done|]. destruct H4 as [?|[H4 H4']]; [done|].
  assert (i' = i) as -> by lia. destruct H2' as [?|H2']; [done|]. destruct H4' as [?|H4']; [done|].
  f_equal. apply String.compare_eq_iff. unfold String.ltb in H2', H4'.
  rewrite String.compare_antisym in H4'. by destruct (String.compare d d').
Qed.

Lemma elem_of_sorted_strs s l : s ∈ sorted_strs l ↔ s ∈ l.
Proof.
  unfold sorted_strs. rewrite list_elem_of_fmap. setoid_rewrite sort_kv_perm.
  setoid_rewrite list_elem_of_fmap. split.
  - by intros ([? []] & -> & (k & [= ->] & Hk)).
  - intros Hs. exists (s, tt). split; [done|]. by exists s.
Qed.

Section approved.
Context (fromisoformat : string → option Z).

Lemma until_moment_elem t l x :
  x ∈ until_moment t l ↔ ∃ a m, a ∈ l ∧ ap_at a = Some m ∧ (m ≤ t)%Z ∧ x = (m, ap_id a, ap_decision a).
Proof.
  unfold until_moment. rewrite list_elem_of_omap. split.
  - intros (a & Ha & Hx). destruct (ap_at a) as [m|] eqn:Hm; [|done].
    destruct (m <=? t)%Z eqn:Hle; [|done]. injection Hx as <-. apply Z.leb_le in Hle. eauto 6.
  - intros (a & m & Ha & Hm & Hle%Z.leb_le & ->). exists a. by rewrite Hm, Hle.
Qed.

Lemma write_violation_nil rows w :
  write_violation fromisoformat rows w = [] ↔
  ((0 < number w "count")%Z → write_approved fromisoformat rows w).
Proof.
  unfold write_violation, write_approved. set (l := history _ _ _).
  destruct (Z.leb_spec (number w "count") 0); [split; [lia|done]|].
  destruct (existsb (λ a, String.eqb (ap_decision a) "allow") l) eqn:Hex; cbn [negb].
  2: { split; [done|]. intros (txt & t & a & m & _ & _ & _ & Ha & _ & _ & Hd & _); [done|].
       assert (existsb (λ a, String.eqb (ap_decision a) "allow") l = true); [|congruence].
       apply existsb_elem. exists a. by rewrite Hd. }
  unfold write_not_authorised. destruct (str_field w "at") as [txt|].
  2: { split; [done|]. by intros (txt & t & a & m & ? & _). }
  destruct (fromisoformat txt) as [t|] eqn:Ht.
  2: { split; [done|]. intros (txt' & t & a & m & [= <-] & ? & _); [done|congruence]. }
  destruct (existsb (λ a, bool_decide (ap_at a = None)) l) eqn:Hno.
  { split; [done|]. apply existsb_elem in Hno as (x & Hx & Hn%bool_decide_eq_true).
    intros (? & ? & ? & ? & _ & _ & Hall & _); [done|]. by destruct (Hall x Hx). }
  assert (∀ x, x ∈ l → ap_at x ≠ None) as Hall.
  { intros x Hx Hn. assert (existsb (λ a, bool_decide (ap_at a = None)) l = true); [|congruence].
    apply existsb_elem. exists x. by rewrite bool_decide_true. }
  pose proof (last_sort_moments (until_moment t l)) as Hlast.
  destruct (last (sort_moments (until_moment t l))) as [[[m i] d]|].
  2: { split; [done|]. intros (txt' & t' & a & m & [= <-] & Ht' & _ & Ha & Hm & Hle & _); [done|].
       assert (t' = t) as -> by congruence.
       assert ((m, ap_id a, ap_decision a) ∈ until_moment t l) as Hin by (apply until_moment_elem; eauto 6).
       rewrite Hlast in Hin. by apply elem_of_nil in Hin. }
  destruct Hlast as [Hin Hmax]. apply until_moment_elem in Hin as (a & m' & Ha & Hm & Hle & [= <- -> ->]).
  destruct (String.eqb_spec (ap_decision a) "allow") as [Hd|Hd].
  - split; [|done]. intros _ _. exists txt, t, a, m. split_and!; try done. intros x m' Hx Hm' Hle'.
    rewrite <- Hd. apply Hmax, until_moment_elem. eauto 6.
  - split; [done|]. intros (txt' & t' & a' & m' & [= <-] & Ht' & _ & Ha' & Hm' & Hle' & Hd' & Hmax'); [done|].
    assert (t' = t) as -> by congruence. exfalso.
    destruct (Hmax (m', ap_id a', ap_decision a')) as [He|He]; [apply until_moment_elem; eauto 6|..].
    { injection He as _ _ He. congruence. }
    destruct (Hmax' a m Ha Hm Hle) as [[= _ _ ?]|He']; [done|]. rewrite Hd' in He.
    apply Hd. pose proof (moment_total _ _ He He') as Heq. by injection Heq.
Qed.

Lemma mailbox_writes_nil rows writes :
  mailbox_writes_approved fromisoformat rows writes = [] ↔ writes_approved fromisoformat rows writes.
Proof.
  unfold mailbox_writes_approved, writes_approved. rewrite concat_map_nil.
  by setoid_rewrite write_violation_nil.
Qed.

End approved.

Lemma elem_of_sorted_set s l : s ∈ sorted_set l ↔ s ∈ l.
Proof. unfold sorted_set. by rewrite elem_of_sorted_strs, elem_of_remove_dups. Qed.

Lemma observed_pos calls s : (0 < observed calls s)%Z → s ∈ sessions_of calls.
Proof.
  unfold observed. intros Hp. destruct (decide (s ∈ sessions_of calls)) as [|Hn]; [done|].
  rewrite (proj2 (count_where_zero (String.eqb s) (sessions_of calls))) in Hp; [lia|].
  intros x Hx. apply String.eqb_neq. by intros ->.
Qed.

Lemma sessions_short calls :
  length (sessions_of calls) ≤ length calls ∧
  (length (sessions_of calls) = length calls ↔ ∀ c, c ∈ calls → str_field c "session_id" ≠ None).
Proof.
  unfold sessions_of. induction calls as [|c calls [IH1 IH2]]; [split; [done|split; [by intros _ ? ?%elem_of_nil|done]]|].
  cbn. destruct (str_field c "session_id") as [s|] eqn:Hc; cbn; (split; [lia|]); split.
  - intros [= Hl] c' [->|Hin]%elem_of_cons; [congruence|]. by apply (proj1 IH2 Hl).
  - intros H. f_equal. apply IH2. intros c' Hc'. apply H. by right.
  - lia.
  - intros H. destruct (H c); [by left|done].
Qed.

Lemma calls_and_answers_nil rows calls answers :
  every_call_and_answer_audited rows calls answers = [] ↔ calls_and_answers_audited rows calls answers.
Proof.
  unfold every_call_and_answer_audited, calls_and_answers_audited.
  rewrite !app_nil, !concat_map_nil, when_nil. setoid_rewrite elem_of_sorted_set.
  unfold call_violation, answer_violation. setoid_rewrite when_nil. setoid_rewrite Z.ltb_ge.
  destruct (sessions_short calls) as [Hle Hfull].
  assert ((∀ s, s ∈ sessions_of calls → (observed calls s ≤ audited rows (Some s))%Z) ↔
          ∀ s, (observed calls s ≤ audited rows (Some s))%Z) as ->.
  { split; [|auto]. intros H s. destruct (decide (0 < observed calls s)%Z) as [Hp|Hp].
    - by apply H, observed_pos.
    - unfold audited. lia. }
  assert ((negb (length calls - length (sessions_of calls) =? 0) && (audited rows None <? Z.of_nat (length calls))%Z = false) ↔
          ((∃ c, c ∈ calls ∧ str_field c "session_id" = None) → (Z.of_nat (length calls) ≤ audited rows None)%Z)) as ->.
  { rewrite andb_false_iff, negb_false_iff, Nat.eqb_eq, Z.ltb_ge. split.
    - intros [Hz|?] (c & Hc & Hn); [|done]. by destruct (proj1 Hfull ltac:(lia) c Hc).
    - intros H. destruct (decide (length (sessions_of calls) = length calls)) as [|Hne]; [left; lia|right].
      apply H. destruct (existsb (λ c, bool_decide (str_field c "session_id" = None)) calls) eqn:He.
      + apply existsb_elem in He as (c & Hc & Hn%bool_decide_eq_true). eauto.
      + destruct Hne. apply Hfull. intros c Hc Hn.
        assert (existsb (λ c, bool_decide (str_field c "session_id" = None)) calls = true); [|congruence].
        apply existsb_elem. exists c. by rewrite bool_decide_true. }
  setoid_rewrite negb_false_iff. setoid_rewrite existsb_elem.
  setoid_rewrite andb_true_iff. unfold at_hook. setoid_rewrite String.eqb_eq. setoid_rewrite bool_decide_eq_true.
  setoid_rewrite list_elem_of_fmap. naive_solver.
Qed.

(** *** What an export carries *)

(** The account a row names, as the export's digest reads it. *)
Definition account_of (r : DbRow) : option string :=
  if names_account r then
    match payload_of r !! "account" with
    | Some v => if truthy v then Some (str_val v) else None
    | None => None
    end
  else None.

Lemma account_ref_of ref r : account_ref ref r = ref <$> account_of r.
Proof.
  unfold account_ref, account_of. destruct (names_account r); [|done].
  destruct (payload_of r !! "account") as [v|]; [|done]. by destruct (truthy v).
Qed.

Lemma fits_intro sh d :
  map fst d = map fst sh → forallb (field_fits d) sh = true → fits sh (VDict d).
Proof.
  intros Hk Hf. exists d. split; [done|]. split; [intros k; by rewrite Hk|]. by apply forallb_elem.
Qed.

Lemma nullable_fits o : existsb (has_jtype (nullable o)) [JStr; JNone] = true.
Proof. by destruct o. Qed.

Lemma bundle_row_fits ref r : fits ROW_FIELDS (VDict (bundle_row ref r)).
Proof.
  apply fits_intro; [done|]. unfold ROW_FIELDS, field_fits. cbn [forallb bundle_row jget fst snd].
  cbn -[existsb nullable]. rewrite !nullable_fits. by destruct (row_step_id _).
Qed.

Section export.
Context (sha256 hmac : string → string) (s : AuditStore) (since until : option Z) (run_ids : list string)
  (o : Observations) (subject version : string) (now : Z).

Definition the_bundle : dict := export_bundle sha256 hmac s since until run_ids o subject version now.

Lemma bundle_keys k : is_Some (the_bundle !! k) ↔ k ∈ TOP_FIELDS.
Proof.
  unfold the_bundle, export_bundle. rewrite lookup_insert_is_Some', <- elem_of_dom.
  rewrite dom_list_to_map_L, elem_of_list_to_set. unfold TOP_FIELDS. simpl.
  rewrite !elem_of_cons. naive_solver.
Qed.

Lemma bundle_ledger :
  top the_bundle "ledger" =
  VList (map (λ r, VDict (bundle_row (pseudonym hmac) r)) (exported_rows s since until run_ids)).
Proof. reflexivity. Qed.

Lemma bundle_observations :
  top the_bundle "observations" =
  VDict (observations_json (pseudonym hmac)
           (add_observations o (ledger_writes (rows_in_scope s since until run_ids)))).
Proof. reflexivity. Qed.

Lemma bundle_well_formed : well_formed the_bundle.
Proof.
  split; try (by eexists); try done.
  - apply bundle_keys.
  - eexists _, _. split; [reflexivity|]. split; [reflexivity|].
    intros p. rewrite list_elem_of_In. setoid_rewrite list_elem_of_In. split.
    + intros [<-|[<-|[<-|[]]]]; eexists; (split; [|reflexivity]); unfold INVARIANTS; simpl; auto.
    + intros (inv & [<-|[<-|[<-|[]]]] & ->); simpl; auto.
  - rewrite bundle_ledger. eexists. split; [reflexivity|]. apply Forall_forall.
    intros v (r & -> & _)%list_elem_of_fmap. apply bundle_row_fits.
  - rewrite bundle_observations. eexists. split; [reflexivity|]. split; [done|].
    intros f. unfold OBSERVATION_FIELDS. rewrite !elem_of_cons, elem_of_nil.
    intros [->|[->|[->|[]]]]; eexists; (split; [reflexivity|]); apply Forall_forall;
      intros v (x & -> & _)%list_elem_of_fmap; apply fits_intro; try done;
      unfold field_fits; cbn -[existsb nullable]; by rewrite ?nullable_fits.
Qed.

Lemma bundle_intact : eq_str the_bundle "content_sha256" (content_sha256 sha256 the_bundle) = true.
Proof.
  apply eq_str_spec. unfold the_bundle, export_bundle. rewrite lookup_insert_eq.
  unfold content_sha256. by rewrite delete_insert_eq.
Qed.

Lemma bundle_rows :
  objects (top the_bundle "ledger") = map (bundle_row (pseudonym hmac)) (exported_rows s since until run_ids).
Proof.
  rewrite bundle_ledger. unfold objects. induction (exported_rows _ _ _ _) as [|r l IH]; [done|].
  cbn. by f_equal.
Qed.

Lemma bundle_writes :
  observations_of the_bundle "mailbox_writes" =
  map (λ w, [("account_ref", VStr (pseudonym hmac (mw_account w))); ("count", VInt (mw_count w)); ("at", nullable (mw_at w))])
    (o_mailbox_writes (add_observations o (ledger_writes (rows_in_scope s since until run_ids)))).
Proof.
  unfold observations_of. rewrite bundle_observations. cbn -[add_observations].
  induction (o_mailbox_writes _) as [|w l IH]; [done|]. cbn. by f_equal.
Qed.
End export.

Lemma elem_of_concat_map {A B} (f : A → list B) l y : y ∈ concat (map f l) ↔ ∃ x, x ∈ l ∧ y ∈ f x.
Proof.
  rewrite list_elem_of_In, in_concat. setoid_rewrite in_map_iff. split.
  - intros (? & (x & <- & Hx) & Hy). exists x. by rewrite !list_elem_of_In.
  - intros (x & Hx & Hy). exists (f x). rewrite !list_elem_of_In in *. eauto.
Qed.

Lemma elem_of_when p x v : v ∈ when p x → v = x.
Proof. destruct p; [by intros ->%list_elem_of_singleton|by intros ?%elem_of_nil]. Qed.

Lemma no_private_invariant rows v : v ∈ no_private_to_cloud rows → v_invariant v = NO_PRIVATE_TO_CLOUD.
Proof. unfold no_private_to_cloud. by intros (r & -> & _)%list_elem_of_fmap. Qed.

Lemma mailbox_invariant fi rows ws v :
  v ∈ mailbox_writes_approved fi rows ws → v_invariant v = MAILBOX_WRITE_APPROVED.
Proof.
  intros (w & _ & Hv)%elem_of_concat_map. unfold write_violation in Hv.
  repeat case_match; try (by apply elem_of_nil in Hv); by apply list_elem_of_singleton in Hv as ->.
Qed.

Lemma audited_invariant rows calls answers v :
  v ∈ every_call_and_answer_audited rows calls answers → v_invariant v = EVERY_CALL_AUDITED.
Proof.
  unfold every_call_and_answer_audited. rewrite !elem_of_app, !elem_of_concat_map.
  by intros [(x & _ & ->%elem_of_when)|[->%elem_of_when|(x & _ & ->%elem_of_when)]].
Qed.

(** *** The exported rows *)

Abbreviation ts_of r := (nr_ts (db_new r)).

Definition in_window (since until : option Z) (r : DbRow) : Prop :=
  nr_kind (db_new r) = None ∧ (∀ t, since = Some t → (t ≤ ts_of r)%Z) ∧
  (∀ t, until = Some t → (ts_of r ≤ t)%Z).

Lemma elem_of_query f s r : r ∈ query f None s ↔ r ∈ db_rows (db s) ∧ matches f r = true.
Proof. unfold query. by rewrite sort_by_perm, elem_of_select_where. Qed.

Lemma elem_of_in_order rows r : r ∈ in_order rows ↔ r ∈ rows.
Proof. unfold in_order. by rewrite !sort_by_perm. Qed.

Lemma matches_window since until r : matches (window None since until) r = true ↔ in_window since until r.
Proof.
  unfold matches, in_window, window. cbn [f_run_id f_decision f_severity f_plugin f_since f_until f_store_rows orb].
  rewrite !andb_true_r, !andb_true_iff, bool_decide_eq_true. split.
  - intros [[Hk Hs] Hu]. split; [done|].
    split; intros t ->; apply Z.leb_le; assumption.
  - intros (Hk & Hs & Hu). split; [split; [done|]|].
    + destruct since; [apply Z.leb_le; auto|done].
    + destruct until; [apply Z.leb_le; auto|done].
Qed.

Lemma elem_of_exported s since until r :
  NoDup (map db_id (db_rows (db s))) →
  r ∈ exported_rows s since until [] ↔
  r ∈ db_rows (db s) ∧ (in_window since until r ∨ hook_of r = MAILBOX_WRITES_HOOK ∧ in_window None until r).
Proof.
  intros Hnd. unfold exported_rows. rewrite elem_of_in_order, elem_of_app, elem_of_select_where.
  unfold rows_in_scope. rewrite !elem_of_query, !matches_window, andb_true_iff, negb_true_iff, String.eqb_eq.
  split; [tauto|]. intros [Hr [Hw|[Hh Hu]]]; [by left|].
  destruct (existsb (has_id (db_id r)) (query (window None since until) None s)) eqn:He; [|tauto].
  apply existsb_elem in He as (r' & Hr' & Hid%Z.eqb_eq). rewrite elem_of_query, matches_window in Hr'.
  destruct Hr' as [Hr' Hw]. assert (r' = r) as -> by (by apply (unique_key db_id (db_rows (db s)))).
  by left.
Qed.

(** A decision of the owner about an account's mailbox writes. *)
Definition decides (s : AuditStore) (a : string) (r : DbRow) : Prop :=
  r ∈ db_rows (db s) ∧ nr_kind (db_new r) = None ∧ hook_of r = MAILBOX_WRITES_HOOK ∧ account_of r = Some a.

Definition accounts (s : AuditStore) : list string := omap account_of (db_rows (db s)).

Lemma moment_ge t i d t' i' d' :
  (t', i', d') = (t, i, d) ∨ moment_lt (t, i, d) (t', i', d') = false →
  (t' < t)%Z ∨ t' = t ∧ (i' ≤ i)%Z.
Proof.
  intros [[= -> -> ->]|H]; [right; split; [done|lia]|]. unfold moment_lt in H.
  rewrite !orb_false_iff, !andb_false_iff, orb_false_iff, !Z.ltb_ge, Z.eqb_neq in H. lia.
Qed.

Section history.
Context (hmac : string → string) (fi : string → option Z) (s : AuditStore) (since until : option Z).
Context (Hids : NoDup (map db_id (db_rows (db s)))).
Context (Hhmac : ∀ a b, a ∈ accounts s → b ∈ accounts s → hmac a = hmac b → a = b).

Definition history_rows (a : string) : list Approval :=
  history fi (map (bundle_row (pseudonym hmac)) (exported_rows s since until [])) (pseudonym hmac a).

Lemma history_elem a x :
  a ∈ accounts s →
  x ∈ history_rows a ↔
  ∃ r, decides s a r ∧ in_window None until r ∧
       x = {| ap_at := fi (isoformat (ts_of r)); ap_id := db_id r; ap_decision := row_decision (nr_row (db_new r)) |}.
Proof using All.
  intros Ha. unfold history_rows, history. rewrite list_elem_of_fmap. split.
  - intros (y & -> & (Hy & Hb)%elem_of_select_where).
    apply list_elem_of_fmap in Hy as (r & -> & (Hr & Hw)%(elem_of_exported _ _ _ _ Hids)).
    apply andb_true_iff in Hb as [Hh%String.eqb_eq Hacc]. change (hook_of r = MAILBOX_WRITES_HOOK) in Hh.
    unfold str_field in Hacc. cbn -[account_ref] in Hacc. rewrite account_ref_of in Hacc.
    destruct (account_of r) as [b|] eqn:Hab; [|done]. cbn in Hacc.
    apply String.eqb_eq in Hacc. injection Hacc as Hacc. unfold in_window, decides in *.
    assert (b = a) as ->.
    { rewrite !string_nil_app in Hacc. apply Hhmac; [|done|done]. apply list_elem_of_omap. eauto. }
    exists r. split; [|split; [|reflexivity]].
    + destruct Hw as [(? & _)|(_ & ? & _)]; by split_and!.
    + destruct Hw as [(? & _ & ?)|(_ & ? & _ & ?)]; by split_and!.
  - intros (r & (Hr & Hk & Hh & Hab) & Hw & ->). exists (bundle_row (pseudonym hmac) r). split; [reflexivity|].
    apply elem_of_select_where. split.
    + apply list_elem_of_fmap. exists r. split; [done|]. apply (elem_of_exported _ _ _ _ Hids). auto.
    + apply andb_true_iff. split; [by apply String.eqb_eq|].
      unfold str_field. cbn -[account_ref]. rewrite account_ref_of, Hab. cbn. by rewrite String.eqb_refl.
Qed.
End history.

Lemma verify_nil sha256 fi b :
  verify_bundle sha256 fi b = Ok [] →
  private_stays_local (objects (top b "ledger")) ∧
  writes_approved fi (objects (top b "ledger")) (observations_of b "mailbox_writes").
Proof.
  unfold verify_bundle. destruct (structure b) as [[|v l]|e]; [|done..].
  intros [= H]. rewrite !app_nil, no_private_to_cloud_nil, mailbox_writes_nil in H. tauto.
Qed.

(** ** Properties *)

(** Verification passes exactly the bundles of the structure the verifier checks, which is
    wider than the schema's ([wider_than_the_schema] below), whose hash is that of their content
    and whose rows and observations satisfy the three invariants. *)
Theorem verify_bundle_exact sha256 fromisoformat b :
  verify_bundle sha256 fromisoformat b = Ok [] ↔
  well_formed b ∧
  b !! "content_sha256" = Some (VStr (content_sha256 sha256 b)) ∧
  private_stays_local (objects (top b "ledger")) ∧
  writes_approved fromisoformat (objects (top b "ledger")) (observations_of b "mailbox_writes") ∧
  calls_and_answers_audited (objects (top b "ledger")) (observations_of b "model_calls")
    (observations_of b "answers").
Proof.
  rewrite <- structure_nil, <- no_private_to_cloud_nil, <- mailbox_writes_nil, <- calls_and_answers_nil,
    <- eq_str_spec.
  unfold verify_bundle. destruct (structure b) as [[|v l]|e]; [|split; [done|by intros [? _]]..].
  split.
  - intros [= H]. rewrite !app_nil, when_nil, negb_false_iff in H. tauto.
  - intros (_ & -> & -> & -> & ->). done.
Qed.

(**  Whatever the ledger holds and whatever was observed, an export has the structure and
    the hash verification asks for: only the three invariants can fail it. *)
Theorem export_only_fails_invariants sha256 hmac fromisoformat s since until run_ids o subject version now :
  ∃ vs, verify_bundle sha256 fromisoformat
          (export_bundle sha256 hmac s since until run_ids o subject version now) = Ok vs ∧
    ∀ v, v ∈ vs → v_invariant v ∈ map fst INVARIANTS.
Proof.
  set (b := export_bundle _ _ _ _ _ _ _ _ _ _). unfold verify_bundle.
  rewrite (proj2 (structure_nil b)) by apply bundle_well_formed.
  unfold b at 1. rewrite bundle_intact. eexists. split; [reflexivity|]. intros v.
  rewrite !elem_of_app. intros [[]%elem_of_nil|[Hv|[Hv|Hv]]].
  - rewrite (no_private_invariant _ _ Hv). by left.
  - rewrite (mailbox_invariant _ _ _ _ Hv). right. by left.
  - rewrite (audited_invariant _ _ _ _ Hv). right. right. by left.
Qed.

(** C37. A verified export of a window vouches for the ledger itself: no row of the window let
    private data go to a cloud tier, and every mailbox write in it was made after the owner's
    approval of that account, of whose decisions up to the write the latest is the approval. *)
Theorem verified_export_sound sha256 hmac fromisoformat s since until o subject version now :
  NoDup (map db_id (db_rows (db s))) →
  (∀ r, r ∈ db_rows (db s) → fromisoformat (isoformat (ts_of r)) = Some (ts_of r)) →
  (∀ a b, a ∈ accounts s → b ∈ accounts s → hmac a = hmac b → a = b) →
  verify_bundle sha256 fromisoformat
    (export_bundle sha256 hmac s since until [] o subject version now) = Ok [] →
  (∀ r c, r ∈ db_rows (db s) → in_window since until r → hook_of r = LLM_CALL_HOOK →
     row_decision (nr_row (db_new r)) = "allow" →
     row_classification (nr_row (db_new r)) = Some c → class_str c ∈ PRIVATE →
     row_tier (nr_row (db_new r)) ≠ Some tier_3) ∧
  (∀ w a, w ∈ db_rows (db s) → in_window since until w → hook_of w = MAILBOX_WRITE_PERFORMED_HOOK →
     get_nonempty (payload_of w) "account" = Some a →
     (0 < default 1 (int_value (payload_of w) "count"))%Z →
     ∃ r, decides s a r ∧ row_decision (nr_row (db_new r)) = "allow" ∧ (ts_of r ≤ ts_of w)%Z ∧
       ∀ r', decides s a r' → (ts_of r' ≤ ts_of w)%Z →
         (ts_of r' < ts_of r)%Z ∨ ts_of r' = ts_of r ∧ (db_id r' ≤ db_id r)%Z).
Proof.
  intros Hids Hiso Hhmac Hv. apply verify_nil in Hv as (Hlocal & Hwrites).
  fold (the_bundle sha256 hmac s since until [] o subject version now) in Hlocal, Hwrites.
  rewrite bundle_rows in Hlocal, Hwrites. rewrite bundle_writes in Hwrites. split.
  - intros r c Hr Hw Hh Hd Hc Hp Ht.
    refine (Hlocal (bundle_row (pseudonym hmac) r) (class_str c) "tier_3" _ Hh Hd _ Hp _ _); [|..].
    + apply list_elem_of_fmap. exists r. split; [done|]. apply elem_of_exported; auto.
    + unfold str_field. cbn -[account_ref]. by rewrite Hc.
    + unfold str_field. cbn -[account_ref]. by rewrite Ht.
    + by left.
  - intros w a Hw Hin Hh Ha Hn.
    assert (account_of w = Some a) as Hacc.
    { unfold account_of, names_account. rewrite Hh. apply get_nonempty_Some in Ha as [-> Ht]. cbn. by rewrite Ht. }
    assert (a ∈ accounts s) as Haa by (apply list_elem_of_omap; eauto).
    destruct (Hwrites [("account_ref", VStr (pseudonym hmac a));
                       ("count", VInt (default 1%Z (int_value (payload_of w) "count")));
                       ("at", VStr (isoformat (ts_of w)))])
      as (txt & t & x & m & [= <-] & Ht & _ & Hx & Hm & Hle & Hd & Hmax); [|exact Hn|].
    { apply list_elem_of_fmap.
      exists {| mw_account := a; mw_count := default 1%Z (int_value (payload_of w) "count");
                mw_at := Some (isoformat (ts_of w)) |}.
      split; [done|]. cbn. apply elem_of_app. right. apply list_elem_of_omap. exists w.
      split; [apply elem_of_in_order, elem_of_query; by rewrite matches_window|].
      unfold ledger_write. by rewrite Hh, Ha. }
    rewrite (Hiso w Hw) in Ht. injection Ht as <-.
    change (x ∈ history_rows hmac fromisoformat s since until a) in Hx.
    pose proof (history_elem hmac fromisoformat s since until Hids Hhmac a) as Hel.
    apply (Hel _ Haa) in Hx as (r & Hr & Hrw & ->). cbn in Hm, Hd, Hmax.
    rewrite (Hiso r (proj1 Hr)) in Hm. injection Hm as <-.
    exists r. split_and!; try done. intros r' Hr' Hle'. apply (moment_ge (ts_of r) (db_id r) "allow" _ _ (row_decision (nr_row (db_new r')))).
    apply (Hmax {| ap_at := fromisoformat (isoformat (ts_of r')); ap_id := db_id r';
                   ap_decision := row_decision (nr_row (db_new r')) |}); [|by apply Hiso, Hr'|done].
    apply (Hel _ Haa). exists r'. split; [done|]. split; [|done].
    destruct Hr' as (_ & Hk & _). split; [done|]. split; [done|].
    destruct Hin as (_ & _ & Hu). intros t Htu. specialize (Hu t Htu). lia.
Qed.

(** ** A concrete ledger *)

Definition mailbox_row (hook : string) (p : dict) : AuditRow :=
  {| row_run_id := "r1"; row_step_id := None; row_agent_type := "email"; row_hook_point := hook;
     row_plugin := "email"; row_decision := "allow"; row_severity := "info"; row_reason := "";
     row_classification := None; row_tier := None; row_payload := p |}.

Definition mailbox_call (tag : ascii) (now : Z) : Call :=
  {| c_now := now; c_ulid := ulids tag; c_process := ∅; c_db := NoFault; c_spool := None; c_drain := Drains |}.

(** An approval at 1000 and two changes to the account at 2000. *)
Definition mailbox_store : AuditStore :=
  run_state (record (mailbox_call "v" 2000) None
    (mailbox_row MAILBOX_WRITE_PERFORMED_HOOK (<["account" := VStr "me"]> {["count" := VInt 2]})))
  (run_state (record (mailbox_call "u" 1000) None (mailbox_row MAILBOX_WRITES_HOOK {["account" := VStr "me"]}))
    (new_store "w1")).

Definition reads_back (txt : string) : option Z :=
  if String.eqb txt (isoformat 1000) then Some 1000%Z
  else if String.eqb txt (isoformat 2000) then Some 2000%Z else None.

Definition mailbox_bundle : dict :=
  export_bundle id id mailbox_store (Some 1500%Z) None [] no_observations "owner" "1" 3000.

(** A revoke between the two makes the same bundle fail. *)
Example revoked_write_fails :
  write_violation reads_back
    [[("id", VInt 1); ("ts", VStr (isoformat 1000)); ("hook_point", VStr "mailbox_writes");
      ("decision", VStr "allow"); ("account_ref", VStr "acct-me")];
     [("id", VInt 2); ("ts", VStr (isoformat 2000)); ("hook_point", VStr "mailbox_writes");
      ("decision", VStr "deny"); ("account_ref", VStr "acct-me")]]
    [("account_ref", VStr "acct-me"); ("count", VInt 1); ("at", VStr (isoformat 2000))] =
  [{| v_invariant := MAILBOX_WRITE_APPROVED;
      v_detail := "write(s) to acct-me at 1970-01-01T00:00:00.002000+00:00 came after its approval was revoked" |}].
Proof. vm_compute. reflexivity. Qed.

(** A hook before the egress gate leaves an [allow] row of its own for the call the gate then
    denies; the invariant reads that row as the call going out. *)
Example denied_call_reported :
  let row plugin decision :=
    [("id", VInt 7); ("hook_point", VStr "pre_llm_call"); ("plugin", VStr plugin);
     ("decision", VStr decision); ("classification", VStr "secret"); ("tier", VStr "tier_3")] in
  map v_detail (no_private_to_cloud [row "redaction_filter" "allow"; row "egress_gate" "deny"]) =
  ["ledger row 7: a secret model call was allowed to tier_3"].
Proof. vm_compute. reflexivity. Qed.

(** The schema closes the producer and types the subject; the verifier reads neither. *)
Definition rehashed (b : dict) : dict := <["content_sha256" := VStr (content_sha256 id b)]> b.
Example wider_than_the_schema :
  verify_bundle id reads_back
    (rehashed (<["producer" := VDict [("anything", VNone)]]> (<["subject" := VInt 3]> mailbox_bundle))) = Ok [].
Proof. vm_compute. reflexivity. Qed.

(** A statement whose id is a list makes the verification raise. *)
Example unhashable_statement_raises :
  verify_bundle id reads_back
    (<["invariants" := VList [VDict [("id", VList []); ("statement", VStr "")]]]> mailbox_bundle) =
  Raise (Exn "TypeError" "unhashable type: 'list'").
Proof. vm_compute. reflexivity. Qed.

Definition written_as_expected (w : DbRow) : bool :=
  if String.eqb (hook_of w) MAILBOX_WRITE_PERFORMED_HOOK then
    bool_decide (nr_kind (db_new w) = None) && bool_decide (ts_of w = 2000%Z) &&
    bool_decide (get_nonempty (payload_of w) "account" = Some "me") &&
    bool_decide (0 < default 1 (int_value (payload_of w) "count"))%Z
  else true.

Lemma mailbox_ids : NoDup (map db_id (db_rows (db mailbox_store))).
Proof.
  assert (map db_id (db_rows (db mailbox_store)) = [1%Z; 2%Z; 3%Z]) as Hi by (vm_compute; reflexivity).
  rewrite Hi. repeat (constructor; [rewrite ?elem_of_cons, elem_of_nil; lia|]). constructor.
Qed.

Lemma mailbox_reads_back r :
  r ∈ db_rows (db mailbox_store) → reads_back (isoformat (ts_of r)) = Some (ts_of r).
Proof.
  intros Hr. assert (forallb (λ r, bool_decide (reads_back (isoformat (ts_of r)) = Some (ts_of r)))
    (db_rows (db mailbox_store)) = true) as Hall by (vm_compute; reflexivity).
  rewrite forallb_elem in Hall. exact (bool_decide_eq_true_1 _ (Hall r Hr)).
Qed.

Lemma verified_export_sound_witness :
  ∃ r, decides mailbox_store "me" r ∧ row_decision (nr_row (db_new r)) = "allow" ∧ (ts_of r ≤ 2000)%Z.
Proof.
  assert (verify_bundle id reads_back mailbox_bundle = Ok []) as Hv by (vm_compute; reflexivity).
  destruct (List.find (λ r, String.eqb (hook_of r) MAILBOX_WRITE_PERFORMED_HOOK) (db_rows (db mailbox_store)))
    as [w|] eqn:Hf; [|vm_compute in Hf; discriminate].
  apply find_some in Hf as [Hw%list_elem_of_In Hh%String.eqb_eq].
  assert (forallb written_as_expected (db_rows (db mailbox_store)) = true) as Hall by (vm_compute; reflexivity).
  rewrite forallb_elem in Hall. specialize (Hall w Hw). unfold written_as_expected in Hall.
  rewrite Hh, String.eqb_refl, !andb_true_iff, !bool_decide_eq_true in Hall.
  destruct Hall as (((Hk & Ht) & Ha) & Hn).
  destruct (verified_export_sound id id reads_back mailbox_store (Some 1500%Z) None no_observations "owner" "1" 3000)
    as [_ H]; [| | |exact Hv|].
  - exact mailbox_ids.
  - exact mailbox_reads_back.
  - by intros a b.
  - assert (in_window (Some 1500%Z) None w) as Hin.
    { split; [exact Hk|]. split; [intros t [= <-]; rewrite Ht; lia|discriminate]. }
    pose proof (H w "me" Hw Hin Hh Ha Hn) as (r & Hr & Hd & Hle & _).
    rewrite Ht in Hle. exists r. exact (conj Hr (conj Hd Hle)).
Defined.
