(* ===== verification/ModelRouting.v ===== *)
(** * Model routing ([llm/tier_router.py], [llm/locality.py], [llm/arbiter.py])

    Which tier an intent runs on, which provider the call then dials, and the label the
    egress gate governs it by; the resource governor that may move it to a smaller local
    tier.  The YAML file is its parsed document.  A float is its [repr]; the conversions
    to and from one and the environment are arguments.  The names, models and tags of the
    file are texts. *)

From S2P Require Import Prelude PyVal PyText Hooks Egress.
From stdpp Require Import options.

(** ** Numbers *)

(** What the code asks of floating point: [float(v)] for a [v] that is not one, [int(x)] of
    one, whether one lies between 0 and 2, and whether one is a whole number. *)
Record Floats := {
  float_of_other : pyval → option string;
  float_trunc : string → option Z;
  float_in_range : string → bool;
  float_integral : string → bool;
}.

Definition float_of (fl : Floats) (v : pyval) : option string :=
  match v with VFloat r => Some r | _ => float_of_other fl v end.

(** The digits of an [int] literal, single underscores between them. *)
Fixpoint digits_from (acc : Z) (after_digit : bool) (s : string) : option Z :=
  match s with
  | EmptyString => if after_digit then Some acc else None
  | String c s' =>
      match digit_val c with
      | Some d => digits_from (10 * acc + d) true s'
      | None => if Ascii.eqb c "_" && after_digit then digits_from acc false s' else None
      end
  end.

(** [int(s)] of a text; [None] raises [ValueError]. *)
Definition py_int (s : string) : option Z :=
  match str_strip s with
  | String c s' =>
      if Ascii.eqb c "-" then Z.opp <$> digits_from 0 false s'
      else if Ascii.eqb c "+" then digits_from 0 false s'
      else digits_from 0 false (String c s')
  | EmptyString => None
  end.

(** [int(v)] *)
Definition int_of (fl : Floats) (v : pyval) : res Z :=
  match v with
  | VInt z => Ok z
  | VBool b => Ok (if b then 1 else 0)%Z
  | VFloat r => match float_trunc fl r with Some z => Ok z | None => Raise (Exn "ValueError" "cannot convert float") end
  | VStr s => match py_int s with Some z => Ok z | None => Raise (Exn "ValueError" "invalid literal for int()") end
  | _ => Raise (Exn "TypeError" "int() argument must be a string or a number")
  end.

(** ** Where a provider runs *)

Inductive Locality := local | cloud.

#[export] Instance Locality_eq_dec : EqDecision Locality.
Proof. solve_decision. Defined.

Definition provider_key (s : string) : string := str_lower (str_strip s).

(** The [runs] of one entry of the [providers:] block. *)
Definition runs_of_entry (entry : pyval) : option Locality :=
  match entry with
  | VDict d =>
      match list_to_map (M := dict) d !! "runs" with
      | Some (VStr s) =>
          if String.eqb (provider_key s) "local" then Some local
          else if String.eqb (provider_key s) "cloud" then Some cloud else None
      | _ => None
      end
  | _ => None
  end.

(** [parse_provider_localities]: a later entry of the same provider wins. *)
Definition parse_provider_localities (raw : pyval) : gmap string Locality :=
  match raw with
  | VDict entries =>
      fold_left (λ acc kv, match runs_of_entry kv.2 with
                           | Some l => <[provider_key kv.1 := l]> acc
                           | None => acc
                           end) entries ∅
  | _ => ∅
  end.

(** [provider_locality]: an undeclared provider is in the cloud. *)
Definition provider_locality (declared : gmap string Locality) (provider : string) : Locality :=
  default cloud (declared !! provider_key provider).

(** ** Tiers *)

Record TierConfig := {
  tc_name : string;
  provider : string;
  model : string;
  max_tokens : Z;
  temperature : string;
  timeout_seconds : Z;
  use_for : list string;
  num_ctx : option Z;
  keep_alive : option pyval;
  num_thread : option Z;
  think : option bool;
  pinned : bool;
}.

Definition fixed_base_urls : list (string * string) :=
  [("fake", "fake://scripted"); ("anthropic", "https://api.anthropic.com/v1");
   ("openrouter", "https://openrouter.ai/api/v1"); ("github", "https://models.inference.ai.azure.com");
   ("copilot", "https://api.githubcopilot.com")].

Definition local_providers : list string := ["ollama"; "lmstudio"].

(** [_known_providers], sorted. *)
Definition known_providers : list string :=
  ["anthropic"; "copilot"; "fake"; "github"; "lmstudio"; "ollama"; "openrouter"].

(** [s.rstrip("/")] *)
Fixpoint lstrip_slash (s : string) : string :=
  match s with
  | String c s' => if Ascii.eqb c "/" then lstrip_slash s' else s
  | EmptyString => EmptyString
  end.
Definition rstrip_slash (s : string) : string := String.rev (lstrip_slash (String.rev s)).

(** [_ollama_base_url], [_lmstudio_base_url] *)
Definition env_base_url (env : string → option string) (var fallback : string) : string :=
  let raw := rstrip_slash (default fallback (env var)) in
  if endswith "/v1" raw then raw else raw +:+ "/v1".

Definition unknown_provider (who provider : string) : exn :=
  Exn "ConfigurationError" (who +:+ py_repr provider +:+ "; expected one of: " +:+ join ", " known_providers).

(** [_provider_base_url] *)
Definition provider_base_url (env : string → option string) (p : string) : res string :=
  if String.eqb p "ollama" then Ok (env_base_url env "OLLAMA_BASE_URL" "http://localhost:11434")
  else if String.eqb p "lmstudio" then Ok (env_base_url env "LM_STUDIO_BASE_URL" "http://localhost:1234")
  else match List.find (λ kv, String.eqb kv.1 p) fixed_base_urls with
       | Some kv => Ok kv.2
       | None => Raise (unknown_provider "unknown model provider " p)
       end.

Definition api_key_env (p : string) : option string :=
  if String.eqb p "lmstudio" then Some "LM_STUDIO_API_KEY"
  else if String.eqb p "anthropic" then Some "ANTHROPIC_API_KEY"
  else if String.eqb p "openrouter" then Some "OPENROUTER_API_KEY"
  else if String.eqb p "github" then Some "GITHUB_TOKEN" else None.

(** ** The router *)

Record TierRouter := {
  tiers : gmap string TierConfig;
  intent_to_tier : gmap string string;
  intent_tier_priors : gmap string string;
  declared_tiers : gmap string TierConfig;
  declared_intents : gmap string string;
  declared_localities : gmap string Locality;
}.

Definition empty_router : TierRouter :=
  {| tiers := ∅; intent_to_tier := ∅; intent_tier_priors := ∅; declared_tiers := ∅;
     declared_intents := ∅; declared_localities := ∅ |}.

Definition with_tiers (t : gmap string TierConfig) (r : TierRouter) : TierRouter :=
  {| tiers := t; intent_to_tier := intent_to_tier r; intent_tier_priors := intent_tier_priors r;
     declared_tiers := declared_tiers r; declared_intents := declared_intents r;
     declared_localities := declared_localities r |}.
Definition with_intents (i : gmap string string) (r : TierRouter) : TierRouter :=
  {| tiers := tiers r; intent_to_tier := i; intent_tier_priors := intent_tier_priors r;
     declared_tiers := declared_tiers r; declared_intents := declared_intents r;
     declared_localities := declared_localities r |}.

(** *** Loading the file *)

Definition no_attribute : exn := Exn "AttributeError" "object has no attribute 'get'".

(** [cfg.get(key)] as an [int], when it is not [None]. *)
Definition opt_int (fl : Floats) (cfg : dict) (key : string) : res (option Z) :=
  match cfg !! key with
  | None | Some VNone => Ok None
  | Some v => match int_of fl v with Ok z => Ok (Some z) | Raise e => Raise e end
  end.

(** [tuple(cfg.get("use_for") or [])] *)
Definition tags_of (v : pyval) : res (list string) :=
  if negb (truthy v) then Ok []
  else match v with
       | VList l => Ok (omap (λ x, match x with VStr s => Some s | _ => None end) l)
       | VStr s => Ok (map (λ c, String c EmptyString) (String.list_ascii_of_string s))
       | VDict d => Ok (map fst d)
       | _ => Raise (Exn "TypeError" "object is not iterable")
       end.

Definition get_default (cfg : dict) (key fallback : string) : string :=
  default fallback (get_str cfg key).

(** One tier of [load_from_yaml]. *)
Definition load_tier (fl : Floats) (tier_name : string) (entry : pyval) : res TierConfig :=
  match entry with
  | VDict fields =>
      let cfg := list_to_map (M := dict) fields in
      let number key fallback := int_of fl (default (VInt fallback) (cfg !! key)) in
      let! tags := tags_of (default VNone (cfg !! "use_for")) in
      let! mt := number "max_tokens" 2048%Z in
      let! temp := match float_of fl (default (VFloat "0.5") (cfg !! "temperature")) with
                   | Some t => Ok t
                   | None => Raise (Exn "ValueError" "could not convert to float")
                   end in
      let! timeout := number "timeout_seconds" 30%Z in
      let! ctx := opt_int fl cfg "num_ctx" in
      let! thread := opt_int fl cfg "num_thread" in
      let! prov := match cfg !! "provider" with
                   | None => Ok "ollama"
                   | Some (VStr p) => Ok p
                   | Some v => Raise (Exn "ConfigurationError"
                       ("tier " +:+ py_repr tier_name +:+ " names unknown model provider " +:+ repr_val v +:+
                        "; expected one of: " +:+ join ", " known_providers))
                   end in
      let tier :=
        {| tc_name := get_default cfg "name" tier_name; provider := prov;
           model := get_default cfg "model" "llama3.2:3b"; max_tokens := mt; temperature := temp;
           timeout_seconds := timeout; use_for := tags; num_ctx := ctx;
           keep_alive := cfg !! "keep_alive"; num_thread := thread;
           think := match cfg !! "think" with Some (VBool b) => Some b | _ => None end;
           pinned := truthy (default (VBool false) (cfg !! "pinned")) |} in
      if str_in (provider tier) known_providers then Ok tier
      else Raise (unknown_provider ("tier " +:+ py_repr tier_name +:+ " names unknown model provider ")
                    (provider tier))
  | _ => Raise no_attribute
  end.

(** [setdefault] of each tag of a tier. *)
Definition add_tags (tier_name : string) (tags : list string) (m : gmap string string) : gmap string string :=
  fold_left (λ m t, match m !! t with Some _ => m | None => <[t := tier_name]> m end) tags m.

(** The tiers in the file's order: the ones before a tier that raises are kept. *)
Fixpoint load_tiers (fl : Floats) (l : list (string * pyval)) (r : TierRouter) : option exn * TierRouter :=
  match l with
  | [] => (None, r)
  | (tier_name, cfg) :: l' =>
      match load_tier fl tier_name cfg with
      | Raise e => (Some e, r)
      | Ok t => load_tiers fl l'
                  (with_intents (add_tags tier_name (use_for t) (intent_to_tier r))
                     (with_tiers (<[tier_name := t]> (tiers r)) r))
      end
  end.

(** The body of [load_from_yaml] before the owner's edits; only a [ConfigurationError]
    leaves it. *)
Definition load_file (fl : Floats) (file : res pyval) : res TierRouter :=
  let raw := match file with Ok v => if truthy v then Ok v else Ok (VDict []) | Raise e => Raise e end in
  let '(failed, r) :=
    match raw with
    | Ok (VDict d) =>
        let doc := list_to_map (M := dict) d in
        let located :=
          {| tiers := ∅; intent_to_tier := ∅; intent_tier_priors := ∅; declared_tiers := ∅;
             declared_intents := ∅;
             declared_localities := parse_provider_localities (default VNone (doc !! "providers")) |} in
        match default (VDict []) (doc !! "tiers") with
        | VDict l => load_tiers fl l located
        | _ => (Some no_attribute, located)
        end
    | Ok _ => (Some no_attribute, empty_router)
    | Raise e => (Some e, empty_router)
    end in
  match failed with
  | Some e =>
      if String.eqb (exn_class e) "ConfigurationError" then Raise e
      else Ok {| tiers := tiers r; intent_to_tier := intent_to_tier r;
                 intent_tier_priors := intent_tier_priors r; declared_tiers := tiers r;
                 declared_intents := intent_to_tier r; declared_localities := declared_localities r |}
  | None =>
      Ok {| tiers := tiers r; intent_to_tier := intent_to_tier r;
            intent_tier_priors := intent_tier_priors r; declared_tiers := tiers r;
            declared_intents := intent_to_tier r; declared_localities := declared_localities r |}
  end.

(** [provider_localities]: this file's declarations, else the config dir's ([shipped]). *)
Definition provider_localities (shipped : gmap string Locality) (r : TierRouter) : gmap string Locality :=
  if bool_decide (declared_localities r = ∅) then shipped else declared_localities r.

Definition set_provider (p : string) (t : TierConfig) : TierConfig :=
  {| tc_name := tc_name t; provider := p; model := model t; max_tokens := max_tokens t;
     temperature := temperature t; timeout_seconds := timeout_seconds t; use_for := use_for t;
     num_ctx := num_ctx t; keep_alive := keep_alive t; num_thread := num_thread t;
     think := think t; pinned := pinned t |}.

(** [_force_provider] *)
Definition force_provider (shipped : gmap string Locality) (raw : string) (r : TierRouter) : res TierRouter :=
  let p := provider_key raw in
  if negb (str_truthy p) then Ok r
  else if negb (str_in p known_providers) then
    Raise (Exn "ConfigurationError"
             ("EVARNESS_LLM_PROVIDER=" +:+ py_repr raw +:+ " is not a known model provider; expected one of: " +:+
              join ", " known_providers))
  else match provider_localities shipped r !! p with
       | None => Ok r
       | Some _ => Ok (with_tiers (set_provider p <$> tiers r) r)
       end.

(** *** Resolving an intent *)

(** [_resolve_tier_name] *)
Definition resolve_tier_name (r : TierRouter) (intent : string) : string :=
  let static := intent_to_tier r !! intent in
  match static with
  | Some n =>
      match tiers r !! n with
      | Some t =>
          if pinned t then n
          else match intent_tier_priors r !! intent with
               | Some p => if bool_decide (is_Some (tiers r !! p)) then p else n
               | None => n
               end
      | None =>
          match intent_tier_priors r !! intent with
          | Some p => if bool_decide (is_Some (tiers r !! p)) then p else n
          | None => n
          end
      end
  | None =>
      match intent_tier_priors r !! intent with
      | Some p => if bool_decide (is_Some (tiers r !! p)) then p else "fallback"
      | None => "fallback"
      end
  end.

(** [set_intent_tier_priors]: only known tiers are kept. *)
Definition set_intent_tier_priors (priors : gmap string string) (r : TierRouter) : TierRouter :=
  {| tiers := tiers r; intent_to_tier := intent_to_tier r;
     intent_tier_priors := filter (λ it, is_Some (tiers r !! it.2)) priors;
     declared_tiers := declared_tiers r; declared_intents := declared_intents r;
     declared_localities := declared_localities r |}.

Definition inline_fallback : TierConfig :=
  {| tc_name := "Fallback"; provider := "ollama"; model := "llama3.2:3b"; max_tokens := 2048;
     temperature := "0.5"; timeout_seconds := 30; use_for := []; num_ctx := None;
     keep_alive := None; num_thread := None; think := None; pinned := false |}.

(** [_tier_or_fallback] *)
Definition tier_or_fallback (r : TierRouter) (n : string) : TierConfig :=
  match tiers r !! n with
  | Some t => t
  | None => default inline_fallback (tiers r !! "fallback")
  end.

Definition get_tier (r : TierRouter) (intent : string) : TierConfig :=
  tier_or_fallback r (resolve_tier_name r intent).

(** ** Governance's label *)

Definition small_local_keys : list string := ["tier1"; "tier_1"; "router"; "code_exec"; "fallback"].
Definition large_local_keys : list string := ["tier2"; "tier_2"; "tier3"; "tier_3"; "gemma"].

(** [governance_tier_for] *)
Definition governance_tier_for (key : string) (t : TierConfig) (localities : gmap string Locality) : LLMTier :=
  match provider_locality localities (provider t) with
  | cloud => tier_3
  | local =>
      let k := provider_key key in
      if str_in k small_local_keys then tier_1
      else if str_in k large_local_keys then tier_2
      else if str_contains "advanced" (str_lower (tc_name t)) then tier_2
      else tier_1
  end.

(** [governance_tier_for_tier] *)
Definition governance_tier_for_tier (shipped : gmap string Locality) (r : TierRouter) (n : string) : LLMTier :=
  let key := if bool_decide (is_Some (tiers r !! n)) then n else "fallback" in
  governance_tier_for key (tier_or_fallback r key) (provider_localities shipped r).

(** [governance_tier_for_intent], of a [TierRouter]. *)
Definition governance_tier_for_intent (shipped : gmap string Locality) (r : TierRouter) (intent : string) : LLMTier :=
  governance_tier_for_tier shipped r (resolve_tier_name r intent).

(** [model_tier_for] and [tool_strategy_for_model]; [meta] is what the metadata registry
    answers for the model. *)
Record ModelMetadata := { reasoning : bool; tool_calling : bool; context_window : Z }.
Inductive ModelTier := SMALL | MID | LARGE.
Inductive ToolStrategy := NATIVE | NATIVE_WITH_FALLBACK | REACT.

Definition is_local_provider (p : string) : bool := str_in p local_providers.

Definition model_tier_for (meta : option ModelMetadata) (p : string) : ModelTier :=
  match meta with
  | None => if is_local_provider p then SMALL else MID
  | Some m =>
      if is_local_provider p && negb (reasoning m) then SMALL
      else if reasoning m && tool_calling m && (100000 <=? context_window m)%Z then LARGE
      else MID
  end.

Definition tool_strategy_for_model (meta : option ModelMetadata) (p : string) : ToolStrategy :=
  if negb (is_local_provider p) then NATIVE
  else match meta with
       | Some m => if tool_calling m then NATIVE_WITH_FALLBACK else REACT
       | None => REACT
       end.

(** ** The resource governor *)

Inductive Mode := ACTIVE | IDLE | THERMAL.

#[export] Instance Mode_eq_dec : EqDecision Mode.
Proof. solve_decision. Defined.

Definition THERMAL_ENTER_POLLS : Z := 3.
Definition THERMAL_EXIT_POLLS : Z := 5.

(** A sample: free memory in bytes (the threshold is 4 GB), and the thermal throttle. *)
Record PressureSnapshot := { ram_free_bytes : Z; thermal_throttled : bool }.

Definition RAM_FREE_THRESHOLD : Z := 4 * 1024 ^ 3.

Record ResourceGovernor := {
  adaptive : bool;
  pin : option Mode;
  gov_mode : Mode;
  consecutive_pressure : Z;
  consecutive_clear : Z;
}.

Definition new_governor (adaptive_ : bool) : ResourceGovernor :=
  {| adaptive := adaptive_; pin := None; gov_mode := ACTIVE; consecutive_pressure := 0; consecutive_clear := 0 |}.

Definition set_pin (m : option Mode) (g : ResourceGovernor) : ResourceGovernor :=
  {| adaptive := adaptive g; pin := m; gov_mode := gov_mode g;
     consecutive_pressure := consecutive_pressure g; consecutive_clear := consecutive_clear g |}.

(** [mode] *)
Definition mode (g : ResourceGovernor) : Mode := default (gov_mode g) (pin g).

Definition under_pressure (s : PressureSnapshot) : bool :=
  thermal_throttled s || (ram_free_bytes s <? RAM_FREE_THRESHOLD)%Z.

(** [_update_mode], which [poll] calls on its sample. *)
Definition governor_poll (s : PressureSnapshot) (g : ResourceGovernor) : ResourceGovernor :=
  match pin g with
  | Some _ => g
  | None =>
      if under_pressure s then
        let n := (consecutive_pressure g + 1)%Z in
        {| adaptive := adaptive g; pin := None;
           gov_mode := if negb (bool_decide (gov_mode g = THERMAL)) && (THERMAL_ENTER_POLLS <=? n)%Z
                       then THERMAL else gov_mode g;
           consecutive_pressure := n; consecutive_clear := 0 |}
      else
        let n := (consecutive_clear g + 1)%Z in
        {| adaptive := adaptive g; pin := None;
           gov_mode := if bool_decide (gov_mode g = THERMAL) && (THERMAL_EXIT_POLLS <=? n)%Z
                       then ACTIVE else gov_mode g;
           consecutive_pressure := 0; consecutive_clear := n |}
  end.

Definition downshift_target (m : Mode) : option string :=
  match m with ACTIVE => None | IDLE | THERMAL => Some "tier1" end.

(** [recommend_tier_name] *)
Definition recommend_tier_name (g : ResourceGovernor) (current : string) : string :=
  if negb (adaptive g) then current
  else match downshift_target (mode g) with
       | Some t => t
       | None => current
       end.

(** ** The config of a call *)

Record LLMConfig := {
  cfg_provider : string;
  cfg_model : string;
  cfg_tier_name : string;
  cfg_governance_tier : LLMTier;
  cfg_base_url : string;
  cfg_api_key_env : option string;
  cfg_auth_mode : string;
  cfg_default_headers : list (string * string);
  cfg_temperature : string;
  cfg_max_tokens : Z;
  cfg_timeout_seconds : Z;
  cfg_num_ctx : option Z;
  cfg_keep_alive : option pyval;
  cfg_num_thread : option Z;
  cfg_think : option bool;
}.

(** The headers of the client's [copilot] preset; no other preset has any. *)
Definition copilot_headers : list (string * string) :=
  [("Editor-Version", "evarness-coding/0.1"); ("Copilot-Integration-Id", "vscode-chat");
   ("Editor-Plugin-Version", "evarness-coding/0.1")].

Definition opt_ge (low : Z) (o : option Z) : bool :=
  match o with Some z => (low <=? z)%Z | None => true end.

(** [keep_alive: str | int | None] of [CodingLLMConfig]: a text is stripped, a whole number
    or a flag becomes an [int]; [None] refuses the value. *)
Definition keep_alive_value (fl : Floats) (v : option pyval) : option (option pyval) :=
  match v with
  | None | Some VNone => Some None
  | Some (VStr s) => Some (Some (VStr (str_strip s)))
  | Some (VInt z) => Some (Some (VInt z))
  | Some (VBool b) => Some (Some (VInt (if b then 1 else 0)))
  | Some (VFloat r) =>
      if float_integral fl r then Some <$> (VInt <$> float_trunc fl r) else None
  | Some _ => None
  end.

(** The field constraints of [CodingLLMConfig]; its texts are stripped. *)
Definition config_fits (fl : Floats) (c : LLMConfig) : bool :=
  str_truthy (cfg_provider c) && str_truthy (cfg_model c) && str_truthy (cfg_base_url c) &&
  float_in_range fl (cfg_temperature c) && (1 <=? cfg_max_tokens c)%Z &&
  (1 <=? cfg_timeout_seconds c)%Z && opt_ge 128 (cfg_num_ctx c) && opt_ge 1 (cfg_num_thread c).

(** The tier the governor moves a call to, and its name. *)
Definition downshift (g : option ResourceGovernor) (r : TierRouter) (t : TierConfig) (n : string)
    : TierConfig * string :=
  match g with
  | Some gv =>
      if String.eqb (provider t) "ollama" && negb (pinned t) then
        let m := recommend_tier_name gv n in
        match (if String.eqb m n then None else tiers r !! m) with
        | Some t' => if String.eqb (provider t') "ollama" then (t', m) else (t, n)
        | None => (t, n)
        end
      else (t, n)
  | None => (t, n)
  end.

(** [_build_llm_config]; making room for the model ([governor.acquire]) cannot fail it. *)
Definition build_llm_config (fl : Floats) (env : string → option string) (shipped : gmap string Locality)
    (g : option ResourceGovernor) (r : TierRouter) (t0 : TierConfig) (n0 : string) : res LLMConfig :=
  let '(t, n) := downshift g r t0 n0 in
  let! url := provider_base_url env (provider t) in
  let c := {| cfg_provider := str_strip (provider t); cfg_model := str_strip (model t);
              cfg_tier_name := str_strip n;
              cfg_governance_tier := governance_tier_for n t (provider_localities shipped r);
              cfg_base_url := str_strip url; cfg_api_key_env := api_key_env (provider t);
              cfg_auth_mode := if String.eqb (provider t) "copilot" then "copilot" else "static";
              cfg_default_headers := if String.eqb (provider t) "copilot" then copilot_headers else [];
              cfg_temperature := temperature t; cfg_max_tokens := max_tokens t;
              cfg_timeout_seconds := timeout_seconds t; cfg_num_ctx := num_ctx t;
              cfg_keep_alive := default None (keep_alive_value fl (keep_alive t)); cfg_num_thread := num_thread t; cfg_think := think t |} in
  if config_fits fl c && bool_decide (is_Some (keep_alive_value fl (keep_alive t))) then Ok c
  else Raise (Exn "ValidationError" "validation error for CodingLLMConfig").

(** [get_llm_config] *)
Definition get_llm_config (fl : Floats) (env : string → option string) (shipped : gmap string Locality)
    (g : option ResourceGovernor) (r : TierRouter) (intent : string) : res LLMConfig :=
  let n := resolve_tier_name r intent in
  build_llm_config fl env shipped g r (get_tier r intent)
    (if bool_decide (is_Some (tiers r !! n)) then n else "fallback").

(** [get_llm_config_for_tier] *)
Definition get_llm_config_for_tier (fl : Floats) (env : string → option string) (shipped : gmap string Locality)
    (g : option ResourceGovernor) (r : TierRouter) (n : string) : option (res LLMConfig) :=
  match tiers r !! n with
  | Some t => Some (build_llm_config fl env shipped g r t n)
  | None => None
  end.

(** [provider_root_url]: the provider's URL without its [/v1]. *)
Definition provider_root_url (env : string → option string) (p : string) : res string :=
  let! url := provider_base_url env p in
  let raw := rstrip_slash url in
  Ok (if endswith "/v1" raw then String.substring 0 (String.length raw - 3) raw else raw).

(** The client's target tier: an explicit one, else the router's stamp. *)
Definition client_target_tier (explicit : option LLMTier) (c : LLMConfig) : LLMTier :=
  default (cfg_governance_tier c) explicit.

(** ** Facts *)

Lemma provider_key_strip p : provider_key (str_strip p) = provider_key p.
Proof. unfold provider_key. by rewrite str_strip_idem. Qed.

Lemma governance_tier_cloud key t l :
  governance_tier_for key t l = tier_3 ↔ provider_locality l (provider t) = cloud.
Proof.
  unfold governance_tier_for. destruct (provider_locality l (provider t)); [|done].
  split; [|done]. by repeat case_match.
Qed.

(** A downshift keeps the provider. *)
Lemma downshift_provider g r t n t' n' :
  downshift g r t n = (t', n') → provider t' = provider t ∧ (pinned t = true → t' = t ∧ n' = n).
Proof.
  unfold downshift. destruct g as [gv|]; [|by intros [= -> ->]].
  destruct (String.eqb_spec (provider t) "ollama") as [Hp|Hp]; cbn [andb]; [|by intros [= -> ->]].
  destruct (pinned t) eqn:Hpin; cbn [negb]; [by intros [= -> ->]|]. cbv zeta.
  destruct (if String.eqb (recommend_tier_name gv n) n then None else _) as [t1|]; [|by intros [= -> ->]].
  destruct (String.eqb_spec (provider t1) "ollama") as [Hp1|]; [|by intros [= -> ->]].
  intros [= <- <-]. by rewrite Hp, Hp1.
Qed.

Lemma build_llm_config_ok fl env shipped g r t n c :
  build_llm_config fl env shipped g r t n = Ok c →
  ∃ t' n', downshift g r t n = (t', n') ∧ cfg_provider c = str_strip (provider t') ∧
    cfg_model c = str_strip (model t') ∧
    cfg_governance_tier c = governance_tier_for n' t' (provider_localities shipped r).
Proof.
  unfold build_llm_config. destruct (downshift g r t n) as [t' n'].
  destruct (provider_base_url env (provider t')) as [url|]; [|done]. cbn [res_bind].
  destruct (config_fits fl _ && _); [|done]. intros [= <-]. by exists t', n'.
Qed.

Lemma tier_name_in_use r n :
  tier_or_fallback r (if bool_decide (is_Some (tiers r !! n)) then n else "fallback") = tier_or_fallback r n.
Proof.
  case_bool_decide as Hn; [done|]. apply eq_None_not_Some in Hn. unfold tier_or_fallback. rewrite Hn.
  by destruct (tiers r !! "fallback").
Qed.

(** ** A router's tiers *)

(** Every tier names a provider the harness knows, and every intent and prior a tier. *)
Record router_ok (r : TierRouter) : Prop := {
  ro_tiers : map_Forall (λ _ t, provider t ∈ known_providers) (tiers r);
  ro_declared : map_Forall (λ _ t, provider t ∈ known_providers) (declared_tiers r);
  ro_intents : map_Forall (λ _ n, is_Some (tiers r !! n)) (intent_to_tier r);
  ro_domain : dom (tiers r) = dom (declared_tiers r);
}.

Lemma load_tier_provider fl n entry t : load_tier fl n entry = Ok t → provider t ∈ known_providers.
Proof.
  unfold load_tier. destruct entry as [| | | | | |fields|]; try done.
  repeat (match goal with |- res_bind ?m _ = _ → _ => destruct m; [cbn [res_bind]|done] end).
  destruct (str_in _ known_providers) eqn:Hk; [|done]. intros [= <-]. by apply str_in_elem.
Qed.

Lemma add_tags_targets n tags m (P : string → Prop) :
  P n → map_Forall (λ _ x, P x) m → map_Forall (λ _ x, P x) (add_tags n tags m).
Proof.
  intros Hn. unfold add_tags. revert m. induction tags as [|t tags IH]; intros m Hm; simpl; [done|].
  apply IH. destruct (m !! t); [done|]. by apply map_Forall_insert_2.
Qed.

(** What holds while the tiers of a file are read. *)
Definition loading_ok (r : TierRouter) : Prop :=
  map_Forall (λ _ t, provider t ∈ known_providers) (tiers r) ∧
  map_Forall (λ _ n, is_Some (tiers r !! n)) (intent_to_tier r).

Lemma load_tiers_ok fl l r e r' : loading_ok r → load_tiers fl l r = (e, r') → loading_ok r'.
Proof.
  revert r. induction l as [|[n entry] l IH]; intros r Hr; simpl; [by intros [= _ <-]|].
  destruct (load_tier fl n entry) as [t|] eqn:Ht; [|by intros [= _ <-]].
  apply IH. destruct Hr as [H1 H2]. split; cbn.
  - apply map_Forall_insert_2; [by eapply load_tier_provider|done].
  - apply add_tags_targets; [by rewrite lookup_insert_eq|]. intros i x Hx.
    destruct (decide (x = n)) as [->|Hne]; [by rewrite lookup_insert_eq|].
    rewrite lookup_insert_ne by done. by apply (H2 i).
Qed.

Lemma load_tiers_priors fl l r e r' :
  load_tiers fl l r = (e, r') → intent_tier_priors r' = intent_tier_priors r.
Proof.
  revert r. induction l as [|[n entry] l IH]; intros r; simpl; [by intros [= _ <-]|].
  destruct (load_tier fl n entry); [|by intros [= _ <-]]. by intros ->%IH.
Qed.

Lemma load_file_ok fl file r : load_file fl file = Ok r → router_ok r ∧ intent_tier_priors r = ∅ ∧
  tiers r = declared_tiers r ∧ intent_to_tier r = declared_intents r.
Proof.
  unfold load_file.
  destruct (match file with Ok v => _ | Raise e => _ end) as [[| | | | | |d|]|e];
    try (intros [= <-]; split; [by split|done]).
  - destruct (default (VDict []) _) as [| | | | | |l|]; try (intros [= <-]; split; [by split|done]).
    match goal with |- context [load_tiers fl l ?r0] =>
      destruct (load_tiers fl l r0) as [failed r1] eqn:Hl;
      assert (loading_ok r1) as [H1 H2] by (by eapply (load_tiers_ok fl l r0));
      assert (intent_tier_priors r1 = ∅) as Hp by (by apply (load_tiers_priors fl l r0) in Hl as ->)
    end.
    destruct failed as [e|]; [destruct (String.eqb _ _); [done|]|];
      intros [= <-]; by (split; [split|]).
  - destruct (String.eqb (exn_class e) "ConfigurationError"); [done|]. intros [= <-]. by split; [split|].
Qed.

(** ** What a call is governed by *)

(** An intent of a pinned tier stays there: no prior moves it, no governor downshifts it. *)
Lemma resolve_pinned r intent n t :
  intent_to_tier r !! intent = Some n → tiers r !! n = Some t → pinned t = true →
  resolve_tier_name r intent = n.
Proof. intros Hi Ht Hp. unfold resolve_tier_name. by rewrite Hi, Ht, Hp. Qed.

Lemma governance_for_intent_cloud shipped r intent :
  governance_tier_for_intent shipped r intent = tier_3 ↔
  provider_locality (provider_localities shipped r) (provider (get_tier r intent)) = cloud.
Proof.
  unfold governance_tier_for_intent, governance_tier_for_tier. cbv zeta.
  rewrite governance_tier_cloud, tier_name_in_use. done.
Qed.

(** The tier a config is built from: the intent's, or one on the same provider. *)
Lemma get_llm_config_ok fl env shipped g r intent c :
  get_llm_config fl env shipped g r intent = Ok c →
  ∃ t n, provider t = provider (get_tier r intent) ∧
    (pinned (get_tier r intent) = true → t = get_tier r intent) ∧
    cfg_provider c = str_strip (provider t) ∧ cfg_model c = str_strip (model t) ∧
    cfg_governance_tier c = governance_tier_for n t (provider_localities shipped r).
Proof.
  unfold get_llm_config. cbv zeta.
  intros (t & n & Hd & Hp & Hm & Hg)%build_llm_config_ok.
  apply downshift_provider in Hd as [Hpr Hpin]. exists t, n. split_and!; try done.
  intros H. by apply Hpin.
Qed.

(** A gate that lets a [secret] prompt through was asked about a local tier. *)
Lemma gate_secret_not_cloud raw p trusted gate ctx t :
  complete_and_safe raw = Ok p → new_egress_gate trusted p = Ok gate →
  classification ctx = Some secret → tier ctx = Some t →
  outcome (egress_gate_call gate ctx) = allow → t ≠ tier_3.
Proof.
  intros (Hmax & Hv & _)%complete_and_safe_secret Hg Hc Ht Ha ->.
  unfold new_egress_gate in Hg. case_bool_decide; [done|]. injection Hg as <-.
  apply gate_allow_iff in Ha. rewrite Hc, Ht in Ha. cbn in Ha. destruct Ha as [Hle|(Hv' & _)].
  - destruct (max_tier (rule p secret)); [done..|done].
  - by rewrite Hv in Hv'.
Qed.

(** C38. Where a model call goes and how it is governed agree.  The config of an intent's
    call carries the cloud label exactly when the provider it dials runs in the cloud by
    the [providers:] block (an undeclared provider does), whatever the priors and the
    governor moved, and that is the label the intent was announced with.  So, under any
    valid egress policy, a call the client labels by its config passes the gate with
    [secret] data only if its provider is declared local.  An intent of a pinned tier is
    served by that tier's own provider and model. *)
Theorem call_governed_by_locality fl env shipped g r intent c :
  get_llm_config fl env shipped g r intent = Ok c →
  let runs := provider_locality (provider_localities shipped r) (cfg_provider c) in
  (cfg_governance_tier c = tier_3 ↔ runs = cloud) ∧
  (governance_tier_for_intent shipped r intent = tier_3 ↔ runs = cloud) ∧
  (∀ raw p trusted gate ctx,
     complete_and_safe raw = Ok p → new_egress_gate trusted p = Ok gate →
     classification ctx = Some secret → tier ctx = Some (client_target_tier None c) →
     outcome (egress_gate_call gate ctx) = allow → runs = local) ∧
  (∀ n t, intent_to_tier r !! intent = Some n → tiers r !! n = Some t → pinned t = true →
     cfg_provider c = str_strip (provider t) ∧ cfg_model c = str_strip (model t)).
Proof.
  intros (t & n & Hpr & Hpin & Hp & Hm & Hg)%get_llm_config_ok runs.
  assert (runs = provider_locality (provider_localities shipped r) (provider t)) as Hruns.
  { unfold runs, provider_locality. by rewrite Hp, provider_key_strip. }
  assert (cfg_governance_tier c = tier_3 ↔ runs = cloud) as Hcloud.
  { by rewrite Hg, governance_tier_cloud, Hruns. }
  split_and!; [done| | |].
  - rewrite governance_for_intent_cloud, Hruns, Hpr. done.
  - intros raw p trusted gate ctx Hpol Hgate Hc Ht Ha.
    pose proof (gate_secret_not_cloud _ _ _ _ _ _ Hpol Hgate Hc Ht Ha) as Hn. cbn in Hn.
    destruct runs; [done|]. destruct Hn. by apply Hcloud.
  - intros n' t' Hi Ht' Hp'. assert (get_tier r intent = t') as He.
    { unfold get_tier, tier_or_fallback. by rewrite (resolve_pinned r intent n' t') , Ht'. }
    rewrite He in Hpin. rewrite (Hpin Hp') in Hp, Hm. done.
Qed.

(** ** A file with a local and a cloud tier *)

Module Sample.

Definition file : pyval := VDict
  [("providers", VDict [("ollama", VDict [("runs", VStr " Local ")]);
                        ("openrouter", VDict [("runs", VStr "cloud")])]);
   ("tiers", VDict
     [("tier1", VDict [("model", VStr "gemma3:4b"); ("use_for", VList [VStr "chat"])]);
      ("tier2", VDict [("model", VStr "gemma3:12b"); ("temperature", VFloat "0.7");
                       ("use_for", VList [VStr "plan"])]);
      ("tier3", VDict [("provider", VStr "openrouter"); ("model", VStr "big"); ("max_tokens", VInt 4096);
                       ("use_for", VList [VStr "research"; VStr "chat"])])])].

(** Floats as the samples need them: the texts of the sample's own. *)
Definition floats : Floats :=
  {| float_of_other := λ _, None; float_trunc := λ _, None;
     float_in_range := λ r, str_in r ["0.0"; "-0.0"; "0.5"; "0.7"; "1.0"];
     float_integral := λ r, str_in r ["0.0"; "-0.0"; "1.0"] |}.

Definition hot : ResourceGovernor :=
  governor_poll {| ram_free_bytes := 0; thermal_throttled := false |}
    (governor_poll {| ram_free_bytes := 0; thermal_throttled := true |}
      (governor_poll {| ram_free_bytes := 0; thermal_throttled := true |} (new_governor true))).

Definition router : TierRouter :=
  match load_file floats (Ok file) with Ok r => r | Raise _ => empty_router end.

Definition ctx (t : LLMTier) : HookContext :=
  {| ctx_hook_point := PRE_LLM_CALL; run_id := "r"; agent_type := "chat"; step_id := None;
     persona := None; route := None; payload := ∅; classification := Some secret;
     tier := Some t; metadata := ∅ |}.

Definition config (intent : string) : res LLMConfig :=
  get_llm_config floats (λ _, None) ∅ (Some hot) router intent.

(** A hot machine serves [plan] with the small local tier; [chat] belongs to the first tier
    that claims it; [research] goes to the cloud. *)
Example configs :
  match config "plan", config "chat", config "research" with
  | Ok p, Ok c, Ok s =>
      cfg_model p = "gemma3:4b" ∧ cfg_governance_tier p = tier_1 ∧
      cfg_base_url p = "http://localhost:11434/v1" ∧ cfg_model c = "gemma3:4b" ∧
      cfg_model s = "big" ∧ cfg_governance_tier s = tier_3
  | _, _, _ => False
  end.
Proof. vm_compute. by repeat split. Qed.
End Sample.

Lemma call_governed_by_locality_witness :
  ∃ c, Sample.config "plan" = Ok c ∧
    provider_locality (provider_localities ∅ Sample.router) (cfg_provider c) = local.
Proof.
  eexists. split; [vm_compute; reflexivity|].
  refine (proj1 (proj2 (proj2 (call_governed_by_locality Sample.floats (λ _, None) ∅ (Some Sample.hot)
            Sample.router "plan" _ _)))
          shipped_classes _ [personal] _ (Sample.ctx tier_1) _ _ _ _ _);
    try reflexivity; vm_compute; reflexivity.
Defined.
