(* ===== verification/TierEdits.v ===== *)
(** * The owner's edits to the tiers ([llm/tier_edits.py], [foundation/settings/store.py])

    The settings store of overrides and history, the validation of an edited field, the
    edits laid over a freshly loaded router, and the edits that change the live router and
    the store together.  The store holds one section, [llm_tiers]; a JSON column is kept as
    the value it encodes. *)

From S2P Require Import Prelude PyVal PyText Hooks ModelRouting.
From stdpp Require Import options.

(** ** The settings store *)

Inductive ChangeAction := set_override | reset_override.

Record SettingChange := {
  ch_at : Z;
  ch_key : string;
  ch_action : ChangeAction;
  ch_old : pyval;
  ch_new : pyval;
  ch_actor : string;
}.

Record SettingsStore := { overrides : gmap string pyval; changes : list SettingChange }.

Definition empty_settings : SettingsStore := {| overrides := ∅; changes := [] |}.

(** [SettingsStore.set] *)
Definition settings_set (key : string) (value old new : pyval) (actor : string) (now : Z) (s : SettingsStore)
    : SettingsStore :=
  {| overrides := <[key := value]> (overrides s);
     changes := changes s ++ [{| ch_at := now; ch_key := key; ch_action := set_override;
                                 ch_old := old; ch_new := new; ch_actor := actor |}] |}.

(** [SettingsStore.clear] *)
Definition settings_clear (key : string) (old new : pyval) (actor : string) (now : Z) (s : SettingsStore)
    : SettingsStore :=
  {| overrides := delete key (overrides s);
     changes := changes s ++ [{| ch_at := now; ch_key := key; ch_action := reset_override;
                                 ch_old := old; ch_new := new; ch_actor := actor |}] |}.

(** [SettingsStore.section]: the overrides in the order of their keys. *)
Definition settings_section (s : SettingsStore) : list (string * pyval) :=
  sort_kv (map_to_list (overrides s)).

(** [SettingsStore.get] *)
Definition settings_get (key : string) (s : SettingsStore) : pyval := default VNone (overrides s !! key).

(** [SettingsStore.history]: newest first. *)
Definition settings_history (limit : Z) (s : SettingsStore) : list SettingChange :=
  if (0 <? limit)%Z then take (Z.to_nat limit) (reverse (changes s)) else reverse (changes s).

(** ** Editable fields *)

Definition PROVIDERS : list string := ["ollama"; "lmstudio"; "anthropic"; "openrouter"; "github"].

(** A validated value of a field. *)
Inductive FieldEdit :=
| EProvider (p : string)
| EModel (m : string)
| EMaxTokens (z : Z)
| ETemperature (t : string)
| ETimeout (z : Z)
| EThink (o : option bool).

Definition edit_error (msg : string) : exn := Exn "TierEditError" msg.

Definition str_has (c : ascii) (s : string) : bool := str_any (Ascii.eqb c) s.
Definition newline : ascii := ascii_of_N 10.

(** [int(str(raw).strip())] within a field's limits. *)
Definition validate_int (key : string) (high : Z) (raw : pyval) : res Z :=
  match raw with
  | VBool _ => Raise (edit_error (key +:+ " must be a number"))
  | _ =>
      match py_int (str_strip (str_val raw)) with
      | Some z => if (1 <=? z)%Z && (z <=? high)%Z then Ok z
                  else Raise (edit_error (key +:+ " must be between 1 and " +:+ pretty high))
      | None => Raise (edit_error (key +:+ " must be a number"))
      end
  end.

(** One field of [validate_fields]. *)
Definition validate_field (fl : Floats) (key : string) (raw : pyval) : res FieldEdit :=
  if String.eqb key "provider" then
    let p := str_strip (str_val raw) in
    if str_in p PROVIDERS then Ok (EProvider p)
    else Raise (edit_error ("provider must be one of " +:+ join ", " PROVIDERS))
  else if String.eqb key "think" then
    match raw with
    | VNone => Ok (EThink None)
    | VBool b => Ok (EThink (Some b))
    | _ => Raise (edit_error "think must be true or false")
    end
  else if String.eqb key "model" then
    let m := str_strip (str_val raw) in
    if negb (str_truthy m) || Nat.ltb 200 (String.length m) || str_has newline m
    then Raise (edit_error "model must be one line of at most 200 characters")
    else Ok (EModel m)
  else if String.eqb key "temperature" then
    match raw with
    | VBool _ => Raise (edit_error (key +:+ " must be a number"))
    | _ =>
        match float_of fl raw with
        | Some t => if float_in_range fl t then Ok (ETemperature t)
                    else Raise (edit_error (key +:+ " must be between 0.0 and 2.0"))
        | None => Raise (edit_error (key +:+ " must be a number"))
        end
    end
  else if String.eqb key "max_tokens" then
    let! z := validate_int key 200000 raw in Ok (EMaxTokens z)
  else if String.eqb key "timeout_seconds" then
    let! z := validate_int key 3600 raw in Ok (ETimeout z)
  else Raise (edit_error (py_repr key +:+ " is not an editable tier field")).

(** [validate_fields] *)
Fixpoint validate_fields (fl : Floats) (l : list (string * pyval)) : res (list FieldEdit) :=
  match l with
  | [] => Ok []
  | (k, v) :: l' =>
      let! e := validate_field fl k v in
      let! es := validate_fields fl l' in
      Ok (e :: es)
  end.

(** [replace(tier, **fields)], a field at a time. *)
Definition edit_tier (e : FieldEdit) (t : TierConfig) : TierConfig :=
  {| tc_name := tc_name t;
     provider := match e with EProvider p => p | _ => provider t end;
     model := match e with EModel m => m | _ => model t end;
     max_tokens := match e with EMaxTokens z => z | _ => max_tokens t end;
     temperature := match e with ETemperature x => x | _ => temperature t end;
     timeout_seconds := match e with ETimeout z => z | _ => timeout_seconds t end;
     use_for := use_for t; num_ctx := num_ctx t; keep_alive := keep_alive t;
     num_thread := num_thread t;
     think := match e with EThink o => o | _ => think t end; pinned := pinned t |}.

Definition edit_fields (es : list FieldEdit) (t : TierConfig) : TierConfig :=
  fold_left (λ t e, edit_tier e t) es t.

Definition opt_bool (o : option bool) : pyval := match o with Some b => VBool b | None => VNone end.

(** [_fields] *)
Definition fields (t : TierConfig) : list (string * pyval) :=
  [("provider", VStr (provider t)); ("model", VStr (model t)); ("max_tokens", VInt (max_tokens t));
   ("temperature", VFloat (temperature t)); ("timeout_seconds", VInt (timeout_seconds t));
   ("think", opt_bool (think t))].

(** Equality of floats: the two zeros are equal. *)
Definition zero_float (r : string) : bool := str_in r ["0.0"; "-0.0"].
Definition float_eqb (r r' : string) : bool := String.eqb r r' || zero_float r && zero_float r'.

(** [_fields(t) == _fields(t')] *)
Definition same_fieldsb (t t' : TierConfig) : bool :=
  String.eqb (provider t) (provider t') && String.eqb (model t) (model t') &&
  (max_tokens t =? max_tokens t')%Z && float_eqb (temperature t) (temperature t') &&
  (timeout_seconds t =? timeout_seconds t')%Z && bool_decide (think t = think t').

(** The fields of [target] that differ from the file's. *)
Definition when_field (differs : bool) (kv : string * pyval) : list (string * pyval) :=
  if differs then [kv] else [].

Definition field_diff (target declared : TierConfig) : list (string * pyval) :=
  when_field (negb (String.eqb (provider target) (provider declared))) ("provider", VStr (provider target)) ++
  when_field (negb (String.eqb (model target) (model declared))) ("model", VStr (model target)) ++
  when_field (negb (max_tokens target =? max_tokens declared)%Z) ("max_tokens", VInt (max_tokens target)) ++
  when_field (negb (float_eqb (temperature target) (temperature declared)))
    ("temperature", VFloat (temperature target)) ++
  when_field (negb (timeout_seconds target =? timeout_seconds declared)%Z)
    ("timeout_seconds", VInt (timeout_seconds target)) ++
  when_field (negb (bool_decide (think target = think declared))) ("think", opt_bool (think target)).

(** ** Laying edits over a router *)

Definition key_error (k : string) : exn := Exn "KeyError" (py_repr k).

(** [_set_tier] *)
Definition set_tier (n : string) (es : list FieldEdit) (r : TierRouter) : res TierRouter :=
  match tiers r !! n with
  | None => Raise (key_error n)
  | Some t => Ok (with_tiers (<[n := edit_fields es t]> (tiers r)) r)
  end.

Definition set_use_for (l : list string) (t : TierConfig) : TierConfig :=
  {| tc_name := tc_name t; provider := provider t; model := model t; max_tokens := max_tokens t;
     temperature := temperature t; timeout_seconds := timeout_seconds t; use_for := l;
     num_ctx := num_ctx t; keep_alive := keep_alive t; num_thread := num_thread t;
     think := think t; pinned := pinned t |}.

(** [_move]: the two tiers' [use_for] follow the intent. *)
Definition drop_tag (intent : string) (t : TierConfig) : TierConfig :=
  set_use_for (select_where (λ i, negb (String.eqb i intent)) (use_for t)) t.
Definition add_tag (intent : string) (t : TierConfig) : TierConfig :=
  if str_in intent (use_for t) then t else set_use_for (use_for t ++ [intent]) t.

Definition move (intent n : string) (r : TierRouter) : res TierRouter :=
  if negb (bool_decide (is_Some (tiers r !! n))) then Raise (key_error n)
  else match intent_to_tier r !! intent with
       | None => Raise (key_error intent)
       | Some old =>
           let left := if String.eqb old n then tiers r else alter (drop_tag intent) old (tiers r) in
           Ok (with_intents (<[intent := n]> (intent_to_tier r))
                 (with_tiers (alter (add_tag intent) n left) r))
       end.

(** [key.partition(":")] *)
Fixpoint partition_colon (s : string) : string * string :=
  match s with
  | EmptyString => ("", "")
  | String c s' =>
      if Ascii.eqb c ":" then ("", s') else let '(a, b) := partition_colon s' in (String c a, b)
  end.

(** One saved edit of [apply_saved]; one that does not fit is skipped. *)
Definition apply_one (fl : Floats) (kv : string * pyval) (r : TierRouter) : TierRouter :=
  let '(kind, n) := partition_colon kv.1 in
  let done := match kv.2 with
              | VDict d => if String.eqb kind "tier" then
                             let! es := validate_fields fl d in set_tier n es r
                           else Ok r
              | VStr t => if String.eqb kind "intent" then move n t r else Ok r
              | _ => Ok r
              end in
  match done with Ok r' => r' | Raise _ => r end.

(** [apply_saved]; a store that cannot be read leaves the file's router. *)
Definition apply_saved (fl : Floats) (saved : res SettingsStore) (r : TierRouter) : TierRouter :=
  match saved with
  | Ok s => fold_left (λ r kv, apply_one fl kv r) (settings_section s) r
  | Raise _ => r
  end.

(** [load_from_yaml] *)
Definition load_from_yaml (fl : Floats) (shipped : gmap string Locality) (forced : string)
    (file : res pyval) (saved : res SettingsStore) : res TierRouter :=
  let! r := load_file fl file in
  force_provider shipped forced (apply_saved fl saved r).

(** ** Editing the live router *)

Definition Live : Type := TierRouter * SettingsStore.

(** [is_guarded_tier_change], [is_guarded_move] *)
Definition is_guarded_tier_change (r : TierRouter) (n : string) (es : list FieldEdit) : bool :=
  match tiers r !! n with
  | Some t => existsb (λ e, match e with EProvider p => negb (String.eqb p (provider t)) | _ => false end) es
  | None => false
  end.

Definition is_guarded_move (r : TierRouter) (intent n : string) : bool :=
  match tiers r !! default "" (intent_to_tier r !! intent), tiers r !! n with
  | Some t, Some t' => negb (String.eqb (provider t) (provider t'))
  | _, _ => false
  end.

Section live.
Context (fl : Floats).

(** [update_tier] *)
Definition update_tier (n : string) (changes_ : list (string * pyval)) (actor : string) (now : Z)
    : M Live TierConfig := λ s,
  let '(r, st) := s in
  match declared_tiers r !! n, tiers r !! n with
  | Some declared, Some current =>
      match validate_fields fl changes_ with
      | Raise e => (Raise e, s)
      | Ok es =>
          let target := edit_fields es current in
          if same_fieldsb target current then (Ok current, s)
          else
            let key := "tier:" +:+ n in
            let old := VDict (fields current) in
            let new := VDict (fields target) in
            let st' := match field_diff target declared with
                       | [] => settings_clear key old new actor now st
                       | diff => settings_set key (VDict diff) old new actor now st
                       end in
            (Ok target, (with_tiers (<[n := target]> (tiers r)) r, st'))
      end
  | _, _ => (Raise (key_error n), s)
  end.

(** [reset_tier] *)
Definition reset_tier (n : string) (actor : string) (now : Z) : M Live TierConfig := λ s,
  match declared_tiers s.1 !! n with
  | Some declared => update_tier n (fields declared) actor now s
  | None => (Raise (key_error n), s)
  end.

(** [move_intent] *)
Definition move_intent (intent n : string) (actor : string) (now : Z) : M Live string := λ s,
  let '(r, st) := s in
  match intent_to_tier r !! intent with
  | None => (Raise (key_error intent), s)
  | Some current =>
      if negb (bool_decide (is_Some (tiers r !! n))) then (Raise (key_error n), s)
      else if String.eqb n current then (Ok current, s)
      else
        let key := "intent:" +:+ intent in
        let st' := if bool_decide (declared_intents r !! intent = Some n)
                   then settings_clear key (VStr current) (VStr n) actor now st
                   else settings_set key (VStr n) (VStr current) (VStr n) actor now st in
        match move intent n r with
        | Ok r' => (Ok n, (r', st'))
        | Raise e => (Raise e, (r, st'))
        end
  end.

(** [reset_intent] *)
Definition reset_intent (intent : string) (actor : string) (now : Z) : M Live string := λ s,
  match declared_intents s.1 !! intent with
  | Some n => move_intent intent n actor now s
  | None => (Raise (key_error intent), s)
  end.

(** ** Model sets *)

Definition MODEL_SET_KEY : string := "model_set".

Record RecordedModelSet := { ms_name : string; ms_forced : bool; ms_tiers : list string }.

Definition kv_get (d : list (string * pyval)) (k : string) : option pyval := list_to_map (M := dict) d !! k.

(** [recorded_model_set] *)
Definition recorded_model_set (st : SettingsStore) : option RecordedModelSet :=
  match settings_get MODEL_SET_KEY st with
  | VDict d =>
      match kv_get d "name" with
      | Some v =>
          if truthy v then
            Some {| ms_name := str_val v; ms_forced := truthy (default (VBool false) (kv_get d "forced"));
                    ms_tiers := match kv_get d "tiers" with Some (VList l) => map str_val l | _ => [] end |}
          else None
      | None => None
      end
  | _ => None
  end.

(** The validation of every tier of a set, before anything is written. *)
Fixpoint validate_set (l : list (string * list (string * pyval))) : res (list (string * list FieldEdit)) :=
  match l with
  | [] => Ok []
  | (n, d) :: l' =>
      let! es := validate_fields fl d in
      let! rest := validate_set l' in
      Ok ((n, es) :: rest)
  end.

Definition field_kv (e : FieldEdit) : string * pyval :=
  match e with
  | EProvider p => ("provider", VStr p)
  | EModel m => ("model", VStr m)
  | EMaxTokens z => ("max_tokens", VInt z)
  | ETemperature t => ("temperature", VFloat t)
  | ETimeout z => ("timeout_seconds", VInt z)
  | EThink o => ("think", opt_bool o)
  end.

(** [{**_fields(declared), **fields}] *)
Definition merged_fields (declared : TierConfig) (es : list FieldEdit) : list (string * pyval) :=
  fields (edit_fields es declared).

Definition edit_each {A} (f : A → M Live TierConfig) (l : list A) : M Live unit :=
  fold_right (λ a k, _ ← f a; k) (mret tt) l.

(** One tier of a set, over the file's. *)
Definition edit_declared (actor : string) (now : Z) (ne : string * list FieldEdit) : M Live TierConfig := λ s,
  match declared_tiers s.1 !! ne.1 with
  | Some d => update_tier ne.1 (merged_fields d ne.2) actor now s
  | None => (Raise (key_error ne.1), s)
  end.

(** [apply_model_set] *)
Definition apply_model_set (name : string) (set_ : list (string * list (string * pyval))) (forced : bool)
    (actor : string) (now : Z) : M Live RecordedModelSet := λ s,
  match validate_set set_ with
  | Raise e => (Raise e, s)
  | Ok validated =>
      match List.find (λ ne, negb (bool_decide (is_Some (declared_tiers s.1 !! ne.1)))) validated with
      | Some ne => (Raise (key_error ne.1), s)
      | None =>
          let previous := recorded_model_set s.2 in
          let names := map fst validated in
          let stale := match previous with
                       | Some p => select_where (λ t, negb (str_in t names)) (ms_tiers p)
                       | None => []
                       end in
          let known := select_where (λ t, bool_decide (is_Some (declared_tiers s.1 !! t))) stale in
          let record := {| ms_name := name; ms_forced := forced; ms_tiers := names |} in
          let set_value := VDict [("name", VStr name); ("forced", VBool forced);
                                  ("tiers", VList (map VStr names))] in
          let old := match previous with
                     | Some p => VDict [("name", VStr (ms_name p)); ("forced", VBool (ms_forced p))]
                     | None => VNone
                     end in
          let run : M Live RecordedModelSet :=
            _ ← edit_each (λ n, reset_tier n actor now) known;
            _ ← edit_each (edit_declared actor now) validated;
            _ ← modify (λ s', (s'.1, settings_set MODEL_SET_KEY set_value old set_value actor now s'.2));
            mret record in
          run s
      end
  end.
End live.

(** ** Tiers up to the order of their intents

    A reload may list a tier's [use_for] in another order (a file that lists a tag under two
    tiers, with other tags) and may turn one zero temperature into the other; everything else of
    the tier is the same.  [tags_follow] below says what the lists hold. *)

Lemma float_eqb_refl x : float_eqb x x = true.
Proof. unfold float_eqb. by rewrite String.eqb_refl. Qed.

Lemma float_eqb_sym x y : float_eqb x y = float_eqb y x.
Proof. unfold float_eqb. by rewrite String.eqb_sym, andb_comm. Qed.

Lemma float_eqb_spec x y : float_eqb x y = true ↔ x = y ∨ zero_float x = true ∧ zero_float y = true.
Proof. unfold float_eqb. by rewrite orb_true_iff, andb_true_iff, String.eqb_eq. Qed.

Record same_tier (t t' : TierConfig) : Prop := {
  sm_name : tc_name t = tc_name t';
  sm_provider : provider t = provider t';
  sm_model : model t = model t';
  sm_tokens : max_tokens t = max_tokens t';
  sm_temperature : float_eqb (temperature t) (temperature t') = true;
  sm_timeout : timeout_seconds t = timeout_seconds t';
  sm_ctx : num_ctx t = num_ctx t';
  sm_keep : keep_alive t = keep_alive t';
  sm_thread : num_thread t = num_thread t';
  sm_think : think t = think t';
  sm_pinned : pinned t = pinned t';
}.

#[export] Instance same_tier_equivalence : Equivalence same_tier.
Proof.
  split.
  - intros t. split; try done. apply float_eqb_refl.
  - intros t t' []. split; try done. rewrite float_eqb_spec in *.
    destruct sm_temperature0 as [->|[]]; auto.
  - intros t1 t2 t3 [] []. split; try congruence. rewrite float_eqb_spec in *.
    destruct sm_temperature0 as [->|[H1 H2]]; [done|].
    destruct sm_temperature1 as [<-|[_ H3]]; by right.
Qed.

#[export] Instance edit_tier_proper e : Proper (same_tier ==> same_tier) (edit_tier e).
Proof. intros t t' []. destruct e; split; try done; apply float_eqb_refl. Qed.

#[export] Instance edit_fields_proper es : Proper (same_tier ==> same_tier) (edit_fields es).
Proof.
  unfold edit_fields. induction es as [|e es IH]; intros t t' Ht; [done|]. cbn [fold_left].
  apply IH. by rewrite Ht.
Qed.

Lemma edit_fields_app es1 es2 t : edit_fields (es1 ++ es2) t = edit_fields es2 (edit_fields es1 t).
Proof. apply fold_left_app. Qed.

Lemma set_use_for_same l t : same_tier (set_use_for l t) t.
Proof. split; try done. apply float_eqb_refl. Qed.

Lemma add_tag_same i t : same_tier (add_tag i t) t.
Proof. unfold add_tag. destruct (str_in i (use_for t)); [done|apply set_use_for_same]. Qed.

(** Two maps of tiers. *)
Definition same_tiers : relation (gmap string TierConfig) := λ m m',
  ∀ n, option_Forall2 same_tier (m !! n) (m' !! n).

#[export] Instance same_tiers_equivalence : Equivalence same_tiers.
Proof.
  split; [by intros m n|intros m m' Hm n; symmetry; apply Hm|].
  intros m1 m2 m3 H1 H2 n. etrans; [apply H1|apply H2].
Qed.

Lemma same_tiers_dom m m' : same_tiers m m' → dom m = dom m'.
Proof.
  intros Hm. apply set_eq. intros n. rewrite !elem_of_dom. destruct (Hm n); [|done].
  split; by eexists.
Qed.

Lemma same_tiers_alter f n m : (∀ t, same_tier (f t) t) → same_tiers (alter f n m) m.
Proof.
  intros Hf n'. destruct (decide (n' = n)) as [->|Hn]; [|by rewrite lookup_alter_ne].
  rewrite lookup_alter_eq. destruct (m !! n); [|done]. cbn. by constructor.
Qed.

(** [_move] changes where one intent goes and nothing else but the tag lists. *)
Lemma move_ok intent n r r' :
  move intent n r = Ok r' →
  is_Some (tiers r !! n) ∧ is_Some (intent_to_tier r !! intent) ∧
  same_tiers (tiers r') (tiers r) ∧ intent_to_tier r' = <[intent := n]> (intent_to_tier r) ∧
  intent_tier_priors r' = intent_tier_priors r ∧
  declared_tiers r' = declared_tiers r ∧ declared_intents r' = declared_intents r ∧
  declared_localities r' = declared_localities r.
Proof.
  unfold move. case_bool_decide as Hn; cbn [negb]; [|done].
  destruct (intent_to_tier r !! intent) as [old|] eqn:Ho; [|done]. cbv zeta. intros [= <-].
  split_and!; try done. cbn. etrans; [apply same_tiers_alter, add_tag_same|].
  destruct (String.eqb old n); [done|]. apply same_tiers_alter. intros t. apply set_use_for_same.
Qed.

Lemma move_defined intent n r :
  is_Some (tiers r !! n) → is_Some (intent_to_tier r !! intent) → ∃ r', move intent n r = Ok r'.
Proof.
  intros Hn [old Ho]. unfold move. rewrite bool_decide_true by done. cbn [negb]. rewrite Ho. by eexists.
Qed.

(** ** A validated edit validates to itself *)

Definition valid_edit (fl : Floats) (e : FieldEdit) : Prop :=
  validate_field fl (field_kv e).1 (field_kv e).2 = Ok e.

Lemma digits_from_int s acc b z :
  int_from acc s = Some z → b = true ∨ s ≠ "" → digits_from acc b s = Some z.
Proof.
  revert acc b. induction s as [|c s IH]; intros acc b; cbn [int_from digits_from].
  - intros [= ->] [->|]; done.
  - destruct (digit_val c) as [d|]; [|done]. intros Hi _. apply IH; [done|by left].
Qed.

Lemma py_int_pretty z : (1 ≤ z)%Z → py_int (str_strip (pretty z)) = Some z.
Proof.
  intros Hz. destruct z as [|p|p]; [lia| |lia].
  change (pretty (Z.pos p)) with (pretty (N.pos p)).
  destruct (int_of_pretty (N.pos p)) as [Hd Hi]. unfold isdigit in Hd. apply andb_true_iff in Hd as [Ht Hd].
  unfold py_int. rewrite !(digits_strip _ Hd). unfold int_of_digits in Hi. rewrite Ht in Hi.
  destruct (pretty (N.pos p)) as [|c s]; [done|].
  destruct (int_from 0 (String c s)) as [z|] eqn:Hz'; [|done]. injection Hi as ->.
  cbn [int_from] in Hz'. destruct (digit_val c) as [d|] eqn:Hc; [|done].
  destruct (Ascii.eqb_spec c "-") as [->|_]; [done|]. destruct (Ascii.eqb_spec c "+") as [->|_]; [done|].
  apply digits_from_int; [|by right]. cbn [int_from]. by rewrite Hc.
Qed.

Lemma validate_int_idem key high raw z :
  validate_int key high raw = Ok z → validate_int key high (VInt z) = Ok z.
Proof.
  assert (((1 <=? z) && (z <=? high))%Z = true → validate_int key high (VInt z) = Ok z) as Hok.
  { intros Hz. unfold validate_int. cbn [str_val repr_val]. rewrite py_int_pretty by (to_props; lia).
    by rewrite Hz. }
  unfold validate_int at 1. destruct raw; try done;
    (destruct (py_int _) as [z'|]; [|done];
     destruct ((1 <=? z')%Z && (z' <=? high)%Z) eqn:Hz; [|done]; intros [= ->]; by apply Hok).
Qed.

Lemma validate_field_valid fl k v e : validate_field fl k v = Ok e → valid_edit fl e.
Proof.
  unfold validate_field. cbv zeta.
  destruct (String.eqb k "provider").
  { destruct (str_in _ PROVIDERS) eqn:Hp; [|done]. intros [= <-]. unfold valid_edit, validate_field.
    cbn [field_kv fst snd]. cbv zeta. cbn [str_val String.eqb Ascii.eqb Bool.eqb].
    by rewrite str_strip_idem, Hp. }
  destruct (String.eqb k "think").
  { destruct v as [|b| | | | | |]; try done; by intros [= <-]. }
  destruct (String.eqb k "model").
  { destruct (_ || _) eqn:Hm; [done|]. intros [= <-]. unfold valid_edit, validate_field.
    cbn [field_kv fst snd str_val]. cbv zeta. cbn [String.eqb Ascii.eqb Bool.eqb].
    by rewrite str_strip_idem, Hm. }
  destruct (String.eqb k "temperature").
  { destruct v; try done;
      (destruct (float_of fl _) as [t|]; [|done]; destruct (float_in_range fl t) eqn:Ht; [|done];
       intros [= <-]; unfold valid_edit, validate_field; cbn; by rewrite Ht). }
  destruct (String.eqb_spec k "max_tokens") as [->|_].
  { destruct (validate_int "max_tokens" _ v) as [z|] eqn:Hz; [|done].
    intros [= <-]. unfold valid_edit, validate_field. cbn [field_kv fst snd String.eqb Ascii.eqb Bool.eqb].
    by rewrite (validate_int_idem _ _ _ _ Hz). }
  destruct (String.eqb_spec k "timeout_seconds") as [->|_]; [|done].
  destruct (validate_int "timeout_seconds" _ v) as [z|] eqn:Hz; [|done].
  intros [= <-]. unfold valid_edit, validate_field. cbn [field_kv fst snd String.eqb Ascii.eqb Bool.eqb].
  by rewrite (validate_int_idem _ _ _ _ Hz).
Qed.

Lemma validate_fields_valid fl l es : validate_fields fl l = Ok es → Forall (valid_edit fl) es.
Proof.
  revert es. induction l as [|[k v] l IH]; intros es; cbn [validate_fields]; [by intros [= <-]|].
  destruct (validate_field fl k v) as [e|] eqn:He; [|done]. cbn [res_bind].
  destruct (validate_fields fl l) as [es'|]; [|done]. intros [= <-]. constructor; [|by apply IH].
  by eapply validate_field_valid.
Qed.

Lemma validate_fields_kv fl es : Forall (valid_edit fl) es → validate_fields fl (map field_kv es) = Ok es.
Proof.
  induction 1 as [|e es He _ IH]; [done|]. cbn [map validate_fields].
  destruct (field_kv e) as [k v] eqn:Hkv. unfold valid_edit in He. rewrite Hkv in He. cbn [fst snd] in He.
  rewrite He. cbn [res_bind]. by rewrite IH.
Qed.

(** ** What the saved edits make of a router *)

Lemma partition_colon_spec s a b :
  partition_colon s = (a, b) → s = a +:+ (":" +:+ b) ∨ s = a.
Proof.
  revert a. induction s as [|c s IH]; intros a; cbn [partition_colon]; [intros [= <- <-]; by right|].
  destruct (Ascii.eqb_spec c ":") as [->|_]; [intros [= <- <-]; by left|].
  destruct (partition_colon s) as [a' b']. intros [= <- <-].
  destruct (IH a' eq_refl) as [->| ->]; [left|right]; by rewrite ?string_cons_app.
Qed.

(** The fields a stored value edits, and the tier it moves an intent to. *)
Definition value_fields (fl : Floats) (v : pyval) : list FieldEdit :=
  match v with
  | VDict d => match validate_fields fl d with Ok es => es | Raise _ => [] end
  | _ => []
  end.

Definition value_home (known : gset string) (v : pyval) (home : string) : string :=
  match v with VStr t => if bool_decide (t ∈ known) then t else home | _ => home end.

Definition tier_key (n : string) : string := "tier:" +:+ n.
Definition intent_key (i : string) : string := "intent:" +:+ i.

(** The three kinds of rows. *)
Lemma apply_tier_row fl n v r :
  apply_one fl (tier_key n, v) r = with_tiers (alter (edit_fields (value_fields fl v)) n (tiers r)) r.
Proof.
  assert (with_tiers (alter (edit_fields []) n (tiers r)) r = r) as Hid.
  { change (edit_fields []) with (@id TierConfig). destruct r as [m ? ? ? ? ?]. unfold with_tiers. cbn.
    f_equal. apply map_eq. intros n'. destruct (decide (n' = n)) as [->|];
      [rewrite lookup_alter_eq; by destruct (m !! n)|by rewrite lookup_alter_ne]. }
  unfold apply_one. cbn [fst snd]. change (partition_colon (tier_key n)) with ("tier", n). cbv iota beta.
  change (String.eqb "tier" "tier") with true. change (String.eqb "tier" "intent") with false.
  destruct v as [| | | | | |d|]; cbn [value_fields]; try by rewrite Hid.
  destruct (validate_fields fl d) as [es|]; cbn [res_bind]; [|by rewrite Hid].
  unfold set_tier. destruct (tiers r !! n) as [t|] eqn:Ht.
  - f_equal. symmetry. apply map_eq. intros n'. destruct (decide (n' = n)) as [->|];
      [by rewrite lookup_alter_eq, lookup_insert_eq, Ht|by rewrite lookup_alter_ne, lookup_insert_ne].
  - rewrite <- Hid at 1. f_equal. apply map_eq. intros n'. destruct (decide (n' = n)) as [->|];
      [by rewrite !lookup_alter_eq, Ht|by rewrite !lookup_alter_ne].
Qed.

Lemma apply_intent_row fl i v r :
  apply_one fl (intent_key i, v) r
  = match v with
    | VStr t => match move i t r with Ok r' => r' | Raise _ => r end
    | _ => r
    end.
Proof. by destruct v. Qed.

Lemma apply_other_row fl key v r :
  key ≠ "tier" → key ≠ "intent" → (∀ n, key ≠ tier_key n) → (∀ i, key ≠ intent_key i) →
  apply_one fl (key, v) r = r.
Proof.
  intros H1 H2 H3 H4. unfold apply_one. cbn [fst snd].
  destruct (partition_colon key) as [kind n] eqn:Hk. apply partition_colon_spec in Hk.
  assert (String.eqb kind "tier" = false) as ->.
  { apply String.eqb_neq. intros ->. destruct Hk as [Hk|Hk]; [by apply (H3 n)|done]. }
  assert (String.eqb kind "intent" = false) as ->.
  { apply String.eqb_neq. intros ->. destruct Hk as [Hk|Hk]; [by apply (H4 n)|done]. }
  by destruct v.
Qed.

#[export] Instance tier_key_inj : Inj (=) (=) tier_key.
Proof. intros n n' H. by injection H. Qed.
#[export] Instance intent_key_inj : Inj (=) (=) intent_key.
Proof. intros n n' H. by injection H. Qed.

Lemma tier_intent_key n i : tier_key n ≠ intent_key i.
Proof. done. Qed.

(** The kind of a key. *)
Inductive row_kind : string → Type :=
| row_tier n : row_kind (tier_key n)
| row_intent i : row_kind (intent_key i)
| row_other key : (∀ n, key ≠ tier_key n) → (∀ i, key ≠ intent_key i) → row_kind key.

Lemma kind_of_row key : row_kind key.
Proof.
  destruct (partition_colon key) as [kind n] eqn:Hk. pose proof Hk as Hs. apply partition_colon_spec in Hs.
  destruct (decide (key = tier_key n)) as [->|H1]; [apply row_tier|].
  destruct (decide (key = intent_key n)) as [->|H2]; [apply row_intent|].
  apply row_other; intros n' ->; cbn in Hk; injection Hk as <- <-; done.
Qed.

(** The parts of a router that laying an edit keeps. *)
Definition same_declared (r r' : TierRouter) : Prop :=
  declared_tiers r' = declared_tiers r ∧ declared_intents r' = declared_intents r ∧
  declared_localities r' = declared_localities r ∧ intent_tier_priors r' = intent_tier_priors r.

#[export] Instance same_declared_preorder : PreOrder same_declared.
Proof. split; [done|]. intros r1 r2 r3 (?&?&?&?) (?&?&?&?). unfold same_declared. split_and!; congruence. Qed.

(** What one row does to tier [n] and to intent [i]. *)
Definition row_fields (fl : Floats) (kv : string * pyval) (n : string) : list FieldEdit :=
  if String.eqb kv.1 (tier_key n) then value_fields fl kv.2 else [].
Definition row_home (known : gset string) (kv : string * pyval) (i home : string) : string :=
  if String.eqb kv.1 (intent_key i) then value_home known kv.2 home else home.

(** A router whose tiers are [f]'s edits of [r]'s and whose intents [h] moved. *)
Record laid_over (r : TierRouter) (f : string → list FieldEdit) (h : string → string → string)
    (r' : TierRouter) : Prop := {
  lo_declared : same_declared r r';
  lo_tiers : ∀ n, option_Forall2 same_tier (tiers r' !! n) (edit_fields (f n) <$> tiers r !! n);
  lo_intents : ∀ i, intent_to_tier r' !! i = h i <$> intent_to_tier r !! i;
}.

Lemma laid_over_dom r f h r' : laid_over r f h r' → dom (tiers r') = dom (tiers r).
Proof.
  intros [_ Ht _]. apply set_eq. intros n. rewrite !elem_of_dom. specialize (Ht n).
  destruct (tiers r !! n); inversion Ht; subst; [|done]. split; by eexists.
Qed.

Lemma laid_over_id r : laid_over r (λ _, []) (λ _ x, x) r.
Proof.
  split; [done| |]; [intros n; by destruct (tiers r !! n); constructor|].
  intros i. by destruct (intent_to_tier r !! i).
Qed.

Lemma laid_over_trans r f h r1 f' h' r2 :
  laid_over r f h r1 → laid_over r1 f' h' r2 →
  laid_over r (λ n, f n ++ f' n) (λ i x, h' i (h i x)) r2.
Proof.
  intros [Hd Ht Hi] [Hd' Ht' Hi']. split; [by etrans| |].
  - intros n. etrans; [apply Ht'|]. specialize (Ht n).
    destruct (tiers r !! n) as [t|]; inversion Ht as [t1 ? Hs|]; subst; [|constructor].
    constructor. rewrite edit_fields_app. by rewrite Hs.
  - intros i. rewrite Hi', Hi. by destruct (intent_to_tier r !! i).
Qed.

Lemma laid_over_ext r f h r' f' h' :
  (∀ n, f n = f' n) → (∀ i x, h i x = h' i x) → laid_over r f h r' → laid_over r f' h' r'.
Proof.
  intros Hf Hh [Hd Ht Hi]. split; [done| |].
  - intros n. rewrite <- Hf. apply Ht.
  - intros i. rewrite Hi. destruct (intent_to_tier r !! i); [|done]. cbn. by rewrite Hh.
Qed.

(** An intent's row moves it when its tier exists. *)
Lemma intent_row_lays fl i v r :
  laid_over r (λ _, []) (λ i' x, if String.eqb i i' then value_home (dom (tiers r)) v x else x)
    (apply_one fl (intent_key i, v) r).
Proof.
  rewrite apply_intent_row.
  assert ((∀ x, intent_to_tier r !! i = Some x → value_home (dom (tiers r)) v x = x) →
          laid_over r (λ _, []) (λ i' x, if String.eqb i i' then value_home (dom (tiers r)) v x else x) r) as Hid.
  { intros Hv. destruct (laid_over_id r) as [? ? _]. split; try done. intros i'.
    destruct (intent_to_tier r !! i') as [x|] eqn:Hx; [|done]. cbn.
    destruct (String.eqb_spec i i') as [<-|]; [|done]. by rewrite Hv. }
  destruct v as [| | | |t| | |]; try by apply Hid.
  destruct (move i t r) as [r'|] eqn:Hm.
  - apply move_ok in Hm as (Ht & [x Hx] & Hs & Hi & Hp & Hd1 & Hd2 & Hd3). split; [done| |].
    + intros n. specialize (Hs n). by destruct (tiers r !! n).
    + intros i'. rewrite Hi. cbn [value_home]. rewrite bool_decide_true by (by apply elem_of_dom).
      destruct (String.eqb_spec i i') as [<-|]; [by rewrite lookup_insert_eq, Hx|].
      rewrite lookup_insert_ne by done. by destruct (intent_to_tier r !! i').
  - apply Hid. intros x Hx. cbn [value_home]. case_bool_decide as Ht; [|done].
    apply elem_of_dom in Ht. destruct (move_defined i t r) as [r' Hr']; [done|by eexists|congruence].
Qed.

Lemma tier_row_lays fl n v r :
  laid_over r (λ n', if String.eqb n n' then value_fields fl v else []) (λ _ x, x)
    (apply_one fl (tier_key n, v) r).
Proof.
  rewrite apply_tier_row. split; [done| |].
  - intros n'. cbn. destruct (String.eqb_spec n n') as [<-|Hn].
    + rewrite lookup_alter_eq. by destruct (tiers r !! n); constructor.
    + rewrite lookup_alter_ne by done. by destruct (tiers r !! n'); constructor.
  - intros i. cbn. by destruct (intent_to_tier r !! i).
Qed.

Lemma apply_one_lays fl kv r :
  kv.1 ≠ "tier" → kv.1 ≠ "intent" →
  laid_over r (row_fields fl kv) (row_home (dom (tiers r)) kv) (apply_one fl kv r).
Proof.
  destruct kv as [key v]. cbn [fst]. intros H1 H2. unfold row_fields, row_home. cbn [fst snd].
  destruct (kind_of_row key) as [n|i|key Hn Hi].
  - eapply laid_over_ext; [| |apply tier_row_lays]; [|done]. intros n'. cbn beta.
    destruct (String.eqb_spec n n') as [<-|Hn]; [by rewrite String.eqb_refl|].
    destruct (String.eqb_spec (tier_key n) (tier_key n')) as [?%tier_key_inj|]; done.
  - eapply laid_over_ext; [| |apply intent_row_lays]; [done|]. intros i' x. cbn beta.
    destruct (String.eqb_spec i i') as [<-|Hi]; [by rewrite String.eqb_refl|].
    destruct (String.eqb_spec (intent_key i) (intent_key i')) as [?%intent_key_inj|]; done.
  - rewrite apply_other_row by done. eapply laid_over_ext; [| |apply laid_over_id].
    + intros n. destruct (String.eqb_spec key (tier_key n)); [by destruct (Hn n)|done].
    + intros i x. destruct (String.eqb_spec key (intent_key i)); [by destruct (Hi i)|done].
Qed.

(** *** Every row *)

(** What the overrides say of a tier and of an intent. *)
Definition saved_fields (fl : Floats) (o : gmap string pyval) (n : string) : list FieldEdit :=
  match o !! tier_key n with Some v => value_fields fl v | None => [] end.
Definition saved_home (known : gset string) (o : gmap string pyval) (i home : string) : string :=
  match o !! intent_key i with Some v => value_home known v home | None => home end.

Lemma rows_at {A} (f : pyval → A → A) key (l : list (string * pyval)) x :
  NoDup l.*1 →
  fold_left (λ y kv, if String.eqb kv.1 key then f kv.2 y else y) l x
  = match list_to_map (M := gmap string pyval) l !! key with Some v => f v x | None => x end.
Proof.
  revert x. induction l as [|[k v] l IH]; intros x; [done|]. cbn [fmap list_fmap fst snd fold_left list_to_map foldr].
  intros [Hk Hd]%NoDup_cons. rewrite IH by done.
  destruct (String.eqb_spec k key) as [->|Hne].
  - rewrite lookup_insert_eq. by rewrite (proj1 (not_elem_of_list_to_map _ _) Hk).
  - by rewrite lookup_insert_ne.
Qed.

Lemma rows_lay fl l r :
  Forall (λ kv, kv.1 ≠ "tier" ∧ kv.1 ≠ "intent") l →
  laid_over r (λ n, fold_left (λ es kv, es ++ row_fields fl kv n) l [])
    (λ i x, fold_left (λ h kv, row_home (dom (tiers r)) kv i h) l x)
    (fold_left (λ r kv, apply_one fl kv r) l r).
Proof.
  induction l as [|kv l IH] using rev_ind; [intros _; apply laid_over_id|].
  intros [Hl Hkv]%Forall_app. apply Forall_singleton in Hkv as [H1 H2].
  specialize (IH Hl). rewrite fold_left_app. cbn [fold_left].
  pose proof (apply_one_lays fl kv (fold_left (λ r kv, apply_one fl kv r) l r) H1 H2) as Ho.
  rewrite (laid_over_dom _ _ _ _ IH) in Ho.
  eapply laid_over_ext; [| |exact (laid_over_trans _ _ _ _ _ _ _ IH Ho)].
  - intros n. cbn beta. by rewrite fold_left_app.
  - intros i x. cbn beta. by rewrite fold_left_app.
Qed.

(** [apply_saved] edits each tier by its own row and moves each intent by its own. *)
Lemma apply_saved_spec fl st r :
  overrides st !! "tier" = None → overrides st !! "intent" = None →
  laid_over r (saved_fields fl (overrides st)) (saved_home (dom (tiers r)) (overrides st))
    (apply_saved fl (Ok st) r).
Proof.
  intros H1 H2. destruct (list_to_map_sort_kv (overrides st)) as [Hd Hm].
  unfold apply_saved. fold (settings_section st) in *.
  eapply laid_over_ext; [| |apply rows_lay].
  - intros n. cbn beta. unfold saved_fields. rewrite <- Hm.
    transitivity (fold_left (λ es kv, if String.eqb kv.1 (tier_key n) then es ++ value_fields fl kv.2 else es)
                    (settings_section st) []).
    { generalize (settings_section st) ([] : list FieldEdit). clear. intros l.
      induction l as [|kv l IH]; intros es; [done|]. cbn [fold_left]. rewrite IH. f_equal. unfold row_fields.
      destruct (String.eqb kv.1 (tier_key n)); [done|by rewrite app_nil_r]. }
    by rewrite (rows_at (λ v es, es ++ value_fields fl v)) by done.
  - intros i x. cbn beta. unfold saved_home, row_home. rewrite <- Hm.
    by rewrite (rows_at (value_home (dom (tiers r)))) by done.
  - apply Forall_forall. intros [k v] Hk. cbn [fst].
    assert (overrides st !! k = Some v) as Hkv.
    { rewrite <- Hm. by apply elem_of_list_to_map_1. }
    split; congruence.
Qed.

(** ** Edits as steps *)

(** The six fields of a tier as edits, the ones that differ from the file's among them. *)
Definition fields_of (t : TierConfig) : list FieldEdit :=
  [EProvider (provider t); EModel (model t); EMaxTokens (max_tokens t); ETemperature (temperature t);
   ETimeout (timeout_seconds t); EThink (think t)].

(** Two edits of one field with equal values. *)
Definition same_edit (e e' : FieldEdit) : bool :=
  match e, e' with
  | EProvider p, EProvider p' => String.eqb p p'
  | EModel m, EModel m' => String.eqb m m'
  | EMaxTokens z, EMaxTokens z' => (z =? z')%Z
  | ETemperature x, ETemperature x' => float_eqb x x'
  | ETimeout z, ETimeout z' => (z =? z')%Z
  | EThink o, EThink o' => bool_decide (o = o')
  | _, _ => false
  end.

Definition differing (t d : TierConfig) : list FieldEdit :=
  concat (zip_with (λ e e', if same_edit e e' then [] else [e]) (fields_of t) (fields_of d)).

Lemma field_diff_differing t d : field_diff t d = map field_kv (differing t d).
Proof.
  unfold field_diff, differing, fields_of, when_field. cbn [zip_with concat same_edit].
  repeat (match goal with |- context [if negb ?b then _ else _] => destruct b end; cbn [negb app map]);
    done.
Qed.

(** Each field of [t] has the file's value or one that validates. *)
Definition settled (fl : Floats) (t d : TierConfig) : Prop :=
  Forall2 (λ e e', same_edit e e' = true ∨ valid_edit fl e) (fields_of t) (fields_of d).

Lemma settled_refl fl t : settled fl t t.
Proof.
  repeat constructor; cbn [same_edit];
    rewrite ?String.eqb_refl, ?Z.eqb_refl, ?float_eqb_refl, ?bool_decide_true by done; done.
Qed.

Lemma settled_edit fl e t d : settled fl t d → valid_edit fl e → settled fl (edit_tier e t) d.
Proof.
  unfold settled, fields_of. intros H He.
  repeat match goal with H : Forall2 _ (_ :: _) (_ :: _) |- _ => apply Forall2_cons in H as [? H] end.
  destruct e; cbn; repeat (apply Forall2_cons; split); auto.
Qed.

Lemma settled_edits fl es t d : settled fl t d → Forall (valid_edit fl) es → settled fl (edit_fields es t) d.
Proof.
  intros Ht He. revert t Ht. induction He as [|e es He _ IH]; intros t Ht; [done|]. cbn.
  apply IH. by apply settled_edit.
Qed.


Lemma differing_valid fl t d : settled fl t d → Forall (valid_edit fl) (differing t d).
Proof.
  unfold settled, differing. induction 1 as [|e e' l l' He _ IH]; [constructor|]. cbn [zip_with concat].
  apply Forall_app. split; [|done]. destruct (same_edit e e'); [constructor|].
  destruct He as [|He]; [done|]. by constructor.
Qed.

(** The fields that differ, laid over the file's tier, give the live one. *)
Definition same_rest (t d : TierConfig) : Prop :=
  tc_name t = tc_name d ∧ num_ctx t = num_ctx d ∧ keep_alive t = keep_alive d ∧
  num_thread t = num_thread d ∧ pinned t = pinned d.



Lemma differing_laid t d : same_rest t d → same_tier (edit_fields (differing t d) d) t.
Proof.
  intros (H1&H2&H3&H4&H5). unfold differing, fields_of. cbn [zip_with concat same_edit].
  destruct (String.eqb_spec (provider t) (provider d)) as [Ep|Ep],
    (String.eqb_spec (model t) (model d)) as [Em|Em],
    (Z.eqb_spec (max_tokens t) (max_tokens d)) as [Et|Et],
    (Z.eqb_spec (timeout_seconds t) (timeout_seconds d)) as [Es|Es],
    (bool_decide_reflect (think t = think d)) as [Eh|Eh],
    (float_eqb (temperature t) (temperature d)) eqn:Ex;
  split; cbn; rewrite ?float_eqb_refl; try done;
  by rewrite float_eqb_sym.
Qed.

Definition row_of_diff (diff : list (string * pyval)) : option pyval :=
  match diff with [] => None | _ => Some (VDict diff) end.

(** What an edit does to the router and the overrides. *)
Inductive step (fl : Floats) : Live → Live → Prop :=
| step_tier n d t es r st st' :
    declared_tiers r !! n = Some d → tiers r !! n = Some t → Forall (valid_edit fl) es →
    overrides st' = partial_alter (λ _, row_of_diff (field_diff (edit_fields es t) d)) (tier_key n) (overrides st) →
    step fl (r, st) (with_tiers (<[n := edit_fields es t]> (tiers r)) r, st')
| step_move i n r r' st st' :
    move i n r = Ok r' →
    overrides st' = partial_alter (λ _, if decide (declared_intents r !! i = Some n) then None else Some (VStr n))
                      (intent_key i) (overrides st) →
    step fl (r, st) (r', st')
| step_record v r st st' :
    overrides st' = <[MODEL_SET_KEY := v]> (overrides st) → step fl (r, st) (r, st')
| step_priors p r st : step fl (r, st) (set_intent_tier_priors p r, st).

(** The edits the owner and the doctor make, and the learned priors. *)
Inductive Edit :=
| edit_update (n : string) (fields_ : list (string * pyval)) (actor : string) (now : Z)
| edit_reset (n actor : string) (now : Z)
| edit_move (intent n actor : string) (now : Z)
| edit_reset_intent (intent actor : string) (now : Z)
| edit_model_set (name : string) (set_ : list (string * list (string * pyval))) (forced : bool)
    (actor : string) (now : Z)
| edit_priors (p : gmap string string).

Definition run_edit (fl : Floats) (e : Edit) (s : Live) : Live :=
  match e with
  | edit_update n d actor now => (update_tier fl n d actor now s).2
  | edit_reset n actor now => (reset_tier fl n actor now s).2
  | edit_move i n actor now => (move_intent i n actor now s).2
  | edit_reset_intent i actor now => (reset_intent i actor now s).2
  | edit_model_set name d forced actor now => (apply_model_set fl name d forced actor now s).2
  | edit_priors p => (set_intent_tier_priors p s.1, s.2)
  end.

(** Edits one after the other, the ones that raise among them. *)
Definition run_edits (fl : Floats) (es : list Edit) (s : Live) : Live :=
  fold_left (λ s e, run_edit fl e s) es s.

Section steps.
Context (fl : Floats).

Lemma update_tier_steps n d actor now s : rtc (step fl) s (update_tier fl n d actor now s).2.
Proof.
  destruct s as [r st]. unfold update_tier.
  destruct (declared_tiers r !! n) as [t0|] eqn:Hd; [|done].
  destruct (tiers r !! n) as [t|] eqn:Ht; [|done].
  destruct (validate_fields fl d) as [es|] eqn:He; [|done]. cbv zeta.
  destruct (same_fieldsb _ _); [done|]. cbn [snd]. apply rtc_once.
  apply (step_tier fl n t0 t es r st); [done..|by eapply validate_fields_valid|].
  destruct (field_diff _ _) as [|kv l]; done.
Qed.

Lemma reset_tier_steps n actor now s : rtc (step fl) s (reset_tier fl n actor now s).2.
Proof. unfold reset_tier. destruct (declared_tiers s.1 !! n); [apply update_tier_steps|done]. Qed.

Lemma edit_declared_steps actor now ne s : rtc (step fl) s (edit_declared fl actor now ne s).2.
Proof. unfold edit_declared. destruct (declared_tiers s.1 !! ne.1); [apply update_tier_steps|done]. Qed.

Lemma move_intent_steps i n actor now s : rtc (step fl) s (move_intent i n actor now s).2.
Proof.
  destruct s as [r st]. unfold move_intent.
  destruct (intent_to_tier r !! i) as [cur|] eqn:Hi; [|done].
  case_bool_decide as Hn; cbn [negb]; [|done]. destruct (String.eqb n cur); [done|]. cbv zeta.
  destruct (move_defined i n r Hn) as [r' Hr']; [by eexists|]. rewrite Hr'. cbn [snd]. apply rtc_once.
  apply (step_move fl i n); [done|]. case_bool_decide as Hd; by destruct (decide _).
Qed.

Lemma bind_steps {A B} (m : M Live A) (k : A → M Live B) s :
  (∀ s, rtc (step fl) s (m s).2) → (∀ a s, rtc (step fl) s (k a s).2) →
  rtc (step fl) s ((m ≫= k) s).2.
Proof.
  intros Hm Hk. unfold mbind, M_bind. specialize (Hm s). destruct (m s) as [[a|e] s']; [|done].
  etrans; [exact Hm|apply Hk].
Qed.

Lemma edit_each_steps {A} (f : A → M Live TierConfig) l s :
  (∀ a s, rtc (step fl) s (f a s).2) → rtc (step fl) s (edit_each f l s).2.
Proof.
  intros Hf. revert s. induction l as [|a l IH]; intros s; [done|]. cbn [edit_each fold_right].
  apply bind_steps; [apply Hf|]. intros _. exact IH.
Qed.

Lemma apply_model_set_steps name d forced actor now s :
  rtc (step fl) s (apply_model_set fl name d forced actor now s).2.
Proof.
  unfold apply_model_set. destruct (validate_set fl d) as [v|]; [|done].
  destruct (List.find _ v); [done|]. cbv zeta.
  apply bind_steps; [intros s1; apply edit_each_steps; intros; apply reset_tier_steps|]. intros _ s1.
  apply bind_steps; [intros s2; apply edit_each_steps; intros; apply edit_declared_steps|]. intros _ s2.
  apply bind_steps; [|done]. intros [r st]. apply rtc_once. by eapply step_record.
Qed.

(** Every edit, raised or not, is a run of steps. *)
Lemma run_edits_steps es s : rtc (step fl) s (run_edits fl es s).
Proof.
  unfold run_edits. revert s. induction es as [|e es IH]; intros s; [done|]. cbn [fold_left].
  etrans; [|apply IH]. destruct e; cbn [run_edit].
  - apply update_tier_steps.
  - apply reset_tier_steps.
  - apply move_intent_steps.
  - unfold reset_intent. destruct (declared_intents s.1 !! intent); [apply move_intent_steps|done].
  - apply apply_model_set_steps.
  - destruct s as [r st]. apply rtc_once, step_priors.
Qed.
End steps.

(** ** The live router is what its overrides say *)

Record in_step (fl : Floats) (s : Live) : Prop := {
  is_rows : overrides s.2 !! "tier" = None ∧ overrides s.2 !! "intent" = None;
  is_tiers : ∀ n, option_Forall2 same_tier (tiers s.1 !! n)
                    (edit_fields (saved_fields fl (overrides s.2) n) <$> declared_tiers s.1 !! n);
  is_settled : ∀ n t d, tiers s.1 !! n = Some t → declared_tiers s.1 !! n = Some d →
                 settled fl t d ∧ same_rest t d;
  is_intents : ∀ i, intent_to_tier s.1 !! i =
                 saved_home (dom (tiers s.1)) (overrides s.2) i <$> declared_intents s.1 !! i;
}.

Lemma row_of_diff_fields fl t d :
  settled fl t d →
  match row_of_diff (field_diff t d) with Some v => value_fields fl v | None => [] end = differing t d.
Proof.
  intros Hs. rewrite field_diff_differing. pose proof (validate_fields_kv fl _ (differing_valid _ _ _ Hs)) as Hv.
  destruct (differing t d) as [|e l]; [done|]. unfold row_of_diff. cbn [map value_fields] in *. by rewrite Hv.
Qed.

Lemma move_tiers intent n r r' :
  move intent n r = Ok r' → ∀ k t', tiers r' !! k = Some t' → ∃ l t, tiers r !! k = Some t ∧ t' = set_use_for l t.
Proof.
  unfold move. case_bool_decide; cbn [negb]; [|done].
  destruct (intent_to_tier r !! intent) as [old|]; [|done]. cbv zeta. intros [= <-] k t'. cbn.
  assert (∀ f k' (m : gmap string TierConfig) u', (∀ t, ∃ l, f t = set_use_for l t) → alter f k' m !! k = Some u' →
            ∃ l u, m !! k = Some u ∧ u' = set_use_for l u) as Hf.
  { intros f k' m u' Hf Hu. destruct (decide (k = k')) as [->|Hk].
    - rewrite lookup_alter_eq in Hu. apply fmap_Some in Hu as (u & Hu & ->). destruct (Hf u) as [l Hl]. by exists l, u.
    - rewrite lookup_alter_ne in Hu by done. exists (use_for u'), u'. by destruct u'. }
  intros (l & u & Hu & ->)%Hf.
  - destruct (String.eqb old n); [by exists l, u|].
    apply Hf in Hu as (l' & t & Ht & ->); [by exists l, t|]. intros t. by eexists.
  - intros t. unfold add_tag. destruct (str_in intent (use_for t)); [exists (use_for t); by destruct t|by eexists].
Qed.

Lemma saved_fields_ne fl o key f n : key ≠ tier_key n →
  saved_fields fl (partial_alter f key o) n = saved_fields fl o n.
Proof. intros Hn. unfold saved_fields. by rewrite lookup_partial_alter_ne. Qed.

Lemma saved_home_ne known o key f i home : key ≠ intent_key i →
  saved_home known (partial_alter f key o) i home = saved_home known o i home.
Proof. intros Hn. unfold saved_home. by rewrite lookup_partial_alter_ne. Qed.

Lemma same_rest_edit e t d : same_rest t d → same_rest (edit_tier e t) d.
Proof. done. Qed.

Lemma same_rest_edits es t d : same_rest t d → same_rest (edit_fields es t) d.
Proof. revert t. induction es as [|e es IH]; intros t Ht; [done|]. by apply IH, same_rest_edit. Qed.

Lemma in_step_tier fl n d t es r st st' :
  in_step fl (r, st) → declared_tiers r !! n = Some d → tiers r !! n = Some t → Forall (valid_edit fl) es →
  overrides st' = partial_alter (λ _, row_of_diff (field_diff (edit_fields es t) d)) (tier_key n) (overrides st) →
  in_step fl (with_tiers (<[n := edit_fields es t]> (tiers r)) r, st').
Proof.
  intros [[H1 H2] Ht Hs Hi] Hd Hn He Ho. cbn [fst snd] in *.
  destruct (Hs _ _ _ Hn Hd) as [Hset Hrest].
  apply (settled_edits fl es) in Hset; [|done]. apply (same_rest_edits es) in Hrest.
  assert (dom (<[n := edit_fields es t]> (tiers r)) = dom (tiers r)) as Hdom.
  { rewrite dom_insert_L. apply elem_of_dom_2 in Hn. set_solver. }
  split; cbn [fst snd].
  - by rewrite Ho, !lookup_partial_alter_ne.
  - intros n'. cbn. rewrite Ho. destruct (decide (n' = n)) as [->|Hne].
    + rewrite lookup_insert_eq, Hd. constructor. unfold saved_fields. rewrite lookup_partial_alter_eq.
      rewrite row_of_diff_fields by done. symmetry. by apply differing_laid.
    + rewrite lookup_insert_ne by done. rewrite saved_fields_ne; [apply Ht|]. by intros ?%tier_key_inj.
  - intros n' t' d'. cbn. destruct (decide (n' = n)) as [->|Hne].
    + rewrite lookup_insert_eq, Hd. by intros [= <-] [= <-].
    + rewrite lookup_insert_ne by done. apply Hs.
  - intros i. cbn. rewrite Ho, Hdom, Hi. destruct (declared_intents r !! i); [|done]. cbn.
    by rewrite saved_home_ne.
Qed.

Lemma in_step_move fl i n r r' st st' :
  in_step fl (r, st) → move i n r = Ok r' →
  overrides st' = partial_alter (λ _, if decide (declared_intents r !! i = Some n) then None else Some (VStr n))
                    (intent_key i) (overrides st) →
  in_step fl (r', st').
Proof.
  intros [[H1 H2] Ht Hs Hi] Hm Ho. cbn [fst snd] in *. pose proof (move_tiers _ _ _ _ Hm) as Hmt.
  apply move_ok in Hm as (Hn & [cur Hcur] & Hsame & Hint & _ & Hd & Hdi & _).
  split; cbn [fst snd].
  - by rewrite Ho, !lookup_partial_alter_ne.
  - intros n'. etrans; [apply Hsame|]. rewrite Ho, Hd, saved_fields_ne by done. apply Ht.
  - intros n' t' d'. rewrite Hd. intros (l & t & Hl & ->)%Hmt Hd'. exact (Hs n' t d' Hl Hd').
  - intros i'. rewrite Hint, Hdi, Ho, (same_tiers_dom _ _ Hsame).
    destruct (decide (i' = i)) as [->|Hne].
    + rewrite lookup_insert_eq. rewrite Hi in Hcur. destruct (declared_intents r !! i) as [h|]; [|done]. cbn.
      unfold saved_home. rewrite lookup_partial_alter_eq. destruct (decide (Some h = Some n)) as [[= ->]|]; [done|].
      cbn [value_home]. rewrite bool_decide_true by (by apply elem_of_dom). done.
    + rewrite lookup_insert_ne by done. rewrite Hi. destruct (declared_intents r !! i'); [|done]. cbn.
      rewrite saved_home_ne; [done|]. by intros ?%intent_key_inj.
Qed.

Lemma in_step_record fl v r st st' :
  in_step fl (r, st) → overrides st' = <[MODEL_SET_KEY := v]> (overrides st) → in_step fl (r, st').
Proof.
  intros [[H1 H2] Ht Hs Hi] Ho. cbn [fst snd] in *. split; cbn [fst snd].
  - by rewrite Ho, !lookup_insert_ne.
  - intros n. rewrite Ho. unfold insert, map_insert. by rewrite saved_fields_ne.
  - exact Hs.
  - intros i. rewrite Hi, Ho. destruct (declared_intents r !! i); [|done]. cbn.
    unfold insert, map_insert. by rewrite saved_home_ne.
Qed.

Lemma step_in_step fl s s' : step fl s s' → in_step fl s → in_step fl s'.
Proof.
  intros [n d t es r st st' Hd Ht He Ho|i n r r' st st' Hm Ho|v r st st' Ho|p r st] Hs.
  - by eapply in_step_tier.
  - by eapply in_step_move.
  - by eapply in_step_record.
  - destruct Hs as [? ? ? ?]. by split.
Qed.

Lemma step_declared fl s s' : step fl s s' →
  declared_tiers s'.1 = declared_tiers s.1 ∧ declared_intents s'.1 = declared_intents s.1 ∧
  declared_localities s'.1 = declared_localities s.1.
Proof. intros []; cbn; try done. by apply move_ok in H as (_&_&_&_&_&?&?&?). Qed.

Lemma steps_in_step fl s s' : rtc (step fl) s s' → in_step fl s →
  in_step fl s' ∧ declared_tiers s'.1 = declared_tiers s.1 ∧ declared_intents s'.1 = declared_intents s.1.
Proof.
  induction 1 as [s|s1 s2 s3 H12 _ IH]; intros Hs; [done|].
  destruct IH as (H & Hd & Hi); [by eapply step_in_step|]. apply step_declared in H12 as (H1 & H2 & _).
  by rewrite Hd, Hi, H1, H2.
Qed.


(** A saved row edits a tier, moves an intent, or does nothing. *)
Lemma apply_one_cases fl kv r :
  apply_one fl kv r = r ∨
  (∃ n t es, tiers r !! n = Some t ∧ Forall (valid_edit fl) es ∧
     apply_one fl kv r = with_tiers (<[n := edit_fields es t]> (tiers r)) r) ∨
  (∃ i n, move i n r = Ok (apply_one fl kv r)).
Proof.
  destruct kv as [key v]. unfold apply_one. cbn [fst snd]. destruct (partition_colon key) as [kind n].
  destruct v as [| | | |t| |d|]; try by left.
  - destruct (String.eqb kind "intent"); [|by left]. destruct (move n t r) as [r'|] eqn:Hm; [|by left].
    right; right. by exists n, t.
  - destruct (String.eqb kind "tier"); [|by left].
    destruct (validate_fields fl d) as [es|] eqn:He; [|by left]. cbn [res_bind].
    destruct (set_tier n es r) as [r'|] eqn:Hs; [|by left].
    unfold set_tier in Hs. destruct (tiers r !! n) as [t|] eqn:Ht; [|done]. injection Hs as <-.
    right; left. exists n, t, es. split_and!; [done|by eapply validate_fields_valid|done].
Qed.

(** So what holds of the file's router and is kept by both holds of the loaded one. *)
Lemma apply_saved_ind fl saved (P : TierRouter → Prop) r :
  (∀ r n t es, P r → tiers r !! n = Some t → Forall (valid_edit fl) es →
     P (with_tiers (<[n := edit_fields es t]> (tiers r)) r)) →
  (∀ r i n r', P r → move i n r = Ok r' → P r') →
  P r → P (apply_saved fl saved r).
Proof.
  intros Ht Hm. destruct saved as [st|]; [|done]. unfold apply_saved. generalize (settings_section st) as l.
  intros l. revert r. induction l as [|kv l IH]; intros r Hr; [done|]. cbn [fold_left]. apply IH.
  destruct (apply_one_cases fl kv r) as [->|[(n & t & es & Hn & He & ->)|(i & n & Hi)]]; eauto.
Qed.

Definition all_settled (fl : Floats) (r : TierRouter) : Prop :=
  ∀ n t d, tiers r !! n = Some t → declared_tiers r !! n = Some d → settled fl t d ∧ same_rest t d.

Lemma apply_saved_settled fl saved r : all_settled fl r → all_settled fl (apply_saved fl saved r).
Proof.
  apply apply_saved_ind; clear r.
  - intros r n t es Hr Ht He n' t' d. cbn. destruct (decide (n' = n)) as [->|Hne].
    + rewrite lookup_insert_eq. intros [= <-] Hd. destruct (Hr _ _ _ Ht Hd).
      split; [by apply settled_edits|by apply same_rest_edits].
    + rewrite lookup_insert_ne by done. apply Hr.
  - intros r i n r' Hr Hm n' t' d Ht' Hd. apply (move_tiers _ _ _ _ Hm) in Ht' as (l & t & Ht & ->).
    apply move_ok in Hm as (_ & _ & _ & _ & _ & Hdt & _). rewrite Hdt in Hd. exact (Hr _ _ _ Ht Hd).
Qed.

(** A freshly loaded router is in step with the store it was loaded over. *)
Lemma loaded_in_step fl st b :
  overrides st !! "tier" = None → overrides st !! "intent" = None →
  tiers b = declared_tiers b → intent_to_tier b = declared_intents b →
  in_step fl (apply_saved fl (Ok st) b, st) ∧ same_declared b (apply_saved fl (Ok st) b).
Proof.
  intros H1 H2 Ht Hi. pose proof (apply_saved_spec fl st b H1 H2) as Hl.
  pose proof (laid_over_dom _ _ _ _ Hl) as Hdom. destruct Hl as [Hd Hlt Hli].
  split; [|done]. pose proof Hd as (Hd1 & Hd2 & _ & _). split; cbn [fst snd].
  - done.
  - intros n. rewrite Hd1, <- Ht. apply Hlt.
  - apply apply_saved_settled. intros n t d Hn Hdn. rewrite <- Ht, Hn in Hdn. injection Hdn as <-.
    split; [apply settled_refl|done].
  - intros i. by rewrite Hd2, <- Hi, Hdom.
Qed.

Lemma force_nothing shipped r : force_provider shipped "" r = Ok r.
Proof. done. Qed.

(** ** The tags of the tiers

    When every tag is listed by the one tier its intent goes to, it stays so, and the intents
    say what each [use_for] holds. *)

Definition tags_follow (ts : gmap string TierConfig) (intents : gmap string string) : Prop :=
  map_Forall (λ n t, Forall (λ i, intents !! i = Some n) (use_for t)) ts ∧
  map_Forall (λ i n, match ts !! n with Some t => i ∈ use_for t | None => False end) intents.

#[export] Instance tags_follow_dec ts intents : Decision (tags_follow ts intents).
Proof.
  apply and_dec; apply map_Forall_dec; [intros n t; apply Forall_dec|intros i n; destruct (ts !! n)]; apply _.
Defined.

Lemma tags_follow_iff ts intents :
  tags_follow ts intents ↔
  (∀ n t i, ts !! n = Some t → i ∈ use_for t → intents !! i = Some n) ∧
  (∀ i n, intents !! i = Some n → ∃ t, ts !! n = Some t ∧ i ∈ use_for t).
Proof.
  unfold tags_follow. split; intros [H1 H2]; split.
  - intros n t i Ht Hi. specialize (H1 n t Ht). simpl in H1. rewrite Forall_forall in H1. by apply H1.
  - intros i n Hi. specialize (H2 i n Hi). simpl in H2. destruct (ts !! n) as [t|]; [|done]. by exists t.
  - intros n t Ht. apply Forall_forall. intros i Hi. by eapply H1.
  - intros i n Hi. simpl. destruct (H2 i n Hi) as (t & -> & ?). done.
Qed.

Lemma use_for_edits es t : use_for (edit_fields es t) = use_for t.
Proof. revert t. induction es as [|e es IH]; intros t; [done|]. cbn. unfold edit_fields in IH. rewrite IH. by destruct e. Qed.

Lemma tags_follow_tier n t es ts intents :
  ts !! n = Some t → tags_follow ts intents → tags_follow (<[n := edit_fields es t]> ts) intents.
Proof.
  rewrite !tags_follow_iff. intros Hn [H1 H2]. split.
  - intros n' t' i. destruct (decide (n' = n)) as [->|Hne].
    + rewrite lookup_insert_eq. intros [= <-]. rewrite use_for_edits. by eapply H1.
    + rewrite lookup_insert_ne by done. apply H1.
  - intros i n' (t' & Ht' & Hi)%H2. destruct (decide (n' = n)) as [->|Hne].
    + eexists. rewrite lookup_insert_eq. split; [done|]. rewrite use_for_edits. by simplify_eq.
    + exists t'. by rewrite lookup_insert_ne.
Qed.

Lemma elem_of_add_tag i j t : i ∈ use_for (add_tag j t) ↔ i ∈ use_for t ∨ i = j.
Proof.
  unfold add_tag. destruct (str_in j (use_for t)) eqn:Hj; cbn.
  - apply str_in_elem in Hj. split; [by left|]. by intros [?| ->].
  - by rewrite elem_of_app, list_elem_of_singleton.
Qed.

Lemma elem_of_drop_tag i j t : i ∈ use_for (drop_tag j t) ↔ i ∈ use_for t ∧ i ≠ j.
Proof.
  unfold drop_tag. cbn. rewrite elem_of_select_where, negb_true_iff, String.eqb_neq. done.
Qed.

Lemma tags_follow_move i n r r' :
  move i n r = Ok r' → tags_follow (tiers r) (intent_to_tier r) → tags_follow (tiers r') (intent_to_tier r').
Proof.
  unfold move. case_bool_decide as Hn; cbn [negb]; [|done].
  destruct (intent_to_tier r !! i) as [old|] eqn:Ho; [|done]. cbv zeta. intros [= <-]. cbn.
  rewrite !tags_follow_iff. intros [H1 H2]. destruct Hn as [tn Hn].
  set (left := if String.eqb old n then tiers r else alter (drop_tag i) old (tiers r)).
  assert (∀ m t j, left !! m = Some t → j ∈ use_for t →
            (j = i ∧ m = n) ∨ (j ≠ i ∧ intent_to_tier r !! j = Some m)) as Hl.
  { intros m t j. unfold left. destruct (String.eqb_spec old n) as [->|Hon].
    - intros Ht Hj. destruct (decide (j = i)) as [->|]; [left|right; by eauto]. split; [done|].
      pose proof (H1 _ _ _ Ht Hj). congruence.
    - destruct (decide (m = old)) as [->|Hm].
      + rewrite lookup_alter_eq. intros (t0 & Ht0 & ->)%fmap_Some [Hj Hji]%elem_of_drop_tag. right. by eauto.
      + rewrite lookup_alter_ne by done. intros Ht Hj. right. pose proof (H1 _ _ _ Ht Hj) as Hjm.
        split; [|done]. intros ->. congruence. }
  assert (∀ m t j, tiers r !! m = Some t → j ∈ use_for t → j ≠ i → ∃ t', left !! m = Some t' ∧ j ∈ use_for t') as Hk.
  { intros m t j Ht Hj Hji. unfold left. destruct (String.eqb old n); [by exists t|].
    destruct (decide (m = old)) as [->|Hm]; [|exists t; by rewrite lookup_alter_ne].
    rewrite lookup_alter_eq, Ht. eexists. split; [done|]. by apply elem_of_drop_tag. }
  split.
  - intros m t j. destruct (decide (m = n)) as [->|Hm].
    + rewrite lookup_alter_eq. intros (t0 & Ht0 & ->)%fmap_Some [Hj| ->]%elem_of_add_tag; [|by rewrite lookup_insert_eq].
      destruct (Hl _ _ _ Ht0 Hj) as [[-> _]|[Hji Hjn]]; [by rewrite lookup_insert_eq|by rewrite lookup_insert_ne].
    + rewrite lookup_alter_ne by done. intros Ht Hj. destruct (Hl _ _ _ Ht Hj) as [[_ ->]|[Hji Hjm]]; [done|].
      by rewrite lookup_insert_ne.
  - intros j m. destruct (decide (j = i)) as [->|Hj].
    + rewrite lookup_insert_eq. intros [= <-]. rewrite lookup_alter_eq.
      assert (is_Some (left !! n)) as [t0 ->].
      { unfold left. destruct (String.eqb old n); [by eexists|]. destruct (decide (n = old)) as [<-|]; [rewrite lookup_alter_eq|rewrite lookup_alter_ne by done]; rewrite Hn; by eexists. }
      eexists. split; [done|]. apply elem_of_add_tag. by right.
    + rewrite lookup_insert_ne by done. intros (t & Ht & Hjt)%H2. destruct (Hk _ _ _ Ht Hjt Hj) as (t' & Ht' & Hjt').
      destruct (decide (m = n)) as [->|Hm].
      * eexists. rewrite lookup_alter_eq, Ht'. split; [done|]. apply elem_of_add_tag. by left.
      * exists t'. by rewrite lookup_alter_ne.
Qed.

Definition router_tagged (r : TierRouter) : Prop := tags_follow (tiers r) (intent_to_tier r).

Lemma tagged_saved fl saved r : router_tagged r → router_tagged (apply_saved fl saved r).
Proof.
  apply apply_saved_ind; [intros r0 n t es Hr Hn _; by apply tags_follow_tier|intros r0 i n r' Hr Hm; by eapply tags_follow_move].
Qed.

Lemma tagged_steps fl s s' : rtc (step fl) s s' → router_tagged s.1 → router_tagged s'.1.
Proof.
  induction 1 as [|s1 s2 s3 H12 _ IH]; [done|]. intros H1. apply IH. clear IH.
  destruct H12 as [n d t es r st st' _ Ht He _|i n r r' st st' Hm _|v r st st' _|p r st]; cbn [fst] in *; [ | |done|done].
  - by apply tags_follow_tier.
  - by eapply tags_follow_move.
Qed.

Lemma tagged_same ts ts' intents n t t' :
  tags_follow ts intents → tags_follow ts' intents → ts !! n = Some t → ts' !! n = Some t' →
  ∀ i, i ∈ use_for t ↔ i ∈ use_for t'.
Proof.
  rewrite !tags_follow_iff. intros [H1 H2] [H1' H2'] Hn Hn' i. split.
  - intros Hi. destruct (H2' _ _ (H1 _ _ _ Hn Hi)) as (u & Hu & ?). congruence.
  - intros Hi. destruct (H2 _ _ (H1' _ _ _ Hn' Hi)) as (u & Hu & ?). congruence.
Qed.

(** C39. Saved edits survive a restart.  Load the tiers of any file over any store these
    edits wrote; let the owner and the doctor edit tiers, reset them, move and reset
    intents and apply model sets, whether an edit is refused half way or not; then reload
    the same file with the store as it now is: the reload succeeds, gives the same
    tiers (every field but [use_for]; the two float zeros are one) and sends every intent to the
    same tier; and when the file lists no tag under two tiers, each tier's [use_for] has the
    same tags too.  No provider is forced by the environment, and the store holds no row whose
    key is [tier] or [intent] with no name. *)
Theorem edits_survive_reload fl shipped file st0 r0 es r st :
  overrides st0 !! "tier" = None → overrides st0 !! "intent" = None →
  load_from_yaml fl shipped "" file (Ok st0) = Ok r0 →
  run_edits fl es (r0, st0) = (r, st) →
  ∃ r', load_from_yaml fl shipped "" file (Ok st) = Ok r' ∧
    same_tiers (tiers r') (tiers r) ∧ intent_to_tier r' = intent_to_tier r ∧
    (tags_follow (declared_tiers r0) (declared_intents r0) →
     ∀ n t t', tiers r !! n = Some t → tiers r' !! n = Some t' → ∀ i, i ∈ use_for t ↔ i ∈ use_for t').
Proof.
  intros H1 H2 Hload Hrun. unfold load_from_yaml in *.
  destruct (load_file fl file) as [b|] eqn:Hb; [|done]. cbn [res_bind] in *.
  rewrite force_nothing in *. assert (r0 = apply_saved fl (Ok st0) b) as -> by congruence. clear Hload.
  apply load_file_ok in Hb as (_ & _ & Ht & Hi).
  destruct (loaded_in_step fl st0 b H1 H2 Ht Hi) as [Hin (Hd0 & Hi0 & _)].
  pose proof (run_edits_steps fl es (apply_saved fl (Ok st0) b, st0)) as Hsteps. rewrite Hrun in Hsteps.
  destruct (steps_in_step _ _ _ Hsteps Hin) as ([[H1' H2'] Hlt _ Hli] & Hd & Hdi). cbn [fst snd] in *.
  destruct (loaded_in_step fl st b H1' H2' Ht Hi) as [[_ Hlt' _ Hli'] (Hd' & Hi' & _)]. cbn [fst snd] in *.
  exists (apply_saved fl (Ok st) b). split; [done|]. assert (same_tiers (tiers (apply_saved fl (Ok st) b)) (tiers r)) as Hs.
  { intros n. rewrite (Hlt' n), (Hlt n), Hd', Hd, Hd0. done. }
  assert (intent_to_tier (apply_saved fl (Ok st) b) = intent_to_tier r) as Hint.
  { apply map_eq. intros i. by rewrite Hli', Hli, Hi', Hdi, Hi0, (same_tiers_dom _ _ Hs). }
  split_and!; [done|done|]. rewrite Hd0, Hi0, <- Ht, <- Hi. intros Hb0 n t t'.
  apply (tagged_same _ _ (intent_to_tier r)).
  - by apply (tagged_steps fl _ _ Hsteps), tagged_saved.
  - rewrite <- Hint. by apply tagged_saved.
Qed.

(** ** Every router in use is well formed *)

Definition known_tiers (m : gmap string TierConfig) : Prop := map_Forall (λ _ t, provider t ∈ known_providers) m.

Lemma valid_provider_known fl e t :
  valid_edit fl e → provider t ∈ known_providers → provider (edit_tier e t) ∈ known_providers.
Proof.
  intros He Ht. destruct e as [p| | | | |]; try done. unfold valid_edit, validate_field in He.
  cbn [field_kv fst snd String.eqb Ascii.eqb Bool.eqb str_val] in He. cbv zeta in He.
  destruct (str_in (str_strip p) PROVIDERS) eqn:Hp; [|done]. injection He as Hpp.
  rewrite Hpp in Hp. apply str_in_elem in Hp. cbn [edit_tier provider].
  assert (forallb (λ q, str_in q known_providers) PROVIDERS = true) as Hall by reflexivity.
  rewrite forallb_forall in Hall. apply str_in_elem, Hall. by apply list_elem_of_In.
Qed.

Lemma edited_provider_known fl es t :
  Forall (valid_edit fl) es → provider t ∈ known_providers → provider (edit_fields es t) ∈ known_providers.
Proof.
  intros Hes. revert t. induction Hes as [|e es He _ IH]; intros t Ht; [done|]. cbn.
  apply IH. by eapply valid_provider_known.
Qed.

Lemma router_ok_tier fl r n t es :
  router_ok r → tiers r !! n = Some t → Forall (valid_edit fl) es →
  router_ok (with_tiers (<[n := edit_fields es t]> (tiers r)) r).
Proof.
  intros [Ht Hd Hi Hdom] Hn Hes.
  assert (dom (<[n := edit_fields es t]> (tiers r)) = dom (tiers r)) as Hdom'.
  { rewrite dom_insert_L. apply elem_of_dom_2 in Hn. set_solver. }
  split; cbn; [|done| |by rewrite Hdom'].
  - apply map_Forall_insert_2; [|done]. eapply edited_provider_known; [done|exact (Ht _ _ Hn)].
  - intros i x Hx. apply elem_of_dom. rewrite Hdom'. apply elem_of_dom. exact (Hi _ _ Hx).
Qed.

Lemma router_ok_move r i n r' : router_ok r → move i n r = Ok r' → router_ok r'.
Proof.
  intros [Ht Hd Hi Hdom] Hm. pose proof (move_tiers _ _ _ _ Hm) as Hmt.
  apply move_ok in Hm as (Hn & _ & Hs & Hint & _ & Hdt & _ & _). apply same_tiers_dom in Hs.
  split.
  - intros k t' (l & t & Hk & ->)%Hmt. exact (Ht _ _ Hk).
  - by rewrite Hdt.
  - rewrite Hint. apply map_Forall_insert_2; [apply elem_of_dom; rewrite Hs; by apply elem_of_dom|].
    intros k x Hk. apply elem_of_dom. rewrite Hs. apply elem_of_dom. exact (Hi _ _ Hk).
  - by rewrite Hs, Hdt.
Qed.

Lemma router_ok_saved fl saved r : router_ok r → router_ok (apply_saved fl saved r).
Proof. apply apply_saved_ind; [by intros; eapply router_ok_tier|by intros; eapply router_ok_move]. Qed.

Lemma router_ok_forced shipped raw r r' : router_ok r → force_provider shipped raw r = Ok r' → router_ok r'.
Proof.
  intros [Ht Hd Hi Hdom]. unfold force_provider. cbv zeta.
  destruct (str_truthy _); cbn [negb]; [|by intros [= <-]; split].
  destruct (str_in _ known_providers) eqn:Hk; cbn [negb]; [|done]. apply str_in_elem in Hk.
  destruct (provider_localities shipped r !! _); [|by intros [= <-]; split]. intros [= <-].
  split; cbn; [|done| |by rewrite dom_fmap_L].
  - intros n t. rewrite lookup_fmap. intros (t0 & _ & ->)%fmap_Some. done.
  - intros i x Hx. rewrite lookup_fmap. destruct (Hi _ _ Hx) as [t ->]. by eexists.
Qed.

Lemma router_ok_step fl s s' : step fl s s' → router_ok s.1 → router_ok s'.1.
Proof.
  intros [n d t es r st st' _ Ht He _|i n r r' st st' Hm _|v r st st' _|p r st] Hs; cbn [fst] in *; [| |done|].
  - by eapply router_ok_tier.
  - by eapply router_ok_move.
  - by destruct Hs.
Qed.

Lemma router_ok_edits fl es s : router_ok s.1 → router_ok (run_edits fl es s).1.
Proof.
  intros Hs. pose proof (run_edits_steps fl es s) as H. revert Hs.
  induction H as [|s1 s2 s3 H12 _ IH]; [done|]. intros H1. by eapply IH, router_ok_step.
Qed.

Lemma known_base_url env p : p ∈ known_providers → ∃ url, provider_base_url env p = Ok url.
Proof.
  intros Hp. unfold known_providers in Hp.
  repeat (apply elem_of_cons in Hp as [->|Hp]; [by eexists|]). by apply elem_of_nil in Hp.
Qed.

Lemma tier_or_fallback_known r n : router_ok r → provider (tier_or_fallback r n) ∈ known_providers.
Proof.
  intros [Ht _ _ _]. unfold tier_or_fallback. destruct (tiers r !! n) as [t|] eqn:Hn; [exact (Ht _ _ Hn)|].
  destruct (tiers r !! "fallback") as [t|] eqn:Hf; [exact (Ht _ _ Hf)|]. by apply str_in_elem.
Qed.

Lemma build_error_class fl env shipped g r t n e :
  provider t ∈ known_providers → build_llm_config fl env shipped g r t n = Raise e →
  exn_class e = "ValidationError".
Proof.
  intros Ht. unfold build_llm_config. destruct (downshift g r t n) as [t' n'] eqn:Hd.
  apply downshift_provider in Hd as [Hp _]. rewrite Hp.
  destruct (known_base_url env (provider t) Ht) as [url ->]. cbn [res_bind].
  destruct (config_fits fl _ && _); [done|]. by intros [= <-].
Qed.

(** C40. Routing stays well formed.  Whatever the file, the saved edits (a store that
    cannot be read among them) and the forced provider, a router that loads has only tiers
    of providers the harness knows, and every intent goes to a tier that exists; every
    edit, reset, move, model set and prior keeps that, the ones that raise included.  So a
    call's config is never refused for its provider: an intent and a tier get a config, or
    the tier's numbers or texts do not fit the config's fields. *)
Theorem routing_stays_well_formed fl env shipped forced file saved r0 es st0 g :
  load_from_yaml fl shipped forced file saved = Ok r0 →
  let r := (run_edits fl es (r0, st0)).1 in
  router_ok r ∧
  (∀ intent e, get_llm_config fl env shipped g r intent = Raise e → exn_class e = "ValidationError") ∧
  (∀ n e, get_llm_config_for_tier fl env shipped g r n = Some (Raise e) → exn_class e = "ValidationError").
Proof.
  intros Hf r. unfold load_from_yaml in Hf. destruct (load_file fl file) as [b|] eqn:Hb; [|done].
  cbn [res_bind] in Hf. apply load_file_ok in Hb as (Hok & _).
  assert (router_ok r) as Hr.
  { apply (router_ok_edits fl es (r0, st0)). eapply router_ok_forced; [|exact Hf]. by apply router_ok_saved. }
  split_and!; [done| |].
  - intros intent e. apply build_error_class. by apply tier_or_fallback_known.
  - intros n e. unfold get_llm_config_for_tier. destruct (tiers r !! n) as [t|] eqn:Hn; [|done].
    intros [= H]. eapply build_error_class; [|exact H]. by apply (ro_tiers r Hr n).
Qed.

(** ** The sample file, edited *)

Module EditedSample.

Definition row (k : string) (v : pyval) : gmap string pyval := {[ k := v ]}.

(** A store that moved a tier and holds an edit of a tier the file no longer has. *)
Definition store : SettingsStore :=
  {| overrides := <["tier:gone" := VDict [("model", VStr "x")]]>
                    (row "tier:tier1" (VDict [("max_tokens", VStr " 512 ")])); changes := [] |}.

Definition loaded : TierRouter :=
  match load_from_yaml Sample.floats ∅ "" (Ok Sample.file) (Ok store) with Ok r => r | Raise _ => empty_router end.

Definition edits : list Edit :=
  [edit_update "tier1" [("model", VStr " gemma3:1b "); ("temperature", VFloat "1.0")] "owner" 1;
   edit_update "tier2" [("provider", VStr "fake")] "owner" 2;
   edit_move "chat" "tier2" "owner" 3;
   edit_move "research" "tier1" "owner" 4;
   edit_reset_intent "research" "owner" 5;
   edit_model_set "small" [("tier2", [("model", VStr "qwen3:8b")])] false "doctor" 6;
   edit_reset "tier1" "owner" 7;
   edit_update "tier1" [("timeout_seconds", VInt 60)] "owner" 8].

Definition final : Live := run_edits Sample.floats edits (loaded, store).

(** Only what differs from the file is stored; the refused edit of [tier2] left nothing. *)
Example final_overrides :
  map (λ kv, (kv.1, json_dumps kv.2)) (settings_section final.2) =
  map (λ kv, (kv.1, json_dumps kv.2))
    [("intent:chat", VStr "tier2");
     ("model_set", VDict [("name", VStr "small"); ("forced", VBool false); ("tiers", VList [VStr "tier2"])]);
     ("tier:gone", VDict [("model", VStr "x")]);
     ("tier:tier1", VDict [("timeout_seconds", VInt 60)]);
     ("tier:tier2", VDict [("model", VStr "qwen3:8b")])].
Proof. vm_compute. reflexivity. Qed.

(** [EVARNESS_LLM_PROVIDER] is not an edit, but the next edit of a tier saves it: the
    provider stays forced for that tier when the variable is gone. *)
Example forced_provider_saved :
  match load_from_yaml Sample.floats ∅ "openrouter" (Ok Sample.file) (Ok empty_settings) with
  | Ok r =>
      let s := run_edit Sample.floats (edit_update "tier1" [("max_tokens", VInt 100)] "owner" 1) (r, empty_settings) in
      match load_from_yaml Sample.floats ∅ "" (Ok Sample.file) (Ok s.2) with
      | Ok r' => (provider <$> tiers r' !! "tier1") = Some "openrouter" ∧
                 governance_tier_for_tier ∅ r' "tier1" = tier_3 ∧
                 (provider <$> declared_tiers r' !! "tier1") = Some "ollama"
      | Raise _ => False
      end
  | Raise _ => False
  end.
Proof. vm_compute. by repeat split. Qed.

(** With the scripted provider forced, the saved edit is skipped as a whole at the next
    load: the edit the owner made is lost. *)
Example forced_fake_loses_edit :
  let file := VDict [("providers", VDict [("fake", VDict [("runs", VStr "local")])]);
                     ("tiers", VDict [("tier1", VDict [])])] in
  match load_from_yaml Sample.floats ∅ "fake" (Ok file) (Ok empty_settings) with
  | Ok r =>
      let s := run_edit Sample.floats (edit_update "tier1" [("max_tokens", VInt 100)] "owner" 1) (r, empty_settings) in
      match load_from_yaml Sample.floats ∅ "" (Ok file) (Ok s.2) with
      | Ok r' => (max_tokens <$> tiers s.1 !! "tier1") = Some 100%Z ∧
                 (max_tokens <$> tiers r' !! "tier1") = Some 2048%Z
      | Raise _ => False
      end
  | Raise _ => False
  end.
Proof. vm_compute. by repeat split. Qed.

(** The file may give a tier a provider that is no edit's: the tier cannot be reset, and a
    model set that leaves it raises after it has reset the stale tiers before it. *)
Definition copilot_file : pyval := VDict
  [("tiers", VDict [("a", VDict [("use_for", VList [VStr "chat"])]);
                    ("b", VDict [("provider", VStr "copilot")])])].

Example copilot_tier_stuck :
  match load_file Sample.floats (Ok copilot_file) with
  | Ok r =>
      let s1 := run_edit Sample.floats
                  (edit_model_set "one" [("a", [("max_tokens", VInt 9)])] false "doctor" 1) (r, empty_settings) in
      (reset_tier Sample.floats "b" "owner" 2 s1).1
      = Raise (edit_error ("provider must be one of " +:+ join ", " PROVIDERS)) ∧
      let s2 := apply_model_set Sample.floats "two" [("b", [("model", VStr "gpt")])] false "doctor" 3 s1 in
      s2.1 = Raise (edit_error ("provider must be one of " +:+ join ", " PROVIDERS)) ∧
      overrides s1.2 !! "tier:a" = Some (VDict [("max_tokens", VInt 9)]) ∧
      overrides s2.2.2 !! "tier:a" = None
  | Raise _ => False
  end.
Proof. vm_compute. by repeat split. Qed.
End EditedSample.

(** A tag two tiers list: the edits take it from the tier its intent passed through, a reload
    of the file gives it back. *)
Example repeated_tag_returns :
  let file := VDict [("tiers", VDict [("a", VDict [("use_for", VList [VStr "chat"])]);
                                      ("b", VDict [("use_for", VList [VStr "chat"])]); ("c", VDict [])])] in
  match load_file Sample.floats (Ok file) with
  | Ok r =>
      let s := run_edits Sample.floats [edit_move "chat" "b" "owner" 1; edit_move "chat" "c" "owner" 2] (r, empty_settings) in
      match load_from_yaml Sample.floats ∅ "" (Ok file) (Ok s.2) with
      | Ok r' => (use_for <$> tiers s.1 !! "b") = Some [] ∧ (use_for <$> tiers r' !! "b") = Some ["chat"]
      | Raise _ => False
      end
  | Raise _ => False
  end.
Proof. vm_compute. by split. Qed.

(** Three tiers, each tag under one of them. *)
Definition tagged_file : pyval := VDict
  [("tiers", VDict [("tier1", VDict [("use_for", VList [VStr "chat"])]);
                    ("tier2", VDict [("use_for", VList [VStr "plan"])]);
                    ("tier3", VDict [("use_for", VList [VStr "research"])])])].
Definition tagged_loaded : TierRouter :=
  match load_from_yaml Sample.floats ∅ "" (Ok tagged_file) (Ok EditedSample.store) with Ok r => r | Raise _ => empty_router end.
Definition tagged_final : Live := run_edits Sample.floats EditedSample.edits (tagged_loaded, EditedSample.store).

Lemma edits_survive_reload_witness :
  (use_for <$> tiers tagged_final.1 !! "tier2") = Some ["plan"; "chat"] ∧
  ∃ r', load_from_yaml Sample.floats ∅ "" (Ok tagged_file) (Ok tagged_final.2) = Ok r' ∧
    same_tiers (tiers r') (tiers tagged_final.1) ∧
    intent_to_tier r' = intent_to_tier tagged_final.1 ∧
    (∀ n t t', tiers tagged_final.1 !! n = Some t → tiers r' !! n = Some t' → ∀ i, i ∈ use_for t ↔ i ∈ use_for t').
Proof.
  split; [vm_compute; reflexivity|].
  destruct (edits_survive_reload Sample.floats ∅ (Ok tagged_file) EditedSample.store tagged_loaded
              EditedSample.edits tagged_final.1 tagged_final.2) as (r' & H1 & H2 & H3 & H4);
    [vm_compute; reflexivity..|].
  exists r'. split; [exact H1|]. split; [exact H2|]. split; [exact H3|]. apply H4.
  apply (bool_decide_unpack _). vm_compute. exact I.
Defined.

Lemma routing_stays_well_formed_witness :
  router_ok (run_edits Sample.floats EditedSample.edits (EditedSample.loaded, EditedSample.store)).1.
Proof.
  refine (proj1 (routing_stays_well_formed Sample.floats (λ _, None) ∅ "" (Ok Sample.file)
                   (Ok EditedSample.store) EditedSample.loaded EditedSample.edits EditedSample.store None _)).
  vm_compute. reflexivity.
Defined.
