(* ===== verification/Encodings.v ===== *)
(** * Text encodings of the standard library

    [json.dumps] in its two layouts with [json.loads], and URL-safe base64, as the program uses them
    to store a value in a text and to read it back. *)

From S2P Require Import Prelude PyVal PyText CallContext.
From stdpp Require Import options.

(** ** Writing JSON *)

(** [json.dumps(v, sort_keys=True, separators=(isep, ksep))] *)
Fixpoint dumps_with (isep ksep : string) (v : pyval) : string :=
  match v with
  | VNone => "null"
  | VBool true => "true"
  | VBool false => "false"
  | VInt z => pretty z
  | VFloat r => r
  | VStr s => json_str s
  | VList l => "[" +:+ join isep (map (dumps_with isep ksep) l) +:+ "]"
  | VDict d =>
      "{" +:+ join isep (map (λ kv, json_str kv.1 +:+ ksep +:+ kv.2)
                           (sort_kv (map (λ kv, (kv.1, dumps_with isep ksep kv.2)) d))) +:+ "}"
  | VObj s => json_str s
  end.

(** [separators=(",", ":")] *)
Definition dumps_compact : pyval → string := dumps_with "," ":".

(** ** Reading JSON *)

Definition json_space (c : ascii) : bool := char_is 32 c || char_is 9 c || char_is 10 c || char_is 13 c.

Fixpoint skip_ws (s : string) : string :=
  match s with
  | String c r => if json_space c then skip_ws r else s
  | EmptyString => s
  end.

Definition dec_digit (c : ascii) : bool := match digit_val c with Some _ => true | None => false end.

Definition hex_val (c : ascii) : option N :=
  let n := N_of_ascii c in
  if dec_digit c then Some (n - 48)%N
  else if ((97 <=? n) && (n <=? 102))%N then Some (n - 87)%N
  else if ((65 <=? n) && (n <=? 70))%N then Some (n - 55)%N
  else None.

(** The character of [\uXXXX]; one above a byte is outside the model. *)
Definition unicode_char (a b c d : ascii) : option ascii :=
  match hex_val a, hex_val b, hex_val c, hex_val d with
  | Some x, Some y, Some z, Some t =>
      let n := (((x * 16 + y) * 16 + z) * 16 + t)%N in
      if (n <? 256)%N then Some (ascii_of_N n) else None
  | _, _, _, _ => None
  end.

(** The character of a one-letter escape. *)
Definition escaped (e : ascii) : option ascii :=
  if char_is 34 e || char_is 92 e || char_is 47 e then Some e
  else if char_is 98 e then Some (ascii_of_N 8)
  else if char_is 102 e then Some (ascii_of_N 12)
  else if char_is 110 e then Some (ascii_of_N 10)
  else if char_is 114 e then Some (ascii_of_N 13)
  else if char_is 116 e then Some (ascii_of_N 9)
  else None.

Definition cons_char (c : option ascii) (x : option (string * string)) : option (string * string) :=
  match c, x with Some c, Some (s, r) => Some (String c s, r) | _, _ => None end.

(** A string literal after its opening quote, and what follows it. *)
Fixpoint read_str (s : string) : option (string * string) :=
  match s with
  | EmptyString => None
  | String c r =>
      if char_is 34 c then Some (EmptyString, r)
      else if char_is 92 c then
        match r with
        | EmptyString => None
        | String e r =>
            if char_is 117 e then
              match r with
              | String a (String b (String c (String d r))) => cons_char (unicode_char a b c d) (read_str r)
              | _ => None
              end
            else cons_char (escaped e) (read_str r)
        end
      else if (N_of_ascii c <? 32)%N then None
      else cons_char (Some c) (read_str r)
  end.

(** The longest run of digits. *)
Fixpoint span_digits (s : string) : string * string :=
  match s with
  | String c r => if dec_digit c then let '(a, b) := span_digits r in (String c a, b) else (EmptyString, s)
  | EmptyString => (EmptyString, s)
  end.

(** [(\.\d+)?] *)
Definition span_fraction (s : string) : string * string :=
  match s with
  | String c r =>
      if char_is 46 c then
        match span_digits r with
        | (EmptyString, _) => (EmptyString, s)
        | (ds, r) => (String c ds, r)
        end
      else (EmptyString, s)
  | EmptyString => (EmptyString, s)
  end.

(** [([eE][-+]?\d+)?] *)
Definition span_exponent (s : string) : string * string :=
  match s with
  | String c r =>
      if char_is 101 c || char_is 69 c then
        let '(sign, r') := match r with
                           | String g r' => if char_is 43 g || char_is 45 g then (String g EmptyString, r') else (EmptyString, r)
                           | EmptyString => (EmptyString, r)
                           end in
        match span_digits r' with
        | (EmptyString, _) => (EmptyString, s)
        | (ds, r) => (String c (sign +:+ ds), r)
        end
      else (EmptyString, s)
  | EmptyString => (EmptyString, s)
  end.

(** [0|[1-9]\d*] *)
Definition span_integer (s : string) : option (string * string) :=
  match s with
  | String c r =>
      if char_is 48 c then Some ("0", r)
      else if dec_digit c then Some (span_digits s)
      else None
  | EmptyString => None
  end.

(** What follows a literal. *)
Fixpoint cut (p s : string) : option string :=
  match p, s with
  | EmptyString, _ => Some s
  | String c p, String c' s => if Ascii.eqb c c' then cut p s else None
  | String _ _, EmptyString => None
  end.

Section reading.
(** The [repr] of the float a literal denotes. *)
Context (float_repr : string → string).

(** [NUMBER_RE], then [int] or [float] of what it matched. *)
Definition read_number (s : string) : option (pyval * string) :=
  let '(neg, u) := match s with String c r => if char_is 45 c then (true, r) else (false, s) | EmptyString => (false, s) end in
  match span_integer u with
  | None => None
  | Some (ds, r) =>
      let '(frac, r) := span_fraction r in
      let '(exp, r) := span_exponent r in
      if str_truthy frac || str_truthy exp then
        Some (VFloat (float_repr ((if neg then "-" else "") +:+ ds +:+ frac +:+ exp)), r)
      else match int_from 0 ds with Some z => Some (VInt (if neg then - z else z)%Z, r) | None => None end
  end.

(** The constants. *)
Definition read_constant (s : string) : option (pyval * string) :=
  match cut "null" s, cut "true" s, cut "false" s, cut "NaN" s, cut "Infinity" s, cut "-Infinity" s with
  | Some r, _, _, _, _, _ => Some (VNone, r)
  | _, Some r, _, _, _, _ => Some (VBool true, r)
  | _, _, Some r, _, _, _ => Some (VBool false, r)
  | _, _, _, Some r, _, _ => Some (VFloat "nan", r)
  | _, _, _, _, Some r, _ => Some (VFloat "inf", r)
  | _, _, _, _, _, Some r => Some (VFloat "-inf", r)
  | _, _, _, _, _, _ => None
  end.

Definition expect (n : N) (s : string) : option string :=
  match s with String c r => if char_is n c then Some r else None | EmptyString => None end.

(** A value, the rest of an array after [\[] or a comma, and the rest of an object after [{] or a comma. *)
Fixpoint read_value (fuel : nat) (s : string) : option (pyval * string) :=
  match fuel with
  | O => None
  | S fuel =>
      match s with
      | EmptyString => None
      | String c r =>
          if char_is 34 c then '(x, r) ← read_str r; Some (VStr x, r)
          else if char_is 123 c then
            match expect 125 (skip_ws r) with
            | Some r => Some (VDict [], r)
            | None => '(d, r) ← read_members fuel (skip_ws r) []; Some (VDict d, r)
            end
          else if char_is 91 c then
            match expect 93 (skip_ws r) with
            | Some r => Some (VList [], r)
            | None => '(l, r) ← read_items fuel (skip_ws r); Some (VList l, r)
            end
          else match read_constant s with Some x => Some x | None => read_number s end
      end
  end
with read_items (fuel : nat) (s : string) : option (list pyval * string) :=
  match fuel with
  | O => None
  | S fuel =>
      '(v, r) ← read_value fuel s;
      match expect 93 (skip_ws r) with
      | Some r => Some ([v], r)
      | None => r ← expect 44 (skip_ws r); '(l, r) ← read_items fuel (skip_ws r); Some (v :: l, r)
      end
  end
with read_members (fuel : nat) (s : string) (d : list (string * pyval)) : option (list (string * pyval) * string) :=
  match fuel with
  | O => None
  | S fuel =>
      r ← expect 34 s;
      '(k, r) ← read_str r;
      r ← expect 58 (skip_ws r);
      '(v, r) ← read_value fuel (skip_ws r);
      match expect 125 (skip_ws r) with
      | Some r => Some (kv_set k v d, r)
      | None => r ← expect 44 (skip_ws r); read_members fuel (skip_ws r) (kv_set k v d)
      end
  end.

(** [json.loads]: [None] when it raises. *)
Definition json_loads (s : string) : option pyval :=
  '(v, r) ← read_value (S (String.length s)) (skip_ws s);
  match skip_ws r with EmptyString => Some v | String _ _ => None end.
End reading.

(** ** What is written is read back *)

Lemma read_str_char c t : read_str (json_char c +:+ t) = cons_char (Some c) (read_str t).
Proof. by destruct c as [[] [] [] [] [] [] [] []]. Qed.

Lemma read_json_str s t : read_str (str_concat_map json_char s +:+ dquote +:+ t) = Some (s, t).
Proof.
  induction s as [|c s IH]; [done|]. cbn [str_concat_map]. rewrite !string_app_assoc, read_str_char.
  by rewrite IH.
Qed.

(** What may follow a value inside a document: nothing, a comma or a closing bracket. *)
Definition after_value (t : string) : Prop :=
  match t with EmptyString => True | String c _ => c = ascii_of_N 44 ∨ c = ascii_of_N 93 ∨ c = ascii_of_N 125 end.

Lemma span_digits_app s t : str_all dec_digit s = true → after_value t → span_digits (s +:+ t) = (s, t).
Proof.
  intros Hs Ht. induction s as [|c s IH]; [|cbn in Hs; to_props; rewrite string_cons_app; cbn; by rewrite H, IH].
  rewrite string_nil_app. destruct t as [|c t]; [done|]. by destruct Ht as [->|[->| ->]].
Qed.

Lemma span_fraction_after t : after_value t → span_fraction t = ("", t).
Proof. destruct t as [|c t]; [done|]. by intros [->|[->| ->]]. Qed.

Lemma span_exponent_after t : after_value t → span_exponent t = ("", t).
Proof. destruct t as [|c t]; [done|]. by intros [->|[->| ->]]. Qed.

(** The digits of a positive number begin with one that is not zero. *)
Definition leading (s : string) : Prop := ∃ c r, s = String c r ∧ dec_digit c = true ∧ char_is 48 c = false.

Lemma pretty_go_leading x s : (0 < x)%N → leading (pretty_N_go x s).
Proof.
  revert s. induction (N.lt_wf_0 x) as [x _ IH]; intros s Hx. rewrite pretty_N_go_step by done.
  destruct (decide (x / 10 = 0)%N) as [Hz|Hz].
  - rewrite Hz, pretty_N_go_0. assert (x < 10)%N as Hlt by (apply N.div_small_iff in Hz; lia). rewrite N.mod_small by done.
    do 2 eexists. split; [done|]. assert (x = 1 ∨ x = 2 ∨ x = 3 ∨ x = 4 ∨ x = 5 ∨ x = 6 ∨ x = 7 ∨ x = 8 ∨ x = 9)%N as Hc by lia.
    repeat (destruct Hc as [->|Hc]; [done|]). by rewrite Hc.
  - apply IH; [apply N.div_lt; lia|by apply N.neq_0_lt_0].
Qed.

Lemma all_dec_pretty_go x s : str_all dec_digit s = true → str_all dec_digit (pretty_N_go x s) = true.
Proof.
  revert s. induction (N.lt_wf_0 x) as [x _ IH]; intros s Hs. destruct (decide (0 < x)%N) as [Hx|Hx].
  - rewrite pretty_N_go_step by done. apply IH; [apply N.div_lt; lia|]. simpl. unfold dec_digit at 1.
    by rewrite digit_val_pretty by (apply N.mod_lt; lia).
  - replace x with 0%N by lia. by rewrite pretty_N_go_0.
Qed.

(** The text of a natural number, as the integer part of a literal. *)
Lemma span_integer_pretty (n : N) t : after_value t →
  ∃ ds, pretty n = ds ∧ span_integer (ds +:+ t) = Some (ds, t) ∧ int_from 0 ds = Some (Z.of_N n) ∧
    ∃ c r, ds = String c r ∧ dec_digit c = true.
Proof.
  intros Ht. eexists. split; [reflexivity|]. destruct (decide (n = 0)%N) as [->|Hn].
  { split_and!; [done|done|]. by exists "0"%char, "". }
  assert (pretty n = pretty_N_go n "") as -> by (unfold pretty, pretty_N; by rewrite decide_False).
  destruct (pretty_go_leading n "") as (c & r & Hcr & Hd & H0); [lia|].
  pose proof (all_dec_pretty_go n "" eq_refl) as Hall. pose proof (int_from_pretty_go n "") as Hint. rewrite Hcr in *.
  split_and!; [|done|by exists c, r]. pose proof (span_digits_app _ t Hall Ht) as Hsp. rewrite string_cons_app in *.
  unfold span_integer. by rewrite H0, Hd, Hsp.
Qed.

Section round_trip.
Context (float_repr : string → string).

Lemma read_number_int (z : Z) t : after_value t → read_number float_repr (pretty z +:+ t) = Some (VInt z, t).
Proof.
  intros Ht. unfold read_number.
  assert (∀ n : N, ∃ c r, pretty n +:+ t = String c r ∧ dec_digit c = true ∧ span_integer (pretty n +:+ t) = Some (pretty n, t) ∧
    int_from 0 (pretty n) = Some (Z.of_N n)) as Hn.
  { intros n. destruct (span_integer_pretty n t Ht) as (ds & -> & H1 & H2 & c & r & -> & Hc). exists c, (r +:+ t). done. }
  assert (∀ c, dec_digit c = true → char_is 45 c = false) as Hdash by (by intros [[] [] [] [] [] [] [] []]).
  destruct z as [|q|q].
  - destruct (Hn 0%N) as (c & r & E & Hc & H1 & H2). change (pretty 0%Z) with (pretty 0%N). rewrite E in *. rewrite (Hdash c Hc), H1.
    by rewrite (span_fraction_after t Ht), (span_exponent_after t Ht), H2.
  - destruct (Hn (N.pos q)) as (c & r & E & Hc & H1 & H2). change (pretty (Z.pos q)) with (pretty (N.pos q)). rewrite E in *.
    rewrite (Hdash c Hc), H1. by rewrite (span_fraction_after t Ht), (span_exponent_after t Ht), H2.
  - destruct (Hn (N.pos q)) as (c & r & E & Hc & H1 & H2). change (pretty (Z.neg q)) with (String "-" (pretty (N.pos q))).
    rewrite string_cons_app. change (char_is 45 "-") with true. cbn match. rewrite H1.
    by rewrite (span_fraction_after t Ht), (span_exponent_after t Ht), H2.
Qed.

Lemma list_sum_cons x l : list_sum (x :: l) = x + list_sum l.
Proof. done. Qed.

(** Values whose text is read back: no float or foreign object, no key twice in a dict. *)
Fixpoint json_wf (v : pyval) : Prop :=
  match v with
  | VFloat _ | VObj _ => False
  | VList l => foldr (λ x acc, json_wf x ∧ acc) True l
  | VDict d => NoDup (map fst d) ∧ foldr (λ kv acc, json_wf kv.2 ∧ acc) True d
  | _ => True
  end.

(** The value with the keys of its dicts in order, as [sort_keys] writes them. *)
Fixpoint key_sorted (v : pyval) : pyval :=
  match v with
  | VList l => VList (map key_sorted l)
  | VDict d => VDict (sort_kv (map (λ kv, (kv.1, key_sorted kv.2)) d))
  | _ => v
  end.

(** The steps the reader takes. *)
Fixpoint need (v : pyval) : nat :=
  match v with
  | VList l => S (list_sum (map (λ x, S (need x)) l))
  | VDict d => S (list_sum (map (λ kv, S (need kv.2)) d))
  | _ => 1
  end.

Lemma pyval_nested_ind (P : pyval → Prop) :
  P VNone → (∀ b, P (VBool b)) → (∀ z, P (VInt z)) → (∀ r, P (VFloat r)) → (∀ s, P (VStr s)) →
  (∀ l, Forall P l → P (VList l)) → (∀ d, Forall (λ kv, P kv.2) d → P (VDict d)) → (∀ s, P (VObj s)) → ∀ v, P v.
Proof.
  intros H1 H2 H3 H4 H5 H6 H7 H8. fix IH 1. intros [|b|z|r|s|l|d|s]; [exact H1|apply H2|apply H3|apply H4|apply H5| | |apply H8].
  - apply H6. induction l as [|x l IHl]; constructor; [apply IH|exact IHl].
  - apply H7. induction d as [|[k x] d IHd]; constructor; [apply IH|exact IHd].
Qed.

Lemma insert_kv_map {V U} (f : V → U) kv l :
  insert_kv (kv.1, f kv.2) (map (λ kv, (kv.1, f kv.2)) l) = map (λ kv, (kv.1, f kv.2)) (insert_kv kv l).
Proof. induction l as [|y l IH]; [done|]. cbn. destruct (String.ltb _ _); [done|]. cbn. by rewrite <- IH. Qed.

Lemma sort_kv_map {V U} (f : V → U) d :
  sort_kv (map (λ kv, (kv.1, f kv.2)) d) = map (λ kv, (kv.1, f kv.2)) (sort_kv d).
Proof.
  unfold sort_kv. enough (∀ acc, fold_left (λ acc kv, insert_kv kv acc) (map (λ kv, (kv.1, f kv.2)) d) (map (λ kv, (kv.1, f kv.2)) acc)
    = map (λ kv, (kv.1, f kv.2)) (fold_left (λ acc kv, insert_kv kv acc) d acc)) as H by apply (H []).
  induction d as [|kv d IH]; intros acc; cbn; [done|]. rewrite <- IH. f_equal. apply (insert_kv_map f).
Qed.

Lemma skip_ws_app w x : str_all json_space w = true → skip_ws (w +:+ x) = skip_ws x.
Proof. induction w as [|c w IH]; [done|]. cbn [str_all]. intros [Hc Hw]%andb_true_iff. rewrite string_cons_app. cbn. by rewrite Hc, IH. Qed.

(** A text that begins with neither space nor a closing bracket, as a value's does. *)
Definition opens (s : string) : Prop :=
  ∃ c r, s = String c r ∧ json_space c = false ∧ char_is 93 c = false ∧ char_is 125 c = false.

Lemma opens_app s t : opens s → opens (s +:+ t).
Proof. intros (c & r & -> & H). exists c, (r +:+ t). done. Qed.

Lemma join_opens sep s l : opens s → opens (join sep (s :: l)).
Proof. intros Hs. cbn [join]. destruct l; [done|by apply opens_app]. Qed.

Lemma opens_skip s : opens s → skip_ws s = s.
Proof. intros (c & r & -> & H & _). cbn. by rewrite H. Qed.

Lemma pretty_opens (z : Z) : opens (pretty z) ∧ ∃ c r, pretty z = String c r ∧ char_is 34 c = false ∧ char_is 123 c = false ∧
  char_is 91 c = false ∧ ∀ t, read_constant (pretty z +:+ t) = None.
Proof.
  assert (∀ n : N, ∃ c r, pretty n = String c r ∧ dec_digit c = true) as Hn.
  { intros n. destruct (span_integer_pretty n "" I) as (ds & -> & _ & _ & Hcr). exact Hcr. }
  assert (∀ c, dec_digit c = true → json_space c = false ∧ char_is 93 c = false ∧ char_is 125 c = false ∧ char_is 34 c = false ∧
    char_is 123 c = false ∧ char_is 91 c = false ∧ (∀ r, read_constant (String c r) = None) ∧ (∀ r, read_constant (String "-" (String c r)) = None)) as Hd.
  { intros [[] [] [] [] [] [] [] []] H; try discriminate H; done. }
  destruct z as [|q|q].
  - change (pretty 0%Z) with (pretty 0%N). destruct (Hn 0%N) as (c & r & -> & Hc). destruct (Hd c Hc) as (? & ? & ? & ? & ? & ? & Hk & _).
    split; exists c, r; split_and!; try done. intros t. apply Hk.
  - change (pretty (Z.pos q)) with (pretty (N.pos q)). destruct (Hn (N.pos q)) as (c & r & -> & Hc).
    destruct (Hd c Hc) as (? & ? & ? & ? & ? & ? & Hk & _). split; exists c, r; split_and!; try done. intros t. apply Hk.
  - change (pretty (Z.neg q)) with (String "-" (pretty (N.pos q))). destruct (Hn (N.pos q)) as (c & r & -> & Hc).
    destruct (Hd c Hc) as (_ & _ & _ & _ & _ & _ & _ & Hk). split; exists "-"%char, (String c r); split_and!; try done. intros t. apply Hk.
Qed.

Section layout.
Context (w1 w2 : string) (Hw1 : str_all json_space w1 = true) (Hw2 : str_all json_space w2 = true).
Abbreviation isep := (String (ascii_of_N 44) w1).
Abbreviation ksep := (String (ascii_of_N 58) w2).
Abbreviation dumps := (dumps_with isep ksep).

Lemma dumps_opens v : json_wf v → opens (dumps v).
Proof using Type.
  destruct v as [|[]|z|r|s|l|d|s]; try done; intros _; try (by do 2 eexists). apply pretty_opens.
Qed.

Definition readable (v : pyval) : Prop :=
  ∀ n t, need v ≤ n → after_value t → read_value float_repr n (dumps v +:+ t) = Some (key_sorted v, t).

Lemma expect_bracket t : after_value (String (ascii_of_N 93) t) ∧ after_value (String (ascii_of_N 125) t).
Proof using Type. split; [right; by left|right; by right]. Qed.

(** The items of an array, up to its closing bracket. *)
Lemma read_items_dumps l : Forall (λ v, json_wf v ∧ readable v) l → l ≠ [] →
  ∀ n t, list_sum (map (λ x, S (need x)) l) ≤ n →
  read_items float_repr n (join isep (map dumps l) +:+ String (ascii_of_N 93) t) = Some (map key_sorted l, t).
Proof using Hw1.
  induction 1 as [|v l [Hwf Hv] Hl IH]; [done|]. intros _ n t Hn. cbn [map] in Hn. rewrite list_sum_cons in Hn. destruct n as [|n]; [lia|]. cbn [read_items].
  destruct l as [|v2 l].
  - cbn [join map]. rewrite Hv by (try apply expect_bracket; lia). done.
  - change (join isep (map dumps (v :: v2 :: l))) with (dumps v +:+ isep +:+ join isep (map dumps (v2 :: l))).
    rewrite !string_app_assoc. rewrite string_cons_app. rewrite Hv by (try (by left); lia). cbn [mbind option_bind].
    change (skip_ws (String (ascii_of_N 44) _)) with (String (ascii_of_N 44) (w1 +:+ join isep (map dumps (v2 :: l)) +:+ String (ascii_of_N 93) t)).
    change (expect 93 _) with (@None string). change (expect 44 (String (ascii_of_N 44) ?x)) with (Some x). cbn [mbind option_bind].
    rewrite skip_ws_app by done. rewrite opens_skip.
    + rewrite IH by (try done; lia). done.
    + apply Forall_cons in Hl as [[Hwf2 _] _]. by apply opens_app, join_opens, dumps_opens.
Qed.

Lemma kv_set_fresh {V} k (v : V) d : k ∉ map fst d → kv_set k v d = d ++ [(k, v)].
Proof using Type.
  induction d as [|[k' v'] d IH]; [done|]. cbn [map fst]. rewrite not_elem_of_cons. intros [Hne Hd]. cbn.
  rewrite (proj2 (String.eqb_neq k' k)) by done. by rewrite IH.
Qed.

(** The text of a member. *)
Definition member_text (kv : string * pyval) : string := json_str kv.1 +:+ ksep +:+ dumps kv.2.

Lemma member_opens kv : opens (member_text kv).
Proof using Type. unfold member_text, json_str. rewrite !string_app_assoc. do 2 eexists. split; [reflexivity|done]. Qed.

Lemma read_member n k v t : json_wf v → readable v → need v ≤ n → after_value t →
  ∃ r, member_text (k, v) +:+ t = String (ascii_of_N 34) r ∧
    read_str r = Some (k, ksep +:+ dumps v +:+ t) ∧ expect 58 (skip_ws (ksep +:+ dumps v +:+ t)) = Some (w2 +:+ dumps v +:+ t) ∧
    read_value float_repr n (skip_ws (w2 +:+ dumps v +:+ t)) = Some (key_sorted v, t).
Proof using Hw2.
  intros Hwf Hv Hn Ht. unfold member_text, json_str. cbn [fst snd]. rewrite !string_app_assoc. eexists. split_and!; [reflexivity| | |].
  - apply read_json_str.
  - reflexivity.
  - rewrite skip_ws_app by done. rewrite opens_skip by (by apply opens_app, dumps_opens). by apply Hv.
Qed.

(** The members of an object, up to its closing bracket. *)
Lemma read_members_dumps d : Forall (λ kv, json_wf kv.2 ∧ readable kv.2) d → d ≠ [] →
  ∀ acc n t, NoDup (map fst d) → (∀ k, k ∈ map fst d → k ∉ map fst acc) → list_sum (map (λ kv, S (need kv.2)) d) ≤ n →
  read_members float_repr n (join isep (map member_text d) +:+ String (ascii_of_N 125) t) acc
  = Some (acc ++ map (λ kv, (kv.1, key_sorted kv.2)) d, t).
Proof using Hw1 Hw2.
  induction 1 as [|[k v] d [Hwf Hv] Hd IH]; [done|]. intros _ acc n t Hnd Hacc Hn. cbn [map fst snd] in Hnd, Hacc, Hn. rewrite list_sum_cons in Hn.
  apply NoDup_cons in Hnd as [Hk Hnd]. destruct n as [|n]; [lia|]. cbn [read_members].
  assert (kv_set k (key_sorted v) acc = acc ++ [(k, key_sorted v)]) as Hset by (apply kv_set_fresh, Hacc; by left).
  destruct d as [|kv2 d].
  - cbn [join map]. destruct (read_member n k v (String (ascii_of_N 125) t) Hwf Hv) as (r & Hr & H1 & H2 & H3); [lia|apply expect_bracket|].
    rewrite Hr. change (expect 34 (String (ascii_of_N 34) r)) with (Some r). cbn [mbind option_bind]. rewrite H1. cbn [mbind option_bind].
    rewrite H2. cbn [mbind option_bind]. rewrite H3. cbn. by rewrite Hset.
  - change (join isep (map member_text ((k, v) :: kv2 :: d))) with (member_text (k, v) +:+ isep +:+ join isep (map member_text (kv2 :: d))).
    rewrite !string_app_assoc, string_cons_app.
    destruct (read_member n k v (String (ascii_of_N 44) (w1 +:+ join isep (map member_text (kv2 :: d)) +:+ String (ascii_of_N 125) t)) Hwf Hv)
      as (r & Hr & H1 & H2 & H3); [lia|by left|].
    rewrite Hr. change (expect 34 (String (ascii_of_N 34) r)) with (Some r). cbn [mbind option_bind]. rewrite H1. cbn [mbind option_bind].
    rewrite H2. cbn [mbind option_bind]. rewrite H3. cbn [mbind option_bind].
    change (skip_ws (String (ascii_of_N 44) ?x)) with (String (ascii_of_N 44) x). change (expect 125 _) with (@None string).
    change (expect 44 (String (ascii_of_N 44) ?x)) with (Some x). cbn [mbind option_bind]. rewrite skip_ws_app by done. rewrite opens_skip.
    + rewrite IH; [by rewrite Hset, <- app_assoc|done|done| |lia]. intros k' Hk'. rewrite Hset, map_app, elem_of_app. cbn.
      intros [Hin| ->%list_elem_of_singleton]; [|done]. by eapply Hacc; [right; exact Hk'|].
    + apply opens_app, join_opens, member_opens.
Qed.

Lemma need_dict d : need (VDict d) = S (list_sum (map (λ kv, S (need kv.2)) (sort_kv d))).
Proof using Type. cbn. f_equal. by rewrite sort_kv_perm. Qed.

Lemma dumps_dict d : dumps (VDict d) = String (ascii_of_N 123) (join isep (map member_text (sort_kv d)) +:+ "}").
Proof using Type. cbn [dumps_with]. rewrite (sort_kv_map dumps), map_map. done. Qed.

Lemma readable_list l : Forall (λ v, json_wf v ∧ readable v) l → readable (VList l).
Proof using Hw1.
  intros Hall n t Hn Ht. destruct n as [|n]; [exfalso; cbn in Hn; lia|].
  change (dumps (VList l)) with (String (ascii_of_N 91) (join isep (map dumps l) +:+ "]")). rewrite string_cons_app, string_app_assoc.
  change ("]" +:+ t) with (String (ascii_of_N 93) t). cbn [read_value]. change (char_is 34 (ascii_of_N 91)) with false.
  change (char_is 123 (ascii_of_N 91)) with false. change (char_is 91 (ascii_of_N 91)) with true. cbn match.
  destruct l as [|x l]; [done|]. destruct (proj1 (Forall_cons _ _ _) Hall) as [[Hx _] _].
  assert (opens (join isep (map dumps (x :: l)) +:+ String (ascii_of_N 93) t)) as Ho by (by apply opens_app, join_opens, dumps_opens).
  rewrite (opens_skip _ Ho). destruct Ho as (c & r & Hc & _ & H93 & _). cbn [need] in Hn.
  rewrite (read_items_dumps _ Hall) by (try done; lia). rewrite Hc. unfold expect. by rewrite H93.
Qed.

Lemma readable_dict d : NoDup (map fst d) → Forall (λ kv, json_wf kv.2 ∧ readable kv.2) d → readable (VDict d).
Proof using Hw1 Hw2.
  intros Hnd Hall n t Hn Ht. destruct n as [|n]; [exfalso; cbn in Hn; lia|].
  rewrite dumps_dict, string_cons_app, string_app_assoc. rewrite need_dict in Hn.
  change ("}" +:+ t) with (String (ascii_of_N 125) t). cbn [read_value]. change (char_is 34 (ascii_of_N 123)) with false.
  change (char_is 123 (ascii_of_N 123)) with true. cbn match. cbn [key_sorted]. rewrite (sort_kv_map key_sorted).
  rewrite <- (sort_kv_perm d) in Hnd, Hall. destruct (sort_kv d) as [|[k x] m]; [done|].
  assert (opens (join isep (map member_text ((k, x) :: m)) +:+ String (ascii_of_N 125) t)) as Ho by (apply opens_app, join_opens, member_opens).
  rewrite (opens_skip _ Ho). destruct Ho as (c & r & Hc & _ & _ & H125).
  rewrite (read_members_dumps _ Hall); [|done|done|intros k' _ Hk'; by apply elem_of_nil in Hk'|lia]. rewrite Hc. unfold expect. by rewrite H125.
Qed.

Lemma Forall_wf {A} (f : A → pyval) (Q : pyval → Prop) (l : list A) :
  foldr (λ x acc, json_wf (f x) ∧ acc) True l → Forall (λ x, json_wf (f x) → Q (f x)) l → Forall (λ x, json_wf (f x) ∧ Q (f x)) l.
Proof using Type. intros Hwf. induction 1 as [|x l Hx _ IH]; [constructor|]. destruct Hwf. constructor; [by split; [|apply Hx]|by apply IH]. Qed.

(** A value written in this layout is read back from the front of any text it begins. *)
Lemma dumps_readable v : json_wf v → readable v.
Proof using Hw1 Hw2.
  induction v as [|b|z|r|s|l Hl|d Hd|s] using pyval_nested_ind; intros Hwf; try done;
    [intros n t Hn Ht; (destruct n as [|n]; [exfalso; cbn in Hn; lia|])..| |].
  - done.
  - by destruct b.
  - destruct (pretty_opens z) as [_ (c & r & Hc & H1 & H2 & H3 & Hk)]. specialize (Hk t). pose proof (read_number_int z t Ht) as Hr.
    change (dumps (VInt z)) with (pretty z). rewrite Hc in *. rewrite string_cons_app in *. cbn [read_value]. rewrite H1, H2, H3, Hk. exact Hr.
  - change (dumps (VStr s)) with (json_str s). unfold json_str. rewrite !string_app_assoc.
    change (dquote +:+ ?x) with (String (ascii_of_N 34) x). cbn [read_value]. change (char_is 34 (ascii_of_N 34)) with true. cbn match.
    change (String (ascii_of_N 34) t) with (dquote +:+ t). by rewrite read_json_str.
  - by apply readable_list, (Forall_wf id).
  - destruct Hwf as [Hnd Hwf]. by apply readable_dict, (Forall_wf snd).
Qed.

Lemma join_length ls : list_sum (map (λ x, S (String.length x)) ls) ≤ S (String.length (join isep ls)).
Proof using Type.
  induction ls as [|x ls IH]; [cbn; lia|]. cbn [map join]. rewrite list_sum_cons. destruct ls as [|y ls]; [cbn; lia|].
  rewrite !length_app_string. cbn [String.length]. lia.
Qed.

Lemma list_sum_le {A} (f g : A → nat) l : Forall (λ x, f x ≤ g x) l → list_sum (map f l) ≤ list_sum (map g l).
Proof using Type. induction 1 as [|x l Hx _ IH]; [done|]. cbn [map]. rewrite !list_sum_cons. lia. Qed.

(** The length of the text is fuel enough. *)
Lemma need_length v : json_wf v → need v ≤ String.length (dumps v).
Proof using Type.
  induction v as [|b|z|r|s|l Hl|d Hd|s] using pyval_nested_ind; intros Hwf; try done.
  - cbn. lia.
  - destruct b; cbn; lia.
  - destruct (pretty_opens z) as [(c & r & Hc & _) _]. change (dumps (VInt z)) with (pretty z). rewrite Hc. cbn. lia.
  - cbn. unfold json_str. rewrite length_app_string. cbn. lia.
  - change (dumps (VList l)) with ("[" +:+ join isep (map dumps l) +:+ "]"). cbn [need]. rewrite !length_app_string. cbn [String.length].
    pose proof (join_length (map dumps l)) as Hj. rewrite map_map in Hj.
    enough (list_sum (map (λ x, S (need x)) l) ≤ list_sum (map (λ x, S (String.length (dumps x))) l)) by lia.
    apply list_sum_le. eapply Forall_impl; [exact (Forall_wf id (λ v, need v ≤ String.length (dumps v)) l Hwf Hl)|]. cbn. intros x [_ ?]. lia.
  - rewrite need_dict, dumps_dict. cbn [String.length]. rewrite length_app_string. cbn [String.length].
    pose proof (join_length (map member_text (sort_kv d))) as Hj. rewrite map_map in Hj. destruct Hwf as [_ Hwf].
    enough (list_sum (map (λ kv, S (need kv.2)) (sort_kv d)) ≤ list_sum (map (λ x, S (String.length (member_text x))) (sort_kv d))) by lia.
    apply list_sum_le. rewrite sort_kv_perm. eapply Forall_impl; [exact (Forall_wf snd (λ v, need v ≤ String.length (dumps v)) d Hwf Hd)|]. intros [k x] [_ Hx]. unfold member_text.
    rewrite !length_app_string. cbn [String.length fst snd] in *. lia.
Qed.

Lemma loads_dumps v : json_wf v → json_loads float_repr (dumps v) = Some (key_sorted v).
Proof using Hw1 Hw2.
  intros Hwf. unfold json_loads. rewrite (opens_skip _ (dumps_opens v Hwf)). pose proof (need_length v Hwf) as Hn.
  pose proof (dumps_readable v Hwf (S (String.length (dumps v))) "") as Hr. rewrite string_app_nil_r in Hr.
  rewrite Hr by (try done; lia). done.
Qed.
End layout.

(** [json.loads(json.dumps(v, sort_keys=True))] is the value, its dicts in key order. *)
Lemma loads_json_dumps v : json_wf v → json_loads float_repr (json_dumps v) = Some (key_sorted v).
Proof.
  intros Hwf. rewrite <- (loads_dumps " " " " eq_refl eq_refl v Hwf). f_equal. clear Hwf.
  induction v as [|b|z|r|s|l Hl|d Hd|s] using pyval_nested_ind; try done.
  - cbn [json_dumps dumps_with]. do 3 f_equal. apply map_ext_in. intros x Hx%list_elem_of_In. by eapply Forall_forall in Hl.
  - cbn [json_dumps dumps_with]. do 2 f_equal. f_equal. f_equal. f_equal. apply map_ext_in. intros kv Hkv%list_elem_of_In. f_equal. by eapply Forall_forall in Hd.
Qed.

Lemma loads_compact v : json_wf v → json_loads float_repr (dumps_compact v) = Some (key_sorted v).
Proof. exact (loads_dumps "" "" eq_refl eq_refl v). Qed.
End round_trip.

(** ** URL-safe base64 *)

Definition b64_char (n : N) : ascii :=
  if (n <? 26)%N then ascii_of_N (65 + n)
  else if (n <? 52)%N then ascii_of_N (71 + n)
  else if (n <? 62)%N then ascii_of_N (n - 4)
  else if (n =? 62)%N then ascii_of_N 45
  else ascii_of_N 95.

(** The value of a character, [-] and [_] read as the [+] and [/] they stand for. *)
Definition b64_val (c : ascii) : option N :=
  let n := N_of_ascii c in
  if ((65 <=? n) && (n <=? 90))%N then Some (n - 65)%N
  else if ((97 <=? n) && (n <=? 122))%N then Some (n - 71)%N
  else if ((48 <=? n) && (n <=? 57))%N then Some (n + 4)%N
  else if ((n =? 45) || (n =? 43))%N then Some 62%N
  else if ((n =? 95) || (n =? 47))%N then Some 63%N
  else None.

(** [base64.urlsafe_b64encode(...)] without its padding ([.rstrip("=")]). *)
Fixpoint b64_encode (s : string) : string :=
  match s with
  | EmptyString => EmptyString
  | String a EmptyString =>
      let x := N_of_ascii a in
      String (b64_char (x / 4)) (String (b64_char (x mod 4 * 16)) EmptyString)
  | String a (String b EmptyString) =>
      let x := N_of_ascii a in
      let y := N_of_ascii b in
      String (b64_char (x / 4)) (String (b64_char (x mod 4 * 16 + y / 16)) (String (b64_char (y mod 16 * 4)) EmptyString))
  | String a (String b (String c s)) =>
      let x := N_of_ascii a in
      let y := N_of_ascii b in
      let z := N_of_ascii c in
      String (b64_char (x / 4)) (String (b64_char (x mod 4 * 16 + y / 16))
        (String (b64_char (y mod 16 * 4 + z / 64)) (String (b64_char (z mod 64)) (b64_encode s))))
  end.

(** [binascii.a2b_base64], not strict: the position in the group of four, the bits left over, the
    padding seen.  A character outside the alphabet is skipped; a complete group ends at its
    padding, and what follows is not read. *)
Fixpoint b64_read (pos : nat) (left pads : N) (s : string) : option string :=
  match s with
  | EmptyString => if Nat.eqb pos 0 then Some EmptyString else None
  | String c s =>
      if char_is 61 c then
        if Nat.leb 2 pos && (4 <=? N.of_nat pos + pads + 1)%N then Some EmptyString
        else b64_read pos left (if Nat.leb 2 pos then pads + 1 else pads)%N s
      else
        match b64_val c with
        | None => b64_read pos left pads s
        | Some v =>
            match pos with
            | 0 => b64_read 1 v 0 s
            | 1 => String (ascii_of_N (left * 4 + v / 16)) <$> b64_read 2 (v mod 16) 0 s
            | 2 => String (ascii_of_N (left * 16 + v / 4)) <$> b64_read 3 (v mod 4) 0 s
            | _ => String (ascii_of_N (left * 64 + v)) <$> b64_read 0 0 0 s
            end
        end
  end.

(** [base64.urlsafe_b64decode] of a text: [None] when it raises. *)
Definition b64_decode (s : string) : option string := if is_ascii s then b64_read 0 0 0 s else None.

(** [s + "=" * (-len(s) % 4)] *)
Definition b64_padded (s : string) : string :=
  match String.length s mod 4 with 1 => s +:+ "===" | 2 => s +:+ "==" | 3 => s +:+ "=" | _ => s end.

Lemma b64_val_char n : (n < 64)%N → b64_val (b64_char n) = Some n ∧ char_is 61 (b64_char n) = false ∧ (N_of_ascii (b64_char n) <? 128)%N = true.
Proof.
  intros Hn. assert (forallb (λ k, let n := N.of_nat k in bool_decide (b64_val (b64_char n) = Some n) && negb (char_is 61 (b64_char n))
    && (N_of_ascii (b64_char n) <? 128)%N) (seq 0 64) = true) as H by (vm_compute; reflexivity).
  rewrite forallb_forall in H. specialize (H (N.to_nat n)). rewrite N2Nat.id in H. cbv zeta in H.
  assert (In (N.to_nat n) (seq 0 64)) as Hin by (apply in_seq; lia). specialize (H Hin). to_props. done.
Qed.

Lemma byte_small a : (N_of_ascii a < 256)%N.
Proof. apply N_ascii_bounded. Qed.

Lemma ascii_byte n a : n = N_of_ascii a → ascii_of_N n = a.
Proof. intros ->. apply ascii_N_embedding. Qed.

(** Reading one character of the alphabet. *)
Lemma b64_read_char pos left pads n s : (n < 64)%N →
  b64_read pos left pads (String (b64_char n) s)
  = match pos with
    | 0 => b64_read 1 n 0 s
    | 1 => String (ascii_of_N (left * 4 + n / 16)) <$> b64_read 2 (n mod 16) 0 s
    | 2 => String (ascii_of_N (left * 16 + n / 4)) <$> b64_read 3 (n mod 4) 0 s
    | _ => String (ascii_of_N (left * 64 + n)) <$> b64_read 0 0 0 s
    end.
Proof. intros Hn. destruct (b64_val_char n Hn) as (H1 & H2 & _). cbn [b64_read]. by rewrite H1, H2. Qed.

(** Strings three characters at a time, as the encoder takes them. *)
Lemma string_three_ind (P : string → Prop) :
  P EmptyString → (∀ a, P (String a EmptyString)) → (∀ a b, P (String a (String b EmptyString))) →
  (∀ a b c s, P s → P (String a (String b (String c s)))) → ∀ s, P s.
Proof. intros H0 H1 H2 H3. fix IH 1. intros [|a [|b [|c s]]]; [exact H0|apply H1|apply H2|apply H3, IH]. Qed.

Definition pad_of (s : string) : string := match String.length s mod 3 with 1 => "==" | 2 => "=" | _ => "" end.

Lemma mod3_step n : S (S (S n)) mod 3 = n mod 3.
Proof. change (S (S (S n))) with (3 + n). rewrite Nat.add_comm. replace (n + 3) with (n + 1 * 3) by lia. by rewrite Nat.Div0.mod_add. Qed.

Lemma b64_read_pads left : b64_read 2 left 0 "==" = Some "" ∧ b64_read 3 left 0 "=" = Some "".
Proof. done. Qed.

Lemma b64_read_encode s : b64_read 0 0 0 (b64_encode s +:+ pad_of s) = Some s.
Proof.
  induction s as [|a|a b|a b c s IH] using string_three_ind; [done| | |].
  - cbn [b64_encode]. change (pad_of (String a "")) with "==". pose proof (byte_small a) as Ha. rewrite !string_cons_app, string_nil_app.
    rewrite !b64_read_char by (zify; Z.to_euclidean_division_equations; lia).
    rewrite (proj1 (b64_read_pads _)). cbn [fmap option_fmap option_map]. do 2 f_equal. apply ascii_byte. zify; Z.to_euclidean_division_equations; lia.
  - cbn [b64_encode]. change (pad_of (String a (String b ""))) with "=". pose proof (byte_small a) as Ha. pose proof (byte_small b) as Hb.
    rewrite !string_cons_app, string_nil_app. rewrite !b64_read_char by (zify; Z.to_euclidean_division_equations; lia).
    rewrite (proj2 (b64_read_pads _)). cbn [fmap option_fmap option_map]. do 2 f_equal; [|f_equal]; apply ascii_byte; zify; Z.to_euclidean_division_equations; lia.
  - cbn [b64_encode]. assert (pad_of (String a (String b (String c s))) = pad_of s) as -> by (unfold pad_of; cbn [String.length]; by rewrite mod3_step).
    pose proof (byte_small a) as Ha. pose proof (byte_small b) as Hb. pose proof (byte_small c) as Hc. rewrite !string_cons_app.
    rewrite !b64_read_char by (zify; Z.to_euclidean_division_equations; lia). rewrite IH. cbn [fmap option_fmap option_map].
    do 2 f_equal; [|f_equal; [|f_equal]]; apply ascii_byte; zify; Z.to_euclidean_division_equations; lia.
Qed.

Lemma b64_encode_length s : String.length (b64_encode s) mod 4 = match String.length s mod 3 with 1 => 2 | 2 => 3 | _ => 0 end.
Proof.
  induction s as [|a|a b|a b c s IH] using string_three_ind; [done..|]. cbn [b64_encode String.length]. rewrite mod3_step, <- IH.
  set (n := String.length (b64_encode s)). replace (S (S (S (S n)))) with (n + 1 * 4) by lia. by rewrite Nat.Div0.mod_add.
Qed.

Lemma b64_padded_encode s : b64_padded (b64_encode s) = b64_encode s +:+ pad_of s.
Proof.
  unfold b64_padded, pad_of. rewrite b64_encode_length. pose proof (Nat.mod_upper_bound (String.length s) 3 ltac:(lia)) as Hlt.
  destruct (String.length s mod 3) as [|[|[|]]]; [by rewrite string_app_nil_r|done|done|lia].
Qed.

Lemma b64_encode_ascii s : is_ascii (b64_encode s) = true.
Proof.
  assert (∀ n r, (n < 64)%N → is_ascii (String (b64_char n) r) = is_ascii r) as Hc.
  { intros n r Hn. unfold is_ascii. cbn [str_all]. by destruct (b64_val_char n Hn) as (_ & _ & ->). }
  induction s as [|a|a b|a b c s IH] using string_three_ind; [done| | |]; cbn [b64_encode];
    pose proof (byte_small a) as Ha; try pose proof (byte_small b) as Hb; try pose proof (byte_small c) as Hcc;
    rewrite !Hc by (zify; Z.to_euclidean_division_equations; lia); done.
Qed.

(** What was encoded, its padding put back, decodes to itself. *)
Lemma b64_round_trip s : b64_decode (b64_padded (b64_encode s)) = Some s.
Proof.
  unfold b64_decode. rewrite b64_padded_encode. rewrite b64_read_encode. unfold is_ascii. rewrite str_all_app.
  rewrite (b64_encode_ascii s : str_all _ _ = true). unfold pad_of. by destruct (String.length s mod 3) as [|[|[|]]].
Qed.
