(* ===== verification/Tasks.v ===== *)
(** * The owner's tasks and goals ([services/tasks/models.py], [services/tasks/store.py])

    The models with their validators, the SQLite store with its constraints, and the events its
    operations emit. *)

From S2P Require Import Prelude PyVal PyText.
From stdpp Require Import options.

(** ** Models *)

Inductive TaskStatus := t_open | t_doing | t_done | t_dropped | t_expired.
#[export] Instance TaskStatus_eq_dec : EqDecision TaskStatus.
Proof. solve_decision. Defined.

Inductive GoalStatus := g_active | g_paused | g_achieved | g_dropped.
#[export] Instance GoalStatus_eq_dec : EqDecision GoalStatus.
Proof. solve_decision. Defined.

Inductive ActionKind := copy_command | re_extract | register_flow | trust_domain | ignore_domain | review | execute_action.
#[export] Instance ActionKind_eq_dec : EqDecision ActionKind.
Proof. solve_decision. Defined.

Record ActionChoice := { ch_value : string; ch_label : string; ch_primary : bool; ch_needs_option : bool }.
Record ActionOptions := { op_name : string; op_label : string; op_values : list (string * string); op_default : option string }.

#[export] Instance ActionChoice_eq_dec : EqDecision ActionChoice.
Proof. solve_decision. Defined.
#[export] Instance ActionOptions_eq_dec : EqDecision ActionOptions.
Proof. solve_decision. Defined.

Record ActionFact := { fa_label : string; fa_value : string }.
Record ActionEvidence := { ae_when : string; ae_text : string }.
Record ActionCard := {
  ac_tag : option string; ac_facts : list ActionFact; ac_evidence : list ActionEvidence; ac_evidence_label : string; ac_note : string }.

Record TaskAction := {
  ta_kind : ActionKind; ta_label : string; ta_command : option string; ta_target_id : option string; ta_safe : bool;
  ta_choices : list ActionChoice; ta_options : option ActionOptions; ta_card : option ActionCard }.

(** [SourceKind] *)
Definition SOURCE_KINDS : list string :=
  ["email"; "manual"; "finance-bills"; "finance-statements"; "calendar-prep"; "calendar-approval"; "mission-proposal";
   "filemanager-organize"; "filemanager-quarantine"; "rag-ingest"; "photos-albums"; "reminder"; "routine"; "other"]%string.

Definition ValidationError (why : string) : exn := Exn "ValidationError" why.
Definition ValueError (why : string) : exn := Exn "ValueError" why.
Definition IntegrityError (why : string) : exn := Exn "IntegrityError" why.

Definition length_between (lo hi : nat) (s : string) : bool := Nat.leb lo (String.length s) && Nat.leb (String.length s) hi.
Definition distinct (l : list string) : bool := bool_decide (NoDup l).

(** An optional string of at least one character, stripped. *)
Definition stripped (x : option string) : option string := str_strip <$> x.
Definition opt_nonempty (x : option string) : bool := match x with Some s => str_truthy s | None => true end.

(** [ActionChoice(...)] *)
Definition ActionChoice_of (c : ActionChoice) : res ActionChoice :=
  let c := {| ch_value := str_strip (ch_value c); ch_label := str_strip (ch_label c); ch_primary := ch_primary c;
              ch_needs_option := ch_needs_option c |} in
  if length_between 1 40 (ch_value c) && length_between 1 60 (ch_label c) then Ok c else Raise (ValidationError "choice").

(** [ActionOptionValue(...)] *)
Definition ActionOptionValue_of (v : string * string) : res (string * string) :=
  let v := (str_strip v.1, str_strip v.2) in
  if length_between 1 40 v.1 && length_between 1 60 v.2 then Ok v else Raise (ValidationError "option value").

(** [ActionOptions(...)] with [_default_is_a_value] *)
Definition ActionOptions_of (o : ActionOptions) : res ActionOptions :=
  let! vs := res_all ActionOptionValue_of (op_values o) in
  let o := {| op_name := str_strip (op_name o); op_label := str_strip (op_label o); op_values := vs;
              op_default := stripped (op_default o) |} in
  if negb (length_between 1 40 (op_name o) && length_between 1 60 (op_label o) && negb (bool_decide (vs = []))) then
    Raise (ValidationError "options")
  else if match op_default o with Some d => str_in d (map fst vs) | None => true end then Ok o
  else Raise (ValidationError "default is not one of the option values").

(** [ActionFact(...)], [ActionEvidence(...)] and [ActionCard(...)] *)
Definition ActionFact_of (f : ActionFact) : res ActionFact :=
  let f := {| fa_label := str_strip (fa_label f); fa_value := str_strip (fa_value f) |} in
  if length_between 1 40 (fa_label f) && length_between 1 200 (fa_value f) then Ok f else Raise (ValidationError "fact").

Definition ActionEvidence_of (e : ActionEvidence) : res ActionEvidence :=
  let e := {| ae_when := str_strip (ae_when e); ae_text := str_strip (ae_text e) |} in
  if length_between 0 40 (ae_when e) && length_between 1 300 (ae_text e) then Ok e else Raise (ValidationError "evidence").

Definition ActionCard_of (c : ActionCard) : res ActionCard :=
  let! fs := res_all ActionFact_of (ac_facts c) in
  let! es := res_all ActionEvidence_of (ac_evidence c) in
  let c := {| ac_tag := stripped (ac_tag c); ac_facts := fs; ac_evidence := es; ac_evidence_label := str_strip (ac_evidence_label c);
              ac_note := str_strip (ac_note c) |} in
  if match ac_tag c with Some t => length_between 0 40 t | None => true end && length_between 0 60 (ac_evidence_label c)
     && length_between 0 500 (ac_note c) then Ok c else Raise (ValidationError "card").

(** [TaskAction._validate_action_shape] *)
Definition validate_action_shape (a : TaskAction) : res TaskAction :=
  if bool_decide (ta_kind a = copy_command) && negb (str_truthy (or_str (ta_command a) "")) then
    Raise (ValidationError "copy_command action requires a command")
  else if bool_decide (ta_kind a = copy_command) && ta_safe a then
    Raise (ValidationError "copy_command actions are display-only and cannot be safe")
  else if negb (bool_decide (ta_choices a = [])) && negb (ta_safe a) then
    Raise (ValidationError "a choice card is answered from the UI, so it must be safe")
  else if negb (distinct (map ch_value (ta_choices a))) then Raise (ValidationError "choice values must be unique")
  else if existsb ch_needs_option (ta_choices a) && bool_decide (ta_options a = None) then
    Raise (ValidationError "a choice that needs an option requires options")
  else Ok a.

Definition res_option {A B} (f : A → res B) (x : option A) : res (option B) :=
  match x with Some a => let! b := f a in Ok (Some b) | None => Ok None end.

(** [TaskAction(...)] *)
Definition TaskAction_of (a : TaskAction) : res TaskAction :=
  let! cs := res_all ActionChoice_of (ta_choices a) in
  let! os := res_option ActionOptions_of (ta_options a) in
  let! card := res_option ActionCard_of (ta_card a) in
  let a := {| ta_kind := ta_kind a; ta_label := str_strip (ta_label a); ta_command := stripped (ta_command a);
              ta_target_id := stripped (ta_target_id a); ta_safe := ta_safe a; ta_choices := cs; ta_options := os;
              ta_card := card |} in
  if negb (length_between 1 120 (ta_label a) && opt_nonempty (ta_command a) && opt_nonempty (ta_target_id a)) then
    Raise (ValidationError "action")
  else validate_action_shape a.

(** [TaskAction.check_answer] *)
Definition check_answer (a : TaskAction) (choice option_ : option string) : res unit :=
  match ta_choices a with
  | [] => match choice, option_ with None, None => Ok tt | _, _ => Raise (ValueError "this action takes no choice") end
  | _ =>
      match List.find (λ c, bool_decide (Some (ch_value c) = choice)) (ta_choices a) with
      | None => Raise (ValueError ("answer with one of: " +:+ join ", " (map ch_value (ta_choices a))))
      | Some picked =>
          if ch_needs_option picked then
            match ta_options a with
            | None => Raise (Exn "AssertionError" "")
            | Some o =>
                let given := match option_ with Some x => Some x | None => op_default o end in
                if match given with Some x => str_in x (map fst (op_values o)) | None => false end then Ok tt
                else Raise (ValueError ("pick a " +:+ str_lower (op_label o) +:+ " first"))
            end
          else Ok tt
      end
  end.

(** [WaitFor]; its payload is any object. *)
Inductive WaitForKind := w_reply_from | w_event | w_manual.
#[export] Instance WaitForKind_eq_dec : EqDecision WaitForKind.
Proof. solve_decision. Defined.
Record WaitFor := { wf_kind : WaitForKind; wf_payload : list (string * pyval) }.

Record Task := {
  t_id : string; t_title : string; t_description : string; t_status : TaskStatus; t_priority : Z;
  t_source_kind : option string; t_source_id : option string; t_parent_task_id : option string;
  t_dedup_key : option string; t_due_at : option Z; t_wait_for : option WaitFor; t_wait_for_resolved_at : option Z;
  t_parent_goal_id : option string; t_related_wikilinks : list string; t_calendar_event_id : option string;
  t_calendar_visible : bool; t_action : option TaskAction; t_created_at : Z; t_updated_at : Z;
  t_completed_at : option Z; t_closed_reason : option string }.

Record Goal := {
  g_id : string; g_title : string; g_description : string; g_status : GoalStatus; g_target_date : option Z;
  g_success_criteria : string; g_created_at : Z; g_updated_at : Z; g_completed_at : option Z }.

(** [Task(...)]: strings stripped, lengths checked, and [_validate_completion_consistency]. *)
Definition Task_of (t : Task) : res Task :=
  let! action := res_option TaskAction_of (t_action t) in
  let t := {| t_id := str_strip (t_id t); t_title := str_strip (t_title t); t_description := str_strip (t_description t);
              t_status := t_status t; t_priority := t_priority t; t_source_kind := t_source_kind t;
              t_source_id := stripped (t_source_id t); t_parent_task_id := stripped (t_parent_task_id t);
              t_dedup_key := stripped (t_dedup_key t); t_due_at := t_due_at t; t_wait_for := t_wait_for t;
              t_wait_for_resolved_at := t_wait_for_resolved_at t; t_parent_goal_id := stripped (t_parent_goal_id t);
              t_related_wikilinks := map str_strip (t_related_wikilinks t);
              t_calendar_event_id := stripped (t_calendar_event_id t); t_calendar_visible := t_calendar_visible t;
              t_action := action; t_created_at := t_created_at t; t_updated_at := t_updated_at t;
              t_completed_at := t_completed_at t; t_closed_reason := stripped (t_closed_reason t) |} in
  if negb (str_truthy (t_id t) && length_between 1 500 (t_title t) && opt_nonempty (t_source_id t)
           && opt_nonempty (t_parent_task_id t) && opt_nonempty (t_dedup_key t) && opt_nonempty (t_parent_goal_id t)
           && opt_nonempty (t_calendar_event_id t)
           && match t_source_kind t with Some k => str_in k SOURCE_KINDS | None => true end) then Raise (ValidationError "field")
  else
    match t_status t, t_completed_at t with
    | t_done, None => Raise (ValidationError "status='done' requires completed_at to be set")
    | t_done, Some _ => Ok t
    | _, Some _ => Raise (ValidationError "completed_at may only be set when status='done'")
    | _, None => Ok t
    end.

Definition Goal_of (g : Goal) : res Goal :=
  let g := {| g_id := str_strip (g_id g); g_title := str_strip (g_title g); g_description := str_strip (g_description g);
              g_status := g_status g; g_target_date := g_target_date g; g_success_criteria := str_strip (g_success_criteria g);
              g_created_at := g_created_at g; g_updated_at := g_updated_at g; g_completed_at := g_completed_at g |} in
  if negb (str_truthy (g_id g)) then Raise (ValidationError "id")
  else if negb (length_between 1 500 (g_title g)) then Raise (ValidationError "title")
  else
    match g_status g, g_completed_at g with
    | g_achieved, None => Raise (ValidationError "status='achieved' requires completed_at to be set")
    | g_achieved, Some _ => Ok g
    | _, Some _ => Raise (ValidationError "completed_at may only be set when status='achieved'")
    | _, None => Ok g
    end.

(** ** The store *)

Inductive TaskEvent :=
| TaskCreated (id title : string) (st : TaskStatus) (source_kind source_id dedup_key parent_task parent_goal : option string)
    (due_at : option Z) (created_at : Z)
| TaskUpdated (id : string) (st : TaskStatus) (updated_at : Z) (changed : list string)
| TaskCompleted (id title : string) (completed_at : Z) (parent_goal : option string)
| TaskDropped (id title : string) (dropped_at : Z) (parent_goal : option string)
| TaskWaitResolved (id by_event : string) (resolved_at : Z)
| GoalCreated (id title : string) (st : GoalStatus) (target_date : option Z) (created_at : Z)
| GoalUpdated (id : string) (st : GoalStatus) (updated_at : Z) (changed : list string)
| GoalAchieved (id title : string) (completed_at : Z).

Record TaskStore := { ts_tasks : list Task; ts_goals : list Goal; ts_bus : bool; ts_events : list TaskEvent }.

Definition set_tasks (l : list Task) (s : TaskStore) : TaskStore :=
  {| ts_tasks := l; ts_goals := ts_goals s; ts_bus := ts_bus s; ts_events := ts_events s |}.
Definition set_goals (l : list Goal) (s : TaskStore) : TaskStore :=
  {| ts_tasks := ts_tasks s; ts_goals := l; ts_bus := ts_bus s; ts_events := ts_events s |}.

(** [_emit] *)
Definition emit (e : TaskEvent) : M TaskStore unit :=
  modify (λ s, {| ts_tasks := ts_tasks s; ts_goals := ts_goals s; ts_bus := ts_bus s;
                  ts_events := if ts_bus s then ts_events s ++ [e] else ts_events s |}).

Definition task_is (id : string) (t : Task) : bool := String.eqb (t_id t) id.
Definition goal_is (id : string) (g : Goal) : bool := String.eqb (g_id g) id.
(** A row the unique index sees. *)
Definition holds_key (key : string) (t : Task) : bool :=
  bool_decide (t_dedup_key t = Some key) && negb (bool_decide (t_status t = t_dropped)).

(** The unique index on the keys of tasks that are not dropped. *)
Definition key_clash (t : Task) (others : list Task) : bool :=
  match t_dedup_key t with
  | Some k => negb (bool_decide (t_status t = t_dropped)) && existsb (holds_key k) others
  | None => false
  end.

(** The foreign keys, over the tables with the row in place. *)
Definition refs_ok (t : Task) (tasks : list Task) (goals : list Goal) : bool :=
  match t_parent_task_id t with Some p => existsb (task_is p) tasks | None => true end &&
  match t_parent_goal_id t with Some g => existsb (goal_is g) goals | None => true end.

(** [INSERT INTO tasks] *)
Definition insert_task (t : Task) : M TaskStore unit := λ s,
  if existsb (task_is (t_id t)) (ts_tasks s) then (Raise (IntegrityError "UNIQUE constraint failed: tasks.id"), s)
  else if key_clash t (ts_tasks s) then (Raise (IntegrityError "UNIQUE constraint failed: tasks.dedup_key"), s)
  else if negb (refs_ok t (ts_tasks s ++ [t]) (ts_goals s)) then (Raise (IntegrityError "FOREIGN KEY constraint failed"), s)
  else (Ok tt, set_tasks (ts_tasks s ++ [t]) s).

(** [UPDATE tasks SET ... WHERE id = :id]; [id], [created_at] and [dedup_key] are not set. *)
Definition write_task (t : Task) : M TaskStore unit := λ s,
  let others := List.filter (λ r, negb (task_is (t_id t) r)) (ts_tasks s) in
  if key_clash t others then (Raise (IntegrityError "UNIQUE constraint failed: tasks.dedup_key"), s)
  else if negb (refs_ok t (ts_tasks s) (ts_goals s)) then (Raise (IntegrityError "FOREIGN KEY constraint failed"), s)
  else (Ok tt, set_tasks (update_where (task_is (t_id t)) (λ _, t) (ts_tasks s)) s).

Definition get_task (id : string) : M TaskStore (option Task) := gets (λ s, select_one (task_is id) (ts_tasks s)).
Definition get_by_dedup_key (key : string) : M TaskStore (option Task) := gets (λ s, select_one (holds_key key) (ts_tasks s)).

(** [create]: the fields as a draft, with the model's defaults and a fresh id where none was given. *)
Definition create_task (draft : Task) : M TaskStore Task :=
  t ← lift_res (Task_of draft);
  insert_task t;;
  emit (TaskCreated (t_id t) (t_title t) (t_status t) (t_source_kind t) (t_source_id t) (t_dedup_key t)
          (t_parent_task_id t) (t_parent_goal_id t) (t_due_at t) (t_created_at t));;
  mret t.

Definition with_dedup_key (key : string) (t : Task) : Task :=
  {| t_id := t_id t; t_title := t_title t; t_description := t_description t; t_status := t_status t; t_priority := t_priority t;
     t_source_kind := t_source_kind t; t_source_id := t_source_id t; t_parent_task_id := t_parent_task_id t;
     t_dedup_key := Some key; t_due_at := t_due_at t; t_wait_for := t_wait_for t;
     t_wait_for_resolved_at := t_wait_for_resolved_at t; t_parent_goal_id := t_parent_goal_id t;
     t_related_wikilinks := t_related_wikilinks t; t_calendar_event_id := t_calendar_event_id t;
     t_calendar_visible := t_calendar_visible t; t_action := t_action t; t_created_at := t_created_at t;
     t_updated_at := t_updated_at t; t_completed_at := t_completed_at t; t_closed_reason := t_closed_reason t |}.

Definition upsert (key : string) (draft : Task) : M TaskStore Task :=
  if negb (str_truthy key) then raise (ValueError "upsert() requires a non-empty dedup_key")
  else
    existing ← get_by_dedup_key key;
    match existing with
    | Some t => mret t
    | None => create_task (with_dedup_key key draft)
    end.

(** The [fields] of [update]; a field not given is [None]. *)
Record TaskPatch := {
  p_title : option string; p_description : option string; p_status : option TaskStatus; p_priority : option Z;
  p_source_kind : option (option string); p_source_id : option (option string); p_parent_task_id : option (option string);
  p_due_at : option (option Z); p_wait_for : option (option WaitFor); p_wait_for_resolved_at : option (option Z);
  p_parent_goal_id : option (option string); p_related_wikilinks : option (list string);
  p_calendar_event_id : option (option string); p_calendar_visible : option bool; p_action : option (option TaskAction);
  p_completed_at : option (option Z); p_closed_reason : option (option string);
  (** [id], [created_at] and [dedup_key], when a caller passes them. *)
  p_forbidden : list string }.

Definition no_patch : TaskPatch :=
  {| p_title := None; p_description := None; p_status := None; p_priority := None; p_source_kind := None; p_source_id := None;
     p_parent_task_id := None; p_due_at := None; p_wait_for := None; p_wait_for_resolved_at := None; p_parent_goal_id := None;
     p_related_wikilinks := None; p_calendar_event_id := None; p_calendar_visible := None; p_action := None;
     p_completed_at := None; p_closed_reason := None; p_forbidden := [] |}.

Definition given {A} (name : string) (x : option A) : list string := match x with Some _ => [name] | None => [] end.
(** [sorted(fields.keys())] *)
Definition changed_fields (p : TaskPatch) : list string :=
  given "action" (p_action p) ++ given "calendar_event_id" (p_calendar_event_id p)
  ++ given "calendar_visible" (p_calendar_visible p) ++ given "closed_reason" (p_closed_reason p)
  ++ given "completed_at" (p_completed_at p) ++ given "description" (p_description p) ++ given "due_at" (p_due_at p)
  ++ given "parent_goal_id" (p_parent_goal_id p) ++ given "parent_task_id" (p_parent_task_id p) ++ given "priority" (p_priority p)
  ++ given "related_wikilinks" (p_related_wikilinks p) ++ given "source_id" (p_source_id p)
  ++ given "source_kind" (p_source_kind p) ++ given "status" (p_status p) ++ given "title" (p_title p)
  ++ given "wait_for" (p_wait_for p) ++ given "wait_for_resolved_at" (p_wait_for_resolved_at p).

(** The merged fields, before they are validated. *)
Definition merged_task (t : Task) (p : TaskPatch) (now : Z) : Task :=
  let st := default (t_status t) (p_status p) in
  {| t_id := t_id t; t_title := default (t_title t) (p_title p); t_description := default (t_description t) (p_description p);
     t_status := st; t_priority := default (t_priority t) (p_priority p);
     t_source_kind := default (t_source_kind t) (p_source_kind p); t_source_id := default (t_source_id t) (p_source_id p);
     t_parent_task_id := default (t_parent_task_id t) (p_parent_task_id p); t_dedup_key := t_dedup_key t;
     t_due_at := default (t_due_at t) (p_due_at p); t_wait_for := default (t_wait_for t) (p_wait_for p);
     t_wait_for_resolved_at := default (t_wait_for_resolved_at t) (p_wait_for_resolved_at p);
     t_parent_goal_id := default (t_parent_goal_id t) (p_parent_goal_id p);
     t_related_wikilinks := default (t_related_wikilinks t) (p_related_wikilinks p);
     t_calendar_event_id := default (t_calendar_event_id t) (p_calendar_event_id p);
     t_calendar_visible := default (t_calendar_visible t) (p_calendar_visible p); t_action := default (t_action t) (p_action p);
     t_created_at := t_created_at t; t_updated_at := now; t_completed_at := default (t_completed_at t) (p_completed_at p);
     t_closed_reason :=
       match p_closed_reason p with
       | Some r => r
       | None => if bool_decide (st = t_open ∨ st = t_doing) then None else t_closed_reason t
       end |}.

Definition update_task (id : string) (p : TaskPatch) (now : Z) : M TaskStore Task :=
  match p_forbidden p with
  | _ :: _ => raise (ValueError "update() cannot change immutable fields")
  | [] =>
      current ← get_task id;
      match current with
      | None => raise (Exn "KeyError" ("task not found: " +:+ id))
      | Some t =>
          t' ← lift_res (Task_of (merged_task t p now));
          write_task t';;
          emit (TaskUpdated (t_id t') (t_status t') (t_updated_at t') (changed_fields p));;
          mret t'
      end
  end.

Definition closing (st : TaskStatus) (completed : option Z) (why : option string) : TaskPatch :=
  {| p_title := None; p_description := None; p_status := Some st; p_priority := None; p_source_kind := None; p_source_id := None;
     p_parent_task_id := None; p_due_at := None; p_wait_for := None; p_wait_for_resolved_at := None; p_parent_goal_id := None;
     p_related_wikilinks := None; p_calendar_event_id := None; p_calendar_visible := None; p_action := None;
     p_completed_at := match completed with Some c => Some (Some c) | None => None end;
     p_closed_reason := match why with Some r => Some (Some r) | None => None end; p_forbidden := [] |}.

(** [complete], at the instants of its two readings of the clock. *)
Definition complete (id : string) (completed_at now : Z) : M TaskStore Task :=
  t ← update_task id (closing t_done (Some completed_at) None) now;
  emit (TaskCompleted (t_id t) (t_title t) completed_at (t_parent_goal_id t));;
  mret t.

Definition drop_task (id : string) (now : Z) : M TaskStore Task :=
  t ← update_task id (closing t_dropped None None) now;
  emit (TaskDropped (t_id t) (t_title t) (t_updated_at t) (t_parent_goal_id t));;
  mret t.

Definition expire_task (id reason : string) (now : Z) : M TaskStore Task := update_task id (closing t_expired None (Some reason)) now.

Definition resolving (at_ : Z) : TaskPatch :=
  {| p_title := None; p_description := None; p_status := None; p_priority := None; p_source_kind := None; p_source_id := None;
     p_parent_task_id := None; p_due_at := None; p_wait_for := None; p_wait_for_resolved_at := Some (Some at_);
     p_parent_goal_id := None; p_related_wikilinks := None; p_calendar_event_id := None; p_calendar_visible := None;
     p_action := None; p_completed_at := None; p_closed_reason := None; p_forbidden := [] |}.

Definition resolve_wait (id by_event : string) (resolved_at now : Z) : M TaskStore Task :=
  current ← get_task id;
  match current with
  | None => raise (Exn "KeyError" ("task not found: " +:+ id))
  | Some t =>
      match t_wait_for t with
      | None => raise (ValueError ("task " +:+ id +:+ " has no wait_for to resolve"))
      | Some _ =>
          t' ← update_task id (resolving resolved_at) now;
          emit (TaskWaitResolved (t_id t') by_event resolved_at);;
          mret t'
      end
  end.

(** [list]: the conditions, then by priority, the highest first, then by due date, none first. *)
Record TaskFilter := {
  f_status : option TaskStatus; f_source_kind : option string; f_parent_task_id : option string;
  f_parent_goal_id : option string; f_due_before : option Z; f_has_action : option bool }.
Definition any_task : TaskFilter :=
  {| f_status := None; f_source_kind := None; f_parent_task_id := None; f_parent_goal_id := None; f_due_before := None;
     f_has_action := None |}.

Definition matches {A} `{EqDecision A} (want : option A) (have : option A) : bool :=
  match want with Some x => bool_decide (have = Some x) | None => true end.
Definition selects (f : TaskFilter) (t : Task) : bool :=
  matches (f_status f) (Some (t_status t)) && matches (f_source_kind f) (t_source_kind t)
  && matches (f_parent_task_id f) (t_parent_task_id t) && matches (f_parent_goal_id f) (t_parent_goal_id t)
  && match f_due_before f with
     | Some b => match t_due_at t with Some d => (d <=? b)%Z | None => false end
     | None => true
     end
  && match f_has_action f with Some b => Bool.eqb b (match t_action t with Some _ => true | None => false end) | None => true end.

Definition in_order (l : list Task) : list Task :=
  sort_by (λ t, - t_priority t)%Z
    (sort_by (λ t, match t_due_at t with Some _ => 1%Z | None => 0%Z end) (sort_by (λ t, default 0%Z (t_due_at t)) l)).
Definition list_tasks (f : TaskFilter) (limit : nat) : M TaskStore (list Task) :=
  gets (λ s, take limit (in_order (select_where (selects f) (ts_tasks s)))).

(** ** Goals *)

Definition insert_goal (g : Goal) : M TaskStore unit := λ s,
  if existsb (goal_is (g_id g)) (ts_goals s) then (Raise (IntegrityError "UNIQUE constraint failed: goals.id"), s)
  else (Ok tt, set_goals (ts_goals s ++ [g]) s).

Definition create_goal (draft : Goal) : M TaskStore Goal :=
  g ← lift_res (Goal_of draft);
  insert_goal g;;
  emit (GoalCreated (g_id g) (g_title g) (g_status g) (g_target_date g) (g_created_at g));;
  mret g.

Definition get_goal (id : string) : M TaskStore (option Goal) := gets (λ s, select_one (goal_is id) (ts_goals s)).
Definition list_goals (st : option GoalStatus) (limit : nat) : M TaskStore (list Goal) :=
  gets (λ s, take limit (sort_by (λ g, - g_created_at g)%Z (select_where (λ g, matches st (Some (g_status g))) (ts_goals s)))).

Record GoalPatch := {
  gp_title : option string; gp_description : option string; gp_status : option GoalStatus; gp_target_date : option (option Z);
  gp_success_criteria : option string; gp_completed_at : option (option Z); gp_forbidden : list string }.

Definition goal_changed_fields (p : GoalPatch) : list string :=
  given "completed_at" (gp_completed_at p) ++ given "description" (gp_description p) ++ given "status" (gp_status p)
  ++ given "success_criteria" (gp_success_criteria p) ++ given "target_date" (gp_target_date p) ++ given "title" (gp_title p).

Definition merged_goal (g : Goal) (p : GoalPatch) (now : Z) : Goal :=
  {| g_id := g_id g; g_title := default (g_title g) (gp_title p); g_description := default (g_description g) (gp_description p);
     g_status := default (g_status g) (gp_status p); g_target_date := default (g_target_date g) (gp_target_date p);
     g_success_criteria := default (g_success_criteria g) (gp_success_criteria p); g_created_at := g_created_at g;
     g_updated_at := now; g_completed_at := default (g_completed_at g) (gp_completed_at p) |}.

Definition update_goal (id : string) (p : GoalPatch) (now : Z) : M TaskStore Goal :=
  match gp_forbidden p with
  | _ :: _ => raise (ValueError "update_goal() cannot change immutable fields")
  | [] =>
      current ← get_goal id;
      match current with
      | None => raise (Exn "KeyError" ("goal not found: " +:+ id))
      | Some g =>
          g' ← lift_res (Goal_of (merged_goal g p now));
          modify (λ s, set_goals (update_where (goal_is (g_id g')) (λ _, g') (ts_goals s)) s);;
          emit (match g_completed_at g' with
                | Some c => if bool_decide (g_status g' = g_achieved) then GoalAchieved (g_id g') (g_title g') c
                            else GoalUpdated (g_id g') (g_status g') (g_updated_at g') (goal_changed_fields p)
                | None => GoalUpdated (g_id g') (g_status g') (g_updated_at g') (goal_changed_fields p)
                end);;
          mret g'
      end
  end.

(** An operation of a store opened on the database, on the process's bus or on none. *)
Definition with_bus {A} (bus : bool) (m : M TaskStore A) : M TaskStore A := λ s,
  let set b s := {| ts_tasks := ts_tasks s; ts_goals := ts_goals s; ts_bus := b; ts_events := ts_events s |} in
  let '(r, s') := m (set bus s) in (r, set (ts_bus s) s').

(** ** The invariant of the store *)

Definition live (t : Task) : bool := negb (bool_decide (t_status t = t_dropped)).
(** The key a row holds in the unique index. *)
Definition live_key (t : Task) : option string := if live t then t_dedup_key t else None.

Record store_ok (s : TaskStore) : Prop := {
  so_ids : NoDup (map t_id (ts_tasks s));
  so_goal_ids : NoDup (map g_id (ts_goals s));
  so_keys : NoDup (omap live_key (ts_tasks s));
  so_valid : Forall (λ t, Task_of t = Ok t) (ts_tasks s);
  so_goals_valid : Forall (λ g, Goal_of g = Ok g) (ts_goals s);
  so_refs : Forall (λ t, refs_ok t (ts_tasks s) (ts_goals s) = true) (ts_tasks s) }.

(** A task keeps its identity. *)
Definition same_task (t t' : Task) : Prop :=
  t_id t' = t_id t ∧ t_dedup_key t' = t_dedup_key t ∧ t_created_at t' = t_created_at t.

(** Rows stay, in their place, and keep their identity; goals too. *)
Definition store_grows (s s' : TaskStore) : Prop :=
  (∃ new, ∃ l, ts_tasks s' = l ++ new ∧ Forall2 same_task (ts_tasks s) l) ∧
  (∃ new, ∃ l, ts_goals s' = l ++ new ∧ Forall2 (λ g g', g_id g' = g_id g ∧ g_created_at g' = g_created_at g) (ts_goals s) l).

(** ** Validated models are fixed points *)

Lemma stripped_idem x : stripped (stripped x) = stripped x.
Proof. destruct x; [|done]. cbn. by rewrite str_strip_idem. Qed.

Lemma map_strip_idem l : map str_strip (map str_strip l) = map str_strip l.
Proof. rewrite map_map. apply map_ext, str_strip_idem. Qed.

(** A constructor whose result it accepts as it is. *)
Definition normalizes {A} (f : A → res A) : Prop := ∀ a a', f a = Ok a' → f a' = Ok a'.

Lemma res_all_normalizes {A} (f : A → res A) : normalizes f → normalizes (res_all f).
Proof. intros Hf l l'. rewrite !res_all_ok. induction 1; constructor; [by eapply Hf|done]. Qed.

Lemma res_option_normalizes {A} (f : A → res A) : normalizes f → normalizes (res_option f).
Proof.
  intros Hf x x'. destruct x as [a|]; cbn; [|by intros [= <-]]. destruct (f a) as [b|e] eqn:Hb; [|done]. intros [= <-]. cbn.
  by rewrite (Hf _ _ Hb).
Qed.

Lemma ActionChoice_of_valid : normalizes ActionChoice_of.
Proof.
  intros c c'. unfold ActionChoice_of. cbv zeta. cbn [ch_value ch_label ch_primary ch_needs_option]. destruct (_ && _) eqn:E; [|done].
  intros [= <-]. cbn [ch_value ch_label ch_primary ch_needs_option]. by rewrite !str_strip_idem, E.
Qed.

Lemma ActionOptionValue_of_valid : normalizes ActionOptionValue_of.
Proof.
  intros v v'. unfold ActionOptionValue_of. cbv zeta. cbn [fst snd]. destruct (_ && _) eqn:E; [|done]. intros [= <-]. cbn [fst snd].
  by rewrite !str_strip_idem, E.
Qed.

Lemma ActionOptions_of_valid : normalizes ActionOptions_of.
Proof.
  intros o o'. unfold ActionOptions_of. destruct (res_all _ (op_values o)) as [vs|e] eqn:Hvs; [|done].
  apply (res_all_normalizes _ ActionOptionValue_of_valid) in Hvs. cbv zeta. cbn [res_bind op_name op_label op_default].
  destruct (negb (_ && _)) eqn:E1; [done|]. destruct (match _ with Some d => _ | None => _ end) eqn:E2; [|done]. intros [= <-].
  cbn [op_name op_label op_default op_values]. rewrite Hvs. cbn [res_bind]. by rewrite !str_strip_idem, stripped_idem, E1, E2.
Qed.

Lemma ActionFact_of_valid : normalizes ActionFact_of.
Proof.
  intros f f'. unfold ActionFact_of. cbv zeta. cbn [fa_label fa_value]. destruct (_ && _) eqn:E; [|done]. intros [= <-].
  cbn [fa_label fa_value]. by rewrite !str_strip_idem, E.
Qed.

Lemma ActionEvidence_of_valid : normalizes ActionEvidence_of.
Proof.
  intros f f'. unfold ActionEvidence_of. cbv zeta. cbn [ae_when ae_text]. destruct (_ && _) eqn:E; [|done]. intros [= <-].
  cbn [ae_when ae_text]. by rewrite !str_strip_idem, E.
Qed.

Lemma ActionCard_of_valid : normalizes ActionCard_of.
Proof.
  intros c c'. unfold ActionCard_of. destruct (res_all _ (ac_facts c)) as [fs|e] eqn:Hfs; [|done].
  apply (res_all_normalizes _ ActionFact_of_valid) in Hfs. cbn [res_bind]. destruct (res_all _ (ac_evidence c)) as [es|e] eqn:Hes; [|done].
  apply (res_all_normalizes _ ActionEvidence_of_valid) in Hes. cbv zeta. cbn [res_bind ac_tag ac_evidence_label ac_note].
  destruct (_ && _) eqn:E; [|done]. intros [= <-]. cbn [ac_tag ac_facts ac_evidence ac_evidence_label ac_note]. rewrite Hfs. cbn [res_bind].
  rewrite Hes. cbn [res_bind]. by rewrite !str_strip_idem, !stripped_idem, E.
Qed.

Lemma validate_action_shape_same a a' : validate_action_shape a = Ok a' → a' = a.
Proof. unfold validate_action_shape. intros H. repeat (case_match; [done|]). by injection H. Qed.

Lemma TaskAction_of_valid : normalizes TaskAction_of.
Proof.
  intros a a'. unfold TaskAction_of. destruct (res_all _ (ta_choices a)) as [cs|e] eqn:Hcs; [|done]. cbn [res_bind].
  apply (res_all_normalizes _ ActionChoice_of_valid) in Hcs. destruct (res_option _ (ta_options a)) as [os|e] eqn:Hos; [|done].
  apply (res_option_normalizes _ ActionOptions_of_valid) in Hos. cbn [res_bind]. destruct (res_option _ (ta_card a)) as [card|e] eqn:Hcard; [|done].
  apply (res_option_normalizes _ ActionCard_of_valid) in Hcard. cbv zeta. cbn [res_bind ta_label ta_command ta_target_id].
  destruct (negb (_ && _)) eqn:E1; [done|]. intros H. pose proof (validate_action_shape_same _ _ H) as ->.
  cbn [ta_kind ta_label ta_command ta_target_id ta_safe ta_choices ta_options ta_card]. rewrite Hcs. cbn [res_bind].
  rewrite Hos. cbn [res_bind]. rewrite Hcard. cbn [res_bind]. by rewrite !str_strip_idem, !stripped_idem, E1.
Qed.

(** The model a validated task is, once its action is. *)
Definition normal_task (t : Task) (action : option TaskAction) : Task :=
  {| t_id := str_strip (t_id t); t_title := str_strip (t_title t); t_description := str_strip (t_description t);
     t_status := t_status t; t_priority := t_priority t; t_source_kind := t_source_kind t;
     t_source_id := stripped (t_source_id t); t_parent_task_id := stripped (t_parent_task_id t);
     t_dedup_key := stripped (t_dedup_key t); t_due_at := t_due_at t; t_wait_for := t_wait_for t;
     t_wait_for_resolved_at := t_wait_for_resolved_at t; t_parent_goal_id := stripped (t_parent_goal_id t);
     t_related_wikilinks := map str_strip (t_related_wikilinks t);
     t_calendar_event_id := stripped (t_calendar_event_id t); t_calendar_visible := t_calendar_visible t;
     t_action := action; t_created_at := t_created_at t; t_updated_at := t_updated_at t;
     t_completed_at := t_completed_at t; t_closed_reason := stripped (t_closed_reason t) |}.

Lemma Task_of_normal t t' : Task_of t = Ok t' →
  ∃ action, res_option TaskAction_of (t_action t) = Ok action ∧ t' = normal_task t action.
Proof.
  unfold Task_of. destruct (res_option _ _) as [action|e]; [|done]. cbn [res_bind]. cbv zeta. intros H. exists action. split; [done|].
  revert H. destruct (negb _); [done|]. unfold normal_task. cbn [t_status t_completed_at].
  destruct (t_status t), (t_completed_at t); by intros [= <-].
Qed.

Lemma Task_of_valid : normalizes Task_of.
Proof.
  intros t t' H. destruct (Task_of_normal _ _ H) as (action & Ha & ->). revert H. unfold Task_of at 1. rewrite Ha.
  apply (res_option_normalizes _ TaskAction_of_valid) in Ha. unfold Task_of, normal_task.
  cbn [t_id t_title t_description t_status t_priority t_source_kind t_source_id t_parent_task_id t_dedup_key t_due_at t_wait_for
       t_wait_for_resolved_at t_parent_goal_id t_related_wikilinks t_calendar_event_id t_calendar_visible t_action t_created_at
       t_updated_at t_completed_at t_closed_reason]. rewrite Ha. cbn [res_bind]. cbv zeta.
  by rewrite !str_strip_idem, !stripped_idem, map_strip_idem.
Qed.

Lemma Task_of_same t t' : Task_of t = Ok t' →
  t_id t' = str_strip (t_id t) ∧ t_dedup_key t' = stripped (t_dedup_key t) ∧ t_created_at t' = t_created_at t ∧
  t_status t' = t_status t ∧ t_source_kind t' = t_source_kind t ∧ res_option TaskAction_of (t_action t) = Ok (t_action t').
Proof. by intros (action & Ha & ->)%Task_of_normal. Qed.

Lemma Goal_of_valid g g' : Goal_of g = Ok g' → Goal_of g' = Ok g'.
Proof.
  unfold Goal_of. cbv zeta. cbn [g_id g_title g_status g_completed_at].
  destruct (negb (str_truthy _)) eqn:E1; [done|]. destruct (negb (length_between _ _ _)) eqn:E2; [done|]. intros H.
  assert (g' = {| g_id := str_strip (g_id g); g_title := str_strip (g_title g); g_description := str_strip (g_description g);
              g_status := g_status g; g_target_date := g_target_date g; g_success_criteria := str_strip (g_success_criteria g);
              g_created_at := g_created_at g; g_updated_at := g_updated_at g; g_completed_at := g_completed_at g |}) as ->
    by (by destruct (g_status g), (g_completed_at g); simplify_eq).
  cbn [g_id g_title g_description g_status g_target_date g_success_criteria g_created_at g_updated_at g_completed_at].
  rewrite !str_strip_idem, E1, E2. exact H.
Qed.

Lemma Goal_of_same g g' : Goal_of g = Ok g' → g_id g' = str_strip (g_id g) ∧ g_created_at g' = g_created_at g.
Proof.
  unfold Goal_of. cbv zeta. destruct (negb (str_truthy _)); [done|]. destruct (negb (length_between _ _ _)); [done|].
  destruct (g_status _), (g_completed_at _); intros [= <-]; done.
Qed.

(** A valid task's identity is already stripped. *)
Lemma valid_stripped t : Task_of t = Ok t → str_strip (t_id t) = t_id t ∧ stripped (t_dedup_key t) = t_dedup_key t.
Proof. intros (H1 & H2 & _)%Task_of_same. by rewrite <- H1, <- H2. Qed.

Lemma merged_same t p now t' :
  Task_of t = Ok t → Task_of (merged_task t p now) = Ok t' → same_task t t'.
Proof.
  intros [Hi Hk]%valid_stripped (H1 & H2 & H3 & _)%Task_of_same. cbn [merged_task t_id t_dedup_key t_created_at] in *.
  unfold same_task. by rewrite H1, H2, Hi, Hk.
Qed.

(** ** Steps of the store *)

Definition task_step (s s' : TaskStore) : Prop := store_ok s → store_ok s' ∧ store_grows s s'.

#[export] Instance same_task_preorder : PreOrder same_task.
Proof. split; [done|]. intros ? ? ? (? & ? & ?) (? & ? & ?). unfold same_task. split_and!; congruence. Qed.

Lemma Forall2_refl_pre {A} (R : A → A → Prop) `{!Reflexive R} l : Forall2 R l l.
Proof. induction l; constructor; done. Qed.

Lemma Forall2_pre_trans {A} (R : A → A → Prop) `{!Transitive R} a b c : Forall2 R a b → Forall2 R b c → Forall2 R a c.
Proof.
  intros H. revert c. induction H as [|x y a b Hxy _ IH]; intros c Hc; [by inversion Hc|].
  inversion Hc as [|? z ? c' Hyz Hc']; subst. constructor; [by etrans|auto].
Qed.

(** Rows kept in place, through two steps. *)
Lemma kept_trans {A} (R : A → A → Prop) `{!PreOrder R} (a b c : list A) :
  (∃ new l, b = l ++ new ∧ Forall2 R a l) → (∃ new l, c = l ++ new ∧ Forall2 R b l) → ∃ new l, c = l ++ new ∧ Forall2 R a l.
Proof.
  intros (n1 & l1 & -> & H1) (n2 & l2 & -> & H2). apply Forall2_app_inv_l in H2 as (x & y & Hx & Hy & ->).
  exists (y ++ n2), x. rewrite app_assoc. split; [done|]. exact (Forall2_pre_trans R a l1 x H1 Hx).
Qed.

Definition same_goal (g g' : Goal) : Prop := g_id g' = g_id g ∧ g_created_at g' = g_created_at g.
#[export] Instance same_goal_preorder : PreOrder same_goal.
Proof. split; [done|]. intros ? ? ? (? & ?) (? & ?). unfold same_goal. split; congruence. Qed.

#[export] Instance task_step_preorder : PreOrder task_step.
Proof.
  split.
  - intros s Hs. split; [done|]. split; eexists [], _; (split; [by rewrite app_nil_r|]); by apply Forall2_refl_pre.
  - intros s1 s2 s3 H12 H23 H1. destruct (H12 H1) as [H2 [Ga Gb]], (H23 H2) as [H3 [Gc Gd]].
    split; [done|]. split; [by eapply (kept_trans same_task)|by eapply (kept_trans same_goal)].
Qed.

Lemma unchanged s : task_step s s.
Proof. reflexivity. Qed.

#[export] Instance emit_step e : Respects task_step (emit e).
Proof.
  intros s Hs. unfold emit, modify. cbn [snd]. split; [by destruct Hs; split|].
  split; eexists [], _; (split; [by rewrite app_nil_r|]); [by apply (Forall2_refl_pre same_task)|by apply (Forall2_refl_pre same_goal)].
Qed.

(** References survive when no id disappears. *)
Lemma refs_mono t tasks tasks' goals goals' :
  map t_id tasks ⊆ map t_id tasks' → map g_id goals ⊆ map g_id goals' →
  refs_ok t tasks goals = true → refs_ok t tasks' goals' = true.
Proof.
  intros Ht Hg. unfold refs_ok. rewrite !andb_true_iff. intros [H1 H2]. split.
  - destruct (t_parent_task_id t) as [p|]; [|done]. apply existsb_exists in H1 as (r & Hr & Hp%String.eqb_eq). apply existsb_exists.
    assert (p ∈ map t_id tasks') as (r' & -> & Hr')%list_elem_of_fmap.
    { apply Ht, list_elem_of_fmap. exists r. split; [done|]. by apply list_elem_of_In. }
    exists r'. split; [by apply list_elem_of_In|apply string_eqb_refl].
  - destruct (t_parent_goal_id t) as [p|]; [|done]. apply existsb_exists in H2 as (r & Hr & Hp%String.eqb_eq). apply existsb_exists.
    assert (p ∈ map g_id goals') as (r' & -> & Hr')%list_elem_of_fmap.
    { apply Hg, list_elem_of_fmap. exists r. split; [done|]. by apply list_elem_of_In. }
    exists r'. split; [by apply list_elem_of_In|apply string_eqb_refl].
Qed.

(** A key that does not clash is held by no other row. *)
Lemma no_key_clash t others k : key_clash t others = false → live_key t = Some k → k ∉ omap live_key others.
Proof.
  unfold key_clash, live_key, live. destruct (bool_decide (t_status t = t_dropped)) eqn:Hd; [done|]. cbn [negb].
  intros Hc Hkey. rewrite Hkey in Hc. cbn [andb] in Hc. intros (r & Hr & Hk)%list_elem_of_omap.
  assert (existsb (holds_key k) others = true); [|congruence]. apply existsb_exists. exists r. split; [by apply list_elem_of_In|].
  unfold holds_key. destruct (bool_decide (t_status r = t_dropped)); [done|]. cbn in Hk. rewrite andb_true_iff. split; [|done].
  by apply bool_decide_eq_true.
Qed.

Lemma omap_place {A B} (f : A → option B) l1 x l2 :
  NoDup (omap f (l1 ++ l2)) → (∀ k, f x = Some k → k ∉ omap f (l1 ++ l2)) → NoDup (omap f (l1 ++ x :: l2)).
Proof.
  rewrite !omap_app. cbn. destruct (f x) as [k|]; [|done]. intros Hnd Hk. rewrite <- Permutation_middle. constructor; [by apply Hk|done].
Qed.

Lemma insert_task_step t : Task_of t = Ok t → Respects task_step (insert_task t).
Proof.
  intros Hv s Hs. unfold insert_task. destruct (existsb _ _) eqn:Hid; [exact (unchanged s Hs)|].
  destruct (key_clash t (ts_tasks s)) eqn:Hkey; [exact (unchanged s Hs)|].
  destruct (negb (refs_ok _ _ _)) eqn:Hr; [exact (unchanged s Hs)|]. apply negb_false_iff in Hr. cbn [snd].
  destruct Hs as [Hi Hg Hk Hval Hgv Href]. split; [split; cbn [set_tasks ts_tasks ts_goals]; [|done| | |done|]|].
  - rewrite map_app. cbn. apply NoDup_app. split_and!; [done| |apply NoDup_singleton]. intros x Hx ->%list_elem_of_singleton.
    apply list_elem_of_fmap in Hx as (r & He & Hx). assert (existsb (task_is (t_id t)) (ts_tasks s) = true); [|congruence].
    apply existsb_exists. exists r. split; [by apply list_elem_of_In|]. unfold task_is. rewrite He. apply string_eqb_refl.
  - apply omap_place; rewrite app_nil_r; [done|]. intros k. by apply no_key_clash.
  - apply Forall_app. split; [done|by constructor].
  - apply Forall_app. split; [|by constructor]. eapply Forall_impl; [exact Href|]. intros r. apply refs_mono; [|done].
    rewrite map_app. set_solver.
  - split; cbn [set_tasks ts_tasks ts_goals]; [exists [t], (ts_tasks s)|exists [], (ts_goals s)].
    + split; [done|apply Forall2_refl_pre, _].
    + rewrite app_nil_r. split; [done|by apply (Forall2_refl_pre same_goal)].
Qed.

(** The row an update rewrites, between its neighbours. *)
Lemma row_place id l t :
  NoDup (map t_id l) → select_one (task_is id) l = Some t →
  ∃ l1 l2, l = l1 ++ t :: l2 ∧ t_id t = id ∧ List.filter (λ r, negb (task_is id r)) l = l1 ++ l2 ∧
    ∀ t', update_where (task_is id) (λ _, t') l = l1 ++ t' :: l2.
Proof.
  intros Hnd. induction l as [|r l IH]; [done|]. cbn [map] in Hnd. apply NoDup_cons in Hnd as [Hr Hnd].
  unfold select_one. cbn [List.find]. destruct (task_is id r) eqn:He.
  - intros [= <-]. exists [], l. apply String.eqb_eq in He. split_and!; [done|done| |].
    + cbn. unfold task_is at 1. rewrite He, string_eqb_refl. cbn. apply forallb_filter_id, forallb_forall. intros r' Hr'.
      apply negb_true_iff. unfold task_is. apply String.eqb_neq. intros E. apply Hr. rewrite He, <- E.
      apply list_elem_of_fmap. exists r'. split; [done|by apply list_elem_of_In].
    + intros t'. unfold update_where. cbn [map]. unfold task_is at 1. rewrite He, string_eqb_refl. cbn. f_equal.
      transitivity (map (λ x, x) l); [|apply map_id]. apply map_ext_in. intros r' Hr'%list_elem_of_In. unfold task_is. destruct (String.eqb_spec (t_id r') id) as [E|]; [|done]. destruct Hr.
      rewrite He, <- E. apply list_elem_of_fmap. by exists r'.
  - intros H. destruct (IH Hnd H) as (l1 & l2 & -> & Ht & Hf & Hu). exists (r :: l1), l2. split_and!; [done|done| |].
    + cbn [List.filter]. rewrite He. cbn [negb]. by rewrite Hf.
    + intros t'. unfold update_where in *. cbn [map]. by rewrite He, Hu.
Qed.

(** A bind over a result, with the equation of the value it went on with. *)
Lemma respects_bind_lift {S A B} (R : S → S → Prop) `{!PreOrder R} (r : res A) (f : A → M S B) :
  (∀ a, r = Ok a → Respects R (f a)) → Respects R (lift_res r ≫= f).
Proof. intros Hf s. destruct r as [a|e]; [by apply Hf|]. cbn. reflexivity. Qed.

Lemma same_ids l l' : Forall2 same_task l l' → map t_id l' = map t_id l.
Proof. induction 1 as [|t t' l l' (Hi & _) _ IH]; [done|]. cbn. by rewrite Hi, IH. Qed.

Lemma write_task_step t t' s :
  select_one (task_is (t_id t)) (ts_tasks s) = Some t → same_task t t' → Task_of t' = Ok t' → task_step s (snd (write_task t' s)).
Proof.
  intros Hsel Hsame Hv Hs. destruct Hs as [Hi Hg Hk Hval Hgv Href].
  destruct (row_place (t_id t) _ t Hi Hsel) as (l1 & l2 & Hl & _ & Hf & Hu). unfold write_task.
  assert (t_id t' = t_id t) as Hid by apply Hsame. rewrite Hid, Hf, (Hu t').
  destruct (key_clash t' (l1 ++ l2)) eqn:Hkey; [apply unchanged; by split|].
  destruct (negb (refs_ok _ _ _)) eqn:Hr; [apply unchanged; by split|]. apply negb_false_iff in Hr. cbn [snd].
  rewrite Hl in Hi, Hk, Hval, Href.
  assert (Forall2 same_task (l1 ++ t :: l2) (l1 ++ t' :: l2)) as Hsm.
  { apply Forall2_app; [apply (Forall2_refl_pre same_task)|constructor; [done|apply (Forall2_refl_pre same_task)]]. }
  pose proof (same_ids _ _ Hsm) as Hids.
  split; [split; cbn [set_tasks ts_tasks ts_goals]; [|done| | |done|]|].
  - by rewrite Hids.
  - apply omap_place; [|intros k; by apply no_key_clash]. rewrite omap_app in Hk |- *. cbn in Hk.
    apply NoDup_app in Hk as (H1 & H2 & H3). apply NoDup_app. destruct (live_key t); [|done].
    split_and!; [done| |by apply NoDup_cons in H3 as [_ ?]]. intros x Hx Hx2. apply (H2 x Hx). by right.
  - apply Forall_app in Hval as [Hv1 [_ Hv2]%Forall_cons]. apply Forall_app. split; [done|by constructor].
  - rewrite Hl in Hr. apply Forall_app in Href as [Hr1 [_ Hr2]%Forall_cons].
    assert (∀ r, refs_ok r (l1 ++ t :: l2) (ts_goals s) = true → refs_ok r (l1 ++ t' :: l2) (ts_goals s) = true) as Hm
      by (intros r; apply refs_mono; [by rewrite Hids|done]).
    apply Forall_app. split; [by eapply Forall_impl; [exact Hr1|]|]. constructor; [by apply Hm|by eapply Forall_impl; [exact Hr2|]].
  - split; cbn [set_tasks ts_tasks ts_goals]; [exists [], (l1 ++ t' :: l2)|exists [], (ts_goals s)]; rewrite app_nil_r.
    + rewrite Hl. done.
    + split; [done|by apply (Forall2_refl_pre same_goal)].
Qed.

(** ** The operations *)

#[export] Typeclasses Opaque create_task upsert update_task complete drop_task expire_task resolve_wait create_goal update_goal
  insert_task write_task insert_goal emit.

#[export] Instance create_task_step draft : Respects task_step (create_task draft).
Proof.
  unfold create_task. apply (respects_bind_lift task_step). intros t Ht%Task_of_valid.
  pose proof (insert_task_step t Ht). apply _.
Qed.

#[export] Instance upsert_step key draft : Respects task_step (upsert key draft).
Proof.
  unfold upsert. destruct (negb _); [apply _|]. apply (respects_bind task_step); [apply _|]. intros [t|]; apply _.
Qed.

#[export] Instance update_task_step id p now : Respects task_step (update_task id p now).
Proof.
  unfold update_task. destruct (p_forbidden p); [|apply _]. intros s. unfold get_task. run_monad.
  destruct (select_one (task_is id) (ts_tasks s)) as [t|] eqn:Hsel; [|reflexivity].
  unfold lift_res. destruct (Task_of (merged_task t p now)) as [t'|e] eqn:Ht; [|reflexivity].
  intros Hs. destruct (select_one_Some _ _ _ Hsel) as [Hin Hid%String.eqb_eq].
  assert (Task_of t = Ok t) as Hval by (destruct Hs as [_ _ _ Hval _ _]; by eapply Forall_forall in Hval).
  rewrite <- Hid in Hsel.
  pose proof (write_task_step t t' s Hsel (merged_same t p now t' Hval Ht) (Task_of_valid _ _ Ht)) as Hw.
  destruct (write_task t' s) as [[[]|e] s1]; cbn [snd] in Hw; [|by apply Hw].
  revert Hs. change (task_step s (snd (emit (TaskUpdated (t_id t') (t_status t') (t_updated_at t') (changed_fields p)) s1))).
  etrans; [exact Hw|]. apply emit_step.
Qed.

#[export] Instance complete_step id c now : Respects task_step (complete id c now).
Proof. unfold complete. apply _. Qed.
#[export] Instance drop_task_step id now : Respects task_step (drop_task id now).
Proof. unfold drop_task. apply _. Qed.
#[export] Instance expire_task_step id why now : Respects task_step (expire_task id why now).
Proof. unfold expire_task. apply _. Qed.
#[export] Instance resolve_wait_step id ev at_ now : Respects task_step (resolve_wait id ev at_ now).
Proof.
  unfold resolve_wait. apply (respects_bind task_step); [apply _|]. intros [t|]; [|apply _]. destruct (t_wait_for t); apply _.
Qed.

#[export] Instance create_goal_step draft : Respects task_step (create_goal draft).
Proof.
  unfold create_goal. apply (respects_bind_lift task_step). intros g Hg.
  enough (Respects task_step (insert_goal g)) by apply _.
  intros s Hs. unfold insert_goal. destruct (existsb _ _) eqn:Hid; [exact (unchanged s Hs)|]. cbn [snd].
  destruct Hs as [Hi Hgi Hk Hval Hgv Href]. split; [split; cbn [set_goals ts_tasks ts_goals]; [done| |done|done| |]|].
  - rewrite map_app. cbn. apply NoDup_app. split_and!; [done| |apply NoDup_singleton]. intros x Hx ->%list_elem_of_singleton.
    apply list_elem_of_fmap in Hx as (r & He & Hx). assert (existsb (goal_is (g_id g)) (ts_goals s) = true); [|congruence].
    apply existsb_exists. exists r. split; [by apply list_elem_of_In|]. unfold goal_is. rewrite He. apply string_eqb_refl.
  - apply Forall_app. split; [done|]. constructor; [by eapply Goal_of_valid|done].
  - eapply Forall_impl; [exact Href|]. intros r. apply refs_mono; [done|]. rewrite map_app. set_solver.
  - split; cbn [set_goals ts_tasks ts_goals]; [exists [], (ts_tasks s)|exists [g], (ts_goals s)].
    + rewrite app_nil_r. split; [done|by apply (Forall2_refl_pre same_task)].
    + split; [done|by apply (Forall2_refl_pre same_goal)].
Qed.

Lemma goals_rewritten id g' l g :
  NoDup (map g_id l) → select_one (goal_is id) l = Some g → same_goal g g' →
  Forall2 same_goal l (update_where (goal_is id) (λ _, g') l) ∧
  (∀ x, x ∈ update_where (goal_is id) (λ _, g') l → x = g' ∨ x ∈ l).
Proof.
  intros Hnd Hsel Hsm. destruct (select_one_Some _ _ _ Hsel) as [Hin Hid%String.eqb_eq]. split.
  - unfold update_where. apply Forall2_fmap_r, Forall_Forall2_diag, Forall_forall. intros r Hr.
    cbn. destruct (goal_is id r) eqn:He; [|reflexivity]. apply String.eqb_eq in He.
    by rewrite (unique_key g_id l r g Hnd Hr Hin (eq_trans He (eq_sym Hid))).
  - intros x (r & Hx & Hr)%list_elem_of_fmap. destruct (goal_is id r); [by left|right]. by subst.
Qed.

#[export] Instance update_goal_step id p now : Respects task_step (update_goal id p now).
Proof.
  unfold update_goal. destruct (gp_forbidden p); [|apply _]. intros s. unfold get_goal. run_monad.
  destruct (select_one (goal_is id) (ts_goals s)) as [g|] eqn:Hsel; [|reflexivity].
  unfold lift_res. destruct (Goal_of (merged_goal g p now)) as [g'|e] eqn:Hg; [|reflexivity].
  match goal with |- context [emit ?e _] => generalize e end. intros ev Hs.
  set (s1 := set_goals _ s). enough (task_step s s1) as Hw.
  { revert Hs. change (task_step s (snd (emit ev s1))). etrans; [exact Hw|]. apply emit_step. }
  clear Hs. intros Hs. destruct Hs as [Hi Hgi Hk Hval Hgv Href].
  destruct (select_one_Some _ _ _ Hsel) as [Hin Hid%String.eqb_eq].
  assert (Goal_of g = Ok g) as Hgok by (by eapply Forall_forall in Hgv). destruct (Goal_of_same _ _ Hgok) as [Hst _].
  destruct (Goal_of_same _ _ Hg) as [Hid' Hc']. cbn [merged_goal g_id g_created_at] in Hid', Hc'. rewrite <- Hst in Hid'.
  assert (g_id g' = id) as Hgid by congruence. subst s1. rewrite Hgid.
  destruct (goals_rewritten id g' (ts_goals s) g Hgi Hsel) as [Hsm Hel]; [by split|].
  assert (map g_id (update_where (goal_is id) (λ _, g') (ts_goals s)) = map g_id (ts_goals s)) as Hids.
  { clear -Hsm. induction Hsm as [|a b l l' [Ha _] _ IH]; [done|]. cbn. by rewrite Ha, IH. }
  split; [split; cbn [set_goals ts_tasks ts_goals]; [done| |done|done| |]|].
  - by rewrite Hids.
  - apply Forall_forall. intros x [->|Hx]%Hel; [by eapply Goal_of_valid|by eapply Forall_forall in Hgv].
  - eapply Forall_impl; [exact Href|]. intros r. apply refs_mono; [done|by rewrite Hids].
  - split; cbn [set_goals ts_tasks ts_goals]; eexists [], _; rewrite app_nil_r; (split; [done|]);
      [apply (Forall2_refl_pre same_task)|exact Hsm].
Qed.

(** Any operation of the store. *)
Inductive task_op :=
| OCreate (draft : Task) | OUpsert (key : string) (draft : Task) | OUpdate (id : string) (p : TaskPatch) (now : Z)
| OComplete (id : string) (completed_at now : Z) | ODrop (id : string) (now : Z) | OExpire (id reason : string) (now : Z)
| OResolve (id by_event : string) (resolved_at now : Z) | OCreateGoal (draft : Goal)
| OUpdateGoal (id : string) (p : GoalPatch) (now : Z).

Definition run_task_op (o : task_op) : M TaskStore unit :=
  match o with
  | OCreate d => _ ← create_task d; mret () | OUpsert k d => _ ← upsert k d; mret ()
  | OUpdate i p n => _ ← update_task i p n; mret () | OComplete i c n => _ ← complete i c n; mret ()
  | ODrop i n => _ ← drop_task i n; mret () | OExpire i r n => _ ← expire_task i r n; mret ()
  | OResolve i e a n => _ ← resolve_wait i e a n; mret () | OCreateGoal d => _ ← create_goal d; mret ()
  | OUpdateGoal i p n => _ ← update_goal i p n; mret ()
  end.

(** A sequence of operations, some of which may raise. *)
Definition run_task_ops (l : list task_op) (s : TaskStore) : TaskStore := fold_left (λ s o, run_state (run_task_op o) s) l s.

#[export] Instance run_task_op_step o : Respects task_step (run_task_op o).
Proof. destruct o; cbn [run_task_op]; apply _. Qed.

Lemma run_task_ops_step l s : task_step s (run_task_ops l s).
Proof.
  revert s. induction l as [|o l IH]; intros s; cbn; [reflexivity|]. etrans; [apply (run_task_op_step o s)|apply IH].
Qed.

(** ** What closing and raising a task do to a sound store *)

(** The row [complete] leaves. *)
Definition closed (t : Task) (c now : Z) : Task := merged_task t (closing t_done (Some c) None) now.

Lemma Task_of_closed t c now : Task_of t = Ok t → Task_of (closed t c now) = Ok (closed t c now).
Proof.
  intros H. destruct (Task_of_normal _ _ H) as (action & Ha & Hn).
  assert (t_action t = action) as Hact by by rewrite Hn. rewrite <- Hact in Ha, Hn. revert H. unfold Task_of. rewrite Ha.
  unfold closed, merged_task, closing. cbv zeta. cbn [p_title p_description p_status p_priority p_source_kind p_source_id
    p_parent_task_id p_due_at p_wait_for p_wait_for_resolved_at p_parent_goal_id p_related_wikilinks p_calendar_event_id
    p_calendar_visible p_action p_completed_at p_closed_reason default res_bind t_id t_title t_description t_status t_priority
    t_source_kind t_source_id t_parent_task_id t_dedup_key t_due_at t_wait_for t_wait_for_resolved_at t_parent_goal_id
    t_related_wikilinks t_calendar_event_id t_calendar_visible t_action t_created_at t_updated_at t_completed_at t_closed_reason].
  rewrite Ha. cbn [res_bind]. destruct (negb _); [done|]. intros _. rewrite bool_decide_false by naive_solver.
  assert (∀ A (f : Task → A), f (normal_task t (t_action t)) = f t) as Hf by (intros; by rewrite <- Hn).
  pose proof (Hf _ t_id) as E1. pose proof (Hf _ t_title) as E2. pose proof (Hf _ t_description) as E3.
  pose proof (Hf _ t_source_id) as E4. pose proof (Hf _ t_parent_task_id) as E5. pose proof (Hf _ t_dedup_key) as E6.
  pose proof (Hf _ t_parent_goal_id) as E7. pose proof (Hf _ t_related_wikilinks) as E8.
  pose proof (Hf _ t_calendar_event_id) as E9. pose proof (Hf _ t_closed_reason) as E10.
  cbn [normal_task t_id t_title t_description t_source_id t_parent_task_id t_dedup_key t_parent_goal_id t_related_wikilinks
       t_calendar_event_id t_closed_reason] in *. by rewrite E1, E2, E3, E4, E5, E6, E7, E8, E9, E10.
Qed.

(** What a store keeps when only its tasks and its events change. *)
Definition tasks_only (s s' : TaskStore) : Prop := ts_goals s' = ts_goals s ∧ ts_bus s' = ts_bus s.
#[export] Instance tasks_only_preorder : PreOrder tasks_only.
Proof. split; [done|]. intros ? ? ? [? ?] [? ?]. split; congruence. Qed.

Lemma store_ok_row s t : store_ok s → t ∈ ts_tasks s → Task_of t = Ok t ∧ refs_ok t (ts_tasks s) (ts_goals s) = true.
Proof. intros [_ _ _ Hv _ Hr] Ht. split; [by eapply Forall_forall in Hv|by eapply Forall_forall in Hr]. Qed.

Lemma select_row s t : store_ok s → t ∈ ts_tasks s → select_one (task_is (t_id t)) (ts_tasks s) = Some t.
Proof.
  intros [Hi _ _ _ _ _] Ht. destruct (select_one (task_is (t_id t)) (ts_tasks s)) as [r|] eqn:Hs.
  - apply select_one_Some in Hs as [Hr He%String.eqb_eq]. f_equal. by eapply (unique_key t_id).
  - eapply select_one_None in Hs; [|exact Ht]. unfold task_is in Hs. by rewrite string_eqb_refl in Hs.
Qed.

(** A row that is not dropped can always be completed. *)
Lemma complete_row t c now s :
  store_ok s → t ∈ ts_tasks s → t_status t ≠ t_dropped →
  ∃ s', complete (t_id t) c now s = (Ok (closed t c now), s') ∧ store_ok s' ∧ tasks_only s s' ∧
    ts_tasks s' = update_where (task_is (t_id t)) (λ _, closed t c now) (ts_tasks s).
Proof.
  intros Hs Ht Hlive. pose proof (complete_step (t_id t) c now s Hs) as [Hs' _]. pose proof (select_row s t Hs Ht) as Hsel.
  destruct (store_ok_row s t Hs Ht) as [Hv Hr]. revert Hs'. unfold complete, update_task, get_task.
  cbn [closing p_forbidden]. run_monad. rewrite Hsel. unfold lift_res. change (merged_task t _ now) with (closed t c now).
  rewrite (Task_of_closed t c now Hv). unfold write_task. destruct Hs as [Hi _ Hk _ _ _].
  destruct (row_place (t_id t) _ t Hi Hsel) as (l1 & l2 & Hl & _ & Hf & Hu).
  change (t_id (closed t c now)) with (t_id t). rewrite Hf, Hu. change (refs_ok (closed t c now)) with (refs_ok t). rewrite Hr.
  assert (key_clash (closed t c now) (l1 ++ l2) = false) as ->.
  { unfold key_clash. change (t_dedup_key (closed t c now)) with (t_dedup_key t). destruct (t_dedup_key t) as [k|] eqn:Hkey; [|done].
    apply andb_false_iff. right. apply not_true_iff_false. intros (r & Hin%list_elem_of_In & Hh)%existsb_exists.
    unfold holds_key in Hh. to_props. rewrite Hl, omap_app in Hk. cbn in Hk. unfold live_key at 2 in Hk. unfold live in Hk.
    rewrite bool_decide_false in Hk by done. cbn in Hk. rewrite Hkey in Hk. rewrite <- Permutation_middle in Hk.
    apply NoDup_cons in Hk as [Hk _]. apply Hk. rewrite <- omap_app. apply list_elem_of_omap. exists r. split; [done|].
    unfold live_key, live. by rewrite bool_decide_false. }
  cbn [negb emit modify fst snd]. intros Hs'. eexists. split; [reflexivity|]. by split.
Qed.

(** A key held is answered with its row; a key not held is raised. *)
Lemma upsert_held key draft s t :
  str_truthy key = true → select_one (holds_key key) (ts_tasks s) = Some t → upsert key draft s = (Ok t, s).
Proof. intros Hk Hs. unfold upsert, get_by_dedup_key. rewrite Hk. cbn [negb]. run_monad. by rewrite Hs. Qed.

Lemma upsert_new key draft s t :
  store_ok s → str_truthy key = true → str_strip key = key → select_one (holds_key key) (ts_tasks s) = None →
  Task_of (with_dedup_key key draft) = Ok t → t_id t ∉ map t_id (ts_tasks s) →
  t_parent_task_id draft = None → t_parent_goal_id draft = None →
  ∃ s', upsert key draft s = (Ok t, s') ∧ store_ok s' ∧ tasks_only s s' ∧ ts_tasks s' = ts_tasks s ++ [t].
Proof.
  intros Hs Hk Hkk Hnone Ht Hid Hp Hg. pose proof (upsert_step key draft s Hs) as [Hs' _]. revert Hs'.
  unfold upsert, get_by_dedup_key. rewrite Hk. cbn [negb]. run_monad. rewrite Hnone. unfold create_task. run_monad.
  unfold lift_res. rewrite Ht. unfold insert_task. destruct (Task_of_normal _ _ Ht) as (a & _ & Htn).
  assert (existsb (task_is (t_id t)) (ts_tasks s) = false) as ->.
  { apply not_true_iff_false. intros (r & Hin%list_elem_of_In & He%String.eqb_eq)%existsb_exists. apply Hid. rewrite <- He.
    by apply list_elem_of_fmap_2. }
  assert (t_dedup_key t = Some key) as Hkey by (rewrite Htn; cbn; by rewrite Hkk).
  assert (key_clash t (ts_tasks s) = false) as ->.
  { unfold key_clash. rewrite Hkey. apply andb_false_iff. right. apply not_true_iff_false.
    intros (r & Hin%list_elem_of_In & He)%existsb_exists. by rewrite (select_one_None _ _ _ Hnone Hin) in He. }
  assert (refs_ok t (ts_tasks s ++ [t]) (ts_goals s) = true) as ->.
  { unfold refs_ok. rewrite Htn. cbn. by rewrite Hp, Hg. }
  cbn [negb emit modify fst snd]. intros Hs'. eexists. split; [reflexivity|]. by split.
Qed.

Lemma in_order_perm l : in_order l ≡ₚ l.
Proof. unfold in_order. by rewrite !sort_by_perm. Qed.

Lemma done_has_time t t' : Task_of t = Ok t' → t_status t' = t_done ↔ is_Some (t_completed_at t').
Proof.
  intros H. destruct (Task_of_normal _ _ H) as (a & Ha & ->). revert H. unfold Task_of. rewrite Ha. cbn [res_bind]. cbv zeta.
  destruct (negb _); [done|]. cbn [normal_task t_status t_completed_at]. intros H.
  destruct (t_status t), (t_completed_at t); try done; (split; [done|by intros []]).
Qed.

Lemma achieved_has_time g g' : Goal_of g = Ok g' → g_status g' = g_achieved ↔ is_Some (g_completed_at g').
Proof.
  unfold Goal_of. cbv zeta. destruct (negb _); [done|]. destruct (negb _); [done|]. cbn [g_status g_completed_at].
  destruct (g_status g), (g_completed_at g); intros [= <-]; (split; [done|by intros []]).
Qed.

(** ** Histories of a store *)

Definition empty_store (bus : bool) : TaskStore := {| ts_tasks := []; ts_goals := []; ts_bus := bus; ts_events := [] |}.

Lemma empty_ok bus : store_ok (empty_store bus).
Proof. split; cbn; constructor. Qed.

(** C33. Whatever operations reach the task database, and however they end, its rows stay valid: ids
    are unique, no key is held by two tasks that are not dropped, a completion time is set exactly on
    the tasks that are done and the goals that are achieved, every parent named exists; and from then
    on no operation removes or re-identifies a row: each keeps its id, its key and its creation time. *)
Theorem task_store_sound (bus : bool) (before after : list task_op) :
  let s := run_task_ops before (empty_store bus) in
  let s' := run_task_ops after s in
  store_ok s' ∧ store_grows s s' ∧
  Forall (λ t, t_status t = t_done ↔ is_Some (t_completed_at t)) (ts_tasks s') ∧
  Forall (λ g, g_status g = g_achieved ↔ is_Some (g_completed_at g)) (ts_goals s').
Proof.
  cbv zeta. destruct (run_task_ops_step before (empty_store bus) (empty_ok bus)) as [Hs _].
  destruct (run_task_ops_step after _ Hs) as [Hs' Hgrow]. split_and!; [done|done| |].
  - eapply Forall_impl; [apply (so_valid _ Hs')|]. intros t. apply done_has_time.
  - eapply Forall_impl; [apply (so_goals_valid _ Hs')|]. intros g. apply achieved_has_time.
Qed.

(** A key with outer whitespace is looked up as given and stored stripped: the second call finds no
    task and is refused by the index instead of returning the first call's task. *)
Example unstripped_key_raises :
  let draft id := {| t_id := id; t_title := "x"; t_description := ""; t_status := t_open; t_priority := 0; t_source_kind := None;
    t_source_id := None; t_parent_task_id := None; t_dedup_key := None; t_due_at := None; t_wait_for := None;
    t_wait_for_resolved_at := None; t_parent_goal_id := None; t_related_wikilinks := []; t_calendar_event_id := None;
    t_calendar_visible := false; t_action := None; t_created_at := 0; t_updated_at := 0; t_completed_at := None;
    t_closed_reason := None |} in
  run_res (upsert "k " (draft "b")) (run_state (upsert "k " (draft "a")) (empty_store false))
  = Raise (IntegrityError "UNIQUE constraint failed: tasks.dedup_key").
Proof. reflexivity. Qed.
