(* ===== verification/PendingActions.v ===== *)
(** * Pending actions ([services/tasks/pending_actions.py])

    A provider says what its domain calls for; [reconcile] brings the provider's slice of the
    task store to it; an invoked action is answered by the provider and then reconciled. *)

From S2P Require Import Prelude PyVal PyText CallContext Tasks.
From stdpp Require Import options.

Record DesiredAction := {
  da_key : string; da_title : string; da_description : string; da_source_id : string; da_action : TaskAction }.

Record PendingActionsSummary := { ps_raised : nat; ps_resolved : nat; ps_open_total : nat }.

Definition summary_str (x : PendingActionsSummary) : string :=
  "pending actions: " +:+ pretty (ps_raised x) +:+ " raised, " +:+ pretty (ps_resolved x) +:+ " resolved, "
  +:+ pretty (ps_open_total x) +:+ " open".

(** [t.status in _ACTIVE_STATUSES] *)
Definition is_active (t : Task) : bool := bool_decide (t_status t = t_open ∨ t_status t = t_doing).

(** What a pass draws from the clock and from [uuid4], by the task it completes and by the key it
    raises: each is drawn at most once in a pass. *)
Record Draws := { dr_done : string → Z * Z; dr_id : string → string; dr_at : string → Z * Z }.

(** The fields [reconcile] raises an action with; the others are [Task]'s defaults. *)
Definition draft_of (dr : Draws) (kind : string) (d : DesiredAction) : Task :=
  {| t_id := dr_id dr (da_key d); t_title := da_title d; t_description := da_description d; t_status := t_open; t_priority := 0;
     t_source_kind := Some kind; t_source_id := Some (da_source_id d); t_parent_task_id := None; t_dedup_key := None;
     t_due_at := None; t_wait_for := None; t_wait_for_resolved_at := None; t_parent_goal_id := None; t_related_wikilinks := [];
     t_calendar_event_id := None; t_calendar_visible := false; t_action := Some (da_action d);
     t_created_at := fst (dr_at dr (da_key d)); t_updated_at := snd (dr_at dr (da_key d)); t_completed_at := None;
     t_closed_reason := None |}.

(** [t.dedup_key not in desired_keys] *)
Definition key_gone (keys : list string) (t : Task) : bool :=
  match t_dedup_key t with Some k => negb (str_in k keys) | None => true end.

(** The rows the pass lists: the provider's kind, with an action. *)
Definition kind_actions (kind : string) : TaskFilter :=
  {| f_status := None; f_source_kind := Some kind; f_parent_task_id := None; f_parent_goal_id := None; f_due_before := None;
     f_has_action := Some true |}.
Definition RECONCILE_LIMIT : nat := 1000.

(** The loop that completes what is cleared. *)
Fixpoint resolve_stale (dr : Draws) (keys : list string) (l : list Task) : M TaskStore nat :=
  match l with
  | [] => mret 0
  | t :: l =>
      if is_active t && key_gone keys t then
        _ ← complete (t_id t) (fst (dr_done dr (t_id t))) (snd (dr_done dr (t_id t)));
        n ← resolve_stale dr keys l;
        mret (S n)
      else resolve_stale dr keys l
  end.

(** The loop that raises what is called for. *)
Fixpoint raise_desired (dr : Draws) (kind : string) (l : list DesiredAction) : M TaskStore nat :=
  match l with
  | [] => mret 0
  | d :: l =>
      held ← get_by_dedup_key (da_key d);
      _ ← upsert (da_key d) (draft_of dr kind d);
      n ← raise_desired dr kind l;
      mret (match held with None => S n | Some _ => n end)
  end.

(** ** Providers

    A provider's methods act on a world the task store is a part of. *)
Record Provider (W : Type) := {
  pv_kind : string;
  pv_desired : M W (list DesiredAction);
  pv_invoke : Task → M W string;
  pv_invoke_choice : option (Task → string → option string → M W string) }.
Arguments pv_kind {W} _.
Arguments pv_desired {W} _.
Arguments pv_invoke {W} _.
Arguments pv_invoke_choice {W} _.

(** The registry, in registration order. *)
Abbreviation Registry W := (list (string * Provider W)).
Definition register_provider {W} (p : Provider W) (r : Registry W) : Registry W := kv_set (pv_kind p) p r.
Definition unregister_provider {W} (kind : string) (r : Registry W) : Registry W := od_del kind r.
Definition providers {W} (r : Registry W) : list (Provider W) := map snd r.
Definition provider_for {W} (kind : string) (r : Registry W) : option (Provider W) := od_get kind r.

Definition render_review (t : Task) : string :=
  let details := str_strip (t_description t) in
  if str_truthy details then details
  else or_str (t_source_kind t) "This" +:+ " item " +:+ t_id t +:+ " is ready for review.".

Section passes.
Context {W : Type} `{!Part W TaskStore}.

Definition reconcile (dr : Draws) (p : Provider W) : M W PendingActionsSummary :=
  desired ← pv_desired p;
  existing ← on_part (list_tasks (kind_actions (pv_kind p)) RECONCILE_LIMIT);
  resolved ← on_part (resolve_stale dr (map da_key desired) existing);
  raised ← on_part (raise_desired dr (pv_kind p) desired);
  mret {| ps_raised := raised; ps_resolved := resolved; ps_open_total := length desired |}.

(** [reconcile_all]; what a pass draws depends on the provider it is for. *)
Fixpoint reconcile_each (dr : string → Draws) (l : list (Provider W)) (out : list (string * PendingActionsSummary))
    : M W (list (string * PendingActionsSummary)) :=
  match l with
  | [] => mret out
  | p :: l =>
      out ← try (x ← reconcile (dr (pv_kind p)) p; mret (kv_set (pv_kind p) x out)) except e => mret out;
      reconcile_each dr l out
  end.
Definition reconcile_all (dr : string → Draws) (r : Registry W) : M W (list (string * PendingActionsSummary)) :=
  reconcile_each dr (providers r) [].

(** The provider's answer to an action that was checked. *)
Definition run_action (p : Provider W) (t : Task) (a : TaskAction) (choice option_ : option string) : M W string :=
  match ta_choices a with
  | [] => pv_invoke p t
  | _ =>
      match pv_invoke_choice p with
      | None => raise (ValueError (pv_kind p +:+ " cannot answer a choice card"))
      | Some f =>
          match List.find (λ c, bool_decide (Some (ch_value c) = choice)) (ta_choices a) with
          | None => raise (Exn "StopIteration" "")
          | Some picked =>
              let default_ := match ta_options a with Some o => op_default o | None => None end in
              let chosen := if ch_needs_option picked then
                              match option_ with Some x => if str_truthy x then Some x else default_ | None => default_ end
                            else None in
              f t (default "None" choice) chosen
          end
      end
  end.

Definition invoke_and_reconcile (dr : Draws) (p : Provider W) (t : Task) (choice option_ : option string) : M W string :=
  match t_action t with
  | None => raise (ValueError "task has no action")
  | Some a =>
      _ ← lift_res (check_answer a choice option_);
      note ← run_action p t a choice option_;
      _ ← try (_ ← reconcile dr p; mret tt) except e => mret tt;
      mret note
  end.
End passes.

(** ** One pass over a sound store *)

(** What a row becomes when the tasks with these ids are completed. *)
Definition closes (ids : list string) (r r' : Task) : Prop :=
  if str_in (t_id r) ids then ∃ c now, r' = closed r c now else r' = r.

Definition cleared (keys : list string) (t : Task) : bool := is_active t && key_gone keys t.

Lemma closes_nil l : Forall2 (closes []) l l.
Proof. induction l; constructor; done. Qed.

Lemma closes_ids ids l l' : Forall2 (closes ids) l l' → map t_id l' = map t_id l.
Proof.
  induction 1 as [|r r' l l' Hr _ IH]; [done|]. cbn. rewrite IH. f_equal. unfold closes in Hr.
  destruct (str_in (t_id r) ids); [|by subst]. by destruct Hr as (c & now & ->).
Qed.

(** One completion, then others, of other tasks. *)
Lemma closes_step id ids l l' l'' :
  id ∉ ids → Forall2 (closes [id]) l l' → Forall2 (closes ids) l' l'' → Forall2 (closes (id :: ids)) l l''.
Proof.
  intros Hid H. revert l''. induction H as [|r r' l l' Hr _ IH]; intros l'' H2; inversion H2 as [|? r2 ? l2 Hr2 Hl2]; subst; constructor; [|by apply IH].
  unfold closes in *. unfold str_in in Hr |- *. cbn [existsb] in *. destruct (String.eqb_spec (t_id r) id) as [He|He]; cbn [orb] in *.
  - destruct Hr as (c & now & ->). change (t_id (closed r c now)) with (t_id r) in Hr2. rewrite He in Hr2.
    fold (str_in id ids) in Hr2. rewrite (proj2 (str_in_false id ids) Hid) in Hr2. subst. eauto.
  - subst. exact Hr2.
Qed.

Lemma closes_update t c now l :
  NoDup (map t_id l) → t ∈ l → Forall2 (closes [t_id t]) l (update_where (task_is (t_id t)) (λ _, closed t c now) l).
Proof.
  intros Hnd Ht. unfold update_where. apply Forall2_fmap_r, Forall_Forall2_diag, Forall_forall. intros r Hr. cbn. unfold closes, task_is.
  unfold str_in. cbn [existsb]. rewrite orb_false_r. destruct (String.eqb_spec (t_id r) (t_id t)) as [He|He]; [|done].
  rewrite (unique_key t_id l r t Hnd Hr Ht He). eauto.
Qed.

Section passes_laws.
Context (dr : Draws).

Lemma resolve_stale_none keys l s : select_where (cleared keys) l = [] → resolve_stale dr keys l s = (Ok 0, s).
Proof.
  induction l as [|t l IH]; [done|]. unfold select_where. cbn [List.filter resolve_stale]. unfold cleared at 1.
  destruct (is_active t && key_gone keys t); [done|apply IH].
Qed.

(** The first loop completes the cleared rows of the list, and only them. *)
Lemma resolve_stale_spec keys l s :
  store_ok s → NoDup (map t_id l) → (∀ t, t ∈ l → t ∈ ts_tasks s) →
  ∃ s', resolve_stale dr keys l s = (Ok (count_where (cleared keys) l), s') ∧ store_ok s' ∧ tasks_only s s' ∧
    Forall2 (closes (map t_id (select_where (cleared keys) l))) (ts_tasks s) (ts_tasks s').
Proof.
  revert s. induction l as [|t l IH]; intros s Hs Hnd Hin.
  - exists s. split_and!; [done|done|done|apply closes_nil].
  - cbn [map] in Hnd. apply NoDup_cons in Hnd as [Ht Hnd]. unfold count_where in *. rewrite select_where_cons. cbn [resolve_stale].
    change (is_active t && key_gone keys t) with (cleared keys t). destruct (cleared keys t) eqn:Hc.
    2:{ apply IH; [done|done|]. intros r Hr. apply Hin. by right. }
    assert (t ∈ ts_tasks s) as Hts by (apply Hin; by left).
    destruct (complete_row t (fst (dr_done dr (t_id t))) (snd (dr_done dr (t_id t))) s Hs Hts) as (s1 & Hrun & Hs1 & Ho1 & Hl1).
    { unfold cleared, is_active in Hc. to_props. destruct (t_status t); naive_solver. }
    destruct (IH s1 Hs1 Hnd) as (s2 & Hrun2 & Hs2 & Ho2 & Hl2).
    { intros r Hr. rewrite Hl1. apply elem_of_update_where. exists r. split; [apply Hin; by right|]. unfold task_is.
      destruct (String.eqb_spec (t_id r) (t_id t)) as [He|]; [|done]. destruct Ht. rewrite <- He. by apply list_elem_of_fmap_2. }
    exists s2. split_and!; [|done|by etrans|].
    + run_monad. rewrite Hrun, Hrun2. done.
    + cbn [map]. eapply closes_step; [| |exact Hl2].
      * intros (r & He & Hr)%list_elem_of_fmap. apply elem_of_select_where in Hr as [Hr _]. apply Ht. rewrite He. by apply list_elem_of_fmap_2.
      * rewrite Hl1. apply closes_update; [by destruct Hs|done].
Qed.

(** A desired action the store accepts: its key is stripped, and its fields make a task. *)
Definition desired_ok (kind : string) (d : DesiredAction) : Prop :=
  str_truthy (da_key d) = true ∧ str_strip (da_key d) = da_key d ∧
  ∃ t, Task_of (with_dedup_key (da_key d) (draft_of dr kind d)) = Ok t.

Definition held (s : TaskStore) (d : DesiredAction) : bool := existsb (holds_key (da_key d)) (ts_tasks s).

(** The ids drawn for the keys not held are new, and one per key. *)
Definition draws_new (s : TaskStore) (l : list DesiredAction) : Prop :=
  (∀ d, d ∈ l → held s d = false → str_strip (dr_id dr (da_key d)) ∉ map t_id (ts_tasks s)) ∧
  (∀ d1 d2, d1 ∈ l → d2 ∈ l → str_strip (dr_id dr (da_key d1)) = str_strip (dr_id dr (da_key d2)) → da_key d1 = da_key d2).

(** A task the pass raised. *)
Definition raised_from (kind : string) (s : TaskStore) (l : list DesiredAction) (t : Task) : Prop :=
  ∃ d, d ∈ l ∧ held s d = false ∧ Task_of (with_dedup_key (da_key d) (draft_of dr kind d)) = Ok t.

Lemma held_select s d :
  held s d = match select_one (holds_key (da_key d)) (ts_tasks s) with Some _ => true | None => false end.
Proof.
  unfold held. destruct (select_one _ _) as [t|] eqn:Hs.
  - apply select_one_Some in Hs as [Hin Hh]. apply existsb_exists. exists t. split; [by apply list_elem_of_In|done].
  - apply not_true_iff_false. intros (t & Hin%list_elem_of_In & Hh)%existsb_exists. by rewrite (select_one_None _ _ _ Hs Hin) in Hh.
Qed.

(** A raised task is open, of its kind, with an action, under its key. *)
Lemma raised_task kind d t :
  str_strip (da_key d) = da_key d → Task_of (with_dedup_key (da_key d) (draft_of dr kind d)) = Ok t →
  t_id t = str_strip (dr_id dr (da_key d)) ∧ t_dedup_key t = Some (da_key d) ∧ t_status t = t_open ∧
  t_source_kind t = Some kind ∧ is_Some (t_action t).
Proof.
  intros Hk (action & Ha & ->)%Task_of_normal. cbn in *. rewrite Hk. split_and!; [done..|].
  destruct (TaskAction_of (da_action d)); [|done]. injection Ha as <-. done.
Qed.

Lemma held_app s s' d t :
  ts_tasks s' = ts_tasks s ++ [t] → held s' d = held s d || holds_key (da_key d) t.
Proof. intros Hl. unfold held. rewrite Hl, existsb_app. cbn. by rewrite orb_false_r. Qed.

(** The second loop leaves a task under every key, new ones only where none was. *)
Lemma raise_desired_spec kind l s :
  store_ok s → Forall (desired_ok kind) l → draws_new s l →
  ∃ new s', raise_desired dr kind l s = (Ok (length new), s') ∧ store_ok s' ∧ tasks_only s s' ∧
    ts_tasks s' = ts_tasks s ++ new ∧ Forall (raised_from kind s l) new ∧ (∀ d, d ∈ l → held s' d = true).
Proof.
  revert s. induction l as [|d l IH]; intros s Hs Hok [Hnew Hone].
  { exists [], s. rewrite app_nil_r. split_and!; [done..|]. intros d Hd. by apply elem_of_nil in Hd. }
  apply Forall_cons in Hok as [(Hk & Hkk & t & Ht) Hok]. cbn [raise_desired].
  unfold get_by_dedup_key. destruct (select_one (holds_key (da_key d)) (ts_tasks s)) as [r|] eqn:Hsel.
  - assert (held s d = true) as Hd by (rewrite held_select; by rewrite Hsel).
    destruct (IH s Hs Hok) as (new & s' & Hrun & Hs' & Ho & Hl & Hnews & Hheld).
    { split; intros; [apply Hnew|apply Hone]; try done; by right. }
    exists new, s'. split_and!; [|done|done|done| |].
    + run_monad. rewrite Hsel. rewrite (upsert_held _ _ s r Hk Hsel), Hrun. done.
    + eapply Forall_impl; [exact Hnews|]. intros x (d' & Hd' & Hx). exists d'. split; [by right|done].
    + intros d' [->|Hd']%elem_of_cons; [|by apply Hheld]. revert Hd. unfold held. rewrite Hl, existsb_app. by intros ->.
  - assert (held s d = false) as Hd by (rewrite held_select; by rewrite Hsel).
    destruct (raised_task kind d t Hkk Ht) as (Hid & Hkey & Hst & _).
    assert (∀ d', holds_key (da_key d') t = bool_decide (da_key d = da_key d')) as Hholds.
    { intros d'. unfold holds_key. rewrite Hkey, Hst. rewrite (bool_decide_false (t_open = t_dropped)) by done. rewrite andb_true_r.
      apply bool_decide_ext. split; [by intros [= ?]|by intros ->]. }
    destruct (upsert_new (da_key d) (draft_of dr kind d) s t Hs Hk Hkk Hsel Ht) as (s1 & Hrun1 & Hs1 & Ho1 & Hl1); [|done|done|].
    { rewrite Hid. apply Hnew; [by left|done]. }
    destruct (IH s1 Hs1 Hok) as (new & s' & Hrun & Hs' & Ho & Hl & Hnews & Hheld).
    { split.
      - intros d' Hd' Hh. rewrite (held_app _ _ d' t Hl1), Hholds in Hh. apply orb_false_iff in Hh as [Hh Hne]. to_props.
        rewrite Hl1, map_app, elem_of_app. cbn. intros [Hin|Hin%list_elem_of_singleton].
        + revert Hin. apply Hnew; [by right|done].
        + apply Hne. symmetry. apply Hone; [by right|by left|congruence].
      - intros d1 d2 H1 H2. apply Hone; by right. }
    exists (t :: new), s'. split_and!; [|done|by etrans| | |].
    + run_monad. rewrite Hsel, Hrun1, Hrun. done.
    + rewrite Hl, Hl1. by rewrite <- app_assoc.
    + constructor; [exists d; split_and!; [by left|done|done]|]. eapply Forall_impl; [exact Hnews|].
      intros x (d' & Hd' & Hh & Hx). rewrite (held_app _ _ d' t Hl1) in Hh. apply orb_false_iff in Hh as [Hh _].
      exists d'. split_and!; [by right|done|done].
    + intros d' [->|Hd']%elem_of_cons; [|by apply Hheld]. unfold held. rewrite Hl, existsb_app. apply orb_true_iff. left.
      change (held s1 d = true). rewrite (held_app _ _ d t Hl1), Hholds. apply orb_true_iff. right. by apply bool_decide_eq_true.
Qed.

(** Nothing is raised where everything is held. *)
Lemma raise_desired_none kind l s :
  Forall (λ d, str_truthy (da_key d) = true ∧ held s d = true) l → raise_desired dr kind l s = (Ok 0, s).
Proof.
  induction 1 as [|d l [Hk Hd] _ IH]; [done|]. rewrite held_select in Hd. cbn [raise_desired]. unfold get_by_dedup_key. run_monad.
  destruct (select_one _ _) as [r|] eqn:Hsel; [|done]. by rewrite (upsert_held _ _ s r Hk Hsel), IH.
Qed.
End passes_laws.

Lemma str_in_perm x l l' : l ≡ₚ l' → str_in x l = str_in x l'.
Proof.
  intros H. destruct (str_in x l') eqn:E; [apply str_in_elem; rewrite H; by apply str_in_elem|].
  apply str_in_false. rewrite H. by apply str_in_false.
Qed.

(** Completing a task does not free its key. *)
Lemma closes_held (P : Task → bool) s s' d :
  (∀ r, P r = true → is_active r = true) →
  Forall2 (λ r r', if P r then ∃ c now, r' = closed r c now else r' = r) (ts_tasks s) (ts_tasks s') →
  held s' d = held s d.
Proof.
  intros HP. unfold held. induction 1 as [|r r' l l' Hr _ IH]; [done|]. cbn. rewrite IH. f_equal.
  destruct (P r) eqn:E; [|by subst]. destruct Hr as (c & now & ->). apply HP in E. unfold is_active in E. to_props.
  unfold holds_key. cbn [closed merged_task closing t_dedup_key t_status p_status default].
  rewrite !(bool_decide_false (_ = t_dropped)); [done|intros Hd; destruct E; congruence|done].
Qed.

Lemma Forall2_weaken {A B} (R R' : A → B → Prop) l k :
  Forall2 R l k → (∀ x y, x ∈ l → R x y → R' x y) → Forall2 R' l k.
Proof.
  induction 1 as [|x y l k Hxy _ IH]; intros H; constructor; [apply H; [by left|done]|].
  apply IH. intros a b Ha. apply H. by right.
Qed.

Lemma elem_of_take_in {A} (n : nat) (x : A) l : x ∈ take n l → x ∈ l.
Proof. intros Hx. rewrite <- (take_drop n l). apply elem_of_app. by left. Qed.

(** ** A pass *)

(** The rows of the provider's slice, and those it completes. *)
Definition in_slice (kind : string) (t : Task) : bool := selects (kind_actions kind) t.
Definition stale (kind : string) (keys : list string) (t : Task) : bool := in_slice kind t && cleared keys t.

(** What one pass leaves: the cleared rows of the slice completed, the other rows as they were, the
    tasks raised after them. *)
Record reconciled (dr : Draws) (kind : string) (l : list DesiredAction) (s s' : TaskStore) (n : nat) : Prop := {
  rc_ok : store_ok s';
  rc_goals : ts_goals s' = ts_goals s;
  rc_rows : ∃ kept new, ts_tasks s' = kept ++ new ∧ length new = n ∧
    Forall2 (λ r r', if stale kind (map da_key l) r then ∃ c now, r' = closed r c now else r' = r) (ts_tasks s) kept ∧
    Forall (raised_from dr kind s l) new;
  rc_held : ∀ d, d ∈ l → held s' d = true;
  rc_live : ∀ t, t ∈ ts_tasks s' → in_slice kind t = true → is_active t = true → ∃ d, d ∈ l ∧ t_dedup_key t = Some (da_key d) }.

(** The list the pass reads is the slice, when it fits the limit. *)
Lemma slice_listed kind s :
  count_where (in_slice kind) (ts_tasks s) <= RECONCILE_LIMIT →
  ∃ l, list_tasks (kind_actions kind) RECONCILE_LIMIT s = (Ok l, s) ∧ l ≡ₚ select_where (in_slice kind) (ts_tasks s).
Proof.
  intros Hn. eexists. split; [reflexivity|]. rewrite take_ge; [apply in_order_perm|]. by rewrite in_order_perm.
Qed.

(** A row's id is among the selected rows' exactly when the row is selected. *)
Lemma id_selected (p : Task → bool) l r :
  NoDup (map t_id l) → r ∈ l → str_in (t_id r) (map t_id (select_where p l)) = p r.
Proof.
  intros Hnd Hr. destruct (p r) eqn:Hp.
  - apply str_in_elem. apply list_elem_of_fmap_2, elem_of_select_where. done.
  - apply str_in_false. intros (x & He & [Hx Hpx]%elem_of_select_where)%list_elem_of_fmap.
    rewrite (unique_key t_id l r x Hnd Hr Hx He) in Hp. congruence.
Qed.

Section pass.
Context {W : Type} `{!Part W TaskStore, !PartLaws W TaskStore} (dr : Draws) (p : Provider W).

Lemma reconcile_run w w1 l sl n2 s2 n3 s3 :
  pv_desired p w = (Ok l, w1) → list_tasks (kind_actions (pv_kind p)) RECONCILE_LIMIT (part w1) = (Ok sl, part w1) →
  resolve_stale dr (map da_key l) sl (part w1) = (Ok n2, s2) → raise_desired dr (pv_kind p) l s2 = (Ok n3, s3) →
  ∃ w', reconcile dr p w = (Ok {| ps_raised := n3; ps_resolved := n2; ps_open_total := length l |}, w') ∧ part w' = s3.
Proof using All.
  intros H1 H2 H3 H4. eexists. unfold reconcile, on_part, zoom. run_monad. rewrite H1, H2, part_set, H3, part_set, H4.
  split; [reflexivity|]. apply part_set.
Qed.

(** The pass over a slice that fits its limit. *)
Lemma reconcile_spec w w1 l :
  pv_desired p w = (Ok l, w1) → store_ok (part w1) →
  count_where (in_slice (pv_kind p)) (ts_tasks (part w1)) <= RECONCILE_LIMIT →
  Forall (desired_ok dr (pv_kind p)) l → draws_new dr (part w1) l →
  ∃ n w', reconcile dr p w = (Ok {| ps_raised := n; ps_resolved := count_where (stale (pv_kind p) (map da_key l)) (ts_tasks (part w1));
                                     ps_open_total := length l |}, w') ∧
    reconciled dr (pv_kind p) l (part w1) (part w') n.
Proof using All.
  intros Hdes Hs Hfit Hok [Hnew Hone]. set (kind := pv_kind p) in *. set (s := part w1) in *.
  destruct (slice_listed kind s Hfit) as (sl & Hlist & Hsl). pose proof (so_ids s Hs) as Hids.
  assert (select_where (cleared (map da_key l)) sl ≡ₚ select_where (stale kind (map da_key l)) (ts_tasks s)) as Hst
    by (rewrite Hsl, select_where_and; done).
  destruct (resolve_stale_spec dr (map da_key l) sl s Hs) as (s2 & Hrun2 & Hs2 & [Hg2 Hb2] & Hl2).
  { rewrite Hsl. by apply nodup_select. }
  { intros t Ht. rewrite Hsl in Ht. by apply elem_of_select_where in Ht as [? _]. }
  assert (Forall2 (λ r r', if stale kind (map da_key l) r then ∃ c now, r' = closed r c now else r' = r) (ts_tasks s) (ts_tasks s2)) as Hrows.
  { eapply Forall2_weaken; [exact Hl2|]. intros r r' Hr. unfold closes.
    rewrite (str_in_perm (t_id r) _ _ (Permutation_map t_id Hst)). by rewrite (id_selected _ _ _ Hids Hr). }
  assert (∀ d, held s2 d = held s d) as Hheld by (intros d; eapply closes_held; [|exact Hrows]; intros r Hr; unfold stale, cleared in Hr; by to_props).
  destruct (raise_desired_spec dr kind l s2 Hs2 Hok) as (new & s3 & Hrun3 & Hs3 & [Hg3 Hb3] & Hl3 & Hnews & Hall).
  { split; [|done]. intros d Hd. rewrite Hheld, (closes_ids _ _ _ Hl2). by apply Hnew. }
  destruct (reconcile_run w w1 l sl _ _ _ _ Hdes Hlist Hrun2 Hrun3) as (w' & Hrun & Hw').
  exists (length new), w'. rewrite Hw'. split; [rewrite Hrun; do 3 f_equal; unfold count_where; by rewrite Hst|].
  split; [done|congruence| |done|].
  - exists (ts_tasks s2), new. split_and!; [done|done|done|]. eapply Forall_impl; [exact Hnews|].
    intros t (d & Hd & Hh & Ht). exists d. rewrite Hheld in Hh. done.
  - intros t. rewrite Hl3, elem_of_app. intros [Ht|Ht] Hin Hact.
    + apply list_elem_of_lookup in Ht as [i Hi]. destruct (Forall2_lookup_r _ _ _ _ _ Hrows Hi) as (r & Hr & Hcl).
      destruct (stale kind (map da_key l) r) eqn:Hstale; [by destruct Hcl as (c & now & ->)|]. subst t.
      unfold stale, cleared in Hstale. rewrite Hin, Hact in Hstale. cbn in Hstale. unfold key_gone in Hstale.
      destruct (t_dedup_key r) as [k|]; [|done]. apply negb_false_iff, str_in_elem, list_elem_of_fmap in Hstale as (d & -> & Hd).
      by exists d.
    + eapply Forall_forall in Hnews as (d & Hd & _ & Hraised); [|exact Ht]. exists d. split; [done|].
      eapply Forall_forall in Hok as (_ & Hk & _); [|exact Hd]. by destruct (raised_task dr kind d t Hk Hraised) as (_ & ? & _).
Qed.

(** A pass over a store that is already what the provider calls for changes nothing. *)
Lemma reconcile_quiet w w1 l :
  pv_desired p w = (Ok l, w1) →
  (∀ t, t ∈ ts_tasks (part w1) → in_slice (pv_kind p) t = true → is_active t = true → ∃ d, d ∈ l ∧ t_dedup_key t = Some (da_key d)) →
  (∀ d, d ∈ l → str_truthy (da_key d) = true ∧ held (part w1) d = true) →
  reconcile dr p w = (Ok {| ps_raised := 0; ps_resolved := 0; ps_open_total := length l |}, w1).
Proof using All.
  intros Hdes Hlive Hheld. unfold reconcile, on_part, zoom, list_tasks. run_monad. rewrite Hdes, set_part_part.
  rewrite resolve_stale_none; [rewrite set_part_part, raise_desired_none, set_part_part; [done|by apply Forall_forall]|].
  apply select_where_nil. intros t Ht. apply elem_of_take_in in Ht. rewrite in_order_perm in Ht.
  apply elem_of_select_where in Ht as [Ht Hin]. unfold cleared, key_gone. destruct (is_active t) eqn:Hact; [|done].
  destruct (Hlive t Ht Hin Hact) as (d & Hd & ->). apply negb_false_iff, str_in_elem. by apply list_elem_of_fmap_2.
Qed.
End pass.

(** ** The slices of other providers *)

(** What passes over kinds [K] may do to a sound store: complete active actions of those kinds, and
    add tasks of those kinds. *)
Definition changes_only (K : string → Prop) (s s' : TaskStore) : Prop :=
  store_ok s → store_ok s' ∧ ts_goals s' = ts_goals s ∧ ∃ kept new, ts_tasks s' = kept ++ new ∧
    Forall2 (λ r r', r' = r ∨ ((∃ k, K k ∧ in_slice k r = true) ∧ is_active r = true ∧ ∃ c now, r' = closed r c now)) (ts_tasks s) kept ∧
    Forall (λ t, ∃ k, K k ∧ t_source_kind t = Some k) new.

Lemma kept_refl (R : Task → Prop) l : Forall2 (λ r r', r' = r ∨ (R r ∧ is_active r = true ∧ ∃ c now, r' = closed r c now)) l l.
Proof. induction l; constructor; [by left|done]. Qed.

Lemma closed_inactive r c now : is_active (closed r c now) = false.
Proof. unfold is_active. apply bool_decide_eq_false. by intros [?|?]. Qed.

#[export] Instance changes_only_preorder K : PreOrder (changes_only K).
Proof.
  split.
  - intros s Hs. split_and!; [done|done|]. exists (ts_tasks s), []. rewrite app_nil_r. split_and!; [done|apply kept_refl|done].
  - intros s1 s2 s3 H12 H23 H1. destruct (H12 H1) as (H2 & Hg & k1 & n1 & E1 & F1 & G1), (H23 H2) as (H3 & Hg' & k2 & n2 & E2 & F2 & G2).
    split_and!; [done|congruence|]. rewrite E1 in F2. apply Forall2_app_inv_l in F2 as (x & y & Fx & Fy & ->).
    exists x, (y ++ n2). rewrite app_assoc. split_and!; [done| |].
    + clear -F1 Fx. revert x Fx. induction F1 as [|r r' l l' Hr _ IH]; intros x Fx; inversion Fx as [|? r2 ? l2 Hr2 Hl2]; subst; constructor; [|by apply IH].
      destruct Hr as [->|(Hk & Ha & c & now & ->)]; [done|]. destruct Hr2 as [->|(_ & Ha2 & _)]; [right; eauto|].
      by rewrite closed_inactive in Ha2.
    + apply Forall_app. split; [|done]. clear -G1 Fy. revert y Fy. induction G1 as [|t n1 (k & Hk & Ht) _ IH]; intros y Fy; inversion Fy as [|? t2 ? y2 Ht2 Hy2]; subst; constructor; [|by apply IH].
      exists k. split; [done|]. destruct Ht2 as [->|(_ & _ & c & now & ->)]; done.
Qed.

Lemma changes_only_weaken (K K' : string → Prop) s s' : (∀ k, K k → K' k) → changes_only K s s' → changes_only K' s s'.
Proof.
  intros HK H Hs. destruct (H Hs) as (H1 & H2 & kept & new & H3 & H4 & H5). split_and!; [done|done|]. exists kept, new. split_and!; [done| |].
  - eapply Forall2_impl; [exact H4|]. intros r r' [->|((k & Hk & Hr) & Ha & Hc)]; [by left|right]. eauto 6.
  - eapply Forall_impl; [exact H5|]. intros t (k & Hk & Ht). eauto.
Qed.

Lemma insert_changes kind t : t_source_kind t = Some kind → Task_of t = Ok t → Respects (changes_only (eq kind)) (insert_task t).
Proof.
  intros Hk Ht s Hs. destruct (insert_task_step t Ht s Hs) as [Hs' _]. revert Hs'. unfold insert_task.
  assert (changes_only (eq kind) s s) as Hrefl by reflexivity. specialize (Hrefl Hs).
  destruct (existsb _ _); [done|]. destruct (key_clash _ _); [done|]. destruct (negb _); [done|]. cbn [snd]. intros Hs'.
  split_and!; [done|done|]. exists (ts_tasks s), [t]. split_and!; [done|apply kept_refl|]. constructor; [by exists kind|done].
Qed.

Lemma emit_changes K e : Respects (changes_only K) (emit e).
Proof. intros s Hs. destruct (emit_step e s Hs) as [Hs' _]. split_and!; [done|done|]. exists (ts_tasks s), []. rewrite app_nil_r. split_and!; [done|apply kept_refl|done]. Qed.

Lemma upsert_changes kind key draft :
  t_source_kind draft = Some kind → Respects (changes_only (eq kind)) (upsert key draft).
Proof.
  intros Hk. unfold upsert. destruct (negb _); [apply _|]. apply (respects_bind (changes_only (eq kind))); [apply _|].
  intros [t|]; [apply _|]. unfold create_task. apply respects_bind_lift; [apply _|]. intros t Ht.
  pose proof (insert_changes kind t) as Hi. destruct (Task_of_same _ _ Ht) as (_ & _ & _ & _ & Hsk & _).
  specialize (Hi (eq_trans Hsk Hk) (Task_of_valid _ _ Ht)). pose proof (λ e, emit_changes (eq kind) e). apply _.
Qed.

Lemma raise_desired_changes dr kind l : Respects (changes_only (eq kind)) (raise_desired dr kind l).
Proof.
  induction l as [|d l IH]; cbn [raise_desired]; [apply _|]. apply (respects_bind (changes_only (eq kind))); [apply _|]. intros held.
  apply (respects_bind (changes_only (eq kind))); [by apply upsert_changes|]. intros _. apply _.
Qed.

Lemma resolve_listed_changes dr kind keys n s :
  changes_only (eq kind) s (snd (resolve_stale dr keys (take n (in_order (select_where (in_slice kind) (ts_tasks s)))) s)).
Proof.
  intros Hs. set (sl := take n _). pose proof (so_ids s Hs) as Hids.
  assert (∀ t, t ∈ sl → t ∈ ts_tasks s ∧ in_slice kind t = true) as Hsl.
  { intros t Ht%elem_of_take_in. rewrite in_order_perm in Ht. by apply elem_of_select_where in Ht. }
  destruct (resolve_stale_spec dr keys sl s Hs) as (s2 & Hrun & Hs2 & [Hg _] & Hl).
  { unfold sl. assert (NoDup (map t_id (in_order (select_where (in_slice kind) (ts_tasks s))))) as Hnd
      by (rewrite in_order_perm; by apply nodup_select).
    rewrite <- (take_drop n (in_order _)), map_app in Hnd. by apply NoDup_app in Hnd as [? _]. }
  { intros t Ht. by apply Hsl. }
  rewrite Hrun. cbn [snd]. split_and!; [done|done|]. exists (ts_tasks s2), []. rewrite app_nil_r. split_and!; [done| |done].
  eapply Forall2_weaken; [exact Hl|]. intros r r' Hr. unfold closes. destruct (str_in _ _) eqn:E; [|by left]. intros Hc. right.
  apply str_in_elem, list_elem_of_fmap in E as (x & He & [Hx Hcl]%elem_of_select_where). destruct (Hsl x Hx) as [Hxs Hxk].
  rewrite (unique_key t_id _ r x Hids Hr Hxs He) in *. unfold cleared in Hcl. to_props. split_and!; [by exists kind|done|done].
Qed.

Section slices.
Context {W : Type} `{!Part W TaskStore, !PartLaws W TaskStore}.

(** A provider that leaves the task store to [reconcile]. *)
Definition hands_off (p : Provider W) : Prop := Respects (λ w w', part w' = part w) (pv_desired p).

Lemma reconcile_changes dr p w : hands_off p → changes_only (eq (pv_kind p)) (part w) (part (run_state (reconcile dr p) w)).
Proof using Type*.
  intros Hp. specialize (Hp w). unfold reconcile, on_part, zoom, list_tasks. run_monad. destruct (pv_desired p w) as [[l|e] w1]; cbn [snd] in Hp |- *;
    [|rewrite Hp; reflexivity]. rewrite set_part_part, <- Hp.
  pose proof (resolve_listed_changes dr (pv_kind p) (map da_key l) RECONCILE_LIMIT (part w1)) as H2. unfold in_slice in H2.
  destruct (resolve_stale _ _ _ _) as [[n2|e] s2]; cbn [snd] in *; rewrite part_set; [|done].
  pose proof (raise_desired_changes dr (pv_kind p) l s2) as H3. destruct (raise_desired _ _ _ _) as [[n3|e] s3]; cbn [snd] in *;
    rewrite part_set; by etrans.
Qed.

Lemma reconcile_each_changes dr l out w :
  Forall hands_off l → changes_only (λ k, k ∈ map pv_kind l) (part w) (part (run_state (reconcile_each dr l out) w)).
Proof using Type*.
  intros Hl. revert out w. induction Hl as [|p l Hp _ IH]; intros out w; [reflexivity|]. cbn [reconcile_each]. run_monad.
  pose proof (reconcile_changes (dr (pv_kind p)) p w Hp) as H1. destruct (reconcile (dr (pv_kind p)) p w) as [[x|e] w1]; cbn [snd] in H1;
    (etrans; [eapply changes_only_weaken; [|exact H1]; intros k <-; by left|]);
    (eapply changes_only_weaken; [|apply IH]; intros k Hk; by right).
Qed.
End slices.

(** ** A provider's pass *)

Section settled.
Context {W : Type} `{!Part W TaskStore, !PartLaws W TaskStore}.

(** C30. A pass brings the provider's slice of the task list to what its domain calls for. Where the
    slice fits the pass's limit and the store accepts the actions, the pass returns a summary of what it did: it
    completed exactly the active actions of the slice whose key is no longer called for, added a task
    for exactly the keys no task held, and left every other row as it was; after it, a task holds
    every key called for, and every active action of the slice is called for. A pass that then
    finds the same actions called for changes nothing, whatever it draws. *)
Theorem reconcile_settles (dr : Draws) (p : Provider W) w w1 l :
  pv_desired p w = (Ok l, w1) → store_ok (part w1) →
  count_where (in_slice (pv_kind p)) (ts_tasks (part w1)) <= RECONCILE_LIMIT →
  Forall (desired_ok dr (pv_kind p)) l → draws_new dr (part w1) l →
  ∃ n w', reconcile dr p w = (Ok {| ps_raised := n; ps_resolved := count_where (stale (pv_kind p) (map da_key l)) (ts_tasks (part w1));
                                     ps_open_total := length l |}, w') ∧
    reconciled dr (pv_kind p) l (part w1) (part w') n ∧
    ∀ dr2 w2, pv_desired p w' = (Ok l, w2) → part w2 = part w' →
      reconcile dr2 p w' = (Ok {| ps_raised := 0; ps_resolved := 0; ps_open_total := length l |}, w2).
Proof using Type*.
  intros Hdes Hs Hfit Hok Hnew. destruct (reconcile_spec dr p w w1 l Hdes Hs Hfit Hok Hnew) as (n & w' & Hrun & Hrec).
  exists n, w'. split_and!; [done|done|]. intros dr2 w2 Hdes2 Hw2.
  apply (reconcile_quiet dr2 p w' w2 l Hdes2); rewrite Hw2; [apply Hrec|]. intros d Hd. split; [|by apply Hrec].
  eapply Forall_forall in Hok as (Hk & _); [exact Hk|exact Hd].
Qed.

(** Providers never step on each other: a pass over every registered provider, whichever of them
    fail and wherever, only completes active actions of the registered kinds and only adds tasks of
    those kinds; every other row, and every goal, is as it was, and the store stays sound. *)
Theorem reconcile_all_in_slices (dr : string → Draws) (r : Registry W) w :
  store_ok (part w) → Forall hands_off (providers r) →
  let s := part w in
  let s' := part (run_state (reconcile_all dr r) w) in
  let registered k := k ∈ map pv_kind (providers r) in
  store_ok s' ∧ ts_goals s' = ts_goals s ∧ ∃ kept new, ts_tasks s' = kept ++ new ∧
    Forall2 (λ t t', t' = t ∨ ((∃ k, registered k ∧ in_slice k t = true) ∧ is_active t = true ∧ ∃ c now, t' = closed t c now))
      (ts_tasks s) kept ∧
    Forall (λ t, ∃ k, registered k ∧ t_source_kind t = Some k) new.
Proof using Type*. intros Hs Hr. exact (reconcile_each_changes dr (providers r) [] w Hr Hs). Qed.
End settled.

(** ** Concrete passes *)

Definition sample_action (safe : bool) : TaskAction :=
  {| ta_kind := review; ta_label := "Review"; ta_command := None; ta_target_id := None; ta_safe := safe; ta_choices := [];
     ta_options := None; ta_card := None |}.
Definition sample_desired (key : string) : DesiredAction :=
  {| da_key := key; da_title := "Blocked statement"; da_description := "No password"; da_source_id := "stmt"; da_action := sample_action true |}.
Definition sample_draws (pass : string) : Draws :=
  {| dr_done := λ id, (100, 101)%Z; dr_id := λ key, pass +:+ ":" +:+ key; dr_at := λ key, (1, 2)%Z |}.

(** A provider over a world that is the store alone. *)
Definition sample_provider (kind : string) (keys : list string) : Provider TaskStore :=
  {| pv_kind := kind; pv_desired := mret (map sample_desired keys); pv_invoke := λ t, mret "done"; pv_invoke_choice := None |}.

Definition sample_store : TaskStore :=
  run_task_ops
    [OUpsert "stmt:1" (draft_of (sample_draws "a") "finance-statements" (sample_desired "stmt:1"));
     OCreate (draft_of (sample_draws "b") "manual" (sample_desired "todo"))] (empty_store true).

Lemma sample_store_ok : store_ok sample_store.
Proof. apply (run_task_ops_step _ (empty_store true)), empty_ok. Qed.

Example reconcile_settles_witness :
  ∃ n w', reconcile (sample_draws "c") (sample_provider "finance-statements" ["stmt:2"]) sample_store
          = (Ok {| ps_raised := n; ps_resolved := 1; ps_open_total := 1 |}, w')
          ∧ reconciled (sample_draws "c") "finance-statements" (map sample_desired ["stmt:2"]) sample_store w' n.
Proof.
  destruct (reconcile_settles (sample_draws "c") (sample_provider "finance-statements" ["stmt:2"]) sample_store sample_store
              (map sample_desired ["stmt:2"])) as (n & w' & Hrun & Hrec & _).
  - reflexivity.
  - exact sample_store_ok.
  - vm_compute. lia.
  - constructor; [|constructor]. split; [reflexivity|]. split; [reflexivity|]. eexists. vm_compute. reflexivity.
  - split.
    + intros d ->%list_elem_of_singleton _. vm_compute. intros H. by repeat (apply elem_of_cons in H as [H|H]; [discriminate H|]); apply elem_of_nil in H.
    + by intros d1 d2 ->%list_elem_of_singleton ->%list_elem_of_singleton.
  - exists n, w'. split; [exact Hrun|exact Hrec].
Defined.

Definition sample_registry : Registry TaskStore :=
  register_provider (sample_provider "finance-statements" ["stmt:2"])
    (register_provider {| pv_kind := "rag-ingest"; pv_desired := raise (Exn "OSError" "disk"); pv_invoke := λ t, mret "";
                          pv_invoke_choice := None |} []).

Example reconcile_all_in_slices_witness :
  store_ok (part (run_state (reconcile_all (λ _, sample_draws "c") sample_registry) sample_store)).
Proof.
  refine (proj1 (reconcile_all_in_slices (λ _, sample_draws "c") sample_registry sample_store _ _)).
  - exact sample_store_ok.
  - constructor; [|constructor; [|constructor]]; intros w; reflexivity.
Defined.

(** Two passes of the sample provider, with what is called for in each. *)
Definition passes (kind : string) (calls : list (list string)) (s : TaskStore) : TaskStore :=
  fold_left (λ s call, run_state (reconcile (sample_draws call.1) (sample_provider kind call.2)) s)
    (imap (λ i keys, ("pass" +:+ pretty i, keys)) calls) s.

Definition active_keys (kind : string) (s : TaskStore) : list (option string) :=
  map t_dedup_key (select_where (λ t, in_slice kind t && is_active t) (ts_tasks s)).

(** A blocker that clears and comes back is not raised again: the completed task holds its key. *)
Example cleared_blocker_stays_hidden :
  active_keys "finance-statements" (passes "finance-statements" [["stmt:1"]; []; ["stmt:1"]] (empty_store false)) = [].
Proof. vm_compute. reflexivity. Qed.

(** A key another kind's task holds is not raised for this provider. *)
Example shared_key_never_raised :
  active_keys "finance-statements" (passes "finance-statements" [["k"]] (passes "rag-ingest" [["k"]] (empty_store false))) = [].
Proof. vm_compute. reflexivity. Qed.

(** Completed actions count against the limit of the list a pass reads: behind a thousand of them, a
    cleared blocker stays open. *)
Example limit_hides_cleared_blocker :
  let action (i : nat) (st : TaskStatus) (done : option Z) :=
    {| t_id := pretty i; t_title := "x"; t_description := ""; t_status := st; t_priority := 0; t_source_kind := Some "email";
       t_source_id := None; t_parent_task_id := None; t_dedup_key := Some (pretty i); t_due_at := None; t_wait_for := None;
       t_wait_for_resolved_at := None; t_parent_goal_id := None; t_related_wikilinks := []; t_calendar_event_id := None;
       t_calendar_visible := false; t_action := Some (sample_action true); t_created_at := 0; t_updated_at := 0;
       t_completed_at := done; t_closed_reason := None |} in
  let s := {| ts_tasks := map (λ i, action i t_done (Some 1%Z)) (seq 0 1000) ++ [action 1000 t_open None]; ts_goals := [];
              ts_bus := false; ts_events := [] |} in
  active_keys "email" (passes "email" [[]] s) = [Some "1000"].
Proof. vm_compute. reflexivity. Qed.
