(* ===== verification/Feedback.v ===== *)
(** * Feedback on what was surfaced ([services/learning/suppression.py])

    The ledger of the owner's verdicts, the key a verdict is kept under, the token a surfaced item
    carries so that any channel can record one, and the decision to stop surfacing an item. *)

From S2P Require Import Prelude PyVal PyText CallContext Encodings.
From stdpp Require Import options.

Definition NOT_USEFUL : string := "not_useful".
Definition USEFUL : string := "useful".
Definition VERDICTS : list string := [NOT_USEFUL; USEFUL].
Definition SOURCE_USER : string := "user".

(** A mapping of dimensions, in its order. *)
Abbreviation dims := (list (string * pyval)).
Abbreviation texts := (list (string * string)).

(** ** Keys *)

Definition normal_text (s : string) : string := str_lower (str_strip s).

(** One step of [_canonical_dims]. *)
Definition add_dim (out : texts) (kv : string * pyval) : texts :=
  match kv.2 with
  | VNone => out
  | v =>
      let text := normal_text (str_val v) in
      if str_truthy text then kv_set (normal_text kv.1) text out else out
  end.

Definition _canonical_dims (d : dims) : texts := fold_left add_dim d [].

Definition text_dims (d : texts) : dims := map (λ kv, (kv.1, VStr kv.2)) d.

(** What [_key_hash] hashes. *)
Definition key_payload (subsystem surface_kind : string) (d : dims) : string :=
  dumps_compact (VList [VStr (str_lower subsystem); VStr (str_lower surface_kind); VDict (text_dims (_canonical_dims d))]).

(** ** Tokens *)

Definition encode_ref (subsystem surface_kind : string) (d : dims) : string :=
  "fb:" +:+ b64_encode (dumps_compact (VDict [("s", VStr subsystem); ("k", VStr surface_kind); ("d", VDict (text_dims (_canonical_dims d)))])).

(** The UTF-8 decoding of bytes, for the characters of one byte. *)
Fixpoint utf8_decode (s : string) : option string :=
  match s with
  | EmptyString => Some EmptyString
  | String a r =>
      let n := N_of_ascii a in
      if (n <? 128)%N then String a <$> utf8_decode r
      else match r with
           | String b r =>
               let m := N_of_ascii b in
               if ((194 <=? n) && (n <=? 195) && (128 <=? m) && (m <? 192))%N then
                 String (ascii_of_N ((n - 192) * 64 + (m - 128))) <$> utf8_decode r
               else None
           | EmptyString => None
           end
  end.

Definition ValueError (why : string) : exn := Exn "ValueError" why.

(** [type(v).__name__] of a decoded value. *)
Definition json_type_name (v : pyval) : string :=
  match v with
  | VNone => "NoneType" | VBool _ => "bool" | VInt _ => "int" | VFloat _ => "float" | VStr _ => "str" | VList _ => "list"
  | VDict _ => "dict" | VObj _ => "object"
  end.

Section tokens.
(** The [repr] of the float a literal denotes. *)
Context (float_repr : string → string).

Definition read_token (token : string) : option pyval :=
  raw ← b64_decode (b64_padded token); text ← utf8_decode raw; json_loads float_repr text.

Definition decode_ref (ref : string) : res (string * string * texts) :=
  match cut "fb:" ref with
  | None => Raise (ValueError ("not a feedback ref: " +:+ py_repr ref))
  | Some token =>
      match read_token token with
      | None => Raise (ValueError ("malformed feedback ref: " +:+ py_repr ref))
      | Some (VDict data) =>
          let subsystem := str_val (default (VStr "") (od_get "s" data)) in
          let surface_kind := str_val (default (VStr "") (od_get "k" data)) in
          match default (VDict []) (od_get "d" data) with
          | VDict d =>
              if str_truthy subsystem && str_truthy surface_kind then
                Ok (subsystem, surface_kind, map (λ kv, (kv.1, str_val kv.2)) d)
              else Raise (ValueError ("incomplete feedback ref: " +:+ py_repr ref))
          | _ => Raise (ValueError ("incomplete feedback ref: " +:+ py_repr ref))
          end
      | Some v => Raise (Exn "AttributeError" ("'" +:+ json_type_name v +:+ "' object has no attribute 'get'"))
      end
  end.
End tokens.

(** ** The ledger *)

Record FeedbackRow := {
  fr_subsystem : string; fr_kind : string; fr_hash : string; fr_dims : texts; fr_verdict : string; fr_source : string;
  fr_session : string; fr_at : Z }.

(** A mirrored steering signal. *)
Record BehaviorSignal := { bs_kind : string; bs_subject : string; bs_detail : string; bs_session : string }.

Record FeedbackStore := { fs_rows : list FeedbackRow; fs_signals : list BehaviorSignal }.

Section store.
(** [hashlib.sha1(...).hexdigest()[:16]] of a text, and whether the database answers. *)
Context (digest : string → string).

Definition _key_hash (subsystem surface_kind : string) (d : dims) : string := digest (key_payload subsystem surface_kind d).

Record Recording := {
  rec_subsystem : string; rec_kind : string; rec_dims : dims; rec_verdict : string; rec_source : string; rec_session : string;
  rec_emit : bool }.

Definition row_of (x : Recording) (now : Z) : FeedbackRow :=
  let canonical := _canonical_dims (rec_dims x) in
  {| fr_subsystem := rec_subsystem x; fr_kind := rec_kind x;
     fr_hash := _key_hash (rec_subsystem x) (rec_kind x) (text_dims canonical); fr_dims := canonical; fr_verdict := rec_verdict x;
     fr_source := rec_source x; fr_session := rec_session x; fr_at := now |}.

Definition signal_of (x : Recording) : BehaviorSignal :=
  {| bs_kind := "surface_feedback_" +:+ rec_verdict x; bs_subject := rec_subsystem x +:+ "/" +:+ rec_kind x;
     bs_detail := dumps_compact (VDict (text_dims (_canonical_dims (rec_dims x)))); bs_session := rec_session x |}.

(** [record]; [ok] and [mirrored] say whether its two writes reach their tables. *)
Definition record (ok mirrored : bool) (x : Recording) (now : Z) : M FeedbackStore unit :=
  if negb (str_in (rec_verdict x) VERDICTS) then mret tt
  else if negb ok then mret tt
  else
    modify (λ s, {| fs_rows := fs_rows s ++ [row_of x now]; fs_signals := fs_signals s |});;
    if rec_emit x && mirrored then
      modify (λ s, {| fs_rows := fs_rows s; fs_signals := fs_signals s ++ [signal_of x] |})
    else mret tt.

Definition DAY_US : Z := DAY.

(** The rows of a window of days before [now]; [None] is all of them. *)
Definition in_window (window_days : option Z) (now : Z) (r : FeedbackRow) : bool :=
  match window_days with Some d => (now - d * DAY_US <=? fr_at r)%Z | None => true end.

Definition same_key (subsystem surface_kind hash : string) (r : FeedbackRow) : bool :=
  String.eqb (fr_subsystem r) subsystem && String.eqb (fr_kind r) surface_kind && String.eqb (fr_hash r) hash.

Definition says (verdict : string) (r : FeedbackRow) : bool := String.eqb (fr_verdict r) verdict.

(** [_counts] *)
Definition _counts (ok : bool) (subsystem surface_kind : string) (d : dims) (window_days : option Z) (now : Z) (s : FeedbackStore)
    : nat * nat :=
  if negb ok then (0, 0)
  else
    let rows := select_where (λ r, same_key subsystem surface_kind (_key_hash subsystem surface_kind d) r && in_window window_days now r) (fs_rows s) in
    (count_where (says NOT_USEFUL) rows, count_where (says USEFUL) rows).

Definition net (c : nat * nat) : Z := (Z.of_nat (fst c) - Z.of_nat (snd c))%Z.

Definition should_suppress (ok : bool) (subsystem surface_kind : string) (d : dims) (min_fp : Z) (window_days : option Z) (now : Z)
    (s : FeedbackStore) : bool :=
  (min_fp <=? net (_counts ok subsystem surface_kind d window_days now s))%Z.

Record SuppressionStat := { ss_subsystem : string; ss_kind : string; ss_dims : texts; ss_not_useful : nat; ss_useful : nat }.

Definition stat (ok : bool) (subsystem surface_kind : string) (d : dims) (window_days : option Z) (now : Z) (s : FeedbackStore)
    : SuppressionStat :=
  let c := _counts ok subsystem surface_kind d window_days now s in
  {| ss_subsystem := subsystem; ss_kind := surface_kind; ss_dims := _canonical_dims d; ss_not_useful := fst c; ss_useful := snd c |}.

(** [GROUP BY subsystem, surface_kind, key_hash]: the keys of the rows, each once. *)
Definition key_of (r : FeedbackRow) : string * string * string := (fr_subsystem r, fr_kind r, fr_hash r).
Definition group (k : string * string * string) (rows : list FeedbackRow) : list FeedbackRow :=
  select_where (same_key k.1.1 k.1.2 k.2) rows.

Record SuppressionSummary := { sm_total : nat; sm_active : nat; sm_by_subsystem : list (string * nat) }.

(** [nu - u >= min_fp] of a group *)
Definition suppressing (min_fp : Z) (rows : list FeedbackRow) (k : string * string * string) : bool :=
  (min_fp <=? net (count_where (says NOT_USEFUL) (group k rows), count_where (says USEFUL) (group k rows)))%Z.

(** One group of the answer. *)
Definition add_group (min_fp : Z) (rows : list FeedbackRow) (acc : SuppressionSummary) (k : string * string * string) : SuppressionSummary :=
  let total := sm_total acc + length (group k rows) in
  if suppressing min_fp rows k then
    {| sm_total := total; sm_active := S (sm_active acc);
       sm_by_subsystem := kv_set k.1.1 (S (default 0 (od_get k.1.1 (sm_by_subsystem acc)))) (sm_by_subsystem acc) |}
  else {| sm_total := total; sm_active := sm_active acc; sm_by_subsystem := sm_by_subsystem acc |}.

(** [summary] *)
Definition summary (ok : bool) (min_fp : Z) (window_days : option Z) (now : Z) (s : FeedbackStore) : SuppressionSummary :=
  let none := {| sm_total := 0; sm_active := 0; sm_by_subsystem := [] |} in
  if negb ok then none
  else
    let rows := select_where (in_window window_days now) (fs_rows s) in
    fold_left (add_group min_fp rows) (remove_dups (map key_of rows)) none.

(** [feedback_between]: the rows of [[start, end)], oldest first. *)
Definition feedback_between (ok : bool) (start_ end_ : Z) (source : option string) (s : FeedbackStore) : list FeedbackRow :=
  if negb ok then []
  else select_where (λ r, (start_ <=? fr_at r)%Z && (fr_at r <? end_)%Z && match source with Some x => String.eqb (fr_source r) x | None => true end)
         (fs_rows s).
End store.

(** ** Keys of the email surfaces *)

(** [s.rfind(c)], as the texts on its two sides. *)
Definition rsplit_at (c : ascii) (s : string) : option (string * string) := rpartition c s.

(** [s[s.rfind("<") + 1 : s.rfind(">")]] for a text with both. *)
Definition between_brackets (s : string) : string :=
  match rsplit_at (ascii_of_N 60) s, rsplit_at (ascii_of_N 62) s with
  | Some (a, _), Some (b, _) =>
      let lo := S (String.length a) in
      String.substring lo (String.length b - lo) s
  | _, _ => s
  end.

Definition has_char (c : ascii) (s : string) : bool := str_any (Ascii.eqb c) s.
Definition bare (s : string) : string :=
  if has_char (ascii_of_N 60) s && has_char (ascii_of_N 62) s then between_brackets s else s.

Definition _address_of (value : string) : string := normal_text (bare (str_strip value)).

Definition _domain_of (value : string) : string :=
  let s := bare (str_strip value) in
  normal_text (match rsplit_at (ascii_of_N 64) s with Some (_, d) => d | None => s end).

Definition email_search_dims (from_domain : string) : texts := [("from_domain", normal_text from_domain)].
Definition email_search_dims_from_sender (sender : string) : texts := email_search_dims (_domain_of sender).
Definition email_focus_dims (sender : string) : texts := [("sender", _address_of sender)].
Definition email_followup_dims_from (account_id from_value : string) : texts :=
  [("account", account_id); ("from_domain", if has_char (ascii_of_N 64) from_value then _domain_of from_value else "")].

(** ** Keys are canonical *)

Lemma ascii_lower_idem c : ascii_lower (ascii_lower c) = ascii_lower c.
Proof. by destruct c as [[] [] [] [] [] [] [] []]. Qed.

Lemma ascii_lower_space c : is_space (ascii_lower c) = is_space c.
Proof. by destruct c as [[] [] [] [] [] [] [] []]. Qed.

Lemma str_map_app f s t : str_map f (s +:+ t) = str_map f s +:+ str_map f t.
Proof. induction s as [|c s IH]; [done|]. rewrite !string_cons_app. cbn. by rewrite string_cons_app, IH. Qed.

Lemma str_map_rev f s : str_map f (String.rev s) = String.rev (str_map f s).
Proof. induction s as [|c s IH]; [done|]. cbn [str_map]. by rewrite !rev_cons, str_map_app, IH. Qed.

Lemma lstrip_map f s : (∀ c, is_space (f c) = is_space c) → lstrip (str_map f s) = str_map f (lstrip s).
Proof. intros Hf. induction s as [|c s IH]; [done|]. cbn. rewrite Hf. by destruct (is_space c). Qed.

Lemma lower_strip s : str_strip (str_lower s) = str_lower (str_strip s).
Proof.
  unfold str_strip, str_lower. rewrite lstrip_map by apply ascii_lower_space.
  rewrite <- str_map_rev, lstrip_map by apply ascii_lower_space. by rewrite str_map_rev.
Qed.

Lemma str_lower_idem s : str_lower (str_lower s) = str_lower s.
Proof. unfold str_lower. induction s as [|c s IH]; [done|]. cbn. by rewrite ascii_lower_idem, IH. Qed.

Lemma normal_text_idem s : normal_text (normal_text s) = normal_text s.
Proof. unfold normal_text. by rewrite lower_strip, str_strip_idem, str_lower_idem. Qed.

(** A mapping of canonical dimensions. *)
Definition canonical (d : texts) : Prop :=
  NoDup (map fst d) ∧ Forall (λ kv, normal_text kv.1 = kv.1 ∧ normal_text kv.2 = kv.2 ∧ str_truthy kv.2 = true) d.

Lemma kv_set_forall {V} (P : string * V → Prop) k v d : P (k, v) → Forall P d → Forall P (kv_set k v d).
Proof.
  intros Hk. induction 1 as [|[k' v'] d Hd Hf IH]; cbn [kv_set]; [by constructor|].
  destruct (String.eqb k' k); constructor; done.
Qed.

Lemma add_dim_canonical out kv : canonical out → canonical (add_dim out kv).
Proof.
  intros [Hnd Hf]. unfold add_dim. assert (∀ t, str_truthy (normal_text t) = true → canonical (kv_set (normal_text kv.1) (normal_text t) out)) as Hset.
  { intros t Ht. split; [by apply kv_set_nodup|]. apply kv_set_forall; [|done]. cbn [fst snd]. by rewrite !normal_text_idem. }
  destruct (kv.2); try done; cbv zeta; destruct (str_truthy _) eqn:E; try done; by apply Hset.
Qed.

Lemma canonical_dims_ok d : canonical (_canonical_dims d).
Proof.
  unfold _canonical_dims. assert (canonical []) as H by (split; constructor). revert H. generalize ([] : texts).
  induction d as [|kv d IH]; intros out H; [done|]. cbn. apply IH. by apply add_dim_canonical.
Qed.

Lemma canonical_fixed d : canonical d → _canonical_dims (text_dims d) = d.
Proof.
  intros [Hnd Hf]. unfold _canonical_dims. enough (∀ acc, NoDup (map fst (acc ++ d)) → fold_left add_dim (text_dims d) acc = acc ++ d) as H
    by (apply (H []); done).
  clear Hnd. induction Hf as [|[k v] d (Hk & Hv & Ht) _ IH]; intros acc Hnd; [by rewrite app_nil_r|].
  cbn [fst snd] in *. cbn [text_dims map fold_left]. unfold add_dim at 2. cbn [fst snd str_val]. cbv zeta. rewrite Hk, Hv, Ht.
  rewrite kv_set_fresh.
  - rewrite IH; [by rewrite <- app_assoc|by rewrite <- app_assoc].
  - rewrite map_app in Hnd. apply NoDup_app in Hnd as (_ & Hd & _). intros Hin. eapply Hd; [exact Hin|]. by left.
Qed.

(** Canonicalising twice is canonicalising once: a recorded verdict and the item it is about have
    one key. *)
Lemma key_canonical d : _canonical_dims (text_dims (_canonical_dims d)) = _canonical_dims d.
Proof. apply canonical_fixed, canonical_dims_ok. Qed.

Lemma key_payload_canonical sub kind d : key_payload sub kind (text_dims (_canonical_dims d)) = key_payload sub kind d.
Proof. unfold key_payload. by rewrite key_canonical. Qed.

(** ** Tokens *)

Lemma utf8_ascii s : is_ascii s = true → utf8_decode s = Some s.
Proof.
  unfold is_ascii. induction s as [|c s IH]; [done|]. cbn. intros [Hc Hs]%andb_true_iff. by rewrite Hc, IH.
Qed.

Lemma json_str_ascii s : is_ascii (json_str s) = true.
Proof.
  unfold json_str, is_ascii. rewrite !str_all_app. change (str_all _ dquote) with true. rewrite andb_true_r. cbn [andb].
  assert (∀ c, str_all (λ c, (N_of_ascii c <? 128)%N) (json_char c) = true) as Hc by (by intros [[] [] [] [] [] [] [] []]).
  induction s as [|c s IH]; [done|]. cbn [str_concat_map]. by rewrite str_all_app, Hc.
Qed.

Lemma texts_ascii (d : texts) : is_ascii (dumps_compact (VDict (text_dims d))) = true.
Proof.
  unfold dumps_compact, is_ascii. rewrite dumps_dict. cbn [str_all]. rewrite str_all_app. apply andb_true_iff. split; [done|].
  apply andb_true_iff. split; [|done]. apply (str_all_join _ (ascii_of_N 44)); [done|].
  apply Forall_forall. intros x (kv & -> & Hkv)%list_elem_of_fmap. rewrite sort_kv_perm in Hkv.
  apply list_elem_of_fmap in Hkv as (kt & -> & _). unfold member_text. cbn [fst snd]. rewrite !str_all_app.
  rewrite (json_str_ascii _ : str_all _ _ = true). change (dumps_with _ _ (VStr kt.2)) with (json_str kt.2).
  by rewrite (json_str_ascii kt.2 : str_all _ _ = true).
Qed.

Lemma sort_texts (d : texts) : sort_kv (text_dims d) = text_dims (sort_kv d).
Proof. exact (sort_kv_map VStr d). Qed.

Lemma texts_wf (d : texts) : NoDup (map fst d) → json_wf (VDict (text_dims d)).
Proof.
  intros Hd. split; [unfold text_dims; by rewrite map_map|]. clear Hd. induction d as [|kv d IH]; [done|]. by split.
Qed.

Lemma key_sorted_texts (d : texts) : key_sorted (VDict (text_dims d)) = VDict (text_dims (sort_kv d)).
Proof.
  cbn [key_sorted]. rewrite <- sort_texts. do 2 f_equal. unfold text_dims. by rewrite map_map.
Qed.

Lemma canonical_perm d d' : d ≡ₚ d' → canonical d → canonical d'.
Proof. intros H [Hn Hf]. split; [by rewrite <- H|by rewrite <- H]. Qed.

Lemma canonical_sorted d : canonical (sort_kv (_canonical_dims d)).
Proof. eapply canonical_perm; [symmetry; apply sort_kv_perm|apply canonical_dims_ok]. Qed.

(** The key does not depend on the order of the dimensions. *)
Lemma key_payload_sorted sub kind d : key_payload sub kind (text_dims (sort_kv (_canonical_dims d))) = key_payload sub kind d.
Proof.
  assert (∀ v, dumps_compact (VList [VStr (str_lower sub); VStr (str_lower kind); v])
    = "[" +:+ (json_str (str_lower sub) +:+ "," +:+ json_str (str_lower kind) +:+ "," +:+ dumps_compact v) +:+ "]") as Hv by done.
  unfold key_payload. rewrite (canonical_fixed _ (canonical_sorted d)), !Hv.
  assert (dumps_compact (VDict (text_dims (sort_kv (_canonical_dims d)))) = dumps_compact (VDict (text_dims (_canonical_dims d)))) as Hd.
  { unfold dumps_compact. by rewrite !dumps_dict, !sort_texts, sort_kv_id by apply sort_kv_sorted. }
  by rewrite Hd.
Qed.

(** Two items with one payload are one item. *)
Lemma key_payload_inj sub kind d sub' kind' d' :
  key_payload sub kind d = key_payload sub' kind' d' →
  str_lower sub = str_lower sub' ∧ str_lower kind = str_lower kind' ∧ _canonical_dims d ≡ₚ _canonical_dims d'.
Proof.
  unfold key_payload. intros H.
  assert (∀ s k x, json_wf (VList [VStr s; VStr k; VDict (text_dims (_canonical_dims x))])) as Hwf
    by (intros s k x; exact (conj I (conj I (conj (texts_wf _ (proj1 (canonical_dims_ok x))) I)))).
  apply (f_equal (json_loads (λ r, r))) in H. rewrite !loads_compact in H by apply Hwf. injection H as H1 H2 H3.
  fold (text_dims (_canonical_dims d)) in H3. split_and!; [done|done|].
  assert (sort_kv (_canonical_dims d) = sort_kv (_canonical_dims d')) as Hs.
  { pose proof (key_sorted_texts (_canonical_dims d)) as E. pose proof (key_sorted_texts (_canonical_dims d')) as E'.
    cbn [key_sorted] in E, E'. injection E as E. injection E' as E'. rewrite E, E' in H3. unfold text_dims in H3.
    revert H3. generalize (sort_kv (_canonical_dims d)), (sort_kv (_canonical_dims d')).
    induction l as [|[k v] l IH]; intros [|[k' v'] l']; try done. cbn. intros [= -> -> Hl]. f_equal. by apply IH. }
  rewrite <- (sort_kv_perm (_canonical_dims d)), Hs. apply sort_kv_perm.
Qed.

Lemma ref_ascii sub kind (d : texts) :
  is_ascii (dumps_compact (VDict [("s", VStr sub); ("k", VStr kind); ("d", VDict (text_dims d))])) = true.
Proof.
  change (dumps_compact _) with ("{" +:+ ((json_str "d" +:+ ":" +:+ dumps_compact (VDict (text_dims d))) +:+ "," +:+
    (json_str "k" +:+ ":" +:+ json_str kind) +:+ "," +:+ (json_str "s" +:+ ":" +:+ json_str sub)) +:+ "}").
  pose proof (texts_ascii d) as Hd. pose proof (json_str_ascii kind) as Hk. pose proof (json_str_ascii sub) as Hs. unfold is_ascii in *.
  rewrite !str_all_app. by rewrite Hd, Hk, Hs.
Qed.

Lemma read_token_encoded float_repr sub kind d :
  read_token float_repr (b64_encode (dumps_compact (VDict [("s", VStr sub); ("k", VStr kind); ("d", VDict (text_dims (_canonical_dims d)))])))
  = Some (VDict [("d", VDict (text_dims (sort_kv (_canonical_dims d)))); ("k", VStr kind); ("s", VStr sub)]).
Proof.
  unfold read_token. rewrite b64_round_trip. cbn [mbind option_bind]. rewrite utf8_ascii by apply ref_ascii. cbn [mbind option_bind].
  rewrite loads_compact; [|].
  - rewrite <- key_sorted_texts. reflexivity.
  - split; [by repeat (constructor; [set_solver|]); constructor|].
    exact (conj I (conj I (conj (texts_wf _ (proj1 (canonical_dims_ok d))) I))).
Qed.

Lemma decode_encode_ref float_repr sub kind d :
  str_truthy sub = true → str_truthy kind = true →
  decode_ref float_repr (encode_ref sub kind d) = Ok (sub, kind, sort_kv (_canonical_dims d)).
Proof.
  intros Hs Hk. unfold decode_ref, encode_ref. change (cut "fb:" ("fb:" +:+ ?x)) with (Some x). cbn match.
  rewrite read_token_encoded. cbn -[text_dims str_truthy]. rewrite Hs, Hk. cbn [andb]. f_equal. f_equal.
  unfold text_dims. rewrite map_map. cbn. etransitivity; [|apply map_id]. apply map_ext. by intros [k v].
Qed.

(** ** Verdicts and items *)

Section verdicts.
Context (digest : string → string).

Lemma counts_snoc sub kind d window now s r :
  _counts digest true sub kind d window now {| fs_rows := fs_rows s ++ [r]; fs_signals := fs_signals s |}
  = let c := _counts digest true sub kind d window now s in
    if same_key sub kind (_key_hash digest sub kind d) r && in_window window now r then
      (fst c + (if says NOT_USEFUL r then 1 else 0), snd c + (if says USEFUL r then 1 else 0))
    else c.
Proof.
  unfold _counts. cbn [negb fs_rows]. rewrite select_where_app. cbv zeta. unfold select_where at 2 4. cbn [List.filter].
  destruct (same_key _ _ _ r && in_window window now r); [|by rewrite app_nil_r]. rewrite !count_where_app.
  unfold count_where, select_where. cbn [List.filter fst snd]. by destruct (says NOT_USEFUL r), (says USEFUL r).
Qed.

Lemma record_row mirrored x now s : rec_verdict x ∈ VERDICTS →
  fs_rows (run_state (record digest true mirrored x now) s) = fs_rows s ++ [row_of digest x now].
Proof.
  intros Hv. unfold record. rewrite (proj2 (str_in_elem _ _) Hv). cbn [negb]. run_monad. by destruct (rec_emit x && mirrored).
Qed.

Lemma counts_rows ok sub kind d window now s s' : fs_rows s = fs_rows s' →
  _counts digest ok sub kind d window now s = _counts digest ok sub kind d window now s'.
Proof. intros H. unfold _counts. by rewrite H. Qed.

Definition same_item (sub kind : string) (d : dims) (sub' kind' : string) (d' : dims) : Prop :=
  sub' = sub ∧ kind' = kind ∧ _canonical_dims d' ≡ₚ _canonical_dims d.

(** C34. A verdict given on the token an item carries counts for that item and for no other. The token
    of an item whose subsystem and kind are named decodes to them and to the item's dimensions; a
    verdict recorded under what it decodes to moves the item's tally by one, so [should_suppress]
    afterwards compares the tally so moved with its bound; and where the digest does not give two
    keys one hash, the decision on every other item is what it was. *)
Theorem feedback_reaches_item float_repr sub kind (d : dims) (s : FeedbackStore) :
  str_truthy sub = true → str_truthy kind = true →
  ∃ d', decode_ref float_repr (encode_ref sub kind d) = Ok (sub, kind, d') ∧ d' ≡ₚ _canonical_dims d ∧
  ∀ verdict source session emit mirrored now window now',
    verdict ∈ VERDICTS → match window with Some w => (now' - w * DAY_US ≤ now)%Z | None => True end →
    let x := {| rec_subsystem := sub; rec_kind := kind; rec_dims := text_dims d'; rec_verdict := verdict; rec_source := source;
                rec_session := session; rec_emit := emit |} in
    let s' := run_state (record digest true mirrored x now) s in
    let tally := net (_counts digest true sub kind d window now' s) in
    (∀ min_fp, should_suppress digest true sub kind d min_fp window now' s'
               = (min_fp <=? tally + (if String.eqb verdict NOT_USEFUL then 1 else -1))%Z) ∧
    (∀ sub2 kind2 d2 min_fp,
       (digest (key_payload sub2 kind2 d2) = digest (key_payload sub kind d) → key_payload sub2 kind2 d2 = key_payload sub kind d) →
       ¬ same_item sub kind d sub2 kind2 d2 →
       should_suppress digest true sub2 kind2 d2 min_fp window now' s' = should_suppress digest true sub2 kind2 d2 min_fp window now' s).
Proof.
  intros Hs Hk. exists (sort_kv (_canonical_dims d)). split; [by apply decode_encode_ref|]. split; [apply sort_kv_perm|].
  intros verdict source session emit mirrored now window now' Hv Hw. cbv zeta.
  set (x := Build_Recording _ _ _ _ _ _ _). set (s' := run_state _ s).
  assert (fs_rows s' = fs_rows {| fs_rows := fs_rows s ++ [row_of digest x now]; fs_signals := fs_signals s |}) as Hrows by by apply record_row.
  assert (fr_hash (row_of digest x now) = digest (key_payload sub kind d)) as Hhash.
  { cbn [row_of fr_hash x rec_subsystem rec_kind rec_dims]. unfold _key_hash. by rewrite key_payload_canonical, key_payload_sorted. }
  assert (in_window window now' (row_of digest x now) = true) as Hin by (destruct window; [by apply Z.leb_le|done]).
  split.
  - intros min_fp. unfold should_suppress. rewrite (counts_rows _ _ _ _ _ _ _ _ Hrows), counts_snoc. cbv zeta.
    unfold same_key. rewrite Hhash, Hin. cbn [row_of fr_subsystem fr_kind x rec_subsystem rec_kind]. unfold _key_hash. rewrite !string_eqb_refl. cbn [andb].
    f_equal. unfold net, says. cbn [fst snd row_of fr_verdict x rec_verdict]. unfold VERDICTS in Hv. rewrite !elem_of_cons in Hv.
    destruct Hv as [->|[->|Hv%elem_of_nil]]; [| |done]; cbn -[Z.of_nat]; lia.
  - intros sub2 kind2 d2 min_fp Hcol Hne. unfold should_suppress. rewrite (counts_rows _ _ _ _ _ _ _ _ Hrows), counts_snoc. cbv zeta.
    unfold same_key. rewrite Hhash. cbn [row_of fr_subsystem fr_kind x rec_subsystem rec_kind].
    destruct (String.eqb_spec sub sub2) as [E1|]; [|done]. destruct (String.eqb_spec kind kind2) as [E2|]; [|done].
    destruct (String.eqb_spec (digest (key_payload sub kind d)) (_key_hash digest sub2 kind2 d2)) as [E3|]; [|done]. exfalso.
    apply Hne. symmetry in E3. apply Hcol, key_payload_inj in E3 as (_ & _ & Hd). done.
Qed.
End verdicts.

(** ** The roll-up *)

Section roll_up.
Context (digest : string → string).

(** The calls of [record] over time: whether the two writes succeed, the call, its instant. *)
Definition run_records (l : list (bool * bool * Recording * Z)) : FeedbackStore :=
  fold_left (λ s c, run_state (record digest c.1.1.1 c.1.1.2 c.1.2 c.2) s) l {| fs_rows := []; fs_signals := [] |}.

Definition hashed (r : FeedbackRow) : Prop := fr_hash r = _key_hash digest (fr_subsystem r) (fr_kind r) (text_dims (fr_dims r)).

Lemma record_hashed ok mirrored x now s :
  Forall hashed (fs_rows s) → Forall hashed (fs_rows (run_state (record digest ok mirrored x now) s)).
Proof.
  intros Hs. unfold record. destruct (negb _); [done|]. destruct (negb ok); [done|]. run_monad.
  assert (Forall hashed (fs_rows s ++ [row_of digest x now])) as H by (apply Forall_app; by repeat constructor).
  by destruct (rec_emit x && mirrored).
Qed.

Lemma run_records_hashed l : Forall hashed (fs_rows (run_records l)).
Proof.
  unfold run_records. assert (Forall hashed (fs_rows {| fs_rows := []; fs_signals := [] |})) as H by constructor. revert H.
  generalize {| fs_rows := []; fs_signals := [] |}. induction l as [|c l IH]; intros s Hs; [done|]. cbn. by apply IH, record_hashed.
Qed.

Lemma same_key_of k1 k2 k3 r : same_key k1 k2 k3 r = bool_decide (key_of r = (k1, k2, k3)).
Proof.
  unfold same_key, key_of. destruct (String.eqb_spec (fr_subsystem r) k1), (String.eqb_spec (fr_kind r) k2), (String.eqb_spec (fr_hash r) k3);
    cbn; symmetry; (apply bool_decide_eq_true || apply bool_decide_eq_false); congruence.
Qed.

(** The loop over the groups, from any tally. *)
Lemma add_groups min_fp rows keys acc :
  let out := fold_left (add_group min_fp rows) keys acc in
  sm_total out = sm_total acc + list_sum (map (λ k, length (group k rows)) keys) ∧
  sm_active out = sm_active acc + count_where (suppressing min_fp rows) keys ∧
  ∀ sub, default 0 (od_get sub (sm_by_subsystem out))
         = default 0 (od_get sub (sm_by_subsystem acc)) + count_where (λ k, suppressing min_fp rows k && String.eqb k.1.1 sub) keys.
Proof.
  revert acc. induction keys as [|k keys IH]; intros acc; cbv zeta; [cbn; split_and!; intros; lia|]. cbn [fold_left map].
  destruct (IH (add_group min_fp rows acc k)) as (H1 & H2 & H3). unfold count_where in *. unfold select_where in *. cbn [List.filter] in *.
  rewrite list_sum_cons. unfold add_group in *. destruct (suppressing min_fp rows k); cbn [andb sm_total sm_active sm_by_subsystem length] in *; split_and!; try lia; intros sub; rewrite H3.
  - rewrite od_get_kv_set. destruct (String.eqb_spec k.1.1 sub) as [->|]; cbn; lia.
  - done.
Qed.

(** The rows split into their groups. *)
Lemma groups_total rows keys : NoDup keys → (∀ r, r ∈ rows → key_of r ∈ keys) →
  list_sum (map (λ k, length (group k rows)) keys) = length rows.
Proof.
  intros Hnd Hin. unfold group. induction rows as [|r rows IH].
  { clear Hin. induction keys as [|k keys IH]; [done|]. cbn [map]. rewrite list_sum_cons. apply NoDup_cons in Hnd as [_ Hnd]. by rewrite IH. }
  cbn [length]. rewrite <- IH by (intros; apply Hin; by right). assert (key_of r ∈ keys) as Hr by (apply Hin; by left). clear IH Hin.
  induction keys as [|k keys IH]; [by apply elem_of_nil in Hr|]. apply NoDup_cons in Hnd as [Hk Hnd]. cbn [map]. rewrite !list_sum_cons.
  unfold select_where at 1. cbn [List.filter]. fold (select_where (same_key k.1.1 k.1.2 k.2) rows). rewrite same_key_of.
  destruct k as [[a b] c]. cbn [fst snd] in *. destruct (decide (key_of r = (a, b, c))) as [He|He].
  - rewrite bool_decide_true by done. cbn [length]. assert (∀ k, k ∈ keys → same_key k.1.1 k.1.2 k.2 r = false) as Hno.
    { intros [[a' b'] c'] Hk'. rewrite same_key_of. cbn. apply bool_decide_eq_false. rewrite He. intros [= -> -> ->]. done. }
    enough (map (λ k, length (select_where (same_key k.1.1 k.1.2 k.2) (r :: rows))) keys = map (λ k, length (select_where (same_key k.1.1 k.1.2 k.2) rows)) keys) as E
      by (rewrite E; cbn; lia).
    apply map_ext_in. intros k Hk'%list_elem_of_In. unfold select_where. cbn [List.filter]. by rewrite Hno.
  - rewrite bool_decide_false by done. rewrite IH; [lia|done|]. by apply elem_of_cons in Hr as [?|?].
Qed.

(** The roll-up agrees with the decisions it summarises. Over any history of verdicts, with any
    failures to write them, and for any window and bound: the number of active suppressions is
    the number of distinct keys among the window's verdicts for which [should_suppress], asked about
    the verdict's own item, answers yes; each subsystem's count is the number of those keys that are
    its own; and the total is the number of verdicts in the window. *)
Theorem summary_counts_decisions (l : list (bool * bool * Recording * Z)) min_fp window now :
  let s := run_records l in
  let out := summary true min_fp window now s in
  ∃ active, NoDup active ∧
    (∀ k, k ∈ active ↔ ∃ r, r ∈ fs_rows s ∧ in_window window now r = true ∧ key_of r = k ∧
       should_suppress digest true (fr_subsystem r) (fr_kind r) (text_dims (fr_dims r)) min_fp window now s = true) ∧
    sm_active out = length active ∧
    (∀ sub, default 0 (od_get sub (sm_by_subsystem out)) = count_where (λ k, String.eqb k.1.1 sub) active) ∧
    sm_total out = count_where (in_window window now) (fs_rows s).
Proof.
  cbv zeta. set (s := run_records l). unfold summary. cbn [negb]. set (rows := select_where (in_window window now) (fs_rows s)).
  set (keys := remove_dups (map key_of rows)).
  assert (∀ r, r ∈ fs_rows s → should_suppress digest true (fr_subsystem r) (fr_kind r) (text_dims (fr_dims r)) min_fp window now s
    = suppressing min_fp rows (key_of r)) as Hdec.
  { intros r Hr. unfold should_suppress, _counts, suppressing, group. cbn [negb key_of fst snd].
    pose proof (run_records_hashed l) as Hh. fold s in Hh. eapply Forall_forall in Hh; [|exact Hr]. unfold hashed in Hh. rewrite <- Hh.
    unfold rows. rewrite select_where_and. do 3 f_equal; f_equal; apply select_where_ext; intros r'; apply andb_comm. }
  destruct (add_groups min_fp rows keys {| sm_total := 0; sm_active := 0; sm_by_subsystem := [] |}) as (H1 & H2 & H3).
  exists (select_where (suppressing min_fp rows) keys). split_and!.
  - apply select_where_nodup, NoDup_remove_dups.
  - intros k. rewrite elem_of_select_where. unfold keys. rewrite elem_of_remove_dups, list_elem_of_fmap. split.
    + intros [(r & -> & Hr) Hsup]. unfold rows in Hr. apply elem_of_select_where in Hr as [Hr Hw]. exists r. by rewrite Hdec.
    + intros (r & Hr & Hw & <- & Hsup). rewrite Hdec in Hsup by done. split; [|done]. exists r. split; [done|]. by apply elem_of_select_where.
  - rewrite H2. cbn. done.
  - intros sub. rewrite H3. cbn [sm_by_subsystem od_get List.find fmap option_fmap option_map default Nat.add]. unfold count_where.
    by rewrite select_where_and.
  - rewrite H1. cbn. rewrite groups_total; [done|apply NoDup_remove_dups|]. intros r Hr. unfold keys. apply elem_of_remove_dups.
    by apply list_elem_of_fmap_2.
Qed.
End roll_up.

(** ** Concrete tokens *)

Definition sample_item : dims := [("Kind", VStr " credential "); ("target", VStr "Gmail"); ("detail", VNone)].

Example feedback_reaches_item_witness :
  ∃ d', decode_ref (λ r, r) (encode_ref "system" "health_alert" sample_item) = Ok ("system", "health_alert", d') ∧
        d' ≡ₚ [("kind", "credential"); ("target", "gmail")].
Proof.
  destruct (feedback_reaches_item (λ x, x) (λ r, r) "system" "health_alert" sample_item {| fs_rows := []; fs_signals := [] |})
    as (d' & Hdec & Hd & _).
  - reflexivity.
  - reflexivity.
  - exists d'. split; [exact Hdec|exact Hd].
Defined.

(** The token is what the program writes: the compact JSON of the item in URL-safe base64. *)
Example token_text : encode_ref "a" "b" [("x", VInt 1)] = "fb:eyJkIjp7IngiOiIxIn0sImsiOiJiIiwicyI6ImEifQ".
Proof. vm_compute. reflexivity. Qed.

(** A token that decodes to a list is not a [ValueError]. *)
Example list_token_raises : decode_ref (λ r, r) "fb:W10" = Raise (Exn "AttributeError" "'list' object has no attribute 'get'").
Proof. vm_compute. reflexivity. Qed.

Example address_of_pair : _address_of "Acme <Offers@Acme.com>" = "offers@acme.com".
Proof. reflexivity. Qed.

Example domain_of_pair : _domain_of "Acme <Offers@Acme.com>" = "acme.com".
Proof. reflexivity. Qed.
