(* ===== verification/ActionCenter.v ===== *)
(** * The Action Center ([runtime/action_center.py], [services/health/models.py] and
    [pending_actions.py], [server/harness_api/action_center_routes.py], the tools of
    [runtime/react_tools.py])

    What needs the owner's attention, read from the task store, the health snapshot, the approval
    queue and the memory's review queue; and the ways an owner answers an item. *)

From S2P Require Import Prelude PyVal PyText CallContext Hooks Kernel Approvals Encodings Tasks PendingActions Feedback.
From stdpp Require Import options.

(** ** Health ([services/health/models.py]) *)

Inductive HealthState := h_green | h_yellow | h_red | h_grey.
#[export] Instance HealthState_eq_dec : EqDecision HealthState.
Proof. solve_decision. Defined.
Definition state_str (s : HealthState) : string :=
  match s with h_green => "green" | h_yellow => "yellow" | h_red => "red" | h_grey => "grey" end.
Definition rank (s : HealthState) : Z := match s with h_grey => 0 | h_green => 1 | h_yellow => 2 | h_red => 3 end.

Inductive CheckKind := k_service | k_credential | k_hardware | k_plugin | k_skill | k_governance.
Definition check_kind_str (k : CheckKind) : string :=
  match k with
  | k_service => "service" | k_credential => "credential" | k_hardware => "hardware" | k_plugin => "plugin" | k_skill => "skill"
  | k_governance => "governance"
  end.

(** [HealthCheck]; how the console reconnects a credential is not read here. *)
Record HealthCheck := {
  hc_target : string; hc_kind : CheckKind; hc_state : HealthState; hc_detail : string; hc_endpoint : option string;
  hc_action : option string; hc_subject : option string; hc_fix_url : option string }.

Definition check_key (c : HealthCheck) : string :=
  match hc_subject c with Some s => if str_truthy s then hc_target c +:+ ":" +:+ s else hc_target c | None => hc_target c end.

Definition worst_state (checks : list HealthCheck) : HealthState :=
  match max_by rank (map hc_state checks) with Some s => s | None => h_green end.

Definition health_summary (checks : list HealthCheck) : string :=
  let count s := count_where (λ c, bool_decide (hc_state c = s)) checks in
  let parts := omap (λ s, if Nat.eqb (count s) 0 then None else Some (pretty (count s) +:+ " " +:+ state_str s)) [h_red; h_yellow; h_green; h_grey] in
  match parts with [] => "no checks" | _ => join ", " parts end.

Definition alerts (checks : list HealthCheck) : list HealthCheck := select_where (λ c, bool_decide (hc_state c = h_red)) checks.

(** ** Items *)

Inductive Origin := from_task | from_health | from_approval | from_memory.
#[export] Instance Origin_eq_dec : EqDecision Origin.
Proof. solve_decision. Defined.

Record PendingAction := {
  pa_id : string; pa_origin : Origin; pa_source_kind : string; pa_title : string; pa_description : string; pa_action : TaskAction;
  pa_created_at : option Z; pa_dedup_key : option string; pa_feedback_ref : option string }.

Abbreviation item_key := (string * string * dims)%type.

Definition pending_action_feedback_key (pa : PendingAction) : option item_key :=
  match pa_origin pa with
  | from_approval => None
  | from_health =>
      match split_first (ascii_of_N 58) (pa_id pa) with
      | Some (_, rest) =>
          match split_first (ascii_of_N 58) rest with
          | Some (kind, target) =>
              if str_truthy kind && str_truthy target then Some ("system", "health_alert", [("kind", VStr kind); ("target", VStr target)])
              else None
          | None => None
          end
      | None => None
      end
  | _ =>
      match pa_dedup_key pa with
      | Some k => if str_truthy k then Some (pa_source_kind pa, "pending_action", [("key", VStr k)]) else None
      | None => None
      end
  end.

Definition pending_action_from_task (t : Task) : res PendingAction :=
  match t_action t with
  | None => Raise (Tasks.ValueError "task has no action")
  | Some a =>
      Ok {| pa_id := t_id t; pa_origin := from_task; pa_source_kind := or_str (t_source_kind t) "other"; pa_title := t_title t;
            pa_description := t_description t; pa_action := a; pa_created_at := Some (t_created_at t);
            pa_dedup_key := t_dedup_key t; pa_feedback_ref := None |}
  end.

(** A display-only action: the command the owner runs. *)
Definition command_action (label command : string) : res TaskAction :=
  TaskAction_of {| ta_kind := copy_command; ta_label := label; ta_command := Some command; ta_target_id := None; ta_safe := false;
                   ta_choices := []; ta_options := None; ta_card := None |}.

Definition approval_pending_action (r : ApprovalRow) : res PendingAction :=
  let! a := command_action "Approve from the CLI" ("evarness approvals approve " +:+ approval_id r) in
  Ok {| pa_id := "approval:" +:+ approval_id r; pa_origin := from_approval; pa_source_kind := "governance-approval";
        pa_title := "Approve or reject: " +:+ signal r;
        pa_description := context_summary r +:+ " (run " +:+ ap_run_id r +:+ "; requested " +:+ iso19 (requested_at r)
                          +:+ ", times out " +:+ iso19 (timeout_at r) +:+ ")";
        pa_action := a; pa_created_at := Some (requested_at r); pa_dedup_key := None; pa_feedback_ref := None |}.

(** [approval_pending_actions]: nothing when the queue cannot be read. *)
Definition approval_pending_actions (queue : res Approvals.Table) (now : Z) : list PendingAction :=
  match (let! t := queue in res_all approval_pending_action (list_pending false now t)) with Ok l => l | Raise _ => [] end.

Definition memory_pending_actions (counts : res (Z * nat)) : res (list PendingAction) :=
  match counts with
  | Raise _ => Ok []
  | Ok (pending_, lessons) =>
      let total := (pending_ + Z.of_nat lessons)%Z in
      if (total <=? 0)%Z then Ok []
      else
        let facts := if (pending_ =? 0)%Z then "" else pretty pending_ +:+ " fact(s)" in
        let detail := if Nat.eqb lessons 0 then facts
                      else if str_truthy facts then facts +:+ " and " +:+ pretty lessons +:+ " lesson(s)"
                      else pretty lessons +:+ " lesson(s)" in
        let! a := command_action "Review memory" "evarness facts review" in
        Ok [{| pa_id := "memory:review"; pa_origin := from_memory; pa_source_kind := "memory-review";
               pa_title := pretty total +:+ " memory item(s) waiting for review";
               pa_description := "Evarness noticed " +:+ detail +:+ ". Nothing reaches a prompt until you approve it — "
                                 +:+ "review them in Memory → Review.";
               pa_action := a; pa_created_at := None; pa_dedup_key := None; pa_feedback_ref := None |}]
  end.

Section reads.
Context (digest : string → string).

Definition health_alert_dims (c : HealthCheck) : dims := [("kind", VStr (check_kind_str (hc_kind c))); ("target", VStr (hc_target c))].

(** What a read consults: the feedback ledger, whether it answers, and the instant. *)
Record Consult := { co_store : FeedbackStore; co_ok : bool; co_now : Z }.

(** [should_suppress] of a key, with its defaults. *)
Definition suppressed (co : Consult) (k : item_key) : bool :=
  should_suppress digest (co_ok co) k.1.1 k.1.2 k.2 1 (Some 365%Z) (co_now co) (co_store co).

Definition health_key (c : HealthCheck) : item_key := ("system", "health_alert", health_alert_dims c).
Definition actionable (co : Consult) (c : HealthCheck) : bool :=
  bool_decide (hc_state c = h_red) && str_truthy (or_str (hc_action c) "") && negb (suppressed co (health_key c)).

Definition health_item (c : HealthCheck) : res PendingAction :=
  let! a := command_action "Run remediation command" (or_str (hc_action c) "") in
  Ok {| pa_id := "health:" +:+ check_kind_str (hc_kind c) +:+ ":" +:+ hc_target c; pa_origin := from_health;
        pa_source_kind := "system-health"; pa_title := hc_target c +:+ ": " +:+ hc_detail c; pa_description := hc_detail c;
        pa_action := a; pa_created_at := None; pa_dedup_key := None; pa_feedback_ref := None |}.

Definition health_pending_actions (co : Consult) (checks : list HealthCheck) : res (list PendingAction) :=
  res_all health_item (select_where (actionable co) checks).

(** The items a read sees before the owner's feedback is applied. *)
Definition CENTER_LIMIT : nat := 500.
Definition action_tasks (ts : TaskStore) : list Task :=
  let filter_ := {| f_status := None; f_source_kind := None; f_parent_task_id := None; f_parent_goal_id := None; f_due_before := None;
                    f_has_action := Some true |} in
  select_where is_active (take CENTER_LIMIT (in_order (select_where (selects filter_) (ts_tasks ts)))).

(** One step of the loop: what the owner marked is left out, the rest carry their token. *)
Definition stamp (co : Consult) (pa : PendingAction) : option PendingAction :=
  match pending_action_feedback_key pa with
  | Some k =>
      if suppressed co k then None
      else Some {| pa_id := pa_id pa; pa_origin := pa_origin pa; pa_source_kind := pa_source_kind pa; pa_title := pa_title pa;
                   pa_description := pa_description pa; pa_action := pa_action pa; pa_created_at := pa_created_at pa;
                   pa_dedup_key := pa_dedup_key pa; pa_feedback_ref := Some (encode_ref k.1.1 k.1.2 k.2) |}
  | None => Some pa
  end.

(** Everything a read is made of. *)
Record Sources := {
  sr_tasks : TaskStore; sr_health : option (list HealthCheck); sr_queue : res Approvals.Table; sr_memory : option (res (Z * nat)) }.

Definition gather (co : Consult) (s : Sources) : res (list PendingAction) :=
  let! tasks := res_all pending_action_from_task (action_tasks (sr_tasks s)) in
  let! health := match sr_health s with Some checks => health_pending_actions co checks | None => Ok [] end in
  let! memory := match sr_memory s with Some counts => memory_pending_actions counts | None => Ok [] end in
  Ok (approval_pending_actions (sr_queue s) (co_now co) ++ (tasks ++ health) ++ memory).

Definition collect_pending_actions (co : Consult) (s : Sources) : res (list PendingAction) :=
  let! l := gather co s in Ok (omap (stamp co) l).
End reads.

Definition newline : string := String (ascii_of_N 10) EmptyString.

Definition render_line (a : PendingAction) : list string :=
  let act := pa_action a in
  ("- [" +:+ pa_source_kind a +:+ "] " +:+ pa_title a) ::
  match ta_command act with
  | Some c =>
      if bool_decide (ta_kind act = copy_command) && str_truthy c then ["    run locally: " +:+ c]
      else if ta_safe act then ["    " +:+ ta_label act +:+ " (from the Action Center)"] else []
  | None => if ta_safe act then ["    " +:+ ta_label act +:+ " (from the Action Center)"] else []
  end.

Definition render_pending_actions (l : list PendingAction) : string :=
  match l with
  | [] => "No pending actions — nothing needs your attention right now."
  | _ => join newline ((pretty (length l) +:+ " pending action(s) need your attention:") :: concat (map render_line l))
  end.

(** ** Answering: the routes and the tools *)

Definition HTTPException (code : Z) (detail : string) : exn := Exn "HTTPException" (pretty code +:+ ": " +:+ detail).

(** The text a tool returns, and whether it is a [FailedResult]. *)
Record ToolText := { tt_failed : bool; tt_text : string }.
Definition failed_text (t : string) : ToolText := {| tt_failed := true; tt_text := t |}.
Definition tool_text (t : string) : ToolText := {| tt_failed := false; tt_text := t |}.

(** [str(args.get(k) or "").strip()] *)
Definition arg_text (args : list (string * pyval)) (k : string) : string :=
  match od_get k args with Some v => if truthy v then str_strip (str_val v) else "" | None => "" end.
Definition nonempty_text (s : string) : option string := if str_truthy s then Some s else None.

Section answering.
Context {W : Type} `{!Part W TaskStore} (reg : Registry W).
(** [isinstance(e, ValueError)] and [isinstance(e, KeyError)]. *)
Context (is_ValueError is_KeyError : exn → bool).

Definition stored_task (id : string) : M W (option Task) := gets (λ w, select_one (task_is id) (ts_tasks (part w))).

(** [str(task.source_kind)] *)
Definition kind_text (t : Task) : string := default "None" (t_source_kind t).

(** [POST /actions/{action_id}/invoke] *)
Definition invoke_action (dr : Draws) (action_id : string) (choice option_ : option string) : M W string :=
  task ← stored_task action_id;
  match task with
  | None => raise (HTTPException 404 "no such pending action")
  | Some t =>
      match t_action t with
      | None => raise (HTTPException 404 "no such pending action")
      | Some a =>
          if negb (ta_safe a) then raise (HTTPException 400 "this action is display-only; run its command locally")
          else if bool_decide (ta_kind a = review) then mret (render_review t)
          else
            match provider_for (kind_text t) reg with
            | None => raise (HTTPException 400 ("no invoker for source_kind=" +:+ kind_text t
                               +:+ "; the plugin that owns it may not be mounted in this profile"))
            | Some p =>
                try invoke_and_reconcile dr p t choice option_
                except e => if is_ValueError e then raise (HTTPException 400 (exn_str e)) else raise e
            end
      end
  end.

(** The tool [invoke_pending_action]. *)
Definition invoke_pending_action (dr : Draws) (args : list (string * pyval)) : M W ToolText :=
  let action_id := let id := arg_text args "id" in
    match od_get "id" args with
    | Some v => if truthy v then id else arg_text args "action_id"
    | None => arg_text args "action_id"
    end in
  if negb (str_truthy action_id) then mret (failed_text "invoke_pending_action needs 'id' (the pending action id).")
  else
    try
      (task ← stored_task action_id;
       match task with
       | None => mret (failed_text ("No pending action " +:+ py_repr action_id +:+ "."))
       | Some t =>
           match t_action t with
           | None => mret (failed_text ("No pending action " +:+ py_repr action_id +:+ "."))
           | Some a =>
               if negb (ta_safe a) then mret (failed_text "This action is display-only; run its command locally.")
               else if bool_decide (ta_kind a = review) then mret (tool_text (render_review t))
               else
                 match provider_for (kind_text t) reg with
                 | None => mret (failed_text ("No invoker for source_kind=" +:+ kind_text t
                                   +:+ ". The plugin that owns it may not be mounted in this profile."))
                 | Some p =>
                     let choice := nonempty_text (arg_text args "choice") in
                     let option_ := nonempty_text (arg_text args "option") in
                     if negb (bool_decide (ta_choices a = [])) && bool_decide (choice = None) then
                       mret (failed_text ("This card needs an answer: choice one of "
                         +:+ join ", " (map (λ c, ch_value c +:+ " (" +:+ ch_label c +:+ ")") (ta_choices a))
                         +:+ match ta_options a with
                             | Some o => "; option one of: " +:+ join ", " (map fst (op_values o))
                             | None => ""
                             end +:+ "."))
                     else note ← invoke_and_reconcile dr p t choice option_; mret (tool_text note)
                 end
           end
       end)
    except e => mret (failed_text ("invoke_pending_action failed: " +:+ exn_str e)).

(** [PATCH /tasks/{task_id}], at the instants of its readings of the clock. *)
Definition reopening (st : TaskStatus) : TaskPatch :=
  {| p_title := None; p_description := None; p_status := Some st; p_priority := None; p_source_kind := None; p_source_id := None;
     p_parent_task_id := None; p_due_at := None; p_wait_for := None; p_wait_for_resolved_at := None; p_parent_goal_id := None;
     p_related_wikilinks := None; p_calendar_event_id := None; p_calendar_visible := None; p_action := None;
     p_completed_at := Some None; p_closed_reason := None; p_forbidden := [] |}.

Definition update_task_route (task_id : string) (st : TaskStatus) (completed_at now : Z) : M W Task :=
  task ← stored_task task_id;
  match task with
  | None => raise (HTTPException 404 ("task not found: " +:+ task_id))
  | Some _ =>
      try on_part (with_bus true (match st with
                                  | t_done => complete task_id completed_at now
                                  | t_dropped => drop_task task_id now
                                  | _ => update_task task_id (reopening st) now
                                  end))
      except e => if is_KeyError e then raise (HTTPException 404 (exn_str e))
                  else if is_ValueError e then raise (HTTPException 400 (exn_str e)) else raise e
  end.

(** [POST /tasks]: the request's fields, stripped and bounded, then a task of kind [manual], through
    a store on no bus. *)
Definition create_task_route (id title description : string) (due_at : option Z) (created updated : Z) : M W Task :=
  let title := str_strip title in
  let description := str_strip description in
  if negb (length_between 1 500 title && Nat.leb (String.length description) 2000) then raise (Exn "RequestValidationError" "")
  else on_part (with_bus false (create_task
    {| t_id := id; t_title := title; t_description := description; t_status := t_open; t_priority := 0;
       t_source_kind := Some "manual"; t_source_id := None; t_parent_task_id := None; t_dedup_key := None; t_due_at := due_at;
       t_wait_for := None; t_wait_for_resolved_at := None; t_parent_goal_id := None; t_related_wikilinks := [];
       t_calendar_event_id := None; t_calendar_visible := false; t_action := None; t_created_at := created; t_updated_at := updated;
       t_completed_at := None; t_closed_reason := None |})).

(** The tool [pending_actions]: every slice is reconciled, then the items are rendered; [sources] is
    what else a read finds in the world. *)
Definition read_center (digest : string → string) (co : W → Consult) (queue : W → res Approvals.Table)
    (health : option (list HealthCheck)) : M W (list PendingAction) := λ w,
  (collect_pending_actions digest (co w) {| sr_tasks := part w; sr_health := health; sr_queue := queue w; sr_memory := None |}, w).

Definition pending_actions (digest : string → string) (dr : string → Draws) (co : W → Consult) (queue : W → res Approvals.Table)
    (health : option (list HealthCheck)) : M W ToolText :=
  try (_ ← reconcile_all dr reg;
       items ← read_center digest co queue health;
       mret (tool_text (render_pending_actions items)))
  except e => mret (failed_text ("pending_actions failed: " +:+ exn_str e)).

(** [POST /surface-feedback] with a token or with a key, [ok] and [mirrored] as for [record]. *)
Context `{!Part W FeedbackStore} (digest float_repr : string → string).

Record SurfaceFeedbackRequest := {
  sf_verdict : string; sf_ref : option string; sf_subsystem : option string; sf_surface_kind : option string; sf_dims : option dims;
  sf_session : option string }.

(** The request that sends a token back. *)
Definition by_ref (verdict ref session : string) : SurfaceFeedbackRequest :=
  {| sf_verdict := verdict; sf_ref := Some ref; sf_subsystem := None; sf_surface_kind := None; sf_dims := None; sf_session := Some session |}.

Definition submit_surface_feedback (ok mirrored : bool) (r : SurfaceFeedbackRequest) (now : Z) : M W (string * string) :=
  let verdict := str_lower (str_strip (sf_verdict r)) in
  if negb (str_in verdict VERDICTS) then raise (HTTPException 422 "verdict must be one of ['not_useful', 'useful']")
  else
    key ← (let ref := or_str (sf_ref r) "" in
           let subsystem := or_str (sf_subsystem r) "" in
           let surface_kind := or_str (sf_surface_kind r) "" in
           if str_truthy ref then
             try (k ← lift_res (decode_ref float_repr ref); mret (k.1.1, k.1.2, text_dims k.2))
             except e => if is_ValueError e then raise (HTTPException 422 (exn_str e)) else raise e
           else match sf_dims r with
                | Some d =>
                    if str_truthy subsystem && str_truthy surface_kind then mret (subsystem, surface_kind, d)
                    else raise (HTTPException 422 "supply either 'ref' or all of (subsystem, surface_kind, dims)")
                | None => raise (HTTPException 422 "supply either 'ref' or all of (subsystem, surface_kind, dims)")
                end);
    let '(s, k, d) := key in
    on_part (record digest ok mirrored
      {| rec_subsystem := s; rec_kind := k; rec_dims := d; rec_verdict := verdict; rec_source := SOURCE_USER; rec_session := or_str (sf_session r) "";
         rec_emit := true |} now);;
    mret (s, k).

(** The tool [record_feedback]; the follow-up a task is about is read from its [wait_for]. *)
Definition wait_payload (t : Task) : option (list (string * pyval)) :=
  match t_wait_for t with
  | Some w => if bool_decide (wf_kind w = w_reply_from) then Some (wf_payload w) else None
  | None => None
  end.

Definition quick_record (ok mirrored : bool) (s k : string) (d : dims) (verdict : string) (now : Z) : M W unit :=
  on_part (record digest ok mirrored {| rec_subsystem := s; rec_kind := k; rec_dims := d; rec_verdict := verdict;
                                        rec_source := SOURCE_USER; rec_session := ""; rec_emit := true |} now).

Definition record_feedback (ok mirrored : bool) (args : list (string * pyval)) (now : Z) : M W ToolText :=
  let verdict := str_lower (str_strip (match od_get "verdict" args with
                                       | Some v => if truthy v then str_val v else NOT_USEFUL
                                       | None => NOT_USEFUL
                                       end)) in
  if negb (str_in verdict VERDICTS) then mret (failed_text "verdict must be one of ['not_useful', 'useful'].")
  else
    let email_sender := arg_text args "email_sender" in
    let ref := arg_text args "ref" in
    if negb (str_truthy ref) && negb (str_truthy email_sender) then mret (failed_text ("record_feedback needs a 'ref' (a followup task id or an 'fb:' token) "
                         +:+ "or 'email_sender' (a sender to suppress from email search)."))
    else
      try
        (if str_truthy email_sender then
           let domain := _domain_of email_sender in
           if negb (str_truthy (normal_text domain)) then
             mret (failed_text ("Couldn't read a sender domain from " +:+ py_repr email_sender +:+ "."))
           else
             quick_record ok mirrored "email" "search_result" (text_dims (email_search_dims_from_sender email_sender)) verdict now;;
             mret (tool_text (if String.eqb verdict NOT_USEFUL then
                                "Got it — I'll stop surfacing " +:+ normal_text domain +:+ " in email search results."
                              else "Noted — keeping " +:+ normal_text domain +:+ " in email search results."))
         else if startswith "fb:" ref then
           k ← lift_res (decode_ref float_repr ref);
           quick_record ok mirrored k.1.1 k.1.2 (text_dims k.2) verdict now;;
           mret (tool_text ("Recorded " +:+ verdict +:+ " for " +:+ k.1.1 +:+ "/" +:+ k.1.2 +:+ ". I'll act on it."))
         else
           task ← stored_task ref;
           match (t ← task; p ← wait_payload t; Some (t, p)) with
           | None => mret (failed_text ("No email followup " +:+ py_repr ref +:+ " to give feedback on."))
           | Some (t, p) =>
               let d := email_followup_dims_from (str_val (default (VStr "") (od_get "account_id" p))) (str_val (default (VStr "") (od_get "from" p))) in
               quick_record ok mirrored "email" "followup" (text_dims d) verdict now;;
               let domain := default "" (od_get "from_domain" d) in
               if String.eqb verdict NOT_USEFUL then
                 _ ← on_part (drop_task (t_id t) now);
                 mret (tool_text ("Done — dropped that follow-up and I won't raise replies for " +:+ domain +:+ " again."))
               else mret (tool_text ("Noted — keeping follow-ups for " +:+ domain +:+ "."))
           end)
      except e => mret (failed_text ("record_feedback failed: " +:+ exn_str e)).
End answering.

(** ** What a read gathers *)

Section gathered.
Context (digest : string → string).

Lemma res_all_each {A B} (f : A → res B) (Q : B → Prop) l bs : (∀ a b, f a = Ok b → Q b) → res_all f l = Ok bs → Forall Q bs.
Proof. intros Hf. rewrite res_all_ok. induction 1; constructor; eauto. Qed.

Definition fresh_item (pa : PendingAction) : Prop := pa_feedback_ref pa = None ∧ str_truthy (pa_source_kind pa) = true.

Lemma command_item_fresh label command (f : TaskAction → res PendingAction) pa :
  (∀ a x, f a = Ok x → fresh_item x) → res_bind (command_action label command) f = Ok pa → fresh_item pa.
Proof. intros Hf. destruct (command_action _ _) as [a|]; [|done]. apply Hf. Qed.

Lemma approval_item_fresh r pa : approval_pending_action r = Ok pa → fresh_item pa.
Proof. unfold approval_pending_action. apply command_item_fresh. by intros a x [= <-]. Qed.

Lemma health_item_fresh c pa : health_item c = Ok pa → fresh_item pa.
Proof. unfold health_item. apply command_item_fresh. by intros a x [= <-]. Qed.

Lemma gathered_fresh co s g : gather digest co s = Ok g → ∀ y, y ∈ g → fresh_item y.
Proof.
  unfold gather. destruct (res_all _ (action_tasks _)) as [tasks|e] eqn:Ht; [|done]. cbn [res_bind].
  destruct (match sr_health s with Some _ => _ | None => _ end) as [h|e] eqn:Hh; [|done]. cbn [res_bind].
  destruct (match sr_memory s with Some _ => _ | None => _ end) as [m|e] eqn:Hm; [|done]. cbn [res_bind]. intros [= <-].
  enough (Forall fresh_item (approval_pending_actions (sr_queue s) (co_now co) ++ (tasks ++ h) ++ m)) as H by (intros y Hy; by eapply Forall_forall in H).
  rewrite !Forall_app. split_and!.
  - unfold approval_pending_actions. destruct (sr_queue s) as [t|]; cbn [res_bind]; [|constructor].
    destruct (res_all approval_pending_action _) as [l|] eqn:El; [|constructor]. eapply res_all_each; [|exact El]. exact approval_item_fresh.
  - eapply res_all_each; [|exact Ht]. intros t pa. unfold pending_action_from_task. destruct (t_action t); [|done]. intros [= <-].
    split; [done|]. cbn. unfold or_str. destruct (t_source_kind t) as [k|]; [|done]. by destruct (str_truthy k) eqn:E.
  - destruct (sr_health s) as [checks|]; [|by injection Hh as <-; constructor]. unfold health_pending_actions in Hh. eapply res_all_each; [|exact Hh].
    exact health_item_fresh.
  - destruct (sr_memory s) as [[[n k]|]|]; cbn [memory_pending_actions] in Hm; try (injection Hm as <-; constructor).
    cbv zeta in Hm. destruct (_ <=? 0)%Z; [by injection Hm as <-; constructor|]. destruct (command_action _ _); [|done]. injection Hm as <-. by repeat constructor.
Qed.
End gathered.

(** ** What a verdict does to the list *)

Section dismissal.
Context (digest : string → string).

Definition hash_of (k : item_key) : string := _key_hash digest k.1.1 k.1.2 k.2.

(** Two keys whose verdicts are counted together. *)
Definition same_tally (k k' : item_key) : bool :=
  String.eqb k.1.1 k'.1.1 && String.eqb k.1.2 k'.1.2 && String.eqb (hash_of k) (hash_of k').

Definition tally (co : Consult) (k : item_key) : Z :=
  net (_counts digest (co_ok co) k.1.1 k.1.2 k.2 (Some 365%Z) (co_now co) (co_store co)).

Lemma suppressed_tally co k : suppressed digest co k = (1 <=? tally co k)%Z.
Proof. done. Qed.

Lemma same_tally_eq co k k' : same_tally k k' = true → tally co k = tally co k'.
Proof.
  unfold same_tally, tally, _counts, hash_of. intros [[H1 H2]%andb_true_iff H3]%andb_true_iff. to_props.
  destruct (negb (co_ok co)); [done|]. by rewrite H3, H1, H2.
Qed.

(** The store after a verdict on what a token decodes to. *)
Definition after_verdict (co : Consult) (k : item_key) (mirrored : bool) (session : string) (at_ : Z) : Consult :=
  {| co_store := run_state (record digest true mirrored
       {| rec_subsystem := k.1.1; rec_kind := k.1.2; rec_dims := text_dims (sort_kv (_canonical_dims k.2)); rec_verdict := NOT_USEFUL;
          rec_source := SOURCE_USER; rec_session := session; rec_emit := true |} at_) (co_store co);
     co_ok := true; co_now := co_now co |}.

Lemma tally_after co k mirrored session at_ k2 :
  co_ok co = true → (co_now co - 365 * DAY_US ≤ at_)%Z →
  tally (after_verdict co k mirrored session at_) k2 = if same_tally k2 k then (tally co k + 1)%Z else tally co k2.
Proof.
  intros Hok Hat. unfold tally, after_verdict. cbn [co_store co_ok co_now]. set (x := Build_Recording _ _ _ _ _ _ _).
  rewrite (counts_rows digest true _ _ _ _ _ _ {| fs_rows := fs_rows (co_store co) ++ [row_of digest x at_]; fs_signals := fs_signals (co_store co) |})
    by (apply record_row; by left). rewrite counts_snoc. cbv zeta.
  assert (same_key k2.1.1 k2.1.2 (_key_hash digest k2.1.1 k2.1.2 k2.2) (row_of digest x at_) = same_tally k2 k) as ->.
  { assert (fr_hash (row_of digest x at_) = hash_of k) as Hh
      by (cbn [row_of fr_hash x rec_subsystem rec_kind rec_dims]; unfold hash_of, _key_hash; by rewrite key_payload_canonical, key_payload_sorted).
    unfold same_key, same_tally. rewrite Hh. cbn [row_of fr_subsystem fr_kind x rec_subsystem rec_kind].
    by rewrite (String.eqb_sym k.1.1), (String.eqb_sym k.1.2), (String.eqb_sym (hash_of k)). }
  assert (in_window (Some 365%Z) (co_now co) (row_of digest x at_) = true) as -> by (by apply Z.leb_le). rewrite andb_true_r, Hok.
  destruct (same_tally k2 k) eqn:E; [|done]. pose proof (same_tally_eq co k2 k E) as Ht. unfold tally in Ht. rewrite Hok in Ht.
  rewrite <- Ht. unfold net. cbn. lia.
Qed.

(** What the verdict hides: the items counted with the judged one, once the tally reaches one. *)
Definition hidden (co : Consult) (k : item_key) (k2 : item_key) : bool := (0 <=? tally co k)%Z && same_tally k2 k.

Lemma suppressed_after co k mirrored session at_ k2 :
  co_ok co = true → (co_now co - 365 * DAY_US ≤ at_)%Z → suppressed digest co k = false →
  suppressed digest (after_verdict co k mirrored session at_) k2 = suppressed digest co k2 || hidden co k k2.
Proof.
  intros Hok Hat Hk. rewrite !suppressed_tally, (tally_after co k mirrored session at_ k2 Hok Hat). unfold hidden.
  rewrite suppressed_tally in Hk. destruct (same_tally k2 k) eqn:E; [|by rewrite andb_false_r, orb_false_r].
  rewrite (same_tally_eq co k2 k E), andb_true_r, Hk. cbn [orb].
  destruct (Z.leb_spec 0 (tally co k)), (Z.leb_spec 1 (tally co k + 1)); lia || done.
Qed.

(** An item hidden by a verdict on [k]. *)
Definition hidden_item (co : Consult) (k : item_key) (pa : PendingAction) : bool :=
  match pending_action_feedback_key pa with Some k2 => hidden co k k2 | None => false end.

Lemma stamp_key co pa x : stamp digest co pa = Some x → pending_action_feedback_key x = pending_action_feedback_key pa.
Proof.
  unfold stamp. destruct (pending_action_feedback_key pa) as [k|] eqn:E; [|by intros [= <-]].
  destruct (suppressed digest co k); [done|]. intros [= <-]. rewrite <- E. done.
Qed.

Lemma health_item_key c pa : str_truthy (hc_target c) = true → health_item c = Ok pa →
  pending_action_feedback_key pa = Some (health_key c).
Proof.
  intros Ht. unfold health_item. destruct (command_action _ _); [|done]. cbn [res_bind]. intros [= <-].
  unfold pending_action_feedback_key. cbn [pa_origin pa_id].
  assert (∀ x, split_first (ascii_of_N 58) ("health:" +:+ x) = Some ("health", x)) as -> by done.
  assert (∀ k t, split_first (ascii_of_N 58) (check_kind_str k +:+ ":" +:+ t) = Some (check_kind_str k, t)) as -> by (by intros []).
  assert (∀ k, str_truthy (check_kind_str k) = true) as -> by (by intros []). by rewrite Ht.
Qed.

(** Reading fewer of the values that are all readable gives fewer of the results. *)
Lemma res_all_filter {A B} (f : A → res B) (p : A → bool) (q : B → bool) l bs :
  (∀ a b, a ∈ l → f a = Ok b → q b = p a) → res_all f l = Ok bs → res_all f (select_where p l) = Ok (select_where q bs).
Proof.
  intros Hpq. rewrite res_all_ok. intros H. revert Hpq. induction H as [|a b l bs Hab H IH]; intros Hpq; [done|].
  rewrite !select_where_cons. rewrite (Hpq a b) by (done || by left). specialize (IH (λ a b Ha, Hpq a b (list_elem_of_further _ _ _ Ha))).
  destruct (p a); [|done]. cbn [res_all]. rewrite Hab. cbn [res_bind]. by rewrite IH.
Qed.

Lemma omap_stamp_after co k mirrored session at_ l :
  co_ok co = true → (co_now co - 365 * DAY_US ≤ at_)%Z → suppressed digest co k = false →
  omap (stamp digest (after_verdict co k mirrored session at_)) l
  = select_where (λ x, negb (hidden_item co k x)) (omap (stamp digest co) l).
Proof.
  intros Hok Hat Hk. induction l as [|pa l IH]; [done|]. cbn [omap list_omap]. fold (omap (M := list) (stamp digest co) l).
  fold (omap (M := list) (stamp digest (after_verdict co k mirrored session at_)) l).
  assert (stamp digest (after_verdict co k mirrored session at_) pa
          = match stamp digest co pa with Some x => if hidden_item co k x then None else Some x | None => None end) as ->.
  { destruct (stamp digest co pa) as [x|] eqn:E.
    - pose proof (stamp_key co pa x E) as Hx. unfold hidden_item. rewrite Hx. revert E. unfold stamp.
      destruct (pending_action_feedback_key pa) as [k2|]; [|done]. rewrite (suppressed_after co k mirrored session at_ k2 Hok Hat Hk).
      destruct (suppressed digest co k2); [done|]. cbn [orb]. by destruct (hidden co k k2).
    - revert E. unfold stamp. destruct (pending_action_feedback_key pa) as [k2|]; [|done].
      rewrite (suppressed_after co k mirrored session at_ k2 Hok Hat Hk). by destruct (suppressed digest co k2). }
  destruct (stamp digest co pa) as [x|]; [|exact IH]. rewrite select_where_cons. destruct (hidden_item co k x); cbn [negb]; [exact IH|by rewrite IH].
Qed.

Definition kept (co : Consult) (k : item_key) (pa : PendingAction) : bool := negb (hidden_item co k pa).

Lemma stamp_kept co k l :
  select_where (kept co k) (omap (stamp digest co) (select_where (kept co k) l)) = select_where (kept co k) (omap (stamp digest co) l).
Proof.
  induction l as [|pa l IH]; [done|]. rewrite select_where_cons. cbn [omap list_omap]. fold (omap (M := list) (stamp digest co) l).
  destruct (kept co k pa) eqn:E.
  - cbn [omap list_omap]. destruct (stamp digest co pa); [|exact IH]. by rewrite !select_where_cons, IH.
  - rewrite IH. destruct (stamp digest co pa) as [x|] eqn:Hx; [|done]. rewrite select_where_cons.
    assert (kept co k x = false) as -> by (revert E; unfold kept, hidden_item; by rewrite (stamp_key co pa x Hx)). done.
Qed.

Lemma gather_after co k mirrored session at_ s g :
  co_ok co = true → (co_now co - 365 * DAY_US ≤ at_)%Z → suppressed digest co k = false →
  Forall (λ c, str_truthy (hc_target c) = true) (default [] (sr_health s)) → gather digest co s = Ok g →
  ∃ g', gather digest (after_verdict co k mirrored session at_) s = Ok g' ∧
    select_where (kept co k) (omap (stamp digest co) g') = select_where (kept co k) (omap (stamp digest co) g).
Proof.
  intros Hok Hat Hk Hnamed. unfold gather. cbn [co_now after_verdict].
  destruct (res_all pending_action_from_task _) as [tasks|e]; [|done]. cbn [res_bind].
  assert (∀ h, match sr_health s with Some checks => health_pending_actions digest co checks | None => Ok [] end = Ok h →
    ∃ h', match sr_health s with Some checks => health_pending_actions digest (after_verdict co k mirrored session at_) checks | None => Ok [] end = Ok h'
      ∧ h' = select_where (kept co k) h) as Hh.
  { intros h Hh. eexists. split; [|reflexivity]. destruct (sr_health s) as [checks|]; [|by injection Hh as <-]. unfold health_pending_actions in *.
    rewrite (select_where_ext _ (λ c, actionable digest co c && negb (hidden co k (health_key c)))).
    - rewrite <- select_where_and. eapply res_all_filter; [|exact Hh]. intros c pa Hc Hpa. apply elem_of_select_where in Hc as [Hc _].
      unfold kept, hidden_item. rewrite (health_item_key c pa); [done| |done]. by eapply Forall_forall in Hnamed.
    - intros c. unfold actionable. rewrite (suppressed_after co k mirrored session at_ _ Hok Hat Hk), negb_orb. by rewrite andb_assoc. }
  destruct (match sr_health s with Some checks => health_pending_actions digest co checks | None => Ok [] end) as [h|e]; [|done].
  destruct (Hh h eq_refl) as (h' & -> & ->). cbn [res_bind].
  destruct (match sr_memory s with Some _ => _ | None => _ end) as [m|e]; [|done]. cbn [res_bind]. intros [= <-]. eexists. split; [reflexivity|].
  rewrite !omap_app, !select_where_app. do 2 f_equal. by rewrite stamp_kept.
Qed.

Lemma collect_after co k mirrored session at_ s l :
  co_ok co = true → (co_now co - 365 * DAY_US ≤ at_)%Z → suppressed digest co k = false →
  Forall (λ c, str_truthy (hc_target c) = true) (default [] (sr_health s)) → collect_pending_actions digest co s = Ok l →
  collect_pending_actions digest (after_verdict co k mirrored session at_) s = Ok (select_where (kept co k) l).
Proof.
  intros Hok Hat Hk Hnamed. unfold collect_pending_actions. destruct (gather digest co s) as [g|e] eqn:Hg; [|done]. cbn [res_bind]. intros [= <-].
  destruct (gather_after co k mirrored session at_ s g Hok Hat Hk Hnamed Hg) as (g' & -> & Hg'). cbn [res_bind].
  rewrite (omap_stamp_after co k mirrored session at_ g' Hok Hat Hk). f_equal. exact Hg'.
Qed.

(** A listed item carries the token of its key, which no verdict hides. *)
Lemma listed_item co s l pa ref :
  collect_pending_actions digest co s = Ok l → pa ∈ l → pa_feedback_ref pa = Some ref →
  ∃ k, pending_action_feedback_key pa = Some k ∧ ref = encode_ref k.1.1 k.1.2 k.2 ∧ suppressed digest co k = false ∧
    str_truthy k.1.1 = true ∧ str_truthy k.1.2 = true.
Proof.
  unfold collect_pending_actions. destruct (gather digest co s) as [g|e] eqn:Hg; [|done]. cbn [res_bind]. intros [= <-].
  intros (x & Hx & Hst)%list_elem_of_omap Href. pose proof (stamp_key co x pa Hst) as Hkey. revert Hst. unfold stamp.
  assert (∀ y, y ∈ g → pa_feedback_ref y = None ∧ str_truthy (pa_source_kind y) = true) as Hfresh.
  { intros y. by apply (gathered_fresh digest co s g Hg). }
  destruct (pending_action_feedback_key x) as [k|] eqn:E.
  - destruct (suppressed digest co k) eqn:Hk; [done|]. intros [= <-]. cbn [pa_feedback_ref] in Href. injection Href as <-. exists k.
    split_and!; [done|done|done| |]; revert E; unfold pending_action_feedback_key; destruct (pa_origin x); try done;
      repeat (case_match; try done); intros [= <-]; try done; by apply Hfresh.
  - intros [= <-]. destruct (Hfresh x Hx) as [Hn _]. congruence.
Qed.
End dismissal.

(** An item of the task store comes from an active task of its id. *)
Lemma listed_task digest co s items pa :
  collect_pending_actions digest co s = Ok items → pa ∈ items → pa_origin pa = from_task →
  ∃ t, t ∈ ts_tasks (sr_tasks s) ∧ is_active t = true ∧ t_id t = pa_id pa.
Proof.
  unfold collect_pending_actions, gather. destruct (res_all _ (action_tasks _)) as [tasks|e] eqn:Ht; [|done]. cbn [res_bind].
  destruct (match sr_health s with Some _ => _ | None => _ end) as [h|e] eqn:Hh; [|done]. cbn [res_bind].
  destruct (match sr_memory s with Some _ => _ | None => _ end) as [m|e] eqn:Hm; [|done]. cbn [res_bind]. intros [= <-].
  intros (x & Hx & Hst)%list_elem_of_omap Horig.
  assert (pa_id pa = pa_id x ∧ pa_origin pa = pa_origin x) as [Hid Hor].
  { revert Hst. unfold stamp. destruct (pending_action_feedback_key x); [|by intros [= <-]]. destruct (suppressed _ _ _); [done|by intros [= <-]]. }
  rewrite Hor in Horig. rewrite Hid. clear Hst Hor Hid. rewrite !elem_of_app in Hx. destruct Hx as [Hx|[[Hx|Hx]|Hx]].
  - exfalso. unfold approval_pending_actions in Hx. destruct (sr_queue s) as [tb|]; cbn [res_bind] in Hx; [|by apply elem_of_nil in Hx].
    destruct (res_all approval_pending_action _) as [l|] eqn:El; [|by apply elem_of_nil in Hx].
    assert (Forall (λ y, pa_origin y ≠ from_task) l) as Hl.
    { eapply res_all_each; [|exact El]. intros r y. unfold approval_pending_action. destruct (command_action _ _); [|done]. by intros [= <-]. }
    by eapply Forall_forall in Hl.
  - apply res_all_ok in Ht. apply list_elem_of_lookup in Hx as [i Hi]. destruct (Forall2_lookup_r _ _ _ _ _ Ht Hi) as (t & Hti & Hp).
    apply list_elem_of_lookup_2 in Hti. unfold action_tasks in Hti. apply elem_of_select_where in Hti as [Hti%elem_of_take_in Hact].
    rewrite in_order_perm in Hti. apply elem_of_select_where in Hti as [Hti _]. exists t. split_and!; [done|done|].
    revert Hp. unfold pending_action_from_task. destruct (t_action t); [|done]. by intros [= <-].
  - exfalso. destruct (sr_health s) as [checks|]; [|injection Hh as <-; by apply elem_of_nil in Hx]. unfold health_pending_actions in Hh.
    assert (Forall (λ y, pa_origin y ≠ from_task) h) as Hl.
    { eapply res_all_each; [|exact Hh]. intros c y. unfold health_item. destruct (command_action _ _); [|done]. by intros [= <-]. }
    by eapply Forall_forall in Hl.
  - exfalso. destruct (sr_memory s) as [[[n k]|]|]; cbn [memory_pending_actions] in Hm; try (injection Hm as <-; by apply elem_of_nil in Hx).
    cbv zeta in Hm. destruct (_ <=? 0)%Z; [injection Hm as <-; by apply elem_of_nil in Hx|]. destruct (command_action _ _); [|done].
    injection Hm as <-. apply list_elem_of_singleton in Hx as ->. done.
Qed.

(** ** The owner's answers *)

Section answers.
Context {W : Type} `{!Part W TaskStore, !PartLaws W TaskStore} (reg : Registry W) (is_ValueError : exn → bool).

(** The provider's code ran, once, on an action that was offered; the slice was reconciled if it returned. *)
Definition ran_offered (dr : Draws) (id : string) (choice option_ : option string) (w w' : W) : Prop :=
  ∃ t a p, select_one (task_is id) (ts_tasks (part w)) = Some t ∧ t_action t = Some a ∧ ta_safe a = true ∧ ta_kind a ≠ review ∧
    provider_for (kind_text t) reg = Some p ∧ check_answer a choice option_ = Ok tt ∧
    match run_action p t a choice option_ w with
    | (Ok _, w1) => w' = run_state (reconcile dr p) w1
    | (Raise _, w1) => w' = w1
    end.

Lemma invoke_state dr (p : Provider W) t a choice option_ w :
  t_action t = Some a →
  (check_answer a choice option_ = Ok tt ∧
   match run_action p t a choice option_ w with
   | (Ok note, w1) => invoke_and_reconcile dr p t choice option_ w = (Ok note, run_state (reconcile dr p) w1)
   | (Raise e, w1) => invoke_and_reconcile dr p t choice option_ w = (Raise e, w1)
   end) ∨ (∃ e, check_answer a choice option_ = Raise e ∧ invoke_and_reconcile dr p t choice option_ w = (Raise e, w)).
Proof using Type.
  intros Ha. unfold invoke_and_reconcile. rewrite Ha. run_monad. unfold lift_res. destruct (check_answer a choice option_) as [[]|e]; [left|right; by exists e].
  split; [done|]. destruct (run_action p t a choice option_ w) as [[note|e] w1]; [|done]. by destruct (reconcile dr p w1) as [[x|e] w2].
Qed.

(** C20. Answering an item runs a provider's code only as offered. Whatever id, choice and option the
    web route or the agent's tool is given, either the world is what it was, or the id names a stored
    task whose action is safe and is not a review, a provider is registered for its kind, the answer
    fits the card, and the provider's code ran exactly once, followed by one pass over its slice
    unless it raised. *)
Theorem offered_action_runs_once (dr : Draws) (w : W) :
  (∀ id choice option_, let w' := run_state (invoke_action reg is_ValueError dr id choice option_) w in
     w' = w ∨ ran_offered dr id choice option_ w w') ∧
  (∀ args, let w' := run_state (invoke_pending_action reg dr args) w in
     w' = w ∨ ∃ id choice option_, ran_offered dr id choice option_ w w').
Proof using Type.
  split.
  - intros id choice option_. cbv zeta. unfold invoke_action, stored_task. run_monad.
    destruct (select_one _ _) as [t|] eqn:Ht; [|by left]. destruct (t_action t) as [a|] eqn:Ha; [|by left].
    destruct (negb (ta_safe a)) eqn:Hsafe; [by left|]. destruct (bool_decide (ta_kind a = review)) eqn:Hrev; [by left|].
    destruct (provider_for (kind_text t) reg) as [p|] eqn:Hp; [|by left]. to_props.
    destruct (invoke_state dr p t a choice option_ w Ha) as [[Hc Hrun]|(e & Hc & ->)]; [|left; by destruct (is_ValueError e)].
    right. exists t, a, p. split_and!; [done..|]. destruct (run_action p t a choice option_ w) as [[note|e] w1]; rewrite Hrun; [done|].
    by destruct (is_ValueError e).
  - intros args. cbv zeta. unfold invoke_pending_action, stored_task. run_monad. cbv zeta. set (id := match od_get "id" args with Some _ => _ | None => _ end).
    destruct (negb (str_truthy id)); [by left|]. destruct (select_one _ _) as [t|] eqn:Ht; [|by left].
    destruct (t_action t) as [a|] eqn:Ha; [|by left].
    destruct (negb (ta_safe a)) eqn:Hsafe; [by left|]. destruct (bool_decide (ta_kind a = review)) eqn:Hrev; [by left|].
    destruct (provider_for (kind_text t) reg) as [p|] eqn:Hp; [|by left]. destruct (negb _ && _); [by left|]. to_props.
    set (choice := nonempty_text (arg_text args "choice")). set (option_ := nonempty_text (arg_text args "option")).
    destruct (invoke_state dr p t a choice option_ w Ha) as [[Hc Hrun]|(e & Hc & ->)]; [|by left].
    right. exists id, choice, option_, t, a, p. split_and!; [done..|]. by destruct (run_action p t a choice option_ w) as [[note|e] w1]; rewrite Hrun.
Qed.

(** A row of a reconciled store with the id of a row whose key is not called for is not active. *)
Lemma cleared_row_inactive dr kind l s s' n t t' :
  reconciled dr kind l s s' n → t ∈ ts_tasks s → in_slice kind t = true → key_gone (map da_key l) t = true →
  t' ∈ ts_tasks s' → t_id t' = t_id t → is_active t' = false.
Proof using Type.
  intros [Hok _ (kept & new & Hrows & _ & Hkept & _) _ _] Ht Hin Hgone Ht' Hid.
  assert (∃ r', r' ∈ ts_tasks s' ∧ (if stale kind (map da_key l) t then ∃ c now, r' = closed t c now else r' = t)) as (r' & Hr' & Hcl).
  { apply list_elem_of_lookup in Ht as [i Hi]. destruct (Forall2_lookup_l _ _ _ _ _ Hkept Hi) as (r' & Hr & Hcl). exists r'. split; [|done].
    rewrite Hrows. apply elem_of_app. left. by eapply list_elem_of_lookup_2. }
  assert (t_id r' = t_id t) as Hid' by (destruct (stale _ _ t); [by destruct Hcl as (c & now & ->)|by subst]).
  rewrite (unique_key t_id _ t' r' (so_ids _ Hok) Ht' Hr') by congruence. unfold stale, PendingActions.cleared in Hcl. rewrite Hin, Hgone in Hcl.
  cbn [andb] in Hcl. destruct (is_active t) eqn:Ha; cbn in Hcl; [|by subst]. destruct Hcl as (c & now & ->). apply closed_inactive.
Qed.

(** C21. An answered card leaves the list. When the owner answers an offered action, the provider's
    code returns, and the domain then no longer calls for the card, the route answers with the
    provider's note, and from then on no read of the Action Center, whatever else it finds, lists the
    card: its task is completed, not waiting for a later pass. *)
Theorem answered_card_leaves (dr : Draws) id choice option_ t a (p : Provider W) note w w1 w2 l :
  select_one (task_is id) (ts_tasks (part w)) = Some t → t_action t = Some a → ta_safe a = true → ta_kind a ≠ review →
  t_source_kind t = Some (pv_kind p) → provider_for (pv_kind p) reg = Some p → check_answer a choice option_ = Ok tt →
  run_action p t a choice option_ w = (Ok note, w1) → pv_desired p w1 = (Ok l, w2) →
  store_ok (part w2) → t ∈ ts_tasks (part w2) → key_gone (map da_key l) t = true →
  count_where (in_slice (pv_kind p)) (ts_tasks (part w2)) <= RECONCILE_LIMIT → Forall (desired_ok dr (pv_kind p)) l → draws_new dr (part w2) l →
  ∃ w', invoke_action reg is_ValueError dr id choice option_ w = (Ok note, w') ∧ store_ok (part w') ∧
    ∀ digest co s items pa, sr_tasks s = part w' → collect_pending_actions digest co s = Ok items → pa ∈ items → pa_origin pa = from_task →
      pa_id pa ≠ id.
Proof using Type*.
  intros Ht Ha Hsafe Hrev Hkind Hp Hans Hrun Hdes Hs Hin Hgone Hfit Hok Hnew.
  destruct (reconcile_spec dr p w1 w2 l Hdes Hs Hfit Hok Hnew) as (n & w' & Hrec & Hsettled). exists w'.
  assert (t_id t = id) as Hid by (apply select_one_Some in Ht as [_ Hid%String.eqb_eq]; done).
  assert (in_slice (pv_kind p) t = true) as Hslice by (unfold in_slice, selects; cbn; by rewrite Hkind, Ha, bool_decide_true by done).
  split_and!; [|apply Hsettled|].
  - unfold invoke_action, stored_task. run_monad. rewrite Ht, Ha, Hsafe. cbn [negb]. rewrite bool_decide_false by done.
    assert (kind_text t = pv_kind p) as -> by (unfold kind_text; by rewrite Hkind). rewrite Hp. destruct (invoke_state dr p t a choice option_ w Ha) as [[_ Hst]|(e & He & _)]; [|congruence].
    rewrite Hrun, Hrec in Hst. by rewrite Hst.
  - intros digest co s items pa Hsr Hitems Hpa Horig Hpid.
    destruct (listed_task digest co s items pa Hitems Hpa Horig) as (t' & Ht' & Hact & Hti). rewrite Hsr in Ht'.
    rewrite (cleared_row_inactive dr (pv_kind p) l (part w2) (part w') n t t') in Hact; [done|done|done|done|done|done|congruence].
Qed.
End answers.

Section verdict_on_item.
Context {W : Type} `{!Part W FeedbackStore, !PartLaws W FeedbackStore} (digest float_repr : string → string) (is_ValueError : exn → bool).

(** The reads that consult the feedback part of a world. *)
Definition consult (now : Z) (w : W) : Consult := {| co_store := part w; co_ok := true; co_now := now |}.

Lemma submit_ref (mirrored : bool) session (k : item_key) at_ w now :
  str_truthy k.1.1 = true → str_truthy k.1.2 = true →
  let '(r, w') := submit_surface_feedback is_ValueError digest float_repr true mirrored 
                    (by_ref NOT_USEFUL (encode_ref k.1.1 k.1.2 k.2) session) at_ w in
  r = Ok (k.1.1, k.1.2) ∧ consult now w' = after_verdict digest (consult now w) k mirrored session at_.
Proof using Type*.
  intros Hs Hk. unfold submit_surface_feedback. cbv zeta. unfold by_ref. cbn [sf_verdict sf_ref sf_subsystem sf_surface_kind sf_dims sf_session].
  change (negb (str_in _ VERDICTS)) with false. cbn match. assert (or_str (Some session) "" = session) as -> by (by destruct session).
  set (ref := encode_ref _ _ _). change (or_str (Some ref) "") with ref. change (str_truthy ref) with true. cbn match. run_monad. unfold lift_res, ref.
  rewrite (decode_encode_ref float_repr k.1.1 k.1.2 k.2 Hs Hk). cbn [fst snd]. unfold on_part, zoom, consult, after_verdict. cbn [co_store co_now].
  change (str_lower (str_strip NOT_USEFUL)) with NOT_USEFUL. set (x := Build_Recording _ _ _ _ _ _ _).
  destruct (record digest true mirrored x at_ (part w)) as [[[]|e] f] eqn:Hrec.
  - split; [done|]. cbn [snd]. by rewrite part_set.
  - exfalso. revert Hrec. unfold record. run_monad. change (negb (str_in (rec_verdict x) VERDICTS)) with false. cbn match. by destruct (rec_emit x && mirrored).
Qed.

(** "Not useful" takes an item off the list, and nothing else with it. When the owner sends the
    token of a listed item back with that verdict, the route answers with the item's subsystem and
    kind, and the same read of the Action Center then gives the earlier list without the items
    counted under that item's key, if the owner had not once more called it useful than not, and the earlier list
    unchanged if they had; in the first case no item with that key is left. *)
Theorem not_useful_removes_item (mirrored : bool) session at_ now w s l pa ref :
  Forall (λ c, str_truthy (hc_target c) = true) (default [] (sr_health s)) → (now - 365 * DAY_US ≤ at_)%Z →
  collect_pending_actions digest (consult now w) s = Ok l → pa ∈ l → pa_feedback_ref pa = Some ref →
  ∃ k, pending_action_feedback_key pa = Some k ∧
  let '(r, w') := submit_surface_feedback is_ValueError digest float_repr true mirrored (by_ref NOT_USEFUL ref session) at_ w in
  r = Ok (k.1.1, k.1.2) ∧
  collect_pending_actions digest (consult now w') s
  = Ok (if (0 <=? tally digest (consult now w) k)%Z then
          select_where (λ x, match pending_action_feedback_key x with Some k' => negb (same_tally digest k' k) | None => true end) l
        else l) ∧
  ((0 ≤ tally digest (consult now w) k)%Z →
   ∃ l', collect_pending_actions digest (consult now w') s = Ok l' ∧ ∀ x, x ∈ l' → pending_action_feedback_key x ≠ pending_action_feedback_key pa).
Proof using Type*.
  intros Hnamed Hat Hl Hpa Href. destruct (listed_item digest _ s l pa ref Hl Hpa Href) as (k & Hkey & -> & Hsup & H1 & H2).
  exists k. split; [done|]. pose proof (submit_ref mirrored session k at_ w now H1 H2) as Hsub.
  destruct (submit_surface_feedback _ _ _ _ _ _ _ w) as [r w']. destruct Hsub as [-> Hco]. split; [done|]. rewrite Hco.
  pose proof (collect_after digest _ k mirrored session at_ s l (eq_refl : co_ok (consult now w) = true) Hat Hsup Hnamed Hl) as Hcol.
  assert (select_where (kept digest (consult now w) k) l
    = if (0 <=? tally digest (consult now w) k)%Z then
        select_where (λ x, match pending_action_feedback_key x with Some k' => negb (same_tally digest k' k) | None => true end) l
      else l) as Hsel.
  { unfold kept, hidden_item, hidden. destruct (0 <=? tally digest (consult now w) k)%Z.
    - apply select_where_ext. intros x. by destruct (pending_action_feedback_key x).
    - apply select_where_all. intros x _. by destruct (pending_action_feedback_key x). }
  rewrite Hcol, Hsel. split; [done|]. intros Ht. eexists. split; [reflexivity|]. intros x Hx Hxk. rewrite Hkey in Hxk.
  rewrite (proj2 (Z.leb_le _ _) Ht) in Hx. apply elem_of_select_where in Hx as [_ Hx]. rewrite Hxk in Hx.
  unfold same_tally in Hx. by rewrite !string_eqb_refl in Hx.
Qed.
End verdict_on_item.

(** ** Concrete answers *)

(** A world with the task store and the bills a domain still calls for. *)
Record Household := { hh_tasks : TaskStore; hh_bills : list string }.
#[export] Instance household_part : Part Household TaskStore :=
  {| part := hh_tasks; set_part := λ s w, {| hh_tasks := s; hh_bills := hh_bills w |} |}.
#[export] Instance household_laws : PartLaws Household TaskStore.
Proof. split; [done|by intros []]. Qed.

Definition pay_action (safe : bool) : TaskAction :=
  {| ta_kind := execute_action; ta_label := "Pay"; ta_command := None; ta_target_id := None; ta_safe := safe; ta_choices := [];
     ta_options := None; ta_card := None |}.
Definition bill (key : string) : DesiredAction :=
  {| da_key := key; da_title := "Bill due"; da_description := "Rent"; da_source_id := "bill"; da_action := pay_action true |}.
Definition bills : Provider Household :=
  {| pv_kind := "finance-bills"; pv_desired := λ w, (Ok (map bill (hh_bills w)), w);
     pv_invoke := λ _ w, (Ok "paid", {| hh_tasks := hh_tasks w; hh_bills := [] |}); pv_invoke_choice := None |}.
Definition bills_registry : Registry Household := register_provider bills [].
Definition household : Household :=
  {| hh_tasks := run_task_ops [OUpsert "bill:1" (draft_of (sample_draws "a") "finance-bills" (bill "bill:1"))] (empty_store true); hh_bills := ["bill:1"] |}.
Definition bill_task : Task := default (draft_of (sample_draws "a") "finance-bills" (bill "bill:1")) (List.head (ts_tasks (part household))).

Example answered_card_leaves_witness :
  ∃ w', invoke_action bills_registry (λ _, true) (sample_draws "b") "a:bill:1" None None household = (Ok "paid", w') ∧ store_ok (part w').
Proof.
  destruct (answered_card_leaves bills_registry (λ _, true) (sample_draws "b") "a:bill:1" None None bill_task (pay_action true) bills "paid"
              household {| hh_tasks := hh_tasks household; hh_bills := [] |} {| hh_tasks := hh_tasks household; hh_bills := [] |} [])
    as (w' & Hrun & Hok & _).
  - reflexivity.
  - reflexivity.
  - reflexivity.
  - discriminate.
  - reflexivity.
  - reflexivity.
  - reflexivity.
  - reflexivity.
  - reflexivity.
  - exact (proj1 (run_task_ops_step _ (empty_store true) (empty_ok true))).
  - apply list_elem_of_here.
  - reflexivity.
  - vm_compute. lia.
  - constructor.
  - split.
    + by intros d Hd%elem_of_nil.
    + by intros d1 d2 Hd%elem_of_nil.
  - exists w'. split; [exact Hrun|exact Hok].
Defined.

(** What the owner then reads, before and after. *)
Definition titles (w : Household) : res (list string) :=
  let! l := collect_pending_actions (λ x, x) {| co_store := {| fs_rows := []; fs_signals := [] |}; co_ok := true; co_now := 0 |}
              {| sr_tasks := part w; sr_health := None; sr_queue := Ok []; sr_memory := None |} in
  Ok (map pa_title l).
Example bill_listed : titles household = Ok ["Bill due"].
Proof. vm_compute. reflexivity. Qed.
Example bill_gone :
  titles (run_state (invoke_action bills_registry (λ _, true) (sample_draws "b") "a:bill:1" None None) household) = Ok [].
Proof. vm_compute. reflexivity. Qed.

Definition red_check (target : string) : HealthCheck :=
  {| hc_target := target; hc_kind := k_credential; hc_state := h_red; hc_detail := "expired"; hc_endpoint := None;
     hc_action := Some "evarness login gmail"; hc_subject := None; hc_fix_url := None |}.
Definition health_sources : Sources :=
  {| sr_tasks := empty_store false; sr_health := Some [red_check "gmail"; red_check "imap"]; sr_queue := Ok [];
     sr_memory := None |}.
Definition no_feedback : FeedbackStore := {| fs_rows := []; fs_signals := [] |}.
Definition gmail_ref : string := encode_ref "system" "health_alert" [("kind", VStr "credential"); ("target", VStr "gmail")].

Definition listed (f : FeedbackStore) : list PendingAction :=
  match collect_pending_actions (λ x, x) (consult 0 f) health_sources with Ok l => l | Raise _ => [] end.
Definition gmail_item : PendingAction :=
  default {| pa_id := ""; pa_origin := from_health; pa_source_kind := ""; pa_title := ""; pa_description := ""; pa_action := pay_action true;
             pa_created_at := None; pa_dedup_key := None; pa_feedback_ref := None |} (List.head (listed no_feedback)).

Example not_useful_removes_item_witness :
  map pa_id (listed no_feedback) = ["health:credential:gmail"; "health:credential:imap"] ∧
  ∃ k, pending_action_feedback_key gmail_item = Some k ∧
  (submit_surface_feedback (λ _, true) (λ x, x) (λ r, r) true false (by_ref NOT_USEFUL gmail_ref "s") 0 no_feedback).1 = Ok (k.1.1, k.1.2).
Proof.
  split; [vm_compute; reflexivity|].
  destruct (not_useful_removes_item (W := FeedbackStore) (λ x, x) (λ r, r) (λ _, true) false "s" 0 0 no_feedback health_sources
              (listed no_feedback) gmail_item gmail_ref) as (k & Hk & Hsub).
  - constructor; [reflexivity|]. constructor; [reflexivity|]. constructor.
  - vm_compute. discriminate.
  - vm_compute. reflexivity.
  - apply list_elem_of_here.
  - vm_compute. reflexivity.
  - exists k. split; [exact Hk|].
    destruct (submit_surface_feedback _ _ _ _ _ _ _ no_feedback) as [r w']. exact (proj1 Hsub).
Defined.

Example gmail_hidden :
  map pa_id (listed (run_state (submit_surface_feedback (λ _, true) (λ x, x) (λ r, r) true false (by_ref NOT_USEFUL gmail_ref "s") 0) no_feedback))
  = ["health:credential:imap"].
Proof. vm_compute. reflexivity. Qed.

(** Finished actions count against the limit of the rows a read looks at: behind five hundred of
    them, a live action is not listed. *)
Example finished_actions_hide_live_one :
  let action (i : nat) (st : TaskStatus) (done : option Z) :=
    {| t_id := pretty i; t_title := "x"; t_description := ""; t_status := st; t_priority := 0; t_source_kind := Some "finance-bills";
       t_source_id := None; t_parent_task_id := None; t_dedup_key := Some (pretty i); t_due_at := None; t_wait_for := None;
       t_wait_for_resolved_at := None; t_parent_goal_id := None; t_related_wikilinks := []; t_calendar_event_id := None;
       t_calendar_visible := false; t_action := Some (pay_action true); t_created_at := 0; t_updated_at := 0;
       t_completed_at := done; t_closed_reason := None |} in
  titles {| hh_tasks := {| ts_tasks := map (λ i, action i t_done (Some 1%Z)) (seq 0 500) ++ [action 500 t_open None]; ts_goals := [];
                           ts_bus := false; ts_events := [] |}; hh_bills := [] |} = Ok [].
Proof. vm_compute. reflexivity. Qed.

(** A verdict on a follow-up that is already done is recorded, and the tool says it failed. *)
Record Desk := { dk_tasks : TaskStore; dk_feedback : FeedbackStore }.
#[export] Instance desk_tasks : Part Desk TaskStore := {| part := dk_tasks; set_part := λ s w, {| dk_tasks := s; dk_feedback := dk_feedback w |} |}.
#[export] Instance desk_feedback : Part Desk FeedbackStore :=
  {| part := dk_feedback; set_part := λ f w, {| dk_tasks := dk_tasks w; dk_feedback := f |} |}.

Definition done_followup : Task :=
  {| t_id := "f1"; t_title := "Reply to Acme"; t_description := ""; t_status := t_done; t_priority := 0; t_source_kind := Some "email";
     t_source_id := None; t_parent_task_id := None; t_dedup_key := None; t_due_at := None;
     t_wait_for := Some {| wf_kind := w_reply_from; wf_payload := [("account_id", VStr "home"); ("from", VStr "a@acme.com")] |};
     t_wait_for_resolved_at := None; t_parent_goal_id := None; t_related_wikilinks := []; t_calendar_event_id := None;
     t_calendar_visible := false; t_action := None; t_created_at := 0; t_updated_at := 0; t_completed_at := Some 1%Z; t_closed_reason := None |}.

Example verdict_kept_though_failed :
  let w := {| dk_tasks := {| ts_tasks := [done_followup]; ts_goals := []; ts_bus := false; ts_events := [] |}; dk_feedback := no_feedback |} in
  let '(r, w') := record_feedback (λ x, x) (λ r, r) true false [("ref", VStr "f1")] 5 w in
  (∃ t, r = Ok t ∧ tt_failed t = true) ∧ dk_tasks w' = dk_tasks w ∧ length (fs_rows (dk_feedback w')) = 1.
Proof. vm_compute. split; [by eexists|done]. Qed.

(** A todo added on the web is stored, and no event of it reaches the bus. *)
Example created_silently :
  let '(r, s) := create_task_route "m1" " Buy milk " "" None 1 2 (empty_store true) in
  (∃ t, r = Ok t ∧ t_title t = "Buy milk") ∧ length (ts_tasks s) = 1 ∧ ts_bus s = true ∧ ts_events s = [].
Proof. vm_compute. split; [by eexists|done]. Qed.
