(* ===== verification/Missions.v ===== *)
(** * Missions ([services/missions/], [runtime/mission_proposals.py], [cli/mission.py])

    Multi-step tasks that survive a crash: the store they are checkpointed to, the engine that runs
    them step by step and resumes them at the next start, and the proposals the owner approves. *)

From S2P Require Import Prelude PyVal PyText CallContext Tasks.
From stdpp Require Import options.

(** ** Models ([models.py]) *)

Inductive MissionStatus := m_pending | m_running | m_paused | m_completed | m_failed | m_cancelled.
#[export] Instance MissionStatus_eq_dec : EqDecision MissionStatus.
Proof. solve_decision. Defined.

Inductive StepStatus := s_pending | s_running | s_completed | s_failed | s_skipped.
#[export] Instance StepStatus_eq_dec : EqDecision StepStatus.
Proof. solve_decision. Defined.

Record MissionStep := {
  st_name : string; st_status : StepStatus; st_output : string; st_error : string; st_started_at : option Z; st_finished_at : option Z;
  st_payload : list (string * pyval) }.

(** [MissionStep(name=..., payload=...)] *)
Definition new_step (name : string) (payload : list (string * pyval)) : MissionStep :=
  {| st_name := name; st_status := s_pending; st_output := ""; st_error := ""; st_started_at := None; st_finished_at := None;
     st_payload := payload |}.

Record Mission := {
  mi_name : string; mi_handler : string; mi_steps : list MissionStep; mi_status : MissionStatus; mi_cursor : nat; mi_id : string;
  mi_created_at : Z; mi_updated_at : Z; mi_metadata : list (string * pyval) }.

Definition is_done (m : Mission) : bool :=
  bool_decide (mi_status m = m_completed ∨ mi_status m = m_failed ∨ mi_status m = m_cancelled).
Definition current_step (m : Mission) : option MissionStep := mi_steps m !! mi_cursor m.

(** Assignments to the fields of a mission or a step. *)
Definition with_status (st : MissionStatus) (m : Mission) : Mission :=
  {| mi_name := mi_name m; mi_handler := mi_handler m; mi_steps := mi_steps m; mi_status := st; mi_cursor := mi_cursor m; mi_id := mi_id m;
     mi_created_at := mi_created_at m; mi_updated_at := mi_updated_at m; mi_metadata := mi_metadata m |}.
Definition with_updated (now : Z) (m : Mission) : Mission :=
  {| mi_name := mi_name m; mi_handler := mi_handler m; mi_steps := mi_steps m; mi_status := mi_status m; mi_cursor := mi_cursor m;
     mi_id := mi_id m; mi_created_at := mi_created_at m; mi_updated_at := now; mi_metadata := mi_metadata m |}.
Definition with_created (at_ : Z) (m : Mission) : Mission :=
  {| mi_name := mi_name m; mi_handler := mi_handler m; mi_steps := mi_steps m; mi_status := mi_status m; mi_cursor := mi_cursor m;
     mi_id := mi_id m; mi_created_at := at_; mi_updated_at := mi_updated_at m; mi_metadata := mi_metadata m |}.
Definition with_metadata (d : list (string * pyval)) (m : Mission) : Mission :=
  {| mi_name := mi_name m; mi_handler := mi_handler m; mi_steps := mi_steps m; mi_status := mi_status m; mi_cursor := mi_cursor m;
     mi_id := mi_id m; mi_created_at := mi_created_at m; mi_updated_at := mi_updated_at m; mi_metadata := d |}.
(** [mission.cursor += 1] *)
Definition advance (m : Mission) : Mission :=
  {| mi_name := mi_name m; mi_handler := mi_handler m; mi_steps := mi_steps m; mi_status := mi_status m; mi_cursor := S (mi_cursor m);
     mi_id := mi_id m; mi_created_at := mi_created_at m; mi_updated_at := mi_updated_at m; mi_metadata := mi_metadata m |}.
(** The step at the cursor, after an assignment to it. *)
Definition put_step (s : MissionStep) (m : Mission) : Mission :=
  {| mi_name := mi_name m; mi_handler := mi_handler m; mi_steps := <[mi_cursor m := s]> (mi_steps m); mi_status := mi_status m;
     mi_cursor := mi_cursor m; mi_id := mi_id m; mi_created_at := mi_created_at m; mi_updated_at := mi_updated_at m;
     mi_metadata := mi_metadata m |}.

Definition started (now : Z) (s : MissionStep) : MissionStep :=
  {| st_name := st_name s; st_status := s_running; st_output := st_output s; st_error := st_error s; st_started_at := Some now;
     st_finished_at := st_finished_at s; st_payload := st_payload s |}.
Definition ended (st : StepStatus) (now : Z) (s : MissionStep) : MissionStep :=
  {| st_name := st_name s; st_status := st; st_output := st_output s; st_error := st_error s; st_started_at := st_started_at s;
     st_finished_at := Some now; st_payload := st_payload s |}.
Definition with_error (e : string) (s : MissionStep) : MissionStep :=
  {| st_name := st_name s; st_status := st_status s; st_output := st_output s; st_error := e; st_started_at := st_started_at s;
     st_finished_at := st_finished_at s; st_payload := st_payload s |}.
Definition with_output (o : string) (s : MissionStep) : MissionStep :=
  {| st_name := st_name s; st_status := st_status s; st_output := o; st_error := st_error s; st_started_at := st_started_at s;
     st_finished_at := st_finished_at s; st_payload := st_payload s |}.

(** ** The store ([store.py])

    [ms_writes] is how many more writes the process gets done before it dies or the disk is full;
    [None] for a process that lives. *)
Record MissionStore := { ms_rows : list Mission; ms_writes : option nat }.

Definition mission_is (id : string) (m : Mission) : bool := String.eqb (mi_id m) id.
Definition set_rows (l : list Mission) (s : MissionStore) : MissionStore := {| ms_rows := l; ms_writes := ms_writes s |}.

(** A statement that writes. *)
Definition died : exn := Exn "OperationalError" "disk I/O error".
Definition write_rows (f : list Mission → list Mission) : M MissionStore unit := λ s,
  match ms_writes s with
  | Some 0 => (Raise died, s)
  | Some (S n) => (Ok tt, {| ms_rows := f (ms_rows s); ms_writes := Some n |})
  | None => (Ok tt, {| ms_rows := f (ms_rows s); ms_writes := None |})
  end.

(** [INSERT ... ON CONFLICT(id) DO UPDATE]: [created_at] is not among the updated columns. *)
Definition put_row (m : Mission) (l : list Mission) : list Mission :=
  if existsb (mission_is (mi_id m)) l then update_where (mission_is (mi_id m)) (λ r, with_created (mi_created_at r) m) l else l ++ [m].

(** [load], [list_active], [list_all] and [delete]. *)
Definition load (id : string) : M MissionStore (option Mission) := gets (λ s, select_one (mission_is id) (ms_rows s)).
Definition is_resumable (m : Mission) : bool :=
  bool_decide (mi_status m = m_pending ∨ mi_status m = m_running ∨ mi_status m = m_paused).
Definition list_active : M MissionStore (list Mission) := gets (λ s, sort_by mi_created_at (select_where is_resumable (ms_rows s))).
Definition list_all : M MissionStore (list Mission) := gets (λ s, sort_by mi_created_at (ms_rows s)).
Definition delete_mission (id : string) : M MissionStore bool :=
  found ← gets (λ s, existsb (mission_is id) (ms_rows s));
  write_rows (select_where (λ r, negb (mission_is id r)));;
  mret found.

(** ** The engine ([engine.py]) *)

Section engine.
Context {W : Type} `{!Part W MissionStore} (clock : M W Z).

(** A handler is given the mission and its step and changes the step in place; it answers a status or
    raises an [Exception]. It does not come back from a process that dies. *)
Definition MissionHandler : Type := Mission → MissionStep → M W (MissionStep * res StepStatus).

(** [save]: the mission, as it was saved. *)
Definition save (m : Mission) : M W Mission :=
  now ← clock;
  on_part (write_rows (put_row (with_updated now m)));;
  mret (with_updated now m).
Fixpoint save_many (l : list Mission) : M W unit :=
  match l with [] => mret tt | m :: l => _ ← save m; save_many l end.

Definition register_handler (name : string) (h : MissionHandler) (hs : list (string * MissionHandler)) : list (string * MissionHandler) :=
  kv_set name h hs.

(** [create]; a step given as a name is [new_step name []]. *)
Definition create_mission (id name handler : string) (steps : list MissionStep) (metadata : list (string * pyval)) : M W Mission :=
  created ← clock;
  updated ← clock;
  save {| mi_name := name; mi_handler := handler; mi_steps := steps; mi_status := m_pending; mi_cursor := 0; mi_id := id;
          mi_created_at := created; mi_updated_at := updated; mi_metadata := metadata |}.

Definition step_finished (s : MissionStep) : bool := bool_decide (st_status s = s_completed ∨ st_status s = s_skipped).

(** The body of the loop of [run] for a step that is not finished; [rest] is the loop's next round. *)
Definition serve_step (rest : Mission → M W Mission) (h : MissionHandler) (m : Mission) (step : MissionStep) : M W Mission :=
  now ← clock;
  let step := started now step in
  m ← save (put_step step m);
  done ← h m step;
  let '(step, answer) := done in
  match answer with
  | Raise e =>
      now ← clock;
      save (with_status m_failed (put_step (ended s_failed now (with_error (exn_class e +:+ ": " +:+ exn_str e) step)) m))
  | Ok st =>
      now ← clock;
      let m := put_step (ended st now step) m in
      if bool_decide (st = s_failed) then save (with_status m_failed m)
      else m ← save (advance m); rest m
  end.

(** The loop of [run], for at most [n] steps. *)
Fixpoint run_steps (n : nat) (h : MissionHandler) (m : Mission) : M W Mission :=
  match current_step m, n with
  | None, _ | _, 0 => save (with_status m_completed m)
  | Some step, S n =>
      if step_finished step then m ← save (advance m); run_steps n h m
      else serve_step (run_steps n h) h m step
  end.

(** [metadata.setdefault("errors", [])], and the error added when that is a list. *)
Definition note_error (e : string) (d : list (string * pyval)) : list (string * pyval) :=
  match od_get "errors" d with
  | None => kv_set "errors" (VList [VStr e]) d
  | Some (VList l) => kv_set "errors" (VList (l ++ [VStr e])) d
  | Some _ => d
  end.

Definition run (hs : list (string * MissionHandler)) (m : Mission) : M W Mission :=
  match od_get (mi_handler m) hs with
  | None => save (with_metadata (note_error ("no handler registered for " +:+ py_repr (mi_handler m)) (mi_metadata m)) (with_status m_failed m))
  | Some h =>
      if is_done m then mret m
      else m ← save (with_status m_running m); run_steps (length (mi_steps m) - mi_cursor m) h m
  end.

Fixpoint run_each (hs : list (string * MissionHandler)) (l : list Mission) : M W (list Mission) :=
  match l with [] => mret [] | m :: l => m ← run hs m; ms ← run_each hs l; mret (m :: ms) end.
Definition resume_pending (hs : list (string * MissionHandler)) : M W (list Mission) := active ← on_part list_active; run_each hs active.

Definition cancel (id : string) : M W (option Mission) :=
  found ← on_part (load id);
  match found with
  | None => mret None
  | Some m => if is_done m then mret (Some m) else m ← save (with_status m_cancelled m); mret (Some m)
  end.
End engine.

(** ** The generic handler ([handlers.py]) *)

Definition agent_query_handler {W} (run_query : string → M W (res string)) : @MissionHandler W := λ _ step,
  let query := str_strip (match od_get "query" (st_payload step) with
                          | Some v => if truthy v then str_val v else st_name step
                          | None => st_name step
                          end) in
  if negb (str_truthy query) then mret (with_error "empty step query" step, Ok s_failed)
  else
    answer ← run_query query;
    mret (match answer with
          | Ok text => (with_output (str_take 4000 text) step, Ok s_completed)
          | Raise e => (with_error (exn_class e +:+ ": " +:+ exn_str e) step, Ok s_failed)
          end).

(** ** Proposals ([proposer.py], [mission_proposals.py]) *)

Definition MISSION_HANDLER : string := "agent_query".

(** [" ".join(text.split())] *)
Definition one_space (s : string) : string := join " " (str_split s).

Section proposer.
(** [hashlib.sha256(...).hexdigest()[:16]] *)
Context (digest : string → string).

Definition proposal_dedup_id (source key : string) : string :=
  "mission-" +:+ source +:+ "-" +:+ digest (one_space (str_lower key)).

Definition title_of (text : string) : string :=
  let t := one_space text in
  if Nat.ltb 60 (String.length t) then str_take 59 t +:+ "…" else if str_truthy t then t else "mission".

(** A new [Mission]: its id and its times are drawn. *)
Record Birth := { bi_id : string; bi_created : Z; bi_updated : Z }.
Definition proposed (b : Birth) (name : string) (step : MissionStep) (metadata : list (string * pyval)) : Mission :=
  {| mi_name := name; mi_handler := MISSION_HANDLER; mi_steps := [step]; mi_status := m_pending; mi_cursor := 0; mi_id := bi_id b;
     mi_created_at := bi_created b; mi_updated_at := bi_updated b; mi_metadata := metadata |}.

Definition build_multi_step_mission (b : Birth) (query intent : string) : Mission :=
  let q := one_space query in
  proposed b (title_of q) (new_step (str_take 120 q) [("query", VStr q)])
    [("source", VStr "multi_step_chat"); ("origin_query", VStr query); ("intent", VStr intent); ("pending_approval", VBool true);
     ("dedup_id", VStr (proposal_dedup_id "chat" query))].

Definition build_episodic_mission (b : Birth) (pattern : string) : Mission :=
  proposed b (title_of pattern) (new_step (str_take 120 pattern) [("query", VStr pattern)])
    [("source", VStr "episodic"); ("pattern", VStr pattern); ("pending_approval", VBool true);
     ("dedup_id", VStr (proposal_dedup_id "episodic" pattern))].
End proposer.

(** [str(metadata.get("dedup_id") or id)] and [str(metadata.get("dedup_id"))] *)
Definition dedup_of (m : Mission) : string :=
  match od_get "dedup_id" (mi_metadata m) with Some v => if truthy v then str_val v else mi_id m | None => mi_id m end.
Definition dedup_held (m : Mission) : string := str_val (default VNone (od_get "dedup_id" (mi_metadata m))).

Section proposals.
Context {W : Type} `{!Part W MissionStore, !Part W TaskStore} (clock : M W Z).

Definition approval_key (id : string) : string := "mission-approval:" +:+ id.

(** [_record_mission_approval_task]; the source that is shown is the text of the metadata's. *)
Definition approval_action (id : string) : res TaskAction :=
  TaskAction_of {| ta_kind := copy_command; ta_label := "Approve & run"; ta_command := Some ("evarness mission run " +:+ id);
                   ta_target_id := None; ta_safe := false; ta_choices := []; ta_options := None; ta_card := None |}.
Definition approval_description (m : Mission) : string :=
  pretty (length (mi_steps m)) +:+ " step(s) · source=" +:+ str_val (default (VStr "?") (od_get "source" (mi_metadata m)))
  +:+ ". Approve to run it, or reject to dismiss. Steps: " +:+ str_take 300 (join "; " (map st_name (mi_steps m))).
Definition approval_draft (b : Birth) (m : Mission) (a : TaskAction) : Task :=
  {| t_id := bi_id b; t_title := "Approve mission: " +:+ mi_name m; t_description := approval_description m; t_status := t_open;
     t_priority := 0; t_source_kind := Some "mission-proposal"; t_source_id := Some (mi_id m); t_parent_task_id := None;
     t_dedup_key := None; t_due_at := None; t_wait_for := None; t_wait_for_resolved_at := None; t_parent_goal_id := None;
     t_related_wikilinks := []; t_calendar_event_id := None; t_calendar_visible := false; t_action := Some a;
     t_created_at := bi_created b; t_updated_at := bi_updated b; t_completed_at := None; t_closed_reason := None |}.
Definition _record_mission_approval_task (b : Birth) (m : Mission) : M W unit :=
  try (a ← lift_res (approval_action (mi_id m));
       _ ← on_part (with_bus false (upsert (approval_key (mi_id m)) (approval_draft b m a)));
       mret tt)
  except e => mret tt.

Definition propose_mission (b : Birth) (m : Mission) : M W bool :=
  try (active ← on_part list_active;
       if existsb (λ x, negb (is_done x) && String.eqb (dedup_held x) (dedup_of m)) active then mret false
       else
         m ← save clock m;
         _record_mission_approval_task b m;;
         mret true)
  except e => mret false.

(** [mission_autocreate_enabled], of the variable's text. *)
Definition autocreate_enabled (value : string) : bool := str_in (str_lower (str_strip value)) ["1"; "true"; "yes"; "on"].

(** The loop of [mission_proposal_heartbeat], over the patterns after the re-entry scan, with what
    each proposal draws; the number proposed. *)
Fixpoint propose_patterns (digest : string → string) (births : string → Birth * Birth) (patterns : list string) : M W nat :=
  match patterns with
  | [] => mret 0
  | text :: patterns =>
      if Nat.ltb (String.length text) 12 then propose_patterns digest births patterns
      else
        made ← propose_mission (snd (births text)) (build_episodic_mission digest (fst (births text)) text);
        n ← propose_patterns digest births patterns;
        mret (if (made : bool) then S n else n)
  end.
Definition mission_proposal_heartbeat (digest : string → string) (births : string → Birth * Birth) (autocreate : string) (patterns : list string) : M W nat :=
  if autocreate_enabled autocreate then propose_patterns digest births patterns else mret 0.

(** ** The command line ([cli/mission.py]); an exit is the exception it is. *)

Definition typer_Exit : exn := Exn "Exit" "1".

Definition _resolve_task (mission_id : string) (completed now : Z) : M W unit :=
  try (task ← on_part (get_by_dedup_key (approval_key mission_id));
       match task with
       | Some t => _ ← on_part (with_bus false (complete (t_id t) completed now)); mret tt
       | None => mret tt
       end)
  except e => mret tt.

Definition cmd_run (hs : list (string * @MissionHandler W)) (mission_id : string) (completed now : Z) : M W Mission :=
  found ← on_part (load mission_id);
  match found with
  | None => raise typer_Exit
  | Some m => done ← run clock hs m; _resolve_task mission_id completed now;; mret done
  end.

Definition cmd_reject (mission_id : string) (completed now : Z) : M W unit :=
  found ← on_part (load mission_id);
  match found with
  | None => raise typer_Exit
  | Some m => _ ← save clock (with_status m_cancelled m); _resolve_task mission_id completed now
  end.

(** What [EvarnessRuntime.startup] does with the missions, in a process that gets [writes] writes
    done; an exception is logged. *)
Definition startup (hs : list (string * @MissionHandler W)) (writes : option nat) : M W unit :=
  modify (λ w, set_part {| ms_rows := ms_rows (part w); ms_writes := writes |} w);;
  try (_ ← resume_pending clock hs; mret tt) except e => mret tt.
End proposals.

(** ** Progress of a mission *)

(** The indices of the steps of one mission among the calls of its handler. *)
Definition calls_of (id : string) (calls : list (string * nat)) : list nat := omap (λ c, if String.eqb c.1 id then Some c.2 else None) calls.

Definition times (i : nat) (l : list nat) : nat := count_where (Nat.eqb i) l.

Definition unfinished (m : Mission) (i : nat) : Prop := ∃ s, mi_steps m !! i = Some s ∧ step_finished s = false.

(** What one row became while the steps [l] of it were handed to the handler, in this order, each at
    most [k] times. *)
Record progress (k : nat) (m m' : Mission) (l : list nat) : Prop := {
  pg_id : mi_id m' = mi_id m;
  pg_created : mi_created_at m' = mi_created_at m;
  pg_handler : mi_handler m' = mi_handler m;
  pg_length : length (mi_steps m') = length (mi_steps m);
  pg_cursor : mi_cursor m <= mi_cursor m' <= length (mi_steps m);
  pg_before : take (mi_cursor m) (mi_steps m') = take (mi_cursor m) (mi_steps m);
  pg_between : ∀ i, mi_cursor m <= i < mi_cursor m' → ¬ unfinished m' i;
  pg_at : unfinished m' (mi_cursor m') ↔ unfinished m (mi_cursor m');
  pg_after : drop (S (mi_cursor m')) (mi_steps m') = drop (S (mi_cursor m')) (mi_steps m);
  pg_calls : ∀ i, i ∈ l → mi_cursor m <= i <= mi_cursor m' ∧ unfinished m i;
  pg_served : ∀ i, mi_cursor m <= i < mi_cursor m' → unfinished m i → i ∈ l;
  pg_times : ∀ i, times i l <= k;
  pg_order : Sorted.StronglySorted le l;
  pg_done : is_done m' = true → mi_status m' = m_completed ∧ mi_cursor m' = length (mi_steps m) }.

Lemma times_app i l1 l2 : times i (l1 ++ l2) = times i l1 + times i l2.
Proof. apply count_where_app. Qed.

Lemma progress_refl m : mi_cursor m <= length (mi_steps m) → is_done m = false → progress 0 m m [].
Proof.
  intros Hc Hd. split; try done; try lia.
  all: try (by intros i ?%elem_of_nil); try constructor; congruence.
Qed.

Lemma sorted_app_le (l1 l2 : list nat) : Sorted.StronglySorted le l1 → Sorted.StronglySorted le l2 →
  (∀ x y, x ∈ l1 → y ∈ l2 → x <= y) → Sorted.StronglySorted le (l1 ++ l2).
Proof.
  induction 1 as [|x l1 Hs IH Hx]; intros H2 Hle; [done|]. cbn. constructor.
  - apply IH; [done|]. intros a b Ha Hb. apply Hle; [by right|done].
  - apply Forall_app. split; [done|]. apply Forall_forall. intros y Hy. apply Hle; [by left|done].
Qed.

Lemma lookup_after {A} n (l l' : list A) i : drop n l = drop n l' → n <= i → l !! i = l' !! i.
Proof. intros Hd Hi. replace i with (n + (i - n)) by lia. by rewrite <- !lookup_drop, Hd. Qed.
Lemma lookup_before {A} n (l l' : list A) i : take n l = take n l' → i < n → l !! i = l' !! i.
Proof. intros Ht Hi. by rewrite <- (lookup_take_lt l n i Hi), Ht, lookup_take_lt. Qed.

Lemma unfinished_same (m m' : Mission) i : mi_steps m !! i = mi_steps m' !! i → unfinished m i ↔ unfinished m' i.
Proof. unfold unfinished. by intros ->. Qed.

Lemma unfinished_from k m m' l i : progress k m m' l → mi_cursor m' <= i → unfinished m' i ↔ unfinished m i.
Proof.
  intros P Hi. destruct (decide (i = mi_cursor m')) as [->|Hne]; [apply P|].
  apply unfinished_same. eapply lookup_after; [apply P|lia].
Qed.

Lemma progress_trans k1 k2 m1 m2 m3 l1 l2 : progress k1 m1 m2 l1 → is_done m2 = false → progress k2 m2 m3 l2 →
  progress (k1 + k2) m1 m3 (l1 ++ l2).
Proof.
  intros P1 Hd P2. pose proof (pg_cursor _ _ _ _ P1) as C1. pose proof (pg_cursor _ _ _ _ P2) as C2.
  rewrite (pg_length _ _ _ _ P1) in C2. split.
  - by rewrite (pg_id _ _ _ _ P2), (pg_id _ _ _ _ P1).
  - by rewrite (pg_created _ _ _ _ P2), (pg_created _ _ _ _ P1).
  - by rewrite (pg_handler _ _ _ _ P2), (pg_handler _ _ _ _ P1).
  - by rewrite (pg_length _ _ _ _ P2), (pg_length _ _ _ _ P1).
  - lia.
  - rewrite <- (pg_before _ _ _ _ P1). apply list_eq. intros i. destruct (decide (i < mi_cursor m1)).
    + rewrite !lookup_take_lt by done. eapply lookup_before; [apply P2|lia].
    + by rewrite !lookup_take_ge by lia.
  - intros i Hi. destruct (decide (i < mi_cursor m2)).
    + rewrite (unfinished_same m3 m2 i) by (eapply lookup_before; [apply P2|done]). apply P1. lia.
    + apply P2. lia.
  - rewrite (pg_at _ _ _ _ P2). eapply unfinished_from; [exact P1|lia].
  - rewrite (pg_after _ _ _ _ P2). apply list_eq. intros i. rewrite !lookup_drop. eapply lookup_after; [apply P1|lia].
  - intros i [Hi|Hi]%elem_of_app.
    + destruct (pg_calls _ _ _ _ P1 i Hi). split; [lia|done].
    + destruct (pg_calls _ _ _ _ P2 i Hi) as [? Hu]. split; [lia|]. by apply (unfinished_from k1 m1 m2 l1 i P1 ltac:(lia)).
  - intros i Hi Hu. apply elem_of_app. destruct (decide (i < mi_cursor m2)); [left; apply P1; [lia|done]|right].
    apply P2; [lia|]. by apply (unfinished_from k1 m1 m2 l1 i P1 ltac:(lia)).
  - intros i. rewrite times_app. pose proof (pg_times _ _ _ _ P1 i). pose proof (pg_times _ _ _ _ P2 i). lia.
  - apply sorted_app_le; [apply P1|apply P2|]. intros x y Hx Hy. apply (pg_calls _ _ _ _ P1) in Hx as [Hx _].
    apply (pg_calls _ _ _ _ P2) in Hy as [Hy _]. lia.
  - intros Hdone. destruct (pg_done _ _ _ _ P2 Hdone) as [? ->]. split; [done|]. apply P1.
Qed.

(** A row over a stretch of the program's life. *)
Definition later_row (k : nat) (m m' : Mission) (l : list nat) : Prop := (m' = m ∧ l = []) ∨ (is_done m = false ∧ progress k m m' l).

Lemma later_trans k1 k2 m1 m2 m3 l1 l2 : later_row k1 m1 m2 l1 → later_row k2 m2 m3 l2 → later_row (k1 + k2) m1 m3 (l1 ++ l2).
Proof.
  intros [[-> ->]|[Hd1 P1]] [[-> ->]|[Hd2 P2]]; cbn.
  - by left.
  - right. split; [done|]. destruct P2. split; try done. intros i. specialize (pg_times0 i). lia.
  - right. split; [done|]. rewrite app_nil_r. destruct P1. split; try done. intros i. specialize (pg_times0 i). lia.
  - right. split; [done|]. by eapply progress_trans.
Qed.

Lemma progress_weaken k k' m m' l : progress k m m' l → k <= k' → progress k' m m' l.
Proof. intros [] Hk. split; try done. intros i. specialize (pg_times0 i). lia. Qed.

(** Stretches that call different steps. *)
Lemma progress_next k m1 m2 m3 l1 l2 : progress k m1 m2 l1 → is_done m2 = false → (∀ i, i ∈ l1 → i < mi_cursor m2) →
  progress k m2 m3 l2 → progress k m1 m3 (l1 ++ l2).
Proof.
  intros P1 Hd Hl P2. pose proof (progress_trans k k _ _ _ _ _ P1 Hd P2) as []. split; try done. intros i. rewrite times_app.
  destruct (decide (i < mi_cursor m2)).
  - assert (times i l2 = 0) as ->; [|rewrite Nat.add_0_r; apply P1]. apply count_where_zero. intros x Hx.
    apply (pg_calls _ _ _ _ P2) in Hx as [Hx _]. apply Nat.eqb_neq. lia.
  - assert (times i l1 = 0) as ->; [|apply P2]. apply count_where_zero. intros x Hx. apply Hl in Hx. apply Nat.eqb_neq. lia.
Qed.

Lemma progress_called m m' : progress 0 m m' [] → mi_cursor m' = mi_cursor m → unfinished m (mi_cursor m) → progress 1 m m' [mi_cursor m].
Proof.
  intros [] Hc Hu. split; try done.
  - intros i ->%list_elem_of_singleton. split; [lia|done].
  - intros i Hi. lia.
  - intros i. unfold times, count_where. cbn. destruct (Nat.eqb i _); cbn; lia.
  - repeat constructor.
Qed.

Ltac no_calls := try done; try (cbn; lia); try (intros i Hi; by apply elem_of_nil in Hi); try apply Sorted.SSorted_nil; try (intros i Hi; cbn in Hi; lia).

Lemma progress_status st now m : mi_cursor m <= length (mi_steps m) → st = m_running ∨ (st = m_completed ∧ mi_cursor m = length (mi_steps m)) →
  progress 0 m (with_updated now (with_status st m)) [].
Proof. intros Hc Hst. split; no_calls. intros H. destruct Hst as [->|[-> Hlen]]; [discriminate H|]. by split. Qed.

Lemma lookup_put_step s m i : mi_cursor m < length (mi_steps m) →
  mi_steps (put_step s m) !! i = if decide (i = mi_cursor m) then Some s else mi_steps m !! i.
Proof.
  intros Hc. cbn. destruct (decide (i = mi_cursor m)) as [->|Hi]; [by apply list_lookup_insert_eq|by rewrite list_lookup_insert_ne by done].
Qed.

Lemma progress_start now t m s : current_step m = Some s → step_finished s = false → is_done m = false →
  progress 0 m (with_updated t (put_step (started now s) m)) [].
Proof.
  intros Hs Hf Hd. pose proof (lookup_lt_Some _ _ _ Hs) as Hc. split; no_calls.
  - cbn. by rewrite length_insert.
  - cbn. by rewrite take_insert_ge by lia.
  - cbn [mi_cursor with_updated put_step]. unfold unfinished. cbn [mi_steps with_updated]. rewrite lookup_put_step, decide_True by done.
    split; [intros _; by exists s|]. intros _. by eexists.
  - cbn. by rewrite drop_insert_lt by lia.
  - intros Hd'. unfold is_done in Hd, Hd'. cbn in Hd'. congruence.
Qed.

Lemma progress_skip t m s : current_step m = Some s → step_finished s = true → is_done m = false →
  progress 0 m (with_updated t (advance m)) [].
Proof.
  intros Hs Hf Hd. pose proof (lookup_lt_Some _ _ _ Hs) as Hc. split; no_calls.
  - intros i Hi (s' & Hs' & Hf'). cbn in Hi, Hs'. assert (i = mi_cursor m) as -> by lia. unfold current_step in Hs. congruence.
  - intros i Hi (s' & Hs' & Hf'). cbn in Hi. assert (i = mi_cursor m) as -> by lia. unfold current_step in Hs. congruence.
  - intros Hd'. unfold is_done in Hd, Hd'. cbn in Hd'. congruence.
Qed.

Lemma progress_serve st now t m s s' : current_step m = Some s → step_finished s = false → is_done m = false →
  st = s_completed ∨ st = s_skipped → progress 1 m (with_updated t (advance (put_step (ended st now s') m))) [mi_cursor m].
Proof.
  intros Hs Hf Hd Hst. pose proof (lookup_lt_Some _ _ _ Hs) as Hc. split; no_calls.
  - cbn. by rewrite length_insert.
  - cbn. by rewrite take_insert_ge by lia.
  - intros i Hi (s2 & Hs2 & Hf2). cbn in Hi. assert (i = mi_cursor m) as -> by lia. cbn [mi_steps with_updated advance] in Hs2.
    rewrite lookup_put_step, decide_True in Hs2 by done. injection Hs2 as <-. unfold step_finished in Hf2. apply bool_decide_eq_false in Hf2.
    cbn in Hf2. tauto.
  - apply unfinished_same. cbn [mi_steps mi_cursor with_updated advance put_step]. by rewrite list_lookup_insert_ne by lia.
  - cbn. by rewrite drop_insert_lt by lia.
  - intros i ->%list_elem_of_singleton. split; [cbn; lia|by exists s].
  - intros i Hi _. cbn in Hi. assert (i = mi_cursor m) as -> by lia. apply list_elem_of_here.
  - intros i. unfold times, count_where. cbn. destruct (Nat.eqb i _); cbn; lia.
  - repeat constructor.
  - intros Hd'. unfold is_done in Hd, Hd'. cbn in Hd'. congruence.
Qed.

(** ** Runs *)

(** What a world that holds the missions owes them: its clock answers and touches nothing of theirs. *)
Class MissionClock (W : Type) `{!Part W MissionStore} (clock : M W Z) (log : W → list (string * nat)) : Prop := {
  clock_ticks w : ∃ t w', clock w = (Ok t, w') ∧ part w' = part w ∧ log w' = log w;
  log_apart (s : MissionStore) w : log (set_part s w) = log w }.

(** A handler that does its work: it leaves the rows alone, answers that the step is completed or to
    be skipped, and is stopped only by the death of the process. [log] is what the world remembers
    of its calls. *)
Record serves {W} `{!Part W MissionStore} (log : W → list (string * nat)) (h : MissionHandler) : Prop := {
  sv_log m s w : log (run_state (h m s) w) = log w ++ [(mi_id m, mi_cursor m)];
  sv_rows m s w : ms_rows (part (run_state (h m s) w)) = ms_rows (part w);
  sv_answer m s w s' answer w' : h m s w = (Ok (s', answer), w') → answer = Ok s_completed ∨ answer = Ok s_skipped;
  sv_lives m s w : ms_writes (part w) = None → ms_writes (part (run_state (h m s) w)) = None ∧ ∃ x, run_res (h m s) w = Ok x }.

Section runs.
Context {W : Type} `{!Part W MissionStore, !PartLaws W MissionStore} (clock : M W Z) (log : W → list (string * nat)).
Context `{!MissionClock W clock log}.

Lemma put_row_at A B m m' : NoDup (map mi_id (A ++ m :: B)) → mi_id m' = mi_id m → mi_created_at m' = mi_created_at m →
  put_row m' (A ++ m :: B) = A ++ m' :: B.
Proof using Type.
  intros Hnd Hid Hc. unfold put_row. rewrite Hid.
  assert (existsb (mission_is (mi_id m)) (A ++ m :: B) = true) as ->.
  { apply existsb_exists. exists m. split; [apply in_or_app; right; by left|]. apply String.eqb_refl. }
  rewrite map_app in Hnd. cbn in Hnd. apply NoDup_app in Hnd as (_ & HA & [HB _]%NoDup_cons).
  assert (∀ l, mi_id m ∉ map mi_id l → update_where (mission_is (mi_id m)) (λ r, with_created (mi_created_at r) m') l = l) as Hsame.
  { intros l Hl. apply update_where_none. apply count_where_zero. intros x Hx. apply String.eqb_neq. intros He. apply Hl.
    rewrite <- He. by apply list_elem_of_fmap_2. }
  rewrite update_where_app, (Hsame A) by (intros HA'; apply (HA _ HA'); left). f_equal. cbn. unfold mission_is at 1.
  rewrite String.eqb_refl. f_equal; [|by apply Hsame]. rewrite <- Hc. by destruct m'.
Qed.

(** A save of the row that is stored. *)
Lemma save_at A B m m' w : NoDup (map mi_id (A ++ m :: B)) → ms_rows (part w) = A ++ m :: B →
  mi_id m' = mi_id m → mi_created_at m' = mi_created_at m →
  ∃ r w', save clock m' w = (r, w') ∧ log w' = log w ∧ (ms_writes (part w) = None → ms_writes (part w') = None) ∧
    match r with
    | Ok x => ∃ now, x = with_updated now m' ∧ ms_rows (part w') = A ++ with_updated now m' :: B
    | Raise _ => ms_rows (part w') = A ++ m :: B ∧ ms_writes (part w) ≠ None
    end.
Proof using Type*.
  intros Hnd Hrows Hid Hc. unfold save. run_monad. destruct (clock_ticks (log := log) w) as (t & w1 & -> & Hp & Hl).
  unfold on_part, zoom, write_rows. rewrite Hp, Hrows. destruct (ms_writes (part w)) as [[|n]|] eqn:Hw.
  - eexists _, _. split; [reflexivity|]. rewrite <- Hp, set_part_part, Hp. by rewrite Hl.
  - eexists _, _. split; [reflexivity|]. rewrite log_apart, part_set. split_and!; [done|done|]. exists t. split; [done|]. cbn.
    by apply put_row_at.
  - eexists _, _. split; [reflexivity|]. rewrite log_apart, part_set. split_and!; [done|done|]. exists t. split; [done|]. cbn.
    by apply put_row_at.
Qed.

(** How a run of the row [m] ends: the row is where it got to, and if nothing stopped it, done. *)
Definition ran_row (A B : list Mission) (m : Mission) (w : W) (r : res Mission) (w' : W) : Prop :=
  ∃ m' l, ms_rows (part w') = A ++ m' :: B ∧ log w' = log w ++ map (pair (mi_id m)) l ∧ progress 1 m m' l ∧
    (ms_writes (part w) = None → ms_writes (part w') = None) ∧
    match r with Ok _ => is_done m' = true | Raise _ => ms_writes (part w) ≠ None end.

Lemma ran_after A B m m1 w w1 r w' l : progress 1 m m1 l → is_done m1 = false → (∀ i, i ∈ l → i < mi_cursor m1) →
  log w1 = log w ++ map (pair (mi_id m)) l → (ms_writes (part w) = None → ms_writes (part w1) = None) →
  ran_row A B m1 w1 r w' → ran_row A B m w r w'.
Proof using Type.
  intros P Hd Hl Hlog Hw (m' & l' & Hrows & Hlog' & P' & Hw' & Hr). exists m', (l ++ l'). split_and!.
  - done.
  - by rewrite Hlog', Hlog, (pg_id _ _ _ _ P), map_app, app_assoc.
  - by eapply progress_next.
  - auto.
  - destruct r; [done|]. auto.
Qed.

Lemma ran_stopped A B m m' w w' e l : ms_rows (part w') = A ++ m' :: B → log w' = log w ++ map (pair (mi_id m)) l → progress 1 m m' l →
  ms_writes (part w) ≠ None → ran_row A B m w (Raise e) w'.
Proof using Type. intros. exists m', l. split_and!; try done. Qed.

Lemma nodup_row A B m m' : mi_id m' = mi_id m → NoDup (map mi_id (A ++ m :: B)) → NoDup (map mi_id (A ++ m' :: B)).
Proof using Type. intros Hid. by rewrite !map_app, !map_cons, Hid. Qed.

(** A save of the row that failed, after the steps [l] were called. *)
Lemma ran_unsaved A B m m1 w w1 e l : progress 1 m m1 l → ms_rows (part w1) = A ++ m1 :: B → log w1 = log w ++ map (pair (mi_id m)) l →
  ms_writes (part w) ≠ None → ran_row A B m w (Raise e) w1.
Proof using Type. intros. by eapply ran_stopped. Qed.

Lemma unmoved m : mi_cursor m <= length (mi_steps m) → is_done m = false → progress 1 m m [].
Proof using Type. intros. apply (progress_weaken 0); [by apply progress_refl|lia]. Qed.

(** A step handed to its handler, where the loop's next rounds end as they should. *)
Lemma serve_step_row rest h A B m s w : serves log h → NoDup (map mi_id (A ++ m :: B)) → ms_rows (part w) = A ++ m :: B →
  is_done m = false → current_step m = Some s → step_finished s = false →
  (∀ m2 w2, progress 1 m m2 [mi_cursor m] → is_done m2 = false → mi_cursor m2 = S (mi_cursor m) → mi_status m2 = mi_status m →
     ms_rows (part w2) = A ++ m2 :: B → ∃ r w', rest m2 w2 = (r, w') ∧ ran_row A B m2 w2 r w') →
  ∃ r w', serve_step clock rest h m s w = (r, w') ∧ ran_row A B m w r w'.
Proof using Type*.
  intros Hh Hnd Hrows Hd Hs Hf Hrest. pose proof (lookup_lt_Some _ _ _ Hs) as Hc. unfold serve_step. run_monad.
  destruct (clock_ticks (log := log) w) as (t1 & w1 & -> & Hp1 & Hl1).
  destruct (save_at A B m (put_step (started t1 s) m) w1 Hnd) as (r & w2 & -> & Hlog & Hw & Hr); [by rewrite Hp1|done..|].
  rewrite Hp1, Hl1 in *. destruct r as [x|e]; [destruct Hr as (now & -> & Hr)|destruct Hr as [Hr Hdead]].
  2: { eexists _, _. split; [reflexivity|]. eapply (ran_unsaved A B m m _ _ _ []); [apply unmoved; [lia|done]|done|by rewrite Hlog, app_nil_r|done]. }
  set (m1 := with_updated now (put_step (started t1 s) m)) in *.
  assert (progress 0 m m1 []) as P1 by (by apply progress_start).
  assert (current_step m1 = Some (started t1 s)) as Hs1.
  { unfold current_step, m1. cbn [mi_cursor mi_steps with_updated]. change (mi_cursor (put_step _ m)) with (mi_cursor m).
    rewrite lookup_put_step by lia. by rewrite decide_True. }
  assert (progress 1 m m1 [mi_cursor m]) as P2 by (apply progress_called; [done|done|by exists s]).
  destruct (h m1 (started t1 s) w2) as [a w3] eqn:Hcall.
  pose proof (sv_log _ _ Hh m1 (started t1 s) w2) as Hl3. pose proof (sv_rows _ _ Hh m1 (started t1 s) w2) as Hr3.
  pose proof (sv_lives _ _ Hh m1 (started t1 s) w2) as Hv3. rewrite Hcall in Hl3, Hr3, Hv3. cbn [fst snd] in Hl3, Hr3, Hv3.
  rewrite Hr in Hr3. rewrite Hlog in Hl3. change (mi_id m1) with (mi_id m) in Hl3. change (mi_cursor m1) with (mi_cursor m) in Hl3.
  destruct a as [[s' answer]|e].
  2: { eexists _, _. split; [reflexivity|]. eapply (ran_unsaved A B m m1 _ _ _ [mi_cursor m]); [done|done|done|].
       intros Hn0. destruct (Hv3 (Hw Hn0)) as [_ [x Hx]]. done. }
  assert (answer = Ok s_completed ∨ answer = Ok s_skipped) as Hans by (by eapply (sv_answer _ _ Hh)).
  assert (∃ st, answer = Ok st ∧ (st = s_completed ∨ st = s_skipped)) as (st & -> & Hst') by (destruct Hans as [->| ->]; eauto).
  destruct (clock_ticks (log := log) w3) as (t2 & w4 & -> & Hp4 & Hl4). rewrite bool_decide_false by (by destruct Hst' as [->| ->]).
  destruct (save_at A B m1 (advance (put_step (ended st t2 s') m1)) w4) as (r & w5 & -> & Hlog5 & Hw5 & Hr5);
    [by apply (nodup_row A B m)|by rewrite Hp4|done|done|].
  rewrite Hp4, Hl4, Hl3 in *. assert (ms_writes (part w) = None → ms_writes (part w5) = None) as Hw' by (intros Hn0; apply Hw5, Hv3; auto).
  destruct r as [x|e]; [destruct Hr5 as (now5 & -> & Hr5)|destruct Hr5 as [Hr5 Hdead]].
  2: { eexists _, _. split; [reflexivity|]. eapply (ran_unsaved A B m m1 _ _ _ [mi_cursor m]); [done|done|done|].
       intros Hn0. apply Hdead, Hv3. auto. }
  set (m2 := with_updated now5 (advance (put_step (ended st t2 s') m1))) in *.
  assert (progress 1 m m2 [mi_cursor m]) as P3.
  { apply (progress_next 1 m m1 m2 [] [mi_cursor m]); [by apply (progress_weaken 0); [|lia]|done|by intros i ?%elem_of_nil|].
    by eapply (progress_serve st t2 now5 m1). }
  destruct (Hrest m2 w5) as (r2 & w6 & -> & Hran); [done|done|done|done|done|].
  exists r2, w6. split; [done|]. eapply (ran_after A B m m2 w w5 r2 w6 [mi_cursor m]); [done|done| |done|done|done].
  intros i ->%list_elem_of_singleton. cbn. lia.
Qed.

Lemma run_steps_row h A B n : serves log h → ∀ m w, NoDup (map mi_id (A ++ m :: B)) → ms_rows (part w) = A ++ m :: B →
  mi_status m = m_running → mi_cursor m <= length (mi_steps m) → n = length (mi_steps m) - mi_cursor m →
  ∃ r w', run_steps clock n h m w = (r, w') ∧ ran_row A B m w r w'.
Proof using Type*.
  intros Hh. induction n as [|n IH]; intros m w Hnd Hrows Hst Hc Hn; assert (is_done m = false) as Hd by (unfold is_done; by rewrite Hst).
  - destruct (save_at A B m (with_status m_completed m) w Hnd Hrows eq_refl eq_refl) as (r & w' & Hrun & Hlog & Hw & Hr). exists r, w'.
    split; [cbn [run_steps]; destruct (current_step m); exact Hrun|].
    destruct r as [x|e]; [destruct Hr as (now & -> & Hr)|destruct Hr as [Hr Hdead]].
    + exists (with_updated now (with_status m_completed m)), []. split_and!; [done|by rewrite app_nil_r| |done|done].
      apply (progress_weaken 0); [|lia]. apply progress_status; [done|]. right. split; [done|lia].
    + eapply (ran_unsaved A B m m _ _ _ []); [by apply unmoved|done|by rewrite app_nil_r|done].
  - destruct (lookup_lt_is_Some_2 (mi_steps m) (mi_cursor m)) as [s Hs]; [lia|]. cbn [run_steps]. fold (current_step m) in Hs. rewrite Hs.
    destruct (step_finished s) eqn:Hf; run_monad.
    + destruct (save_at A B m (advance m) w Hnd Hrows eq_refl eq_refl) as (r & w' & -> & Hlog & Hw & Hr).
      destruct r as [x|e]; [destruct Hr as (now & -> & Hr)|destruct Hr as [Hr Hdead]].
      * destruct (IH (with_updated now (advance m)) w') as (r2 & w2 & -> & Hran); [by apply (nodup_row A B m)|done|done|cbn; lia|cbn; lia|].
        exists r2, w2. split; [done|]. eapply (ran_after A B m _ w w' r2 w2 []); [| |by intros i ?%elem_of_nil|by rewrite app_nil_r|done|done].
        -- apply (progress_weaken 0); [|lia]. by eapply progress_skip.
        -- done.
      * eexists _, _. split; [reflexivity|]. eapply (ran_unsaved A B m m _ _ _ []); [by apply unmoved|done|by rewrite app_nil_r|done].
    + eapply (serve_step_row _ h A B m s w Hh); [done..|]. intros m2 w2 P Hd2 Hc2 Hst2 Hr2. pose proof (pg_length _ _ _ _ P) as Hlen.
      apply IH; [by apply (nodup_row A B m); [apply P|]|done|congruence|lia|lia].
Qed.

Lemma run_row hs h A B m w : serves log h → od_get (mi_handler m) hs = Some h → is_done m = false →
  NoDup (map mi_id (A ++ m :: B)) → ms_rows (part w) = A ++ m :: B → mi_cursor m <= length (mi_steps m) →
  ∃ r w', run clock hs m w = (r, w') ∧ ran_row A B m w r w'.
Proof using Type*.
  intros Hh Hhs Hd Hnd Hrows Hc. unfold run. rewrite Hhs, Hd. run_monad.
  destruct (save_at A B m (with_status m_running m) w Hnd Hrows eq_refl eq_refl) as (r & w' & -> & Hlog & Hw & Hr).
  destruct r as [x|e]; [destruct Hr as (now & -> & Hr)|destruct Hr as [Hr Hdead]].
  2: { eexists _, _. split; [reflexivity|]. eapply (ran_unsaved A B m m _ _ _ []); [by apply unmoved|done|by rewrite app_nil_r|done]. }
  destruct (run_steps_row h A B (length (mi_steps m) - mi_cursor m) Hh (with_updated now (with_status m_running m)) w') as (r2 & w2 & Hrun & Hran);
    [by apply (nodup_row A B m)|done|done|done|done|].
  exists r2, w2. split; [exact Hrun|]. eapply (ran_after A B m _ w w' r2 w2 []); [| |by intros i ?%elem_of_nil|by rewrite app_nil_r|done|done].
  - apply (progress_weaken 0); [|lia]. apply progress_status; [done|]. by left.
  - done.
Qed.

(** ** A start of the program *)

(** Every row over a stretch of the program's life, with the calls made in it; [k] bounds how often
    a step of each mission was called. *)
Definition later_rows (k : string → nat) (rows rows' : list Mission) (calls : list (string * nat)) : Prop :=
  Forall2 (λ m m', later_row (k (mi_id m)) m m' (calls_of (mi_id m) calls)) rows rows'.

Lemma later_row_id k m m' l : later_row k m m' l → mi_id m' = mi_id m.
Proof using Type. intros [[-> _]|[_ P]]; [done|apply P]. Qed.

Lemma later_row_weaken k k' m m' l : later_row k m m' l → k <= k' → later_row k' m m' l.
Proof using Type. intros [H|[Hd P]] Hk; [by left|right]. split; [done|]. by eapply progress_weaken. Qed.

Lemma later_rows_weaken k k' rows rows' calls : later_rows k rows rows' calls → (∀ i, k i <= k' i) → later_rows k' rows rows' calls.
Proof using Type. intros H Hk. eapply Forall2_impl; [exact H|]. intros m m' Hm. exact (later_row_weaken _ _ _ _ _ Hm (Hk _)). Qed.

Lemma later_rows_refl k rows : later_rows k rows rows [].
Proof using Type. induction rows; constructor; [by left|done]. Qed.

Lemma calls_of_app id c1 c2 : calls_of id (c1 ++ c2) = calls_of id c1 ++ calls_of id c2.
Proof using Type. unfold calls_of. apply omap_app. Qed.

Lemma later_rows_trans k1 k2 r1 r2 r3 c1 c2 : later_rows k1 r1 r2 c1 → later_rows k2 r2 r3 c2 → later_rows (λ i, k1 i + k2 i) r1 r3 (c1 ++ c2).
Proof using Type.
  unfold later_rows. intros H1. revert r3. induction H1 as [|m1 m2 r1 r2 Hm H1 IH]; intros r3 H2; inversion H2 as [|? m3 ? r3' Hm2 H2']; subst.
  - constructor.
  - constructor; [|by apply IH]. rewrite calls_of_app. eapply later_trans; [exact Hm|]. by rewrite <- (later_row_id _ _ _ _ Hm).
Qed.

Lemma later_rows_ids k rows rows' calls : later_rows k rows rows' calls → map mi_id rows' = map mi_id rows.
Proof using Type. induction 1 as [|m m' ? ? Hm ? IH]; [done|]. cbn. by rewrite IH, (later_row_id _ _ _ _ Hm). Qed.

Lemma calls_of_own id l : calls_of id (map (pair id) l) = l.
Proof using Type. unfold calls_of. induction l as [|i l IH]; [done|]. cbn [map omap list_omap fst snd]. rewrite String.eqb_refl. f_equal. exact IH. Qed.
Lemma calls_of_other id id' l : id' ≠ id → calls_of id' (map (pair id) l) = [].
Proof using Type. intros H. unfold calls_of. induction l as [|i l IH]; [done|]. cbn [map omap list_omap fst snd]. assert (String.eqb id id' = false) as -> by (apply String.eqb_neq; congruence). exact IH. Qed.

Lemma ran_later A B m m' l : NoDup (map mi_id (A ++ m :: B)) → is_done m = false → progress 1 m m' l →
  later_rows (λ i, if bool_decide (i = mi_id m) then 1 else 0) (A ++ m :: B) (A ++ m' :: B) (map (pair (mi_id m)) l).
Proof using Type.
  intros Hnd Hd P. rewrite map_app in Hnd. cbn in Hnd. apply NoDup_app in Hnd as (_ & HA & [HB _]%NoDup_cons).
  assert (∀ rows, mi_id m ∉ map mi_id rows →
    later_rows (λ i, if bool_decide (i = mi_id m) then 1 else 0) rows rows (map (pair (mi_id m)) l)) as Hsame.
  { intros rows Hrows. apply Forall2_same_length_lookup_2; [done|]. intros j r r' Hr Hr'. rewrite Hr in Hr'. injection Hr' as <-. apply list_elem_of_lookup_2 in Hr. left. split; [done|]. apply calls_of_other. intros He. apply Hrows.
    rewrite <- He. by apply list_elem_of_fmap_2. }
  apply Forall2_app; [apply Hsame; intros HA'; apply (HA _ HA'); left|]. constructor; [|by apply Hsame].
  right. split; [done|]. by rewrite bool_decide_true, calls_of_own.
Qed.

(** What a run owes the rows it starts from. *)
Definition served (hs : list (string * MissionHandler)) (m : Mission) : Prop :=
  mi_cursor m <= length (mi_steps m) ∧ ∃ h, od_get (mi_handler m) hs = Some h ∧ serves log h.

Lemma one_more l m i : mi_id m ∉ map mi_id l →
  (if bool_decide (i = mi_id m) then 1 else 0) + (if bool_decide (i ∈ map mi_id l) then 1 else 0)
  <= if bool_decide (i ∈ mi_id m :: map mi_id l) then 1 else 0.
Proof using Type.
  intros Hm. destruct (decide (i = mi_id m)) as [->|Hi].
  - rewrite (bool_decide_true (mi_id m = mi_id m)), (bool_decide_false (mi_id m ∈ map mi_id l)), bool_decide_true by (done || by left). lia.
  - rewrite (bool_decide_false (i = mi_id m)) by done. destruct (decide (i ∈ map mi_id l)).
    + rewrite !bool_decide_true by (done || by right). lia.
    + rewrite (bool_decide_false (i ∈ map mi_id l)) by done. lia.
Qed.

Lemma run_each_rows hs l w : NoDup (map mi_id (ms_rows (part w))) → NoDup (map mi_id l) →
  (∀ m, m ∈ l → m ∈ ms_rows (part w) ∧ is_done m = false ∧ served hs m) →
  ∃ r w' calls, run_each clock hs l w = (r, w') ∧ log w' = log w ++ calls ∧
    later_rows (λ i, if bool_decide (i ∈ map mi_id l) then 1 else 0) (ms_rows (part w)) (ms_rows (part w')) calls ∧
    (ms_writes (part w) = None → ms_writes (part w') = None) ∧
    match r with
    | Ok _ => ∀ m, m ∈ ms_rows (part w') → mi_id m ∈ map mi_id l → is_done m = true
    | Raise _ => ms_writes (part w) ≠ None
    end.
Proof using Type*.
  revert w. induction l as [|m l IH]; intros w Hnd Hl Hin.
  - eexists _, _, []. split_and!; [reflexivity|by rewrite app_nil_r|apply later_rows_refl|done|]. by intros m _ ?%elem_of_nil.
  - cbn [map] in Hl. apply NoDup_cons in Hl as [Hml Hl]. destruct (Hin m) as (Hm & Hd & Hc & h & Hhs & Hh); [by left|].
    apply list_elem_of_split in Hm as (A & B & Hrows). rewrite Hrows in Hnd.
    destruct (run_row hs h A B m w Hh Hhs Hd Hnd Hrows Hc) as (r & w1 & Hrun & m' & cs & Hr1 & Hlog1 & P & Hw1 & Hr).
    pose proof (ran_later A B m m' cs Hnd Hd P) as L1. cbn [run_each]. run_monad. rewrite Hrun. destruct r as [x|e].
    2: { eexists _, _, _. split_and!; [reflexivity|done| |done|done]. rewrite Hrows, Hr1. eapply later_rows_weaken; [exact L1|].
         intros i. cbn beta. case_bool_decide; [|lia]. subst i. rewrite bool_decide_true by left. lia. }
    assert (NoDup (map mi_id (ms_rows (part w1)))) as Hnd1 by (rewrite Hr1; eapply nodup_row; [apply P|exact Hnd]).
    destruct (IH w1 Hnd1 Hl) as (r2 & w2 & calls & Hrun2 & Hlog2 & L2 & Hw2 & Hr2).
    { intros m2 Hm2. destruct (Hin m2) as (Hm2r & Hd2 & Hs2); [by right|]. split; [|done]. rewrite Hrows in Hm2r. rewrite Hr1.
      apply elem_of_app in Hm2r as [?|[->|?]%elem_of_cons]; [set_solver| |set_solver]. exfalso. apply Hml. by apply list_elem_of_fmap_2. }
    rewrite Hrun2. assert (later_rows (λ i, if bool_decide (i ∈ mi_id m :: map mi_id l) then 1 else 0) (ms_rows (part w)) (ms_rows (part w2)) (map (pair (mi_id m)) cs ++ calls)) as L.
    { rewrite Hrows. rewrite Hr1 in L2. eapply later_rows_weaken; [by eapply later_rows_trans|]. intros i. by apply one_more. }
    destruct r2 as [y|e]; eexists _, _, _; (split_and!; [reflexivity|by rewrite Hlog2, Hlog1, app_assoc|exact L|auto|]).
    + intros m2 Hm2 [Hid|Hid]%elem_of_cons; [|by eapply Hr2]. apply list_elem_of_lookup in Hm2 as [i Hi].
      destruct (Forall2_lookup_r _ _ _ _ _ L2 Hi) as (m1 & Hm1 & Hlat). pose proof (later_row_id _ _ _ _ Hlat) as Hid'.
      assert (m1 = m') as ->.
      { eapply (unique_key mi_id (ms_rows (part w1))); [exact Hnd1|by eapply list_elem_of_lookup_2|rewrite Hr1; set_solver|]. rewrite <- Hid', Hid. symmetry. apply P. }
      destruct Hlat as [[-> _]|[Hd' _]]; [done|congruence].
    + intros Hn0. apply Hr2, Hw1, Hn0.
Qed.

(** ** Starts, crashes and the last start *)

(** The rows a program starts with: their handlers are registered and do their work. *)
Definition rows_ok (hs : list (string * MissionHandler)) (rows : list Mission) : Prop :=
  NoDup (map mi_id rows) ∧ Forall (λ m, is_done m = false → served hs m) rows.

Lemma later_served hs k m m' l : later_row k m m' l → (is_done m = false → served hs m) → is_done m' = false → served hs m'.
Proof using Type.
  intros [[-> _]|[Hd P]] Hs Hd'; [auto|]. destruct (Hs Hd) as (Hc & h & Hhs & Hh). split.
  - rewrite (pg_length _ _ _ _ P). apply P.
  - exists h. by rewrite (pg_handler _ _ _ _ P).
Qed.

Lemma later_rows_ok hs k rows rows' calls : later_rows k rows rows' calls → rows_ok hs rows → rows_ok hs rows'.
Proof using Type.
  intros L [Hnd Hs]. split; [by rewrite (later_rows_ids _ _ _ _ L)|]. apply Forall_lookup. intros i m' Hm'.
  destruct (Forall2_lookup_r _ _ _ _ _ L Hm') as (m & Hm & Hlat). eapply later_served; [exact Hlat|]. by eapply Forall_lookup in Hs.
Qed.

Lemma resumable_active m : is_resumable m = negb (is_done m).
Proof using Type. unfold is_resumable, is_done. destruct (mi_status m); reflexivity. Qed.

Lemma startup_rows hs b w : rows_ok hs (ms_rows (part w)) →
  ∃ calls, let w' := run_state (startup clock hs b) w in
    log w' = log w ++ calls ∧ later_rows (λ _, 1) (ms_rows (part w)) (ms_rows (part w')) calls ∧
    (b = None → ∀ m, m ∈ ms_rows (part w') → is_done m = true).
Proof using Type*.
  intros [Hnd Hs]. unfold startup, resume_pending. run_monad. unfold modify. cbn [fst snd].
  set (w1 := set_part {| ms_rows := ms_rows (part w); ms_writes := b |} w).
  assert (part w1 = {| ms_rows := ms_rows (part w); ms_writes := b |}) as Hp1 by apply part_set.
  assert (log w1 = log w) as Hl1 by apply log_apart.
  assert (on_part list_active w1 = (Ok (sort_by mi_created_at (select_where is_resumable (ms_rows (part w)))), w1)) as ->.
  { unfold on_part, zoom, list_active. run_monad. by rewrite set_part_part, Hp1. }
  set (active := sort_by mi_created_at (select_where is_resumable (ms_rows (part w)))).
  assert (∀ m, m ∈ active ↔ is_done m = false ∧ m ∈ ms_rows (part w)) as Hact.
  { intros m. unfold active. rewrite elem_of_sort_by, elem_of_select_where, resumable_active, negb_true_iff. tauto. }
  destruct (run_each_rows hs active w1) as (r & w2 & calls & Hrun & Hlog & L & Hw & Hr).
  - by rewrite Hp1.
  - unfold active. rewrite sort_by_perm. by apply nodup_select.
  - intros m [Hd Hm]%Hact. rewrite Hp1. split_and!; [done|done|]. eapply Forall_forall in Hs; [by apply Hs|done].
  - exists calls. cbv zeta. rewrite !Hrun. assert ((let '(x, s') := let '(y, s') := (r, w2) in match y with Ok _ => (Ok tt, s') | Raise e => (Raise e, s') end in
      match x with Ok a => (Ok a, s') | Raise _ => (Ok tt, s') end).2 = w2) as -> by (by destruct r).
    rewrite Hp1 in L, Hw, Hr. split_and!; [by rewrite Hlog, Hl1| |].
    + eapply later_rows_weaken; [exact L|]. intros i. cbn beta. case_bool_decide; lia.
    + intros Hb m' Hm'. destruct r as [y|e]; [|done]. destruct (is_done m') eqn:Hd'; [done|]. rewrite <- Hd'. apply Hr; [done|].
      apply list_elem_of_lookup in Hm' as [i Hi]. destruct (Forall2_lookup_r _ _ _ _ _ L Hi) as (m & Hm & Hlat).
      rewrite (later_row_id _ _ _ _ Hlat). apply list_elem_of_fmap_2, Hact. split; [|by eapply list_elem_of_lookup_2].
      destruct Hlat as [[-> _]|[Hd _]]; done.
Qed.

(** The program is started again and again, each time until it dies after so many writes, and then
    once more and left to live. *)
Definition starts (hs : list (string * MissionHandler)) (deaths : list nat) (w : W) : W :=
  run_state (startup clock hs None) (fold_left (λ w n, run_state (startup clock hs (Some n)) w) deaths w).

Lemma starts_rows hs deaths w : rows_ok hs (ms_rows (part w)) →
  ∃ calls, log (starts hs deaths w) = log w ++ calls ∧
    later_rows (λ _, S (length deaths)) (ms_rows (part w)) (ms_rows (part (starts hs deaths w))) calls ∧
    ∀ m, m ∈ ms_rows (part (starts hs deaths w)) → is_done m = true.
Proof using Type*.
  unfold starts. revert w. induction deaths as [|n deaths IH]; intros w Hok; cbn [fold_left length].
  - destruct (startup_rows hs None w Hok) as (calls & Hlog & L & Hd). exists calls. cbv zeta in *. by split_and!; [| |apply Hd].
  - destruct (startup_rows hs (Some n) w Hok) as (c1 & Hlog1 & L1 & _). cbv zeta in *.
    destruct (IH _ (later_rows_ok _ _ _ _ _ L1 Hok)) as (c2 & Hlog2 & L2 & Hd). exists (c1 ++ c2). split_and!; [|exact (later_rows_trans (λ _, 1) (λ _, S (length deaths)) _ _ _ _ _ L1 L2)|done].
    by rewrite Hlog2, Hlog1, app_assoc.
Qed.

(** C22. A crash anywhere leaves a running mission resumable, and nothing it finished is done again.
    Where the handlers of the missions that are not done are registered and do their work
    ([serves]), then however often the program dies, and after whichever of its writes, the start
    that is left to live completes every mission that was running: every step from its checkpoint on
    is completed or skipped, and the steps before it are as they were. The handler was called for
    exactly the steps that were not finished, in their order, and for each at most once a start. A
    mission that was done, cancelled by the owner included, is neither run nor changed. Of a proposal
    or a paused mission nothing is claimed ([startup_runs_proposal] below). *)
Theorem crashed_missions_finish hs deaths w :
  rows_ok hs (ms_rows (part w)) →
  ∃ calls, log (starts hs deaths w) = log w ++ calls ∧
  Forall2 (λ m m',
    let mine := calls_of (mi_id m) calls in
    if is_done m then m' = m ∧ mine = []
    else mi_status m = m_running → mi_id m' = mi_id m ∧ mi_status m' = m_completed ∧ mi_cursor m' = length (mi_steps m) ∧
      length (mi_steps m') = length (mi_steps m) ∧
      take (mi_cursor m) (mi_steps m') = take (mi_cursor m) (mi_steps m) ∧
      Forall (λ s, step_finished s = true) (drop (mi_cursor m) (mi_steps m')) ∧
      (∀ i, i ∈ mine ↔ mi_cursor m <= i ∧ unfinished m i) ∧
      Sorted.StronglySorted le mine ∧ ∀ i, times i mine <= S (length deaths))
    (ms_rows (part w)) (ms_rows (part (starts hs deaths w))).
Proof using Type*.
  intros Hok. destruct (starts_rows hs deaths w Hok) as (calls & Hlog & L & Hdone). exists calls. split; [done|].
  assert (Forall (λ m', is_done m' = true) (ms_rows (part (starts hs deaths w)))) as Hall by (by apply Forall_forall).
  apply Forall2_same_length_lookup_2; [by eapply Forall2_length|]. intros j m m' Hm Hm'.
  destruct (Forall2_lookup_lr _ _ _ _ _ _ L Hm Hm') as [[-> ->]|[Hd P]]; cbv zeta.
  - by rewrite (Hdone m) by (by eapply list_elem_of_lookup_2).
  - rewrite Hd. intros _. destruct (pg_done _ _ _ _ P) as [Hst Hc]; [eapply Hdone, list_elem_of_lookup_2, Hm'|].
    split_and!; [apply P|done|done|apply P|apply P| | |apply P|apply P].
    + apply Forall_lookup. intros i s Hs. rewrite lookup_drop in Hs. pose proof (lookup_lt_Some _ _ _ Hs) as Hlt. rewrite (pg_length _ _ _ _ P) in Hlt.
      destruct (step_finished s) eqn:Hf; [done|]. exfalso. apply (pg_between _ _ _ _ P (mi_cursor m + i)); [lia|]. by exists s.
    + intros i. split.
      * intros Hi. destruct (pg_calls _ _ _ _ P i Hi). split; [lia|done].
      * intros [Hi Hu]. apply (pg_served _ _ _ _ P); [|done]. destruct Hu as (s & Hs & _). apply lookup_lt_Some in Hs. lia.
Qed.
End runs.

(** ** Proposals over the life of the program *)

(** A handler that leaves the mission rows alone. *)
Definition hands_off_rows {W} `{!Part W MissionStore} (h : @MissionHandler W) : Prop :=
  ∀ m s w, ms_rows (part (run_state (h m s) w)) = ms_rows (part w).

Lemma hands_off_ms {W} `{!Part W MissionStore} (h : @MissionHandler W) m s w r w' :
  hands_off_rows h → h m s w = (r, w') → ms_rows (part w') = ms_rows (part w).
Proof. intros Hh He. pose proof (Hh m s w) as H. by rewrite He in H. Qed.

(** What no operation of the engine takes from a row: its id, its creation and its goal; and a
    mission that is done stays done. *)
Record same_mission (m m' : Mission) : Prop := {
  sm_id : mi_id m' = mi_id m; sm_created : mi_created_at m' = mi_created_at m; sm_dedup : dedup_held m' = dedup_held m }.
#[export] Instance same_mission_preorder : PreOrder same_mission.
Proof. split; [by split|]. intros ? ? ? [] []. split; congruence. Qed.

Definition stays (m m' : Mission) : Prop := same_mission m m' ∧ (is_done m = true → is_done m' = true).
#[export] Instance stays_preorder : PreOrder stays.
Proof. split; [by split|]. intros ? ? ? [? ?] [? ?]. split; [by etrans|auto]. Qed.

Section engine_rows.
Context {W : Type} `{!Part W MissionStore, !PartLaws W MissionStore} (clock : M W Z) (log : W → list (string * nat)).
Context `{!MissionClock W clock log}.

(** The row that was [m] is a version of it, and the others are as they were. *)
Definition row_kept (A B : list Mission) (m : Mission) (w : W) : Prop := ∃ m', ms_rows (part w) = A ++ m' :: B ∧ same_mission m m'.
Definition keeps_row A B m (w w' : W) : Prop := row_kept A B m w → row_kept A B m w'.
#[local] Instance keeps_row_preorder A B m : PreOrder (keeps_row A B m).
Proof using Type. split; [by intros ? ?|]. intros ? ? ? H1 H2 ?. auto. Qed.

Lemma rows_kept_same A B m w w' : ms_rows (part w') = ms_rows (part w) → keeps_row A B m w w'.
Proof using Type. intros H (m' & Hr & Hs). exists m'. by rewrite H. Qed.

Lemma keeps_clock A B m : Respects (keeps_row A B m) clock.
Proof using Type*. intros w. destruct (clock_ticks (log := log) w) as (t & w' & -> & Hp & _). apply rows_kept_same. cbn [snd]. by rewrite Hp. Qed.

Lemma keeps_handler A B m h m' s : hands_off_rows h → Respects (keeps_row A B m) (h m' s).
Proof using Type. intros Hh w. by apply rows_kept_same. Qed.

Lemma keeps_save {A'} A B m m' (f : Mission → M W A') : NoDup (map mi_id (A ++ m :: B)) → same_mission m m' →
  (∀ now, Respects (keeps_row A B m) (f (with_updated now m'))) → Respects (keeps_row A B m) (save clock m' ≫= f).
Proof using Type*.
  intros Hnd Hs Hf w (x & Hx & Hsx). run_monad.
  destruct (save_at clock log A B x m' w) as (r & w' & -> & _ & _ & Hr); [by apply (nodup_row A B m); [apply Hsx|]|done| | |].
  - by rewrite (sm_id _ _ Hs), (sm_id _ _ Hsx).
  - by rewrite (sm_created _ _ Hs), (sm_created _ _ Hsx).
  - destruct r as [y|e]; [|by exists x; destruct Hr]. destruct Hr as (now & -> & Hr). apply Hf. exists (with_updated now m').
    split; [done|]. destruct Hs. by split.
Qed.

Lemma keeps_save_last A B m m' : NoDup (map mi_id (A ++ m :: B)) → same_mission m m' → Respects (keeps_row A B m) (save clock m').
Proof using Type*.
  intros Hnd Hs w. pose proof (keeps_save A B m m' mret Hnd Hs (λ _, _) w) as H. revert H. run_monad. by destruct (save clock m' w) as [[x|e] w'].
Qed.

Ltac row_steps Hs :=
  repeat first
    [ match goal with |- Respects ?R _ => first [apply (respects_ret R)|apply (respects_raise R)] end
    | apply keeps_save; [done|destruct Hs; by split|intros ?]
    | apply keeps_save_last; [done|destruct Hs; by split]
    | match goal with |- Respects ?R _ => apply (respects_bind R); [first [apply keeps_clock|by apply keeps_handler]|intros ?] end
    | case_match ].

Lemma keeps_run_steps A B m0 n h m : NoDup (map mi_id (A ++ m0 :: B)) → hands_off_rows h → same_mission m0 m →
  Respects (keeps_row A B m0) (run_steps clock n h m).
Proof using Type*.
  intros Hnd Hh. revert m. induction n as [|n IH]; intros m Hs; cbn [run_steps].
  - row_steps Hs.
  - destruct (current_step m) as [s|]; [|row_steps Hs]. destruct (step_finished s).
    + row_steps Hs. apply IH. destruct Hs. by split.
    + unfold serve_step. row_steps Hs; apply IH; destruct Hs; by split.
Qed.
End engine_rows.

Lemma dedup_note_error e d : od_get "dedup_id" (note_error e d) = od_get "dedup_id" d.
Proof.
  unfold note_error. destruct (od_get "errors" d) as [v|]; [destruct v|]; try done; by rewrite od_get_kv_set.
Qed.

Section life.
Context {W : Type} `{!Part W MissionStore, !PartLaws W MissionStore} (clock : M W Z) (log : W → list (string * nat)).
Context `{!MissionClock W clock log} (hs : list (string * @MissionHandler W)).
Hypothesis handlers_off : ∀ name h, od_get name hs = Some h → hands_off_rows h.

Lemma run_stays A B m w : NoDup (map mi_id (A ++ m :: B)) → ms_rows (part w) = A ++ m :: B →
  ∃ m', ms_rows (part (run_state (run clock hs m) w)) = A ++ m' :: B ∧ stays m m'.
Proof using Type*.
  intros Hnd Hrows. unfold run. destruct (od_get (mi_handler m) hs) as [h|] eqn:Hh.
  - destruct (is_done m) eqn:Hd; [by exists m|].
    destruct (keeps_save clock log A B m (with_status m_running m) (λ m', run_steps clock (length (mi_steps m') - mi_cursor m') h m') Hnd)
      with (s := w) as (m' & Hr & Hs); [by split| |by exists m|].
    { intros now. eapply keeps_run_steps; [done|done|by eapply handlers_off|by split]. }
    exists m'. split; [exact Hr|]. split; [done|congruence].
  - set (m1 := with_metadata _ _). assert (same_mission m m1) as Hs.
    { split; [done|done|]. unfold dedup_held, m1. cbn [mi_metadata with_metadata]. by rewrite dedup_note_error. }
    destruct (save_at clock log A B m m1 w Hnd Hrows eq_refl eq_refl) as (r & w' & -> & _ & _ & Hr). destruct r as [x|e].
    + destruct Hr as (now & -> & Hr). exists (with_updated now m1). split; [done|]. split; [destruct Hs; by split|done].
    + exists m. by destruct Hr.
Qed.

Definition rows_stay : list Mission → list Mission → Prop := Forall2 stays.

Lemma stay_ids l l' : rows_stay l l' → map mi_id l' = map mi_id l.
Proof using Type. induction 1 as [|m m' ? ? [[] _] _ IH]; [done|]. cbn. congruence. Qed.

Lemma stay_refl l : rows_stay l l.
Proof using Type. induction l; by constructor. Qed.
Lemma stay_trans l1 l2 l3 : rows_stay l1 l2 → rows_stay l2 l3 → rows_stay l1 l3.
Proof using Type.
  intros H1. revert l3. induction H1; intros l3 H2; inversion H2; subst; constructor; [by etrans|]. by apply IHForall2.
Qed.
Lemma stay_row A B m m' : stays m m' → rows_stay (A ++ m :: B) (A ++ m' :: B).
Proof using Type. intros. apply Forall2_app; [apply stay_refl|]. constructor; [done|apply stay_refl]. Qed.

Lemma run_each_stays l w : NoDup (map mi_id (ms_rows (part w))) → NoDup (map mi_id l) → (∀ m, m ∈ l → m ∈ ms_rows (part w)) →
  rows_stay (ms_rows (part w)) (ms_rows (part (run_state (run_each clock hs l) w))).
Proof using Type*.
  revert w. induction l as [|m l IH]; intros w Hnd Hl Hin; [apply stay_refl|]. cbn [map] in Hl. apply NoDup_cons in Hl as [Hml Hl].
  destruct (list_elem_of_split (ms_rows (part w)) m) as (A & B & Hrows); [by apply Hin; left|]. rewrite Hrows in Hnd.
  destruct (run_stays A B m w Hnd Hrows) as (m' & Hr & Hs). cbn [run_each]. run_monad. destruct (run clock hs m w) as [[x|e] w1]; cbn [snd] in Hr.
  2: { cbn [snd]. rewrite Hr, Hrows. by apply stay_row. }
  assert (rows_stay (ms_rows (part w1)) (ms_rows (part (run_state (run_each clock hs l) w1)))) as Hrest.
  { apply IH; [rewrite Hr; eapply nodup_row; [apply Hs|exact Hnd]|done|]. intros m2 Hm2. rewrite Hr.
    assert (m2 ∈ A ++ m :: B) as Hm2r by (rewrite <- Hrows; apply Hin; by right).
    apply elem_of_app in Hm2r as [?|[->|?]%elem_of_cons]; [set_solver| |set_solver]. exfalso. apply Hml. by apply list_elem_of_fmap_2. }
  rewrite Hrows. eapply stay_trans; [by apply (stay_row A B m m')|]. rewrite <- Hr. by destruct (run_each clock hs l w1) as [[y|e] w2].
Qed.

Lemma startup_stays b w : NoDup (map mi_id (ms_rows (part w))) →
  rows_stay (ms_rows (part w)) (ms_rows (part (run_state (startup clock hs b) w))).
Proof using Type*.
  intros Hnd. unfold startup, resume_pending. run_monad. unfold modify. cbn [fst snd].
  set (w1 := set_part {| ms_rows := ms_rows (part w); ms_writes := b |} w).
  assert (ms_rows (part w1) = ms_rows (part w)) as Hp1 by (unfold w1; by rewrite part_set).
  unfold on_part, zoom, list_active. run_monad. rewrite set_part_part, Hp1. set (active := sort_by _ _).
  assert (rows_stay (ms_rows (part w1)) (ms_rows (part (run_state (run_each clock hs active) w1)))) as Hrest.
  { apply run_each_stays; [by rewrite Hp1| |].
    - unfold active. rewrite sort_by_perm. by apply nodup_select.
    - intros m Hm. rewrite Hp1. unfold active in Hm. rewrite elem_of_sort_by, elem_of_select_where in Hm. tauto. }
  rewrite Hp1 in Hrest. by destruct (run_each clock hs active w1) as [[y|e] w2].
Qed.

Lemma cancelled_stays m w : NoDup (map mi_id (ms_rows (part w))) → m ∈ ms_rows (part w) →
  rows_stay (ms_rows (part w)) (ms_rows (part (run_state (save clock (with_status m_cancelled m)) w))).
Proof using Type*.
  intros Hnd (A & B & Hrows)%list_elem_of_split. rewrite Hrows in *.
  destruct (save_at clock log A B m (with_status m_cancelled m) w Hnd Hrows eq_refl eq_refl) as (r & w' & -> & _ & _ & Hr). cbn [snd].
  destruct r as [x|e]; [destruct Hr as (now & _ & ->)|destruct Hr as [-> _]]; [|apply stay_refl]. apply stay_row. by repeat split.
Qed.
End life.

(** A mission built by the proposer. *)
Definition is_proposal (m : Mission) : Prop :=
  ∃ digest b, (∃ query intent, m = build_multi_step_mission digest b query intent) ∨ (∃ pattern, m = build_episodic_mission digest b pattern).

Lemma proposal_goal m : is_proposal m → dedup_of m = dedup_held m.
Proof. by intros (digest & b & [(query & intent & ->)|(pattern & ->)]). Qed.

(** What the program, the command line and the engine's users do to the missions. *)
Inductive mission_op :=
| OPropose (b : Birth) (m : Mission)
| OStart (writes : option nat)
| ORun (id : string) (completed now : Z)
| OReject (id : string) (completed now : Z)
| OCancel (id : string).

Definition proposed_id (op : mission_op) : option string := match op with OPropose _ m => Some (mi_id m) | _ => None end.

(** No two missions that are not done have one goal. *)
Definition one_open_each (rows : list Mission) : Prop :=
  ∀ i j m1 m2, rows !! i = Some m1 → rows !! j = Some m2 → is_done m1 = false → is_done m2 = false → dedup_held m1 = dedup_held m2 → i = j.

Lemma undone_back m m' (H : stays m m') : is_done m' = false → is_done m = false.
Proof. destruct H as [_ H]. destruct (is_done m); [|done]. intros Hd. by rewrite H in Hd. Qed.

Lemma one_open_stays rows rows' : Forall2 stays rows rows' → one_open_each rows → one_open_each rows'.
Proof.
  intros L H i j m1 m2 Hi Hj Hd1 Hd2 He. destruct (Forall2_lookup_r _ _ _ _ _ L Hi) as (n1 & Hn1 & S1).
  destruct (Forall2_lookup_r _ _ _ _ _ L Hj) as (n2 & Hn2 & S2). apply (H i j n1 n2 Hn1 Hn2); [by eapply undone_back|by eapply undone_back|].
  rewrite <- (sm_dedup _ _ (proj1 S1)), <- (sm_dedup _ _ (proj1 S2)). exact He.
Qed.

Section ops.
Context {W : Type} `{!Part W MissionStore, !PartLaws W MissionStore, !Part W TaskStore, !Apart W TaskStore MissionStore}.
Context (clock : M W Z) (log : W → list (string * nat)) `{!MissionClock W clock log} (hs : list (string * @MissionHandler W)).

Definition run_mission_op (op : mission_op) (w : W) : W :=
  match op with
  | OPropose b m => run_state (propose_mission clock b m) w
  | OStart writes => run_state (startup clock hs writes) w
  | ORun id c n => run_state (cmd_run clock hs id c n) w
  | OReject id c n => run_state (cmd_reject clock id c n) w
  | OCancel id => run_state (cancel clock id) w
  end.
Definition run_mission_ops (ops : list mission_op) (w : W) : W := fold_left (λ w op, run_mission_op op w) ops w.

(** What is done to the tasks does not touch the missions. *)
Definition missions_same (w w' : W) : Prop := part (T := MissionStore) w' = part w.
#[local] Instance missions_same_preorder : PreOrder missions_same.
Proof using Type. split; [by intros ?|]. unfold missions_same. intros ? ? ? -> ->. done. Qed.

#[local] Instance tasks_apart {A} (m : M TaskStore A) : Respects missions_same (on_part m).
Proof using Type*. intros w. unfold missions_same, on_part, zoom. destruct (m (part w)) as [r s]. apply apart. Qed.

Lemma resolve_apart id c n : Respects missions_same (_resolve_task id c n).
Proof using Type*.
  unfold _resolve_task. apply (respects_try missions_same); [|intros e; apply _].
  apply (respects_bind missions_same); [apply _|]. intros [t|]; [|apply _]. apply (respects_bind missions_same); [apply _|]. intros; apply _.
Qed.

Lemma record_apart b m : Respects missions_same (_record_mission_approval_task b m).
Proof using Type*.
  unfold _record_mission_approval_task. apply (respects_try missions_same); [|intros e; apply _].
  apply (respects_bind missions_same); [apply _|]. intros a. apply (respects_bind missions_same); [apply _|]. intros; apply _.
Qed.

Lemma record_returns b m w : run_res (_record_mission_approval_task b m) w = Ok tt.
Proof using Type. unfold _record_mission_approval_task. run_monad. unfold lift_res. destruct (approval_action _) as [a|e]; [|done]. by destruct (on_part _ w) as [[x|e] w']. Qed.

Lemma put_row_new m l : mi_id m ∉ map mi_id l → put_row m l = l ++ [m].
Proof using Type.
  intros Hm. unfold put_row. destruct (existsb (mission_is (mi_id m)) l) eqn:E; [|done]. exfalso. apply Hm.
  apply existsb_exists in E as (x & Hx & He). apply String.eqb_eq in He. rewrite <- He. by apply list_elem_of_fmap_2, list_elem_of_In.
Qed.

Lemma save_new m w : mi_id m ∉ map mi_id (ms_rows (part w)) →
  ∃ r w', save clock m w = (r, w') ∧
    match r with
    | Ok x => same_mission m x ∧ ms_rows (part w') = ms_rows (part w) ++ [x]
    | Raise _ => ms_rows (part w') = ms_rows (part w)
    end.
Proof using Type*.
  intros Hid. unfold save. run_monad. destruct (clock_ticks (log := log) w) as (t & w1 & -> & Hp & _). unfold on_part, zoom, write_rows. rewrite Hp.
  destruct (ms_writes (part w)) as [[|n]|]; eexists _, _; (split; [reflexivity|]); rewrite part_set; cbn [ms_rows]; [done| |].
  all: split; [by split|]; by rewrite put_row_new.
Qed.

Lemma propose_rows b m w : mi_id m ∉ map mi_id (ms_rows (part w)) → dedup_of m = dedup_held m →
  let rows := ms_rows (part w) in
  let rows' := ms_rows (part (run_state (propose_mission clock b m) w)) in
  rows' = rows ∨ (∃ x, rows' = rows ++ [x] ∧ same_mission m x ∧ ∀ r, r ∈ rows → is_done r = false → dedup_held r ≠ dedup_held m).
Proof using Type*.
  intros Hid Hgoal. cbv zeta. unfold propose_mission. run_monad.
  assert (on_part list_active w = (Ok (sort_by mi_created_at (select_where is_resumable (ms_rows (part w)))), w)) as ->.
  { unfold on_part, zoom, list_active. run_monad. by rewrite set_part_part. }
  set (active := sort_by _ _). destruct (existsb _ active) eqn:Hex; [by left|].
  destruct (save_new m w Hid) as (r & w1 & -> & Hr). destruct r as [x|e]; [|left; exact Hr]. destruct Hr as [Hs Hr]. right. exists x.
  pose proof (record_returns b x w1) as Hok. pose proof (record_apart b x w1) as Hsame. unfold missions_same in Hsame.
  destruct (_record_mission_approval_task b x w1) as [[[]|e] w2]; cbn [fst snd] in Hok, Hsame; [|done]. cbn [snd]. rewrite Hsame.
  split_and!; [done|done|]. intros y Hy Hd He. assert (y ∈ active) as Ha.
  { unfold active. rewrite elem_of_sort_by, elem_of_select_where. split; [done|]. by rewrite resumable_active, Hd. }
  assert (existsb (λ x, negb (is_done x) && String.eqb (dedup_held x) (dedup_of m)) active = true) as Hex'; [|congruence].
  apply existsb_exists. exists y. split; [by apply list_elem_of_In|]. rewrite Hd, Hgoal, He. apply String.eqb_refl.
Qed.

(** One operation: the rows stay, and at most the proposed mission is added, with a goal no other
    mission that is not done has. *)
Lemma op_rows op w : (∀ name h, od_get name hs = Some h → hands_off_rows h) → NoDup (map mi_id (ms_rows (part w))) →
  (∀ b m, op = OPropose b m → is_proposal m ∧ mi_id m ∉ map mi_id (ms_rows (part w))) →
  rows_stay (ms_rows (part w)) (ms_rows (part (run_mission_op op w))) ∨
  (∃ x, ms_rows (part (run_mission_op op w)) = ms_rows (part w) ++ [x] ∧ proposed_id op = Some (mi_id x) ∧
     ∀ r, r ∈ ms_rows (part w) → is_done r = false → dedup_held r ≠ dedup_held x).
Proof using Type*.
  intros Hoff Hnd Hprop. destruct op as [b m|b|id c n|id c n|id]; cbn [run_mission_op].
  - destruct (Hprop b m eq_refl) as [Hp Hid]. destruct (propose_rows b m w Hid (proposal_goal m Hp)) as [->|(x & -> & Hs & Hg)]; [left; apply stay_refl|].
    right. exists x. split_and!; [done|cbn; by rewrite (sm_id _ _ Hs)|]. by rewrite (sm_dedup _ _ Hs).
  - left. by eapply startup_stays.
  - left. unfold cmd_run. run_monad. unfold on_part at 1, zoom, load. run_monad. rewrite set_part_part.
    destruct (select_one (mission_is id) (ms_rows (part w))) as [m|] eqn:Hm; [|apply stay_refl].
    apply select_one_Some in Hm as [Hm _]. apply list_elem_of_split in Hm as (A & B & Hrows). rewrite Hrows in Hnd |- *.
    destruct (run_stays clock log hs Hoff A B m w Hnd Hrows) as (m' & Hr & Hs). destruct (run clock hs m w) as [[x|e] w1]; cbn [snd] in Hr |- *.
    + pose proof (resolve_apart id c n w1) as Hsame. unfold missions_same in Hsame. destruct (_resolve_task id c n w1) as [[[]|e] w2]; cbn [snd] in *;
        rewrite Hsame, Hr; by apply stay_row.
    + rewrite Hr. by apply stay_row.
  - left. unfold cmd_reject. run_monad. unfold on_part at 1, zoom, load. run_monad. rewrite set_part_part.
    destruct (select_one (mission_is id) (ms_rows (part w))) as [m|] eqn:Hm; [|apply stay_refl].
    apply select_one_Some in Hm as [Hm _]. pose proof (cancelled_stays clock log hs Hoff m w Hnd Hm) as Hs.
    destruct (save clock (with_status m_cancelled m) w) as [[x|e] w1]; cbn [snd] in Hs; [|done].
    pose proof (resolve_apart id c n w1) as Hsame. unfold missions_same in Hsame. by rewrite Hsame.
  - left. unfold cancel. run_monad. unfold on_part at 1, zoom, load. run_monad. rewrite set_part_part.
    destruct (select_one (mission_is id) (ms_rows (part w))) as [m|] eqn:Hm; [|apply stay_refl].
    apply select_one_Some in Hm as [Hm _]. destruct (is_done m); [apply stay_refl|]. pose proof (cancelled_stays clock log hs Hoff m w Hnd Hm) as Hs.
    by destruct (save clock (with_status m_cancelled m) w) as [[x|e] w1].
Qed.

(** What holds after any operations: every mission was proposed, under an id of its own, and no goal
    has two missions that are not done. *)
Record rows_sound (used : list string) (rows : list Mission) : Prop := {
  rs_ids : NoDup (map mi_id rows);
  rs_used : ∀ id, id ∈ map mi_id rows → id ∈ used;
  rs_goals : one_open_each rows }.

Lemma sound_stays used rows rows' : rows_stay rows rows' → rows_sound used rows → rows_sound used rows'.
Proof using Type. intros L []. split; [by rewrite (stay_ids _ _ L)|by rewrite (stay_ids _ _ L)|by eapply one_open_stays]. Qed.

Lemma sound_weaken used used' rows : (∀ id, id ∈ used → id ∈ used') → rows_sound used rows → rows_sound used' rows.
Proof using Type. intros H []. split; auto. Qed.

Lemma sound_snoc used rows x : mi_id x ∉ used → (∀ r, r ∈ rows → is_done r = false → dedup_held r ≠ dedup_held x) →
  rows_sound used rows → rows_sound (used ++ [mi_id x]) (rows ++ [x]).
Proof using Type.
  intros Hx Hg [Hnd Hu Ho]. split.
  - rewrite map_app. apply NoDup_app. split_and!; [done| |apply NoDup_singleton]. intros id Hid ->%list_elem_of_singleton. auto.
  - intros id. rewrite map_app. intros [H|H]%elem_of_app; apply elem_of_app; [left; auto|by right].
  - intros i j m1 m2 Hi Hj Hd1 Hd2 He. apply lookup_app_Some in Hi as [Hi|[Hi Hx1]]; apply lookup_app_Some in Hj as [Hj|[Hj Hx2]].
    + by eapply Ho.
    + exfalso. apply list_lookup_singleton_Some in Hx2 as [_ <-]. eapply Hg; [by eapply list_elem_of_lookup_2|done|done].
    + exfalso. apply list_lookup_singleton_Some in Hx1 as [_ <-]. eapply Hg; [by eapply list_elem_of_lookup_2|done|done].
    + apply list_lookup_singleton_Some in Hx1 as [? _]. apply list_lookup_singleton_Some in Hx2 as [? _]. lia.
Qed.

Definition op_ids (ops : list mission_op) : list string := omap proposed_id ops.
Definition ops_ok (ops : list mission_op) : Prop := ∀ b m, OPropose b m ∈ ops → is_proposal m.

Lemma ops_rows ops used w : (∀ name h, od_get name hs = Some h → hands_off_rows h) → ops_ok ops → NoDup (used ++ op_ids ops) →
  rows_sound used (ms_rows (part w)) →
  rows_sound (used ++ op_ids ops) (ms_rows (part (run_mission_ops ops w))) ∧
  ∃ kept new, ms_rows (part (run_mission_ops ops w)) = kept ++ new ∧ rows_stay (ms_rows (part w)) kept.
Proof using Type*.
  intros Hoff. revert used w. induction ops as [|op ops IH]; intros used w Hok Hnd Hs.
  - unfold op_ids. cbn. rewrite app_nil_r. split; [done|]. exists (ms_rows (part w)), []. split; [by rewrite app_nil_r|apply stay_refl].
  - assert (ops_ok ops) as Hok' by (intros b m Hm; apply (Hok b); by right). unfold op_ids in *. cbn [omap list_omap] in *.
    change (run_mission_ops (op :: ops) w) with (run_mission_ops ops (run_mission_op op w)).
    destruct (op_rows op w Hoff (rs_ids _ _ Hs)) as [L|(x & Hr & Hid & Hg)].
    { intros b m ->. split; [apply (Hok b); left|]. intros Hm%(rs_used _ _ Hs). cbn in Hnd. apply NoDup_app in Hnd as (_ & Hnd & _).
      apply (Hnd _ Hm). left. }
    + assert (used ++ match proposed_id op with Some y => y :: omap proposed_id ops | None => omap proposed_id ops end
              = (used ++ option_list (proposed_id op)) ++ omap proposed_id ops) as Happ by (destruct (proposed_id op); by rewrite <- app_assoc).
      rewrite Happ in *. destruct (IH _ (run_mission_op op w) Hok' Hnd) as [Hs' (kept & new & Hk & L')].
      { eapply sound_weaken; [|by eapply sound_stays]. intros id Hin. apply elem_of_app. by left. }
      split; [done|]. exists kept, new. split; [done|]. by eapply stay_trans.
    + rewrite Hid in *. change (mi_id x :: omap proposed_id ops) with ([mi_id x] ++ omap proposed_id ops) in *. rewrite app_assoc in Hnd |- *.
      assert (mi_id x ∉ used) as Hx. { rewrite <- app_assoc in Hnd. apply NoDup_app in Hnd as (_ & Hnd & _). intros Hin. apply (Hnd _ Hin). left. }
      destruct (IH _ (run_mission_op op w) Hok' Hnd) as [Hs' (kept & new & Hk & L')]; [rewrite Hr; by apply sound_snoc|].
      split; [done|]. rewrite Hr in L'. apply Forall2_app_inv_l in L' as (k1 & k2 & L1 & _ & ->). exists k1, (k2 ++ new). by rewrite Hk, <- app_assoc.
Qed.

(** C23. A goal is proposed once while it is open, and what is done stays done. Through any proposals,
    starts of the program with deaths in them, approvals, rejections and cancellations, with handlers
    that may fail, raise or be missing but leave the rows alone: no two missions that are not done
    have the same goal, ids stay unique, no mission disappears, and from any moment on each keeps its
    id and its goal, and one that is completed, failed or cancelled is never active again. *)
Theorem proposals_once before after w :
  (∀ name h, od_get name hs = Some h → hands_off_rows h) → ops_ok (before ++ after) → NoDup (op_ids (before ++ after)) →
  ms_rows (part w) = [] →
  let rows := ms_rows (part (run_mission_ops before w)) in
  let rows' := ms_rows (part (run_mission_ops (before ++ after) w)) in
  NoDup (map mi_id rows') ∧ one_open_each rows' ∧
  ∃ kept new, rows' = kept ++ new ∧
    Forall2 (λ m m', mi_id m' = mi_id m ∧ dedup_held m' = dedup_held m ∧ (is_done m = true → is_done m' = true)) rows kept.
Proof using Type*.
  intros Hoff Hok Hnd Hempty. cbv zeta. unfold op_ids in Hnd. rewrite omap_app in Hnd.
  destruct (ops_rows before [] w Hoff) as [Hs _].
  - intros b m Hm. apply (Hok b). apply elem_of_app. by left.
  - cbn. by apply NoDup_app in Hnd as [? _].
  - rewrite Hempty. split; [apply NoDup_nil_2|by intros id ?%elem_of_nil|]. by intros i j m1 m2 ?%list_elem_of_lookup_2%elem_of_nil.
  - destruct (ops_rows after (op_ids before) (run_mission_ops before w) Hoff) as [Hs' (kept & new & Hr & L)].
    + intros b m Hm. apply (Hok b). apply elem_of_app. by right.
    + done.
    + done.
    + unfold run_mission_ops in *. rewrite fold_left_app. split_and!; [apply Hs'|apply Hs'|]. exists kept, new. split; [done|].
      eapply Forall2_impl; [exact L|]. by intros m m' [[] Hd].
Qed.
End ops.

(** ** Concrete lives *)

(** A program's databases, its clock, and the calls of its handlers. *)
Record Office := { of_missions : MissionStore; of_tasks : TaskStore; of_clock : Z; of_calls : list (string * nat) }.
#[export] Instance office_missions : Part Office MissionStore :=
  {| part := of_missions; set_part := λ s w, {| of_missions := s; of_tasks := of_tasks w; of_clock := of_clock w; of_calls := of_calls w |} |}.
#[export] Instance office_missions_laws : PartLaws Office MissionStore.
Proof. split; [done|by intros []]. Qed.
#[export] Instance office_tasks : Part Office TaskStore :=
  {| part := of_tasks; set_part := λ s w, {| of_missions := of_missions w; of_tasks := s; of_clock := of_clock w; of_calls := of_calls w |} |}.
#[export] Instance office_apart : Apart Office TaskStore MissionStore.
Proof. done. Qed.

Definition office_clock : M Office Z := λ w,
  (Ok (of_clock w + 1)%Z, {| of_missions := of_missions w; of_tasks := of_tasks w; of_clock := (of_clock w + 1)%Z; of_calls := of_calls w |}).
#[export] Instance office_mission_clock : MissionClock Office office_clock of_calls.
Proof. split; [|done]. intros w. by eexists _, _. Qed.

Definition note_call (m : Mission) (w : Office) : Office :=
  {| of_missions := of_missions w; of_tasks := of_tasks w; of_clock := of_clock w; of_calls := of_calls w ++ [(mi_id m, mi_cursor m)] |}.
Definition worker : @MissionHandler Office := λ m s w, (Ok (with_output "done" s, Ok s_completed), note_call m w).
Lemma worker_serves : serves of_calls worker.
Proof. split; try done. - intros m s w s' answer w' [= _ <- _]. by left. - intros m s w Hw. split; [done|]. by eexists. Qed.
Definition workers : list (string * @MissionHandler Office) := [(MISSION_HANDLER, worker)].

Definition trip : Mission :=
  {| mi_name := "trip"; mi_handler := MISSION_HANDLER; mi_steps := [new_step "flights" []; new_step "hotel" []; new_step "car" []];
     mi_status := m_pending; mi_cursor := 0; mi_id := "m1"; mi_created_at := 0; mi_updated_at := 0; mi_metadata := [] |}.
Definition office (rows : list Mission) : Office :=
  {| of_missions := {| ms_rows := rows; ms_writes := None |}; of_tasks := empty_store true; of_clock := 0; of_calls := [] |}.

(** The trip, approved and begun. *)
Definition begun : Mission := with_status m_running trip.
Example crashed_missions_finish_witness :
  ∃ calls, of_calls (starts office_clock workers [3; 2] (office [begun])) = calls ∧ calls_of "m1" calls = [0; 1; 1; 2] ∧
    (∀ i, i ∈ calls_of "m1" calls ↔ 0 <= i ∧ unfinished begun i).
Proof.
  destruct (crashed_missions_finish office_clock of_calls workers [3; 2] (office [begun])) as (calls & Hlog & Hrows).
  - split; [apply NoDup_singleton|]. constructor; [|constructor]. intros _. split; [vm_compute; lia|]. exists worker. split; [reflexivity|exact worker_serves].
  - exists calls. assert (of_calls (starts office_clock workers [3; 2] (office [begun])) = calls) as Hcalls by exact Hlog. split; [exact Hcalls|].
    split; [rewrite <- Hcalls; vm_compute; reflexivity|].
    change (ms_rows (part (office [begun]))) with [begun] in Hrows. revert Hrows. generalize (ms_rows (part (starts office_clock workers [3; 2] (office [begun])))).
    intros rows Hrows. apply Forall2_cons_inv_l in Hrows as (m' & l' & Hm & _). cbv beta zeta in Hm. specialize (Hm eq_refl).
    exact (proj1 (proj2 (proj2 (proj2 (proj2 (proj2 (proj2 Hm))))))).
Defined.

(** The writes the two deaths cut, and the row the last start leaves. *)
Example trip_ends :
  map (λ m, (mi_status m, mi_cursor m, map st_status (mi_steps m))) (of_missions (starts office_clock workers [3; 2] (office [trip]))).(ms_rows)
  = [(m_completed, 3, [s_completed; s_completed; s_completed])].
Proof. vm_compute. reflexivity. Qed.

Definition birth (id : string) : Birth := {| bi_id := id; bi_created := 0; bi_updated := 0 |}.
Definition goal_mission (id : string) : Mission := build_multi_step_mission (λ s, s) (birth id) "Plan the move" "plan".
Definition proposals : list mission_op := [OPropose (birth "t1") (goal_mission "a"); OPropose (birth "t2") (goal_mission "b"); OReject "a" 1 1].

Example proposals_once_witness :
  NoDup (map mi_id (ms_rows (part (run_mission_ops office_clock workers (proposals ++ [OPropose (birth "t3") (goal_mission "c"); OStart None]) (office []))))).
Proof.
  refine (proj1 (proposals_once office_clock of_calls workers proposals [OPropose (birth "t3") (goal_mission "c"); OStart None] (office []) _ _ _ _)).
  - intros name h Hh m s w. assert (h = worker) as -> by (revert Hh; unfold workers; unfold od_get; cbn [List.find fst]; case_match; [by intros [= <-]|done]). reflexivity.
  - intros b m Hm. exists (λ s, s).
    repeat (apply elem_of_cons in Hm as [Hm|Hm]; [try discriminate Hm; injection Hm as _ ->; eexists (birth _); left; eexists _, _; reflexivity|]).
    by apply elem_of_nil in Hm.
  - apply (bool_decide_unpack _). vm_compute. reflexivity.
  - reflexivity.
Defined.

(** A proposal waits for the owner, and the next start of the program runs it. *)
Example startup_runs_proposal :
  let w := run_mission_op office_clock workers (OPropose (birth "t1") (goal_mission "a")) (office []) in
  let w' := run_mission_op office_clock workers (OStart None) w in
  map t_dedup_key (ts_tasks (of_tasks w)) = [Some "mission-approval:a"] ∧ of_calls w = [] ∧
  map mi_status (ms_rows (of_missions w)) = [m_pending] ∧ of_calls w' = [("a", 0)] ∧ map mi_status (ms_rows (of_missions w')) = [m_completed].
Proof. vm_compute. by split_and!. Qed.

(** A step whose handler answers that it is not done does not pause the mission. *)
Example paused_step_completes :
  let pausing : @MissionHandler Office := λ m s w, (Ok (s, Ok s_pending), w) in
  map (λ m, (mi_status m, map st_status (mi_steps m)))
    (ms_rows (of_missions (run_state (run office_clock [(MISSION_HANDLER, pausing)] trip) (office [trip]))))
  = [(m_completed, [s_pending; s_pending; s_pending])].
Proof. vm_compute. reflexivity. Qed.

(** A mission that is completed, run where its handler is not registered, is failed. *)
Example completed_becomes_failed :
  map mi_status (ms_rows (of_missions (run_state (run office_clock [] (with_status m_completed trip)) (office [with_status m_completed trip]))))
  = [m_failed].
Proof. vm_compute. reflexivity. Qed.

(** A mission cancelled while a step of it runs goes on. *)
Example cancel_overwritten :
  let cancelling : @MissionHandler Office := λ m s w, (Ok (s, Ok s_completed), run_state (cancel office_clock (mi_id m)) w) in
  map mi_status (ms_rows (of_missions (run_state (run office_clock [(MISSION_HANDLER, cancelling)] trip) (office [trip])))) = [m_completed].
Proof. vm_compute. reflexivity. Qed.
