(* ===== verification/HeartbeatRuns.v ===== *)
(** * Heartbeat runs ([services/heartbeat/] but its scheduler, [services/health/jobs.py])

    The runs that are kept of a scheduled job, the wall-clock slots its schedule names, the verdict
    on whether the last slot ran, and a schedule in words. *)

From S2P Require Import Prelude PyVal PyText CallContext Tasks.
From stdpp Require Import options.

(** ** Models ([models.py]) *)

Inductive HeartbeatStatus := hb_pending | hb_running | hb_success | hb_failed | hb_skipped.
#[export] Instance HeartbeatStatus_eq_dec : EqDecision HeartbeatStatus.
Proof. solve_decision. Defined.
Definition hb_value (s : HeartbeatStatus) : string :=
  match s with
  | hb_pending => "pending" | hb_running => "running" | hb_success => "success" | hb_failed => "failed" | hb_skipped => "skipped"
  end.

Record HeartbeatDefinition := {
  hd_name : string; hd_handler : string; hd_schedule : string; hd_enabled : bool; hd_description : string;
  hd_params : list (string * pyval); hd_platforms : list string; hd_record_runs : option bool; hd_retry_after : option Z;
  hd_plugin : string }.

Record HeartbeatRun := {
  hr_name : string; hr_status : HeartbeatStatus; hr_started_at : Z; hr_finished_at : option Z; hr_output : string; hr_error : string;
  hr_result : list (string * pyval); hr_trigger : string; hr_already_running : bool }.

(** ** Configuration ([config.py]); the YAML file is the value it holds, [None] when there is none. *)

Definition config_error (path text : string) : exn := Exn "HeartbeatConfigError" (path +:+ ": " +:+ text).
(** [type(v).__name__]; the class of an object is not kept. *)
Definition dict_class (v : pyval) : string :=
  match v with
  | VNone => "NoneType" | VBool _ => "bool" | VInt _ => "int" | VFloat _ => "float" | VStr _ => "str" | VList _ => "list" | VDict _ => "dict"
  | VObj _ => "object"
  end.
(** A list of non-empty strings. *)
Definition names_of (v : pyval) : option (list string) :=
  match v with VList l => mapM (λ x, match x with VStr s => if str_truthy s then Some s else None | _ => None end) l | _ => None end.
Definition required (path key : string) (e : list (string * pyval)) : res string :=
  match od_get key e with
  | Some v => Ok (str_val v)
  | None => Raise (config_error path ("heartbeat missing required field " +:+ py_repr key))
  end.

(** The optional fields of an entry, in the order they are looked at. *)
Definition params_of (v : option pyval) : option (list (string * pyval)) :=
  match v with None => Some [] | Some (VDict d) => Some d | Some _ => None end.
Definition record_runs_of (v : option pyval) : option (option bool) :=
  match v with None | Some VNone => Some None | Some (VBool b) => Some (Some b) | Some _ => None end.
Definition retry_after_of (v : option pyval) : option (option Z) :=
  match v with None | Some VNone => Some None | Some (VInt n) => if (n <? 1)%Z then None else Some (Some n) | Some _ => None end.
Definition plugin_of (v : option pyval) : option string := match v with None => Some "" | Some (VStr s) => Some s | Some _ => None end.
Definition or_error {A} (x : option A) (e : exn) : res A := match x with Some a => Ok a | None => Raise e end.

Definition _parse_entry (path : string) (entry : pyval) : res HeartbeatDefinition :=
  match entry with
  | VDict e =>
      let! name := required path "name" e in
      let! handler := required path "handler" e in
      let! schedule := required path "schedule" e in
      let wrong what := config_error path ("heartbeat " +:+ py_repr name +:+ " " +:+ what) in
      let! params := or_error (params_of (od_get "params" e)) (wrong "'params' must be a mapping") in
      let! platforms := or_error (names_of (default (VList []) (od_get "platforms" e))) (wrong "'platforms' must be a list of names like darwin") in
      let! record_runs := or_error (record_runs_of (od_get "record_runs" e)) (wrong "'record_runs' must be true or false") in
      let! retry_after := or_error (retry_after_of (od_get "retry_skipped_after_minutes" e))
                            (wrong "'retry_skipped_after_minutes' must be a whole number of minutes (1 or more)") in
      let! plugin := or_error (plugin_of (od_get "plugin" e)) (wrong "'plugin' must be a plugin name") in
      Ok {| hd_name := name; hd_handler := handler; hd_schedule := schedule;
            hd_enabled := match od_get "enabled" e with Some v => truthy v | None => true end;
            hd_description := match od_get "description" e with Some v => str_val v | None => "" end; hd_params := params;
            hd_platforms := platforms; hd_record_runs := record_runs; hd_retry_after := retry_after; hd_plugin := str_strip plugin |}
  | _ => Raise (config_error path ("heartbeat entry must be a mapping, got " +:+ dict_class entry))
  end.

Definition load_heartbeats (path : string) (file : option pyval) : res (list HeartbeatDefinition) :=
  match file with
  | None | Some VNone => Ok []
  | Some (VDict raw) =>
      match default (VList []) (od_get "heartbeats" raw) with
      | VList entries => res_all (_parse_entry path) entries
      | _ => Raise (config_error path "'heartbeats' must be a list")
      end
  | Some _ => Raise (config_error path "top-level must be a mapping")
  end.

Definition owners_of (path key : string) (raw : list (string * pyval)) : res (list string) :=
  or_error (names_of (default (VList []) (od_get key raw))) (config_error path (py_repr key +:+ " must be a list of plugin names")).
Definition load_plugin_owners (path : string) (file : option pyval) : res (list string) :=
  match file with
  | Some (VDict raw) =>
      let! in_tree := owners_of path "plugins_in_tree" raw in
      let! external := owners_of path "plugins_external" raw in
      Ok (in_tree ++ external)
  | _ => Ok []
  end.

(** ** The store of kept runs ([run_store.py]) *)

Definition _TEXT_CAP : nat := 2000.
Definition _PRUNE_EVERY : Z := 500.

Record StoredRun := {
  sr_name : string; sr_status : string; sr_started_at : Z; sr_finished_at : option Z; sr_slot : option Z; sr_trigger : string;
  sr_output : string; sr_error : string; sr_result : list (string * pyval); sr_id : Z }.

Definition sr_ok (r : StoredRun) : bool := String.eqb (sr_status r) "success".

Definition iso_or_none (t : option Z) : pyval := match t with Some t => VStr (isoformat t) | None => VNone end.
Definition stored_as_dict (r : StoredRun) : list (string * pyval) :=
  [("name", VStr (sr_name r)); ("status", VStr (sr_status r)); ("trigger", VStr (sr_trigger r)); ("slot", iso_or_none (sr_slot r));
   ("started_at", VStr (isoformat (sr_started_at r))); ("finished_at", iso_or_none (sr_finished_at r));
   ("output", VStr (sr_output r)); ("error", VStr (sr_error r)); ("result", VDict (sr_result r))].

(** [HeartbeatStatus(self.status)] *)
Definition hb_of_value (s : string) : option HeartbeatStatus :=
  List.find (λ st, String.eqb (hb_value st) s) [hb_pending; hb_running; hb_success; hb_failed; hb_skipped].
Definition to_run (r : StoredRun) : res HeartbeatRun :=
  match hb_of_value (sr_status r) with
  | None => Raise (Exn "ValueError" (py_repr (sr_status r) +:+ " is not a valid HeartbeatStatus"))
  | Some st => Ok {| hr_name := sr_name r; hr_status := st; hr_started_at := sr_started_at r; hr_finished_at := sr_finished_at r;
                     hr_output := sr_output r; hr_error := sr_error r; hr_result := sr_result r; hr_trigger := sr_trigger r;
                     hr_already_running := false |}
  end.

(** The tables [heartbeat_runs], in the order of its ids, and [heartbeat_jobs]; [rs_next] is the next
    [AUTOINCREMENT] id. *)
Record RunStore := { rs_rows : list StoredRun; rs_jobs : list (string * Z); rs_next : Z; rs_writes : Z; rs_retention_days : Z }.

Definition fresh_store (retention_days : Z) : RunStore :=
  {| rs_rows := []; rs_jobs := []; rs_next := 1; rs_writes := 0; rs_retention_days := retention_days |}.

(** The row an [INSERT] of the run makes, as it is read back. *)
Definition row_of (run : HeartbeatRun) (slot : option Z) (id : Z) : StoredRun :=
  {| sr_name := hr_name run; sr_status := hb_value (hr_status run); sr_started_at := hr_started_at run;
     sr_finished_at := hr_finished_at run; sr_slot := slot;
     sr_trigger := if str_truthy (hr_trigger run) then hr_trigger run else "schedule"; sr_output := str_take _TEXT_CAP (hr_output run);
     sr_error := str_take _TEXT_CAP (hr_error run); sr_result := hr_result run; sr_id := id |}.

Definition set_run_rows (l : list StoredRun) (s : RunStore) : RunStore :=
  {| rs_rows := l; rs_jobs := rs_jobs s; rs_next := rs_next s; rs_writes := rs_writes s; rs_retention_days := rs_retention_days s |}.
Definition insert_run (run : HeartbeatRun) (slot : option Z) (s : RunStore) : RunStore :=
  {| rs_rows := rs_rows s ++ [row_of run slot (rs_next s)]; rs_jobs := rs_jobs s; rs_next := rs_next s + 1; rs_writes := rs_writes s + 1;
     rs_retention_days := rs_retention_days s |}.

Definition disk_full : exn := Exn "OperationalError" "database or disk is full".

(** [prune]; the rows deleted. *)
Definition pruned (now : Z) (s : RunStore) : StoredRun → bool := λ r, (sr_started_at r <? now - rs_retention_days s * DAY)%Z.
Definition prune (fails : bool) (now : Z) : M RunStore nat :=
  if fails then raise disk_full
  else
    n ← gets (λ s, count_where (pruned now s) (rs_rows s));
    modify (λ s, set_run_rows (select_where (λ r, negb (pruned now s r)) (rs_rows s)) s);;
    mret n.

(** What SQLite does during one write: whether the [INSERT] and whether the [DELETE] of a pruning
    fails, and the time the pruning reads. *)
Record DiskWrite := { dw_insert_fails : bool; dw_prune_fails : bool; dw_now : Z }.

Definition record (d : DiskWrite) (run : HeartbeatRun) (slot : option Z) : M RunStore bool :=
  try (if dw_insert_fails d then raise disk_full
       else
         modify (insert_run run slot);;
         writes ← gets rs_writes;
         if (writes mod _PRUNE_EVERY =? 0)%Z then _ ← prune (dw_prune_fails d) (dw_now d); mret true else mret true)
  except e => mret false.

(** [INSERT OR IGNORE]; an error is logged. *)
Definition note_job (fails : bool) (name : string) (now : Z) : M RunStore unit :=
  if fails then mret tt
  else modify (λ s, match od_get name (rs_jobs s) with
                    | Some _ => s
                    | None => {| rs_rows := rs_rows s; rs_jobs := rs_jobs s ++ [(name, now)]; rs_next := rs_next s;
                                 rs_writes := rs_writes s; rs_retention_days := rs_retention_days s |}
                    end).

Definition first_seen (s : RunStore) (name : string) : option Z := od_get name (rs_jobs s).

(** The [WHERE] of [recent]. *)
Definition matches (name : option string) (since until_ : option Z) (status : option string) (r : StoredRun) : bool :=
  match name with Some n => if str_truthy n then String.eqb (sr_name r) n else true | None => true end
  && match since with Some t => (t <=? sr_started_at r)%Z | None => true end
  && match until_ with Some t => (sr_started_at r <? t)%Z | None => true end
  && match status with Some st => if str_truthy st then String.eqb (sr_status r) st else true | None => true end.

(** [ORDER BY started_at DESC, id DESC] *)
Definition newest_first (l : list StoredRun) : list StoredRun := reverse (sort_by sr_started_at l).
Definition recent (s : RunStore) (name : option string) (since until_ : option Z) (status : option string) (limit : Z) : list StoredRun :=
  let found := newest_first (select_where (matches name since until_ status) (rs_rows s)) in
  if (0 <? limit)%Z then take (Z.to_nat limit) found else found.

Definition last (s : RunStore) (name : string) (status : option string) : option StoredRun :=
  head (recent s (Some name) None None status 1).
Definition last_success (s : RunStore) (name : string) : option StoredRun := last s name (Some "success").
Definition last_failure (s : RunStore) (name : string) : option StoredRun := last s name (Some "failed").

(** ** Reading a schedule ([slots.py], [schedule_text.py]) *)

Definition _INTERVAL : string := "interval:".
Definition MIN_INTERVAL_SECONDS : Z := 30.

(** [int(text)]: signs, surrounding whitespace and single underscores between digits are taken. *)
Fixpoint int_body (acc : Z) (digit_before : bool) (s : string) : option Z :=
  match s with
  | EmptyString => if digit_before then Some acc else None
  | String c r =>
      match digit_val c with
      | Some d => int_body (acc * 10 + d) true r
      | None => if Ascii.eqb c "_" && digit_before then int_body acc false r else None
      end
  end.
Definition int_of (text : string) : option Z :=
  match str_strip text with
  | String "-" r => Z.opp <$> int_body 0 false r
  | String "+" r => int_body 0 false r
  | s => int_body 0 false s
  end.

(** A trigger answers the next time it fires, given when it fired last and the time it is. *)
Definition Trigger : Type := option Z → Z → option Z.

(** [interval_seconds] and [_parse_interval_seconds] *)
Definition interval_seconds (schedule : string) : option Z :=
  let s := str_strip schedule in
  if startswith _INTERVAL s then
    match int_of (str_drop 9 s) with Some n => if (0 <? n)%Z then Some n else None | None => None end
  else None.

Definition GREEN : string := "green".
Definition YELLOW : string := "yellow".
Definition RED : string := "red".
Definition GREY : string := "grey".

Definition MINUTE : Z := 60 * SECOND.
Definition _TOLERANCE : Z := MINUTE.
Definition _LOOKBACK : Z := 8 * DAY.
Definition _MAX_SLOTS : nat := 5000.
Definition _SUMMARY_CHARS : nat := 80.

Record JobStatus := {
  js_name : string; js_state : string; js_detail : string; js_slot : option Z; js_missed : bool; js_last_run : option StoredRun;
  js_last_success : option StoredRun; js_last_error : string }.

Definition status_as_dict (j : JobStatus) : list (string * pyval) :=
  [("name", VStr (js_name j)); ("state", VStr (js_state j)); ("detail", VStr (js_detail j)); ("slot", iso_or_none (js_slot j));
   ("missed", VBool (js_missed j)); ("ran", VBool (str_in (js_state j) [GREEN; YELLOW] && negb (js_missed j)));
   ("last_run", match js_last_run j with Some r => VDict (stored_as_dict r) | None => VNone end);
   ("last_success_at", iso_or_none (sr_started_at <$> js_last_success j)); ("last_error", VStr (js_last_error j))].

(** [" ".join(text.split())], clipped. *)
Definition flat (text : string) : string := join " " (str_split text).
Definition clipped (n : nat) (text : string) : string :=
  if Nat.leb (String.length text) n then text else str_take (n - 1) text +:+ "…".
Definition _one_line (text : string) : string := clipped 200 (flat text).

(** [text.splitlines()[0]], [""] of no text. *)
Definition is_line_end (c : ascii) : bool :=
  let n := N_of_ascii c in ((10 <=? n) && (n <=? 13) || (28 <=? n) && (n <=? 30))%N.
Fixpoint first_line (s : string) : string :=
  match s with
  | EmptyString => EmptyString
  | String c r => if is_line_end c then EmptyString else String c (first_line r)
  end.

Definition run_summary (r : StoredRun) : string :=
  clipped _SUMMARY_CHARS (flat (
    match od_get "summary" (sr_result r) with
    | Some v => if truthy v then str_val v else first_line (str_strip (sr_output r))
    | None => first_line (str_strip (sr_output r))
    end)).

(** What the verdicts of one evaluation share ([common]). *)
Record Common := { co_last_run : option StoredRun; co_last_success : option StoredRun; co_last_error : string }.
Definition no_common : Common := {| co_last_run := None; co_last_success := None; co_last_error := "" |}.

Definition job_status_of (job state detail : string) (slot : option Z) (missed : bool) (co : Common) : JobStatus :=
  {| js_name := job; js_state := state; js_detail := detail; js_slot := slot; js_missed := missed; js_last_run := co_last_run co;
     js_last_success := co_last_success co; js_last_error := co_last_error co |}.

(** [x or y] of two strings. *)
Definition str_or (x y : string) : string := if str_truthy x then x else y.

Definition common_of (store : RunStore) (job : string) : Common :=
  let last_success := last_success store job in
  {| co_last_run := last store job None; co_last_success := last_success;
     co_last_error :=
       match last_failure store job with
       | Some f =>
           if match last_success with Some s => (sr_started_at s <? sr_started_at f)%Z | None => true end
           then str_or (sr_error f) (sr_output f) else ""
       | None => ""
       end |}.

Section slots.
(** [CronTrigger.from_crontab(text, timezone=tz)]: the trigger, or the text of its [ValueError]; and
    [tz.utcoffset] in microseconds. *)
Context (from_crontab : string → Trigger + string) (utcoffset : Z → Z).

(** [validate_schedule] *)
Definition value_error (text : string) : exn := Exn "ValueError" text.
Definition validate_schedule (schedule : string) : res string :=
  let text := str_strip schedule in
  if startswith _INTERVAL text then
    let raw := str_strip (str_drop 9 text) in
    if negb (isdigit raw) then Raise (value_error ("interval must be whole seconds, got " +:+ py_repr raw))
    else
      let! seconds := int_of_digits raw in
      if (seconds <? MIN_INTERVAL_SECONDS)%Z then
        Raise (value_error ("shortest interval is " +:+ pretty MIN_INTERVAL_SECONDS +:+ " seconds"))
      else Ok (_INTERVAL +:+ pretty seconds)
  else if negb (Nat.eqb (length (str_split text)) 5) then
    Raise (value_error ("schedule must be 'interval:<seconds>' or a 5-field cron (min hour day month weekday), got " +:+ py_repr text))
  else
    match from_crontab text with
    | inr e => Raise (value_error ("invalid cron " +:+ py_repr text +:+ ": " +:+ e))
    | inl _ => Ok (join " " (str_split text))
    end.

Definition cron_trigger (schedule : string) : option Trigger :=
  if startswith _INTERVAL (str_strip schedule) then None
  else match from_crontab (str_strip schedule) with inl t => Some t | inr _ => None end.

(** The loop of [slots_between], for at most [n] more slots. *)
Fixpoint slots_from (n : nat) (fire : Trigger) (cursor end_ : Z) : list Z :=
  match n with
  | 0 => []
  | S n =>
      match fire None cursor with
      | None => []
      | Some nxt => if (end_ <=? nxt)%Z then [] else nxt :: slots_from n fire (nxt + SECOND) end_
      end
  end.
Definition slots_between (schedule : string) (start end_ : Z) : list Z :=
  match cron_trigger schedule with
  | None => []
  | Some fire => slots_from _MAX_SLOTS fire start end_
  end.

(** [slots[-count:]], for a [count] of one or more. *)
Definition last_items {A} (count : nat) (l : list A) : list A := drop (length l - count) l.
Definition recent_slots (schedule : string) (now : Z) (count : nat) : list Z :=
  last_items count (slots_between schedule (now - _LOOKBACK) (now + 1)).

(** [clock]: the time of day where the owner is, with the date unless it is today's. *)
Definition local (t : Z) : Z := t + utcoffset t.
Definition hour_minute (t : Z) : string :=
  let s := ((local t mod DAY) / SECOND)%Z in padded 2 (s / 3600) +:+ ":" +:+ padded 2 ((s / 60) mod 60).
Definition month_name (m : Z) : string :=
  nth (Z.to_nat (m - 1)) ["Jan"; "Feb"; "Mar"; "Apr"; "May"; "Jun"; "Jul"; "Aug"; "Sep"; "Oct"; "Nov"; "Dec"] "".
Definition clock (value : option Z) (now : Z) : string :=
  match value with
  | None => "never"
  | Some t =>
      if (local t / DAY =? local now / DAY)%Z then hour_minute t
      else let '(_, m, d) := civil_of_days (local t / DAY) in month_name m +:+ " " +:+ pretty d +:+ " " +:+ hour_minute t
  end.

(** [f" ({summary})" if summary else ""] after ["ran <clock> ✓"] *)
Definition ran_words (success : StoredRun) (now : Z) : string :=
  let summary := run_summary success in
  "ran " +:+ clock (Some (sr_started_at success)) now +:+ " ✓" +:+ (if str_truthy summary then " (" +:+ summary +:+ ")" else "").

Definition _verdict (job : string) (slot : Z) (newest : StoredRun) (older : list StoredRun) (now : Z) (since_last : string) (co : Common)
    : JobStatus :=
  match List.find sr_ok (newest :: older) with
  | Some success => job_status_of job GREEN (ran_words success now) (Some slot) false co
  | None =>
      let why := _one_line (str_or (sr_error newest) (str_or (sr_output newest) (sr_status newest))) in
      let at_ := clock (Some (sr_started_at newest)) now in
      if String.eqb (sr_status newest) "failed"
      then job_status_of job RED ("failed " +:+ at_ +:+ ": " +:+ why +:+ since_last) (Some slot) false co
      else job_status_of job YELLOW (sr_status newest +:+ " " +:+ at_ +:+ ": " +:+ why +:+ since_last) (Some slot) false co
  end.

Definition _evaluate_interval (job : string) (seconds : Z) (store : RunStore) (now grace : Z) (co : Common) : JobStatus :=
  let every := (seconds * SECOND)%Z in
  let last_success := co_last_success co in
  match match last_success with Some r => Some (sr_started_at r) | None => first_seen store job end with
  | None => job_status_of job GREY "no run yet" None false co
  | Some anchor =>
      let due := (anchor + every)%Z in
      let overdue :=
        if (due + grace <=? now)%Z then
          job_status_of job RED
            ("Missed " +:+ clock (Some due) now +:+ " — last success " +:+ clock (sr_started_at <$> last_success) now) (Some due) true co
        else
          match last_success with
          | None => job_status_of job GREY ("first run due " +:+ clock (Some due) now) (Some due) false co
          | Some s => job_status_of job GREEN (ran_words s now) (Some due) false co
          end in
      match co_last_run co with
      | Some r =>
          if String.eqb (sr_status r) "failed"
             && match last_success with Some s => (sr_started_at s <? sr_started_at r)%Z | None => true end
          then job_status_of job RED
                 ("failed " +:+ clock (Some (sr_started_at r)) now +:+ ": " +:+ _one_line (str_or (sr_error r) (sr_output r))) (Some due) false co
          else overdue
      | None => overdue
      end
  end.

Definition _next_slot (schedule : string) (now : Z) : option Z :=
  match cron_trigger schedule with Some fire => fire None now | None => None end.

(** What [evaluate_job] says after its loop over the slots. *)
Definition upcoming_status (d : HeartbeatDefinition) (now : Z) (co : Common) : JobStatus :=
  match _next_slot (hd_schedule d) now with
  | Some up => job_status_of (hd_name d) GREY ("first run due " +:+ clock (Some up) now) (Some up) false co
  | None => job_status_of (hd_name d) GREY "no run yet" None false co
  end.

(** That loop, over the slots newest first; [until] is where the window of the first ends. *)
Fixpoint judge (d : HeartbeatDefinition) (store : RunStore) (now grace : Z) (co : Common) (until_ : option Z) (slots : list Z) : JobStatus :=
  match slots with
  | [] => upcoming_status d now co
  | slot :: older =>
      let since_last := " — last success " +:+ clock (sr_started_at <$> co_last_success co) now in
      match recent store (Some (hd_name d)) (Some (slot - _TOLERANCE)%Z) until_ None 50 with
      | newest :: runs => _verdict (hd_name d) slot newest runs now since_last co
      | [] =>
          if match first_seen store (hd_name d) with Some t => (slot <? t - _TOLERANCE)%Z | None => false end
          then upcoming_status d now co
          else if (slot + grace <=? now)%Z then
            job_status_of (hd_name d) RED
              ("Missed " +:+ clock (Some slot) now +:+ since_last
               +:+ (if str_truthy (co_last_error co) then " · last error: " +:+ _one_line (co_last_error co) else ""))
              (Some slot) true co
          else judge d store now grace co (Some (slot - _TOLERANCE)%Z) older
      end
  end.

(** [evaluate_job], of an interval or a cron schedule. *)
Definition evaluate_scheduled (d : HeartbeatDefinition) (store : RunStore) (now grace : Z) : JobStatus :=
  let co := common_of store (hd_name d) in
  match interval_seconds (hd_schedule d) with
  | Some seconds => _evaluate_interval (hd_name d) seconds store now grace co
  | None =>
      match recent_slots (hd_schedule d) now 3 with
      | [] =>
          match cron_trigger (hd_schedule d) with
          | None => job_status_of (hd_name d) GREY ("schedule " +:+ py_repr (hd_schedule d) +:+ " is not a cron") None false no_common
          | Some _ => job_status_of (hd_name d) GREY "no scheduled time in the last 8 days" None false co
          end
      | slots => judge d store now grace co None (reverse slots)
      end
  end.
Definition evaluate_job (definition : option HeartbeatDefinition) (store : RunStore) (now grace : Z) (unavailable name : option string)
    : JobStatus :=
  match definition with
  | None => job_status_of (match name with Some n => str_or n "?" | None => "?" end) GREY "not scheduled on this harness" None false no_common
  | Some d =>
      if negb (hd_enabled d) then job_status_of (hd_name d) GREY "turned off" None false no_common
      else
        match unavailable with
        | Some why =>
            if str_truthy why then job_status_of (hd_name d) GREY ("can't run here: " +:+ why) None false no_common
            else evaluate_scheduled d store now grace
        | None => evaluate_scheduled d store now grace
        end
  end.

Record Tally := { ta_ran : nat; ta_expected : nat; ta_missed : list Z }.

(** The loop of [tally]: each slot with the runs of its window, which ends a tolerance before the
    next slot or at [end_]. *)
Fixpoint tally_slots (runs : list StoredRun) (end_ : Z) (slots : list Z) : nat * list Z :=
  match slots with
  | [] => (0, [])
  | slot :: later =>
      let until_ := match later with nxt :: _ => (nxt - _TOLERANCE)%Z | [] => end_ end in
      let served := select_where (λ r, (slot - _TOLERANCE <=? sr_started_at r) && (sr_started_at r <? until_))%Z runs in
      let '(ran, missed) := tally_slots runs end_ later in
      if existsb sr_ok served then (S ran, missed)
      else match served with [] => (ran, slot :: missed) | _ => (ran, missed) end
  end.
Definition tally (schedule : string) (store : RunStore) (name : string) (start end_ : Z) : Tally :=
  match interval_seconds schedule with
  | Some _ =>
      {| ta_ran := length (recent store (Some name) (Some start) (Some end_) (Some "success") 0); ta_expected := 0; ta_missed := [] |}
  | None =>
      let slots := slots_between schedule start end_ in
      let slots := match first_seen store name with
                   | Some t => select_where (λ s, t - _TOLERANCE <=? s)%Z slots
                   | None => slots
                   end in
      let runs := recent store (Some name) (Some (start - _TOLERANCE)%Z) (Some end_) None 0 in
      let '(ran, missed) := tally_slots runs end_ slots in
      {| ta_ran := ran; ta_expected := length slots; ta_missed := missed |}
  end.

(** ** Schedules in words ([schedule_text.py]) *)

Definition plural (count : Z) (one many : string) : string :=
  if (count =? 1)%Z then "every " +:+ one else "every " +:+ pretty count +:+ " " +:+ many.

(** [\d{1,2}] *)
Definition short_digits (s : string) : bool := isdigit s && Nat.leb (String.length s) 2.
Definition digits_value (s : string) : Z := default 0%Z (int_from 0 s).

Definition describe_schedule (schedule : string) : string :=
  let text := str_strip schedule in
  if startswith _INTERVAL text then
    let raw := str_strip (str_drop 9 text) in
    if negb (isdigit raw) then text
    else
      let seconds := digits_value raw in
      if (seconds mod 86400 =? 0)%Z then plural (seconds / 86400) "day" "days"
      else if (seconds mod 3600 =? 0)%Z then plural (seconds / 3600) "hour" "hours"
      else if (seconds mod 60 =? 0)%Z then plural (seconds / 60) "minute" "min"
      else "every " +:+ pretty seconds +:+ " s"
  else
    match str_split text with
    | [m; h; "*"; "*"; "*"] =>
        if short_digits m && short_digits h && (digits_value m <? 60)%Z && (digits_value h <? 24)%Z
        then "daily at " +:+ padded 2 (digits_value h) +:+ ":" +:+ padded 2 (digits_value m)
        else "cron " +:+ text
    | _ => "cron " +:+ text
    end.

Definition _UNITS : list (string * Z) :=
  [("s", 1); ("sec", 1); ("secs", 1); ("second", 1); ("seconds", 1); ("m", 60); ("min", 60); ("mins", 60); ("minute", 60);
   ("minutes", 60); ("h", 3600); ("hr", 3600); ("hrs", 3600); ("hour", 3600); ("hours", 3600); ("d", 86400); ("day", 86400);
   ("days", 86400)]%Z.

Definition usage : string := "use 'every <n><s|m|h|d>', 'daily HH:MM' or 'cron <5 fields>'".

(** The leading digits of a text, and the rest. *)
Fixpoint span_digits (s : string) : string * string :=
  match s with
  | String c r => if is_digit c then let '(ds, rest) := span_digits r in (String c ds, rest) else ("", s)
  | EmptyString => ("", "")
  end.

(** [_AMOUNT], of a text whose unit is one of [_UNITS]: the seconds. *)
Definition amount_seconds (amount : string) : option Z :=
  let '(ds, rest) := span_digits amount in
  if str_truthy ds then (λ unit, (digits_value ds * unit)%Z) <$> od_get (lstrip rest) _UNITS else None.

(** [_CLOCK]: the hour and the minute. *)
Definition clock_time (text : string) : option (Z * Z) :=
  match split_first ":" text with
  | Some (h, m) =>
      if short_digits h && isdigit m && Nat.eqb (String.length m) 2 then Some (digits_value h, digits_value m) else None
  | None => None
  end.

Definition parse_schedule_words (words : list string) : res string :=
  match words with
  | [] => Raise (value_error usage)
  | kind :: rest =>
      let kind := str_lower kind in
      if String.eqb kind "every" then
        let amount := str_lower (str_strip (join " " rest)) in
        let amount := match od_get amount _UNITS with Some _ => "1 " +:+ amount | None => amount end in
        match amount_seconds amount with
        | None => Raise (value_error ("cannot read " +:+ py_repr amount +:+ ": " +:+ usage))
        | Some seconds => validate_schedule (_INTERVAL +:+ pretty seconds)
        end
      else if String.eqb kind "daily" then
        match clock_time (str_strip (join " " rest)) with
        | Some (h, m) =>
            if ((23 <? h) || (59 <? m))%Z then Raise (value_error ("daily needs a 24-hour time like 08:30: " +:+ usage))
            else validate_schedule (pretty m +:+ " " +:+ pretty h +:+ " * * *")
        | None => Raise (value_error ("daily needs a 24-hour time like 08:30: " +:+ usage))
        end
      else if String.eqb kind "cron" then validate_schedule (join " " rest)
      else Raise (value_error usage)
  end.

(** ** Diagnostics ([diagnostics.py]) *)

Record HeartbeatDiagnostic := {
  dg_name : string; dg_schedule : string; dg_reason : string; dg_detail : string; dg_last_status : option string;
  dg_last_finished_at : option Z }.
Definition dg_action (d : HeartbeatDiagnostic) : string := "evarness heartbeats trigger " +:+ dg_name d.

(** The run of a name that started last, the first of equals. *)
Fixpoint latest_from (best : option HeartbeatRun) (name : string) (runs : list HeartbeatRun) : option HeartbeatRun :=
  match runs with
  | [] => best
  | r :: runs =>
      latest_from
        (if String.eqb (hr_name r) name
            && match best with Some b => (hr_started_at b <? hr_started_at r)%Z | None => true end
         then Some r else best) name runs
  end.
Definition _finished_at (r : HeartbeatRun) : Z := default (hr_started_at r) (hr_finished_at r).

Definition _MIN_GRACE : Z := 15 * SECOND.
Definition _CRON_GRACE : Z := 2 * MINUTE.
(** [max(_MIN_GRACE, timedelta(seconds=max(5, int(seconds * 0.2))))]; [int(seconds * 0.2)] is a fifth, rounded down,
    for any number of seconds below 2^50. *)
Definition interval_grace (seconds : Z) : Z := Z.max _MIN_GRACE (Z.max 5 (seconds / 5) * SECOND).

(** The issue of one definition. *)
Definition issue (d : HeartbeatDefinition) (last : option HeartbeatRun) (reason detail : string) : HeartbeatDiagnostic :=
  {| dg_name := hd_name d; dg_schedule := hd_schedule d; dg_reason := reason; dg_detail := detail;
     dg_last_status := (λ r, hb_value (hr_status r)) <$> last; dg_last_finished_at := _finished_at <$> last |}.

Definition diagnose_schedule (d : HeartbeatDefinition) (last : option HeartbeatRun) (created_at now : Z) : option HeartbeatDiagnostic :=
  let anchor := match last with Some r => _finished_at r | None => created_at end in
  let schedule := str_strip (hd_schedule d) in
  if startswith _INTERVAL schedule then
    match interval_seconds schedule with
    | None => Some (issue d last "invalid_schedule" ("invalid interval schedule: " +:+ hd_schedule d))
    | Some seconds =>
        let elapsed := (now - anchor)%Z in
        if (seconds * SECOND + interval_grace seconds <? elapsed)%Z then
          Some (match last with
                | None => issue d last "never_ran" ("never ran after startup; expected every " +:+ pretty seconds +:+ "s")
                | Some _ => issue d last "overdue" ("overdue by " +:+ pretty (elapsed / SECOND)%Z +:+ "s; cadence is every "
                                                    +:+ pretty seconds +:+ "s")
                end)
        else None
    end
  else
    match from_crontab schedule with
    | inr _ => Some (issue d last "invalid_schedule" ("invalid cron schedule: " +:+ hd_schedule d))
    | inl fire =>
        match fire (Some anchor) anchor with
        | None => None
        | Some due =>
            if (due + _CRON_GRACE <? now)%Z then
              Some (match last with
                    | None => issue d last "never_ran" ("never ran; first due at " +:+ isoformat due)
                    | Some _ => issue d last "overdue" ("missed scheduled run due at " +:+ isoformat due)
                    end)
            else None
        end
    end.

Definition diagnose_one (runs : list HeartbeatRun) (created_at now : Z) (running : list string) (d : HeartbeatDefinition)
    : option HeartbeatDiagnostic :=
  if negb (hd_enabled d) then None
  else if str_in (hd_name d) running then None
  else
    let last := latest_from None (hd_name d) runs in
    match last with
    | Some r =>
        if bool_decide (hr_status r = hb_failed) then
          Some (issue d last "last_run_failed"
                  (if str_truthy (str_strip (hr_error r)) then "last run failed: " +:+ str_strip (hr_error r) else "last run failed"))
        else diagnose_schedule d last created_at now
    | None => diagnose_schedule d last created_at now
    end.
Definition diagnose_heartbeats (definitions : list HeartbeatDefinition) (runs : list HeartbeatRun) (created_at now : Z)
    (running : list string) : list HeartbeatDiagnostic :=
  omap (diagnose_one runs created_at now running) definitions.
End slots.

(** ** Words *)

Definition good_word (w : string) : Prop := str_truthy w = true ∧ str_all (λ c, negb (is_space c)) w = true.

Lemma words_from_good word s : str_all (λ c, negb (is_space c)) word = true → Forall good_word (words_from word s).
Proof.
  revert word. induction s as [|c s IH]; intros word Hw; cbn [words_from].
  - destruct (str_truthy word) eqn:E; repeat constructor; done.
  - destruct (is_space c) eqn:Hc.
    + destruct (str_truthy word) eqn:E; [constructor; [done|]|]; by apply IH.
    + apply IH. rewrite str_all_app, Hw. cbn. by rewrite Hc.
Qed.

Lemma words_from_word word x s : str_all (λ c, negb (is_space c)) x = true → words_from word (x +:+ s) = words_from (word +:+ x) s.
Proof.
  revert word. induction x as [|c x IH]; intros word Hx; [by rewrite string_app_nil_r|]. cbn [str_all] in Hx.
  apply andb_true_iff in Hx as [Hc%negb_true_iff Hx]. rewrite string_cons_app. cbn [words_from]. rewrite Hc, IH by done.
  by rewrite string_app_assoc.
Qed.

Lemma split_join_words ws : Forall good_word ws → str_split (join " " ws) = ws.
Proof.
  unfold str_split. induction ws as [|w ws IH]; intros H; [done|]. apply Forall_cons in H as [[Ht Hs] H].
  destruct ws as [|w' ws].
  - cbn [join]. rewrite <- (string_app_nil_r w), words_from_word, string_nil_app by done. cbn. rewrite string_app_nil_r. by rewrite Ht.
  - change (join " " (w :: w' :: ws)) with (w +:+ (" " +:+ join " " (w' :: ws))). rewrite words_from_word by done.
    rewrite string_nil_app. change (" " +:+ ?j) with (String " " j). cbn [words_from]. change (is_space " ") with true. cbn iota.
    rewrite Ht. f_equal. by apply IH.
Qed.

Lemma good_clean w s : good_word w → starts_clean (w +:+ s).
Proof. intros [Ht Hs]. destruct w as [|c w]; [done|]. cbn in *. by apply andb_true_iff in Hs as [?%negb_true_iff _]. Qed.

Lemma good_rev w : good_word w → good_word (String.rev w).
Proof.
  intros [Ht Hs]. split; [|by rewrite str_all_rev]. destruct w as [|c w]; [done|]. rewrite rev_cons. by destruct (String.rev w).
Qed.

Lemma join_cons w w' ws : join " " (w :: w' :: ws) = w +:+ (" " +:+ join " " (w' :: ws)).
Proof. done. Qed.

Lemma join_ends_clean ws : Forall good_word ws → ∀ s, ws ≠ [] → starts_clean (String.rev (join " " ws) +:+ s).
Proof.
  induction 1 as [|w ws Hw Hws IH]; intros s Hne; [done|]. destruct ws as [|w' ws].
  - cbn [join]. by apply good_clean, good_rev.
  - rewrite join_cons, rev_app, rev_app, string_app_assoc, string_app_assoc. by apply IH.
Qed.

Lemma strip_join ws : Forall good_word ws → str_strip (join " " ws) = join " " ws.
Proof.
  intros H. destruct ws as [|w ws]; [done|]. unfold str_strip. rewrite (lstrip_id (join " " (w :: ws))).
  - rewrite lstrip_id; [apply rev_rev|]. rewrite <- (string_app_nil_r (String.rev _)). by apply join_ends_clean.
  - apply Forall_cons in H as [Hw _]. destruct ws as [|w' ws]; [rewrite <- (string_app_nil_r (join _ _))|rewrite join_cons];
      by apply good_clean.
Qed.

Lemma strip_clean s : starts_clean (str_strip s).
Proof.
  unfold str_strip. pose proof (lstrip_clean s) as Hu. set (u := lstrip s) in *. destruct (lstrip_suffix (String.rev u)) as [w Hw].
  apply (f_equal String.rev) in Hw. rewrite rev_rev, rev_app in Hw. rewrite Hw in Hu. by destruct (String.rev (lstrip (String.rev u))).
Qed.

(** A text without space in front begins with its first word. *)
Lemma first_word c s : is_space c = false → ∃ w ws t, str_split (String c s) = w :: ws ∧ String c s = w +:+ t.
Proof.
  intros Hc. unfold str_split. cbn [words_from]. rewrite Hc. change ("" +:+ ?x) with x.
  assert (∀ s w, str_truthy w = true → ∃ w' ws t, words_from w s = w' :: ws ∧ w +:+ s = w' +:+ t) as H.
  { clear. induction s as [|c s IH]; intros w Hw; cbn [words_from].
    - rewrite Hw. eexists _, _, "". by split; [done|].
    - destruct (is_space c); [rewrite Hw; eauto|]. destruct (IH (w +:+ String c "")) as (w' & ws & t & E & Et); [by destruct w|].
      exists w', ws, t. split; [done|]. rewrite <- Et, string_app_assoc. done. }
  destruct (H s (String c "")) as (w & ws & t & E & Et); [done|]. eauto.
Qed.

(** A prefix without spaces is in the first word. *)
Lemma prefix_of_word p w c s : str_all (λ c, negb (is_space c)) p = true → is_space c = true →
  startswith p (w +:+ String c s) = true → startswith p w = true.
Proof.
  intros Hp Hc. unfold startswith. revert w. induction p as [|a p IH]; intros w H; [by destruct w|]. cbn in Hp.
  apply andb_true_iff in Hp as [Ha Hp]. destruct w as [|b w]; cbn in H |- *.
  - rewrite string_nil_app in H. cbn in H. destruct (Ascii.ascii_dec a c) as [->|]; [by rewrite Hc in Ha|done].
  - rewrite string_cons_app in H. cbn in H. destruct (Ascii.ascii_dec a b); [by apply IH|done].
Qed.

(** ** Schedules *)

Section schedules.
Context (from_crontab : string → Trigger + string).

Lemma validate_interval n : (MIN_INTERVAL_SECONDS ≤ n)%Z → validate_schedule from_crontab (_INTERVAL +:+ pretty n) = Ok (_INTERVAL +:+ pretty n).
Proof using Type.
  intros Hn. unfold MIN_INTERVAL_SECONDS in Hn. destruct n as [|p|p]; [lia| |lia]. destruct (int_of_pretty (N.pos p)) as [Hd Hi].
  change (pretty (Z.pos p)) with (pretty (N.pos p)) in *. unfold validate_schedule.
  assert (str_strip (_INTERVAL +:+ pretty (N.pos p)) = _INTERVAL +:+ pretty (N.pos p)) as ->.
  { apply str_strip_no_space. rewrite str_all_app. apply andb_true_iff. split; [done|]. unfold isdigit in Hd.
    apply andb_true_iff in Hd as [_ Hd]. eapply str_all_weaken; [|exact Hd]. intros c Hc. apply negb_true_iff. by apply digit_no_space. }
  assert (startswith _INTERVAL (_INTERVAL +:+ pretty (N.pos p)) = true) as -> by (apply prefix_spec; eauto).
  change (str_drop 9 (_INTERVAL +:+ pretty (N.pos p))) with (pretty (N.pos p)).
  assert (str_strip (pretty (N.pos p)) = pretty (N.pos p)) as ->.
  { unfold isdigit in Hd. apply andb_true_iff in Hd as [_ Hd]. by apply digits_strip. }
  rewrite Hd. cbn [negb]. rewrite Hi. cbn [res_bind]. unfold MIN_INTERVAL_SECONDS. rewrite (proj2 (Z.ltb_ge _ _)) by lia. done.
Qed.

(** What [from_crontab] reads is the fields between whitespace. *)
Hypothesis reads_fields : ∀ s, from_crontab (join " " (str_split s)) = from_crontab s.

Lemma validate_schedule_idem s t : validate_schedule from_crontab s = Ok t → validate_schedule from_crontab t = Ok t.
Proof using reads_fields.
  unfold validate_schedule at 1. destruct (startswith _INTERVAL (str_strip s)) eqn:Hi.
  - destruct (isdigit _) eqn:Hd; [cbn [negb]|done]. destruct (int_of_digits _) as [n|]; [cbn [res_bind]|done].
    destruct (n <? MIN_INTERVAL_SECONDS)%Z eqn:Hm; [done|]. intros [= <-]. apply validate_interval. lia.
  - destruct (Nat.eqb _ 5) eqn:H5; [cbn [negb]|done]. destruct (from_crontab (str_strip s)) as [fire|] eqn:Hf; [|done]. intros [= <-].
    pose proof (words_from_good "" (str_strip s) eq_refl) as Hg. change (words_from "" ?x) with (str_split x) in Hg.
    unfold validate_schedule. rewrite strip_join, split_join_words, H5, reads_fields, Hf by done. cbn [negb].
    destruct (startswith _INTERVAL (join " " (str_split (str_strip s)))) eqn:Hj; [|done]. exfalso.
    destruct (str_strip s) as [|c x] eqn:Es; [done|].
    assert (is_space c = false) as Hc.
    { pose proof (strip_clean s) as H. by rewrite Es in H. }
    destruct (first_word c x Hc) as (w & ws & t & Hws & Ht). rewrite Hws in Hj, H5.
    destruct ws as [|w' ws]; [done|]. rewrite join_cons in Hj. apply prefix_of_word in Hj; [|done..].
    rewrite Ht in Hi. apply prefix_spec in Hj as [y ->]. rewrite string_app_assoc in Hi.
    by rewrite (proj2 (prefix_spec _ _)) in Hi by eauto.
Qed.
End schedules.

(** ** Triggers and slots *)

(** The times a trigger fires at, and what a cron trigger owes: the next one at or after a time, all
    at whole seconds. *)
Definition fires (fire : Trigger) (t : Z) : Prop := fire None t = Some t.
Class CronLaws (fire : Trigger) : Prop := {
  fire_next c x : fire None c = Some x → (c ≤ x)%Z ∧ fires fire x ∧ ∀ y, (c ≤ y < x)%Z → ¬ fires fire y;
  fire_none c : fire None c = None → ∀ y, (c ≤ y)%Z → ¬ fires fire y;
  fire_whole t : fires fire t → (t mod SECOND = 0)%Z }.

Section triggers.
Context (fire : Trigger) `{!CronLaws fire}.

Record exact_slots (n : nat) (start end_ : Z) (l : list Z) : Prop := {
  es_sorted : StronglySorted Z.lt l;
  es_within : ∀ x, x ∈ l → (start ≤ x < end_)%Z ∧ fires fire x;
  es_length : length l <= n;
  es_complete : ∀ y, (start ≤ y < end_)%Z → fires fire y → y ∈ l ∨ (length l = n ∧ ∀ x, x ∈ l → (x < y)%Z) }.

Lemma slots_from_exact n start end_ : exact_slots n start end_ (slots_from n fire start end_).
Proof using All.
  revert start. induction n as [|n IH]; intros start; cbn [slots_from].
  - split; [constructor|by intros ? ?%elem_of_nil|done|]. intros y _ _. right. split; [done|by intros ? ?%elem_of_nil].
  - destruct (fire None start) as [x|] eqn:E.
    2: { split; [constructor|by intros ? ?%elem_of_nil|cbn; lia|]. intros y Hy Hf. by destruct (fire_none start E y ltac:(lia)). }
    destruct (fire_next start x E) as (Hle & Hx & Hleast). destruct (end_ <=? x)%Z eqn:He.
    { split; [constructor|by intros ? ?%elem_of_nil|cbn; lia|]. intros y Hy Hf. destruct (Hleast y ltac:(lia) Hf). }
    destruct (IH (x + SECOND)%Z) as [Hs Hw Hl Hc]. split.
    + constructor; [done|]. apply Forall_forall. intros y Hy. apply Hw in Hy as [Hy _]. unfold SECOND in Hy. lia.
    + intros y [->|Hy]%elem_of_cons; [split; [lia|done]|]. apply Hw in Hy as [Hy Hf]. unfold SECOND in Hy. split; [lia|done].
    + cbn. lia.
    + intros y Hy Hf. destruct (decide (y = x)) as [->|Hne]; [left; left|].
      assert (x + SECOND ≤ y)%Z as Hge.
      { assert (x < y)%Z by (destruct (decide (y < x)%Z); [by destruct (Hleast y ltac:(lia) Hf)|lia]).
        pose proof (fire_whole x Hx) as H1. pose proof (fire_whole y Hf) as H2.
        apply Z.div_exact in H1; [|done]. apply Z.div_exact in H2; [|done]. unfold SECOND in *. nia. }
      destruct (Hc y ltac:(lia) Hf) as [Hin|[Hlen Hall]]; [left; by right|right].
      split; [cbn; lia|]. intros z [->|Hz]%elem_of_cons; [unfold SECOND in Hge; lia|by apply Hall].
Qed.
End triggers.

Lemma last_items_sublist {A} n (l : list A) : ∃ k, last_items n l = drop k l.
Proof. unfold last_items. eauto. Qed.

Lemma sorted_drop (l : list Z) k : StronglySorted Z.lt l → StronglySorted Z.lt (drop k l).
Proof.
  intros H. revert k. induction H as [|x l Hs IH Hx]; intros [|k]; [constructor..|by constructor|]. apply IH.
Qed.

(** ** The kept runs *)

Lemma elem_of_newest r l : r ∈ newest_first l ↔ r ∈ l.
Proof. unfold newest_first. by rewrite elem_of_reverse, elem_of_sort_by. Qed.

Lemma elem_of_recent s name since until_ status limit r :
  r ∈ recent s name since until_ status limit → r ∈ rs_rows s ∧ matches name since until_ status r = true.
Proof.
  unfold recent. intros H. apply elem_of_select_where, elem_of_newest. destruct (0 <? limit)%Z; [|done].
  apply list_elem_of_lookup in H as [i Hi]. apply lookup_take_Some in Hi as [Hi _]. by eapply list_elem_of_lookup_2.
Qed.

Lemma recent_nil s name since until_ status limit :
  recent s name since until_ status limit = [] ↔ ∀ r, r ∈ rs_rows s → matches name since until_ status r = false.
Proof.
  split.
  - intros H r Hr. destruct (matches _ _ _ _ r) eqn:E; [|done]. exfalso.
    assert (newest_first (select_where (matches name since until_ status) (rs_rows s)) = []) as Hn.
    { unfold recent in H. destruct (0 <? limit)%Z eqn:Hl; [|done]. destruct (newest_first _); [done|]. by destruct (Z.to_nat limit) eqn:?; [lia|]. }
    assert (r ∈ newest_first (select_where (matches name since until_ status) (rs_rows s))) as Hin.
    { apply elem_of_newest, elem_of_select_where. done. }
    rewrite Hn in Hin. by apply elem_of_nil in Hin.
  - intros H. destruct (recent _ _ _ _ _ _) as [|r l] eqn:E; [done|]. exfalso.
    destruct (elem_of_recent s name since until_ status limit r) as [Hr Hm]; [rewrite E; left|]. by rewrite H in Hm.
Qed.

Lemma matches_since name since until_ r : str_truthy name = true →
  matches (Some name) (Some since) until_ None r = true ↔
  sr_name r = name ∧ (since ≤ sr_started_at r)%Z ∧ ∀ u, until_ = Some u → (sr_started_at r < u)%Z.
Proof.
  intros Hn. unfold matches. rewrite Hn, andb_true_r, !andb_true_iff, String.eqb_eq, Z.leb_le. split.
  - intros [[? ?] Hu]. split; [done|]. split; [done|]. intros u ->. by apply Z.ltb_lt.
  - intros (? & ? & Hu). split; [done|]. destruct until_ as [u|]; [|done]. apply Z.ltb_lt. by apply Hu.
Qed.

(** No run of a job is kept that started at [t] or later. *)
Definition none_since (s : RunStore) (name : string) (t : Z) : Prop := ∀ r, r ∈ rs_rows s → sr_name r = name → (sr_started_at r < t)%Z.

Lemma none_since_window s name since until_ limit : str_truthy name = true →
  recent s (Some name) (Some since) until_ None limit = [] → (∀ u, until_ = Some u → none_since s name u) → none_since s name since.
Proof.
  intros Hn H Hu r Hr <-. rewrite recent_nil in H. specialize (H r Hr). destruct (decide (sr_started_at r < since)%Z) as [|Hge]; [done|].
  exfalso. apply not_true_iff_false in H. apply H. apply matches_since; [done|]. split; [done|]. split; [lia|]. intros u ->. by apply (Hu u).
Qed.

(** ** The verdict on a job's slots *)

Section verdict.
Context (from_crontab : string → Trigger + string) (utcoffset : Z → Z).

(** The slot a job is reported to have missed: no run since, and due for longer than the grace; no
    newer slot is. *)
Definition missed_slot (d : HeartbeatDefinition) (store : RunStore) (now grace : Z) (slots : list Z) (slot : Z) : Prop :=
  slot ∈ slots ∧ (slot + grace ≤ now)%Z ∧ (∀ s, s ∈ slots → (slot < s)%Z → (now < s + grace)%Z) ∧
  (∀ t, first_seen store (hd_name d) = Some t → (t - _TOLERANCE ≤ slot)%Z) ∧ none_since store (hd_name d) (slot - _TOLERANCE)%Z.

(** What decides a green verdict: a success in the window of a slot, and no run in those of the
    newer slots, which are still inside the grace. *)
Definition ran_slot (d : HeartbeatDefinition) (store : RunStore) (now grace : Z) (slots : list Z) (slot : Z) : Prop :=
  slot ∈ slots ∧ ∃ r, r ∈ rs_rows store ∧ sr_name r = hd_name d ∧ sr_ok r = true ∧ (slot - _TOLERANCE ≤ sr_started_at r)%Z ∧
    ∀ s, s ∈ slots → (slot < s)%Z → (sr_started_at r < s - _TOLERANCE)%Z ∧ (now < s + grace)%Z ∧ none_since store (hd_name d) (s - _TOLERANCE)%Z.

Lemma upcoming_grey d now co : js_missed (upcoming_status from_crontab utcoffset d now co) = false ∧
  js_state (upcoming_status from_crontab utcoffset d now co) = GREY.
Proof using Type. unfold upcoming_status. by destruct (_next_slot _ _ _). Qed.

Lemma verdict_not_missed job slot r rs now words co : js_missed (_verdict utcoffset job slot r rs now words co) = false.
Proof using Type. unfold _verdict. destruct (List.find _ _); [done|]. by destruct (String.eqb _ _). Qed.

Lemma judge_missed d store now grace co slots until_ : str_truthy (hd_name d) = true → StronglySorted (λ x y, (y < x)%Z) slots →
  (∀ u, until_ = Some u → none_since store (hd_name d) u) →
  js_missed (judge from_crontab utcoffset d store now grace co until_ slots) = true ↔ ∃ slot, missed_slot d store now grace slots slot.
Proof using Type.
  intros Hn Hs. revert until_. induction Hs as [|slot older Hs IH Hall]; intros until_ Hu; cbn [judge].
  { rewrite (proj1 (upcoming_grey d now co)). split; [done|]. intros (s & Hin & _). by apply elem_of_nil in Hin. }
  rewrite Forall_forall in Hall. destruct (recent _ _ _ _ _ _) as [|r rs] eqn:Hrec.
  - pose proof (none_since_window store (hd_name d) _ until_ 50 Hn Hrec Hu) as Hnone.
    destruct (match first_seen store (hd_name d) with Some t => (slot <? t - _TOLERANCE)%Z | None => false end) eqn:Hfs.
    { rewrite (proj1 (upcoming_grey d now co)). split; [done|]. intros (s & Hin & _ & _ & Hfirst & _).
      destruct (first_seen store (hd_name d)) as [t|]; [|done]. specialize (Hfirst t eq_refl). apply Z.ltb_lt in Hfs.
      apply elem_of_cons in Hin as [->|Hin]; [lia|]. specialize (Hall s Hin). lia. }
    destruct (slot + grace <=? now)%Z eqn:Hg; cbn [js_missed job_status_of].
    { split; [|done]. intros _. exists slot. split; [left|]. split; [lia|]. split.
      - intros s [->|Hin]%elem_of_cons; [lia|]. specialize (Hall s Hin). lia.
      - split; [|done]. intros t Ht. rewrite Ht in Hfs. lia. }
    rewrite (IH (Some (slot - _TOLERANCE)%Z)) by (intros u Hu'; by simplify_eq). split; intros (s & Hin & Hgr & Hnew & Hfirst & Hsince).
    + exists s. split; [by right|]. split; [done|]. split; [|done]. intros s' [->|Hs']%elem_of_cons; [lia|by apply Hnew].
    + exists s. apply elem_of_cons in Hin as [->|Hin]; [lia|]. split; [done|]. split; [done|]. split; [|done].
      intros s' Hs'. apply Hnew. by right.
  - rewrite verdict_not_missed. split; [done|]. intros (s & Hin & _ & _ & _ & Hsince).
    destruct (elem_of_recent store (Some (hd_name d)) (Some (slot - _TOLERANCE)%Z) until_ None 50 r) as [Hr Hm]; [rewrite Hrec; left|].
    apply matches_since in Hm as (Hname & Hge & _); [|done]. specialize (Hsince r Hr Hname).
    apply elem_of_cons in Hin as [->|Hin]; [lia|]. specialize (Hall s Hin). lia.
Qed.

Lemma judge_green d store now grace co slots until_ : str_truthy (hd_name d) = true → StronglySorted (λ x y, (y < x)%Z) slots →
  (∀ u, until_ = Some u → none_since store (hd_name d) u) →
  js_state (judge from_crontab utcoffset d store now grace co until_ slots) = GREEN → ∃ slot, ran_slot d store now grace slots slot.
Proof using Type.
  intros Hn Hs. revert until_. induction Hs as [|slot older Hs IH Hall]; intros until_ Hu; cbn [judge].
  { intros H. by rewrite (proj2 (upcoming_grey d now co)) in H. }
  rewrite Forall_forall in Hall. destruct (recent _ _ _ _ _ _) as [|r rs] eqn:Hrec.
  - pose proof (none_since_window store (hd_name d) _ until_ 50 Hn Hrec Hu) as Hnone.
    destruct (match first_seen store (hd_name d) with Some t => (slot <? t - _TOLERANCE)%Z | None => false end) eqn:Hfs.
    { intros H. by rewrite (proj2 (upcoming_grey d now co)) in H. }
    destruct (slot + grace <=? now)%Z eqn:Hg; [done|]. intros Hgreen.
    destruct (IH (Some (slot - _TOLERANCE)%Z) ltac:(intros u Hu'; by simplify_eq) Hgreen) as (s & Hin & q & Hq & Hname & Hok & Hge & Hnew).
    exists s. split; [by right|]. exists q. split_and!; try done. intros s' [->|Hs']%elem_of_cons; [|by apply Hnew].
    intros _. split; [by apply Hnone|]. split; [lia|done].
  - intros Hgreen. unfold _verdict in Hgreen. destruct (List.find sr_ok (r :: rs)) as [q|] eqn:Hf; [|by destruct (String.eqb _ _)].
    apply select_one_Some in Hf as [Hq Hok].
    destruct (elem_of_recent store (Some (hd_name d)) (Some (slot - _TOLERANCE)%Z) until_ None 50 q) as [Hr Hm]; [by rewrite Hrec|].
    apply matches_since in Hm as (Hname & Hge & _); [|done]. exists slot. split; [left|]. exists q. split_and!; try done.
    intros s [->|Hin]%elem_of_cons Hlt; [lia|]. specialize (Hall s Hin). lia.
Qed.

Lemma reverse_sorted (l : list Z) : StronglySorted Z.lt l → StronglySorted (λ x y, (y < x)%Z) (reverse l).
Proof using Type.
  induction 1 as [|x l Hs IH Hx]; [constructor|]. rewrite reverse_cons. rewrite Forall_forall in Hx.
  assert (∀ y, y ∈ reverse l → (x < y)%Z) as Hr by (intros y Hy; apply Hx; by apply elem_of_reverse).
  clear Hs Hx.
  induction (reverse l) as [|y r IHr]; cbn; [repeat constructor|]. apply StronglySorted_inv in IH as [Hs Hy]. constructor.
  - apply IHr; [done|]. intros z Hz. apply Hr. by right.
  - apply Forall_app. split; [done|]. constructor; [|done]. apply Hr. left.
Qed.

Lemma missed_slot_reverse d store now grace slots slot :
  missed_slot d store now grace (reverse slots) slot ↔ missed_slot d store now grace slots slot.
Proof using Type. unfold missed_slot. by setoid_rewrite elem_of_reverse. Qed.

Context (d : HeartbeatDefinition) (fire : Trigger).
Hypothesis laws : CronLaws fire.
Hypothesis cron : cron_trigger from_crontab (hd_schedule d) = Some fire.
Hypothesis enabled : hd_enabled d = true.
Hypothesis named : str_truthy (hd_name d) = true.

Lemma not_interval : interval_seconds (hd_schedule d) = None.
Proof using cron. unfold interval_seconds. unfold cron_trigger in cron. by destruct (startswith _ _). Qed.

Lemma recent_slots_sorted now n : StronglySorted Z.lt (recent_slots from_crontab (hd_schedule d) now n).
Proof using cron laws.
  unfold recent_slots, last_items. apply sorted_drop. unfold slots_between. rewrite cron. eapply es_sorted, slots_from_exact, laws.
Qed.

Lemma evaluate_judged store now grace name :
  (evaluate_job from_crontab utcoffset (Some d) store now grace None name =
     judge from_crontab utcoffset d store now grace (common_of store (hd_name d)) None
       (reverse (recent_slots from_crontab (hd_schedule d) now 3))) ∨
  (recent_slots from_crontab (hd_schedule d) now 3 = [] ∧
   js_missed (evaluate_job from_crontab utcoffset (Some d) store now grace None name) = false ∧
   js_state (evaluate_job from_crontab utcoffset (Some d) store now grace None name) = GREY).
Proof using cron enabled.
  cbn [evaluate_job]. rewrite enabled. cbn [negb]. unfold evaluate_scheduled. rewrite not_interval, cron.
  destruct (recent_slots _ _ _ _); [right|by left]. split; [done|]. done.
Qed.

(** The last [n] times a trigger fired in the eight days up to [now]. *)
Record last_fires (n : nat) (now : Z) (slots : list Z) : Prop := {
  lf_sorted : StronglySorted Z.lt slots;
  lf_within : ∀ x, x ∈ slots → (now - _LOOKBACK ≤ x ≤ now)%Z ∧ fires fire x;
  lf_length : length slots <= n;
  lf_last : ∀ y, (now - _LOOKBACK ≤ y ≤ now)%Z → fires fire y → y ∈ slots ∨ (length slots = n ∧ ∀ x, x ∈ slots → (y < x)%Z) }.

Lemma sorted_app_lt (l1 l2 : list Z) x y : StronglySorted Z.lt (l1 ++ l2) → x ∈ l1 → y ∈ l2 → (x < y)%Z.
Proof using Type.
  induction l1 as [|z l1 IH]; cbn; intros H Hx Hy; [by apply elem_of_nil in Hx|]. apply StronglySorted_inv in H as [Hs Hz].
  apply elem_of_cons in Hx as [->|Hx]; [|by apply IH]. rewrite Forall_forall in Hz. apply Hz, elem_of_app. by right.
Qed.

Lemma recent_slots_last now n : length (slots_between from_crontab (hd_schedule d) (now - _LOOKBACK) (now + 1)) < _MAX_SLOTS →
  last_fires n now (recent_slots from_crontab (hd_schedule d) now n).
Proof using cron laws.
  unfold recent_slots, slots_between. rewrite cron. intros Hlen.
  destruct (slots_from_exact fire _MAX_SLOTS (now - _LOOKBACK) (now + 1)) as [Hs Hw Hl Hc].
  set (l := slots_from _MAX_SLOTS fire (now - _LOOKBACK) (now + 1)) in *. unfold last_items. split.
  - by apply sorted_drop.
  - intros x Hx. apply list_elem_of_lookup in Hx as [i Hi]. rewrite lookup_drop in Hi.
    destruct (Hw x) as [? ?]; [by eapply list_elem_of_lookup_2|]. split; [lia|done].
  - rewrite length_drop. lia.
  - intros y Hy Hf. destruct (Hc y ltac:(lia) Hf) as [Hin|[He _]]; [|lia].
    rewrite <- (take_drop (length l - n) l) in Hin, Hs. apply elem_of_app in Hin as [Hin|Hin]; [|by left]. right. split.
    + rewrite length_drop. destruct (decide (length l <= n)); [|lia].
      replace (length l - n) with 0 in Hin by lia. by apply elem_of_nil in Hin.
    + intros x Hx. by eapply sorted_app_lt.
Qed.
End verdict.

(** The same, over the times the schedule fired at. *)
Definition fired (fire : Trigger) (now t : Z) : Prop := (now - _LOOKBACK ≤ t ≤ now)%Z ∧ fires fire t.
Definition missed_fire (fire : Trigger) (d : HeartbeatDefinition) (store : RunStore) (now grace t : Z) : Prop :=
  fired fire now t ∧ (t + grace ≤ now)%Z ∧ (∀ s, fired fire now s → (t < s)%Z → (now < s + grace)%Z) ∧
  (∀ known, first_seen store (hd_name d) = Some known → (known - _TOLERANCE ≤ t)%Z) ∧
  none_since store (hd_name d) (t - _TOLERANCE)%Z.
Definition ran_fire (fire : Trigger) (d : HeartbeatDefinition) (store : RunStore) (now grace t : Z) : Prop :=
  fired fire now t ∧ ∃ r, r ∈ rs_rows store ∧ sr_name r = hd_name d ∧ sr_ok r = true ∧ (t - _TOLERANCE ≤ sr_started_at r)%Z ∧
    ∀ s, fired fire now s → (t < s)%Z →
      (sr_started_at r < s - _TOLERANCE)%Z ∧ (now < s + grace)%Z ∧ none_since store (hd_name d) (s - _TOLERANCE)%Z.

(** A schedule that fires at most twice within the grace. *)
Definition few_in_grace (fire : Trigger) (now grace : Z) : Prop :=
  ∀ x y z, fired fire now x → fired fire now y → fired fire now z → (now < x + grace)%Z → (x < y < z)%Z → False.

Lemma last_fires_newer fire now slots t s : last_fires fire 3 now slots → t ∈ slots → fired fire now s → (t < s)%Z → s ∈ slots.
Proof. intros [_ _ _ Hl] Ht [Hs Hf] Hlt. destruct (Hl s Hs Hf) as [|[_ Hall]]; [done|]. specialize (Hall t Ht). lia. Qed.

Lemma missed_slot_fire fire d store now grace slots t :
  last_fires fire 3 now slots → few_in_grace fire now grace →
  missed_slot d store now grace slots t ↔ missed_fire fire d store now grace t.
Proof.
  intros Hl Hfew. split.
  - intros (Ht & Ho & Hn & Hk & Hr). split_and!; [by apply (lf_within _ _ _ _ Hl)|done| |done|done].
    intros s Hs Hlt. apply Hn; [by eapply last_fires_newer|done].
  - intros (Ht & Ho & Hn & Hk & Hr). split_and!; [|done| |done|done].
    + destruct (lf_last _ _ _ _ Hl t (proj1 Ht) (proj2 Ht)) as [|[Hlen Hall]]; [done|]. exfalso.
      pose proof (lf_sorted _ _ _ _ Hl) as Hs. pose proof (lf_within _ _ _ _ Hl) as Hw.
      destruct slots as [|x [|y [|z []]]]; try done.
      apply StronglySorted_inv in Hs as [Hs Hx]. apply StronglySorted_inv in Hs as [_ Hy].
      rewrite Forall_forall in Hx. rewrite Forall_forall in Hy.
      assert (x < y)%Z by (apply Hx; left). assert (y < z)%Z by (apply Hy; left).
      apply (Hfew x y z); [apply Hw; left|apply Hw; right; left|apply Hw; right; right; left| |done].
      apply Hn; [apply Hw; left|apply Hall; left].
    + intros s Hs. apply Hn. by apply (lf_within _ _ _ _ Hl).
Qed.

(** C27. What the verdict on a scheduled job means ([evaluate_job], for an enabled and available cron
    job whose schedule fires at most twice within the grace and fewer than 5,000 times in eight days).
    The job is reported missed exactly when some time its schedule fired at in these days is older
    than the grace, is not before the job was first known (less a minute), no run of the job is kept
    from a minute before it on, and every later time it fired is still inside the grace. It is
    reported green only when a kept run of it succeeded from a minute before such a time on and before
    the next, and no run is kept for the later times, which are inside the grace.  A schedule that fires
    more often is judged by its last three times only ([frequent_job_never_missed] below). *)
Theorem job_verdict from_crontab utcoffset (d : HeartbeatDefinition) (fire : Trigger) (laws : CronLaws fire) store now grace name :
  cron_trigger from_crontab (hd_schedule d) = Some fire → hd_enabled d = true → str_truthy (hd_name d) = true →
  length (slots_between from_crontab (hd_schedule d) (now - _LOOKBACK) (now + 1)) < _MAX_SLOTS →
  few_in_grace fire now grace →
  let j := evaluate_job from_crontab utcoffset (Some d) store now grace None name in
  (js_missed j = true ↔ ∃ t, missed_fire fire d store now grace t) ∧
  (js_state j = GREEN → ∃ t, ran_fire fire d store now grace t).
Proof.
  intros Hcron He Hn Hlen Hfew j. set (slots := recent_slots from_crontab (hd_schedule d) now 3).
  assert (last_fires fire 3 now slots) as Hl by (by eapply recent_slots_last).
  pose proof (reverse_sorted slots (recent_slots_sorted from_crontab d fire laws Hcron now 3)) as Hs.
  assert ((js_missed j = true ↔ ∃ t, missed_slot d store now grace slots t) ∧
          (js_state j = GREEN → ∃ t, ran_slot d store now grace slots t)) as [Hm Hg].
  { destruct (evaluate_judged from_crontab utcoffset d fire Hcron He store now grace name) as [E|(Hnil & Hm & Hg)].
    - unfold j. rewrite E. split.
      + etrans; [by apply (judge_missed from_crontab utcoffset d store now grace _ _ None Hn Hs)|]. by setoid_rewrite missed_slot_reverse.
      + intros Hj. apply (judge_green from_crontab utcoffset d store now grace _ _ None Hn Hs) in Hj as (slot & Hin & r & Hr); [|done]. exists slot. unfold ran_slot.
        setoid_rewrite elem_of_reverse in Hr. setoid_rewrite elem_of_reverse in Hin. eauto.
    - unfold j. rewrite Hm, Hg. fold slots in Hnil. rewrite Hnil. split; [|done]. split; [done|].
      intros (slot & Hin & _). by apply elem_of_nil in Hin. }
  split.
  - rewrite Hm. split; intros [t Ht]; exists t; by apply (missed_slot_fire fire d store now grace slots t Hl Hfew).
  - intros (t & Ht & r & Hr & Hrn & Hok & Hst & Hnew)%Hg. exists t. split; [by apply (lf_within _ _ _ _ Hl)|].
    exists r. split_and!; [done..|]. intros s Hs' Hlt. apply Hnew; [by eapply last_fires_newer|done].
Qed.

(** A cron of every [k] minutes, and a reader of a few of them. *)
Definition every (k : Z) : Trigger := λ _ now, Some ((now + k * MINUTE - 1) / (k * MINUTE) * (k * MINUTE))%Z.

Lemma every_fires k t : (0 < k)%Z → fires (every k) t ↔ (t mod (k * MINUTE) = 0)%Z.
Proof.
  intros Hk. unfold fires, every. set (m := (k * MINUTE)%Z). assert (0 < m)%Z by (unfold m, MINUTE, SECOND; lia).
  pose proof (Z.div_mod t m). pose proof (Z.mod_pos_bound t m). split.
  - intros [= He]. rewrite <- He. apply Z.mod_mul. lia.
  - intros Hz. f_equal. replace (t + m - 1)%Z with (t / m * m + (m - 1))%Z by lia.
    rewrite Z.div_add_l by lia. rewrite (Z.div_small (m - 1)) by lia. lia.
Qed.

#[export] Instance every_laws k : (0 < k)%Z → CronLaws (every k).
Proof.
  intros Hk. set (m := (k * MINUTE)%Z). assert (0 < m)%Z by (unfold m, MINUTE, SECOND; lia). split.
  - intros c x Hx. assert (x = (c + m - 1) / m * m)%Z as Ex by (unfold every in Hx; by injection Hx).
    pose proof (Z.div_mod (c + m - 1) m ltac:(lia)). pose proof (Z.mod_pos_bound (c + m - 1) m ltac:(lia)).
    split; [nia|]. split; [apply every_fires; [done|]; fold m; rewrite Ex; apply Z.mod_mul; lia|].
    intros y Hy Hf. apply every_fires in Hf; [|done]. fold m in Hf. apply Z.div_exact in Hf; [|lia].
    set (q := ((c + m - 1) / m)%Z) in *. set (p := (y / m)%Z) in *. assert (p < q)%Z by nia. nia.
  - done.
  - intros t Ht. apply every_fires in Ht; [|done]. unfold MINUTE in Ht. apply Z.div_exact in Ht; [|unfold SECOND; lia].
    rewrite Ht. replace (k * (60 * SECOND))%Z with (k * 60 * SECOND)%Z by lia. rewrite <- Z.mul_assoc, (Z.mul_comm _ (t / _)), !Z.mul_assoc.
    by apply Z.mod_mul.
Qed.

Definition sample_crontab (s : string) : Trigger + string :=
  match str_split s with
  | ["*"; "*"; "*"; "*"; "*"] => inl (every 1)
  | ["*/10"; "*"; "*"; "*"; "*"] => inl (every 10)
  | ["0"; "*/6"; "*"; "*"; "*"] => inl (every 360)
  | _ => inr "Unrecognized expression"
  end.
Definition utc : Z → Z := λ _, 0%Z.

Definition sample_job (schedule : string) : HeartbeatDefinition :=
  {| hd_name := "sweep"; hd_handler := "sweep"; hd_schedule := schedule; hd_enabled := true; hd_description := ""; hd_params := [];
     hd_platforms := []; hd_record_runs := None; hd_retry_after := None; hd_plugin := "" |}.
Definition sample_run (status : HeartbeatStatus) (at_ : Z) : HeartbeatRun :=
  {| hr_name := "sweep"; hr_status := status; hr_started_at := at_; hr_finished_at := Some (at_ + SECOND)%Z; hr_output := "12 new" +:+ String "010" "more";
     hr_error := ""; hr_result := []; hr_trigger := "schedule"; hr_already_running := false |}.
(** A store in which the job ran at these times, known since the first day. *)
Definition sample_store (times : list Z) : RunStore :=
  fold_left (λ s t, insert_run (sample_run hb_success t) (Some t) s) times
    {| rs_rows := []; rs_jobs := [("sweep", 0%Z)]; rs_next := 1; rs_writes := 0; rs_retention_days := 30 |}.
Definition HOUR : Z := (60 * MINUTE)%Z.

Definition missed_status : JobStatus :=
  evaluate_job sample_crontab utc (Some (sample_job "0 */6 * * *")) (sample_store [20 * DAY; 20 * DAY + 6 * HOUR]%Z) (20 * DAY + 13 * HOUR)
    (30 * MINUTE) None None.

Lemma every_few k now grace : (0 < k)%Z → (grace ≤ k * MINUTE)%Z → few_in_grace (every k) now grace.
Proof.
  intros Hk Hg x y z [_ Hx] [[_ Hny] Hy] _ Hn [Hxy _]. apply every_fires in Hx, Hy; [|done..].
  set (m := (k * MINUTE)%Z) in *. assert (0 < m)%Z by (unfold m, MINUTE, SECOND; lia).
  apply Z.div_exact in Hx, Hy; [|lia..]. set (p := (x / m)%Z) in *. set (q := (y / m)%Z) in *. assert (p < q)%Z by nia. nia.
Qed.

Lemma job_verdict_witness :
  js_missed missed_status = true ∧ js_state missed_status = RED ∧ js_detail missed_status = "Missed 12:00 — last success 06:00" ∧
  ∃ t, missed_fire (every 360) (sample_job "0 */6 * * *") (sample_store [20 * DAY; 20 * DAY + 6 * HOUR]%Z) (20 * DAY + 13 * HOUR) (30 * MINUTE) t.
Proof.
  split; [by vm_compute|]. split; [by vm_compute|]. split; [by vm_compute|].
  eapply (job_verdict sample_crontab utc (sample_job "0 */6 * * *") (every 360) (every_laws 360 ltac:(lia))
    (sample_store [20 * DAY; 20 * DAY + 6 * HOUR]%Z) (20 * DAY + 13 * HOUR) (30 * MINUTE) None); [reflexivity..| | |vm_compute; reflexivity].
  - vm_compute. lia.
  - apply every_few; vm_compute; [reflexivity|discriminate].
Defined.

(** A job of every ten minutes that last ran a day ago is not reported: its last three slots are all
    inside a grace of half an hour. *)
Example frequent_job_never_missed :
  let j := evaluate_job sample_crontab utc (Some (sample_job "*/10 * * * *")) (sample_store [20 * DAY]%Z) (21 * DAY + 5 * MINUTE) (30 * MINUTE) None None in
  js_missed j = false ∧ js_state j = GREY ∧ js_detail j = "first run due 00:10".
Proof. by vm_compute. Qed.

(** A job of every minute that stopped four days ago is green: the first 5,000 slots of the eight
    days end before that. *)
Example dead_job_green :
  let j := evaluate_job sample_crontab utc (Some (sample_job "* * * * *")) (sample_store [20 * DAY]%Z) (24 * DAY) (30 * MINUTE) None None in
  js_state j = GREEN ∧ js_slot j = Some (19 * DAY + 11 * HOUR + 19 * MINUTE)%Z ∧ js_detail j = "ran Jan 21 00:00 ✓ (12 new)".
Proof. by vm_compute. Qed.

(** The slot a run is recorded with is days before it, for the same reason. *)
Example slot_of_run : last_items 1 (recent_slots sample_crontab "* * * * *" (24 * DAY) 3) = [19 * DAY + 11 * HOUR + 19 * MINUTE]%Z.
Proof. by vm_compute. Qed.

(** A failure after the success of the same slot does not show. *)
Example failed_after_success :
  let store := insert_run (sample_run hb_failed (20 * DAY + HOUR)) None (sample_store [20 * DAY]%Z) in
  js_state (evaluate_job sample_crontab utc (Some (sample_job "0 */6 * * *")) store (20 * DAY + 2 * HOUR) (30 * MINUTE) None None) = GREEN.
Proof. by vm_compute. Qed.

Example words_of_schedules :
  parse_schedule_words sample_crontab ["every"; "10"; "min"] = Ok "interval:600" ∧ describe_schedule "interval:600" = "every 10 min" ∧
  parse_schedule_words (λ _, inl (every 1)) ["daily"; "08:30"] = Ok "30 8 * * *" ∧ describe_schedule "30 8 * * *" = "daily at 08:30" ∧
  parse_schedule_words sample_crontab ["every"; "10s"] = Raise (Exn "ValueError" "shortest interval is 30 seconds").
Proof. by vm_compute. Qed.

(** ** Keeping a run *)

Lemma record_run d run slot s : ∃ kept,
  run_res (record d run slot) s = Ok kept ∧
  (dw_insert_fails d = true → kept = false ∧ run_state (record d run slot) s = s) ∧
  (dw_insert_fails d = false →
     run_state (record d run slot) s = insert_run run slot s ∨
     run_state (record d run slot) s =
       set_run_rows (select_where (λ r, negb (pruned (dw_now d) s r)) (rs_rows (insert_run run slot s))) (insert_run run slot s)).
Proof.
  unfold record. run_monad. destruct (dw_insert_fails d); [by exists false|].
  cbn -[insert_run _PRUNE_EVERY]. destruct (_ =? 0)%Z; [|exists true; split; [done|]; split; [done|by left]].
  unfold prune. destruct (dw_prune_fails d); cbn -[insert_run]; [exists false|exists true]; (split; [done|]; split; [done|]); intros _; [by left|by right].
Qed.

(** A run that is kept is the last run of its job, and its text is read back up to the cap; runs are
    only lost to the retention. *)
Theorem kept_run_is_last d run slot s : dw_insert_fails d = false → str_truthy (hr_name run) = true →
  (dw_now d - rs_retention_days s * DAY ≤ hr_started_at run)%Z →
  (∀ r, r ∈ rs_rows s → sr_name r = hr_name run → (sr_started_at r ≤ hr_started_at run)%Z) →
  let s' := run_state (record d run slot) s in
  last s' (hr_name run) None = Some (row_of run slot (rs_next s)) ∧
  (∀ r, r ∈ rs_rows s → r ∈ rs_rows s' ∨ pruned (dw_now d) s r = true) ∧
  (∀ r, r ∈ rs_rows s' → r ∈ rs_rows s ∨ r = row_of run slot (rs_next s)).
Proof.
  intros Hf Hn Hret Hnew s'. destruct (record_run d run slot s) as (kept & _ & _ & H). specialize (H Hf). fold s' in H.
  assert (∀ l, (∀ r, r ∈ l → r ∈ rs_rows s) → rs_rows s' = l ++ [row_of run slot (rs_next s)] →
    last s' (hr_name run) None = Some (row_of run slot (rs_next s))) as Hlast.
  { intros l Hl E. unfold last, recent, newest_first. rewrite E, select_where_app. cbn [select_where List.filter].
    assert (matches (Some (hr_name run)) None None None (row_of run slot (rs_next s)) = true) as ->.
    { unfold matches. cbn. by rewrite Hn, String.eqb_refl. }
    rewrite sort_by_snoc, insert_by_last, reverse_app; [done|]. apply Forall_forall. intros r Hr.
    apply elem_of_sort_by, elem_of_select_where in Hr as [Hr Hm]. apply Hnew; [by apply Hl|]. unfold matches in Hm. rewrite Hn in Hm.
    rewrite !andb_true_r in Hm. by apply String.eqb_eq. }
  destruct H as [E|E].
  - split; [apply (Hlast (rs_rows s)); [done|by rewrite E]|]. rewrite E. cbn. setoid_rewrite elem_of_app. setoid_rewrite list_elem_of_singleton. naive_solver.
  - assert (rs_rows s' = select_where (λ r, negb (pruned (dw_now d) s r)) (rs_rows s) ++ [row_of run slot (rs_next s)]) as Er.
    { rewrite E. cbn [set_run_rows insert_run rs_rows]. rewrite select_where_app. f_equal. cbn [select_where List.filter].
      unfold pruned at 1. cbn [row_of sr_started_at]. by rewrite (proj2 (Z.ltb_ge _ _)) by lia. }
    split; [eapply Hlast; [|exact Er]; by intros r [? _]%elem_of_select_where|]. rewrite Er.
    setoid_rewrite elem_of_app. setoid_rewrite list_elem_of_singleton. setoid_rewrite elem_of_select_where. setoid_rewrite negb_true_iff.
    split; [|naive_solver]. intros r Hr. destruct (pruned (dw_now d) s r) eqn:Hp; [by right|left; left; done].
Qed.

Lemma kept_run_is_last_witness :
  let run := sample_run hb_failed (20 * DAY) in
  last (run_state (record {| dw_insert_fails := false; dw_prune_fails := false; dw_now := (20 * DAY)%Z |} run None) (sample_store [19 * DAY]%Z)) "sweep" None
  = Some (row_of run None 2).
Proof.
  apply (kept_run_is_last {| dw_insert_fails := false; dw_prune_fails := false; dw_now := (20 * DAY)%Z |} (sample_run hb_failed (20 * DAY)) None
    (sample_store [19 * DAY]%Z)); [done|done|vm_compute; done|].
  intros r [->|Hr]%elem_of_cons _; [vm_compute; done|by apply elem_of_nil in Hr].
Defined.
