(* ===== verification/Heartbeats.v ===== *)
(** * The heartbeat scheduler ([services/heartbeat/scheduler.py], [services/health/jobs.py])

    The jobs a deployment and its plugins declare, the owner's edits of them, one run of a job at a
    time, the runs that are kept, and the health checks on the jobs that are watched. *)

From S2P Require Import Prelude PyVal PyText CallContext Tasks TierEdits ActionCenter HeartbeatRuns.
From stdpp Require Import options.

(** ** State

    A handler is a reference of type [H]. The jobs of [BackgroundScheduler] are by id; there are none
    without one. The settings store holds the section [heartbeat]. *)

Inductive Origin := o_config | o_plugin.
#[export] Instance Origin_eq_dec : EqDecision Origin.
Proof. solve_decision. Defined.

Inductive JobTrigger := TCron (fields : string) | TInterval (seconds : Z) | TDate (at_ : Z).
Inductive JobCall (H : Type) := JRun (d : HeartbeatDefinition) (h : H) | JRetry (name : string).
Arguments JRun {H} d h.
Arguments JRetry {H} name.
Record Job (H : Type) := { jb_call : JobCall H; jb_trigger : JobTrigger }.
Arguments jb_call {H} _.
Arguments jb_trigger {H} _.

Record Setup (H : Type) := {
  su_handlers : list (string * H); su_platform : string; su_plugin_gap : option (string → option string); su_known_plugins : list string }.
Arguments su_handlers {H} _.
Arguments su_platform {H} _.
Arguments su_plugin_gap {H} _.
Arguments su_known_plugins {H} _.

Abbreviation Definitions := (list (string * HeartbeatDefinition)).
Record Tables (H : Type) := {
  tb_declared : Definitions; tb_origin : list (string * Origin); tb_effective : Definitions; tb_definitions : Definitions;
  tb_jobs : option (gmap string (Job H)) }.
Arguments tb_declared {H} _.
Arguments tb_origin {H} _.
Arguments tb_effective {H} _.
Arguments tb_definitions {H} _.
Arguments tb_jobs {H} _.

Record Scheduler (H : Type) := {
  sc_setup : Setup H; sc_tables : Tables H; sc_settings : option SettingsStore; sc_run_store : option RunStore;
  sc_last_kept : list (string * string); sc_runs : list HeartbeatRun; sc_running : gmap string Z; sc_created_at : Z }.
Arguments sc_setup {H} _.
Arguments sc_tables {H} _.
Arguments sc_settings {H} _.
Arguments sc_run_store {H} _.
Arguments sc_last_kept {H} _.
Arguments sc_runs {H} _.
Arguments sc_running {H} _.
Arguments sc_created_at {H} _.

Definition RETRY_JOB_SUFFIX : string := "__retry".
Definition retry_id (name : string) : string := name +:+ RETRY_JOB_SUFFIX.
Definition _RECORD_EVERY_RUN_FROM_SECONDS : Z := 300.

(** [records_every_run] *)
Definition records_every_run (d : HeartbeatDefinition) : bool :=
  match hd_record_runs d with
  | Some b => b
  | None =>
      let schedule := str_strip (hd_schedule d) in
      if startswith _INTERVAL schedule then
        match int_of (str_drop 9 schedule) with Some n => (_RECORD_EVERY_RUN_FROM_SECONDS <=? n)%Z | None => true end
      else true
  end.

(** [replace(definition, schedule=..., enabled=...)] *)
Definition edited (schedule : string) (enabled : bool) (d : HeartbeatDefinition) : HeartbeatDefinition :=
  {| hd_name := hd_name d; hd_handler := hd_handler d; hd_schedule := schedule; hd_enabled := enabled; hd_description := hd_description d;
     hd_params := hd_params d; hd_platforms := hd_platforms d; hd_record_runs := hd_record_runs d; hd_retry_after := hd_retry_after d;
     hd_plugin := hd_plugin d |}.
(** Whether two definitions that differ at most in these fields are equal. *)
Definition same_edit (a b : HeartbeatDefinition) : bool := String.eqb (hd_schedule a) (hd_schedule b) && Bool.eqb (hd_enabled a) (hd_enabled b).

(** [_value] *)
Definition _value (d : HeartbeatDefinition) : pyval := VDict [("schedule", VStr (hd_schedule d)); ("enabled", VBool (hd_enabled d))].
(** The editable fields of [target] that differ from the declared ones. *)
Definition edit_diff (declared target : HeartbeatDefinition) : list (string * pyval) :=
  (if String.eqb (hd_schedule target) (hd_schedule declared) then [] else [("schedule", VStr (hd_schedule target))])
  ++ (if Bool.eqb (hd_enabled target) (hd_enabled declared) then [] else [("enabled", VBool (hd_enabled target))]).

Section state.
Context {H : Type}.

Definition set_setup (su : Setup H) (sc : Scheduler H) : Scheduler H :=
  {| sc_setup := su; sc_tables := sc_tables sc; sc_settings := sc_settings sc; sc_run_store := sc_run_store sc;
     sc_last_kept := sc_last_kept sc; sc_runs := sc_runs sc; sc_running := sc_running sc; sc_created_at := sc_created_at sc |}.
Definition set_tables (t : Tables H) (sc : Scheduler H) : Scheduler H :=
  {| sc_setup := sc_setup sc; sc_tables := t; sc_settings := sc_settings sc; sc_run_store := sc_run_store sc;
     sc_last_kept := sc_last_kept sc; sc_runs := sc_runs sc; sc_running := sc_running sc; sc_created_at := sc_created_at sc |}.
Definition set_settings (s : SettingsStore) (sc : Scheduler H) : Scheduler H :=
  {| sc_setup := sc_setup sc; sc_tables := sc_tables sc; sc_settings := Some s; sc_run_store := sc_run_store sc;
     sc_last_kept := sc_last_kept sc; sc_runs := sc_runs sc; sc_running := sc_running sc; sc_created_at := sc_created_at sc |}.
Definition set_run_store (s : RunStore) (sc : Scheduler H) : Scheduler H :=
  {| sc_setup := sc_setup sc; sc_tables := sc_tables sc; sc_settings := sc_settings sc; sc_run_store := Some s;
     sc_last_kept := sc_last_kept sc; sc_runs := sc_runs sc; sc_running := sc_running sc; sc_created_at := sc_created_at sc |}.
Definition set_last_kept (l : list (string * string)) (sc : Scheduler H) : Scheduler H :=
  {| sc_setup := sc_setup sc; sc_tables := sc_tables sc; sc_settings := sc_settings sc; sc_run_store := sc_run_store sc;
     sc_last_kept := l; sc_runs := sc_runs sc; sc_running := sc_running sc; sc_created_at := sc_created_at sc |}.
Definition set_runs (l : list HeartbeatRun) (sc : Scheduler H) : Scheduler H :=
  {| sc_setup := sc_setup sc; sc_tables := sc_tables sc; sc_settings := sc_settings sc; sc_run_store := sc_run_store sc;
     sc_last_kept := sc_last_kept sc; sc_runs := l; sc_running := sc_running sc; sc_created_at := sc_created_at sc |}.
Definition set_running (m : gmap string Z) (sc : Scheduler H) : Scheduler H :=
  {| sc_setup := sc_setup sc; sc_tables := sc_tables sc; sc_settings := sc_settings sc; sc_run_store := sc_run_store sc;
     sc_last_kept := sc_last_kept sc; sc_runs := sc_runs sc; sc_running := m; sc_created_at := sc_created_at sc |}.

Definition set_definitions (l : Definitions) (t : Tables H) : Tables H :=
  {| tb_declared := tb_declared t; tb_origin := tb_origin t; tb_effective := tb_effective t; tb_definitions := l; tb_jobs := tb_jobs t |}.
Definition set_effective (l : Definitions) (t : Tables H) : Tables H :=
  {| tb_declared := tb_declared t; tb_origin := tb_origin t; tb_effective := l; tb_definitions := tb_definitions t; tb_jobs := tb_jobs t |}.
Definition set_declared (l : Definitions) (o : list (string * Origin)) (t : Tables H) : Tables H :=
  {| tb_declared := l; tb_origin := o; tb_effective := tb_effective t; tb_definitions := tb_definitions t; tb_jobs := tb_jobs t |}.
(** What is done to the jobs of APScheduler, when there is one. *)
Definition on_jobs (f : gmap string (Job H) → gmap string (Job H)) (t : Tables H) : Tables H :=
  {| tb_declared := tb_declared t; tb_origin := tb_origin t; tb_effective := tb_effective t; tb_definitions := tb_definitions t;
     tb_jobs := f <$> tb_jobs t |}.
Definition on_tables (f : Tables H → Tables H) : M (Scheduler H) unit := modify (λ sc, set_tables (f (sc_tables sc)) sc).

(** [HeartbeatScheduler(...)] *)
Definition new_scheduler (handlers : list (string * H)) (platform : string) (with_jobs : bool) (settings : option SettingsStore)
    (run_store : option RunStore) (created_at : Z) : Scheduler H :=
  {| sc_setup := {| su_handlers := handlers; su_platform := platform; su_plugin_gap := None; su_known_plugins := [] |};
     sc_tables := {| tb_declared := []; tb_origin := []; tb_effective := []; tb_definitions := [];
                     tb_jobs := if with_jobs then Some ∅ else None |};
     sc_settings := settings; sc_run_store := run_store; sc_last_kept := []; sc_runs := []; sc_running := ∅; sc_created_at := created_at |}.

(** [register_handler], [bind_plugin_gap] and [bind_known_plugins] *)
Definition register_handler (name : string) (h : H) : M (Scheduler H) unit :=
  modify (λ sc, set_setup {| su_handlers := kv_set name h (su_handlers (sc_setup sc)); su_platform := su_platform (sc_setup sc);
                             su_plugin_gap := su_plugin_gap (sc_setup sc); su_known_plugins := su_known_plugins (sc_setup sc) |} sc).
Definition bind_plugin_gap (gap : string → option string) : M (Scheduler H) unit :=
  modify (λ sc, set_setup {| su_handlers := su_handlers (sc_setup sc); su_platform := su_platform (sc_setup sc);
                             su_plugin_gap := Some gap; su_known_plugins := su_known_plugins (sc_setup sc) |} sc).
Definition bind_known_plugins (names : list string) : M (Scheduler H) unit :=
  modify (λ sc, set_setup {| su_handlers := su_handlers (sc_setup sc); su_platform := su_platform (sc_setup sc);
                             su_plugin_gap := su_plugin_gap (sc_setup sc); su_known_plugins := names |} sc).

Definition handler_of (sc : Scheduler H) (d : HeartbeatDefinition) : option H := od_get (hd_handler d) (su_handlers (sc_setup sc)).

(** [_unknown_owner] and [_missing_plugin] *)
Definition _unknown_owner (su : Setup H) (d : HeartbeatDefinition) : bool :=
  str_truthy (hd_plugin d) && match su_known_plugins su with [] => false | _ => true end && negb (str_in (hd_plugin d) (su_known_plugins su))
  && match su_plugin_gap su with Some gap => match gap (hd_plugin d) with Some _ => true | None => false end | None => false end.
Definition _missing_plugin (su : Setup H) (d : HeartbeatDefinition) : option string :=
  match su_plugin_gap su with
  | Some gap =>
      if str_truthy (hd_plugin d) then (λ why, "plugin " +:+ hd_plugin d +:+ " is not mounted: " +:+ why) <$> gap (hd_plugin d) else None
  | None => None
  end.

Definition wrong_platform (su : Setup H) (d : HeartbeatDefinition) : bool :=
  match hd_platforms d with [] => false | _ => negb (str_in (su_platform su) (hd_platforms d)) end.

(** [unavailable_reason] *)
Definition unavailable_reason (su : Setup H) (d : HeartbeatDefinition) : option string :=
  if wrong_platform su d then
    Some ("needs " +:+ join " or " (hd_platforms d) +:+ "; this harness runs on " +:+ su_platform su)
  else
    match od_get (hd_handler d) (su_handlers su) with
    | Some _ => None
    | None =>
        if _unknown_owner su d then Some ("names plugin " +:+ py_repr (hd_plugin d) +:+ ", which is not a known plugin (typo?)")
        else match _missing_plugin su d with
             | Some gap => Some gap
             | None => Some ("no handler " +:+ py_repr (hd_handler d) +:+ " is registered on this harness")
             end
    end.

(** [_unschedule]; [_cancel_retry] *)
Definition _cancel_retry (name : string) : M (Scheduler H) unit := on_tables (on_jobs (delete (retry_id name))).
Definition _unschedule (name : string) : M (Scheduler H) unit :=
  on_tables (λ t, set_definitions (od_del name (tb_definitions t)) t);;
  on_tables (on_jobs (delete name));;
  _cancel_retry name.
End state.

Section scheduler.
(** The world the handlers run in; the clock of the machine; what [from_crontab] and [utcoffset] are,
    what [IntervalTrigger(seconds=...)] raises; the [next_run_time] APScheduler gives a job; what a
    call of a handler does; and what fails of the settings store and of SQLite's writes. *)
Context {W H : Type} `{!Part W (Scheduler H)}.
Context (now : M W Z) (from_crontab : string → Trigger + string) (utcoffset : Z → Z) (interval_error : Z → option exn).
Context (next_run_time : W → string → option Z) (call : H → HeartbeatDefinition → M W HeartbeatRun).
Context (settings_fault : W → option exn) (disk : W → DiskWrite).

Definition sched : M W (Scheduler H) := gets part.
Definition tables : M W (Tables H) := gets (λ w, sc_tables (part w)).

(** ** Scheduling *)

(** [_build_trigger] *)
Definition _build_trigger (schedule : string) : res JobTrigger :=
  let schedule := str_strip schedule in
  if startswith _INTERVAL schedule then
    match int_of (str_drop 9 schedule) with
    | None => Raise (value_error ("invalid interval schedule " +:+ py_repr schedule))
    | Some seconds => match interval_error seconds with Some e => Raise e | None => Ok (TInterval seconds) end
    end
  else match from_crontab schedule with inl _ => Ok (TCron schedule) | inr e => Raise (value_error e) end.

Definition add_job (id : string) (j : Job H) : M W unit := on_part (on_tables (on_jobs <[id := j]>)).

Definition _apply (d : HeartbeatDefinition) : M W bool :=
  if negb (hd_enabled d) then on_part (_unschedule (hd_name d));; mret false
  else
    sc ← sched;
    if wrong_platform (sc_setup sc) d then on_part (_unschedule (hd_name d));; mret false
    else
      match handler_of sc d with
      | None => on_part (_unschedule (hd_name d));; mret false
      | Some h =>
          on_part (on_tables (λ t, set_definitions (kv_set (hd_name d) d (tb_definitions t)) t));;
          match tb_jobs (sc_tables sc) with
          | None => mret true
          | Some _ =>
              trigger ← lift_res (_build_trigger (hd_schedule d));
              add_job (hd_name d) {| jb_call := JRun d h; jb_trigger := trigger |};;
              mret true
          end
      end.

(** [_with_override]: what is saved for a definition, over it. *)
Definition with_saved (saved : pyval) (d : HeartbeatDefinition) : HeartbeatDefinition :=
  match saved with
  | VDict kvs =>
      edited (match od_get "schedule" kvs with
              | Some v => match validate_schedule from_crontab (str_val v) with Ok s => s | Raise _ => hd_schedule d end
              | None => hd_schedule d
              end)
             (match od_get "enabled" kvs with Some v => truthy v | None => hd_enabled d end) d
  | _ => d
  end.
Definition _with_override (d : HeartbeatDefinition) : M W HeartbeatDefinition := λ w,
  match sc_settings (part w), settings_fault w with
  | None, _ | _, Some _ => (Ok d, w)
  | Some st, None => (Ok (with_saved (settings_get (hd_name d) st) d), w)
  end.

Definition key_error (name : string) : exn := Exn "KeyError" (py_repr name).
Definition lookup_key {A} (name : string) (d : list (string * A)) : res A :=
  match od_get name d with Some a => Ok a | None => Raise (key_error name) end.

(** [run_store.note_job]: it never raises. *)
Definition note_scheduled (name : string) : M W unit :=
  sc ← sched;
  match sc_run_store sc with
  | None => mret tt
  | Some st =>
      t ← now;
      modify (λ w, set_part (set_run_store (run_state (note_job (dw_insert_fails (disk w)) name t) st) (part w)) w)
  end.

Definition register (d : HeartbeatDefinition) (origin : Origin) : M W bool :=
  t ← tables;
  let declare :=
    on_part (on_tables (λ t, set_declared (kv_set (hd_name d) d (tb_declared t)) (kv_set (hd_name d) origin (tb_origin t)) t));;
    effective ← _with_override d;
    on_part (on_tables (λ t, set_effective (kv_set (hd_name d) effective (tb_effective t)) t));;
    note_scheduled (hd_name d);;
    _apply effective in
  match od_get (hd_name d) (tb_declared t), od_get (hd_name d) (tb_origin t) with
  | Some _, Some held =>
      if bool_decide (held ≠ origin) && bool_decide (origin = o_plugin)
      then effective ← lift_res (lookup_key (hd_name d) (tb_effective t)); _apply effective
      else declare
  | _, _ => declare
  end.

(** The number that were scheduled. *)
Fixpoint register_all (l : list HeartbeatDefinition) : M W nat :=
  match l with
  | [] => mret 0
  | d :: l => made ← register d o_config; n ← register_all l; mret (if (made : bool) then S n else n)
  end.

Definition all_definitions (t : Tables H) : list HeartbeatDefinition := map snd (tb_effective t).
Definition list_definitions (t : Tables H) : list HeartbeatDefinition := map snd (tb_definitions t).
Definition declared (t : Tables H) (name : string) : option HeartbeatDefinition := od_get name (tb_declared t).
Definition get_job (t : Tables H) (id : string) : option (Job H) := jobs ← tb_jobs t; jobs !! id.
Definition next_run_at (name : string) (w : W) : option Z :=
  match get_job (sc_tables (part w)) name with Some _ => next_run_time w name | None => None end.

(** ** The owner's edits *)

Definition _save (d current target : HeartbeatDefinition) (actor : string) : M W unit :=
  w ← get_state;
  match sc_settings (part w) with
  | None => mret tt
  | Some st =>
      match settings_fault w with
      | Some e => raise e
      | None =>
          t ← now;
          modify (λ w, set_part (set_settings
            (match edit_diff d target with
             | [] => settings_clear (hd_name d) (_value current) (_value target) actor t st
             | diff => settings_set (hd_name d) (VDict diff) (_value current) (_value target) actor t st
             end) (part w)) w)
      end
  end.

(** The end of [update] and of [reset]: save, put in force, apply. *)
Definition put_in_force (d current target : HeartbeatDefinition) (actor : string) : M W HeartbeatDefinition :=
  _save d current target actor;;
  on_part (on_tables (λ t, set_effective (kv_set (hd_name d) target (tb_effective t)) t));;
  _ ← _apply target;
  mret target.

Definition update (name : string) (schedule : option string) (enabled : option bool) (actor : string) : M W HeartbeatDefinition :=
  sc ← sched;
  d ← lift_res (lookup_key name (tb_declared (sc_tables sc)));
  current ← lift_res (lookup_key name (tb_effective (sc_tables sc)));
  valid ← lift_res (match schedule with Some s => validate_schedule from_crontab s | None => Ok (hd_schedule current) end);
  let candidate := edited valid (default (hd_enabled current) enabled) current in
  match (if hd_enabled candidate then unavailable_reason (sc_setup sc) candidate else None) with
  | Some reason => raise (value_error ("heartbeat " +:+ py_repr name +:+ " cannot run on this harness: " +:+ reason))
  | None => if same_edit candidate current then mret current else put_in_force d current candidate actor
  end.

Definition reset (name : string) (actor : string) : M W HeartbeatDefinition :=
  t ← tables;
  d ← lift_res (lookup_key name (tb_declared t));
  current ← lift_res (lookup_key name (tb_effective t));
  if same_edit current d then mret current else put_in_force d current d actor.

(** ** Runs *)

Definition is_running (sc : Scheduler H) (name : string) : bool := (0 <? default 0 (sc_running sc !! name))%Z.
Definition running_names (sc : Scheduler H) : list string := map fst (select_where (λ kv, 0 <? kv.2)%Z (map_to_list (sc_running sc))).

(** The first block under [_idle]: whether the run is refused, and its claim when it is not. *)
Definition claim (d : HeartbeatDefinition) : M (Scheduler H) bool := λ sc,
  if is_running sc (hd_name d) && match od_get (hd_name d) (tb_definitions (sc_tables sc)) with Some _ => true | None => false end
  then (Ok true, sc)
  else (Ok false, set_running (<[hd_name d := (default 0 (sc_running sc !! hd_name d) + 1)%Z]> (sc_running sc)) sc).
(** The block in the [finally]. *)
Definition release (name : string) : M (Scheduler H) unit :=
  modify (λ sc,
    let left_ := (default 1 (sc_running sc !! name) - 1)%Z in
    set_running (if (0 <? left_)%Z then <[name := left_]> (sc_running sc) else delete name (sc_running sc)) sc).

(** [_slot_for] and [_keep] *)
Definition _slot_for (d : HeartbeatDefinition) (run : HeartbeatRun) : option Z :=
  if startswith _INTERVAL (str_strip (hd_schedule d)) then None
  else List.last (map Some (recent_slots from_crontab (hd_schedule d) (hr_started_at run) 1)) None.
Definition keep_run (dw : DiskWrite) (d : HeartbeatDefinition) (run : HeartbeatRun) (sc : Scheduler H) : Scheduler H :=
  match sc_run_store sc with
  | None => sc
  | Some st =>
      if negb (records_every_run d)
         && match od_get (hd_name d) (sc_last_kept sc) with Some s => String.eqb s (hb_value (hr_status run)) | None => false end
      then sc
      else
        let '(kept, st') := record dw run (_slot_for d run) st in
        let sc := set_run_store st' sc in
        match kept with Ok true => set_last_kept (kv_set (hd_name d) (hb_value (hr_status run)) (sc_last_kept sc)) sc | _ => sc end
  end.
Definition _keep (d : HeartbeatDefinition) (run : HeartbeatRun) : M W unit :=
  modify (λ w, set_part (keep_run (disk w) d run (part w)) w).

(** [_schedule_retry] *)
Definition _schedule_retry (d : HeartbeatDefinition) : M W unit :=
  match hd_retry_after d with
  | None => mret tt
  | Some minutes =>
      if (minutes =? 0)%Z then mret tt
      else
        t ← tables;
        match tb_jobs t with
        | None => mret tt
        | Some _ =>
            time ← now;
            let at_ := (time + minutes * MINUTE)%Z in
            next_slot ← gets (next_run_at (hd_name d));
            if match next_slot with Some s => (s <=? at_)%Z | None => false end then mret tt
            else add_job (retry_id (hd_name d)) {| jb_call := JRetry (hd_name d); jb_trigger := TDate at_ |}
        end
  end.

(** What the scheduler makes of the run a handler gives back. *)
Definition stamped (finished started : Z) (trigger : string) (run : HeartbeatRun) : HeartbeatRun :=
  {| hr_name := hr_name run; hr_status := hr_status run; hr_started_at := Z.min (hr_started_at run) started;
     hr_finished_at := Some (default finished (hr_finished_at run)); hr_output := hr_output run; hr_error := hr_error run;
     hr_result := hr_result run; hr_trigger := trigger; hr_already_running := hr_already_running run |}.
Definition plain_run (name : string) (status : HeartbeatStatus) (started finished : Z) (output error trigger : string) (already : bool)
    : HeartbeatRun :=
  {| hr_name := name; hr_status := status; hr_started_at := started; hr_finished_at := Some finished; hr_output := output;
     hr_error := error; hr_result := []; hr_trigger := trigger; hr_already_running := already |}.

Definition add_run (run : HeartbeatRun) : M (Scheduler H) unit := modify (λ sc, set_runs (sc_runs sc ++ [run]) sc).

(** [_invoke] *)
Definition _invoke (d : HeartbeatDefinition) (h : H) (trigger : string) : M W HeartbeatRun :=
  started ← now;
  refused ← on_part (claim d);
  if (refused : bool) then
    mret (plain_run (hd_name d) hb_skipped started started (hd_name d +:+ " is already running; not starting a second run") "" trigger true)
  else
    run ← try (call h d) except e =>
      (finished ← now; mret (plain_run (hd_name d) hb_failed started finished "" (exn_class e +:+ ": " +:+ exn_str e) "schedule" false));
    on_part (release (hd_name d));;
    finished ← (match hr_finished_at run with Some t => mret t | None => now end);
    let run := stamped finished started trigger run in
    on_part (add_run run);;
    _keep d run;;
    (if bool_decide (hr_status run = hb_skipped) then _schedule_retry d else on_part (_cancel_retry (hd_name d)));;
    mret run.

(** What a retry does when its time comes. *)
Definition retry (name : string) : M W unit :=
  sc ← sched;
  match od_get name (tb_definitions (sc_tables sc)) with
  | None => mret tt
  | Some current =>
      match handler_of sc current with
      | Some h => if hd_enabled current then _ ← _invoke current h "retry"; mret tt else mret tt
      | None => mret tt
      end
  end.
(** What APScheduler runs when a job fires. *)
Definition fire_job (j : Job H) : M W unit :=
  match jb_call j with JRun d h => _ ← _invoke d h "schedule"; mret tt | JRetry name => retry name end.

Definition trigger_now (d : HeartbeatDefinition) (trigger : string) : M W HeartbeatRun :=
  sc ← sched;
  match handler_of sc d with
  | None =>
      started ← now;
      finished ← now;
      let run := plain_run (hd_name d) hb_skipped started finished "" ("no handler registered for " +:+ py_repr (hd_handler d)) trigger false in
      on_part (add_run run);;
      _keep d run;;
      mret run
  | Some h => _invoke d h trigger
  end.
Definition trigger_by_name (name trigger : string) : M W (option HeartbeatRun) :=
  t ← tables;
  match od_get name (tb_definitions t) with
  | None => mret None
  | Some d => run ← trigger_now d trigger; mret (Some run)
  end.

(** ** Reads *)

Definition diagnose (sc : Scheduler H) (time : Z) : list HeartbeatDiagnostic :=
  diagnose_heartbeats from_crontab (list_definitions (sc_tables sc)) (sc_runs sc) (sc_created_at sc) time (running_names sc).
Definition kept_runs (sc : Scheduler H) (name : option string) (since : option Z) (limit : Z) : list StoredRun :=
  match sc_run_store sc with Some st => recent st name since None None limit | None => [] end.
Definition job_status (sc : Scheduler H) (name : string) (grace time : Z) : option JobStatus :=
  (λ st,
    let d := od_get name (tb_effective (sc_tables sc)) in
    let unavailable := match d with Some d => if hd_enabled d then unavailable_reason (sc_setup sc) d else None | None => None end in
    evaluate_job from_crontab utcoffset d st time grace unavailable (Some name)) <$> sc_run_store sc.

(** ** The routes ([settings_routes.py]) *)

Definition not_found (name : string) : exn := HTTPException 404 ("heartbeat '" +:+ name +:+ "' not found").

(** [patch_heartbeat] and [reset_heartbeat], up to the payload of the definition they answer with. *)
Definition patch_heartbeat (name : string) (schedule : option string) (enabled : option bool) (actor : string) : M W HeartbeatDefinition :=
  match schedule, enabled with
  | None, None => raise (HTTPException 422 "send 'schedule', 'enabled', or both")
  | _, _ =>
      _ ← (try (update name schedule enabled actor) except e =>
             (if String.eqb (exn_class e) "KeyError" then raise (not_found name)
              else if String.eqb (exn_class e) "ValueError" then raise (HTTPException 422 (exn_str e)) else raise e));
      t ← tables;
      match List.find (λ d, String.eqb (hd_name d) name) (all_definitions t) with
      | Some d => mret d
      | None => raise (not_found name)
      end
  end.
Definition reset_heartbeat (name : string) (actor : string) : M W HeartbeatDefinition :=
  _ ← (try (reset name actor) except e => (if String.eqb (exn_class e) "KeyError" then raise (not_found name) else raise e));
  t ← tables;
  match List.find (λ d, String.eqb (hd_name d) name) (all_definitions t) with
  | Some d => mret d
  | None => raise (not_found name)
  end.

(** ** Health checks on the watched jobs ([services/health/jobs.py]) *)

Record WatchedJob := { wj_name : string; wj_grace : Z }.
Definition DEFAULT_GRACE : Z := 30 * MINUTE.

(** [for entry in raw] *)
Definition entries_of (v : pyval) : res (list pyval) :=
  match v with
  | VList l => Ok l
  | VDict d => Ok (map (λ kv, VStr kv.1) d)
  | VStr s => Ok (map (λ c, VStr (String c "")) (String.list_ascii_of_string s))
  | _ => Raise (Exn "TypeError" "object is not iterable")
  end.

(** [parse_jobs]; [minutes] is [timedelta(minutes=float(v))], [None] when [float] raises. *)
Definition watched_of (minutes : pyval → option Z) (grace : Z) (entry : pyval) : option WatchedJob :=
  match entry with
  | VStr s => if str_truthy (str_strip s) then Some {| wj_name := str_strip s; wj_grace := grace |} else None
  | VDict e =>
      let name := match od_get "name" e with Some v => if truthy v then str_strip (str_val v) else "" | None => "" end in
      if str_truthy name
      then Some {| wj_name := name; wj_grace := match od_get "grace_minutes" e with Some v => default grace (minutes v) | None => grace end |}
      else None
  | _ => None
  end.
Definition parse_jobs (minutes : pyval → option Z) (raw : pyval) : res (list WatchedJob) :=
  match raw with
  | VDict d =>
      let grace := match od_get "grace_minutes" d with Some v => default DEFAULT_GRACE (minutes v) | None => DEFAULT_GRACE end in
      match od_get "watch" d with
      | Some watch => if truthy watch then let! entries := entries_of watch in Ok (omap (watched_of minutes grace) entries) else Ok []
      | None => Ok []
      end
  | _ => Ok []
  end.
Definition grace_for (jobs : list WatchedJob) (name : string) : Z :=
  match List.find (λ j, String.eqb (wj_name j) name) jobs with Some j => wj_grace j | None => DEFAULT_GRACE end.

(** [HealthState(status.state)], of the four states there are. *)
Definition health_state (state : string) : HealthState :=
  if String.eqb state GREEN then h_green else if String.eqb state YELLOW then h_yellow else if String.eqb state RED then h_red else h_grey.
Definition job_check (sc : Scheduler H) (time : Z) (job : WatchedJob) : HealthCheck :=
  let '(state, detail) :=
    match job_status sc (wj_name job) (wj_grace job) time with
    | None => (h_grey, "runs are not kept on this harness")
    | Some j => (health_state (js_state j), js_detail j)
    end in
  {| hc_target := "job_completed"; hc_kind := k_service; hc_state := state; hc_detail := detail; hc_endpoint := Some "/heartbeat";
     hc_action := if bool_decide (state = h_red ∨ state = h_yellow) then Some ("evarness heartbeats trigger " +:+ wj_name job) else None;
     hc_subject := Some (wj_name job); hc_fix_url := None |}.
Definition job_checks (sc : Scheduler H) (jobs : list WatchedJob) (time : Z) : list HealthCheck := map (job_check sc time) jobs.

(** [_run_fields]: the fields of a heartbeat's payload about its runs. *)
Definition run_fields (sc : Scheduler H) (jobs : list WatchedJob) (time : Z) (name : string) : list (string * pyval) :=
  let watched := VBool (existsb (λ j, String.eqb (wj_name j) name) jobs) in
  match job_status sc name (grace_for jobs name) time with
  | None => [("last_run", VNone); ("last_success_at", VNone); ("job", VNone); ("watched", watched)]
  | Some j =>
      let job := status_as_dict j in
      [("watched", watched); ("last_run", default VNone (od_get "last_run" job));
       ("last_success_at", default VNone (od_get "last_success_at" job));
       ("job", VDict (List.filter (λ kv, negb (str_in kv.1 ["last_run"; "last_success_at"])) job))]
  end.

(** [heartbeat_payload]; [next_run] is the text of the job's next time. *)
Definition heartbeat_payload (sc : Scheduler H) (next_run : option string) (jobs : list WatchedJob) (time : Z) (d : HeartbeatDefinition)
    : list (string * pyval) :=
  let base := default d (declared (sc_tables sc) (hd_name d)) in
  let reason := unavailable_reason (sc_setup sc) d in
  [("name", VStr (hd_name d)); ("schedule", VStr (hd_schedule d)); ("schedule_text", VStr (describe_schedule (hd_schedule d)));
   ("enabled", VBool (hd_enabled d)); ("description", VStr (hd_description d)); ("default_schedule", VStr (hd_schedule base));
   ("default_enabled", VBool (hd_enabled base)); ("overridden", VBool (negb (same_edit d base)));
   ("runnable", VBool (match reason with None => true | Some _ => false end));
   ("unavailable_reason", match reason with Some s => VStr s | None => VNone end); ("platforms", VList (map VStr (hd_platforms d)));
   ("next_run_at", match next_run with Some s => VStr s | None => VNone end)] ++ run_fields sc jobs time (hd_name d).
End scheduler.

(** ** One run of a job at a time *)

(** The runs in progress, oldest first: the thread, the job and whether it was a scheduled one when
    the run began. *)
Record Flight := { fl_thread : nat; fl_name : string; fl_scheduled : bool }.

Section interleaving.
Context {H : Type}.
Implicit Types (sc : Scheduler H) (fs : list Flight).

Definition scheduled (sc : Scheduler H) (name : string) : bool :=
  match od_get name (tb_definitions (sc_tables sc)) with Some _ => true | None => false end.

(** Threads run [_invoke] beside each other. Between its two blocks under the lock a thread runs the
    handler, keeps the run and so on; what it and other threads do then to the rest of the state is
    any change that leaves the counts alone. *)
Inductive step : Scheduler H * list Flight → Scheduler H * list Flight → Prop :=
| step_claim sc fs t d sc' : claim d sc = (Ok false, sc') →
    step (sc, fs) (sc', fs ++ [{| fl_thread := t; fl_name := hd_name d; fl_scheduled := scheduled sc (hd_name d) |}])
| step_refused sc fs d sc' : claim d sc = (Ok true, sc') → step (sc, fs) (sc', fs)
| step_release sc fs1 f fs2 : step (sc, fs1 ++ f :: fs2) (run_state (release (fl_name f)) sc, fs1 ++ fs2)
| step_other sc fs sc' : sc_running sc' = sc_running sc → step (sc, fs) (sc', fs).

Definition flights (name : string) (fs : list Flight) : nat := count_where (λ f, String.eqb (fl_name f) name) fs.

(** The counts are those of the runs in progress. *)
Definition counts_ok (sc : Scheduler H) (fs : list Flight) : Prop :=
  ∀ name, sc_running sc !! name = match flights name fs with 0 => None | n => Some (Z.of_nat n) end.

(** A scheduled job's run began when no other of it was in progress. *)
Definition alone_ok (fs : list Flight) : Prop :=
  ∀ i j f g, i < j → fs !! i = Some f → fs !! j = Some g → fl_name f = fl_name g → fl_scheduled g = false.

Lemma flights_app name fs1 fs2 : flights name (fs1 ++ fs2) = flights name fs1 + flights name fs2.
Proof. apply count_where_app. Qed.
Lemma flights_cons name f fs : flights name (f :: fs) = (if String.eqb (fl_name f) name then 1 else 0) + flights name fs.
Proof. unfold flights, count_where, select_where. cbn. by destruct (String.eqb _ _). Qed.

Lemma flights_pos name fs : 0 < flights name fs ↔ ∃ f, f ∈ fs ∧ fl_name f = name.
Proof.
  induction fs as [|f fs IH]; [split; [cbn; lia|by intros (? & ?%elem_of_nil & _)]|]. rewrite flights_cons.
  destruct (String.eqb_spec (fl_name f) name) as [He|Hne].
  - split; [|lia]. intros _. exists f. split; [left|done].
  - cbn. rewrite IH. split; intros (g & Hg & Hn); exists g; (split; [|done]); [by right|]. by apply elem_of_cons in Hg as [->|Hg].
Qed.

Lemma counts_running sc fs name : counts_ok sc fs → is_running sc name = true ↔ ∃ f, f ∈ fs ∧ fl_name f = name.
Proof. intros Hc. rewrite <- flights_pos. unfold is_running. rewrite Hc, Z.ltb_lt. destruct (flights name fs); cbn; lia. Qed.

Lemma counts_default sc fs name : counts_ok sc fs → default 0%Z (sc_running sc !! name) = Z.of_nat (flights name fs).
Proof. intros Hc. rewrite Hc. by destruct (flights name fs). Qed.

Lemma alone_remove fs1 f fs2 : alone_ok (fs1 ++ f :: fs2) → alone_ok (fs1 ++ fs2).
Proof.
  intros Ha i j g g' Hij Hi Hj. set (up := λ k, if Nat.ltb k (length fs1) then k else S k).
  assert (∀ k x, (fs1 ++ fs2) !! k = Some x → (fs1 ++ f :: fs2) !! up k = Some x) as Hup.
  { intros k x Hk. unfold up. destruct (Nat.ltb_spec k (length fs1)).
    - rewrite lookup_app_l in * by done. done.
    - rewrite lookup_app_r in * by lia. by replace (S k - length fs1) with (S (k - length fs1)) by lia. }
  apply (Ha (up i) (up j)); [|by apply Hup..]. unfold up. destruct (Nat.ltb_spec i (length fs1)), (Nat.ltb_spec j (length fs1)); lia.
Qed.

Lemma step_ok st st' : step st st' → counts_ok (fst st) (snd st) ∧ alone_ok (snd st) → counts_ok (fst st') (snd st') ∧ alone_ok (snd st').
Proof.
  intros Hstep [Hc Ha]. destruct Hstep as [sc fs t d sc' Hcl|sc fs d sc' Hcl|sc fs1 f fs2|sc fs sc' Hr]; cbn [fst snd] in *.
  - unfold claim in Hcl. destruct (is_running sc (hd_name d)) eqn:Hrun; cbn [andb] in Hcl.
    + change (match od_get (hd_name d) (tb_definitions (sc_tables sc)) with Some _ => true | None => false end) with (scheduled sc (hd_name d)) in Hcl.
      destruct (scheduled sc (hd_name d)) eqn:Hs; [done|]. injection Hcl as <-. split.
      * intros name. rewrite flights_app, flights_cons. cbn [set_running sc_running fl_name]. change (flights name []) with 0.
        rewrite (counts_default sc fs _ Hc). destruct (String.eqb_spec (hd_name d) name) as [<-|Hne].
        -- rewrite lookup_insert_eq. replace (flights (hd_name d) fs + (1 + 0)) with (S (flights (hd_name d) fs)) by lia. f_equal. lia.
        -- rewrite lookup_insert_ne by done. by rewrite Nat.add_0_r.
      * intros i j g g' Hij Hi Hj Hn. apply lookup_app_Some in Hj as [Hj|[Hge Hj]].
        -- rewrite lookup_app_l in Hi by (apply lookup_lt_Some in Hj; lia). by eapply (Ha i j).
        -- by destruct (j - length fs) eqn:?; simplify_eq/=.
    + injection Hcl as <-. assert (flights (hd_name d) fs = 0) as Hz.
      { destruct (flights (hd_name d) fs) eqn:E; [done|]. assert (is_running sc (hd_name d) = true) as Ht; [|congruence].
        apply (counts_running sc fs _ Hc), flights_pos. lia. }
      split.
      * intros name. rewrite flights_app, flights_cons. cbn [set_running sc_running fl_name]. change (flights name []) with 0.
        rewrite (counts_default sc fs _ Hc), Hz. destruct (String.eqb_spec (hd_name d) name) as [<-|Hne].
        -- by rewrite lookup_insert_eq, Hz.
        -- rewrite lookup_insert_ne by done. by rewrite Nat.add_0_r.
      * intros i j g g' Hij Hi Hj Hn. apply lookup_app_Some in Hj as [Hj|[Hge Hj]].
        -- rewrite lookup_app_l in Hi by (apply lookup_lt_Some in Hj; lia). by eapply (Ha i j).
        -- destruct (j - length fs) eqn:?; simplify_eq/=. rewrite lookup_app_l in Hi by lia. exfalso.
           assert (0 < flights (hd_name d) fs); [|lia]. apply flights_pos. exists g. split; [|done]. by eapply list_elem_of_lookup_2.
  - unfold claim in Hcl. by destruct (_ && _); simplify_eq.
  - split; [|by eapply alone_remove]. intros name. cbn. rewrite flights_app. specialize (Hc name) as Hn. specialize (Hc (fl_name f)).
    rewrite !flights_app, !flights_cons, String.eqb_refl in Hc. rewrite flights_app, flights_cons in Hn.
    replace (flights (fl_name f) fs1 + (1 + flights (fl_name f) fs2)) with (S (flights (fl_name f) fs1 + flights (fl_name f) fs2)) in Hc by lia.
    rewrite Hc. change (default 1%Z (Some ?x)) with x. destruct (String.eqb_spec (fl_name f) name) as [He|Hne].
    + rewrite <- He. destruct (0 <? _)%Z eqn:Hl; [rewrite lookup_insert_eq|rewrite lookup_delete_eq].
      * destruct (flights (fl_name f) fs1 + flights (fl_name f) fs2) eqn:E; [apply Z.ltb_lt in Hl; lia|]. f_equal. lia.
      * destruct (flights (fl_name f) fs1 + flights (fl_name f) fs2) eqn:E; [done|]. apply Z.ltb_ge in Hl. lia.
    + rewrite Nat.add_0_l in Hn. destruct (0 <? _)%Z; [rewrite lookup_insert_ne by done|rewrite lookup_delete_ne by done]; exact Hn.
  - split; [|done]. intros name. by rewrite Hr.
Qed.
End interleaving.

(** C26. One run of a job at a time, whoever asks ([_invoke]), in every interleaving of the threads
    that run jobs with each other and with registrations and edits. From a new scheduler on, a job
    counts as running exactly while a run of it is in progress, and when two runs of one name are in
    progress the later one was not of a scheduled job when it began: a scheduled job's run never
    starts beside another run of it. *)
Theorem one_run_at_a_time {H : Type} (sc0 sc : Scheduler H) fs : sc_running sc0 = ∅ → rtc step (sc0, []) (sc, fs) →
  (∀ name, is_running sc name = true ↔ ∃ f, f ∈ fs ∧ fl_name f = name) ∧
  (∀ i j f g, i < j → fs !! i = Some f → fs !! j = Some g → fl_name f = fl_name g → fl_scheduled g = false).
Proof.
  intros H0 Hsteps. assert (counts_ok (fst (sc, fs)) (snd (sc, fs)) ∧ alone_ok (snd (sc, fs))) as [Hc Ha].
  { eapply (rtc_ind_l (λ st, counts_ok (fst st) (snd st) ∧ alone_ok (snd st) → _) (sc, fs)); [done| |exact Hsteps|].
    - intros st st' Hst _ IH Hok. apply IH. by eapply step_ok.
    - split; [intros name; cbn; by rewrite H0|intros i j f g _ Hi; by destruct i]. }
  split; [|exact Ha]. intros name. by eapply counts_running.
Qed.

(** ** A run from its claim to its record *)

(** What a world owes the scheduler: the clock answers and leaves the scheduler alone. *)
Class HeartClock (W H : Type) `{!Part W (Scheduler H)} (now : M W Z) : Prop := {
  heart_ticks w : ∃ t w', now w = (Ok t, w') ∧ part w' = part w }.

(** The counts of the runs in progress are positive. *)
Definition counts_positive {H} (sc : Scheduler H) : Prop := ∀ name n, sc_running sc !! name = Some n → (0 < n)%Z.

Section runs.
Context {W H : Type} `{!Part W (Scheduler H), !PartLaws W (Scheduler H)}.
Context (now : M W Z) (from_crontab : string → Trigger + string) (next_run_time : W → string → option Z).
Context (call : H → HeartbeatDefinition → M W HeartbeatRun) (disk : W → DiskWrite) `{!HeartClock W H now}.

Abbreviation invoke := (_invoke now from_crontab next_run_time call disk).
Abbreviation sc_of w := (part w : Scheduler H).

(** The counts, through any computation that keeps them. *)
Definition keeps_running (w w' : W) : Prop := sc_running (sc_of w') = sc_running (sc_of w).
Lemma keep_run_keeps dw d run (sc : Scheduler H) : sc_running (keep_run from_crontab dw d run sc) = sc_running sc ∧
  sc_runs (keep_run from_crontab dw d run sc) = sc_runs sc ∧ sc_tables (keep_run from_crontab dw d run sc) = sc_tables sc.
Proof using Type.
  unfold keep_run. destruct (sc_run_store sc) as [st|]; [|done]. destruct (_ && _); [done|].
  destruct (record _ _ _ _) as [[[]|e] st']; done.
Qed.

Lemma claim_release d (sc : Scheduler H) w : counts_positive sc → run_res (claim d) sc = Ok false →
  sc_running (sc_of w) = sc_running (run_state (claim d) sc) →
  sc_running (run_state (release (hd_name d)) (sc_of w)) = sc_running sc.
Proof using Type.
  intros Hpos Hcl Hw. unfold claim in *. destruct (_ && _) in *; [done|]. cbn in *. rewrite Hw, lookup_insert_eq.
  change (default 1%Z (Some ?x)) with x. rewrite Z.add_simpl_r.
  destruct (sc_running sc !! hd_name d) as [n|] eqn:E.
  - change (default 0%Z (Some n)) with n. pose proof (Hpos _ _ E). rewrite (proj2 (Z.ltb_lt 0 n)) by done. by rewrite insert_insert_eq, insert_id.
  - cbn. by rewrite delete_insert_eq, delete_id.
Qed.

(** A refused run is told to its caller and leaves no trace. *)
Definition refused_run (d : HeartbeatDefinition) (trigger : string) (run : HeartbeatRun) : Prop :=
  hr_status run = hb_skipped ∧ hr_already_running run = true ∧ hr_name run = hd_name d ∧ hr_trigger run = trigger.

(** The run that a call of the handler, which ended with [answer], amounts to. *)
Definition run_of (d : HeartbeatDefinition) (trigger : string) (started : Z) (answer : res HeartbeatRun) (run : HeartbeatRun) : Prop :=
  (∃ finished, hr_finished_at run = Some finished) ∧ (hr_started_at run ≤ started)%Z ∧ hr_trigger run = trigger ∧
  match answer with
  | Ok r => hr_name run = hr_name r ∧ hr_status run = hr_status r ∧ hr_output run = hr_output r ∧ hr_error run = hr_error r ∧ hr_result run = hr_result r
  | Raise e => hr_name run = hd_name d ∧ hr_status run = hb_failed ∧ hr_error run = exn_class e +:+ ": " +:+ exn_str e ∧ hr_already_running run = false
  end.

Lemma bind_runs {A B} (m : M W A) (k : A → M W B) w a w' : m w = (Ok a, w') → (m ≫= k) w = k a w'.
Proof using Type. intros E. unfold mbind, M_bind. by rewrite E. Qed.
Lemma part_runs {A} (m : M (Scheduler H) A) w a sc : m (part w) = (Ok a, sc) → on_part m w = (Ok a, set_part sc w).
Proof using Type. intros E. unfold on_part, zoom. by rewrite E. Qed.

Lemma after_run d run w : ∃ w',
  (_keep from_crontab disk d run;;
   (if bool_decide (hr_status run = hb_skipped) then _schedule_retry now next_run_time d else on_part (_cancel_retry (hd_name d)));; mret run) w
  = (Ok run, w') ∧ sc_running (sc_of w') = sc_running (sc_of w) ∧ sc_runs (sc_of w') = sc_runs (sc_of w).
Proof using All.
  set (w1 := set_part (keep_run from_crontab (disk w) d run (part w)) w).
  assert (sc_running (sc_of w1) = sc_running (sc_of w) ∧ sc_runs (sc_of w1) = sc_runs (sc_of w)) as [Hr1 Hs1].
  { unfold w1. rewrite part_set. by destruct (keep_run_keeps (disk w) d run (part w)) as (-> & -> & _). }
  unfold _keep. run_monad. cbn. fold w1. destruct (bool_decide (hr_status run = hb_skipped)).
  - unfold _schedule_retry. destruct (hd_retry_after d) as [minutes|]; [|by exists w1]. destruct (_ =? 0)%Z; [by exists w1|].
    unfold tables. run_monad. cbn. destruct (tb_jobs _); [|by exists w1]. destruct (heart_ticks w1) as (t & w2 & E & Hp). rewrite E.
    destruct (match next_run_at _ _ _ with Some s => _ | None => _ end).
    + exists w2. rewrite Hp. done.
    + unfold add_job, on_part, zoom, on_tables. run_monad. cbn. eexists. split; [done|]. rewrite part_set, Hp. done.
  - unfold _cancel_retry, on_part, zoom, on_tables. run_monad. cbn. eexists. split; [done|]. rewrite part_set. done.
Qed.

Lemma ends_run d trigger started r w : ∃ f w',
  (on_part (release (hd_name d));;
   finished ← (match hr_finished_at r with Some t => mret t | None => now end);
   (let run := stamped finished started trigger r in
    on_part (add_run run);;
    _keep from_crontab disk d run;;
    (if bool_decide (hr_status run = hb_skipped) then _schedule_retry now next_run_time d else on_part (_cancel_retry (hd_name d)));;
    mret run)) w = (Ok (stamped f started trigger r), w') ∧
  sc_running (sc_of w') = sc_running (run_state (release (hd_name d)) (sc_of w)) ∧ sc_runs (sc_of w') = sc_runs (sc_of w) ++ [stamped f started trigger r].
Proof using All.
  rewrite (bind_runs _ _ w tt _ (part_runs (release (hd_name d)) w tt _ eq_refl)). set (w1 := set_part _ w).
  assert (∃ f w2, (match hr_finished_at r with Some t => mret t | None => now end) w1 = (Ok f, w2) ∧ sc_of w2 = sc_of w1) as (f & w2 & Ef & H2).
  { destruct (hr_finished_at r) as [t|]; [by exists t, w1|]. apply heart_ticks. }
  rewrite (bind_runs _ _ _ _ _ Ef). exists f. cbv zeta.
  rewrite (bind_runs _ _ w2 tt _ (part_runs (add_run (stamped f started trigger r)) w2 tt _ eq_refl)). set (w3 := set_part _ w2).
  destruct (after_run d (stamped f started trigger r) w3) as (w' & E & Hr & Hs). rewrite E. exists w'. split; [done|].
  rewrite Hr, Hs. unfold w3. rewrite part_set, H2. unfold w1. rewrite part_set. done.
Qed.

(** C29. A run always ends in a record ([_invoke]), for any handler that leaves the counts as it found
    them, whatever it answers or raises. A scheduled job that is already running is refused: the
    caller is told, and the scheduler is as it was. Otherwise the handler is called once, from the
    claimed state; an exception becomes a failed run with its text, the run is not later than its
    start, is appended to the history and returned, and afterwards the same runs are in progress as
    before. No exception reaches the caller. *)
Theorem invoke_returns d h trigger w : (∀ h d, Respects keeps_running (call h d)) → counts_positive (sc_of w) →
  ∃ run w', invoke d h trigger w = (Ok run, w') ∧ sc_running (sc_of w') = sc_running (sc_of w) ∧
  if is_running (sc_of w) (hd_name d) && scheduled (sc_of w) (hd_name d)
  then refused_run d trigger run ∧ sc_of w' = sc_of w
  else ∃ started w0 w1, run_res now w = Ok started ∧ sc_of w0 = run_state (claim d) (sc_of w) ∧ w1 = run_state (call h d) w0 ∧
    run_of d trigger started (run_res (call h d) w0) run ∧ sc_runs (sc_of w') = sc_runs (sc_of w1) ++ [run].
Proof using All.
  intros Hcall Hpos. unfold _invoke. destruct (heart_ticks w) as (started & wa & Ea & Ha). rewrite (bind_runs _ _ _ _ _ Ea).
  destruct (is_running (sc_of w) (hd_name d) && scheduled (sc_of w) (hd_name d)) eqn:Href.
  - assert (claim d (part wa) = (Ok true, part wa)) as Hcl by (rewrite Ha; unfold claim; by unfold scheduled in Href; rewrite Href).
    rewrite (bind_runs _ _ _ _ _ (part_runs _ _ _ _ Hcl)). eexists _, _. split; [reflexivity|]. rewrite part_set, Ha. done.
  - assert (claim d (part wa) = (Ok false, run_state (claim d) (sc_of w))) as Hcl.
    { rewrite Ha. unfold claim. unfold scheduled in Href. by rewrite Href. }
    rewrite (bind_runs _ _ _ _ _ (part_runs _ _ _ _ Hcl)). cbn iota. set (w0 := set_part _ wa).
    assert (sc_of w0 = run_state (claim d) (sc_of w)) as H0 by (unfold w0; by rewrite part_set).
    pose proof (Hcall h d w0) as Hkeep. unfold keeps_running in Hkeep.
    destruct (call h d w0) as [answer w1] eqn:Ec. cbn in Hkeep.
    assert (∃ r w2, (try (call h d) except e => (finished ← now;
       mret (plain_run (hd_name d) hb_failed started finished "" (exn_class e +:+ ": " +:+ exn_str e) "schedule" false))) w0 = (Ok r, w2) ∧
       sc_of w2 = sc_of w1 ∧ ∀ f, run_of d trigger started answer (stamped f started trigger r)) as (r & w2 & Er & H2 & Hof).
    { unfold try_except. rewrite Ec. destruct answer as [r|e].
      - exists r, w1. split; [done|]. split; [done|]. intros f. repeat split; try done; [by eexists|]. cbn. lia.
      - destruct (heart_ticks w1) as (f & w2 & Ef & Hf). rewrite (bind_runs _ _ _ _ _ Ef). eexists _, w2. split; [reflexivity|].
        split; [done|]. intros f'. repeat split; try done; [by eexists|]. cbn. lia. }
    rewrite (bind_runs _ _ _ _ _ Er). destruct (ends_run d trigger started r w2) as (f & w' & E & Hr & Hs).
    eexists _, w'. split; [exact E|]. split.
    + rewrite Hr, H2. apply claim_release; [done|by rewrite <- Ha, Hcl|by rewrite Hkeep, H0].
    + exists started, w0, w1. rewrite Ea, H0, Ec, Hs, H2. done.
Qed.
End runs.

(** ** The owner's edits *)

Section edits.
Context {W H : Type} `{!Part W (Scheduler H), !PartLaws W (Scheduler H)}.
Context (now : M W Z) (from_crontab : string → Trigger + string) (interval_error : Z → option exn) (settings_fault : W → option exn)
  (disk : W → DiskWrite) `{!HeartClock W H now}.
Hypothesis reads_fields : ∀ s, from_crontab (join " " (str_split s)) = from_crontab s.
Hypothesis no_fault : ∀ w, settings_fault w = None.

Abbreviation sc_of w := (part w : Scheduler H).
Abbreviation apply_ := (_apply (H:=H) from_crontab interval_error).
Abbreviation do_register := (register now from_crontab interval_error settings_fault disk).
Abbreviation do_update := (update now from_crontab interval_error settings_fault).
Abbreviation do_reset := (reset now from_crontab interval_error settings_fault).

(** What decides an effective definition: the declared one and what is saved. *)
Definition in_force (sc : Scheduler H) (d : HeartbeatDefinition) : option HeartbeatDefinition :=
  (λ st, with_saved from_crontab (settings_get (hd_name d) st) d) <$> sc_settings sc.
Record in_step (sc : Scheduler H) : Prop := {
  is_settings : sc_settings sc ≠ None;
  is_named name d : od_get name (tb_declared (sc_tables sc)) = Some d → hd_name d = name;
  is_effective name d : od_get name (tb_declared (sc_tables sc)) = Some d → od_get name (tb_effective (sc_tables sc)) = in_force sc d }.

(** Nothing of this changes. *)
Definition same_book (w w' : W) : Prop :=
  tb_declared (sc_tables (sc_of w')) = tb_declared (sc_tables (sc_of w)) ∧
  tb_effective (sc_tables (sc_of w')) = tb_effective (sc_tables (sc_of w)) ∧ sc_settings (sc_of w') = sc_settings (sc_of w).
#[local] Instance same_book_preorder : PreOrder same_book.
Proof using Type. split; [by intros w|]. intros w1 w2 w3 (A1 & B1 & C1) (A2 & B2 & C2). unfold same_book. by rewrite A2, B2, C2. Qed.

Lemma same_part {A} (m : M (Scheduler H) A) :
  (∀ sc, tb_declared (sc_tables (run_state m sc)) = tb_declared (sc_tables sc) ∧ tb_effective (sc_tables (run_state m sc)) = tb_effective (sc_tables sc) ∧
         sc_settings (run_state m sc) = sc_settings sc) → Respects same_book (on_part m).
Proof using PartLaws0.
  intros Hm w. unfold on_part, zoom, same_book. specialize (Hm (part w)). destruct (m (part w)) as [r sc]. cbn in *. by rewrite part_set.
Qed.

#[local] Instance same_now : Respects same_book now.
Proof using All. intros w. destruct (heart_ticks w) as (t & w' & E & Hp). rewrite E. unfold same_book. cbn. by rewrite Hp. Qed.

#[local] Instance same_apply d : Respects same_book (apply_ d).
Proof using PartLaws0.
  unfold _apply. destruct (negb _).
  { apply (respects_bind same_book); [by apply same_part|apply _]. }
  apply (respects_bind same_book); [apply _|]. intros sc. destruct (wrong_platform _ _).
  { apply (respects_bind same_book); [by apply same_part|apply _]. }
  destruct (handler_of sc d) as [h|].
  2: { apply (respects_bind same_book); [by apply same_part|apply _]. }
  apply (respects_bind same_book); [by apply same_part|]. intros _. destruct (tb_jobs _); [|apply _].
  apply (respects_bind same_book); [apply _|]. intros trigger. apply (respects_bind same_book); [by apply same_part|apply _].
Qed.

#[local] Instance same_note name : Respects same_book (note_scheduled now disk name).
Proof using All.
  unfold note_scheduled. apply (respects_bind same_book); [apply _|]. intros sc. destruct (sc_run_store sc); [|apply _].
  apply (respects_bind same_book); [apply _|]. intros t w. unfold same_book. cbn. by rewrite part_set.
Qed.

Lemma in_step_same w w' : same_book w w' → in_step (sc_of w) → in_step (sc_of w').
Proof using Type.
  intros (Hd & He & Hs) [H1 H2 H3]. split; [by rewrite Hs|intros name d; rewrite Hd; apply H2|].
  intros name d. rewrite Hd, He. unfold in_force. rewrite Hs. apply H3.
Qed.

(** ** One step *)

Lemma valid_saved v d : let c := with_saved from_crontab v d in
  c = edited (hd_schedule c) (hd_enabled c) d ∧
  (hd_schedule c = hd_schedule d ∨ validate_schedule from_crontab (hd_schedule c) = Ok (hd_schedule c)).
Proof using reads_fields.
  unfold with_saved. destruct v; try (split; [by destruct d|by left]). split; [done|]. cbn.
  destruct (od_get "schedule" _) as [v|]; [|by left]. destruct (validate_schedule _ (str_val v)) eqn:E; [right|by left].
  by eapply validate_schedule_idem.
Qed.

Lemma saved_diff d s e st cur new actor t : (s = hd_schedule d ∨ validate_schedule from_crontab s = Ok s) →
  with_saved from_crontab (settings_get (hd_name d)
    (match edit_diff d (edited s e d) with
     | [] => settings_clear (hd_name d) cur new actor t st
     | diff => settings_set (hd_name d) (VDict diff) cur new actor t st
     end)) d = edited s e d.
Proof using Type.
  intros Hs. unfold edit_diff. cbn [edited hd_schedule hd_enabled].
  destruct (String.eqb_spec s (hd_schedule d)) as [->|Hne], (Bool.eqb_spec e (hd_enabled d)) as [->|He]; cbn [app].
  - unfold settings_get, settings_clear. cbn. rewrite lookup_delete_eq. by destruct d.
  - unfold settings_get, settings_set. cbn. rewrite lookup_insert_eq. done.
  - unfold settings_get, settings_set. cbn. rewrite lookup_insert_eq. cbn. destruct Hs as [|Hs]; [done|]. by rewrite Hs.
  - unfold settings_get, settings_set. cbn. rewrite lookup_insert_eq. cbn. destruct Hs as [|Hs]; [done|]. by rewrite Hs.
Qed.

Lemma save_runs d current target actor w st : sc_settings (sc_of w) = Some st → ∃ t w',
  _save now settings_fault d current target actor w = (Ok tt, w') ∧
  sc_tables (sc_of w') = sc_tables (sc_of w) ∧
  sc_settings (sc_of w') = Some
    (match edit_diff d target with
     | [] => settings_clear (hd_name d) (_value current) (_value target) actor t st
     | diff => settings_set (hd_name d) (VDict diff) (_value current) (_value target) actor t st
     end).
Proof using All.
  intros Hst. unfold _save. rewrite (bind_runs get_state _ w w w eq_refl), Hst, no_fault.
  destruct (heart_ticks w) as (t & w1 & E & Hp). rewrite (bind_runs _ _ _ _ _ E). exists t. eexists. split; [reflexivity|].
  rewrite part_set. cbn. by rewrite Hp.
Qed.

Lemma settings_clear_other name key st cur new actor t : key ≠ name →
  settings_get name (settings_clear key cur new actor t st) = settings_get name st.
Proof using Type. intros Hne. unfold settings_get. cbn. by rewrite lookup_delete_ne. Qed.
Lemma settings_set_other name key st value cur new actor t : key ≠ name →
  settings_get name (settings_set key value cur new actor t st) = settings_get name st.
Proof using Type. intros Hne. unfold settings_get. cbn. by rewrite lookup_insert_ne. Qed.

Lemma put_in_force_ok d s e current actor w : in_step (sc_of w) → od_get (hd_name d) (tb_declared (sc_tables (sc_of w))) = Some d →
  (s = hd_schedule d ∨ validate_schedule from_crontab s = Ok s) →
  in_step (sc_of (run_state (put_in_force now from_crontab interval_error settings_fault d current (edited s e d) actor) w)) ∧
  od_get (hd_name d) (tb_effective (sc_tables (sc_of (run_state (put_in_force now from_crontab interval_error settings_fault d current (edited s e d) actor) w))))
    = Some (edited s e d).
Proof using All.
  intros Hin Hd Hs. destruct (sc_settings (sc_of w)) as [st|] eqn:Est; [|by destruct (is_settings _ Hin)].
  unfold put_in_force. destruct (save_runs d current (edited s e d) actor w st Est) as (t & w1 & E1 & Ht & Hst).
  rewrite (bind_runs _ _ _ _ _ E1). set (st' := match edit_diff d _ with [] => _ | _ => _ end) in *.
  rewrite (bind_runs _ _ w1 tt _ (part_runs (on_tables _) w1 tt _ eq_refl)). set (w2 := set_part _ w1).
  assert (in_step (sc_of w2) ∧ od_get (hd_name d) (tb_effective (sc_tables (sc_of w2))) = Some (edited s e d)) as [H2 He].
  { assert (sc_tables (sc_of w2) = set_effective (kv_set (hd_name d) (edited s e d) (tb_effective (sc_tables (sc_of w)))) (sc_tables (sc_of w))) as Et.
    { unfold w2. rewrite part_set. cbn [set_tables sc_tables]. by rewrite Ht. }
    assert (sc_settings (sc_of w2) = Some st') as Es by (unfold w2; by rewrite part_set).
    split; [|by rewrite Et; cbn [set_effective tb_effective]; rewrite od_get_kv_set, String.eqb_refl].
    split; [by rewrite Es|rewrite Et; intros name d'; apply Hin|].
    intros name d' Hd'. rewrite Et in *. cbn [set_effective tb_effective tb_declared] in *. rewrite od_get_kv_set. unfold in_force. rewrite Es.
    cbn [fmap option_fmap option_map]. pose proof (is_named _ Hin _ _ Hd') as Hn.
    destruct (String.eqb_spec (hd_name d) name) as [<-|Hne].
    - assert (d' = d) as -> by congruence. f_equal. symmetry. by apply saved_diff.
    - rewrite (is_effective _ Hin _ _ Hd'). unfold in_force. rewrite Est. cbn [fmap option_fmap option_map]. do 2 f_equal. symmetry. unfold st'.
      rewrite <- Hn in Hne. destruct (edit_diff _ _); [by apply settings_clear_other|by apply settings_set_other]. }
  assert (same_book w2 (run_state (_ ← apply_ (edited s e d); mret (edited s e d)) w2)) as Hsame.
  { apply (respects_bind same_book); apply _. }
  split; [by eapply in_step_same|]. destruct Hsame as (_ & -> & _). done.
Qed.

Lemma register_declares d origin w : sc_settings (sc_of w) ≠ None → ∃ w1 c,
  in_force (sc_of w) d = Some c ∧
  sc_tables (sc_of w1) = set_effective (kv_set (hd_name d) c (tb_effective (sc_tables (sc_of w))))
     (set_declared (kv_set (hd_name d) d (tb_declared (sc_tables (sc_of w)))) (kv_set (hd_name d) origin (tb_origin (sc_tables (sc_of w))))
        (sc_tables (sc_of w))) ∧
  sc_settings (sc_of w1) = sc_settings (sc_of w) ∧
  (same_book w1 (run_state (do_register d origin) w) ∨ same_book w (run_state (do_register d origin) w) ∧ ∃ d', od_get (hd_name d) (tb_declared (sc_tables (sc_of w))) = Some d').
Proof using All.
  intros Hst. destruct (sc_settings (sc_of w)) as [st|] eqn:Est; [|done].
  set (w0 := set_part (set_tables (set_declared (kv_set (hd_name d) d (tb_declared (sc_tables (sc_of w))))
     (kv_set (hd_name d) origin (tb_origin (sc_tables (sc_of w)))) (sc_tables (sc_of w))) (sc_of w)) w).
  set (c := with_saved from_crontab (settings_get (hd_name d) st) d).
  set (w1 := set_part (set_tables (set_effective (kv_set (hd_name d) c (tb_effective (sc_tables (sc_of w0)))) (sc_tables (sc_of w0))) (sc_of w0)) w0).
  assert (sc_settings (sc_of w0) = Some st) as E0 by (unfold w0; by rewrite part_set).
  exists w1, c. split; [unfold in_force; by rewrite Est|]. split; [unfold w1; rewrite part_set; unfold w0; by rewrite part_set|].
  split; [unfold w1; by rewrite part_set|].
  assert (_with_override from_crontab settings_fault d w0 = (Ok c, w0)) as Hov by (unfold _with_override; by rewrite E0, no_fault).
  assert (same_book w1 (run_state (note_scheduled now disk (hd_name d);; apply_ c) w1)) as Hend.
  { apply (respects_bind same_book); apply _. }
  assert (same_book w1 (run_state (on_part (on_tables (λ t, set_declared (kv_set (hd_name d) d (tb_declared t)) (kv_set (hd_name d) origin (tb_origin t)) t));;
    effective ← _with_override from_crontab settings_fault d;
    on_part (on_tables (λ t, set_effective (kv_set (hd_name d) effective (tb_effective t)) t));;
    note_scheduled now disk (hd_name d);; apply_ effective) w)) as Hdeclare.
  { rewrite (bind_runs _ _ w tt _ (part_runs (on_tables _) w tt _ eq_refl)). rewrite (bind_runs _ _ _ _ _ Hov).
    rewrite (bind_runs _ _ w0 tt _ (part_runs (on_tables _) w0 tt _ eq_refl)). exact Hend. }
  unfold register. rewrite (bind_runs tables _ w _ w eq_refl). cbv zeta.
  destruct (od_get (hd_name d) (tb_declared (sc_tables (part w)))) as [d'|]; [|by left].
  destruct (od_get (hd_name d) (tb_origin (sc_tables (part w)))) as [held|]; [|by left].
  destruct (_ && _); [right; split; [|by eexists]|by left].
  apply (respects_bind same_book); apply _.
Qed.

Lemma register_in_step d origin w : in_step (sc_of w) → in_step (sc_of (run_state (do_register d origin) w)).
Proof using All.
  intros Hin. destruct (register_declares d origin w (is_settings _ Hin)) as (w1 & c & Hc & Ht & Hs & [Hsame|[Hsame _]]); [|by eapply in_step_same].
  eapply in_step_same; [exact Hsame|]. split; [rewrite Hs; apply Hin| |]; rewrite Ht; cbn [set_effective set_declared tb_declared tb_effective].
  - intros name d'. rewrite od_get_kv_set. destruct (String.eqb_spec (hd_name d) name) as [|Hne]; [by intros [= <-]|apply Hin].
  - intros name d'. rewrite !od_get_kv_set. unfold in_force. rewrite Hs. destruct (String.eqb_spec (hd_name d) name) as [|Hne].
    + intros [= <-]. symmetry. exact Hc.
    + apply Hin.
Qed.

Lemma force_effective sc d c : in_step sc → od_get (hd_name d) (tb_declared (sc_tables sc)) = Some d →
  od_get (hd_name d) (tb_effective (sc_tables sc)) = Some c →
  c = edited (hd_schedule c) (hd_enabled c) d ∧ (hd_schedule c = hd_schedule d ∨ validate_schedule from_crontab (hd_schedule c) = Ok (hd_schedule c)).
Proof using reads_fields.
  intros Hin Hd Hc. rewrite (is_effective _ Hin _ _ Hd) in Hc. unfold in_force in Hc. destruct (sc_settings sc) as [st|]; [|done].
  injection Hc as <-. apply valid_saved.
Qed.

Lemma update_outcome name schedule enabled actor w : in_step (sc_of w) →
  in_step (sc_of (run_state (do_update name schedule enabled actor) w)) ∧
  ∀ c, run_res (do_update name schedule enabled actor) w = Ok c →
    od_get name (tb_effective (sc_tables (sc_of (run_state (do_update name schedule enabled actor) w)))) = Some c.
Proof using All.
  intros Hin. unfold update. rewrite (bind_runs sched _ w (sc_of w) w eq_refl). unfold lookup_key.
  destruct (od_get name (tb_declared (sc_tables (sc_of w)))) as [d|] eqn:Ed; [|done].
  rewrite (bind_runs (lift_res (Ok d)) _ w d w eq_refl).
  destruct (od_get name (tb_effective (sc_tables (sc_of w)))) as [cur|] eqn:Ec; [|done].
  rewrite (bind_runs (lift_res (Ok cur)) _ w cur w eq_refl).
  pose proof (is_named _ Hin _ _ Ed) as Hn. rewrite <- Hn in Ed, Ec |- *.
  destruct (force_effective _ _ _ Hin Ed Ec) as [Hcur Hval].
  destruct (match schedule with Some s => _ | None => _ end) as [s|e] eqn:Es; [|done].
  rewrite (bind_runs (lift_res (Ok s)) _ w s w eq_refl). cbv zeta.
  destruct (if hd_enabled _ then _ else _); [done|]. destruct (same_edit _ cur) eqn:Hsame; [by split; [|intros c [= <-]]|].
  assert (s = hd_schedule d ∨ validate_schedule from_crontab s = Ok s) as Hs.
  { destruct schedule as [s'|]; [right; by eapply validate_schedule_idem|]. injection Es as <-. exact Hval. }
  assert (edited s (default (hd_enabled cur) enabled) cur = edited s (default (hd_enabled cur) enabled) d) as -> by (by rewrite Hcur).
  destruct (put_in_force_ok d s (default (hd_enabled cur) enabled) cur actor w Hin Ed Hs) as [H1 H2]. split; [done|].
  intros c Hc. rewrite H2. f_equal. unfold put_in_force in Hc.
  destruct (sc_settings (sc_of w)) as [st|] eqn:Est; [|by destruct (is_settings _ Hin)].
  destruct (save_runs d cur (edited s (default (hd_enabled cur) enabled) d) actor w st Est) as (t & w1 & E1 & _ & _).
  rewrite (bind_runs _ _ _ _ _ E1) in Hc. rewrite (bind_runs _ _ w1 tt _ (part_runs (on_tables _) w1 tt _ eq_refl)) in Hc.
  unfold mbind, M_bind in Hc. destruct (apply_ _ _) as [[?|?] ?]; [by injection Hc|done].
Qed.

Lemma reset_in_step name actor w : in_step (sc_of w) → in_step (sc_of (run_state (do_reset name actor) w)).
Proof using All.
  intros Hin. unfold reset. rewrite (bind_runs tables _ w (sc_tables (sc_of w)) w eq_refl). unfold lookup_key.
  destruct (od_get name (tb_declared (sc_tables (sc_of w)))) as [d|] eqn:Ed; [|done].
  rewrite (bind_runs (lift_res (Ok d)) _ w d w eq_refl).
  destruct (od_get name (tb_effective (sc_tables (sc_of w)))) as [cur|] eqn:Ec; [|done].
  rewrite (bind_runs (lift_res (Ok cur)) _ w cur w eq_refl). destruct (same_edit cur d); [done|].
  pose proof (is_named _ Hin _ _ Ed) as Hn. rewrite <- Hn in Ed.
  assert (d = edited (hd_schedule d) (hd_enabled d) d) as Hd by (by destruct d). rewrite Hd at 2.
  apply put_in_force_ok; [done|done|by left].
Qed.
End edits.

(** What a surface does to the definitions; an exception goes back to its caller. *)
Inductive Edit :=
| ERegister (d : HeartbeatDefinition) (origin : Origin)
| EUpdate (name : string) (schedule : option string) (enabled : option bool) (actor : string)
| EReset (name actor : string).

Section surfaces.
Context {W H : Type} `{!Part W (Scheduler H)}.
Context (now : M W Z) (from_crontab : string → Trigger + string) (interval_error : Z → option exn) (settings_fault : W → option exn)
  (disk : W → DiskWrite).
Definition edit (e : Edit) (w : W) : W :=
  match e with
  | ERegister d origin => run_state (register now from_crontab interval_error settings_fault disk d origin) w
  | EUpdate name schedule enabled actor => run_state (update now from_crontab interval_error settings_fault name schedule enabled actor) w
  | EReset name actor => run_state (reset now from_crontab interval_error settings_fault name actor) w
  end.
Definition edits (l : list Edit) (w : W) : W := fold_left (λ w e, edit e w) l w.
End surfaces.

(** C28. An owner's edit survives a restart ([update], [reset], [register], [_with_override]). From a new
    scheduler on, after any registrations, edits and resets, whether they answered or raised, take a
    declared job: another scheduler that starts with the settings as they are then, whatever handlers,
    platform and kept runs it has, and registers the same declaration, puts in force the same schedule
    and the same switch. And what an edit answers with is what is in force after it. *)
Theorem edits_survive_restart {W H : Type} `{!Part W (Scheduler H), !PartLaws W (Scheduler H)} (now : M W Z) `{!HeartClock W H now}
  from_crontab interval_error settings_fault disk handlers platform with_jobs st rs t0 l w :
  (∀ s, from_crontab (join " " (str_split s)) = from_crontab s) → (∀ w, settings_fault w = None) →
  part w = new_scheduler handlers platform with_jobs (Some st) rs t0 →
  let w' := edits now from_crontab interval_error settings_fault disk l w in
  (∀ name d, od_get name (tb_declared (sc_tables (part w'))) = Some d →
     ∃ st' c, sc_settings (part w') = Some st' ∧ od_get name (tb_effective (sc_tables (part w'))) = Some c ∧
     ∀ w1 handlers1 platform1 with_jobs1 rs1 t1 origin, part w1 = new_scheduler handlers1 platform1 with_jobs1 (Some st') rs1 t1 →
       od_get name (tb_effective (sc_tables (part (run_state (register now from_crontab interval_error settings_fault disk d origin) w1)))) = Some c) ∧
  (∀ name schedule enabled actor c, run_res (update now from_crontab interval_error settings_fault name schedule enabled actor) w' = Ok c →
     od_get name (tb_effective (sc_tables (part (run_state (update now from_crontab interval_error settings_fault name schedule enabled actor) w')))) = Some c).
Proof.
  intros Hcron Hf Hw w'. assert (in_step from_crontab (part w')) as Hin.
  { assert (in_step from_crontab (part w)) as H0 by (rewrite Hw; by split).
    unfold w', edits. clear Hw w'. revert w H0. induction l as [|e l IH]; intros w H0; [done|]. cbn [fold_left]. apply IH.
    destruct e; [by apply register_in_step|by apply update_outcome|by apply reset_in_step]. }
  split; [|intros name schedule enabled actor; by apply update_outcome]. intros name d Hd.
  destruct (sc_settings (part w')) as [st'|] eqn:Est; [|by destruct (is_settings _ _ Hin)].
  exists st'. eexists. split; [done|]. rewrite (is_effective _ _ Hin _ _ Hd). unfold in_force. rewrite Est. split; [done|].
  intros w1 handlers1 platform1 with_jobs1 rs1 t1 origin H1. pose proof (is_named _ _ Hin _ _ Hd) as <-.
  destruct (register_declares now from_crontab interval_error settings_fault disk Hcron Hf d origin w1) as (w2 & c & Hc & Ht & Hs & Hor).
  { by rewrite H1. }
  destruct Hor as [Hsame|[_ (d' & Hd')]]; [|by rewrite H1 in Hd'].
  destruct Hsame as (_ & -> & _). rewrite Ht. cbn [set_effective set_declared tb_effective]. rewrite od_get_kv_set, String.eqb_refl.
  rewrite <- Hc. unfold in_force. by rewrite H1.
Qed.

(** ** Examples *)

Definition NOON : Z := 20 * DAY + 12 * HOUR.
Definition sample_now : M (Scheduler nat) Z := λ sc, (Ok NOON, sc).
#[export] Instance sample_clock : HeartClock (Scheduler nat) nat sample_now.
Proof. split. intros w. by exists NOON, w. Qed.
Definition no_error : Z → option exn := λ _, None.
Definition good_disk : Scheduler nat → DiskWrite := λ _, {| dw_insert_fails := false; dw_prune_fails := false; dw_now := NOON |}.
Definition no_settings_fault : Scheduler nat → option exn := λ _, None.

(** Handler 0 succeeds, handler 1 raises. *)
Definition sample_call (h : nat) (d : HeartbeatDefinition) : M (Scheduler nat) HeartbeatRun :=
  match h with 0 => mret (sample_run hb_success (NOON + SECOND)%Z) | _ => raise (Exn "ValueError" "no mail server") end.

Definition sample_new : Scheduler nat :=
  new_scheduler [("sweep", 1)] "linux" true (Some empty_settings) (Some (fresh_store 30)) (20 * DAY)%Z.
Definition sample_register := register sample_now sample_crontab no_error no_settings_fault good_disk.
Definition sample_started : Scheduler nat := run_state (sample_register (sample_job "0 */6 * * *") o_config) sample_new.

Lemma one_run_at_a_time_witness :
  let sc := run_state (claim (sample_job "0 */6 * * *")) sample_started in
  is_running sc "sweep" = true ∧ run_res (claim (sample_job "0 */6 * * *")) sc = Ok true.
Proof.
  split; [|by vm_compute]. apply (one_run_at_a_time sample_started _ [{| fl_thread := 1; fl_name := "sweep"; fl_scheduled := true |}]).
  - by vm_compute.
  - eapply rtc_l; [|apply rtc_l with (2 := rtc_refl _ _)].
    + apply (step_claim sample_started [] 1 (sample_job "0 */6 * * *")). reflexivity.
    + eapply (step_refused _ _ (sample_job "0 */6 * * *")). reflexivity.
  - exists {| fl_thread := 1; fl_name := "sweep"; fl_scheduled := true |}. split; [left|done].
Defined.

Lemma invoke_returns_witness :
  ∃ run w', _invoke sample_now sample_crontab (λ _ _, None) sample_call good_disk (sample_job "0 */6 * * *") 1 "manual" sample_started = (Ok run, w') ∧
  is_running w' "sweep" = false ∧ hr_status run = hb_failed ∧ hr_error run = "ValueError: no mail server".
Proof.
  destruct (invoke_returns (H:=nat) sample_now sample_crontab (λ _ _, None) sample_call good_disk (sample_job "0 */6 * * *") 1 "manual" sample_started)
    as (run & w' & E & Hr & Ho).
  - intros [|h] d w; reflexivity.
  - intros name n Hn. vm_compute in Hn. discriminate.
  - exists run, w'. split; [exact E|]. split; [unfold is_running; change (part w') with w' in Hr; rewrite Hr; by vm_compute|].
    destruct Ho as (started & w0 & w1 & _ & _ & _ & (_ & _ & _ & _ & Hs & He & _) & _). split; [exact Hs|exact He].
Defined.

Definition sample_edits : list Edit :=
  [ERegister (sample_job "0 */6 * * *") o_config; EUpdate "sweep" (Some " every hour ") None "device:1"; EUpdate "sweep" (Some "interval: 0600") None "device:1";
   EUpdate "sweep" None (Some false) "service"].
Definition sample_edited : Scheduler nat := edits sample_now sample_crontab no_error no_settings_fault good_disk sample_edits sample_new.

Lemma edits_survive_restart_witness :
  ∃ st c, sc_settings sample_edited = Some st ∧ hd_schedule c = "interval:600" ∧ hd_enabled c = false ∧
  od_get "sweep" (tb_effective (sc_tables (run_state (sample_register (sample_job "0 */6 * * *") o_plugin)
    (new_scheduler [] "darwin" false (Some st) None 0)))) = Some c.
Proof.
  destruct (edits_survive_restart (W:=Scheduler nat) (H:=nat) sample_now sample_crontab no_error no_settings_fault good_disk [("sweep", 1)] "linux" true
    empty_settings (Some (fresh_store 30)) (20 * DAY)%Z sample_edits sample_new) as [Hall _].
  - intros s. unfold sample_crontab. rewrite split_join_words; [done|]. by apply words_from_good.
  - done.
  - done.
  - destruct (Hall "sweep" (sample_job "0 */6 * * *")) as (st & c & Hst & Hc & Hre); [by vm_compute|].
    exists st, c. split; [exact Hst|]. assert (c = edited "interval:600" false (sample_job "0 */6 * * *")) as Ec.
    { vm_compute in Hc. injection Hc as <-. by vm_compute. }
    split; [by rewrite Ec|]. split; [by rewrite Ec|]. by apply (Hre (new_scheduler [] "darwin" false (Some st) None 0%Z) [] "darwin" false None 0%Z o_plugin).
Defined.

(** A tick of every minute that works all along: only its first run is kept, so an hour later the
    job is reported missed. *)
Definition tick_job : HeartbeatDefinition := sample_job "interval:60".
Definition after_ticks (n : nat) : Scheduler nat :=
  fold_left (λ sc i, keep_run sample_crontab (good_disk sc) tick_job (sample_run hb_success (NOON + Z.of_nat i * MINUTE)) sc) (seq 0 n)
    (run_state (sample_register tick_job o_config) sample_new).
Example quiet_tick_missed :
  let j := job_status sample_crontab utc (after_ticks 60) "sweep" DEFAULT_GRACE (NOON + HOUR) in
  js_missed <$> j = Some true ∧ js_state <$> j = Some RED ∧ js_detail <$> j = Some "Missed 12:01 — last success 12:00".
Proof. by vm_compute. Qed.

(** Turning on a job whose declared schedule cannot be built raises after the edit is saved: it is on
    from then on, and listed as scheduled without a job, and the next start cannot register it. *)
Definition broken_job : HeartbeatDefinition := edited "0 6 * *" false (sample_job "").
Definition broken_before : Scheduler nat := run_state (sample_register broken_job o_config) sample_new.
Definition broken_update := update sample_now sample_crontab no_error no_settings_fault "sweep" None (Some true) "service" broken_before.
Example edit_saved_before_failing :
  run_res (λ _, broken_update) broken_before = Raise (Exn "ValueError" "Unrecognized expression") ∧
  (settings_get "sweep" <$> sc_settings (snd broken_update)) = Some (VDict [("enabled", VBool true)]) ∧
  od_get "sweep" (tb_definitions (sc_tables (snd broken_update))) = Some (edited "0 6 * *" true broken_job) ∧
  get_job (sc_tables (snd broken_update)) "sweep" = None ∧
  fst (register_all sample_now sample_crontab no_error no_settings_fault good_disk [broken_job]
         (new_scheduler [("sweep", 1)] "linux" true (sc_settings (snd broken_update)) None 0))
  = Raise (Exn "ValueError" "Unrecognized expression").
Proof. by vm_compute. Qed.

(** A skipped run is retried, the retry reads the job as it is then, and the next success cancels it. *)
Example retry_scheduled :
  let d := {| hd_name := "sweep"; hd_handler := "sweep"; hd_schedule := "0 */6 * * *"; hd_enabled := true; hd_description := "";
              hd_params := []; hd_platforms := []; hd_record_runs := None; hd_retry_after := Some 15%Z; hd_plugin := "" |} in
  let sc := run_state (_schedule_retry sample_now (λ _ _, Some (18 * HOUR + 20 * DAY)%Z) d) (run_state (sample_register d o_config) sample_new) in
  jb_trigger <$> get_job (sc_tables sc) "sweep__retry" = Some (TDate (NOON + 15 * MINUTE)) ∧
  get_job (sc_tables (run_state (_cancel_retry "sweep") sc)) "sweep__retry" = None.
Proof. by vm_compute. Qed.

(** A missed job is a red check, which the health watch and the Action Center show. *)
Example missed_job_alert :
  let sc := set_run_store (sample_store [20 * DAY]%Z) (run_state (sample_register (sample_job "0 */6 * * *") o_config) sample_new) in
  map hc_action (alerts (job_checks sample_crontab utc sc [{| wj_name := "sweep"; wj_grace := DEFAULT_GRACE |}] NOON)) =
  [Some "evarness heartbeats trigger sweep"].
Proof. by vm_compute. Qed.
