(* ===== verification/HealthWatch.v ===== *)
(** * The health watch ([services/health/watch.py], [incidents.py], [repair.py])

    It walks each red health check through one incident: confirm, repair, tell the owner, close. *)

From S2P Require Import Prelude PyVal PyText CallContext Tasks ActionCenter HeartbeatRuns Heartbeats.
From stdpp Require Import options.

(** ** Repairs ([repair.py]) *)

Record RepairOutcome := { ro_tried : string; ro_ok : bool; ro_detail : string; ro_final : bool }.

Definition HEARTBEAT_PREFIX : string := "heartbeat:".
Definition heartbeat_name (c : HealthCheck) : option string :=
  if startswith HEARTBEAT_PREFIX (hc_target c) then Some (str_drop 10 (hc_target c)) else None.

Section repairers.
Context {W : Type}.

(** A repairer says the check is not its own, or what it tried. *)
Definition Repairer : Type := HealthCheck → M W (option RepairOutcome).

(** [register_repairer]: the registered ones, by key. *)
Definition register_repairer (key : string) (r : Repairer) (rs : list (string * Repairer)) : list (string * Repairer) := kv_set key r rs.

(** [run_repairs] *)
Fixpoint run_repairs (c : HealthCheck) (rs : list Repairer) : M W (option RepairOutcome) :=
  match rs with
  | [] => mret None
  | r :: rs =>
      answer ← try (o ← r c; mret (inl o)) except e => mret (inr e);
      match answer with
      | inr e => mret (Some {| ro_tried := "repair"; ro_ok := false; ro_detail := str_take 300 (exn_class e +:+ ": " +:+ exn_str e); ro_final := false |})
      | inl (Some o) => mret (Some o)
      | inl None => run_repairs c rs
      end
  end.

(** [heartbeat_retry_repairer]; [trigger] is [trigger_by_name] of the scheduler, [None] without one. *)
Definition heartbeat_retry_repairer (trigger : option (string → M W (option HeartbeatRun))) (skip : list string) : Repairer := λ c,
  match heartbeat_name c, trigger with
  | Some name, Some trigger =>
      if str_in name skip then mret None
      else
        run ← trigger name;
        mret (Some
          match run with
          | None => {| ro_tried := "re-run " +:+ name; ro_ok := false; ro_detail := "no such heartbeat"; ro_final := false |}
          | Some run =>
              if hr_already_running run
              then {| ro_tried := "re-run " +:+ name; ro_ok := false; ro_detail := "already running; left alone"; ro_final := false |}
              else
                let status := hb_value (hr_status run) in
                {| ro_tried := "re-run " +:+ name; ro_ok := String.eqb status "success";
                   ro_detail := str_take 300 (str_strip (str_or (hr_error run) (str_or (hr_output run) status))); ro_final := false |}
          end)
  | _, _ => mret None
  end.

(** [service_restart_repairer]; [launch] starts the command. *)
Definition service_restart_repairer (commands : list (string * list string)) (never : list string) (launch : list string → M W unit) : Repairer := λ c,
  match hc_kind c, heartbeat_name c with
  | k_service, None =>
      match od_get (hc_target c) commands with
      | None | Some [] => mret None
      | Some argv =>
          if str_in (hc_target c) never then mret None
          else
            let restart ok detail := Some {| ro_tried := "restart " +:+ hc_target c; ro_ok := ok; ro_detail := detail; ro_final := false |} in
            try (launch argv;; mret (restart true (join " " argv))) except e => mret (restart false (str_take 300 (exn_str e)))
      end
  | _, _ => mret None
  end.

(** [credential_refresh_repairer] *)
Definition credential_refresh_repairer (target : string) (refresh : string → M W (option bool)) : Repairer := λ c,
  match hc_kind c, hc_subject c with
  | k_credential, Some subject =>
      if String.eqb (hc_target c) target && str_truthy subject then
        result ← refresh subject;
        mret (Some
          match result with
          | Some true => {| ro_tried := "token refresh"; ro_ok := true; ro_detail := ""; ro_final := false |}
          | Some false =>
              {| ro_tried := "token refresh"; ro_ok := false; ro_detail := "the provider refused the refresh (revoked or expired)"; ro_final := true |}
          | None => {| ro_tried := "token refresh"; ro_ok := false; ro_detail := "no stored token that can refresh"; ro_final := true |}
          end)
      else mret None
  | _, _ => mret None
  end.
End repairers.

(** ** Incidents ([incidents.py]) *)

Inductive IncidentState := repairing | needs_user | resolved.
#[export] Instance IncidentState_eq_dec : EqDecision IncidentState.
Proof. solve_decision. Defined.
Inductive Resolution := self_healed | user_fixed.
#[export] Instance Resolution_eq_dec : EqDecision Resolution.
Proof. solve_decision. Defined.
Definition resolution_str (r : Resolution) : string := match r with self_healed => "self_healed" | user_fixed => "user_fixed" end.

Record Incident := {
  in_id : Z; in_key : string; in_target : string; in_subject : option string; in_kind : string; in_state : IncidentState;
  in_detail : string; in_action : option string; in_opened_at : Z; in_updated_at : Z; in_attempts : nat; in_repairs : list (Z * RepairOutcome);
  in_notified_at : option Z; in_notify_count : nat; in_resolved_at : option Z; in_resolution : option Resolution }.

Definition is_open (i : Incident) : bool := match in_resolved_at i with None => true | Some _ => false end.

(** The table [health_incidents], in the order of its ids. *)
Record IncidentStore := { is_rows : list Incident; is_next : Z }.

Definition open_incidents (s : IncidentStore) : list Incident := select_where is_open (is_rows s).
Definition get_incident (id : Z) (s : IncidentStore) : option Incident := select_one (λ i, in_id i =? id)%Z (is_rows s).
Definition recent_incidents (limit : Z) (open_only : bool) (s : IncidentStore) : list Incident :=
  take (Z.to_nat (Z.max 1 limit)) (reverse (if open_only then open_incidents s else is_rows s)).
Definition count_since (key : string) (days now : Z) (s : IncidentStore) : nat :=
  count_where (λ i, String.eqb (in_key i) key && (now - days * DAY <=? in_opened_at i)%Z) (is_rows s).

(** [open]: the row as it is read back. *)
Definition new_incident (id : Z) (key : string) (c : HealthCheck) (now : Z) : Incident :=
  {| in_id := id; in_key := key; in_target := hc_target c; in_subject := hc_subject c; in_kind := check_kind_str (hc_kind c);
     in_state := repairing; in_detail := hc_detail c; in_action := hc_action c; in_opened_at := now; in_updated_at := now; in_attempts := 0;
     in_repairs := []; in_notified_at := None; in_notify_count := 0; in_resolved_at := None; in_resolution := None |}.
Definition open_incident (key : string) (c : HealthCheck) (now : Z) : M IncidentStore Incident := λ s,
  let i := new_incident (is_next s) key c now in
  (Ok i, {| is_rows := is_rows s ++ [i]; is_next := is_next s + 1 |}).

(** [save]: every mutable field, by id. *)
Definition touched (now : Z) (i : Incident) : Incident :=
  {| in_id := in_id i; in_key := in_key i; in_target := in_target i; in_subject := in_subject i; in_kind := in_kind i; in_state := in_state i;
     in_detail := in_detail i; in_action := in_action i; in_opened_at := in_opened_at i; in_updated_at := now; in_attempts := in_attempts i;
     in_repairs := in_repairs i; in_notified_at := in_notified_at i; in_notify_count := in_notify_count i; in_resolved_at := in_resolved_at i;
     in_resolution := in_resolution i |}.
Definition written (i row : Incident) : Incident :=
  {| in_id := in_id row; in_key := in_key row; in_target := in_target row; in_subject := in_subject row; in_kind := in_kind row;
     in_state := in_state i; in_detail := in_detail i; in_action := in_action i; in_opened_at := in_opened_at row; in_updated_at := in_updated_at i;
     in_attempts := in_attempts i; in_repairs := in_repairs i; in_notified_at := in_notified_at i; in_notify_count := in_notify_count i;
     in_resolved_at := in_resolved_at i; in_resolution := in_resolution i |}.
Definition save_incident (i : Incident) (now : Z) : M IncidentStore unit :=
  modify (λ s, {| is_rows := update_where (λ r, in_id r =? in_id i)%Z (written (touched now i)) (is_rows s); is_next := is_next s |}).

(** ** The watch ([watch.py]) *)

(** Durations are in microseconds; [wc_startup_words] is [startup_grace_minutes] as [:g] prints it. *)
Record WatchConfig := {
  wc_enabled : bool; wc_confirm_ticks : Z; wc_max_attempts : nat; wc_channels : option (list string); wc_renotify : Z;
  wc_notify_self_healed : bool; wc_notify_recovered : bool; wc_diagnose_credentials : bool; wc_recurring_days : Z; wc_ignore : list string;
  wc_resume_gap : Z; wc_resume_grace : Z; wc_startup_grace : Z; wc_startup_words : string }.

Record Watcher := { wa_streaks : list (string * Z); wa_last_pass : option Z; wa_grace_until : option Z }.
Definition new_watcher : Watcher := {| wa_streaks := []; wa_last_pass := None; wa_grace_until := None |}.

(** ** Wording *)

Definition label_of (target : string) (subject : option string) : string :=
  match subject with Some s => if str_truthy s then target +:+ " (" +:+ s +:+ ")" else target | None => target end.
Definition _label (i : Incident) : string := label_of (in_target i) (in_subject i).

Definition _ordinal (n : nat) : string :=
  pretty n +:+ (if Nat.leb 10 (n mod 100) && Nat.leb (n mod 100) 20 then "th"
                else match n mod 10 with 1 => "st" | 2 => "nd" | 3 => "rd" | _ => "th" end).

(** [_EMBEDDED_FIX.search], on ASCII letters: the text between backquotes after the word run, without [`], [<] and [>]. *)
Definition word_char (c : ascii) : bool := ascii_alpha c || is_digit c || Ascii.eqb c "_".
Fixpoint quoted (s : string) : option string :=
  match s with
  | EmptyString => None
  | String c r =>
      if Ascii.eqb c "`" then Some ""
      else if Ascii.eqb c "<" || Ascii.eqb c ">" then None
      else String c <$> quoted r
  end.
Fixpoint embedded_fix (after_word : bool) (s : string) : option string :=
  match s with
  | EmptyString => None
  | String c r =>
      let here :=
        if negb after_word && startswith "run `" (str_lower (str_take 5 s))
        then match quoted (str_drop 5 s) with Some q => if str_truthy q then Some q else None | None => None end
        else None in
      match here with Some q => Some q | None => embedded_fix (word_char c) r end
  end.

(** [_tried_text]: identical attempts are folded. *)
Definition same_try (a b : string * bool * string) : bool := bool_decide (a = b).
Fixpoint fold_try (k : string * bool * string) (l : list (string * bool * string * nat)) : list (string * bool * string * nat) :=
  match l with
  | [] => [(k, 1)]
  | (k', n) :: l => if same_try k' k then (k', S n) :: l else (k', n) :: fold_try k l
  end.
Definition try_text (detail_shown : string) (x : string * bool * string * nat) : string :=
  let '(tried, ok, detail, count) := x in
  let times := if Nat.ltb 1 count then " ×" +:+ pretty count else "" in
  let why := if str_truthy detail && negb ok && negb (str_contains detail detail_shown) then ": " +:+ detail else "" in
  tried +:+ times +:+ " (" +:+ (if ok then "ran" else "failed") +:+ why +:+ ")".
Definition _tried_text (i : Incident) : string :=
  join "; " (map (try_text (in_detail i))
    (fold_left (λ acc r, fold_try (ro_tried r.2, ro_ok r.2, ro_detail r.2) acc) (in_repairs i) [])).

Definition _fix_lines (i : Incident) : list string :=
  let action := match in_action i with Some a => if str_truthy a then Some a else None | None => None end in
  let fix_ := match embedded_fix false (in_detail i) with
              | Some q => let f := str_strip q in if str_truthy f && negb (bool_decide (in_action i = Some f)) then Some f else None
              | None => None
              end in
  match fix_, action with
  | Some f, Some a => ["To fix it, run: " +:+ f; "Then retry with: " +:+ a]
  | Some f, None => ["To fix it, run: " +:+ f]
  | None, Some a => ["To fix it, run: " +:+ a]
  | None, None => ["`evarness status` shows the details."]
  end.

Definition new_line : string := String (ascii_of_N 10) "".

(** ** A pass *)

Definition in_watch (cfg : WatchConfig) (c : HealthCheck) : bool :=
  bool_decide (hc_state c = h_red) && negb (str_in (hc_target c) (wc_ignore cfg) || str_in (check_key c) (wc_ignore cfg)).

(** [{c.key: c for c in checks if watched}] *)
Definition reds_of (cfg : WatchConfig) (checks : list HealthCheck) : list (string * HealthCheck) :=
  fold_left (λ d c, if in_watch cfg c then kv_set (check_key c) c d else d) checks [].
(** [{i.key: i for i in open_incidents()}] *)
Definition by_key (l : list Incident) : list (string * Incident) := fold_left (λ d i, kv_set (in_key i) i d) l [].

(** [_resumed]: whether the streaks are forgotten, and what is said of it. *)
Definition _resumed (cfg : WatchConfig) (now : Z) (w : Watcher) : list string * Watcher :=
  let held grace_until := {| wa_streaks := []; wa_last_pass := Some now; wa_grace_until := grace_until |} in
  let on := {| wa_streaks := wa_streaks w; wa_last_pass := Some now; wa_grace_until := wa_grace_until w |} in
  match wa_last_pass w with
  | None =>
      if (wc_startup_grace cfg <=? 0)%Z then ([], on)
      else (["started: holding new incidents for " +:+ wc_startup_words cfg +:+ " min"], held (Some (now + wc_startup_grace cfg)%Z))
  | Some last =>
      if (now - last <? wc_resume_gap cfg)%Z then ([], on)
      else (["resumed after " +:+ pretty (Z.quot (now - last) SECOND) +:+ "s gap: holding new incidents"],
            held (Some (now + wc_resume_grace cfg)%Z))
  end.
Definition _in_grace (now : Z) (w : Watcher) : bool := match wa_grace_until w with Some t => (now <? t)%Z | None => false end.

Definition set_streaks (l : list (string * Z)) (w : Watcher) : Watcher :=
  {| wa_streaks := l; wa_last_pass := wa_last_pass w; wa_grace_until := wa_grace_until w |}.
Definition count_reds {A} (reds : list (string * A)) (w : Watcher) : list (string * Z) :=
  map (λ kv, (kv.1, default 0 (od_get kv.1 (wa_streaks w)) + 1)%Z) reds.

(** Assignments to the fields of an incident. *)
Definition seen_again (c : HealthCheck) (i : Incident) : Incident :=
  {| in_id := in_id i; in_key := in_key i; in_target := in_target i; in_subject := in_subject i; in_kind := in_kind i; in_state := in_state i;
     in_detail := hc_detail c; in_action := match hc_action c with Some a => if str_truthy a then Some a else in_action i | None => in_action i end;
     in_opened_at := in_opened_at i; in_updated_at := in_updated_at i; in_attempts := in_attempts i; in_repairs := in_repairs i;
     in_notified_at := in_notified_at i; in_notify_count := in_notify_count i; in_resolved_at := in_resolved_at i; in_resolution := in_resolution i |}.
Definition set_state (s : IncidentState) (i : Incident) : Incident :=
  {| in_id := in_id i; in_key := in_key i; in_target := in_target i; in_subject := in_subject i; in_kind := in_kind i; in_state := s;
     in_detail := in_detail i; in_action := in_action i; in_opened_at := in_opened_at i; in_updated_at := in_updated_at i; in_attempts := in_attempts i;
     in_repairs := in_repairs i; in_notified_at := in_notified_at i; in_notify_count := in_notify_count i; in_resolved_at := in_resolved_at i;
     in_resolution := in_resolution i |}.
Definition tried (now : Z) (o : RepairOutcome) (i : Incident) : Incident :=
  {| in_id := in_id i; in_key := in_key i; in_target := in_target i; in_subject := in_subject i; in_kind := in_kind i; in_state := in_state i;
     in_detail := in_detail i; in_action := in_action i; in_opened_at := in_opened_at i; in_updated_at := in_updated_at i;
     in_attempts := S (in_attempts i); in_repairs := in_repairs i ++ [(now, o)]; in_notified_at := in_notified_at i;
     in_notify_count := in_notify_count i; in_resolved_at := in_resolved_at i; in_resolution := in_resolution i |}.
Definition told (now : Z) (i : Incident) : Incident :=
  {| in_id := in_id i; in_key := in_key i; in_target := in_target i; in_subject := in_subject i; in_kind := in_kind i; in_state := in_state i;
     in_detail := in_detail i; in_action := in_action i; in_opened_at := in_opened_at i; in_updated_at := in_updated_at i; in_attempts := in_attempts i;
     in_repairs := in_repairs i; in_notified_at := Some now; in_notify_count := S (in_notify_count i); in_resolved_at := in_resolved_at i;
     in_resolution := in_resolution i |}.
Definition closed (now : Z) (i : Incident) : Incident :=
  {| in_id := in_id i; in_key := in_key i; in_target := in_target i; in_subject := in_subject i; in_kind := in_kind i; in_state := resolved;
     in_detail := in_detail i; in_action := in_action i; in_opened_at := in_opened_at i; in_updated_at := in_updated_at i; in_attempts := in_attempts i;
     in_repairs := in_repairs i; in_notified_at := in_notified_at i; in_notify_count := in_notify_count i; in_resolved_at := Some now;
     in_resolution := Some (if bool_decide (in_state i = needs_user) then user_fixed else self_healed) |}.

Definition bool_str (b : bool) : string := if b then "True" else "False".

Section watch.
(** The world; the notifier; the repairers, the core's before the registered ones; the credential
    probe; [absolute_console_url]. *)
Context {W : Type} `{!Part W IncidentStore, !Part W Watcher}.
Definition Notifier : Type := string → string → option (list string) → option string → M W unit.
Context (cfg : WatchConfig) (notify : option Notifier) (repairers : list (@Repairer W)) (diagnose : option (M W unit)) (console_url : string → string).

(** [_send]: a failed send is logged. *)
Definition _send (subject body : string) (url : option string) : M W unit :=
  match notify with
  | None => mret tt
  | Some notify => try (notify subject body (wc_channels cfg) url) except e => mret tt
  end.

(** [_needs_user_text] *)
Definition _needs_user_text (i : Incident) (now : Z) (fix_url : option string) (s : IncidentStore) : string :=
  let seen := count_since (in_key i) (wc_recurring_days cfg) now s in
  join new_line (
    [_label i +:+ " is not working: " +:+ in_detail i;
     match in_repairs i with
     | [] => "I have no automatic fix for this one."
     | _ => "I tried: " +:+ _tried_text i +:+ " — it is still failing."
     end] ++ _fix_lines i
    ++ match fix_url with Some u => if str_truthy u then ["Or fix it in the app: " +:+ console_url u] else [] | None => [] end
    ++ if Nat.ltb 1 seen then ["This is the " +:+ _ordinal seen +:+ " time in " +:+ pretty (wc_recurring_days cfg) +:+ " days."] else []).

Definition HELP : string := "Evarness needs your help".
Definition BACK : string := "Evarness is back".
Definition FIXED : string := "Evarness fixed itself".

(** [_engage]: the incident afterwards, and what happened. *)
Definition _engage (i : Incident) (now : Z) (fix_url : option string) : M W (Incident * list string) :=
  if match in_notified_at i with Some last => (now - last <? wc_renotify cfg)%Z | None => false end then mret (i, [])
  else
    s ← gets part;
    _send HELP (_needs_user_text i now fix_url s) fix_url;;
    let i := told now i in
    mret (i, ["notified " +:+ in_key i +:+ " (#" +:+ pretty (in_notify_count i) +:+ ")"]).

(** An incident after the try at a repair, and what happened. *)
Definition after_repair (repair : option RepairOutcome) (now : Z) (i : Incident) : Incident * list string :=
  if bool_decide (in_state i = repairing) then
    match repair with
    | None => (set_state needs_user i, [])
    | Some o =>
        let i := tried now o i in
        (if ro_final o then set_state needs_user i else i, ["repair " +:+ in_key i +:+ ": " +:+ ro_tried o +:+ " → ok=" +:+ bool_str (ro_ok o)])
    end
  else (i, []).

(** [_step] *)
Definition _step (i : Incident) (c : HealthCheck) (now : Z) : M W (list string) :=
  repair ← (if bool_decide (in_state i = repairing) && Nat.ltb (in_attempts i) (wc_max_attempts cfg) then run_repairs c repairers else mret None);
  let '(i, events) := after_repair repair now i in
  engaged ← (if bool_decide (in_state i = needs_user) then _engage i now (hc_fix_url c) else mret (i, []));
  let '(i, more) := engaged in
  on_part (save_incident i now);;
  mret (events ++ more).

(** The notice of [_resolve], of a closed incident. *)
Definition say_closed (i : Incident) : M W unit :=
  if Nat.ltb 0 (in_notify_count i) && wc_notify_recovered cfg then _send BACK (_label i +:+ " is working again.") None
  else if bool_decide (in_resolution i = Some self_healed) && wc_notify_self_healed cfg then
    let words := join "; " (map (λ r, ro_tried r.2) (in_repairs i)) in
    _send FIXED (_label i +:+ " failed and recovered (" +:+ (if str_truthy words then words else "no action") +:+ ").") None
  else mret tt.

(** [_resolve] *)
Definition _resolve (i : Incident) (now : Z) : M W string :=
  let i := closed now i in
  say_closed i;;
  on_part (save_incident i now);;
  mret ("resolved " +:+ in_key i +:+ ": " +:+ match in_resolution i with Some r => resolution_str r | None => "" end).

(** The loop over the open incidents whose check is red no more. *)
Fixpoint close_greens (reds : list (string * HealthCheck)) (open_by_key : list (string * Incident)) (now : Z) : M W (list string) :=
  match open_by_key with
  | [] => mret []
  | (key, i) :: rest =>
      match od_get key reds with
      | Some _ => close_greens reds rest now
      | None => event ← _resolve i now; events ← close_greens reds rest now; mret (event :: events)
      end
  end.

(** The loop over the red checks: whether an incident was opened, and what happened. *)
Fixpoint walk_reds (open_by_key : list (string * Incident)) (reds : list (string * HealthCheck)) (now : Z) : M W (bool * list string) :=
  match reds with
  | [] => mret (false, [])
  | (key, c) :: rest =>
      match od_get key open_by_key with
      | Some i =>
          events ← _step (seen_again c i) c now;
          more ← walk_reds open_by_key rest now;
          mret (more.1, events ++ more.2)
      | None =>
          streak ← gets (λ w, default 0%Z (od_get key (wa_streaks (part w))));
          if (streak <? wc_confirm_ticks cfg)%Z then walk_reds open_by_key rest now
          else
            i ← on_part (open_incident key c now);
            events ← _step i c now;
            more ← walk_reds open_by_key rest now;
            mret (true, ["opened " +:+ key +:+ ": " +:+ hc_detail c] ++ events ++ more.2)
      end
  end.

(** One probe of the credentials after a pass that opened something. *)
Definition diagnose_opened (opened_any : bool) : M W unit :=
  match diagnose with
  | Some diagnose => if opened_any && wc_diagnose_credentials cfg then try diagnose except e => mret tt else mret tt
  | None => mret tt
  end.

(** [_observe] *)
Definition _observe (checks : list HealthCheck) (now : Z) : M W (list string) :=
  events ← on_part (λ wa, let '(events, wa) := _resumed cfg now wa in (Ok events, wa));
  let reds := reds_of cfg checks in
  on_part (modify (λ wa, set_streaks (count_reds reds wa) wa));;
  open_by_key ← gets (λ w, by_key (open_incidents (part w)));
  closed ← close_greens reds open_by_key now;
  held ← gets (λ w, _in_grace now (part w));
  if (held : bool) then
    on_part (modify (set_streaks []));;
    mret (events ++ closed)
  else
    walked ← walk_reds open_by_key reds now;
    diagnose_opened walked.1;;
    mret (events ++ closed ++ walked.2).

(** [observe] *)
Definition observe (checks : list HealthCheck) (now : Z) : M W (list string) :=
  if wc_enabled cfg then _observe checks now else mret [].
End watch.

(** [broadcast_notifier]: the channels a notice goes to. *)
Definition notice_targets (registered : list string) (channels : option (list string)) : list string :=
  select_where (λ c, str_in c registered) (match channels with Some [] | None => registered | Some l => l end).

(** ** A check, as the watch sees it *)

Inductive Phase := Quiet (streak : Z) | Repairing (attempts : nat) | Told (at_ : Z).
Inductive Notice := n_help | n_back | n_fixed.
Definition subject_of (n : Notice) : string := match n with n_help => HELP | n_back => BACK | n_fixed => FIXED end.

Definition is_of (k : string) (i : Incident) : bool := String.eqb (in_key i) k && is_open i.
Definition open_of (k : string) (s : IncidentStore) : option Incident := select_one (is_of k) (is_rows s).
Definition phase_of (i : Incident) : Phase :=
  match in_state i with repairing => Repairing (in_attempts i) | _ => Told (default 0%Z (in_notified_at i)) end.
Definition phase (k : string) (s : IncidentStore) (wa : Watcher) : Phase :=
  match open_of k s with Some i => phase_of i | None => Quiet (default 0%Z (od_get k (wa_streaks wa))) end.

Section automaton.
Context (cfg : WatchConfig) (now : Z).

(** One more try at a repair, or the owner is told. *)
Inductive attempt : nat → list Notice → Phase → Prop :=
| at_repair a : a < wc_max_attempts cfg → attempt a [] (Repairing (S a))
| at_tell a : attempt a [n_help] (Told now).

(** What a pass does with one check: whether it is red; whether the streaks are forgotten and new
    incidents are held, after a start or a gap. *)
Inductive key_step : bool → bool → bool → Phase → list Notice → Phase → Prop :=
| ks_green forgotten hold n : key_step false forgotten hold (Quiet n) [] (Quiet 0)
| ks_healed forgotten hold a : key_step false forgotten hold (Repairing a) (if wc_notify_self_healed cfg then [n_fixed] else []) (Quiet 0)
| ks_back forgotten hold t : key_step false forgotten hold (Told t) (if wc_notify_recovered cfg then [n_back] else []) (Quiet 0)
| ks_held_quiet forgotten n : key_step true forgotten true (Quiet n) [] (Quiet 0)
| ks_held_repairing forgotten a : key_step true forgotten true (Repairing a) [] (Repairing a)
| ks_held_told forgotten t : key_step true forgotten true (Told t) [] (Told t)
| ks_count (forgotten : bool) n : ((if forgotten then 0 else n) + 1 < wc_confirm_ticks cfg)%Z →
    key_step true forgotten false (Quiet n) [] (Quiet ((if forgotten then 0 else n) + 1))
| ks_open (forgotten : bool) n ns p : (wc_confirm_ticks cfg ≤ (if forgotten then 0 else n) + 1)%Z → attempt 0 ns p →
    key_step true forgotten false (Quiet n) ns p
| ks_repair forgotten a ns p : attempt a ns p → key_step true forgotten false (Repairing a) ns p
| ks_wait forgotten t : (now - t < wc_renotify cfg)%Z → key_step true forgotten false (Told t) [] (Told t)
| ks_remind forgotten t : (wc_renotify cfg ≤ now - t)%Z → key_step true forgotten false (Told t) [n_help] (Told now).
End automaton.

(** ** The table of incidents *)

(** An open incident is being repaired, or its owner was told. *)
Definition row_ok (i : Incident) : Prop :=
  is_open i = true →
  match in_state i with
  | repairing => in_notified_at i = None ∧ in_notify_count i = 0
  | needs_user => in_notified_at i ≠ None ∧ 0 < in_notify_count i
  | resolved => False
  end.
Record store_ok (s : IncidentStore) : Prop := {
  so_ids : NoDup (map in_id (is_rows s));
  so_next i : i ∈ is_rows s → (in_id i < is_next s)%Z;
  so_one i j : i ∈ is_rows s → j ∈ is_rows s → is_open i = true → is_open j = true → in_key i = in_key j → i = j;
  so_rows i : i ∈ is_rows s → row_ok i }.

Lemma open_of_Some k s i : open_of k s = Some i → i ∈ is_rows s ∧ in_key i = k ∧ is_open i = true.
Proof. intros H. apply select_one_Some in H as [Hi Hk]. unfold is_of in Hk. apply andb_true_iff in Hk as [Hk%String.eqb_eq Ho]. done. Qed.

Lemma open_of_in k s i : store_ok s → i ∈ is_rows s → in_key i = k → is_open i = true → open_of k s = Some i.
Proof.
  intros Hok Hi Hk Ho. destruct (open_of k s) as [j|] eqn:E.
  - apply open_of_Some in E as (Hj & Hjk & Hjo). f_equal. apply (so_one _ Hok); [done..|congruence].
  - eapply select_one_None in E; [|exact Hi]. unfold is_of in E. by rewrite Hk, String.eqb_refl, Ho in E.
Qed.

Lemma open_of_None k s i : open_of k s = None → i ∈ is_rows s → in_key i = k → is_open i = false.
Proof. intros E Hi <-. eapply select_one_None in E; [|exact Hi]. unfold is_of in E. by rewrite String.eqb_refl in E. Qed.

(** The two tables agree on every key but [k]. *)
Definition others_same (k : string) (s s' : IncidentStore) : Prop := ∀ k', k' ≠ k → open_of k' s' = open_of k' s.

(** What never changes of an incident. *)
Definition same_head (i j : Incident) : Prop :=
  in_id j = in_id i ∧ in_key j = in_key i ∧ in_target j = in_target i ∧ in_subject j = in_subject i ∧ in_kind j = in_kind i ∧
  in_opened_at j = in_opened_at i.

Lemma written_touched now i j : same_head i j → written (touched now j) i = touched now j.
Proof. intros (? & ? & ? & ? & ? & ?). unfold written, touched. cbn. by f_equal. Qed.

Lemma save_rows s i j now : store_ok s → i ∈ is_rows s → same_head i j →
  ∀ x, x ∈ is_rows (run_state (save_incident j now) s) ↔ x = touched now j ∨ (x ∈ is_rows s ∧ in_id x ≠ in_id i).
Proof.
  intros Hok Hi Hh x. pose proof Hh as (Hid & _). cbn [save_incident modify snd is_rows]. rewrite elem_of_update_where, Hid. split.
  - intros (r & Hr & ->). destruct (Z.eqb_spec (in_id r) (in_id i)) as [He|Hne]; [left|by right].
    rewrite (unique_key in_id (is_rows s) r i (so_ids _ Hok) Hr Hi He). by apply written_touched.
  - intros [->|[Hx Hne]].
    + exists i. split; [done|]. rewrite Z.eqb_refl. symmetry. by apply written_touched.
    + exists x. split; [done|]. by destruct (Z.eqb_spec (in_id x) (in_id i)).
Qed.

Lemma save_effect s i j now : store_ok s → i ∈ is_rows s → is_open i = true → same_head i j → row_ok j →
  let s' := run_state (save_incident j now) s in
  store_ok s' ∧ others_same (in_key i) s s' ∧ open_of (in_key i) s' = if is_open j then Some (touched now j) else None.
Proof.
  intros Hok Hi Ho Hh Hj s'. pose proof (save_rows s i j now Hok Hi Hh) as Hrows. fold s' in Hrows. pose proof Hh as (Hid & Hkey & _).
  assert (∀ x, x ∈ is_rows s → in_id x ≠ in_id i → is_open x = true → in_key x = in_key i → False) as Halone.
  { intros x Hx Hne Hxo Hk. apply Hne. by rewrite (so_one _ Hok x i Hx Hi Hxo Ho Hk). }
  assert (store_ok s') as Hok'.
  { split.
    - unfold s'. cbn [save_incident modify snd is_rows]. rewrite map_update_where by done. apply Hok.
    - intros x Hx. apply Hrows in Hx as [->|[Hx _]]; [cbn; rewrite Hid|]; by apply (so_next _ Hok).
    - intros x y Hx Hy Hxo Hyo Hk. apply Hrows in Hx as [->|[Hx Hxi]], Hy as [->|[Hy Hyi]]; [done| | |by apply (so_one _ Hok)].
      + exfalso. eapply (Halone y); [done..|]. by rewrite <- Hk, <- Hkey.
      + exfalso. eapply (Halone x); [done..|]. by rewrite Hk, <- Hkey.
    - intros x Hx. apply Hrows in Hx as [->|[Hx _]]; [exact Hj|by apply Hok]. }
  split; [done|]. split.
  - intros k Hk. destruct (open_of k s) as [r|] eqn:E.
    + apply open_of_Some in E as (Hr & Hrk & Hro). apply open_of_in; [done| |done|done]. apply Hrows. right. split; [done|].
      intros He. apply Hk. rewrite <- Hrk. by rewrite (unique_key in_id (is_rows s) r i (so_ids _ Hok) Hr Hi He).
    + destruct (open_of k s') as [x|] eqn:E'; [|done]. exfalso. apply open_of_Some in E' as (Hx & Hxk & Hxo).
      apply Hrows in Hx as [->|[Hx _]]; [apply Hk; rewrite <- Hxk; exact Hkey|]. by rewrite (open_of_None k s x E Hx Hxk) in Hxo.
  - destruct (is_open j) eqn:Hjo.
    + apply open_of_in; [done|apply Hrows; by left|exact Hkey|exact Hjo].
    + destruct (open_of (in_key i) s') as [x|] eqn:E'; [|done]. exfalso. apply open_of_Some in E' as (Hx & Hxk & Hxo).
      apply Hrows in Hx as [->|[Hx Hne]]; [by change (is_open (touched now j)) with (is_open j) in Hxo; rewrite Hjo in Hxo|].
      by eapply (Halone x).
Qed.

Lemma open_effect s key c now : store_ok s → open_of key s = None →
  let s' := run_state (open_incident key c now) s in
  store_ok s' ∧ others_same key s s' ∧ open_of key s' = Some (new_incident (is_next s) key c now).
Proof.
  intros Hok Hn s'. set (i := new_incident (is_next s) key c now).
  assert (∀ x, x ∈ is_rows s' ↔ x ∈ is_rows s ∨ x = i) as Hrows by (intros x; cbn; by rewrite elem_of_app, list_elem_of_singleton).
  assert (store_ok s') as Hok'.
  { split.
    - cbn. rewrite map_app. apply NoDup_app. split; [apply Hok|]. split; [|apply NoDup_singleton].
      intros id Hid ->%list_elem_of_singleton. apply list_elem_of_fmap in Hid as (x & He & Hx). apply (so_next _ Hok) in Hx. cbn in He. lia.
    - intros x Hx. apply Hrows in Hx as [Hx| ->]; cbn; [apply (so_next _ Hok) in Hx|]; lia.
    - intros x y Hx Hy Hxo Hyo Hk. apply Hrows in Hx as [Hx| ->], Hy as [Hy| ->]; [by apply (so_one _ Hok)| | |done].
      + by rewrite (open_of_None key s x Hn Hx Hk) in Hxo.
      + by rewrite (open_of_None key s y Hn Hy (eq_sym Hk)) in Hyo.
    - intros x Hx. apply Hrows in Hx as [Hx| ->]; [by apply Hok|]. intros _. done. }
  split; [done|]. split; [|apply open_of_in; [done|apply Hrows; by right|done|done]].
  intros k Hk. unfold open_of. cbn. rewrite select_one_app. destruct (select_one (is_of k) (is_rows s)); [done|].
  unfold select_one. cbn [List.find]. unfold is_of. cbn. by destruct (String.eqb_spec key k).
Qed.

(** ** The dictionaries of a pass *)

Lemma kv_set_key_iff {V} k (v : V) d x : x ∈ map fst d ∨ k = x ↔ x ∈ map fst (kv_set k v d).
Proof.
  split.
  - intros H. destruct (decide (x ∈ map fst (kv_set k v d))) as [|Hn]; [done|]. apply od_get_None in Hn. rewrite od_get_kv_set in Hn.
    destruct (String.eqb_spec k x); [done|]. destruct H as [H|]; [|done]. by apply od_get_None in Hn.
  - intros [-> | H]%kv_set_keys; auto.
Qed.

Lemma od_get_member {V} k (v : V) d : NoDup (map fst d) → (k, v) ∈ d → od_get k d = Some v.
Proof.
  induction d as [|[k' v'] d IH]; cbn [map fst]; [intros _ H; by apply elem_of_nil in H|]. intros [Hk Hnd]%NoDup_cons Hin. rewrite od_get_cons.
  apply elem_of_cons in Hin as [Heq|Hin]; [simplify_eq; by rewrite String.eqb_refl|].
  destruct (String.eqb_spec k' k) as [->|]; [|by apply IH]. exfalso. apply Hk, list_elem_of_fmap. by exists (k, v).
Qed.

Lemma count_reds_get {A} k (reds : list (string * A)) wa :
  od_get k (count_reds reds wa) = if bool_decide (k ∈ map fst reds) then Some (default 0 (od_get k (wa_streaks wa)) + 1)%Z else None.
Proof.
  unfold count_reds. induction reds as [|[k' x] reds IH]; [done|]. cbn [map fst]. rewrite od_get_cons.
  destruct (String.eqb_spec k' k) as [->|Hne]; [by rewrite bool_decide_eq_true_2 by (left)|]. rewrite IH.
  erewrite bool_decide_ext; [done|]. rewrite elem_of_cons. naive_solver.
Qed.

(** The open incidents by key, when no two share one. *)
Lemma by_key_get l : NoDup (map in_key l) → NoDup (map fst (by_key l)) ∧ ∀ k, od_get k (by_key l) = List.find (λ i, String.eqb (in_key i) k) l.
Proof.
  induction l as [|i l IH] using rev_ind; [split; [apply NoDup_nil_2|done]|]. rewrite map_app. cbn [map].
  intros (Hl & Hi & _)%NoDup_app. destruct (IH Hl) as [Hnd Hk]. unfold by_key in *. rewrite fold_left_app. cbn [fold_left].
  split; [by apply kv_set_nodup|]. intros k. rewrite od_get_kv_set, Hk.
  change (List.find ?p (?a ++ ?b)) with (select_one p (a ++ b)). rewrite select_one_app. unfold select_one. cbn [List.find].
  destruct (List.find _ l) as [j|] eqn:E; [|by destruct (String.eqb_spec (in_key i) k)].
  destruct (String.eqb_spec (in_key i) k) as [<-|]; [|done]. exfalso. apply find_some in E as [Hj Hjk%String.eqb_eq].
  apply list_elem_of_In in Hj. eapply Hi; [|left]. apply list_elem_of_fmap. exists j. done.
Qed.

Lemma select_one_where {R} (p q : R → bool) t : select_one q (select_where p t) = select_one (λ x, q x && p x) t.
Proof.
  induction t as [|x t IH]; [done|]. rewrite select_where_cons. destruct (p x) eqn:Hp; unfold select_one in *; cbn [List.find]; rewrite ?Hp, IH.
  - by rewrite andb_true_r.
  - by rewrite andb_false_r.
Qed.

Lemma open_by_key s : store_ok s → NoDup (map fst (by_key (open_incidents s))) ∧ ∀ k, od_get k (by_key (open_incidents s)) = open_of k s.
Proof.
  intros Hok. destruct (by_key_get (open_incidents s)) as [Hnd Hk].
  - apply NoDup_fmap_2_strong.
    + intros i j [Hi Hio]%elem_of_select_where [Hj Hjo]%elem_of_select_where. by apply (so_one _ Hok).
    + eapply select_where_nodup, NoDup_fmap_1, (so_ids _ Hok).
  - split; [done|]. intros k. rewrite Hk. apply select_one_where.
Qed.

(** ** What the watch needs of the world *)

(** [sent] are the subjects of the notices handed to the notifier, in order. *)
Class WatchWorld (W : Type) `{!Part W IncidentStore, !Part W Watcher} (notify : @Notifier W) (sent : W → list string) : Prop := {
  ww_store :: PartLaws W IncidentStore;
  ww_watcher :: PartLaws W Watcher;
  ww_apart (s : IncidentStore) (w : W) : part (T := Watcher) (set_part s w) = part w;
  ww_apart' (a : Watcher) (w : W) : part (T := IncidentStore) (set_part a w) = part w;
  ww_sent_store (s : IncidentStore) (w : W) : sent (set_part s w) = sent w;
  ww_sent_watcher (a : Watcher) (w : W) : sent (set_part a w) = sent w;
  ww_notify subject body channels url w :
    let w' := run_state (notify subject body channels url) w in
    part (T := IncidentStore) w' = part w ∧ part (T := Watcher) w' = part w ∧ sent w' = sent w ++ [subject] }.

(** What leaves the incidents, the watch and the notices alone, however it ends. *)
Definition hands_off {W A} `{!Part W IncidentStore, !Part W Watcher} (sent : W → list string) (m : M W A) : Prop :=
  ∀ w, let w' := run_state m w in part (T := IncidentStore) w' = part w ∧ part (T := Watcher) w' = part w ∧ sent w' = sent w.

Lemma part_runs_ {W T A} `{!Part W T} (m : M T A) w a t : m (part w) = (Ok a, t) → on_part m w = (Ok a, set_part t w).
Proof using Type. intros E. unfold on_part, zoom. by rewrite E. Qed.

Lemma in_other_keys {A} (k key : string) (c : A) rs : k ≠ key → bool_decide (k ∈ map fst ((key, c) :: rs)) = bool_decide (k ∈ map fst rs).
Proof. intros Hne. apply bool_decide_ext. cbn [map fst]. rewrite elem_of_cons. naive_solver. Qed.

Section passes.
Context {W : Type} `{!Part W IncidentStore, !Part W Watcher} (send : @Notifier W) (sent : W → list string) `{!WatchWorld W send sent}.
Context (cfg : WatchConfig) (repairers : list (@Repairer W)) (diagnose : option (M W unit)) (console_url : string → string).
Hypothesis repairers_off : ∀ r c, r ∈ repairers → hands_off sent (r c).
Hypothesis diagnose_off : ∀ m, diagnose = Some m → hands_off sent m.

Abbreviation st w := (part w : IncidentStore).
Abbreviation wt w := (part w : Watcher).

(** How a stretch of a pass left the world: the table, the watch and the subjects handed over. *)
Definition left_as (w w' : W) (s : IncidentStore) (subjects : list string) : Prop :=
  st w' = s ∧ wt w' = wt w ∧ sent w' = sent w ++ subjects.

Lemma left_here w : left_as w w (st w) [].
Proof using Type. split; [done|]. split; [done|]. by rewrite app_nil_r. Qed.

Lemma send_runs subject body url w : ∃ w', _send cfg (Some send) subject body url w = (Ok tt, w') ∧ left_as w w' (st w) [subject].
Proof using All.
  unfold _send, try_except. pose proof (ww_notify subject body (wc_channels cfg) url w) as (H1 & H2 & H3).
  destruct (send subject body (wc_channels cfg) url w) as [[[]|e] w'] eqn:E; exists w'; done.
Qed.

Lemma repairs_run c rs w : (∀ r, r ∈ rs → hands_off sent (r c)) → ∃ o w', run_repairs c rs w = (Ok o, w') ∧ left_as w w' (st w) [].
Proof using Type.
  revert w. induction rs as [|r rs IH]; intros w Hrs; [exists None, w; split; [done|]; split; [done|]; by rewrite app_nil_r|].
  pose proof (Hrs r ltac:(left) w) as (H1 & H2 & H3). cbn [run_repairs]. destruct (r c w) as [[o|e] w1] eqn:E; cbn in H1, H2, H3.
  - assert ((try (o ← r c; mret (inl o)) except e => mret (inr e)) w = (Ok (inl o : option RepairOutcome + exn), w1)) as Et
      by (unfold try_except, mbind, M_bind; by rewrite E).
    rewrite (bind_runs _ _ _ _ _ Et). destruct o as [o|].
    + exists (Some o), w1. split; [done|]. split; [done|]. by rewrite app_nil_r.
    + destruct (IH w1) as (o & w2 & E2 & A & B & C); [by intros r' Hr'; apply Hrs; right|]. exists o, w2. split; [exact E2|].
      split; [congruence|]. split; [congruence|]. by rewrite C, H3.
  - assert ((try (o ← r c; mret (inl o)) except e => mret (inr e)) w = (Ok (inr e : option RepairOutcome + exn), w1)) as Et
      by (unfold try_except, mbind, M_bind; by rewrite E).
    rewrite (bind_runs _ _ _ _ _ Et). eexists _, w1. split; [reflexivity|]. split; [done|]. by rewrite app_nil_r.
Qed.

Lemma left_trans w1 w2 w3 s2 s3 l2 l3 : left_as w1 w2 s2 l2 → left_as w2 w3 s3 l3 → left_as w1 w3 s3 (l2 ++ l3).
Proof using Type. intros (A1 & B1 & C1) (A2 & B2 & C2). split; [done|]. split; [congruence|]. by rewrite C2, C1, app_assoc. Qed.

Lemma incident_saved w i now : ∃ w', on_part (save_incident i now) w = (Ok tt, w') ∧ left_as w w' (run_state (save_incident i now) (st w)) [].
Proof using WatchWorld0.
  eexists. split; [reflexivity|]. split; [by rewrite part_set|]. split; [apply ww_apart|]. by rewrite app_nil_r, ww_sent_store.
Qed.

(** What an open incident becomes in a pass in which its check is red. *)
Definition advanced (now : Z) (i j : Incident) (ns : list Notice) : Prop :=
  same_head i j ∧ is_open j = is_open i ∧ row_ok j ∧ in_state j ≠ resolved ∧ key_step cfg now true false false (phase_of i) ns (phase_of j).

Lemma engage_runs i now url w : ∃ j events ns w',
  _engage cfg (Some send) console_url i now url w = (Ok (j, events), w') ∧ left_as w w' (st w) (map subject_of ns) ∧
  ((j = i ∧ ns = [] ∧ ∃ t, in_notified_at i = Some t ∧ (now - t < wc_renotify cfg)%Z) ∨
   (j = told now i ∧ ns = [n_help] ∧ ∀ t, in_notified_at i = Some t → (wc_renotify cfg ≤ now - t)%Z)).
Proof using All.
  unfold _engage. destruct (match in_notified_at i with Some last => _ | None => false end) eqn:E.
  - exists i, [], [], w. split; [done|]. split; [split; [done|]; split; [done|]; by rewrite app_nil_r|]. left. split; [done|]. split; [done|].
    destruct (in_notified_at i) as [t|]; [|done]. exists t. split; [done|]. by apply Z.ltb_lt.
  - rewrite (bind_runs (gets part) _ w (st w) w eq_refl). destruct (send_runs HELP (_needs_user_text cfg console_url i now url (st w)) url w) as (w1 & E1 & H1).
    rewrite (bind_runs _ _ _ _ _ E1). eexists _, _, [n_help], w1. split; [reflexivity|]. split; [exact H1|]. right. split; [done|]. split; [done|].
    intros t Ht. rewrite Ht in E. by apply Z.ltb_ge.
Qed.

(** An incident after the try at a repair. *)
Lemma after_repair_cases repair now i : is_open i = true → row_ok i → (repair ≠ None → in_attempts i < wc_max_attempts cfg) →
  let p := (after_repair repair now i).1 in
  same_head i p ∧ is_open p = true ∧
  ((in_state i = repairing ∧ in_state p = repairing ∧ in_attempts p = S (in_attempts i) ∧ in_attempts i < wc_max_attempts cfg ∧
    in_notified_at p = None ∧ in_notify_count p = 0) ∨
   (in_state p = needs_user ∧
    (in_state i = repairing ∧ in_notified_at p = None ∨
     in_state i = needs_user ∧ in_notified_at p = in_notified_at i ∧ in_notified_at p ≠ None ∧ 0 < in_notify_count p))).
Proof using Type.
  intros Ho Hok Hr p. pose proof (Hok Ho) as Hrow. unfold p, after_repair. destruct (in_state i) eqn:Es; [| |done].
  - rewrite bool_decide_eq_true_2 by done. destruct Hrow as [Hn Hc]. destruct repair as [o|].
    + specialize (Hr ltac:(done)). destruct (ro_final o); cbn; split_and!; try done; [right|left]; rewrite ?Es; auto 10.
    + cbn. split_and!; try done. right. auto.
  - rewrite bool_decide_eq_false_2 by done. cbn. destruct Hrow as [Hn Hc]. split_and!; try done. right. auto 10.
Qed.

(** The owner is told, or was told not long ago. *)
Lemma engage_advances i q j ns now : same_head i q → is_open i = true → is_open q = true → in_state q = needs_user →
  (in_state i = repairing ∧ in_notified_at q = None ∨
   in_state i = needs_user ∧ in_notified_at q = in_notified_at i ∧ in_notified_at q ≠ None ∧ 0 < in_notify_count q) →
  ((j = q ∧ ns = [] ∧ ∃ t, in_notified_at q = Some t ∧ (now - t < wc_renotify cfg)%Z) ∨
   (j = told now q ∧ ns = [n_help] ∧ ∀ t, in_notified_at q = Some t → (wc_renotify cfg ≤ now - t)%Z)) →
  advanced now i j ns.
Proof using Type.
  intros Hh Ho Hqo Hq Hi [(-> & -> & t & Ht & Hlt)|(-> & -> & Hge)].
  - destruct Hi as [[_ Hi]|(Hi & Hn & Hs & Hc)]; [congruence|]. split; [done|]. split; [by rewrite Hqo, Ho|]. rewrite Ht in Hn.
    split; [intros _; rewrite Hq, Ht; done|]. split; [by rewrite Hq|]. unfold phase_of. rewrite Hi, Hq, Ht, <- Hn. by apply ks_wait.
  - split; [exact Hh|]. split; [by change (is_open (told now q)) with (is_open q); rewrite Hqo, Ho|].
    split; [intros _; cbn; rewrite Hq; split; [done|lia]|]. split; [cbn; by rewrite Hq|]. unfold phase_of. cbn [told in_state in_notified_at]. rewrite Hq.
    destruct Hi as [[-> _]|(-> & Hn & Hs & Hc)]; [apply ks_repair, at_tell|]. cbn [default]. apply ks_remind.
    rewrite <- Hn. destruct (in_notified_at q) as [t|]; [by apply Hge|done].
Qed.

Lemma step_runs i c now w : is_open i = true → row_ok i → ∃ events j ns w',
  _step cfg (Some send) repairers console_url i c now w = (Ok events, w') ∧ advanced now i j ns ∧
  left_as w w' (run_state (save_incident j now) (st w)) (map subject_of ns).
Proof using All.
  intros Ho Hok.
  assert (∃ repair w1, (if bool_decide (in_state i = repairing) && Nat.ltb (in_attempts i) (wc_max_attempts cfg) then run_repairs c repairers else mret None) w
    = (Ok repair, w1) ∧ left_as w w1 (st w) [] ∧ (repair ≠ None → in_attempts i < wc_max_attempts cfg)) as (repair & w1 & E1 & L1 & Hr).
  { destruct (bool_decide _ && _) eqn:Hb.
    - destruct (repairs_run c repairers w) as (o & w1 & E & L); [by intros r Hr; apply repairers_off|]. exists o, w1. split; [done|]. split; [done|].
      intros _. apply andb_true_iff in Hb as [_ Hb]. by apply Nat.ltb_lt.
    - exists None, w. split; [done|]. split; [apply left_here|done]. }
  unfold _step. rewrite (bind_runs _ _ _ _ _ E1).
  destruct (after_repair_cases repair now i Ho Hok Hr) as (Hh & Hqo & Hq). destruct (after_repair repair now i) as [q events]. cbn [fst] in *.
  destruct Hq as [(Hi & Hq & Ha & Hlt & Hqn & Hqc)|(Hq & Hi)].
  - rewrite bool_decide_eq_false_2 by (by rewrite Hq). rewrite (bind_runs (mret (q, [])) _ w1 (q, []) w1 eq_refl).
    destruct (incident_saved w1 q now) as (w2 & E2 & L2). rewrite (bind_runs _ _ _ _ _ E2). eexists _, q, [], w2. split; [reflexivity|]. split.
    + split; [done|]. split; [by rewrite Hqo, Ho|]. split; [intros _; by rewrite Hq|]. split; [by rewrite Hq|].
      unfold phase_of. rewrite Hi, Hq, Ha. by apply ks_repair, at_repair.
    + destruct L1 as (A1 & B1 & C1). rewrite <- A1. exact (left_trans _ _ _ _ _ _ _ (conj eq_refl (conj B1 C1)) L2).
  - rewrite bool_decide_eq_true_2 by done. destruct (engage_runs q now (hc_fix_url c) w1) as (j & more & ns & w2 & E2 & L2 & Hj).
    rewrite (bind_runs _ _ _ _ _ E2). destruct (incident_saved w2 j now) as (w3 & E3 & L3). rewrite (bind_runs _ _ _ _ _ E3).
    eexists _, j, ns, w3. split; [reflexivity|]. split; [by eapply engage_advances|].
    destruct L1 as (A1 & B1 & C1), L2 as (A2 & B2 & C2), L3 as (A3 & B3 & C3).
    split; [by rewrite A3, A2, A1|]. split; [congruence|]. by rewrite C3, C2, C1, !app_nil_r.
Qed.

Lemma say_closed_runs i now w : is_open i = true → row_ok i → ∃ ns w',
  say_closed cfg (Some send) (closed now i) w = (Ok tt, w') ∧ left_as w w' (st w) (map subject_of ns) ∧
  ∀ forgotten hold, key_step cfg now false forgotten hold (phase_of i) ns (Quiet 0).
Proof using All.
  intros Ho Hok. specialize (Hok Ho). unfold say_closed, phase_of. cbn [closed in_resolution in_notify_count]. destruct (in_state i) eqn:Es; [| |done].
  - destruct Hok as [_ ->]. cbn [Nat.ltb Nat.leb andb]. rewrite bool_decide_eq_true_2 by (by rewrite bool_decide_eq_false_2).
    pose proof (λ f h, ks_healed cfg now f h (in_attempts i)) as K. destruct (wc_notify_self_healed cfg); cbn [andb].
    + edestruct send_runs as (w1 & E & L). exists [n_fixed], w1. split; [exact E|]. split; [exact L|exact K].
    + exists [], w. split; [done|]. split; [apply left_here|exact K].
  - destruct Hok as [_ Hc]. rewrite (proj2 (Nat.ltb_lt _ _) Hc). cbn [andb]. rewrite (bool_decide_eq_true_2 (needs_user = needs_user)) by done.
    rewrite (bool_decide_eq_false_2 (Some user_fixed = Some self_healed)) by done. cbn [andb].
    pose proof (λ f h, ks_back cfg now f h (default 0%Z (in_notified_at i))) as K. destruct (wc_notify_recovered cfg).
    + edestruct send_runs as (w1 & E & L). exists [n_back], w1. split; [exact E|]. split; [exact L|exact K].
    + exists [], w. split; [done|]. split; [apply left_here|exact K].
Qed.

Lemma resolve_runs i now w : is_open i = true → row_ok i → ∃ event ns w',
  _resolve cfg (Some send) i now w = (Ok event, w') ∧ left_as w w' (run_state (save_incident (closed now i) now) (st w)) (map subject_of ns) ∧
  ∀ forgotten hold, key_step cfg now false forgotten hold (phase_of i) ns (Quiet 0).
Proof using All.
  intros Ho Hok. unfold _resolve. destruct (say_closed_runs i now w Ho Hok) as (ns & w1 & E1 & (A1 & B1 & C1) & Hk).
  rewrite (bind_runs _ _ _ _ _ E1). destruct (incident_saved w1 (closed now i) now) as (w2 & E2 & A2 & B2 & C2). rewrite (bind_runs _ _ _ _ _ E2).
  eexists _, ns, w2. split; [reflexivity|]. split; [|done]. split; [by rewrite A2, A1|]. split; [congruence|]. by rewrite C2, C1, app_nil_r.
Qed.

(** ** The loops *)

(** The notices of one check among those of a pass. *)
Definition about (k : string) (tl : list (string * Notice)) : list Notice := omap (λ x, if String.eqb x.1 k then Some x.2 else None) tl.
Definition subjects (tl : list (string * Notice)) : list string := map (λ x, subject_of x.2) tl.

Lemma about_app k tl1 tl2 : about k (tl1 ++ tl2) = about k tl1 ++ about k tl2.
Proof using Type. apply omap_app. Qed.
Lemma about_same k ns : about k (map (pair k) ns) = ns.
Proof using Type. induction ns as [|n ns IH]; [done|]. cbn. rewrite String.eqb_refl. cbn. f_equal. exact IH. Qed.
Lemma about_other k k' ns : k' ≠ k → about k' (map (pair k) ns) = [].
Proof using Type. intros Hne. induction ns as [|n ns IH]; [done|]. cbn. destruct (String.eqb_spec k k'); [congruence|exact IH]. Qed.
Lemma subjects_app tl1 tl2 : subjects (tl1 ++ tl2) = subjects tl1 ++ subjects tl2.
Proof using Type. apply map_app. Qed.
Lemma subjects_of k ns : subjects (map (pair k) ns) = map subject_of ns.
Proof using Type. unfold subjects. by rewrite map_map. Qed.

Lemma close_runs reds l now w : store_ok (st w) → NoDup (map fst l) → (∀ k i, (k, i) ∈ l → open_of k (st w) = Some i) → ∃ events tl w',
  close_greens cfg (Some send) reds l now w = (Ok events, w') ∧ left_as w w' (st w') (subjects tl) ∧ store_ok (st w') ∧
  ∀ k, match od_get k l, od_get k reds with
       | Some i, None => open_of k (st w') = None ∧ ∀ f h, key_step cfg now false f h (phase_of i) (about k tl) (Quiet 0)
       | _, _ => about k tl = [] ∧ open_of k (st w') = open_of k (st w)
       end.
Proof using All.
  revert w. induction l as [|[key i] l IH]; intros w Hok Hnd Hl.
  { exists [], [], w. split; [done|]. split; [split; [done|]; split; [done|]; by rewrite app_nil_r|]. done. }
  cbn [map fst] in Hnd. apply NoDup_cons in Hnd as [Hkey Hnd]. pose proof (Hl key i ltac:(left)) as Hi. cbn [close_greens].
  assert (∀ k i', (k, i') ∈ l → k ≠ key) as Hne by (intros k i' Hk ->; apply Hkey; apply list_elem_of_fmap; by exists (key, i')).
  destruct (od_get key reds) as [c|] eqn:Er.
  - destruct (IH w Hok Hnd) as (events & tl & w' & E & L & Hok' & H); [by intros k i' Hk; apply Hl; right|].
    exists events, tl, w'. split; [exact E|]. split; [exact L|]. split; [done|]. intros k. specialize (H k). rewrite od_get_cons.
    destruct (String.eqb_spec key k) as [<-|]; [|exact H]. rewrite Er. by rewrite (proj1 (od_get_None key l) Hkey) in H.
  - apply open_of_Some in Hi as Hi'. destruct Hi' as (Hin & Hk & Ho).
    destruct (resolve_runs i now w Ho (so_rows _ Hok i Hin)) as (event & ns & w1 & E1 & L1 & Hstep). rewrite (bind_runs _ _ _ _ _ E1).
    destruct (save_effect (st w) i (closed now i) now Hok Hin Ho) as (Hok1 & Hoth & Hopen); [by repeat split|by intros ?|].
    destruct L1 as (A1 & B1 & C1). rewrite <- A1 in Hok1, Hoth, Hopen. rewrite Hk in Hoth, Hopen. cbn in Hopen.
    destruct (IH w1 Hok1 Hnd) as (events & tl & w2 & E2 & L2 & Hok2 & H).
    { intros k i' Hk'. rewrite Hoth by (by eapply Hne). apply Hl. by right. }
    rewrite (bind_runs _ _ _ _ _ E2). eexists _, (map (pair key) ns ++ tl), w2. split; [reflexivity|]. destruct L2 as (A2 & B2 & C2).
    split; [split; [done|]; split; [congruence|]; by rewrite C2, C1, subjects_app, subjects_of, app_assoc|]. split; [done|].
    intros k. specialize (H k). rewrite od_get_cons, about_app. destruct (String.eqb_spec key k) as [<-|Hk'].
    + rewrite Er. rewrite (proj1 (od_get_None key l) Hkey) in H. destruct H as [H1 H2]. rewrite about_same, H1, app_nil_r, H2. done.
    + rewrite about_other, app_nil_l by done. rewrite Hoth in H by done. exact H.
Qed.

Lemma step_effect i c key now w i0 : store_ok (st w) → open_of key (st w) = Some i0 → same_head i0 i → is_open i = true → row_ok i → ∃ events ns j w',
  _step cfg (Some send) repairers console_url i c now w = (Ok events, w') ∧ left_as w w' (st w') (map subject_of ns) ∧ store_ok (st w') ∧
  others_same key (st w) (st w') ∧ open_of key (st w') = Some j ∧ key_step cfg now true false false (phase_of i) ns (phase_of j).
Proof using All.
  intros Hok Hi0 Hh Ho Hrow. apply open_of_Some in Hi0 as (Hin & Hk & Ho0).
  destruct (step_runs i c now w Ho Hrow) as (events & j & ns & w' & E & (Hhj & Hoj & Hokj & Hnr & Hstep) & L). destruct L as (A & B & C).
  assert (same_head i0 j) as Hh' by (destruct Hh as (? & ? & ? & ? & ? & ?), Hhj as (? & ? & ? & ? & ? & ?); repeat split; congruence).
  destruct (save_effect (st w) i0 j now Hok Hin Ho0 Hh' Hokj) as (Hok1 & Hoth & Hopen). rewrite <- A in Hok1, Hoth, Hopen. rewrite Hk in Hoth, Hopen.
  rewrite Hoj, Ho in Hopen. exists events, ns, (touched now j), w'. split; [done|]. split; [by repeat split|]. done.
Qed.

(** What the walk did with a red check, and what it left of the others. *)
Definition red_done (now : Z) (k : string) (w w' : W) (ns : list Notice) : Prop :=
  match open_of k (st w) with
  | Some i => ∃ j, open_of k (st w') = Some j ∧ key_step cfg now true false false (phase_of i) ns (phase_of j)
  | None =>
      if (default 0 (od_get k (wa_streaks (wt w))) <? wc_confirm_ticks cfg)%Z then ns = [] ∧ open_of k (st w') = None
      else ∃ j, open_of k (st w') = Some j ∧ key_step cfg now true false false (Repairing 0) ns (phase_of j)
  end.
Definition walked_key (now : Z) (keys : list string) (w w' : W) (tl : list (string * Notice)) (k : string) : Prop :=
  if bool_decide (k ∈ keys) then red_done now k w w' (about k tl) else about k tl = [] ∧ open_of k (st w') = open_of k (st w).
Definition walk_done (obk : list (string * Incident)) (rs : list (string * HealthCheck)) (now : Z) (w : W) : Prop :=
  ∃ walked tl w', walk_reds cfg (Some send) repairers console_url obk rs now w = (Ok walked, w') ∧ left_as w w' (st w') (subjects tl) ∧ store_ok (st w') ∧
  ∀ k, walked_key now (map fst rs) w w' tl k.

(** A step on one incident, and then the rest of the walk. *)
Lemma step_then_walk obk rs now key c w w0 i0 i :
  (∀ w1, store_ok (st w1) → others_same key (st w) (st w1) → walk_done obk rs now w1) →
  key ∉ map fst rs → store_ok (st w0) → wt w0 = wt w → sent w0 = sent w → others_same key (st w) (st w0) →
  open_of key (st w0) = Some i0 → same_head i0 i → is_open i = true → row_ok i →
  ∃ events w1 walked tl w2 j,
    _step cfg (Some send) repairers console_url i c now w0 = (Ok events, w1) ∧
    walk_reds cfg (Some send) repairers console_url obk rs now w1 = (Ok walked, w2) ∧
    left_as w w2 (st w2) (subjects tl) ∧ store_ok (st w2) ∧
    open_of key (st w2) = Some j ∧ key_step cfg now true false false (phase_of i) (about key tl) (phase_of j) ∧
    ∀ k, k ≠ key → walked_key now (map fst rs) w w2 tl k.
Proof using All.
  intros Hrest Hkey Hok0 Hw0 Hs0 Hoth0 Hi0 Hh Ho Hrow.
  destruct (step_effect i c key now w0 i0 Hok0 Hi0 Hh Ho Hrow) as (events & ns & j & w1 & E1 & (A1 & B1 & C1) & Hok1 & Hoth & Hj & Hstep).
  assert (others_same key (st w) (st w1)) as Hsame by (intros k Hk; rewrite Hoth, Hoth0; done).
  destruct (Hrest w1 Hok1 Hsame) as (walked & tl & w2 & E2 & (A2 & B2 & C2) & Hok2 & H).
  exists events, w1, walked, (map (pair key) ns ++ tl), w2, j. split; [done|]. split; [done|].
  split; [split; [done|]; split; [congruence|]; by rewrite C2, C1, Hs0, subjects_app, subjects_of, app_assoc|]. split; [done|].
  pose proof (H key) as Hk. unfold walked_key in Hk. rewrite bool_decide_eq_false_2 in Hk by done. destruct Hk as [Hk1 Hk2].
  split; [congruence|]. split; [by rewrite about_app, about_same, Hk1, app_nil_r|].
  intros k Hne. specialize (H k). unfold walked_key, red_done in H |- *. rewrite about_app, about_other, app_nil_l by done.
  rewrite Hsame, B1, Hw0 in H by done. exact H.
Qed.

Lemma walked_cons now key (c : HealthCheck) rs w w' tl : red_done now key w w' (about key tl) → (∀ k, k ≠ key → walked_key now (map fst rs) w w' tl k) →
  ∀ k, walked_key now (map fst ((key, c) :: rs)) w w' tl k.
Proof using Type.
  intros Hkey Hoth k. unfold walked_key. destruct (decide (k = key)) as [->|Hne].
  - by rewrite bool_decide_eq_true_2 by (left).
  - rewrite in_other_keys by done. by apply Hoth.
Qed.

Lemma walk_runs obk rs now w : store_ok (st w) → NoDup (map fst rs) → (∀ k, k ∈ map fst rs → od_get k obk = open_of k (st w)) → walk_done obk rs now w.
Proof using All.
  revert w. induction rs as [|[key c] rs IH]; intros w Hok Hnd Hobk.
  { exists (false, []), [], w. split; [done|]. split; [apply left_here|]. split; [done|]. intros k. unfold walked_key.
    by rewrite bool_decide_eq_false_2 by (intros ?%elem_of_nil; done). }
  cbn [map fst] in Hnd. apply NoDup_cons in Hnd as [Hkey Hnd]. pose proof (Hobk key ltac:(left)) as Hkobk.
  assert (∀ w1, store_ok (st w1) → others_same key (st w) (st w1) → walk_done obk rs now w1) as Hrest.
  { intros w1 Hok1 Hoth. apply IH; [done..|]. intros k Hk. rewrite Hoth by (by intros ->). apply Hobk. by right. }
  unfold walk_done. cbn [walk_reds]. destruct (od_get key obk) as [i|] eqn:Eobk.
  - symmetry in Hkobk. apply open_of_Some in Hkobk as Hk'. destruct Hk' as (Hin & Hk & Ho).
    destruct (step_then_walk obk rs now key c w w i (seen_again c i) Hrest Hkey)
      as (events & w1 & walked & tl & w2 & j & E1 & E2 & L & Hok2 & Hj & Hstep & H);
      [done..|exact Hkobk|by repeat split|exact Ho|exact (so_rows _ Hok i Hin)|].
    rewrite (bind_runs _ _ _ _ _ E1), (bind_runs _ _ _ _ _ E2). eexists _, tl, w2. split; [reflexivity|]. split; [exact L|]. split; [done|].
    apply walked_cons; [|done]. unfold red_done. rewrite Hkobk. by exists j.
  - rewrite (bind_runs (gets _) _ w (default 0%Z (od_get key (wa_streaks (wt w)))) w eq_refl).
    destruct (default 0 (od_get key (wa_streaks (wt w))) <? wc_confirm_ticks cfg)%Z eqn:Hc.
    + destruct (Hrest w Hok) as (walked & tl & w2 & E2 & L2 & Hok2 & H); [done|].
      exists walked, tl, w2. split; [exact E2|]. split; [done|]. split; [done|]. apply walked_cons; [|done].
      unfold red_done. rewrite <- Hkobk, Hc. specialize (H key). unfold walked_key in H. rewrite bool_decide_eq_false_2 in H by done. by rewrite <- Hkobk in H.
    + destruct (open_effect (st w) key c now Hok (eq_sym Hkobk)) as (Hok0 & Hoth0 & Hnew). set (i := new_incident (is_next (st w)) key c now) in *.
      assert (open_incident key c now (part w) = (Ok i, run_state (open_incident key c now) (st w))) as Eopen by done.
      rewrite (bind_runs _ _ _ _ _ (part_runs_ _ _ _ _ Eopen)). set (w0 := set_part _ w).
      assert (st w0 = run_state (open_incident key c now) (st w)) as Hst0 by (unfold w0; by rewrite part_set). rewrite <- Hst0 in Hok0, Hoth0, Hnew.
      destruct (step_then_walk obk rs now key c w w0 i i Hrest Hkey)
        as (events & w1 & walked & tl & w2 & j & E1 & E2 & L & Hok2 & Hj & Hstep & H);
        [done|unfold w0; apply ww_apart|unfold w0; apply ww_sent_store|done|exact Hnew|by repeat split|done|by intros _|].
      rewrite (bind_runs _ _ _ _ _ E1), (bind_runs _ _ _ _ _ E2). eexists _, tl, w2. split; [reflexivity|]. split; [exact L|]. split; [done|].
      apply walked_cons; [|done]. unfold red_done. rewrite <- Hkobk, Hc. by exists j.
Qed.

(** ** A pass *)

(** A check the watch follows is red. *)
(** A check that is red and watched, or green, or not reported. *)
Definition plain_state (checks : list HealthCheck) (k : string) : Prop :=
  (∃ c, c ∈ checks ∧ check_key c = k ∧ hc_state c = h_red ∧ in_watch cfg c = true) ∨
  ∀ c, c ∈ checks → check_key c = k → hc_state c = h_green.

Definition red (checks : list HealthCheck) (k : string) : bool := List.existsb (λ c, in_watch cfg c && String.eqb (check_key c) k) checks.
(** The pass forgets the streaks: the first one of a process with a startup grace, or one after a gap. *)
Definition forgets (now : Z) (wa : Watcher) : bool :=
  match wa_last_pass wa with None => (0 <? wc_startup_grace cfg)%Z | Some last => (wc_resume_gap cfg <=? now - last)%Z end.
Definition holds (now : Z) (wa : Watcher) : bool := _in_grace now (_resumed cfg now wa).2.

Lemma resumed_streaks now wa k :
  default 0%Z (od_get k (wa_streaks (_resumed cfg now wa).2)) = if forgets now wa then 0%Z else default 0%Z (od_get k (wa_streaks wa)).
Proof using Type.
  unfold _resumed, forgets. destruct (wa_last_pass wa) as [last|].
  - rewrite Z.ltb_antisym. by destruct (_ <=? _)%Z.
  - rewrite Z.ltb_antisym. by destruct (_ <=? _)%Z.
Qed.

Lemma reds_keys checks : NoDup (map fst (reds_of cfg checks)) ∧ ∀ k, k ∈ map fst (reds_of cfg checks) ↔ red checks k = true.
Proof using Type.
  induction checks as [|c checks IH] using rev_ind; [split; [apply NoDup_nil_2|]; intros k; cbn; by rewrite elem_of_nil|].
  destruct IH as [Hnd Hk]. unfold reds_of in *. rewrite fold_left_app. cbn [fold_left]. unfold red. setoid_rewrite existsb_app. cbn [List.existsb].
  destruct (in_watch cfg c); cbn [andb].
  - split; [by apply kv_set_nodup|]. intros k. rewrite orb_false_r, orb_true_iff, String.eqb_eq. rewrite <- kv_set_key_iff. by rewrite Hk.
  - split; [done|]. intros k. by rewrite !orb_false_r.
Qed.


(** What a pass does with the check [k] when the watch's own state is that of [wa] before it. *)
Definition key_done (checks : list HealthCheck) (now : Z) (w w' : W) (tl : list (string * Notice)) (k : string) : Prop :=
  key_step cfg now (red checks k) (forgets now (wt w)) (holds now (wt w)) (phase k (st w) (wt w)) (about k tl) (phase k (st w') (wt w')).

(** The closing loop, over the incidents of the table. *)
Lemma close_all checks now w : store_ok (st w) → let reds := reds_of cfg checks in ∃ events tl w',
  close_greens cfg (Some send) reds (by_key (open_incidents (st w))) now w = (Ok events, w') ∧ left_as w w' (st w') (subjects tl) ∧ store_ok (st w') ∧
  (∀ k, red checks k = true → about k tl = [] ∧ open_of k (st w') = open_of k (st w)) ∧
  ∀ k, red checks k = false → open_of k (st w') = None ∧
    ∀ f h n, key_step cfg now false f h (match open_of k (st w) with Some i => phase_of i | None => Quiet n end) (about k tl) (Quiet 0).
Proof using All.
  intros Hok reds. destruct (open_by_key (st w) Hok) as [Hnd Hget]. destruct (reds_keys checks) as [_ Hred].
  destruct (close_runs reds (by_key (open_incidents (st w))) now w Hok Hnd) as (events & tl & w' & E & L & Hok' & H).
  { intros k i Hi. rewrite <- Hget. by apply od_get_member. }
  exists events, tl, w'. split; [done|]. split; [done|]. split; [done|]. split; intros k Hk; specialize (H k); rewrite Hget in H.
  - apply Hred in Hk. destruct (od_get k reds) eqn:Er; [by destruct (open_of k (st w))|]. by apply od_get_None in Er.
  - assert (od_get k reds = None) as Er by (apply od_get_None; unfold reds; rewrite Hred; by rewrite Hk). rewrite Er in H. destruct (open_of k (st w)) as [i|] eqn:Eo; [split; [apply H|intros f h _; apply H]|].
    destruct H as [-> ->]. split; [done|]. intros f h n. apply ks_green.
Qed.

Lemma diagnose_runs opened_any w : ∃ w', diagnose_opened cfg diagnose opened_any w = (Ok tt, w') ∧ left_as w w' (st w) [].
Proof using All.
  unfold diagnose_opened. destruct diagnose as [m|] eqn:Ed; [|exists w; split; [done|apply left_here]].
  destruct (_ && _); [|exists w; split; [done|apply left_here]]. pose proof (diagnose_off m eq_refl w) as (A & B & C).
  unfold try_except. destruct (m w) as [[[]|e] w1]; exists w1; (split; [done|]); split; try done; split; try done; by rewrite app_nil_r.
Qed.

(** The end of a pass in which nothing is held. *)
Lemma walk_all checks now w obk (events closed : list string) : store_ok (st w) →
  (∀ k, red checks k = true → od_get k obk = open_of k (st w)) → ∃ out tl w',
  (walked ← walk_reds cfg (Some send) repairers console_url obk (reds_of cfg checks) now;
   diagnose_opened cfg diagnose walked.1;;
   mret (events ++ closed ++ walked.2)) w = (Ok out, w') ∧ left_as w w' (st w') (subjects tl) ∧ store_ok (st w') ∧
  ∀ k, walked_key now (map fst (reds_of cfg checks)) w w' tl k.
Proof using All.
  intros Hok Hobk. destruct (reds_keys checks) as [Hnd Hred].
  destruct (walk_runs obk (reds_of cfg checks) now w Hok Hnd) as (walked & tl & w1 & E1 & (A1 & B1 & C1) & Hok1 & H).
  { intros k Hk. by apply Hobk, Hred. }
  rewrite (bind_runs _ _ _ _ _ E1). destruct (diagnose_runs walked.1 w1) as (w2 & E2 & A2 & B2 & C2). rewrite (bind_runs _ _ _ _ _ E2).
  eexists _, tl, w2. split; [reflexivity|]. split; [split; [done|]; split; [congruence|]; by rewrite C2, C1, app_nil_r|].
  split; [by rewrite A2|]. intros k. specialize (H k). unfold walked_key, red_done in *. by rewrite A2.
Qed.

(** The watch's own state after the count of a pass. *)
Definition counted (checks : list HealthCheck) (now : Z) (wa : Watcher) : Watcher :=
  let wa := (_resumed cfg now wa).2 in set_streaks (count_reds (reds_of cfg checks) wa) wa.

Lemma counted_streak checks now wa k :
  default 0%Z (od_get k (wa_streaks (counted checks now wa))) =
  if red checks k then ((if forgets now wa then 0 else default 0%Z (od_get k (wa_streaks wa))) + 1)%Z else 0%Z.
Proof using Type.
  unfold counted, set_streaks. cbn [wa_streaks]. rewrite count_reds_get, resumed_streaks. destruct (reds_keys checks) as [_ Hred].
  destruct (red checks k) eqn:Er; [by rewrite bool_decide_eq_true_2 by (by apply Hred)|].
  by rewrite bool_decide_eq_false_2 by (rewrite Hred; by rewrite Er).
Qed.

Lemma held_key forgotten now i : key_step cfg now true forgotten true (phase_of i) [] (phase_of i).
Proof using Type. unfold phase_of. destruct (in_state i); constructor. Qed.

Lemma not_held_key now i ns p forgotten : key_step cfg now true false false (phase_of i) ns p → key_step cfg now true forgotten false (phase_of i) ns p.
Proof using Type. unfold phase_of. destruct (in_state i); intros H; inversion H; subst; by constructor. Qed.

(** A red check that is walked: counted, opened, or taken a step further. *)
Lemma walked_red checks now w w2 w3 tl k : red checks k = true → holds now (wt w) = false → open_of k (st w2) = open_of k (st w) →
  wt w2 = counted checks now (wt w) → wt w3 = wt w2 → red_done now k w2 w3 (about k tl) →
  key_step cfg now true (forgets now (wt w)) false (phase k (st w) (wt w)) (about k tl) (phase k (st w3) (wt w3)).
Proof using Type.
  intros Hr Hh Ho Hw2 Hw3 H. unfold red_done in H. rewrite Ho, Hw2, counted_streak, Hr in H. unfold phase at 1. destruct (open_of k (st w)) as [i|].
  - destruct H as (j & Hj & H). unfold phase. rewrite Hj. by apply not_held_key.
  - set (n := default 0%Z _) in *. destruct (_ <? _)%Z eqn:Hc.
    + destruct H as [-> Hj]. unfold phase. rewrite Hj, Hw3, Hw2, counted_streak, Hr. apply ks_count. by apply Z.ltb_lt.
    + destruct H as (j & Hj & H). unfold phase. rewrite Hj. apply ks_open; [by apply Z.ltb_ge|]. by inversion H.
Qed.

(** A pass in which new incidents are held. *)
Lemma held_pass checks now w w2 w4 tl k : holds now (wt w) = true →
  (red checks k = true → about k tl = [] ∧ open_of k (st w4) = open_of k (st w)) →
  (red checks k = false → open_of k (st w4) = None ∧
    ∀ f h n, key_step cfg now false f h (match open_of k (st w) with Some i => phase_of i | None => Quiet n end) (about k tl) (Quiet 0)) →
  wt w4 = set_streaks [] (wt w2) → key_done checks now w w4 tl k.
Proof using Type.
  intros Hh Hred Hgreen Hw4. unfold key_done. rewrite Hh. unfold phase. rewrite Hw4. destruct (red checks k) eqn:Er.
  - destruct (Hred eq_refl) as [-> ->]. destruct (open_of k (st w)); [apply held_key|apply ks_held_quiet].
  - destruct (Hgreen eq_refl) as [-> Hk]. apply Hk.
Qed.

Lemma pass_runs checks now w : store_ok (st w) → ∃ events tl w',
  _observe cfg (Some send) repairers diagnose console_url checks now w = (Ok events, w') ∧ store_ok (st w') ∧ sent w' = sent w ++ subjects tl ∧
  wa_last_pass (wt w') = Some now ∧ wa_grace_until (wt w') = wa_grace_until (_resumed cfg now (wt w)).2 ∧ ∀ k, key_done checks now w w' tl k.
Proof using All.
  intros Hok. unfold _observe. set (wa := wt w). set (r := _resumed cfg now wa).
  assert (wa_last_pass r.2 = Some now) as Hlast.
  { unfold r, _resumed. destruct (wa_last_pass wa); [destruct (_ <? _)%Z|destruct (_ <=? _)%Z]; done. }
  set (w1 := set_part r.2 w). assert (on_part (λ wa, let '(events, wa) := _resumed cfg now wa in (Ok events, wa)) w = (Ok r.1, w1)) as E1.
  { apply part_runs_. unfold r, wa. by destruct (_resumed cfg now (part w)). }
  rewrite (bind_runs _ _ _ _ _ E1). set (w2 := set_part (counted checks now wa) w1).
  assert (on_part (modify (λ wa, set_streaks (count_reds (reds_of cfg checks) wa) wa)) w1 = (Ok tt, w2)) as E2.
  { apply part_runs_. unfold modify, w1. by rewrite part_set. }
  rewrite (bind_runs _ _ _ _ _ E2). rewrite (bind_runs (gets _) _ w2 _ w2 eq_refl).
  assert (st w2 = st w) as Hs2 by (unfold w2, w1; by rewrite !ww_apart'). assert (wt w2 = counted checks now wa) as Hw2 by (unfold w2; by rewrite part_set).
  assert (sent w2 = sent w) as Hsent by (unfold w2, w1; by rewrite !ww_sent_watcher).
  rewrite <- Hs2 in Hok. destruct (close_all checks now w2 Hok) as (closed & tl1 & w3 & E3 & (_ & B3 & C3) & Hok3 & Hred & Hgreen).
  rewrite (bind_runs _ _ _ _ _ E3). rewrite (bind_runs (gets _) _ w3 _ w3 eq_refl).
  assert (_in_grace now (wt w3) = holds now wa) as -> by (by rewrite B3, Hw2).
  destruct (holds now wa) eqn:Hh.
  - assert (on_part (modify (set_streaks [])) w3 = (Ok tt, set_part (set_streaks [] (wt w3)) w3)) as E4 by (by apply part_runs_).
    rewrite (bind_runs _ _ _ _ _ E4). set (w4 := set_part _ w3).
    assert (st w4 = st w3) as Hs4 by apply ww_apart'. assert (wt w4 = set_streaks [] (wt w3)) as Hw4 by (unfold w4; by rewrite part_set).
    eexists _, tl1, w4. split; [reflexivity|]. split; [by rewrite Hs4|]. split; [unfold w4; by rewrite ww_sent_watcher, C3, Hsent|].
    split; [rewrite Hw4, B3, Hw2; exact Hlast|]. split; [by rewrite Hw4, B3, Hw2|]. intros k.
    apply (held_pass checks now w w3); [done|rewrite Hs4, <- Hs2; apply Hred|rewrite Hs4, <- Hs2; apply Hgreen|done].
  - destruct (walk_all checks now w3 (by_key (open_incidents (st w2))) r.1 closed Hok3) as (out & tl2 & w4 & E4 & (_ & B4 & C4) & Hok4 & Hwalk).
    { intros k Hk. rewrite (proj2 (open_by_key _ Hok)). symmetry. by apply Hred. }
    exists out, (tl1 ++ tl2), w4. split; [exact E4|]. split; [done|].
    split; [by rewrite C4, C3, Hsent, subjects_app, app_assoc|]. split; [rewrite B4, B3, Hw2; exact Hlast|]. split; [by rewrite B4, B3, Hw2|].
    intros k. unfold key_done. fold wa. rewrite Hh, about_app. specialize (Hwalk k). unfold walked_key in Hwalk. destruct (reds_keys checks) as [_ Hkeys].
    destruct (red checks k) eqn:Er.
    + rewrite bool_decide_eq_true_2 in Hwalk by (by apply Hkeys). destruct (Hred k Er) as [-> Ho].
      apply (walked_red checks now w w3); [done|done|by rewrite Ho, Hs2|by rewrite B3|done|done].
    + rewrite bool_decide_eq_false_2 in Hwalk by (rewrite Hkeys; by rewrite Er). destruct Hwalk as [-> Ho4], (Hgreen k Er) as [Ho Hk].
      unfold phase. rewrite Ho4, Ho, app_nil_r, B4, B3, Hw2, counted_streak, Er, <- Hs2. apply Hk.
Qed.

(** ** What the owner gets *)

(** C24. One pass of the watch takes a check it watches one step of the table above, when it is red, green
    or not reported: red long enough it is opened, repaired at most [max_attempts] times, told, reminded of
    after [renotify_hours] and no sooner, and closed when it is green or gone; nothing is opened or repaired
    in a hold, the notices handed over are those of the steps, and the table keeps at most one open incident
    per check. No repairer, notice or probe that fails stops the pass. Not of a check that is neither: a
    yellow one, or a red one on the ignore list, is closed like a green one
    ([ignored_check_called_working] below). *)
Theorem watch_refines checks now w : wc_enabled cfg = true → store_ok (st w) → ∃ events tl w',
  observe cfg (Some send) repairers diagnose console_url checks now w = (Ok events, w') ∧ store_ok (st w') ∧ sent w' = sent w ++ subjects tl ∧
  ∀ k, plain_state checks k →
    key_step cfg now (red checks k) (forgets now (wt w)) (holds now (wt w)) (phase k (st w) (wt w)) (about k tl) (phase k (st w') (wt w')).
Proof using All.
  intros He Hok. unfold observe. rewrite He. destruct (pass_runs checks now w Hok) as (events & tl & w' & E & Hok' & Hs & _ & _ & H).
  exists events, tl, w'. split_and!; [done..|]. intros k _. apply H.
Qed.

(** Passes one after the other, each with its snapshot and its time. *)
Fixpoint observe_all (ps : list (list HealthCheck * Z)) : M W unit :=
  match ps with
  | [] => mret tt
  | (checks, now) :: ps => observe cfg (Some send) repairers diagnose console_url checks now;; observe_all ps
  end.

(** The passes follow one another without a gap, and no hold is on. *)
Fixpoint steady (last : Z) (grace : option Z) (ps : list (list HealthCheck * Z)) : Prop :=
  match ps with
  | [] => True
  | (_, now) :: ps => (now - last < wc_resume_gap cfg)%Z ∧ (∀ t, grace = Some t → (t ≤ now)%Z) ∧ steady now grace ps
  end.

(** How many red passes a check is from its owner being told, at most. *)
Definition distance (p : Phase) : nat :=
  match p with
  | Quiet n => Z.to_nat (Z.max 1 (wc_confirm_ticks cfg - n)) + wc_max_attempts cfg
  | Repairing a => S (wc_max_attempts cfg - a)
  | Told _ => 0
  end.
Definition is_told (p : Phase) : bool := match p with Told _ => true | _ => false end.

Lemma attempt_closer now a ns p : attempt cfg now a ns p → distance p < distance (Repairing a) ∧ (is_told p = true → n_help ∈ ns).
Proof using Type. intros [a' Ha|a']; cbn; (split; [lia|]); [done|]. intros _. by left. Qed.

Lemma red_step_closer now ns p p' : key_step cfg now true false false p ns p' →
  (is_told p = true → is_told p' = true) ∧ (is_told p = false → distance p' < distance p ∧ (is_told p' = true → n_help ∈ ns)).
Proof using Type.
  intros H. inversion H; subst; cbn [is_told]; split; try done; intros _.
  - cbn. split; [lia|done].
  - match goal with Ha : attempt _ _ 0 _ _ |- _ => destruct (attempt_closer _ _ _ _ Ha) as [Hd Hn] end. split; [cbn in Hd |- *; lia|done].
  - by eapply attempt_closer.
Qed.

Lemma steady_pass now wa last : wa_last_pass wa = Some last → (now - last < wc_resume_gap cfg)%Z → (∀ t, wa_grace_until wa = Some t → (t ≤ now)%Z) →
  forgets now wa = false ∧ holds now wa = false ∧ wa_grace_until (_resumed cfg now wa).2 = wa_grace_until wa.
Proof using Type.
  intros Hl Hg Hh. unfold holds, forgets, _resumed. rewrite Hl. rewrite (proj2 (Z.ltb_lt _ _) Hg). split; [by apply Z.leb_gt|]. split; [|done].
  unfold _in_grace. cbn. destruct (wa_grace_until wa) as [t|]; [|done]. apply Z.ltb_ge. by apply Hh.
Qed.

Lemma told_notified k w : store_ok (st w) → is_told (phase k (st w) (wt w)) = true → ∃ i, open_of k (st w) = Some i ∧ in_state i = needs_user ∧ 0 < in_notify_count i.
Proof using Type.
  intros Hok. unfold phase. destruct (open_of k (st w)) as [i|] eqn:E; [|done]. apply open_of_Some in E as (Hi & _ & Ho).
  pose proof (so_rows _ Hok i Hi Ho) as Hrow. unfold phase_of. destruct (in_state i) eqn:Es; [done| |done]. intros _. exists i. by destruct Hrow.
Qed.

Lemma passes_reach ps k w last : wc_enabled cfg = true → store_ok (st w) → wa_last_pass (wt w) = Some last → steady last (wa_grace_until (wt w)) ps →
  Forall (λ p, red p.1 k = true) ps → distance (phase k (st w) (wt w)) ≤ length ps → ∃ tl w', observe_all ps w = (Ok tt, w') ∧ store_ok (st w') ∧
  sent w' = sent w ++ subjects tl ∧ is_told (phase k (st w') (wt w')) = true ∧ (is_told (phase k (st w) (wt w)) = true ∨ n_help ∈ about k tl).
Proof using All.
  intros He. revert w last. induction ps as [|[checks now] ps IH]; intros w last Hok Hl Hst Hred Hd.
  { exists [], w. split; [done|]. split; [done|]. split; [by rewrite app_nil_r|]. destruct (phase k (st w) (wt w)); cbn in *; [lia|lia|]. auto. }
  destruct Hst as (Hg & Hh & Hst). apply Forall_cons in Hred as [Hr Hred]. cbn [fst] in Hr. cbn [length] in Hd.
  destruct (steady_pass now (wt w) last Hl Hg Hh) as (Hf & Hhold & Hgr).
  destruct (pass_runs checks now w Hok) as (events & tl1 & w1 & E1 & Hok1 & Hs1 & Hl1 & Hg1 & H). rewrite Hgr in Hg1.
  specialize (H k). unfold key_done in H. rewrite Hr, Hf, Hhold in H. destruct (red_step_closer _ _ _ _ H) as [Ht Hc].
  assert (distance (phase k (st w1) (wt w1)) ≤ length ps) as Hd1.
  { destruct (is_told (phase k (st w) (wt w))) eqn:Et; [|destruct (Hc eq_refl); lia]. specialize (Ht eq_refl). destruct (phase k (st w1) (wt w1)); cbn in *; [done|done|lia]. }
  destruct (IH w1 now Hok1 Hl1 ltac:(by rewrite Hg1) Hred Hd1) as (tl2 & w2 & E2 & Hok2 & Hs2 & Ht2 & Hor).
  exists (tl1 ++ tl2), w2. split.
  { cbn [observe_all]. assert (observe cfg (Some send) repairers diagnose console_url checks now w = (Ok events, w1)) as Eo by (unfold observe; by rewrite He).
    by rewrite (bind_runs _ _ _ _ _ Eo). }
  split; [done|]. split; [by rewrite Hs2, Hs1, subjects_app, app_assoc|]. split; [done|].
  destruct (is_told (phase k (st w) (wt w))) eqn:Et; [by left|]. right. rewrite about_app, elem_of_app.
  destruct Hor as [Hor|Hor]; [left; by apply Hc|by right].
Qed.

Lemma about_sent k n tl : n ∈ about k tl → subject_of n ∈ subjects tl.
Proof using Type.
  unfold about, subjects. rewrite list_elem_of_omap, list_elem_of_fmap. intros ([k' n'] & Hin & Hn). cbn in Hn. destruct (String.eqb k' k); [|done].
  simplify_eq. by exists (k', n).
Qed.

(** C25. A check that stays red reaches its owner: after [confirm_ticks] and at most [max_attempts] more passes,
    in steady passes outside a hold, its incident stands as one that needs the owner, and the notice was handed to the notifier, before or now. *)
Theorem red_check_reaches_owner ps k w last : wc_enabled cfg = true → store_ok (st w) → wa_last_pass (wt w) = Some last →
  steady last (wa_grace_until (wt w)) ps → Forall (λ p, red p.1 k = true) ps → distance (phase k (st w) (wt w)) ≤ length ps → ∃ tl w',
  observe_all ps w = (Ok tt, w') ∧ sent w' = sent w ++ tl ∧
  (∃ i, open_of k (st w') = Some i ∧ in_state i = needs_user ∧ 0 < in_notify_count i) ∧
  (is_told (phase k (st w) (wt w)) = false → HELP ∈ tl).
Proof using All.
  intros He Hok Hl Hst Hred Hd. destruct (passes_reach ps k w last He Hok Hl Hst Hred Hd) as (tl & w' & E & Hok' & Hs & Ht & Hor).
  exists (subjects tl), w'. split; [done|]. split; [done|]. split; [by apply told_notified|]. intros Hn. rewrite Hn in Hor.
  destruct Hor as [|Hor]; [done|]. by apply (about_sent k n_help).
Qed.
End passes.

(** ** Samples *)

Record Ward := { wd_store : IncidentStore; wd_watcher : Watcher; wd_sent : list string }.
#[export] Instance ward_store : Part Ward IncidentStore :=
  {| part := wd_store; set_part s w := {| wd_store := s; wd_watcher := wd_watcher w; wd_sent := wd_sent w |} |}.
#[export] Instance ward_watcher : Part Ward Watcher :=
  {| part := wd_watcher; set_part a w := {| wd_store := wd_store w; wd_watcher := a; wd_sent := wd_sent w |} |}.

(** A notifier that keeps the subjects; it fails when [ok] is off. *)
Definition ward_send (ok : bool) : @Notifier Ward := λ subject _ _ _ w,
  (if ok then Ok tt else Raise (Exn "SMTPException" "refused"),
   {| wd_store := wd_store w; wd_watcher := wd_watcher w; wd_sent := wd_sent w ++ [subject] |}).
#[export] Instance ward_world ok : WatchWorld Ward (ward_send ok) wd_sent.
Proof. split; try done; split; intros; by repeat match goal with x : Ward |- _ => destruct x end. Qed.

Definition sample_watch (max_attempts : nat) : WatchConfig :=
  {| wc_enabled := true; wc_confirm_ticks := 2; wc_max_attempts := max_attempts; wc_channels := None; wc_renotify := 12 * HOUR;
     wc_notify_self_healed := false; wc_notify_recovered := true; wc_diagnose_credentials := true; wc_recurring_days := 7; wc_ignore := ["Lamp"];
     wc_resume_gap := 5 * MINUTE; wc_resume_grace := 10 * MINUTE; wc_startup_grace := 0; wc_startup_words := "0" |}.
Definition sample_ward : Ward := {| wd_store := {| is_rows := []; is_next := 1 |}; wd_watcher := new_watcher; wd_sent := [] |}.
Definition sample_check (state : HealthState) : HealthCheck :=
  {| hc_target := "Gmail"; hc_kind := k_credential; hc_state := state; hc_detail := "revoked — run `evarness auth gmail login` to reconnect.";
     hc_endpoint := None; hc_action := Some "evarness health refresh"; hc_subject := Some "a@b"; hc_fix_url := Some "/settings#connections" |}.
(** A repairer that tries and fails. *)
Definition futile : @Repairer Ward := λ _, mret (Some {| ro_tried := "token refresh"; ro_ok := false; ro_detail := "timeout"; ro_final := false |}).
Lemma futile_off c : hands_off wd_sent (futile c).
Proof. by intros w. Qed.

Definition sample_pass (ok : bool) (state : HealthState) (minute : Z) : M Ward (list string) :=
  observe (sample_watch 2) (Some (ward_send ok)) [futile] None (λ u, "https://home" +:+ u) [sample_check state] (minute * MINUTE)%Z.
Definition sample_passes (ok : bool) (states : list HealthState) : M Ward unit :=
  foldr (λ p k, sample_pass ok p.2 (Z.of_nat p.1);; k) (mret tt) (imap (λ n s, (S n, s)) states).

(** Two red passes open the incident, two tries fail, the owner is told once and hears when it is back. *)
Example incident_life :
  map (λ n, wd_sent (run_state (sample_passes true (take n [h_red; h_red; h_red; h_red; h_red; h_green])) sample_ward)) [1; 2; 3; 4; 5; 6]
  = [[]; []; []; [HELP]; [HELP]; [HELP; BACK]].
Proof. by vm_compute. Qed.
Example help_names_the_fix :
  _fix_lines (new_incident 1 "Gmail:a@b" (sample_check h_red) 0) =
  ["To fix it, run: evarness auth gmail login"; "Then retry with: evarness health refresh"].
Proof. by vm_compute. Qed.

(** A check that is still red is announced as working once it is on the ignore list. *)
Example ignored_check_called_working :
  let lamp := {| hc_target := "Lamp"; hc_kind := k_hardware; hc_state := h_red; hc_detail := "off"; hc_endpoint := None; hc_action := None; hc_subject := None;
    hc_fix_url := None |} in
  let w := {| wd_store := {| is_rows := [told 0 (set_state needs_user (new_incident 1 "Lamp" lamp 0))]; is_next := 2 |}; wd_watcher := new_watcher; wd_sent := [HELP] |} in
  let w' := run_state (observe (sample_watch 2) (Some (ward_send true)) [] None id [lamp] MINUTE) w in
  wd_sent w' = [HELP; BACK] ∧ map in_resolution (is_rows (wd_store w')) = [Some user_fixed].
Proof. by vm_compute. Qed.

(** A notice that failed counts as given: it is not sent again for [renotify_hours]. *)
Example failed_notice_not_retried :
  let w := run_state (sample_passes false [h_red; h_red; h_red; h_red]) sample_ward in
  let w' := run_state (sample_pass true h_red 5) w in
  wd_sent w = [HELP] ∧ wd_sent w' = [HELP] ∧ option_map in_notify_count (open_of "Gmail:a@b" (wd_store w')) = Some 1 ∧
  wd_sent (run_state (sample_pass true h_green 6) w') = [HELP; BACK].
Proof. by vm_compute. Qed.

Lemma one_row_ok i n : (in_id i < n)%Z → row_ok i → store_ok {| is_rows := [i]; is_next := n |}.
Proof.
  intros Hn Hi. split; cbn; [apply NoDup_singleton|..].
  - by intros j ->%list_elem_of_singleton.
  - by intros j j' ->%list_elem_of_singleton ->%list_elem_of_singleton.
  - by intros j ->%list_elem_of_singleton.
Qed.
Lemma no_incidents_ok n : store_ok {| is_rows := []; is_next := n |}.
Proof. split; cbn; [apply NoDup_nil_2|..]; intros i; try (by intros ?%elem_of_nil); intros j ?%elem_of_nil; done. Qed.

Lemma watch_refines_witness : let w := run_state (sample_passes true [h_red; h_red; h_red]) sample_ward in
  ∃ events tl w', sample_pass true h_red 4 w = (Ok events, w') ∧ wd_sent w' = subjects tl ∧
  key_step (sample_watch 2) (4 * MINUTE) true false false (Repairing 2) (about "Gmail:a@b" tl) (phase "Gmail:a@b" (wd_store w') (wd_watcher w')).
Proof.
  intros w. destruct (watch_refines (ward_send true) wd_sent (sample_watch 2) [futile] None (λ u, "https://home" +:+ u)) with
    (checks := [sample_check h_red]) (now := (4 * MINUTE)%Z) (w := w) as (events & tl & w' & E & _ & Hs & H).
  - intros r c ->%list_elem_of_singleton. apply futile_off.
  - done.
  - done.
  - vm_compute. apply one_row_ok; [done|]. intros _. by vm_compute.
  - exists events, tl, w'. split; [exact E|]. split; [exact Hs|]. apply (H "Gmail:a@b"). left. exists (sample_check h_red). split_and!; [by repeat constructor|by vm_compute..].
Defined.

(** Two ticks to confirm, two tries, and the notice: five passes at most. *)
Lemma red_check_reaches_owner_witness : let ps := map (λ n, ([sample_check h_red], (n * MINUTE)%Z)) [2; 3; 4; 5; 6]%Z in
  let w := run_state (sample_pass true h_green 1) sample_ward in
  ∃ tl w', observe_all (ward_send true) (sample_watch 2) [futile] None (λ u, "https://home" +:+ u) ps w = (Ok tt, w') ∧ wd_sent w' = tl ∧
  (∃ i, open_of "Gmail:a@b" (wd_store w') = Some i ∧ in_state i = needs_user ∧ 0 < in_notify_count i) ∧ HELP ∈ tl.
Proof.
  intros ps w. destruct (red_check_reaches_owner (ward_send true) wd_sent (sample_watch 2) [futile] None (λ u, "https://home" +:+ u)) with
    (ps := ps) (k := "Gmail:a@b") (w := w) (last := MINUTE) as (tl & w' & E & Hs & Hi & Hh).
  - intros r c ->%list_elem_of_singleton. apply futile_off.
  - done.
  - done.
  - vm_compute. apply no_incidents_ok.
  - by vm_compute.
  - assert (wa_grace_until (part w) = None) as -> by (by vm_compute). repeat (split; [by vm_compute|split; [by intros t|]]). exact I.
  - by repeat constructor.
  - vm_compute. lia.
  - exists tl, w'. split; [exact E|]. split; [exact Hs|]. split; [exact Hi|]. apply Hh. by vm_compute.
Defined.
