(* ===== verification/ReactText.v ===== *)
(** * The text of the agent loop ([agent/agentic_core.py], [answer_guard.py], [context_budget.py])

    A reply of the model read as a step, the guard on final answers and the budget of the
    transcript, without the loop itself. *)

From S2P Require Import Prelude PyVal PyText CallContext Encodings ToolRunner.
From stdpp Require Import options.

(** ** Steps *)

(** [ReactStep] *)
Record ReactStep := {
  rs_thought : string; rs_action : option string; rs_action_input : pydict; rs_observation : option string;
  rs_final_answer : option string; rs_is_terminal : bool; rs_failed : bool }.
Definition new_step : ReactStep :=
  {| rs_thought := ""; rs_action := None; rs_action_input := []; rs_observation := None; rs_final_answer := None; rs_is_terminal := false; rs_failed := false |}.

Definition with_observation (o : option string) (s : ReactStep) : ReactStep :=
  {| rs_thought := rs_thought s; rs_action := rs_action s; rs_action_input := rs_action_input s; rs_observation := o;
     rs_final_answer := rs_final_answer s; rs_is_terminal := rs_is_terminal s; rs_failed := rs_failed s |}.

(** [x or ""] and [bool(x)] of an optional text. *)
Definition text_or (x : option string) : string := default "" x.
Definition has_text (x : option string) : bool := str_truthy (text_or x).

Definition nl : string := String (ascii_of_N 10) "".

(** [json.dumps(v)], the keys in their order. *)
Fixpoint dumps_unsorted (v : pyval) : string :=
  match v with
  | VNone => "null"
  | VBool true => "true"
  | VBool false => "false"
  | VInt z => pretty z
  | VFloat r => r
  | VStr s => json_str s
  | VList l => "[" +:+ join ", " (map dumps_unsorted l) +:+ "]"
  | VDict d => "{" +:+ join ", " (map (λ kv, json_str kv.1 +:+ ": " +:+ dumps_unsorted kv.2) d) +:+ "}"
  | VObj s => json_str s
  end.

(** ** Reading a reply *)

(** The text after the first [label]. *)
Fixpoint after_label (label s : string) : option string :=
  if startswith label s then Some (str_drop (String.length label) s)
  else match s with EmptyString => None | String _ r => after_label label r end.

(** At least one character, up to the first place where one of [stops] begins. *)
Fixpoint up_to (stops : list string) (s : string) : string :=
  match s with
  | EmptyString => ""
  | String c r => String c (if existsb (λ p, startswith p r) stops then "" else up_to stops r)
  end.

(** [label\s*(.+?)(?=stops|$)], searched for, and the group stripped. *)
Definition captured (label : string) (stops : list string) (s : string) : option string :=
  r ← after_label label s;
  if str_truthy r then Some (str_strip (up_to stops (lstrip r))) else None.

Definition read_thought : string → option string := captured "Thought:" [nl +:+ "Action:"; nl +:+ "Final Answer:"].
Definition read_action : string → option string := captured "Action:" [nl +:+ "Action Input:"].
Definition read_action_input : string → option string := captured "Action Input:" [nl +:+ "Observation:"].
Definition read_final_answer : string → option string :=
  captured "Final Answer:" [nl +:+ "Thought:"; nl +:+ "Action:"; nl +:+ "Action Input:"; nl +:+ "Observation:"; nl +:+ "User:"].

(** The first balanced object: what [_extract_leading_json_object] hands to the reader. *)
Fixpoint leading_object (depth : nat) (in_string escape : bool) (s : string) : option string :=
  match s with
  | EmptyString => None
  | String c r =>
      let on d i e := String c <$> leading_object d i e r in
      if escape then on depth in_string false
      else if char_is 92 c then on depth in_string true
      else if char_is 34 c then on depth (negb in_string) false
      else if in_string then on depth in_string false
      else if char_is 123 c then on (S depth) in_string false
      else if char_is 125 c then match depth with 1 => Some (String c "") | O => on O in_string false | S d => on d in_string false end
      else on depth in_string false
  end.

Section reading.
(** The [repr] of the float a literal denotes. *)
Context (float_repr : string → string).

(** [_extract_leading_json_object] *)
Definition _extract_leading_json_object (raw : string) : option pyval :=
  let raw := lstrip raw in
  if startswith "{" raw then leading_object 0 false false raw ≫= json_loads float_repr else None.

(** [_unwrap_nested_input] *)
Definition _unwrap_nested_input (parsed : pydict) : pydict :=
  match parsed with
  | [(k, VStr s)] => if String.eqb k "input" then match _extract_leading_json_object s with Some (VDict inner) => inner | _ => parsed end else parsed
  | _ => parsed
  end.

(** The arguments of a step, of its stripped text. *)
Definition read_arguments (raw : string) : pydict :=
  match (match json_loads float_repr raw with Some v => Some v | None => _extract_leading_json_object raw end) with
  | Some (VDict d) => _unwrap_nested_input d
  | _ => [("input", VStr raw)]
  end.

(** [_parse_react_step] *)
Definition _parse_react_step (text : string) : ReactStep :=
  let thought := default "" (read_thought text) in
  match read_final_answer text with
  | Some answer =>
      {| rs_thought := thought; rs_action := None; rs_action_input := []; rs_observation := None; rs_final_answer := Some answer;
         rs_is_terminal := true; rs_failed := false |}
  | None =>
      {| rs_thought := thought; rs_action := read_action text;
         rs_action_input := match read_action_input text with Some raw => read_arguments raw | None => [] end;
         rs_observation := None; rs_final_answer := None; rs_is_terminal := false; rs_failed := false |}
  end.
End reading.

Example reads_an_action : let s := _parse_react_step id ("Thought: look it up" +:+ nl +:+ "Action: research" +:+ nl +:+ "Action Input: {" +:+ json_str "q" +:+ ": 3}" +:+ nl +:+ "Observation: x") in
  (rs_thought s, rs_action s, rs_action_input s) = ("look it up", Some "research", [("q", VInt 3)]).
Proof. by vm_compute. Qed.
Example stops_at_a_second_step : rs_final_answer (_parse_react_step id ("Final Answer: two." +:+ nl +:+ "Thought: again")) = Some "two.".
Proof. by vm_compute. Qed.
Example salvages_an_object : rs_action_input (_parse_react_step id ("Action: a" +:+ nl +:+ "Action Input: {" +:+ json_str "q" +:+ ": 3} waiting")) = [("q", VInt 3)].
Proof. by vm_compute. Qed.

(** ** Observations *)

Definition ENVELOPE_TAG : string := "external_content".
Definition word_ch (c : ascii) : bool := ascii_alpha c || is_digit c || char_is 95 c.

(** The attributes of an opening tag, up to its [>], and the body behind the line's end. *)
Fixpoint envelope_body (s : string) : option string :=
  match s with
  | EmptyString => None
  | String c r =>
      if char_is 62 c then match r with String d b => if char_is 10 d then Some b else None | EmptyString => None end
      else if char_is 10 c then None
      else envelope_body r
  end.
Definition drop_end (p s : string) : string := if endswith p s then str_take (String.length s - String.length p) s else s.

(** [unwrap] of external content. *)
Definition unwrap (text : string) : string :=
  let tag := "<" +:+ ENVELOPE_TAG in
  if startswith tag text then
    let rest := str_drop (String.length tag) text in
    match rest with
    | String c _ =>
        if word_ch c then text
        else match envelope_body rest with
             | Some body =>
                 str_replace ("&lt;/" +:+ ENVELOPE_TAG) ("</" +:+ ENVELOPE_TAG)
                   (str_replace ("&lt;" +:+ ENVELOPE_TAG) tag (drop_end (nl +:+ "</" +:+ ENVELOPE_TAG +:+ ">") body))
             | None => text
             end
    | EmptyString => text
    end
  else text.

(** [_OBSERVATION_CONTEXT_HEADER_RE.sub] *)
Fixpoint header_rest (s : string) : option string :=
  match s with
  | EmptyString => None
  | String c r =>
      if char_is 93 c then match r with String d b => if char_is 10 d then Some b else None | EmptyString => None end
      else if char_is 10 c then None
      else header_rest r
  end.
Definition without_header (s : string) : string :=
  let head := "[current date: " in
  if startswith head (str_lower (str_take (String.length head) s)) then default s (header_rest (str_drop (String.length head) s)) else s.

Definition _ASK_TURNED_BACK : string := "Not asked yet.".
Definition UNBACKED_CLAIM_NOTE : string :=
  "Your answer says a change was made, but no tool that changes anything ran on this request, so nothing was saved. If it was made on an EARLIER request, say that plainly. Otherwise tell the user it was not done, or make exactly the change this request asks for — nothing from earlier requests or from memory.".
Definition UNBACKED_CLAIM_ANSWER : string := "I haven't made that change — nothing was saved. Ask me again and I'll do it.".
Definition SCAFFOLD_ECHO_NOTE : string :=
  "Your answer repeated your own working notes instead of answering. Reply with 'Final Answer: <the answer for the user>', or call a tool.".
Definition _HARNESS_NOTES : list string := [_ASK_TURNED_BACK; SCAFFOLD_ECHO_NOTE; UNBACKED_CLAIM_NOTE].
Definition starts_with_one (ps : list string) (s : string) : bool := existsb (λ p, startswith p s) ps.

(** [_usable_observation] *)
Definition _usable_observation (observation : option string) : string :=
  let obs := str_strip (unwrap (str_strip (text_or observation))) in
  if negb (str_truthy obs) || String.eqb (str_lower obs) "none" || starts_with_one _HARNESS_NOTES obs then ""
  else
    let low := str_lower obs in
    if startswith "error:" low || str_contains " failed:" low || str_contains " unavailable:" low then ""
    else str_strip (without_header obs).

(** [_last_good_observation] *)
Definition _last_good_observation (steps : list ReactStep) : string :=
  default "" (List.find str_truthy (map (λ s, _usable_observation (rs_observation s)) (reverse steps))).

(** ** Planning talk *)

(** [\s+] after which [k] reads on, and the letters of a word. *)
Definition spaces (s : string) : option string := match s with String c _ => if is_space c then Some (lstrip s) else None | EmptyString => None end.
Fixpoint eat_words (ws : list string) (s : string) : option string :=
  match ws with
  | [] => Some s
  | [w] => cut w s
  | w :: ws => r ← cut w s; r ← spaces r; eat_words ws r
  end.
Definition eats (ws : list string) (s : string) : bool := match eat_words ws s with Some _ => true | None => false end.
(** [\b] after a word character. *)
Definition word_ends (s : string) : bool := match s with String c _ => negb (word_ch c) | EmptyString => true end.
Definition eats_word (ws : list string) (s : string) : bool := match eat_words ws s with Some r => word_ends r | None => false end.

(** [_INTERNAL_PLANNING_RE.search] *)
Definition _looks_like_internal_planning (text : string) : bool :=
  let s := lstrip (str_lower text) in
  existsb (λ ws, eats ws s)
    [["the"; "user"; "wants"]; ["the"; "user"; "asked"]; ["the"; "user"; "is"; "asking"]; ["the"; "user"; "needs"]; ["i"; "need"; "to"]; ["i"; "should"]]
  || existsb (λ ws, eats_word ws s)
    ([["let"; "me"]; ["first"; "i"]; ["first,"; "i"]; ["first"; "i'll"]; ["first,"; "i'll"]; ["first"; "i"; "will"]; ["first,"; "i"; "will"]]
     ++ concat (map (λ v, [["i'll"; v]; ["i"; "will"; v]])
          ["check"; "look"; "search"; "find"; "read"; "fetch"; "summarise"; "summarize"; "use"])).

(** ** Fresh news *)

(** [\b(alternatives)\b], searched for; [m] gives what may follow a match that begins here. *)
Fixpoint word_search (m : string → list string) (after_word : bool) (s : string) : bool :=
  (negb after_word && existsb word_ends (m s))
  || match s with EmptyString => false | String c r => word_search m (word_ch c) r end.
Definition matches_of (wss : list (list string)) (s : string) : list string := omap (λ ws, eat_words ws s) wss.
(** [top\s+\d{1,2}] *)
Definition top_n (s : string) : list (string * string) :=
  match eat_words ["top"; ""] s with
  | Some (String a r) =>
      if is_digit a then
        match r with String b r' => if is_digit b then [(String a (String b ""), r')] else [] | EmptyString => [] end ++ [(String a "", r)]
      else []
  | _ => []
  end.
Definition _FRESH_NEWS (query : string) : bool :=
  word_search (matches_of [["news"]; ["headline"]; ["headlines"]; ["update"]; ["updates"]]) false (str_lower query).
Definition _FRESHNESS (query : string) : bool :=
  word_search (λ s, matches_of [["today"]; ["latest"]; ["current"]; ["breaking"]; ["this"; "week"]; ["this"; "month"]; ["this"; "year"]] s ++ map snd (top_n s))
    false (str_lower query).
Definition _RETRIEVAL_TOOL_NAMES : list string := ["research"; "code_exec"; "memory_search"].

(** [_requires_retrieval_before_final], by the names of the tools. *)
Definition _requires_retrieval_before_final (query : string) (tools : list string) : bool :=
  _FRESH_NEWS query && _FRESHNESS query && existsb (λ n, str_in n _RETRIEVAL_TOOL_NAMES) tools.
(** [_top_n_requested] *)
Fixpoint top_n_search (after_word : bool) (s : string) : option Z :=
  match (if after_word then None else List.find (λ x, word_ends x.2) (top_n s)) with
  | Some (ds, _) => int_from 0 ds
  | None => match s with EmptyString => None | String c r => top_n_search (word_ch c) r end
  end.
Definition _top_n_requested (query : string) : option Z := top_n_search false (str_lower query).

Example asks_for_news : (_requires_retrieval_before_final "The latest headlines, please" ["research"], _requires_retrieval_before_final "renews today" ["research"],
  _top_n_requested "give me the Top  12 stories", _top_n_requested "top 123") = (true, false, Some 12%Z, None).
Proof. by vm_compute. Qed.
Example plans_are_no_answer : map _looks_like_internal_planning ["  Let me check"; "I'll look it up"; "I will answer"; "First, I'd say"; "Lettuce"; "The user is asking me"]
  = [true; true; false; true; false; true].
Proof. by vm_compute. Qed.
Example envelope_taken_off : unwrap ("<external_content a=1>" +:+ nl +:+ "text" +:+ nl +:+ "</external_content>") = "text".
Proof. by vm_compute. Qed.

(** ** The guard on final answers ([answer_guard.py]) *)

(** [ClaimVocabulary]: the searches its patterns stand for, [None] where the file lists no phrase. *)
Record ClaimVocabulary := {
  cv_claim : option (string → bool); cv_negation : option (string → bool); cv_prior : option (string → bool);
  cv_whole : list string; cv_promise : option (string → bool); cv_conditional : option (string → bool) }.
Definition found (p : option (string → bool)) (s : string) : bool := match p with Some p => p s | None => false end.

(** [strip(" .!✅")]: any of the bytes of its characters. *)
Definition in_set (set : string) (c : ascii) : bool := str_any (Ascii.eqb c) set.
Fixpoint lstrip_set (set s : string) : string := match s with EmptyString => "" | String c r => if in_set set c then lstrip_set set r else s end.
Definition strip_set (set s : string) : string := String.rev (lstrip_set set (String.rev (lstrip_set set s))).
(** [_bare] *)
Definition _bare (text : string) : string := strip_set " .!✅" (join " " (str_split (str_lower text))).

(** [_SENTENCE_RE.findall] *)
Definition sentence_end (c : ascii) : bool := char_is 46 c || char_is 33 c || char_is 63 c.
Fixpoint sentences_from (acc s : string) : list string :=
  match s with
  | EmptyString => if str_truthy acc then [acc] else []
  | String c r =>
      if sentence_end c then if str_truthy acc then (acc +:+ String c "") :: sentences_from "" r else sentences_from "" r
      else if char_is 10 c then if str_truthy acc then acc :: sentences_from "" r else sentences_from "" r
      else sentences_from (acc +:+ String c "") r
  end.
Definition sentences : string → list string := sentences_from "".
Definition rstrip (s : string) : string := String.rev (lstrip (String.rev s)).
Definition asks (s : string) : bool := endswith "?" (rstrip s).

Definition sentence_claims (v : ClaimVocabulary) (asking : bool) (s : string) : bool :=
  negb (asks s) && negb (found (cv_conditional v) s) && (found (cv_claim v) s || (negb asking && found (cv_promise v) s)) && negb (found (cv_negation v) s).
(** [claims_a_write] *)
Definition claims_a_write (v : ClaimVocabulary) (whole_answers : bool) (text : string) : bool :=
  (whole_answers && str_in (_bare text) (cv_whole v)) || existsb (sentence_claims v (asks text)) (sentences text).
(** [places_it_earlier] *)
Definition places_it_earlier (v : ClaimVocabulary) (text : string) : bool := found (cv_prior v) text.

(** [_REACT_LABEL_RE.match] *)
Definition react_label (s : string) : bool :=
  let s := lstrip (str_lower s) in
  existsb (λ ws, match eat_words ws s with Some r => startswith ":" (lstrip r) | None => false end) [["thought"]; ["action"]; ["observation"]]
  || match cut "action input" s with Some r => startswith ":" (lstrip r) | None => false end.
(** [echoes_scaffold] *)
Definition echoes_scaffold (markers : list string) (text : string) : bool :=
  let stripped := str_strip text in react_label stripped || existsb (λ m, str_truthy m && str_contains m stripped) markers.

(** [Verdict] *)
Inductive Verdict := v_ok | v_retry (note why : string) | v_replace (text why : string) | v_fail (why : string).

(** [check_final_answer] *)
Definition check_final_answer (v : ClaimVocabulary) (answer : string) (effects_executed : list string) (retries_used : nat) (markers : list string)
    (fallback : string) (any_tool_ran : bool) (request : string) : Verdict :=
  if echoes_scaffold markers answer then
    if Nat.ltb retries_used 1 then v_retry SCAFFOLD_ECHO_NOTE "scaffold_echo" else v_replace fallback "scaffold_echo"
  else if match effects_executed with [] => negb (claims_a_write v (negb any_tool_ran) answer) | _ => true end then v_ok
  else if Nat.ltb retries_used 1 then
    v_retry (UNBACKED_CLAIM_NOTE +:+
      (if str_truthy (str_strip request)
       then " This request: " +:+ dquote +:+ str_take 300 (join " " (str_split request)) +:+ dquote +:+ "." else "")) "unbacked_write_claim"
  else if places_it_earlier v answer then v_ok
  else v_replace UNBACKED_CLAIM_ANSWER "unbacked_write_claim".

(** ** The budget of the transcript ([context_budget.py], [llm/budget.py]) *)

Definition estimate_tokens (text : string) : Z := if str_truthy text then Z.max 1 (Z.of_nat (String.length text) / 4) else 0%Z.
Definition tokens (l : list string) : Z := foldr (λ h n, estimate_tokens h + n)%Z 0%Z l.

(** The [while] of [trim_history]: the oldest blocks go first. *)
Fixpoint evict_front (budget used evicted : Z) (l : list string) : list string * Z :=
  match l with
  | [] => ([], evicted)
  | h :: l' =>
      if (budget <? used)%Z && Nat.ltb 1 (length l) then evict_front budget (used - estimate_tokens h) (evicted + estimate_tokens h) l'
      else (l, evicted)
  end.
(** [trim_history] *)
Definition trim_history (history : list string) (budget : Z) : list string * Z :=
  if (budget <=? 0)%Z || Nat.leb (length history) 1 then (history, 0%Z)
  else if (tokens history <=? budget)%Z then (history, 0%Z)
  else evict_front budget (tokens history) 0 history.

(** The [while] of [admit_memory_parts]: the last blocks go first. *)
Fixpoint evict_back (floor : nat) (budget used evicted : Z) (rev_parts : list string) : list string * Z :=
  match rev_parts with
  | h :: l => if (budget <? used)%Z && Nat.ltb floor (length rev_parts) then evict_back floor budget (used - estimate_tokens h) (evicted + estimate_tokens h) l
              else (reverse rev_parts, evicted)
  | [] => ([], evicted)
  end.
(** [admit_memory_parts] *)
Definition admit_memory_parts (parts : list string) (budget : Z) (pin_first : bool) : list string * Z :=
  if (budget <=? 0)%Z then (parts, 0%Z)
  else if (tokens parts <=? budget)%Z then (parts, 0%Z)
  else evict_back (if pin_first then 1 else 0) budget (tokens parts) 0 (reverse parts).

(** The [for] of [fill_recent_turns], from the newest line. *)
Fixpoint fill_turns (budget : Z) (min_turns : nat) (used : Z) (kept : list string) (rev_turns : list string) : list string :=
  match rev_turns with
  | [] => kept
  | line :: l =>
      let tok := estimate_tokens line in
      if match kept with [] => false | _ => true end && (budget <? used + tok)%Z && Nat.leb min_turns (length kept) then kept
      else fill_turns budget min_turns (used + tok) (line :: kept) l
  end.
(** [fill_recent_turns] *)
Definition last_of {A} (n : nat) (l : list A) : list A := if Nat.eqb n 0 then l else drop (length l - n) l.
Definition fill_recent_turns (turns : list string) (budget : Z) (min_turns : nat) : list string :=
  match turns with
  | [] => []
  | _ => if (budget <=? 0)%Z then last_of min_turns turns else fill_turns budget min_turns 0 [] (reverse turns)
  end.

(** What is kept is the newest blocks, at least one, within the budget unless one alone is over it. *)
Lemma evict_front_spec budget used evicted l : l ≠ [] → used = tokens l → ∃ k, let r := evict_front budget used evicted l in
  r.1 = drop k l ∧ r.1 ≠ [] ∧ (r.2 = evicted + (tokens l - tokens r.1))%Z ∧ ((tokens r.1 ≤ budget)%Z ∨ length r.1 = 1).
Proof.
  revert used evicted. induction l as [|h l IH]; intros used evicted Hne Hu; [done|]. cbn [evict_front]. destruct l as [|h' l].
  - rewrite andb_false_r. exists 0. cbn. split_and!; [done|done|lia|by right].
  - cbn [length Nat.ltb Nat.leb]. rewrite andb_true_r. destruct (Z.ltb_spec budget used) as [Hlt|Hge].
    + destruct (IH (used - estimate_tokens h)%Z (evicted + estimate_tokens h)%Z) as (k & H1 & H2 & H3 & H4); [done|subst; cbn; lia|].
      exists (S k). split; [exact H1|]. split; [exact H2|]. split; [|exact H4]. rewrite H3. cbn. lia.
    + exists 0. cbn [fst snd drop]. split; [done|]. split; [done|]. split; [lia|]. left. lia.
Qed.

(** The transcript a prompt is built from: its newest blocks, the last one always, within the budget
    unless the last alone is over it; what was evicted is counted. *)
Theorem trim_history_newest history budget : (0 < budget)%Z → ∃ k, let r := trim_history history budget in
  r.1 = drop k history ∧ (history ≠ [] → r.1 ≠ []) ∧ (r.2 = tokens history - tokens r.1)%Z ∧ ((tokens r.1 ≤ budget)%Z ∨ length r.1 = 1).
Proof.
  intros Hb. unfold trim_history. rewrite (proj2 (Z.leb_gt _ _) Hb). cbn [orb].
  destruct history as [|h [|h' l]]; [exists 0; cbn; split_and!; [done|done|done|left; lia]|exists 0; cbn; split_and!; [done|done|lia|by right]|].
  cbn [length Nat.leb]. destruct (Z.leb_spec (tokens (h :: h' :: l)) budget); [exists 0; cbn [fst snd]; split_and!; [done|done|lia|by left]|].
  destruct (evict_front_spec budget (tokens (h :: h' :: l)) 0 (h :: h' :: l)) as (k & H1 & H2 & H3 & H4); [done|done|]. exists k. split_and!; [done|done|lia|done].
Qed.
