(* ===== verification/AgentLoop.v ===== *)
(** * The agent loop ([AgenticCore] of [agent/agentic_core.py])

    A run of the think-act-observe loop: its guards, the calls it makes through the governed runner,
    how it pauses for the owner and how a paused run goes on. *)

From S2P Require Import Prelude PyVal PyText CallContext Hooks Kernel Egress Approvals ApprovalService ApprovalHook Bots SideEffects.
From S2P Require Import ToolGates ToolCall Transport PluginEgress GovernedHttp TurnLabel ToolRunner ReactText.
From stdpp Require Import options.

(** ** Tools and configuration *)

(** What the loop reads of a tool beside what the runner reads. *)
Record LoopTool := { lt_spec : ToolSpec; lt_answers_directly : bool }.
Definition lt_name (t : LoopTool) : string := ts_name (lt_spec t).
Definition lt_effect (t : LoopTool) : string := ts_effect (lt_spec t).

(** [AgenticCoreConfig]; instants are microseconds. *)
Record AgenticCoreConfig := {
  ac_max_iterations : nat; ac_timeout : Z; ac_stall_limit : nat; ac_history_budget : option Z; ac_allow_ask_user : bool; ac_read_first : bool }.

(** What the object keeps from call to call. *)
Record Core := {
  co_tools : list LoopTool; co_index : list (string * LoopTool); co_reserve : list (string * LoopTool);
  co_classification : option DataClassification; co_earned_floor : option DataClassification; co_pending_title : option string;
  co_current_query : option string }.

Definition indexed (l : list LoopTool) : list (string * LoopTool) := fold_left (λ d t, kv_set (lt_name t) t d) l [].
(** [AgenticCore.__init__] *)
Definition new_core (tools reserve : list LoopTool) (classification : option DataClassification) : Core :=
  {| co_tools := tools; co_index := indexed tools; co_reserve := indexed reserve; co_classification := classification;
     co_earned_floor := None; co_pending_title := None; co_current_query := None |}.
(** [register_tool] *)
Definition register_tool (t : LoopTool) (co : Core) : Core :=
  {| co_tools := co_tools co ++ [t]; co_index := kv_set (lt_name t) t (co_index co); co_reserve := co_reserve co;
     co_classification := co_classification co; co_earned_floor := co_earned_floor co; co_pending_title := co_pending_title co;
     co_current_query := co_current_query co |}.
(** The admission of a reserve tool. *)
Definition admit_reserve (name : string) (t : LoopTool) (co : Core) : Core :=
  {| co_tools := co_tools co ++ [t]; co_index := kv_set name t (co_index co); co_reserve := od_del name (co_reserve co);
     co_classification := co_classification co; co_earned_floor := co_earned_floor co; co_pending_title := co_pending_title co;
     co_current_query := co_current_query co |}.
Definition set_pending_title (s : string) (co : Core) : Core :=
  {| co_tools := co_tools co; co_index := co_index co; co_reserve := co_reserve co; co_classification := co_classification co;
     co_earned_floor := co_earned_floor co; co_pending_title := Some s; co_current_query := co_current_query co |}.
Definition set_labels (label floor : option DataClassification) (co : Core) : Core :=
  {| co_tools := co_tools co; co_index := co_index co; co_reserve := co_reserve co; co_classification := label;
     co_earned_floor := floor; co_pending_title := co_pending_title co; co_current_query := co_current_query co |}.
Definition set_query (q : string) (co : Core) : Core :=
  {| co_tools := co_tools co; co_index := co_index co; co_reserve := co_reserve co; co_classification := co_classification co;
     co_earned_floor := co_earned_floor co; co_pending_title := co_pending_title co; co_current_query := Some q |}.

(** [self._tool_index.get(a) or self._reserve_index.get(a)] *)
Definition known_tool (co : Core) (name : string) : option LoopTool :=
  match od_get name (co_index co) with Some t => Some t | None => od_get name (co_reserve co) end.

(** ** Questions to the owner *)

Definition ASK_USER_ACTION : string := "ask_user".
Definition _MAX_TURN_BACKS : nat := 2.
Definition _APPROVAL_WAITING : string := "Waiting for the owner's approval".
Definition _APPROVAL_APPROVED : string := "The owner approved.".
Definition _APPROVAL_REJECTED : string := "The owner rejected this:".
Definition _APPROVAL_SETTLED : string := "The approval is ".
Definition _APPROVAL_UNREADABLE : string := "Approval could not be read".
Definition _CARD_SHOWN_PREFIXES : list string := [_APPROVAL_WAITING; _APPROVAL_APPROVED; _APPROVAL_REJECTED; _APPROVAL_SETTLED; _APPROVAL_UNREADABLE].
Definition _NOT_RUN : list string :=
  ["Refused:"; "Request blocked by governance:"; "Request needs approval by governance:"; "Error: unknown tool"; "Waiting for the owner's approval"].
Definition _FOUND_ITEMS_MAX_LINES : nat := 15.
Definition _FOUND_ITEMS_MAX_CHARS : nat := 1500.
Definition _ASK_ENDED : string := _ASK_TURNED_BACK +:+ " The turn ended without an approval card.".

Definition acts (name : string) (s : ReactStep) : bool := bool_decide (rs_action s = Some name).
Definition turned_back (s : ReactStep) : bool := startswith _ASK_TURNED_BACK (text_or (rs_observation s)).
Definition acts_in (names : list string) (s : ReactStep) : bool := match rs_action s with Some a => str_in a names | None => false end.

(** [_run_asked_user] *)
Fixpoint asked_from (tool_name : string) (proposed : bool) (steps : list ReactStep) : bool :=
  match steps with
  | [] => false
  | s :: steps =>
      if acts tool_name s then asked_from tool_name true steps
      else if proposed && acts ASK_USER_ACTION s && negb (turned_back s) then true
      else asked_from tool_name proposed steps
  end.
Definition _run_asked_user (steps : list ReactStep) (tool_name : string) : bool := asked_from tool_name false steps.

(** [_needs_card] *)
Definition _needs_card (t : LoopTool) : bool := String.eqb (lt_effect t) "destructive".
(** [_card_shown] *)
Definition _card_shown (steps : list ReactStep) (destructive : list string) : bool :=
  existsb (λ s, acts_in destructive s && starts_with_one _CARD_SHOWN_PREFIXES (text_or (rs_observation s))) steps.

(** [str.splitlines] *)
Definition line_break (c : ascii) : bool := let n := N_of_ascii c in ((10 <=? n) && (n <=? 13) || (28 <=? n) && (n <=? 30))%N.
Fixpoint lines_from (acc : string) (open : bool) (s : string) : list string :=
  match s with
  | EmptyString => if open then [acc] else []
  | String c r =>
      if line_break c then
        match r with
        | String d r' => if char_is 13 c && char_is 10 d then acc :: lines_from "" false r' else acc :: lines_from "" false r
        | EmptyString => acc :: lines_from "" false r
        end
      else lines_from (acc +:+ String c "") true r
  end.
Definition splitlines : string → list string := lines_from "" false.

(** The lines kept under a question. *)
Fixpoint keep_lines (used : nat) (kept lines : list string) : list string :=
  match lines with
  | [] => kept
  | line :: lines =>
      if Nat.ltb _FOUND_ITEMS_MAX_CHARS (used + String.length line)
      then match kept with [] => [rstrip (str_take _FOUND_ITEMS_MAX_CHARS line) +:+ "..."] | _ => kept end
      else keep_lines (used + String.length line + 1) (kept ++ [line]) lines
  end.
Definition trimmed_items (text : string) : string :=
  let lines := map rstrip (select_where (λ l, str_truthy (str_strip l)) (splitlines text)) in
  let kept := keep_lines 0 [] (take _FOUND_ITEMS_MAX_LINES lines) in
  let left := length lines - length kept in
  join nl (if Nat.ltb 0 left then kept ++ ["(+" +:+ pretty left +:+ " more line" +:+ (if Nat.eqb left 1 then "" else "s") +:+ " not shown)"] else kept).

Definition read_names (tools : list LoopTool) : list string :=
  map lt_name (select_where (λ t, String.eqb (lt_effect t) "read" && negb (String.eqb (lt_name t) ASK_USER_ACTION)) tools).
(** [_found_items] *)
Definition _found_items (steps : list ReactStep) (tools : list LoopTool) : string :=
  match List.find (acts_in (read_names tools)) (reverse steps) with
  | None => ""
  | Some s => let text := _usable_observation (rs_observation s) in if str_truthy text then trimmed_items text else ""
  end.
(** [_with_found_items] *)
Definition _with_found_items (question : string) (steps : list ReactStep) (tools : list LoopTool) : string :=
  let found := _found_items steps tools in
  if negb (str_truthy found) then question
  else
    let first := str_strip (match splitlines found with l :: _ => l | [] => "" end) in
    if str_truthy first && str_contains first question then question else question +:+ nl +:+ nl +:+ found.

(** [_no_card_answer] *)
Definition _no_card_answer (steps : list ReactStep) (tools : list LoopTool) (destructive : list string) : string :=
  let tried := select_where (λ n, existsb (acts n) steps) destructive in
  let answer := "I couldn't prepare the " +:+ join " / " (match tried with [] => destructive | _ => tried end) +:+ " request, so nothing was changed." in
  let found := _found_items steps tools in
  if str_truthy found then answer +:+ nl +:+ nl +:+ "What I found:" +:+ nl +:+ found else answer.

(** [AskGuard] *)
Inductive AskGuard := ask_turn_back (text : string) | ask_end (text : string).

Definition guard_text (names : string) : string :=
  _ASK_TURNED_BACK +:+ " Do not ask the owner to confirm or to pick items. " +:+ names +:+ " shows the owner an approval card listing every item before anything happens; they approve or reject the items there, so the card is both their confirmation and their selection. Call " +:+ names +:+ " now, in one call, with the ids of the items from your results that match the request. If you have no results yet, read first, then call it.".
(** Whether a card tool was tried and no card shown, with no write held for a question. *)
Definition card_owed (earlier : list ReactStep) (tools : list LoopTool) : bool :=
  let destructive := map lt_name (select_where _needs_card tools) in
  let held := map lt_name (select_where (λ t, String.eqb (lt_effect t) "write" && String.eqb (ts_confirm (lt_spec t)) "once") tools) in
  existsb (acts_in destructive) earlier && negb (_card_shown earlier destructive) && negb (existsb (acts_in held) earlier).
Definition asks_back (s : ReactStep) : bool := match rs_action s with None => turned_back s | Some a => String.eqb a ASK_USER_ACTION && turned_back s end.

(** [_guard_ask]; the last of [steps] is the question itself. *)
Definition _guard_ask (steps : list ReactStep) (tools : list LoopTool) : option AskGuard :=
  let destructive := map lt_name (select_where _needs_card tools) in
  let earlier := removelast steps in
  if negb (card_owed earlier tools) then None
  else if Nat.leb _MAX_TURN_BACKS (count_where asks_back earlier) then Some (ask_end (_no_card_answer earlier tools destructive))
  else Some (ask_turn_back (guard_text (join " / " destructive))).

(** [_answer_as_question]: the text of a final answer that ends on a question, or [""]. *)
Definition _answer_as_question (step : ReactStep) (raw : string) : string :=
  let text :=
    if rs_is_terminal step && has_text (rs_final_answer step) then str_strip (text_or (rs_final_answer step))
    else if negb (has_text (rs_action step)) && negb (str_truthy (rs_thought step)) then
      let t := str_strip raw in if _looks_like_internal_planning t then "" else t
    else "" in
  if endswith "?" text then text else "".

(** [_hold_back_answer]: the step afterwards, and its entry in the transcript. *)
Definition held_back (observation : string) (s : ReactStep) : ReactStep :=
  {| rs_thought := rs_thought s; rs_action := rs_action s; rs_action_input := rs_action_input s; rs_observation := Some observation;
     rs_final_answer := None; rs_is_terminal := false; rs_failed := rs_failed s |}.
Definition held_entry (s : ReactStep) (said observation : string) : string :=
  (if str_truthy (rs_thought s) then "Thought: " +:+ rs_thought s +:+ nl else "") +:+ "Final Answer: " +:+ said +:+ nl +:+ "Observation: " +:+ observation.
(** The entry of a step that acted. *)
Definition step_entry (s : ReactStep) (observation : string) : string :=
  "Thought: " +:+ rs_thought s +:+ nl +:+ "Action: " +:+ text_or (rs_action s) +:+ nl +:+ "Action Input: " +:+ dumps_unsorted (VDict (rs_action_input s))
  +:+ nl +:+ "Observation: " +:+ observation.

(** ** Final answers *)

Definition _SCAFFOLD_MARKERS : list string := ["Your steps so far on this request"; "Continue from the last Observation"].
Definition _MALFORMED_STEP_FALLBACK : string := "Sorry — I couldn't put that together cleanly. Could you rephrase or ask again?".
Definition UNGROUNDED_ANSWER : string := "I couldn't look that up just now, so I won't guess. Please ask me again in a moment.".

(** The steps whose call ran, as [_vet_final_answer] reads them. *)
Definition ran_step (s : ReactStep) : bool :=
  has_text (rs_action s) && match rs_observation s with Some o => negb (starts_with_one _NOT_RUN o) | None => false end.
Definition tools_ran (co : Core) (steps : list ReactStep) : list (option LoopTool) := map (λ s, known_tool co (text_or (rs_action s))) (select_where ran_step steps).
Definition effects_of (ran : list (option LoopTool)) : list string := map lt_effect (select_where (λ t, negb (String.eqb (lt_effect t) "read")) (omap id ran)).
Definition is_read (t : LoopTool) : bool := String.eqb (lt_effect t) "read" && negb (String.eqb (lt_name t) ASK_USER_ACTION).
(** A read tool returned on this run. *)
Definition has_read (co : Core) (steps : list ReactStep) : bool := existsb (λ t, match t with Some t => is_read t | None => false end) (tools_ran co steps).

(** [_read_first_verdict] *)
Definition _read_first_verdict (co : Core) (retries_used : nat) : Verdict :=
  if Nat.leb 1 retries_used then v_fail "answered_without_reading"
  else
    let reads := join ", " (take 8 (read_names (co_tools co))) in
    v_retry ("This question is about the user's own data, and you have not looked anything up. Do not answer from memory or invent details. Call one of these tools first: "
             +:+ (if str_truthy reads then reads else "a read tool") +:+ ".") "answered_without_reading".

(** [_vet_final_answer] *)
Definition _vet_final_answer (cfg : AgenticCoreConfig) (vocab : ClaimVocabulary) (co : Core) (answer : string) (steps : list ReactStep) (effects : list string)
    (retries_used : nat) : Verdict :=
  let ran := tools_ran co steps in
  if ac_read_first cfg && negb (has_read co steps) then _read_first_verdict co retries_used
  else
    let good := _last_good_observation steps in
    check_final_answer vocab answer (effects ++ effects_of ran) retries_used _SCAFFOLD_MARKERS
      (if str_truthy good then good else _MALFORMED_STEP_FALLBACK) (match ran with [] => false | _ => true end) (text_or (co_current_query co)).

(** ** The record of a run *)

(** How a run ends: what [_loop] sets before it leaves the [for]. *)
Record RunEnd := {
  re_answer : string; re_success : bool; re_halted_by : option string; re_halt_reason : option string; re_ungrounded : bool;
  re_checkpoint_id : option string; re_pending_approval_id : option string }.
Definition ended (answer : string) (success : bool) : RunEnd :=
  {| re_answer := answer; re_success := success; re_halted_by := None; re_halt_reason := None; re_ungrounded := false;
     re_checkpoint_id := None; re_pending_approval_id := None |}.
Definition ungrounded_end : RunEnd :=
  {| re_answer := UNGROUNDED_ANSWER; re_success := false; re_halted_by := None; re_halt_reason := None; re_ungrounded := true;
     re_checkpoint_id := None; re_pending_approval_id := None |}.

(** [ReactTrace] *)
Record ReactTrace := {
  rt_query : string; rt_run_id : string; rt_steps : list ReactStep; rt_iterations : nat; rt_stall_count : nat; rt_effects : list string;
  rt_read_external : bool; rt_end : RunEnd }.

(** The variables of [_loop], and the parts of the trace it grows. *)
Record LoopState := {
  ls_core : Core; ls_steps : list ReactStep; ls_iterations : nat; ls_effects : list string; ls_history : list string;
  ls_label : option DataClassification; ls_last : string; ls_stall : nat; ls_executed : list string; ls_retrieval_used : bool;
  ls_retrieval_retries : nat; ls_malformed : nat; ls_retries : nat }.

Definition map_core (f : Core → Core) (s : LoopState) : LoopState :=
  {| ls_core := f (ls_core s); ls_steps := ls_steps s; ls_iterations := ls_iterations s; ls_effects := ls_effects s; ls_history := ls_history s;
     ls_label := ls_label s; ls_last := ls_last s; ls_stall := ls_stall s; ls_executed := ls_executed s; ls_retrieval_used := ls_retrieval_used s;
     ls_retrieval_retries := ls_retrieval_retries s; ls_malformed := ls_malformed s; ls_retries := ls_retries s |}.
Definition map_steps (f : list ReactStep → list ReactStep) (s : LoopState) : LoopState :=
  {| ls_core := ls_core s; ls_steps := f (ls_steps s); ls_iterations := ls_iterations s; ls_effects := ls_effects s; ls_history := ls_history s;
     ls_label := ls_label s; ls_last := ls_last s; ls_stall := ls_stall s; ls_executed := ls_executed s; ls_retrieval_used := ls_retrieval_used s;
     ls_retrieval_retries := ls_retrieval_retries s; ls_malformed := ls_malformed s; ls_retries := ls_retries s |}.
Definition map_history (f : list string → list string) (s : LoopState) : LoopState :=
  {| ls_core := ls_core s; ls_steps := ls_steps s; ls_iterations := ls_iterations s; ls_effects := ls_effects s; ls_history := f (ls_history s);
     ls_label := ls_label s; ls_last := ls_last s; ls_stall := ls_stall s; ls_executed := ls_executed s; ls_retrieval_used := ls_retrieval_used s;
     ls_retrieval_retries := ls_retrieval_retries s; ls_malformed := ls_malformed s; ls_retries := ls_retries s |}.
Definition set_iterations (n : nat) (s : LoopState) : LoopState :=
  {| ls_core := ls_core s; ls_steps := ls_steps s; ls_iterations := n; ls_effects := ls_effects s; ls_history := ls_history s;
     ls_label := ls_label s; ls_last := ls_last s; ls_stall := ls_stall s; ls_executed := ls_executed s; ls_retrieval_used := ls_retrieval_used s;
     ls_retrieval_retries := ls_retrieval_retries s; ls_malformed := ls_malformed s; ls_retries := ls_retries s |}.
Definition set_label (l : option DataClassification) (s : LoopState) : LoopState :=
  {| ls_core := ls_core s; ls_steps := ls_steps s; ls_iterations := ls_iterations s; ls_effects := ls_effects s; ls_history := ls_history s;
     ls_label := l; ls_last := ls_last s; ls_stall := ls_stall s; ls_executed := ls_executed s; ls_retrieval_used := ls_retrieval_used s;
     ls_retrieval_retries := ls_retrieval_retries s; ls_malformed := ls_malformed s; ls_retries := ls_retries s |}.
Definition add_effects (l : list string) (s : LoopState) : LoopState :=
  {| ls_core := ls_core s; ls_steps := ls_steps s; ls_iterations := ls_iterations s; ls_effects := ls_effects s ++ l; ls_history := ls_history s;
     ls_label := ls_label s; ls_last := ls_last s; ls_stall := ls_stall s; ls_executed := ls_executed s; ls_retrieval_used := ls_retrieval_used s;
     ls_retrieval_retries := ls_retrieval_retries s; ls_malformed := ls_malformed s; ls_retries := ls_retries s |}.
(** The signature of a new call. *)
Definition note_signature (signature : string) (s : LoopState) : LoopState :=
  let again := String.eqb signature (ls_last s) in
  {| ls_core := ls_core s; ls_steps := ls_steps s; ls_iterations := ls_iterations s; ls_effects := ls_effects s; ls_history := ls_history s;
     ls_label := ls_label s; ls_last := if again then ls_last s else signature; ls_stall := if again then S (ls_stall s) else 0;
     ls_executed := signature :: ls_executed s; ls_retrieval_used := ls_retrieval_used s; ls_retrieval_retries := ls_retrieval_retries s;
     ls_malformed := ls_malformed s; ls_retries := ls_retries s |}.
Definition bump_stall (s : LoopState) : LoopState :=
  {| ls_core := ls_core s; ls_steps := ls_steps s; ls_iterations := ls_iterations s; ls_effects := ls_effects s; ls_history := ls_history s;
     ls_label := ls_label s; ls_last := ls_last s; ls_stall := S (ls_stall s); ls_executed := ls_executed s; ls_retrieval_used := ls_retrieval_used s;
     ls_retrieval_retries := ls_retrieval_retries s; ls_malformed := ls_malformed s; ls_retries := ls_retries s |}.
Definition note_retrieval (used : bool) (s : LoopState) : LoopState :=
  {| ls_core := ls_core s; ls_steps := ls_steps s; ls_iterations := ls_iterations s; ls_effects := ls_effects s; ls_history := ls_history s;
     ls_label := ls_label s; ls_last := ls_last s; ls_stall := ls_stall s; ls_executed := ls_executed s; ls_retrieval_used := ls_retrieval_used s || used;
     ls_retrieval_retries := ls_retrieval_retries s; ls_malformed := ls_malformed s; ls_retries := ls_retries s |}.
(** The counters of turned-back answers: fresh news, malformed replies, the guard's. *)
Definition bump (retrieval malformed answers : nat) (s : LoopState) : LoopState :=
  {| ls_core := ls_core s; ls_steps := ls_steps s; ls_iterations := ls_iterations s; ls_effects := ls_effects s; ls_history := ls_history s;
     ls_label := ls_label s; ls_last := ls_last s; ls_stall := ls_stall s; ls_executed := ls_executed s; ls_retrieval_used := ls_retrieval_used s;
     ls_retrieval_retries := ls_retrieval_retries s + retrieval; ls_malformed := ls_malformed s + malformed; ls_retries := ls_retries s + answers |}.

Definition add_step (x : ReactStep) : LoopState → LoopState := map_steps (λ l, l ++ [x]).
(** The step at hand is the last of the trace. *)
Definition set_last_step (x : ReactStep) : LoopState → LoopState := map_steps (λ l, removelast l ++ [x]).
Definition tell (entry : string) : LoopState → LoopState := map_history (λ l, l ++ [entry]).

Inductive Next := Go (s : LoopState) | Stop (s : LoopState) (e : RunEnd).

(** ** Checkpoints ([memory/state/chat.py]) *)

(** [ChatCheckpointPayload], and what is written with it. *)
Record ChatCheckpointPayload := {
  cp_query : string; cp_steps : list ReactStep; cp_iteration : nat; cp_halt_reason : option string; cp_pending_approval_id : option string }.
Record Checkpoint := { ck_run_id : string; ck_step_id : nat; ck_signal : string; ck_payload : ChatCheckpointPayload }.
(** [CheckpointStep]: whether the call failed is not kept. *)
Definition stored_step (s : ReactStep) : ReactStep :=
  {| rs_thought := rs_thought s; rs_action := rs_action s; rs_action_input := rs_action_input s; rs_observation := rs_observation s;
     rs_final_answer := rs_final_answer s; rs_is_terminal := rs_is_terminal s; rs_failed := false |}.

(** [ResumeSeed] *)
Record ResumeSeed := {
  sd_run_id : string; sd_query : string; sd_steps : list ReactStep; sd_history : list string; sd_start : nat; sd_pending_approval_id : option string }.

(** [_rebuild_history] *)
Definition _rebuild_history (steps : list ReactStep) : list string :=
  map (λ s, step_entry s (text_or (rs_observation s))) (select_where (λ s, has_text (rs_action s)) steps).
Definition resume_observation (asked reply : string) : string :=
  asked +:+ nl +:+ "User answered: " +:+ reply +:+ nl +:+ "If that reply does not answer the question, abandon the previous task and address the reply instead.".
Definition map_last {A} (f : A → A) (l : list A) : list A := match last l with Some x => removelast l ++ [f x] | None => [] end.
(** [resume_seed_from_checkpoint] *)
Definition resume_seed_from_checkpoint (ck : Checkpoint) (user_reply : option string) : ResumeSeed :=
  let p := ck_payload ck in
  let steps := if has_text user_reply
               then map_last (λ s, with_observation (Some (resume_observation
                      (let o := text_or (rs_observation s) in if str_truthy o then o else "Asked the user something.") (str_strip (text_or user_reply)))) s) (cp_steps p)
               else cp_steps p in
  {| sd_run_id := ck_run_id ck; sd_query := cp_query p; sd_steps := steps; sd_history := _rebuild_history steps; sd_start := cp_iteration p;
     sd_pending_approval_id := cp_pending_approval_id p |}.

(** ** What the loop runs against *)

(** The model and its prompt, the kernel around a model call and after a step, the governed runner, the
    clock, the stores, [difflib] and SHA-1.  A missing store is [None]. *)
Record LoopEnv (W : Type) := {
  le_prompt : string → list LoopTool → list string → bool → option Z → bool → string;
  le_pre_llm : option DataClassification → string → string → string → nat → option DataClassification → option (Z * Z) →
               M W (option HookDecision * string * option DataClassification);
  le_llm : string → M W string;
  le_call : LoopTool → pydict → Caller → M W (ToolOutcome * list string);
  le_post_step : option (HookContext → M W HookDecision);
  le_now : M W Z;
  le_write_checkpoint : option (Checkpoint → M W (string * nat));
  le_link : option (string → string → M W unit);
  le_read_approval : option (string → M W (option (string * list (string * pydict))));
  le_approval_call_id : option (string → M W (option string));
  le_report : ReactTrace → M W unit;
  le_mark_resumed : string → M W unit;
  le_close_match : Z → string → list string → option string;
  le_sha1 : string → string;
  le_float_repr : string → string }.
Arguments le_prompt {W}. Arguments le_pre_llm {W}. Arguments le_llm {W}. Arguments le_call {W}. Arguments le_post_step {W}.
Arguments le_now {W}. Arguments le_write_checkpoint {W}. Arguments le_link {W}. Arguments le_read_approval {W}.
Arguments le_approval_call_id {W}. Arguments le_report {W}. Arguments le_mark_resumed {W}. Arguments le_close_match {W}.
Arguments le_sha1 {W}. Arguments le_float_repr {W}.

Record LoopIdentity := { li_agent_type : string; li_origin_channel : string; li_session_id : option string; li_target_tier : option LLMTier }.

(** [_ToolStep], with what the call did to the object and to the lists it was given. *)
Record ToolStep := {
  st_core : Core; st_observation : string; st_label : option DataClassification; st_failed : bool; st_halt : option HookDecision; st_effects : list string }.

Definition loop_caller (run : string) (label : option DataClassification) (step : Z) (asked_user : bool) (approved_by held_call_id query : option string)
    (tainted : bool) : Caller :=
  {| tc_run_id := Some run; tc_classification := label; tc_step_id := Some step; tc_asked_user := asked_user; tc_approved_by := approved_by;
     tc_query := query; tc_caller := None; tc_deferred := false; tc_held_call_id := held_call_id; tc_tainted := tainted |}.

(** [json.dumps(args, sort_keys=True, ensure_ascii=False)] *)
Definition raw_json_char (c : ascii) : string := if (126 <? N_of_ascii c)%N then String c "" else json_char c.
Fixpoint dumps_raw (v : pyval) : string :=
  match v with
  | VStr s | VObj s => dquote +:+ str_concat_map raw_json_char s +:+ dquote
  | VList l => "[" +:+ join ", " (map dumps_raw l) +:+ "]"
  | VDict d =>
      "{" +:+ join ", " (map (λ kv, (dquote +:+ str_concat_map raw_json_char kv.1 +:+ dquote) +:+ ": " +:+ kv.2)
                           (sort_kv (map (λ kv, (kv.1, dumps_raw kv.2)) d))) +:+ "}"
  | _ => json_dumps v
  end.
Definition _render_action_input (args : pydict) : string := str_take 300 (dumps_raw (VDict args)).

(** [_completed_work] *)
Definition shown_observation (s : ReactStep) : string :=
  let o := str_replace nl " " (str_strip (text_or (rs_observation s))) in
  let o := if Nat.ltb 120 (String.length o) then rstrip (str_take 120 o) +:+ "..." else o in
  if str_truthy o then o else "no result".
Definition _completed_work (steps : list ReactStep) : list string :=
  imap (λ n s, pretty (S n) +:+ ". " +:+ text_or (rs_action s) +:+ " - " +:+ shown_observation s) (select_where (λ s, has_text (rs_action s)) steps).

(** [_evaluator_block_message] *)
Definition _evaluator_block_message (d : HookDecision) (steps : list ReactStep) (run : string) : string :=
  join nl (
    ["I stopped partway through — the run was " +:+ (if bool_decide (outcome d = deny) then "halted" else "paused for approval") +:+ " by the evaluator."]
    ++ match _completed_work steps with [] => [] | work => ["" ; "What I did before stopping:"] ++ work end
    ++ [""; "Why I stopped: " +:+ reason d]
    ++ match approval_request_id d with Some id => ["Approval ID: " +:+ id] | None => [] end
    ++ [""; "Nothing further has run — tell me how you'd like to proceed."]
    ++ (if str_truthy run then ["Run ID: " +:+ run +:+ " (`evarness run inspect " +:+ run +:+ "` has the full trace)."] else [])).

(** [_ask_user_question] *)
Definition _ask_user_question (step : ReactStep) (fallback : string) : string :=
  let asked := omap (λ k, match od_get k (rs_action_input step) with Some (VStr s) => nonempty (Some (str_strip s)) | _ => None end) ["question"; "prompt"; "text"; "q"] in
  match asked with
  | q :: _ => q
  | [] =>
      let q := str_strip (if str_truthy (rs_thought step) then rs_thought step else fallback) in
      if str_truthy q then q else "Could you tell me how you'd like to proceed?"
  end.

(** The longest of [names] inside the called name, when one is. *)
Definition contained_names (norm : string) (names : list string) : list string :=
  sort_by (λ n, - Z.of_nat (String.length n))%Z (select_where (λ n, str_contains (str_lower n) norm) names).

Section loop.
Context {W : Type} (env : LoopEnv W) (cfg : AgenticCoreConfig) (vocab : ClaimVocabulary) (me : LoopIdentity).

(** [_resolve_tool_alias] *)
Definition _resolve_tool_alias (name : string) (index : list (string * LoopTool)) : option string :=
  let norm := str_lower (str_strip name) in
  let names := map fst index in
  if negb (str_truthy norm) then None
  else
    match List.find (λ n, String.eqb (str_lower n) norm) names with
    | Some n => Some n
    | None =>
        let close :=
          match le_close_match env 80 norm (map str_lower names) with
          | Some m => List.find (λ n, String.eqb (str_lower n) m) names
          | None => None
          end in
        match contained_names norm names with
        | [n] => Some n
        | n :: n' :: _ => if Nat.ltb (String.length n') (String.length n) then Some n else close
        | [] => close
        end
    end.

(** What the runner's outcome comes to. *)
Definition after_call (co : Core) (t : LoopTool) (label : option DataClassification) (halting : bool) (o : ToolOutcome) (effects : list string) : M W ToolStep :=
  let answer observation label failed := mret {| st_core := co; st_observation := observation; st_label := label; st_failed := failed; st_halt := None; st_effects := effects |} in
  match to_status o with
  | held =>
      match to_decision o with
      | None => raise (Exn "AssertionError" "")
      | Some d =>
          match approval_request_id d with
          | Some id =>
              if halting && bool_decide (outcome d = require_approval) then
                mret {| st_core := set_pending_title (card_title (lt_name t) (VDict <$> to_approval_card o)) co;
                        st_observation := _APPROVAL_WAITING +:+ " (" +:+ id +:+ ")."; st_label := label; st_failed := false; st_halt := Some d; st_effects := effects |}
              else answer (governance_block_message d) label false
          | None => answer (governance_block_message d) label false
          end
      end
  | ran =>
      let withheld := match to_post o with Some p => po_withheld p | None => false end in
      answer (to_text o) (to_classification o) (negb (to_ok o) && negb withheld)
  | refused_ => answer (to_text o) (to_classification o) false
  end.
Definition run_found (co : Core) (t : LoopTool) (args : pydict) (call : Caller) (halting : bool) : M W ToolStep :=
  r ← le_call env t args call;
  after_call co t (tc_classification call) halting r.1 r.2.

(** [_execute_tool] *)
Definition _execute_tool (co : Core) (name : string) (args : pydict) (call : Caller) (halting : bool) : M W ToolStep :=
  match od_get name (co_index co) with
  | Some t => run_found co t args call halting
  | None =>
      match od_get name (co_reserve co) with
      | Some t => run_found (admit_reserve name t co) t args call halting
      | None =>
          match _resolve_tool_alias name (co_index co) with
          | Some alias =>
              match od_get alias (co_index co) with
              | Some t => run_found co t args call halting
              | None => raise (Exn "KeyError" (py_repr alias))
              end
          | None =>
              let hint := match le_close_match env 50 (str_lower name) (map (λ n, str_lower n) (map fst (co_index co))) with
                          | Some h => " Did you mean '" +:+ h +:+ "'?" | None => "" end in
              let available := join ", " (map fst (co_index co)) in
              mret {| st_core := co;
                      st_observation := "Error: unknown tool '" +:+ name +:+ "'." +:+ hint +:+ " Available: " +:+ (if str_truthy available then available else "none");
                      st_label := tc_classification call; st_failed := true; st_halt := None; st_effects := [] |}
          end
      end
  end.

(** [_run_tainted] *)
Definition _run_tainted (co : Core) (steps : list ReactStep) : bool :=
  existsb (λ s, has_text (rs_action s) && match rs_observation s with Some _ => true | None => false end
                && match known_tool co (text_or (rs_action s)) with Some t => String.eqb (ts_content (lt_spec t)) "external" | None => false end) steps.

(** [_answers_directly], [_direct_answer], [_answer_in_hand] *)
Definition _answers_directly (co : Core) (name : option string) : bool :=
  match od_get (text_or name) (co_index co) with Some t => lt_answers_directly t | None => false end.
Definition _direct_answer (co : Core) (step : ReactStep) (earlier : list ReactStep) : string :=
  if negb (_answers_directly co (rs_action step)) then ""
  else if existsb (λ s, has_text (rs_action s) && negb (acts ASK_USER_ACTION s)) earlier then ""
  else _usable_observation (rs_observation step).
Definition _answer_in_hand (co : Core) (name : string) (earlier : list ReactStep) : string :=
  if negb (_answers_directly co (Some name)) then ""
  else default "" (List.find str_truthy (map (λ s, _usable_observation (rs_observation s)) (select_where (acts name) (reverse earlier)))).

(** [_is_ask_user] *)
Definition _is_ask_user (s : ReactStep) : bool := ac_allow_ask_user cfg && acts ASK_USER_ACTION s.

(** [_apply_context_budget] *)
Definition _apply_context_budget (history : list string) : list string * Z :=
  match ac_history_budget cfg with None => (history, 0%Z) | Some b => if (b =? 0)%Z then (history, 0%Z) else trim_history history b end.

(** [_write_checkpoint]: the id of what was written. *)
Definition _write_checkpoint (query run : string) (steps : list ReactStep) (iteration : nat) (signal : string) (halt_reason pending : option string) : M W (option string) :=
  match le_write_checkpoint env with
  | None => mret None
  | Some write =>
      if negb (str_truthy query) then raise (Exn "ValidationError" "query")
      else
        try (cp ← write {| ck_run_id := run; ck_step_id := iteration; ck_signal := signal;
                           ck_payload := {| cp_query := query; cp_steps := map stored_step steps; cp_iteration := S iteration;
                                            cp_halt_reason := halt_reason; cp_pending_approval_id := pending |} |};
             mret (Some (cp.1 +:+ ":" +:+ pretty cp.2)))
        except e => mret None
  end.
(** [_link_approval_checkpoint_for] *)
Definition _link_approval_checkpoint_for (d : HookDecision) (checkpoint : option string) : M W unit :=
  match le_link env, approval_request_id d, checkpoint with
  | Some link, Some id, Some cp => if str_truthy cp then try (link id cp) except e => mret tt else mret tt
  | _, _, _ => mret tt
  end.

(** [_fire_post_step] *)
Definition post_step_context (run : string) (iteration : nat) (step : ReactStep) (label : option DataClassification) (query : string) : HookContext :=
  let acted := has_text (rs_action step) in
  let observed := match rs_observation step with Some o => if str_truthy o then Some (unwrap o) else Some o | None => None end in
  let failure := match observed with Some o => if str_truthy o && (rs_failed step || startswith "Error:" o) then Some o else None | None => None end in
  {| ctx_hook_point := POST_STEP; run_id := run; agent_type := li_agent_type me; step_id := Some (Z.of_nat iteration); persona := None; route := None;
     payload := <["thought" := VStr (rs_thought step)]> (<["tool_name" := opt_val (rs_action step)]>
                (<["tool_args_hash" := if acted then VStr (str_take 16 (le_sha1 env (json_dumps (VDict (rs_action_input step))))) else VNone]>
                (<["tool_args_text" := if acted then VStr (_render_action_input (rs_action_input step)) else VNone]>
                (<["tool_error" := opt_val failure]> (<["original_task" := VStr query]> ∅)))));
     classification := label; tier := li_target_tier me;
     metadata := <["origin_channel" := VStr (li_origin_channel me)]> (<["session_id" := opt_val (li_session_id me)]> ∅) |}.
Definition _fire_post_step (run : string) (iteration : nat) (step : ReactStep) (label : option DataClassification) (query : string) : M W (option HookDecision) :=
  match le_post_step env with
  | None => mret None
  | Some fire => d ← fire (post_step_context run iteration step label query); mret (Some d)
  end.

(** ** The loop *)

(** [decision is not None and decision.outcome in ("deny", "require_approval")] *)
Definition blocking (d : option HookDecision) : option HookDecision := match d with Some d => if refuses d then Some d else None | None => None end.

(** [_pause_for_user] *)
Definition _pause_for_user (query run : string) (step : ReactStep) (iteration : nat) (s : LoopState) : M W Next :=
  let question := _ask_user_question step query in
  let shown := _with_found_items question (removelast (ls_steps s)) (co_tools (ls_core s)) in
  let s := set_last_step (with_observation (Some ("Asked the user: " +:+ question)) step) s in
  cp ← _write_checkpoint query run (ls_steps s) iteration "awaiting_user_input" (Some "awaiting_user_input") None;
  mret (Stop s {| re_answer := shown; re_success := false; re_halted_by := Some "ask_user"; re_halt_reason := Some "awaiting_user_input";
                  re_ungrounded := false; re_checkpoint_id := cp; re_pending_approval_id := None |}).

(** [_pause_for_approval], for an approval of the queue. *)
Definition _pause_for_approval (query run : string) (d : HookDecision) (iteration : nat) (s : LoopState) : M W Next :=
  let id := match approval_request_id d with Some id => id | None => "None" end in
  cp ← _write_checkpoint query run (ls_steps s) iteration "require_approval" (Some (reason d)) (Some id);
  _link_approval_checkpoint_for d cp;;
  let what := match co_pending_title (ls_core s) with Some t => if str_truthy t then t else "That needs your approval" | None => "That needs your approval" end in
  mret (Stop s {| re_answer := what +:+ ": this needs your approval, so nothing has changed yet. [Review it in Activity](/actions), or answer with `evarness approvals` or on Telegram (approval " +:+ id +:+ ").";
                  re_success := true; re_halted_by := Some "approval"; re_halt_reason := Some (reason d); re_ungrounded := false;
                  re_checkpoint_id := cp; re_pending_approval_id := Some id |}).

(** [_force_final_synthesis] *)
Definition _force_final_synthesis (query run : string) (iteration : nat) (s : LoopState) (last_observation : string) : M W string :=
  let nudge := "System: You already ran that tool and its result is in the Observation above. Do NOT call any tool again. Write your Final Answer now, using that result." in
  let prompt := le_prompt env query (co_tools (ls_core s)) (ls_history s ++ [nudge]) false None true in
  g ← le_pre_llm env (co_earned_floor (ls_core s)) query prompt run (S iteration) (ls_label s) None;
  let '(decision, prompt, _) := g in
  match blocking decision with
  | Some d => mret (if str_truthy last_observation then last_observation else governance_block_message d)
  | None =>
      raw ← try (r ← le_llm env prompt; mret (Some r)) except e => mret None;
      mret (match raw with
            | None => last_observation
            | Some raw =>
                let step := _parse_react_step (le_float_repr env) raw in
                if has_text (rs_final_answer step) then text_or (rs_final_answer step)
                else if str_truthy last_observation then last_observation
                else str_strip (if str_truthy (rs_thought step) then rs_thought step else raw)
            end)
  end.

(** A final answer of the model: vetted, and turned back, replaced or given. *)
Definition take_answer (step : ReactStep) (answer : string) (s : LoopState) : Next :=
  match _vet_final_answer cfg vocab (ls_core s) answer (ls_steps s) (ls_effects s) (ls_retries s) with
  | v_retry note _ => Go (tell (held_entry step answer note) (set_last_step (held_back note step) (bump 0 0 1 s)))
  | v_fail _ => Stop s ungrounded_end
  | v_replace text _ => Stop s (ended text true)
  | v_ok => Stop s (ended answer true)
  end.

(** A call whose signature was seen before. *)
Definition repeated_call (query run : string) (iteration : nat) (step : ReactStep) (s : LoopState) : M W Next :=
  let s := bump_stall s in
  let in_hand := _answer_in_hand (ls_core s) (text_or (rs_action step)) (removelast (ls_steps s)) in
  if str_truthy in_hand then mret (Stop s (ended in_hand true))
  else
    synthesized ← _force_final_synthesis query run iteration s (_last_good_observation (ls_steps s));
    mret (Stop s
      match _vet_final_answer cfg vocab (ls_core s) synthesized (ls_steps s) (ls_effects s) 1 with
      | v_fail _ => ungrounded_end
      | v_replace text _ => ended text (str_truthy text)
      | _ => ended synthesized (str_truthy synthesized)
      end).

(** The evaluator after a step, and the end on a tool that answers directly. *)
Definition after_step (query run : string) (iteration : nat) (step : ReactStep) (s : LoopState) : M W Next :=
  d ← _fire_post_step run iteration step (ls_label s) query;
  match blocking d with
  | Some d =>
      cp ← _write_checkpoint query run (ls_steps s) iteration (if bool_decide (outcome d = deny) then "halt" else "require_approval") (Some (reason d)) None;
      _link_approval_checkpoint_for d cp;;
      mret (Stop s {| re_answer := _evaluator_block_message d (ls_steps s) run; re_success := false; re_halted_by := Some "evaluator";
                      re_halt_reason := Some (reason d); re_ungrounded := false; re_checkpoint_id := cp; re_pending_approval_id := None |})
  | None =>
      let direct := _direct_answer (ls_core s) step (removelast (ls_steps s)) in
      mret (if str_truthy direct then Stop s (ended direct true) else Go s)
  end.

(** The call of a new signature. *)
Definition new_call (query run : string) (iteration : nat) (step : ReactStep) (action : string) (s : LoopState) : M W Next :=
  let co := ls_core s in
  let call := loop_caller run (ls_label s) (Z.of_nat iteration) (_run_asked_user (ls_steps s) action) None None (co_current_query co) (_run_tainted co (ls_steps s)) in
  x ← _execute_tool co action (rs_action_input step) call true;
  let step := {| rs_thought := rs_thought step; rs_action := rs_action step; rs_action_input := rs_action_input step; rs_observation := Some (st_observation x);
                 rs_final_answer := rs_final_answer step; rs_is_terminal := rs_is_terminal step; rs_failed := st_failed x |} in
  let s := add_effects (st_effects x) (set_label (st_label x) (set_last_step step (map_core (λ _, st_core x) s))) in
  match st_halt x with
  | Some d => _pause_for_approval query run d iteration s
  | None => after_step query run iteration step (tell (step_entry step (st_observation x)) (note_retrieval (str_in action _RETRIEVAL_TOOL_NAMES) s))
  end.

Definition signature_of (step : ReactStep) : string :=
  json_dumps (VDict [("action", opt_val (rs_action step)); ("input", VDict (rs_action_input step))]).

(** A step with an action. *)
Definition act_step (query run : string) (iteration : nat) (step : ReactStep) (action : string) (s : LoopState) : M W Next :=
  match (if _is_ask_user step then _guard_ask (ls_steps s) (co_tools (ls_core s)) else None) with
  | Some (ask_end text) => mret (Stop (set_last_step (with_observation (Some _ASK_ENDED) step) s) (ended text true))
  | Some (ask_turn_back text) => mret (Go (tell (step_entry step text) (set_last_step (with_observation (Some text) step) s)))
  | None =>
      let signature := signature_of step in
      if str_in signature (ls_executed s) then repeated_call query run iteration step s
      else
        let s := note_signature signature s in
        if Nat.leb (ac_stall_limit cfg) (ls_stall s) then
          let recovered := _last_good_observation (ls_steps s) in
          mret (Stop s (if str_truthy recovered then ended recovered true else ended "Stopped: repeated action without progress." false))
        else if _is_ask_user step then _pause_for_user query run step iteration s
        else new_call query run iteration step action s
  end.

(** A step without an action and without a final answer. *)
Definition prose_step (step : ReactStep) (raw : string) (s : LoopState) : Next :=
  let candidate := str_strip raw in
  if str_truthy candidate && negb (str_truthy (rs_thought step)) && negb (_looks_like_internal_planning candidate) then take_answer step candidate s
  else
    let s := bump 0 1 0 s in
    let recovered := _last_good_observation (ls_steps s) in
    if Nat.leb 2 (ls_malformed s) then Stop s (ended (if str_truthy recovered then recovered else _MALFORMED_STEP_FALLBACK) (str_truthy recovered))
    else Go (tell "System: Your last reply was internal reasoning or incomplete. Do NOT describe your plan. Either call exactly one tool, or reply with 'Final Answer: <user-facing answer>'." s).

(** What the reply of the model comes to. *)
Definition take_step (query run : string) (require_retrieval : bool) (iteration : nat) (raw : string) (s : LoopState) : M W Next :=
  let step := _parse_react_step (le_float_repr env) raw in
  let s := set_iterations (S iteration) (add_step step s) in
  let said := _answer_as_question step raw in
  match (if str_truthy said then _guard_ask (ls_steps s) (co_tools (ls_core s)) else None) with
  | Some (ask_end text) => mret (Stop (set_last_step (held_back _ASK_ENDED step) s) (ended text true))
  | Some (ask_turn_back text) => mret (Go (tell (held_entry step said text) (set_last_step (held_back text step) s)))
  | None =>
      if rs_is_terminal step && has_text (rs_final_answer step) then
        if require_retrieval && negb (ls_retrieval_used s) then
          let s := bump 1 0 0 s in
          mret (if Nat.leb 2 (ls_retrieval_retries s) then Stop s (ended "Unable to provide fresh news reliably because no retrieval tool was used." false)
                else Go (tell "System: Fresh-news query detected. Call a retrieval tool (prefer research) before Final Answer."
                           (set_last_step (held_back "Error: Fresh-news query requires a retrieval tool call before final answer." step) s)))
        else mret (take_answer step (text_or (rs_final_answer step)) s)
      else if has_text (rs_action step) then act_step query run iteration step (text_or (rs_action step)) s
      else mret (prose_step step raw s)
  end.

(** One turn of the [for]. *)
Definition loop_turn (query run : string) (started : Z) (require_retrieval : bool) (iteration : nat) (s : LoopState) : M W Next :=
  now ← le_now env;
  if (ac_timeout cfg <? now - started)%Z then mret (Stop s (ended "Request timed out." false))
  else
    let '(history, evicted) := _apply_context_budget (ls_history s) in
    let s := map_history (λ _, history) s in
    let prompt := le_prompt env query (co_tools (ls_core s)) history require_retrieval (if require_retrieval then _top_n_requested query else None) false in
    g ← le_pre_llm env (co_earned_floor (ls_core s)) query prompt run iteration (ls_label s) (Some (estimate_tokens prompt, evicted));
    let '(decision, prompt, label) := g in
    let s := set_label label s in
    match blocking decision with
    | Some d => mret (Stop (set_iterations iteration s) (ended (governance_block_message d) false))
    | None =>
        raw ← try (r ← le_llm env prompt; mret (inl r)) except e => mret (inr e);
        match raw with
        | inr e => mret (Stop s (ended ("LLM error: " +:+ exn_str e) false))
        | inl raw => take_step query run require_retrieval iteration raw s
        end
    end.

(** [for iteration in range(start_iteration, max_iterations)] *)
Fixpoint loop_from (query run : string) (started : Z) (require_retrieval : bool) (turns iteration : nat) (s : LoopState) : M W (LoopState * RunEnd) :=
  match turns with
  | O => mret (s, ended "" false)
  | S turns =>
      next ← loop_turn query run started require_retrieval iteration s;
      match next with
      | Go s => loop_from query run started require_retrieval turns (S iteration) s
      | Stop s e => mret (s, e)
      end
  end.

Definition set_answer (answer : string) (e : RunEnd) : RunEnd :=
  {| re_answer := answer; re_success := re_success e; re_halted_by := re_halted_by e; re_halt_reason := re_halt_reason e;
     re_ungrounded := re_ungrounded e; re_checkpoint_id := re_checkpoint_id e; re_pending_approval_id := re_pending_approval_id e |}.
(** The trace of a loop that ended, and whether its run is reported as complete. *)
Definition trace_of (query run : string) (s : LoopState) (e : RunEnd) : ReactTrace :=
  {| rt_query := query; rt_run_id := run; rt_steps := ls_steps s; rt_iterations := ls_iterations s; rt_stall_count := ls_stall s; rt_effects := ls_effects s;
     rt_read_external := _run_tainted (ls_core s) (ls_steps s);
     rt_end := if str_truthy (re_answer e) then e else set_answer "Max iterations reached without a final answer." e |}.
Definition completed (e : RunEnd) : bool :=
  match re_pending_approval_id e with Some _ => false | None => negb (bool_decide (re_halt_reason e = Some "awaiting_user_input")) end.

(** [_loop] *)
Definition _loop (query run : string) (steps : list ReactStep) (effects history : list string) (start : nat) (co : Core) : M W (ReactTrace * Core) :=
  let co := set_query query co in
  started ← le_now env;
  let s := {| ls_core := co; ls_steps := steps; ls_iterations := start; ls_effects := effects; ls_history := history; ls_label := co_classification co; ls_last := "";
              ls_stall := 0; ls_executed := []; ls_retrieval_used := false; ls_retrieval_retries := 0; ls_malformed := 0; ls_retries := 0 |} in
  r ← loop_from query run started (_requires_retrieval_before_final query (map lt_name (co_tools co))) (ac_max_iterations cfg - start) start s;
  let trace := trace_of query run r.1 r.2 in
  (if completed r.2 then le_report env trace else mret tt);;
  mret (trace, ls_core r.1).

(** [run], with a fresh run id; the model is there. *)
Definition run_loop (query fresh : string) (co : Core) : M W (ReactTrace * Core) := _loop query fresh [] [] [] 0 co.

(** The pinned calls of an approved approval, one after the other: the object, the effects and the results. *)
Fixpoint run_pinned (approval : string) (held : option string) (run : string) (step : Z) (tainted : bool) (items : list (string * pydict)) (co : Core)
    : M W (Core * list string * list string) :=
  match items with
  | [] => mret (co, [], [])
  | (tool, args) :: items =>
      x ← _execute_tool co tool args
            (loop_caller run (co_classification co) step false (Some approval) held (co_current_query co) tainted) false;
      let floor := more_restrictive (co_earned_floor co) (st_label x) in
      let label := match co_classification co with Some _ => st_label x | None => None end in
      more ← run_pinned approval held run step tainted items (set_labels label floor (st_core x));
      let '(co, effects, results) := more in
      mret (co, st_effects x ++ effects, (tool +:+ ": " +:+ st_observation x) :: results)
  end.

Definition listed (items : list (string * pydict)) : string := join "; " (map (λ x, x.1 +:+ " " +:+ json_dumps (VDict x.2)) items).

(** The seed with the settled approval's result in its last step. *)
Definition settled_seed (sd : ResumeSeed) (observation : string) : ResumeSeed :=
  let settled s := with_observation (Some observation) (stored_step s) in
  {| sd_run_id := sd_run_id sd; sd_query := sd_query sd; sd_steps := map_last settled (sd_steps sd);
     sd_history := match last (sd_steps sd) with
                   | Some s => if has_text (rs_action s) then map_last (λ _, step_entry s observation) (sd_history sd) else sd_history sd
                   | None => sd_history sd
                   end;
     sd_start := sd_start sd; sd_pending_approval_id := None |}.

(** What the owner's answer comes to. *)
Definition settle_with (id : string) (sd : ResumeSeed) (co : Core) (verdict : option (string * list (string * pydict))) : M W (ResumeSeed * Core * list string) :=
  match verdict with
  | None => mret (settled_seed sd (_APPROVAL_UNREADABLE +:+ " (" +:+ id +:+ "). Nothing was changed."), co, [])
  | Some (status, items) =>
      if String.eqb status "approved" then
        held ← match le_approval_call_id env with Some f => f id | None => mret None end;
        r ← run_pinned id held (sd_run_id sd) (Z.of_nat (sd_start sd) - 1) (_run_tainted co (sd_steps sd)) items co;
        let '(co, effects, results) := r in
        mret (settled_seed sd (_APPROVAL_APPROVED +:+ " Results:" +:+ nl +:+ join nl results), co, effects)
      else if String.eqb status "rejected" then
        mret (settled_seed sd (_APPROVAL_REJECTED +:+ " " +:+ listed items +:+ ". It was not run: nothing was changed, sent or deleted. Tell them so plainly and do not try it again."), co, [])
      else mret (settled_seed sd (_APPROVAL_SETTLED +:+ status +:+ ", so nothing was changed: " +:+ listed items +:+ "."), co, [])
  end.
Definition waits (sd : ResumeSeed) : bool := has_text (sd_pending_approval_id sd) && match sd_steps sd with [] => false | _ => true end.

(** [_settle_pending_approval] *)
Definition _settle_pending_approval (sd : ResumeSeed) (co : Core) : M W (ResumeSeed * Core * list string) :=
  le_mark_resumed env (sd_run_id sd);;
  if negb (waits sd) then mret (sd, co, [])
  else
    let id := text_or (sd_pending_approval_id sd) in
    verdict ← match le_read_approval env with Some read => read id | None => mret None end;
    settle_with id sd co verdict.

(** [run_from_seed] *)
Definition run_from_seed (sd : ResumeSeed) (co : Core) : M W (ReactTrace * Core) :=
  r ← _settle_pending_approval sd co;
  let '(sd, co, effects) := r in
  _loop (sd_query sd) (sd_run_id sd) (sd_steps sd) effects (sd_history sd) (sd_start sd) co.
(** [resume_from_checkpoint] *)
Definition resume_from_checkpoint (ck : Checkpoint) (user_reply : option string) (co : Core) : M W (ReactTrace * Core) :=
  run_from_seed (resume_seed_from_checkpoint ck user_reply) co.
End loop.

(** ** What a run leaves behind *)

(** The calls of a model, the calls of tools and the checkpoints, in the order they were made. *)
Inductive LoopEvent := ev_model | ev_tool (name : string) (args : pydict) (call : Caller) | ev_saved (ck : Checkpoint).
Definition models (es : list LoopEvent) : nat := count_where (λ e, match e with ev_model => true | _ => false end) es.
Definition tool_calls (es : list LoopEvent) : list (string * pydict * Caller) := omap (λ e, match e with ev_tool n a c => Some (n, a, c) | _ => None end) es.
Definition saved (es : list LoopEvent) : list Checkpoint := omap (λ e, match e with ev_saved ck => Some ck | _ => None end) es.

(** What the loop needs of its surroundings: the log of a world grows by each of them, and by nothing else. *)
Class LoopWorld {W : Type} (env : LoopEnv W) (log : W → list LoopEvent) : Prop := {
  lw_llm p w : log (run_state (le_llm env p) w) = log w ++ [ev_model];
  lw_call t args call w : log (run_state (le_call env t args call) w) = log w ++ [ev_tool (lt_name t) args call];
  lw_write write ck w : le_write_checkpoint env = Some write → log (run_state (write ck) w) = log w ++ [ev_saved ck];
  lw_pre_llm fl q p r st l n w : log (run_state (le_pre_llm env fl q p r st l n) w) = log w;
  lw_post_step fire ctx w : le_post_step env = Some fire → log (run_state (fire ctx) w) = log w;
  lw_now w : log (run_state (le_now env) w) = log w;
  lw_link link a c w : le_link env = Some link → log (run_state (link a c) w) = log w;
  lw_read read a w : le_read_approval env = Some read → log (run_state (read a) w) = log w;
  lw_call_id f a w : le_approval_call_id env = Some f → log (run_state (f a) w) = log w;
  lw_report t w : log (run_state (le_report env t) w) = log w;
  lw_mark r w : log (run_state (le_mark_resumed env r) w) = log w }.

(** What a computation leaves in the log, with how it ended. *)
Definition leaves {W A} (log : W → list LoopEvent) (m : M W A) (Q : res A → list LoopEvent → Prop) : Prop :=
  ∀ w, ∃ es, log (run_state m w) = log w ++ es ∧ Q (run_res m w) es.

Section leaving.
Context {W : Type} (log : W → list LoopEvent).

Lemma leaves_weaken {A} (m : M W A) Q R : leaves log m Q → (∀ r es, Q r es → R r es) → leaves log m R.
Proof using Type. intros H HR w. destruct (H w) as (es & E & HQ). exists es. auto. Qed.

Lemma leaves_ret {A} (a : A) (Q : res A → list LoopEvent → Prop) : Q (Ok a) [] → leaves log (mret a) Q.
Proof using Type. intros H w. exists []. by rewrite app_nil_r. Qed.

Lemma leaves_raise {A} e (Q : res A → list LoopEvent → Prop) : Q (Raise e) [] → leaves log (raise e) Q.
Proof using Type. intros H w. exists []. by rewrite app_nil_r. Qed.

Lemma leaves_bind {A B} (m : M W A) (k : A → M W B) Q R : leaves log m Q →
  (∀ a es1, Q (Ok a) es1 → leaves log (k a) (λ r es2, R r (es1 ++ es2))) → (∀ e es1, Q (Raise e) es1 → R (Raise e) es1) → leaves log (m ≫= k) R.
Proof using Type.
  intros Hm Hk He w. destruct (Hm w) as (es1 & E1 & H1). unfold mbind, M_bind. destruct (m w) as [[a|e] w1] eqn:Em; cbn in *.
  - destruct (Hk a es1 H1 w1) as (es2 & E2 & H2). exists (es1 ++ es2). by rewrite E2, E1, app_assoc.
  - exists es1. auto.
Qed.

(** What leaves nothing, whatever it gives. *)
Lemma leaves_nothing {A} (m : M W A) (Q : res A → list LoopEvent → Prop) : (∀ w, log (run_state m w) = log w) → (∀ w, Q (run_res m w) []) → leaves log m Q.
Proof using Type. intros H HQ w. exists []. by rewrite H, app_nil_r. Qed.

Lemma quiet_bind {A B} (m : M W A) (k : A → M W B) R : (∀ w, log (run_state m w) = log w) → (∀ a, leaves log (k a) R) → (∀ e, R (Raise e) []) → leaves log (m ≫= k) R.
Proof using Type.
  intros Hm Hk He. eapply leaves_bind; [apply (leaves_nothing m (λ _ es, es = [])); [exact Hm|done]|..]; [intros a es ->; apply Hk|intros e es ->; apply He].
Qed.

Lemma leaves_try {A} (m : M W A) h Q R : leaves log m Q → (∀ a es, Q (Ok a) es → R (Ok a) es) →
  (∀ e es1, Q (Raise e) es1 → leaves log (h e) (λ r es2, R r (es1 ++ es2))) → leaves log (try_except m h) R.
Proof using Type.
  intros Hm Hok Hh w. destruct (Hm w) as (es1 & E1 & H1). unfold try_except. destruct (m w) as [[a|e] w1] eqn:Em; cbn in *.
  - exists es1. auto.
  - destruct (Hh e es1 H1 w1) as (es2 & E2 & H2). exists (es1 ++ es2). by rewrite E2, E1, app_assoc.
Qed.
End leaving.

(** ** A turn of the loop *)

(** A step that called a tool: its observation is none of the texts of a call that was not made. *)
Definition called_tool (co : Core) (y : ReactStep) (t : LoopTool) : Prop :=
  has_text (rs_action y) = true ∧ known_tool co (text_or (rs_action y)) = Some t ∧
  ∃ o, rs_observation y = Some o ∧ starts_with_one _NOT_RUN o = false.

Lemma tools_ran_steps co steps t : Some t ∈ tools_ran co steps → ∃ y, y ∈ steps ∧ called_tool co y t.
Proof.
  intros (y & Ht & Hy)%list_elem_of_fmap. apply elem_of_select_where in Hy as [Hy [Ha Ho]%andb_true_iff].
  exists y. split; [done|]. split; [done|]. split; [done|]. destruct (rs_observation y) as [o|]; [|done]. exists o. split; [done|]. by apply negb_true_iff.
Qed.

Lemma effects_of_steps co steps : effects_of (tools_ran co steps) ≠ [] → ∃ y t, y ∈ steps ∧ called_tool co y t ∧ lt_effect t ≠ "read".
Proof.
  unfold effects_of. destruct (select_where _ (omap id (tools_ran co steps))) as [|t l] eqn:E; [done|]. intros _.
  assert (t ∈ select_where (λ t, negb (String.eqb (lt_effect t) "read")) (omap id (tools_ran co steps))) as Ht by (rewrite E; left).
  apply elem_of_select_where in Ht as [Ht Hr%negb_true_iff%String.eqb_neq]. apply list_elem_of_omap in Ht as (o & Ho & [= ->]).
  apply tools_ran_steps in Ho as (y & ? & ?). by exists y, t.
Qed.

Lemma has_read_steps co steps : has_read co steps = true → ∃ y t, y ∈ steps ∧ called_tool co y t ∧ is_read t = true.
Proof.
  unfold has_read. intros (o & Ho & Hr)%existsb_exists. destruct o as [t|]; [|done]. apply list_elem_of_In, tools_ran_steps in Ho as (y & ? & ?).
  by exists y, t.
Qed.

(** What a final answer the guard accepts has for it. *)
Definition accepted (cfg : AgenticCoreConfig) (vocab : ClaimVocabulary) (co : Core) (steps : list ReactStep) (effects : list string) (answer : string) : Prop :=
  echoes_scaffold _SCAFFOLD_MARKERS answer = false ∧
  (claims_a_write vocab (match tools_ran co steps with [] => true | _ => false end) answer = true →
    effects ≠ [] ∨ (∃ y t, y ∈ steps ∧ called_tool co y t ∧ lt_effect t ≠ "read") ∨ places_it_earlier vocab answer = true) ∧
  (ac_read_first cfg = true → ∃ y t, y ∈ steps ∧ called_tool co y t ∧ is_read t = true).

(** A usable result of one of the steps. *)
Definition result_of (steps : list ReactStep) (answer : string) : Prop := ∃ y, y ∈ steps ∧ answer = _usable_observation (rs_observation y).
Definition harness_text (steps : list ReactStep) (answer : string) : Prop :=
  answer = UNBACKED_CLAIM_ANSWER ∨ answer = _MALFORMED_STEP_FALLBACK ∨ ∃ tools destructive, answer = _no_card_answer (removelast steps) tools destructive.

Definition answer_sound (cfg : AgenticCoreConfig) (vocab : ClaimVocabulary) (s : LoopState) (e : RunEnd) : Prop :=
  re_success e = true → re_halted_by e = None → str_truthy (re_answer e) = true ∧
  (accepted cfg vocab (ls_core s) (ls_steps s) (ls_effects s) (re_answer e) ∨ result_of (ls_steps s) (re_answer e) ∨ harness_text (ls_steps s) (re_answer e)).

Lemma last_good_result steps : str_truthy (_last_good_observation steps) = true → result_of steps (_last_good_observation steps).
Proof.
  unfold _last_good_observation. destruct (List.find _ _) as [a|] eqn:E; [|done]. intros _. apply find_some in E as [E _].
  apply in_map_iff in E as (y & <- & Hy). exists y. split; [|done]. apply list_elem_of_In in Hy. by apply elem_of_reverse.
Qed.

Lemma check_cases v answer effects retries markers fallback ran request : 
  match check_final_answer v answer effects retries markers fallback ran request with
  | v_ok => echoes_scaffold markers answer = false ∧ (claims_a_write v (negb ran) answer = true → effects ≠ [] ∨ places_it_earlier v answer = true)
  | v_retry _ _ => retries = 0
  | v_replace t _ => t = fallback ∨ t = UNBACKED_CLAIM_ANSWER
  | v_fail _ => False
  end.
Proof.
  unfold check_final_answer. destruct (echoes_scaffold markers answer); [destruct (Nat.ltb_spec retries 1); [lia|by left]|].
  destruct effects as [|e l]; [|by split; [|intros _; left]]. destruct (claims_a_write v (negb ran) answer); cbn [negb]; [|done].
  destruct (Nat.ltb_spec retries 1); [lia|]. destruct (places_it_earlier v answer); [|by right]. split; [done|]. intros _. by right.
Qed.

Lemma vet_cases cfg vocab co answer steps effects retries :
  match _vet_final_answer cfg vocab co answer steps effects retries with
  | v_ok => accepted cfg vocab co steps effects answer
  | v_retry _ _ => retries = 0
  | v_replace t _ => str_truthy t = true ∧ (result_of steps t ∨ harness_text steps t)
  | v_fail _ => True
  end.
Proof.
  unfold _vet_final_answer. destruct (ac_read_first cfg && negb (has_read co steps)) eqn:Er.
  - unfold _read_first_verdict. by destruct (Nat.leb_spec 1 retries); [|lia].
  - set (good := _last_good_observation steps). set (ran := tools_ran co steps).
    pose proof (check_cases vocab answer (effects ++ effects_of ran) retries _SCAFFOLD_MARKERS (if str_truthy good then good else _MALFORMED_STEP_FALLBACK)
      (match ran with [] => false | _ => true end) (text_or (co_current_query co))) as H.
    destruct (check_final_answer _ _ _ _ _ _ _ _); [| done| |done].
    + destruct H as [H1 H2]. split; [done|]. split; [|by intros Hf; rewrite Hf in Er; cbn in Er; apply negb_false_iff, has_read_steps in Er]. intros Hc.
      destruct H2 as [He|Hp]; [unfold ran; destruct (tools_ran co steps); exact Hc| |by right; right].
      destruct effects as [|e l]; [right; left; by apply effects_of_steps|by left].
    + destruct H as [->| ->]; [|split; [done|by right; left]]. destruct (str_truthy good) eqn:Eg; (split; [done|]); [left; by apply last_good_result|by right; right; left].
Qed.

(** A step that asked the owner nothing. *)
Definition ask_quiet (cfg : AgenticCoreConfig) (y : ReactStep) : Prop := _is_ask_user cfg y = true → turned_back y = true.

(** The call a turn makes: of a step whose signature is new, as the model wrote it. *)
Definition called_by (cfg : AgenticCoreConfig) (s : LoopState) (x : ReactStep) (c : string * pydict * Caller) : Prop :=
  c.1.2 = rs_action_input x ∧ signature_of x ∉ ls_executed s ∧ _is_ask_user cfg x = false ∧ tc_approved_by c.2 = None ∧
  tc_asked_user c.2 = _run_asked_user (ls_steps s ++ [x]) (text_or (rs_action x)).

Definition checkpoint_sound (query run : string) (iteration : nat) (s : LoopState) (e : RunEnd) (es : list LoopEvent) : Prop :=
  re_checkpoint_id e ≠ None → ls_iterations s = S iteration ∧ saved es = [{| ck_run_id := run; ck_step_id := iteration; ck_signal := match saved es with ck :: _ => ck_signal ck | [] => "" end;
    ck_payload := {| cp_query := query; cp_steps := map stored_step (ls_steps s); cp_iteration := S iteration;
                     cp_halt_reason := re_halt_reason e; cp_pending_approval_id := re_pending_approval_id e |} |}].

(** The steps of [s'] go on from those of [s]; where a checkpoint was written, by one more. *)
Definition extends (s s' : LoopState) (e : RunEnd) : Prop :=
  ∃ ys, ls_steps s' = ls_steps s ++ ys ∧ (re_checkpoint_id e ≠ None → ys ≠ []).

(** What holds after a turn from [s], with [es] left in the log. *)
Definition turn_post (cfg : AgenticCoreConfig) (vocab : ClaimVocabulary) (query run : string) (iteration : nat) (s : LoopState) (r : res Next) (es : list LoopEvent) : Prop :=
  ∃ x, (tool_calls es = [] ∨ ∃ c, tool_calls es = [c] ∧ called_by cfg s x c) ∧ models es ≤ 2 ∧
  match r with
  | Ok (Go s') =>
      models es ≤ 1 ∧ saved es = [] ∧ (∃ y, ls_steps s' = ls_steps s ++ [y] ∧ ask_quiet cfg y) ∧ (∀ g, g ∈ ls_executed s → g ∈ ls_executed s') ∧
      (tool_calls es ≠ [] → signature_of x ∈ ls_executed s')
  | Ok (Stop s' e) => answer_sound cfg vocab s' e ∧ checkpoint_sound query run iteration s' e es ∧ extends s s' e
  | Raise _ => True
  end.

Section turns.
Context {W : Type} (env : LoopEnv W) (log : W → list LoopEvent) `{!LoopWorld env log}.
Context (cfg : AgenticCoreConfig) (vocab : ClaimVocabulary) (me : LoopIdentity).

(** What is asked of an operation that calls no model and no tool. *)
Definition calls_nothing {A} (r : res A) (es : list LoopEvent) : Prop := tool_calls es = [] ∧ models es = 0.

Lemma models_app es1 es2 : models (es1 ++ es2) = models es1 + models es2.
Proof using Type. unfold models. by rewrite count_where_app. Qed.
Lemma tool_calls_app es1 es2 : tool_calls (es1 ++ es2) = tool_calls es1 ++ tool_calls es2.
Proof using Type. apply omap_app. Qed.
Lemma saved_app es1 es2 : saved (es1 ++ es2) = saved es1 ++ saved es2.
Proof using Type. apply omap_app. Qed.

Lemma write_leaves query run steps it signal halt pending :
  leaves log (_write_checkpoint env query run steps it signal halt pending) (λ r es, calls_nothing r es ∧
    match r with
    | Ok (Some _) => saved es = [{| ck_run_id := run; ck_step_id := it; ck_signal := signal;
        ck_payload := {| cp_query := query; cp_steps := map stored_step steps; cp_iteration := S it; cp_halt_reason := halt; cp_pending_approval_id := pending |} |}]
    | _ => True
    end).
Proof using W env log LoopWorld0.
  unfold _write_checkpoint. destruct (le_write_checkpoint env) as [write|] eqn:Ew; [|by apply leaves_ret].
  destruct (str_truthy query); cbn [negb]; [|by apply leaves_raise]. set (ck := {| ck_run_id := run |}).
  eapply leaves_try with (Q := λ _ es, es = [ev_saved ck]).
  - eapply leaves_bind with (Q := λ _ es, es = [ev_saved ck]).
    + intros w. exists [ev_saved ck]. split; [by apply lw_write|done].
    + intros cp es ->. by apply leaves_ret.
    + by intros e es ->.
  - intros a es ->. split; [done|]. by destruct a.
  - intros e es ->. by apply leaves_ret.
Qed.

Lemma link_quiet d cp w : log (run_state (_link_approval_checkpoint_for env d cp) w) = log w.
Proof using W env log LoopWorld0.
  unfold _link_approval_checkpoint_for. destruct (le_link env) as [link|] eqn:El; [|done]. destruct (approval_request_id d), cp as [cp|]; try done.
  destruct (str_truthy cp); [|done]. unfold try_except. pose proof (lw_link link s cp w El) as H. by destruct (link s cp w) as [[]].
Qed.

Lemma after_call_quiet co t label h o ef w : log (run_state (after_call co t label h o ef : M W ToolStep) w) = log w.
Proof using Type.
  unfold after_call. destruct (to_status o); try done. destruct (to_decision o) as [d|]; [|done]. destruct (approval_request_id d); [|done]. by destruct (_ && _).
Qed.

Lemma run_found_leaves co t args call h :
  leaves log (run_found env co t args call h) (λ r es, models es = 0 ∧ saved es = [] ∧ tool_calls es = [(lt_name t, args, call)]).
Proof using W env log LoopWorld0.
  unfold run_found. eapply leaves_bind with (Q := λ _ es, es = [ev_tool (lt_name t) args call]).
  - intros w. exists [ev_tool (lt_name t) args call]. split; [apply lw_call|done].
  - intros [o ef] es ->. apply leaves_nothing; [intros w; apply after_call_quiet|done].
  - by intros e es ->.
Qed.

Lemma execute_leaves co name args call h :
  leaves log (_execute_tool env co name args call h) (λ r es, models es = 0 ∧ saved es = [] ∧ (tool_calls es = [] ∨ ∃ n, tool_calls es = [(n, args, call)])).
Proof using W env log LoopWorld0.
  assert (∀ co t, leaves log (run_found env co t args call h) (λ r es, models es = 0 ∧ saved es = [] ∧ (tool_calls es = [] ∨ ∃ n, tool_calls es = [(n, args, call)]))) as Hf.
  { intros co' t. eapply leaves_weaken; [apply run_found_leaves|]. intros r es (H1 & H2 & H3). split_and!; [done|done|]. right. by exists (lt_name t). }
  unfold _execute_tool. destruct (od_get name (co_index co)); [apply Hf|]. destruct (od_get name (co_reserve co)); [apply Hf|].
  destruct (_resolve_tool_alias env name (co_index co)) as [alias|].
  - destruct (od_get alias (co_index co)); [apply Hf|]. apply leaves_raise. auto.
  - apply leaves_ret. auto.
Qed.

Lemma synthesis_leaves query run it s lo :
  leaves log (_force_final_synthesis env query run it s lo) (λ r es, tool_calls es = [] ∧ saved es = [] ∧ models es ≤ 1).
Proof using W env log LoopWorld0.
  unfold _force_final_synthesis. apply quiet_bind; [intros w; apply lw_pre_llm| |by intros e; cbn; auto].
  intros [[d p] l]. destruct (blocking d); [apply leaves_ret; cbn; auto|].
  eapply leaves_bind with (Q := λ _ es, es = [ev_model]).
  - eapply leaves_try with (Q := λ _ es, es = [ev_model]).
    + eapply leaves_bind with (Q := λ _ es, es = [ev_model]); [intros w; exists [ev_model]; split; [apply lw_llm|done]| |by intros e es ->].
      intros a es ->. by apply leaves_ret.
    + by intros a es ->.
    + intros e es ->. by apply leaves_ret.
  - intros a es ->. apply leaves_ret. cbn. auto.
  - intros e es ->. cbn. auto.
Qed.

(** What holds after the reply [x] of the model was taken up. *)
Definition took (query run : string) (iteration : nat) (s0 : LoopState) (x : ReactStep) (r : res Next) (es : list LoopEvent) : Prop :=
  (tool_calls es = [] ∨ ∃ c, tool_calls es = [c] ∧ called_by cfg s0 x c) ∧ models es ≤ 1 ∧
  match r with
  | Ok (Go s') =>
      models es = 0 ∧ saved es = [] ∧ (∃ y, ls_steps s' = ls_steps s0 ++ [y] ∧ ask_quiet cfg y) ∧ (∀ g, g ∈ ls_executed s0 → g ∈ ls_executed s') ∧
      (tool_calls es ≠ [] → signature_of x ∈ ls_executed s')
  | Ok (Stop s' e) => answer_sound cfg vocab s' e ∧ checkpoint_sound query run iteration s' e es ∧ ∃ y, ls_steps s' = ls_steps s0 ++ [y]
  | Raise _ => True
  end.

(** The state with the reply as the last step of the trace. *)
Definition holds_step (iteration : nat) (s0 s : LoopState) (x : ReactStep) : Prop :=
  ls_steps s = ls_steps s0 ++ [x] ∧ ls_executed s = ls_executed s0 ∧ ls_iterations s = S iteration.

Lemma held_steps it s0 s x y : holds_step it s0 s x → ls_steps (set_last_step y s) = ls_steps s0 ++ [y].
Proof using Type. intros (H & _). cbn. by rewrite H, removelast_last. Qed.

Lemma took_go query run it s0 s x y s' : holds_step it s0 s x → ls_steps s' = ls_steps s0 ++ [y] → ask_quiet cfg y → ls_executed s' = ls_executed s →
  took query run it s0 x (Ok (Go s')) [].
Proof using Type. intros (_ & He & _) Hs Hy He'. split; [by left|]. split; [cbn; lia|]. split; [done|]. split; [done|]. split; [by exists y|]. split; [by rewrite He', He|]. done. Qed.

Lemma took_stop query run it s0 s x s' e : holds_step it s0 s x → (ls_steps s' = ls_steps s ∨ ∃ y, ls_steps s' = ls_steps (set_last_step y s)) →
  answer_sound cfg vocab s' e → re_checkpoint_id e = None → took query run it s0 x (Ok (Stop s' e)) [].
Proof using Type.
  intros Hs Hst Ha Hc. split; [by left|]. split; [cbn; lia|]. split; [done|]. split; [intros Hn; by rewrite Hc in Hn|].
  destruct Hst as [->|[y ->]]; [exists x; apply Hs|exists y; by apply (held_steps it s0 s x)].
Qed.

(** The end of a turn that took the reply up in a state that holds it. *)
Ltac stops Hs := eapply took_stop; [exact Hs|first [by left|right; by eexists]|..].

Lemma fails_sound s' answer : answer_sound cfg vocab s' (ended answer false).
Proof using Type. by intros ?. Qed.
Lemma ungrounded_sound s' : answer_sound cfg vocab s' ungrounded_end.
Proof using Type. by intros ?. Qed.

Lemma not_asking x : has_text (rs_action x) = false → _is_ask_user cfg x = false.
Proof using Type. intros H. unfold _is_ask_user, acts. destruct (ac_allow_ask_user cfg); [|done]. apply bool_decide_eq_false. intros E. by rewrite E in H. Qed.

Lemma held_quiet o x : _is_ask_user cfg x = false → ask_quiet cfg (held_back o x).
Proof using Type. intros H Ha. unfold _is_ask_user, acts, held_back in *. cbn in Ha. by rewrite H in Ha. Qed.

Lemma take_answer_took query run it s0 s x a : holds_step it s0 s x → _is_ask_user cfg x = false → str_truthy a = true → took query run it s0 x (Ok (take_answer cfg vocab x a s)) [].
Proof using Type.
  intros Hs Hx Ha. unfold take_answer. pose proof (vet_cases cfg vocab (ls_core s) a (ls_steps s) (ls_effects s) (ls_retries s)) as Hv.
  destruct (_vet_final_answer _ _ _ _ _ _ _) as [|note why|text why|why].
  - stops Hs; [|done]. intros _ _. split; [exact Ha|by left].
  - apply (took_go query run it s0 s x (held_back note x)); [done| |by apply held_quiet|done]. exact (held_steps it s0 s x _ Hs).
  - stops Hs; [|done]. intros _ _. split; [apply Hv|right; apply Hv].
  - stops Hs; [apply ungrounded_sound|done].
Qed.

Lemma prose_took query run it s0 s x raw : holds_step it s0 s x → has_text (rs_action x) = false → took query run it s0 x (Ok (prose_step cfg vocab x raw s)) [].
Proof using Type.
  intros Hs Hx. apply not_asking in Hx. unfold prose_step. destruct (_ && _ && _) eqn:Ec; [apply take_answer_took; [done|done|]; by apply andb_true_iff in Ec as [[Ec _]%andb_true_iff _]|].
  destruct (Nat.leb 2 _).
  - stops Hs; [|done]. destruct (str_truthy (_last_good_observation _)) eqn:Eg; [|apply fails_sound].
    intros _ _. split; [done|]. right. left. by apply last_good_result.
  - apply (took_go query run it s0 s x x); [done|exact (proj1 Hs)| |done]. intros Ha. by rewrite Hx in Ha.
Qed.

Lemma guard_cases steps tools :
  match _guard_ask steps tools with
  | Some (ask_turn_back text) => startswith _ASK_TURNED_BACK text = true
  | Some (ask_end text) => ∃ d, text = _no_card_answer (removelast steps) tools d
  | None => True
  end.
Proof using Type.
  unfold _guard_ask. destruct (negb _); [done|]. destruct (Nat.leb _ _); [by eexists|].
  apply (proj2 (prefix_spec _ _)). unfold guard_text. by eexists.
Qed.

Lemma no_card_truthy steps tools d : str_truthy (_no_card_answer steps tools d) = true.
Proof using Type. unfold _no_card_answer. by destruct (str_truthy (_found_items _ _)). Qed.

Lemma repeated_took query run it s0 s x : holds_step it s0 s x →
  leaves log (repeated_call env cfg vocab query run it x s) (took query run it s0 x).
Proof using All.
  intros Hs. unfold repeated_call. destruct (str_truthy (_answer_in_hand _ _ _)) eqn:Eh.
  - apply leaves_ret; stops Hs; [|done]. intros _ _. split; [exact Eh|]. right. left. cbn [ended re_answer]. unfold _answer_in_hand in Eh |- *.
    destruct (negb _); [done|]. destruct (List.find _ _) as [a|] eqn:E; [|done]. apply find_some in E as [E _].
    apply in_map_iff in E as (y & <- & Hy). exists y. split; [|done]. apply list_elem_of_In, elem_of_select_where in Hy as [Hy _].
    rewrite elem_of_reverse in Hy. destruct Hs as (Hs & _). change (ls_steps (bump_stall s)) with (ls_steps s) in *. rewrite Hs, removelast_last in Hy. rewrite Hs. apply elem_of_app. by left.
  - eapply leaves_bind; [apply synthesis_leaves|..].
    + intros a es (Ht & Hsv & Hm). apply leaves_ret. rewrite app_nil_r. split; [by left|]. split; [done|].
      pose proof (vet_cases cfg vocab (ls_core (bump_stall s)) a (ls_steps (bump_stall s)) (ls_effects (bump_stall s)) 1) as Hv.
      destruct (_vet_final_answer _ _ _ _ _ _ _) as [|note why|text why|why]; [|done|..]; (split; [|split; [by intros Hc; destruct Hc|exists x; apply Hs]]).
      * intros Hok _. split; [exact Hok|by left].
      * intros _ _. split; [apply Hv|right; apply Hv].
      * apply ungrounded_sound.
    + intros e es (Ht & Hsv & Hm). split; [by left|done].
Qed.

Lemma pause_user_took query run it s0 s x : ls_steps s = ls_steps s0 ++ [x] → ls_iterations s = S it → leaves log (_pause_for_user env query run x it s) (took query run it s0 x).
Proof using All.
  intros Hs Hit. unfold _pause_for_user. eapply leaves_bind; [apply write_leaves|..].
  - intros cp es [[Ht Hm] Hw]. apply leaves_ret. rewrite app_nil_r. split; [by left|]. split; [lia|]. split; [by intros ?|].
    split; [|eexists; cbn; by rewrite Hs, removelast_last].
    intros Hc. cbn in Hc. destruct cp as [cp|]; [|done]. split; [exact Hit|]. by rewrite Hw.
  - intros e es [[Ht Hm] _]. split; [by left|]. split; [lia|done].
Qed.

(** After a step whose call was made: [s] holds the step [y], which asked the owner nothing. *)
Lemma after_step_took query run it s0 s x y es0 : ls_iterations s = S it → ls_steps s = ls_steps s0 ++ [y] → ask_quiet cfg y → models es0 = 0 → saved es0 = [] →
  (tool_calls es0 = [] ∨ ∃ c, tool_calls es0 = [c] ∧ called_by cfg s0 x c) →
  (∀ g, g ∈ ls_executed s0 → g ∈ ls_executed s) → signature_of x ∈ ls_executed s →
  leaves log (after_step env me query run it y s) (λ r es, took query run it s0 x r (es0 ++ es)).
Proof using All.
  intros Hit Hs Hq Hm Hsv Ht Hex Hsig. unfold after_step. apply quiet_bind.
  - intros w. unfold _fire_post_step. destruct (le_post_step env) as [fire|] eqn:Ef; [|done]. unfold mbind, M_bind.
    pose proof (lw_post_step fire (post_step_context env me run it y (ls_label s) query) w Ef) as H. by destruct (fire _ w) as [[]].
  - intros d. destruct (blocking d) as [d'|].
    + eapply leaves_bind; [apply write_leaves|..].
      * intros cp es [[Ht' Hm'] Hw]. apply quiet_bind; [intros w; apply link_quiet|..].
        -- intros _. apply leaves_ret. rewrite !app_nil_r. unfold took. rewrite tool_calls_app, Ht', app_nil_r, models_app, Hm, Hm'. split; [exact Ht|].
           split; [lia|]. split; [by intros ?|]. split; [|by exists y]. intros Hc. cbn in Hc. destruct cp as [cp|]; [|done]. split; [exact Hit|]. by rewrite saved_app, Hsv, Hw.
        -- intros e. rewrite app_nil_r. unfold took. rewrite tool_calls_app, Ht', app_nil_r, models_app, Hm, Hm'. split; [exact Ht|]. split; [lia|done].
      * intros e es [[Ht' Hm'] _]. unfold took. rewrite tool_calls_app, Ht', app_nil_r, models_app, Hm, Hm'. split; [exact Ht|]. split; [lia|done].
    + apply leaves_ret. rewrite app_nil_r. unfold took. rewrite Hm. split; [exact Ht|]. split; [lia|].
      destruct (str_truthy (_direct_answer _ _ _)) eqn:Ed.
      * split; [|split; [by intros Hc; destruct Hc|by exists y]]. intros _ _. split; [exact Ed|]. right. left. exists y. split; [rewrite Hs; apply elem_of_app; right; left|].
        cbn [ended re_answer]. unfold _direct_answer in *. destruct (negb _); [done|]. by destruct (existsb _ _).
      * split; [done|]. split; [done|]. split; [by exists y|]. done.
  - intros e. rewrite app_nil_r. unfold took. rewrite Hm. split; [exact Ht|]. split; [lia|done].
Qed.

Lemma new_call_took query run it s0 s x action : holds_step it s0 s x → action = text_or (rs_action x) → signature_of x ∉ ls_executed s0 → _is_ask_user cfg x = false →
  leaves log (new_call env me query run it x action (note_signature (signature_of x) s)) (took query run it s0 x).
Proof using All.
  intros (Hs & He & Hit) -> Hsig Hx. unfold new_call. set (s1 := note_signature (signature_of x) s).
  assert (ls_steps s1 = ls_steps s0 ++ [x]) as Hs1 by done. assert (ls_executed s1 = signature_of x :: ls_executed s0) as He1 by (cbn; by rewrite He).
  set (call := loop_caller _ _ _ _ _ _ _ _).
  assert (∀ n, called_by cfg s0 x (n, rs_action_input x, call)) as Hcb.
  { intros n. split; [done|]. split; [done|]. split; [done|]. split; [done|]. cbn. by rewrite Hs. }
  eapply leaves_bind; [apply execute_leaves|..].
  - intros r es (Hm & Hsv & Ht). assert (tool_calls es = [] ∨ ∃ c, tool_calls es = [c] ∧ called_by cfg s0 x c) as Ht'.
    { destruct Ht as [Ht|[n Ht]]; [by left|]. right. eexists. split; [exact Ht|apply Hcb]. }
    set (y := {| rs_thought := rs_thought x |}). set (s2 := add_effects _ _).
    assert (ls_steps s2 = ls_steps s0 ++ [y]) as Hs2 by (cbn; by rewrite Hs, removelast_last).
    assert (ls_executed s2 = signature_of x :: ls_executed s0) as He2 by exact He1.
    assert (ask_quiet cfg y) as Hy by (intros Ha; unfold _is_ask_user, acts in Ha, Hx; cbn in Ha; by rewrite Hx in Ha).
    destruct (st_halt r) as [d|].
    + unfold _pause_for_approval. eapply leaves_bind; [apply write_leaves|..].
      * intros cp es' [[Ht2 Hm2] Hw]. apply quiet_bind; [intros w; apply link_quiet|..].
        -- intros _. apply leaves_ret. rewrite !app_nil_r. unfold took. rewrite tool_calls_app, Ht2, app_nil_r, models_app, Hm, Hm2.
           split; [exact Ht'|]. split; [lia|]. split; [by intros ? ?|]. split; [|by exists y]. intros Hc. cbn in Hc. destruct cp as [cp|]; [|done]. split; [exact Hit|]. by rewrite saved_app, Hsv, Hw.
        -- intros e. rewrite app_nil_r. unfold took. rewrite tool_calls_app, Ht2, app_nil_r, models_app, Hm, Hm2. split; [exact Ht'|]. split; [lia|done].
      * intros e es' [[Ht2 Hm2] _]. unfold took. rewrite tool_calls_app, Ht2, app_nil_r, models_app, Hm, Hm2. split; [exact Ht'|]. split; [lia|done].
    + apply after_step_took; [exact Hit|exact Hs2|done|done|done|done| |]; cbn; rewrite He; [intros g Hg; by right|by left].
  - intros e es (Hm & Hsv & Ht). split; [|by rewrite Hm; split; [lia|]]. destruct Ht as [Ht|[n Ht]]; [by left|]. right. eexists. split; [exact Ht|apply Hcb].
Qed.

Lemma act_took query run it s0 s x : holds_step it s0 s x →
  leaves log (act_step env cfg vocab me query run it x (text_or (rs_action x)) s) (took query run it s0 x).
Proof using All.
  intros Hs. unfold act_step. pose proof (guard_cases (ls_steps s) (co_tools (ls_core s))) as Hg.
  destruct (_is_ask_user cfg x) eqn:Hx.
  - destruct (_guard_ask _ _) as [[text|text]|].
    + apply leaves_ret. apply (took_go query run it s0 s x (with_observation (Some text) x)); [done|exact (held_steps it s0 s x _ Hs)| |done]. by intros _.
    + apply leaves_ret; stops Hs; [|done]. intros _ _. split; [destruct Hg as (d & ->); apply no_card_truthy|]. right. right. right. right. destruct Hg as [d ->]. exists (co_tools (ls_core s)), d. cbn.
      by rewrite (proj1 Hs), !removelast_last.
    + destruct (str_in _ _) eqn:Hin; [by apply repeated_took|]. destruct (Nat.leb _ _); [|apply pause_user_took; apply Hs].
      apply leaves_ret; stops Hs; [|by destruct (str_truthy _)]. destruct (str_truthy _) eqn:Eg; [|apply fails_sound]. intros _ _. split; [exact Eg|]. right. left. by apply last_good_result.
  - destruct (str_in _ _) eqn:Hin; [by apply repeated_took|]. destruct (Nat.leb _ _).
    + apply leaves_ret; stops Hs; [|by destruct (str_truthy _)]. destruct (str_truthy _) eqn:Eg; [|apply fails_sound]. intros _ _. split; [exact Eg|]. right. left. by apply last_good_result.
    + apply new_call_took; [done|done| |done]. rewrite <- (proj1 (proj2 Hs)). by apply str_in_false.
Qed.

Lemma take_step_took query run retrieval it raw s0 s1 : ls_steps s1 = ls_steps s0 → ls_executed s1 = ls_executed s0 →
  leaves log (take_step env cfg vocab me query run retrieval it raw s1) (took query run it s0 (_parse_react_step (le_float_repr env) raw)).
Proof using All.
  intros Hs1 He1. unfold take_step. set (x := _parse_react_step _ raw). set (s := set_iterations _ _).
  assert (holds_step it s0 s x) as Hs by (split; [cbn; by rewrite Hs1|done]).
  assert (rs_is_terminal x = true → rs_action x = None) as Hterm by (unfold x, _parse_react_step; by destruct (read_final_answer raw)).
  set (said := _answer_as_question x raw).
  assert (str_truthy said = true → has_text (rs_action x) = false) as Hsaid.
  { unfold said, _answer_as_question. destruct (rs_is_terminal x) eqn:Et; cbn [andb]; [by rewrite Hterm|]. by destruct (has_text (rs_action x)). }
  pose proof (guard_cases (ls_steps s) (co_tools (ls_core s))) as Hg.
  assert (leaves log
    (if rs_is_terminal x && has_text (rs_final_answer x) then
        if retrieval && negb (ls_retrieval_used s) then
          let s := bump 1 0 0 s in
          mret (if Nat.leb 2 (ls_retrieval_retries s) then Stop s (ended "Unable to provide fresh news reliably because no retrieval tool was used." false)
                else Go (tell "System: Fresh-news query detected. Call a retrieval tool (prefer research) before Final Answer."
                           (set_last_step (held_back "Error: Fresh-news query requires a retrieval tool call before final answer." x) s)))
        else mret (take_answer cfg vocab x (text_or (rs_final_answer x)) s)
      else if has_text (rs_action x) then act_step env cfg vocab me query run it x (text_or (rs_action x)) s
      else mret (prose_step cfg vocab x raw s)) (took query run it s0 x)) as Hrest.
  { destruct (rs_is_terminal x && has_text (rs_final_answer x)) eqn:Et.
    - apply andb_true_iff in Et as [Et Hf]. specialize (Hterm Et). assert (_is_ask_user cfg x = false) as Hx by (apply not_asking; by rewrite Hterm).
      destruct (retrieval && _); [|apply leaves_ret; by apply take_answer_took]. apply leaves_ret. destruct (Nat.leb 2 _); [stops Hs; [apply fails_sound|done]|].
      apply (took_go query run it s0 s x (held_back "Error: Fresh-news query requires a retrieval tool call before final answer." x)); [done|exact (held_steps it s0 s x _ Hs)|by apply held_quiet|done].
    - destruct (has_text (rs_action x)) eqn:Ha; [by apply act_took|]. apply leaves_ret. by apply prose_took. }
  destruct (str_truthy said) eqn:Es; [|exact Hrest]. specialize (Hsaid eq_refl). apply not_asking in Hsaid.
  destruct (_guard_ask _ _) as [[text|text]|]; [..|exact Hrest]; apply leaves_ret.
  - apply (took_go query run it s0 s x (held_back text x)); [done|exact (held_steps it s0 s x _ Hs)|by apply held_quiet|done].
  - stops Hs; [|done]. intros _ _. split; [destruct Hg as (d & ->); apply no_card_truthy|]. right. right. right. right. destruct Hg as [d ->]. exists (co_tools (ls_core s)), d.
    rewrite (held_steps it s0 s x _ Hs), (proj1 Hs), !removelast_last. done.
Qed.

Lemma turn_holds query run started retrieval it s : leaves log (loop_turn env cfg vocab me query run started retrieval it s) (turn_post cfg vocab query run it s).
Proof using All.
  assert (∀ s' e es, answer_sound cfg vocab s' e → re_checkpoint_id e = None → ls_steps s' = ls_steps s → tool_calls es = [] → models es ≤ 1 →
    turn_post cfg vocab query run it s (Ok (Stop s' e)) es) as Hstop.
  { intros s' e es Ha Hc Hst Ht Hm. exists new_step. split; [by left|]. split; [lia|]. split; [done|]. split; [intros Hn; by rewrite Hc in Hn|].
    exists []. rewrite app_nil_r. split; [done|]. intros Hn. by rewrite Hc in Hn. }
  unfold loop_turn. apply quiet_bind; [intros w; apply lw_now| |by intros e; exists new_step; split; [left|cbn; split; [lia|]]].
  intros now. destruct (_ <? _)%Z; [apply leaves_ret, Hstop; [apply fails_sound|done|done|done|cbn; lia]|].
  destruct (_apply_context_budget cfg (ls_history s)) as [history evicted].
  apply quiet_bind; [intros w; apply lw_pre_llm| |by intros e; exists new_step; split; [left|cbn; split; [lia|]]].
  intros [[d p] l]. destruct (blocking d); [apply leaves_ret, Hstop; [apply fails_sound|done|done|done|cbn; lia]|].
  eapply leaves_bind with (Q := λ r es, es = [ev_model] ∧ ∃ a, r = Ok a).
  - eapply leaves_try with (Q := λ _ es, es = [ev_model]).
    + eapply leaves_bind with (Q := λ _ es, es = [ev_model]); [intros w; exists [ev_model]; split; [apply lw_llm|done]| |by intros e es ->].
      intros a es ->. by apply leaves_ret.
    + intros a es ->. split; [done|by exists a].
    + intros e es ->. apply leaves_ret. split; [done|by eexists].
  - intros [raw|e] es [-> _]; [|apply leaves_ret, Hstop; [apply fails_sound|done|done|done|cbn; lia]].
    eapply leaves_weaken; [apply (take_step_took query run retrieval it raw s); done|]. intros r es (Ht & Hm & Hr). exists (_parse_react_step (le_float_repr env) raw).
    split; [exact Ht|]. rewrite models_app. change (models [ev_model]) with 1. split; [lia|]. destruct r as [[s'|s' e]|e]; [| |done].
    2: { destruct Hr as (Ha & Hck & y & Hy). split; [exact Ha|]. split; [exact Hck|]. by exists [y]. }
    destruct Hr as (Hm0 & Hr). split; [lia|exact Hr].
  - intros e es [_ [a Ha]]. done.
Qed.

(** ** A run *)

Lemma quiet_not_asked n p steps : ac_allow_ask_user cfg = true → Forall (ask_quiet cfg) steps → asked_from n p steps = false.
Proof using Type.
  intros Ha. revert p. induction steps as [|y steps IH]; intros p; [done|]. intros [Hy Hs]%Forall_cons. cbn [asked_from].
  destruct (acts n y); [by apply IH|]. destruct (p && acts ASK_USER_ACTION y && negb (turned_back y)) eqn:E; [|by apply IH].
  apply andb_true_iff in E as [E Et]. apply andb_true_iff in E as [_ E]. unfold ask_quiet, _is_ask_user in Hy. rewrite Ha, E in Hy. by rewrite Hy in Et.
Qed.

(** One call of a run, with the step it was made for. *)
Definition call_for (x : ReactStep) (c : string * pydict * Caller) : Prop := c.1.2 = rs_action_input x ∧ tc_approved_by c.2 = None.

Definition ends_sound (query run : string) (s : LoopState) (e : RunEnd) (es : list LoopEvent) : Prop :=
  answer_sound cfg vocab s e ∧ (re_checkpoint_id e = None ∨ ∃ it, checkpoint_sound query run it s e es).

Definition run_post (query run : string) (turns : nat) (s : LoopState) (r : res (LoopState * RunEnd)) (es : list LoopEvent) : Prop :=
  ∃ called : list (ReactStep * (string * pydict * Caller)),
    tool_calls es = map snd called ∧ NoDup (map (λ c, signature_of c.1) called) ∧ length called ≤ turns ∧ models es ≤ S turns ∧
    Forall (λ c, signature_of c.1 ∉ ls_executed s ∧ call_for c.1 c.2) called ∧
    (ac_allow_ask_user cfg = true → Forall (ask_quiet cfg) (ls_steps s) → Forall (λ c, tc_asked_user c.2.2 = false) called) ∧
    match r with Ok (s', e) => ends_sound query run s' e es ∧ extends s s' e | Raise _ => True end.

Lemma one_called es (s : LoopState) x : (tool_calls es = [] ∨ ∃ c, tool_calls es = [c] ∧ called_by cfg s x c) →
  ∃ called : list (ReactStep * (string * pydict * Caller)), tool_calls es = map snd called ∧ NoDup (map (λ c, signature_of c.1) called) ∧ length called ≤ 1 ∧
    (called ≠ [] → tool_calls es ≠ []) ∧ Forall (λ c, c.1 = x) called ∧
    Forall (λ c, signature_of c.1 ∉ ls_executed s ∧ call_for c.1 c.2) called ∧
    (ac_allow_ask_user cfg = true → Forall (ask_quiet cfg) (ls_steps s) → Forall (λ c, tc_asked_user c.2.2 = false) called).
Proof using Type.
  intros [Ht|(c & Ht & Ha & Hsig & Hx & Hap & Hasked)].
  - exists []. split; [done|]. split; [apply NoDup_nil_2|]. cbn. auto.
  - exists [(x, c)]. split; [done|]. split; [apply NoDup_singleton|]. split; [done|]. split; [by rewrite Ht|]. split; [by constructor|].
    split; [by constructor|]. intros Hal Hq. constructor; [|done]. cbn [snd]. rewrite Hasked. apply quiet_not_asked; [done|].
    apply Forall_app. split; [done|]. constructor; [|done]. intros Hn. by rewrite Hx in Hn.
Qed.

Lemma loop_holds query run started retrieval turns it s :
  leaves log (loop_from env cfg vocab me query run started retrieval turns it s) (run_post query run turns s).
Proof using All.
  revert it s. induction turns as [|turns IH]; intros it s; cbn [loop_from].
  { apply leaves_ret. exists []. split; [done|]. split; [apply NoDup_nil_2|]. split; [done|]. split; [cbn; lia|]. split; [done|]. split; [done|].
    split; [split; [apply fails_sound|by left]|]. exists []. by rewrite app_nil_r. }
  eapply leaves_bind; [apply turn_holds|..].
  - intros next es (x & Ht & Hm & Hn). destruct (one_called es s x Ht) as (called & Hc & Hnd & Hl & Hne & Hx & Hf & Hq). destruct next as [s'|s' e].
    + destruct Hn as (Hm1 & Hsv & (y & Hy & Hyq) & Hex & Hsig). eapply leaves_weaken; [apply IH|]. intros r es2 (called2 & Hc2 & Hnd2 & Hl2 & Hm2 & Hf2 & Hq2 & Hr).
      exists (called ++ called2). rewrite map_app, tool_calls_app, Hc, Hc2, map_app, length_app, models_app. split; [done|]. split.
      { apply NoDup_app. split; [done|]. split; [|done]. intros g (c & -> & Hin)%list_elem_of_fmap (c2 & Hg & Hin2)%list_elem_of_fmap.
        rewrite Forall_forall in Hx, Hf2. destruct (Hf2 c2 Hin2) as [Hnot _]. apply Hnot. rewrite <- Hg, (Hx c Hin). apply Hsig, Hne. by intros ->; apply elem_of_nil in Hin. }
      split; [lia|]. split; [lia|]. split.
      { apply Forall_app. split; [done|]. eapply Forall_impl; [exact Hf2|]. intros c [Hnot Hcf]. split; [|done]. intros Hin. by apply Hnot, Hex. }
      split.
      { intros Hal Hqs. apply Forall_app. split; [by apply Hq|]. apply Hq2; [done|]. rewrite Hy. apply Forall_app. split; [done|by constructor]. }
      destruct r as [[s2 e]|]; [|done]. destruct Hr as [[Ha Hcp] (ys & Hys & Hne2)]. split.
      { split; [done|]. destruct Hcp as [Hcp|[it' Hcp]]; [by left|]. right. exists it'. unfold checkpoint_sound. by rewrite saved_app, Hsv. }
      exists (y :: ys). rewrite Hys, Hy, <- app_assoc. done.
    + apply leaves_ret. rewrite app_nil_r. destruct Hn as (Ha & Hcp & Hx'). exists called. split; [done|]. split; [done|]. split; [lia|]. split; [lia|]. split; [done|]. split; [done|].
      split; [|done]. split; [done|]. right. by exists it.
  - intros e es (x & Ht & Hm & _). destruct (one_called es s x Ht) as (called & Hc & Hnd & Hl & Hne & Hx & Hf & Hq).
    exists called. split; [done|]. split; [done|]. split; [lia|]. split; [lia|]. done.
Qed.

(** The state a loop starts in. *)
Definition started_with (query : string) (steps : list ReactStep) (effects history : list string) (start : nat) (co : Core) : LoopState :=
  let co := set_query query co in
  {| ls_core := co; ls_steps := steps; ls_iterations := start; ls_effects := effects; ls_history := history; ls_label := co_classification co; ls_last := "";
     ls_stall := 0; ls_executed := []; ls_retrieval_used := false; ls_retrieval_retries := 0; ls_malformed := 0; ls_retries := 0 |}.

Lemma whole_loop query run steps effects history start co :
  leaves log (_loop env cfg vocab me query run steps effects history start co) (λ r es, ∃ r', run_post query run (ac_max_iterations cfg - start)
    (started_with query steps effects history start co) r' es ∧ ∀ t co', r = Ok (t, co') → ∃ s e, r' = Ok (s, e) ∧ t = trace_of query run s e ∧ co' = ls_core s).
Proof using All.
  unfold _loop. apply quiet_bind; [intros w; apply lw_now| |].
  - intros started. eapply leaves_bind; [apply loop_holds|..].
    + intros [s e] es H. assert (∀ w, log (run_state ((if completed e then le_report env (trace_of query run s e) else mret tt) : M W unit) w) = log w) as Hq
        by (intros w; destruct (completed e); [apply lw_report|done]).
      apply quiet_bind; [exact Hq| |].
      * intros _. apply leaves_ret. rewrite app_nil_r. exists (Ok (s, e)). split; [exact H|]. intros t co' [= <- <-]. by exists s, e.
      * intros ex. rewrite app_nil_r. exists (Ok (s, e)). split; [exact H|]. done.
    + intros ex es H. exists (Raise ex). split; [exact H|]. done.
  - intros ex. exists (Raise ex). split; [|done]. exists []. split; [done|]. split; [apply NoDup_nil_2|]. cbn. split; [lia|]. split; [lia|]. done.
Qed.

(** C10. A run of the loop makes at most one call of a tool per turn and one of the model, and one more
    of the model at its end, whatever the model says and whatever fails, and when it returns it has an answer. *)
Theorem run_bounded query run steps effects history start co w : ∃ es,
  log (run_state (_loop env cfg vocab me query run steps effects history start co) w) = log w ++ es ∧
  models es ≤ S (ac_max_iterations cfg - start) ∧ length (tool_calls es) ≤ ac_max_iterations cfg - start ∧
  ∀ t co', run_res (_loop env cfg vocab me query run steps effects history start co) w = Ok (t, co') → re_answer (rt_end t) ≠ "".
Proof using All.
  destruct (whole_loop query run steps effects history start co w) as (es & E & r' & (called & Hc & Hnd & Hl & Hm & _) & Hr). exists es.
  split; [exact E|]. split; [exact Hm|]. split; [by rewrite Hc, length_map|]. intros t co' Ht. destruct (Hr t co' Ht) as (s & e & _ & -> & _).
  unfold trace_of. cbn [rt_end]. destruct (re_answer e) as [|c a] eqn:Ea; cbn [str_truthy]; [done|]. by rewrite Ea.
Qed.


(** C7. Where the loop may ask the owner, no call of a run that was not resumed counts as confirmed: to confirm a
    held write the run has to stop and ask. *)
Theorem fresh_run_unconfirmed query run co w : ac_allow_ask_user cfg = true → ∃ es,
  log (run_state (run_loop env cfg vocab me query run co) w) = log w ++ es ∧ Forall (λ c, tc_asked_user c.2 = false) (tool_calls es).
Proof using All.
  intros Ha. destruct (whole_loop query run [] [] [] 0 co w) as (es & E & r' & (called & Hc & _ & _ & _ & _ & Hq & _) & _). exists es. split; [exact E|].
  rewrite Hc. apply Forall_fmap. apply Hq; [done|]. done.
Qed.


(** ** The answer to an approval *)

(** The pinned calls of the approval [id], one after the other: what each left in the log, and its result. *)
Inductive pinned_runs (id : string) : list (string * pydict) → list LoopEvent → list string → Prop :=
| pr_none : pinned_runs id [] [] []
| pr_one tool args items co call w x w' es es' results :
    _execute_tool env co tool args call false w = (Ok x, w') → log w' = log w ++ es → tc_approved_by call = Some id →
    pinned_runs id items es' results →
    pinned_runs id ((tool, args) :: items) (es ++ es') ((tool +:+ ": " +:+ st_observation x) :: results).

(** What a computation leaves, with the world it was made in. *)
Lemma leaves_in {A} (m : M W A) Q : leaves log m Q → leaves log m (λ r es, Q r es ∧ ∃ w w', m w = (r, w') ∧ log w' = log w ++ es).
Proof using Type.
  intros H w. destruct (H w) as (es & E & HQ). exists es. split; [done|]. split; [done|]. exists w, (run_state m w).
  split; [|done]. unfold run_res, run_state. by destruct (m w).
Qed.

Lemma pinned_holds id held run step tainted items co : leaves log (run_pinned env id held run step tainted items co) (λ r es,
  models es = 0 ∧ Forall (λ c, tc_approved_by c.2 = Some id) (tool_calls es) ∧ sublist (map (λ c, c.1.2) (tool_calls es)) (map snd items) ∧
  ∀ y, r = Ok y → pinned_runs id items es y.2).
Proof using W env log LoopWorld0.
  revert co. induction items as [|[tool args] items IH]; intros co; cbn [run_pinned].
  { apply leaves_ret. cbn. split_and!; [done|by constructor|constructor|]. intros y [= <-]. constructor. }
  assert (∀ es call, models es = 0 → (tool_calls es = [] ∨ ∃ n, tool_calls es = [(n, args, call)]) → tc_approved_by call = Some id → ∀ es2,
    models es2 = 0 → Forall (λ c, tc_approved_by c.2 = Some id) (tool_calls es2) → sublist (map (λ c, c.1.2) (tool_calls es2)) (map snd items) →
    models (es ++ es2) = 0 ∧ Forall (λ c, tc_approved_by c.2 = Some id) (tool_calls (es ++ es2)) ∧
    sublist (map (λ c, c.1.2) (tool_calls (es ++ es2))) (map snd ((tool, args) :: items))) as Happ.
  { intros es call Hm Ht Hap es2 Hm2 Hf2 Hs2. rewrite models_app, tool_calls_app, map_app. split; [lia|].
    destruct Ht as [-> | [n ->]]; cbn; (split; [try constructor; done|]); by constructor. }
  eapply leaves_bind; [apply leaves_in, execute_leaves|..].
  - intros x es [(Hm & _ & Ht) (w & w' & Hx & Hlog)]. eapply leaves_bind; [apply IH|..].
    + intros [[co' ef] results] es2 (Hm2 & Hf2 & Hs2 & Hp2). apply leaves_ret. rewrite app_nil_r.
      destruct (Happ es _ Hm Ht eq_refl es2 Hm2 Hf2 Hs2) as (H1 & H2 & H3). split_and!; [exact H1|exact H2|exact H3|].
      intros y [= <-]. eapply pr_one; [exact Hx|exact Hlog|done|]. exact (Hp2 _ eq_refl).
    + intros e es2 (Hm2 & Hf2 & Hs2 & _). destruct (Happ es _ Hm Ht eq_refl es2 Hm2 Hf2 Hs2) as (H1 & H2 & H3). by split_and!.
  - intros e es [(Hm & _ & Ht) _]. destruct (Happ es _ Hm Ht eq_refl [] eq_refl (Forall_nil_2 _) (sublist_nil_l _)) as (H1 & H2 & H3).
    rewrite app_nil_r in H1, H2, H3. by split_and!.
Qed.

Lemma bind_at {A B} (m : M W A) (k : A → M W B) w : (m ≫= k) w = match m w with (Ok a, w') => k a w' | (Raise e, w') => (Raise e, w') end.
Proof using Type. unfold mbind, M_bind. by destruct (m w) as [[]]. Qed.

(** What the run is told for the owner's answer, where [es] is what the settlement left. *)
Definition told (id : string) (verdict : option (string * list (string * pydict))) (es : list LoopEvent) (o : string) : Prop :=
  match verdict with
  | Some (status, items) =>
      if String.eqb status "approved"
      then ∃ results, pinned_runs id items es results ∧ o = _APPROVAL_APPROVED +:+ " Results:" +:+ nl +:+ join nl results
      else tool_calls es = [] ∧ startswith (if String.eqb status "rejected" then _APPROVAL_REJECTED else _APPROVAL_SETTLED +:+ status) o = true
  | None => tool_calls es = [] ∧ startswith _APPROVAL_UNREADABLE o = true
  end.

(** What the calls of the settlement are made for. *)
Definition settles_by (id : string) (verdict : option (string * list (string * pydict))) (es : list LoopEvent) : Prop :=
  tool_calls es ≠ [] → ∃ items, verdict = Some ("approved", items) ∧ sublist (map (λ c, c.1.2) (tool_calls es)) (map snd items) ∧
    Forall (λ c, tc_approved_by c.2 = Some id) (tool_calls es).

Lemma settle_holds id sd co verdict : leaves log (settle_with env id sd co verdict) (λ r es, models es = 0 ∧ settles_by id verdict es ∧
  ∀ sd' co' effects, r = Ok (sd', co', effects) → ∃ o, sd' = settled_seed sd o ∧ told id verdict es o).
Proof using W env log LoopWorld0.
  assert (∀ x, told id verdict [] x → leaves log (mret (settled_seed sd x, co, [] : list string) : M W (ResumeSeed * Core * list string)) (λ r es, models es = 0 ∧
    settles_by id verdict es ∧ ∀ sd' co' effects, r = Ok (sd', co', effects) → ∃ o, sd' = settled_seed sd o ∧ told id verdict es o)) as Hplain.
  { intros x Hx. apply leaves_ret. split; [done|]. split; [by intros Hne; destruct Hne|]. intros sd' co' ef [= <- <- <-]. by exists x. }
  unfold settle_with. destruct verdict as [[status items]|].
  2: { apply Hplain. split; [done|]. apply (proj2 (prefix_spec _ _)). eexists. reflexivity. }
  destruct (String.eqb_spec status "approved") as [->|Hna].
  - apply quiet_bind; [intros w; destruct (le_approval_call_id env) as [f|] eqn:Ef; [by eapply lw_call_id|done]| |].
    2: { intros e. split; [done|]. split; [by intros Hne; destruct Hne|done]. }
    intros held. eapply leaves_bind; [apply pinned_holds|..].
    + intros [[co' ef] results] es (Hm & Hf & Hs & Hp). apply leaves_ret. rewrite app_nil_r. split; [done|]. split; [by intros _; exists items|].
      intros sd' co2 ef2 [= <- <- <-]. eexists. split; [done|]. exists results. split; [exact (Hp _ eq_refl)|done].
    + intros e es (Hm & Hf & Hs & _). split; [done|]. split; [by intros _; exists items|done].
  - apply String.eqb_neq in Hna. destruct (String.eqb status "rejected") eqn:Hr; apply Hplain; unfold told; rewrite Hna, Hr; (split; [done|]);
      apply (proj2 (prefix_spec _ _)); eexists; rewrite ?string_app_assoc; reflexivity.
Qed.

(** The owner's answer, as the settlement reads it. *)
Definition owner_answer (sd : ResumeSeed) (w : W) : res (option (string * list (string * pydict))) :=
  match le_read_approval env with
  | Some read => run_res (read (text_or (sd_pending_approval_id sd))) (run_state (le_mark_resumed env (sd_run_id sd)) w)
  | None => Ok None
  end.

Lemma settlement sd co : ∀ w, ∃ es, log (run_state (_settle_pending_approval env sd co) w) = log w ++ es ∧ models es = 0 ∧
  (tool_calls es ≠ [] → ∃ verdict, waits sd = true ∧ owner_answer sd w = Ok verdict ∧ settles_by (text_or (sd_pending_approval_id sd)) verdict es) ∧
  ∀ sd' co' effects, run_res (_settle_pending_approval env sd co) w = Ok (sd', co', effects) →
    (waits sd = false ∧ sd' = sd ∧ es = []) ∨
    ∃ verdict o, waits sd = true ∧ owner_answer sd w = Ok verdict ∧ sd' = settled_seed sd o ∧ told (text_or (sd_pending_approval_id sd)) verdict es o.
Proof using W env log LoopWorld0.
  intros w. unfold _settle_pending_approval, owner_answer. pose proof (lw_mark (sd_run_id sd) w) as Hmark. rewrite bind_at.
  destruct (le_mark_resumed env (sd_run_id sd) w) as [[u|ex] w1] eqn:Em; cbn in Hmark; [|exists []; rewrite app_nil_r; cbn; split_and!; done].
  destruct (waits sd) eqn:Hw; cbn [negb].
  2: { exists []. cbn. rewrite app_nil_r. split_and!; [done|done|done|]. intros sd' co' ef [= <- <- <-]. by left. }
  change (run_state (pair (Ok u)) w1) with w1. set (id := text_or (sd_pending_approval_id sd)). cbv zeta. rewrite bind_at. destruct (le_read_approval env) as [read|] eqn:Er.
  - pose proof (lw_read read id w1 Er) as Hrd. destruct (read id w1) as [[verdict|ex] w2] eqn:E; cbn in Hrd.
    + destruct (settle_holds id sd co verdict w2) as (es & Es & Hm & Ht & Hr). exists es. split; [etrans; [exact Es|by rewrite Hrd, Hmark]|]. split; [done|].
      split; [by intros Hne; exists verdict|]. intros sd' co' ef Hres. right. destruct (Hr _ _ _ Hres) as (o & -> & Ho). by exists verdict, o.
    + exists []. rewrite app_nil_r. split_and!; [etrans; [exact Hrd|done]|done|done|done].
  - destruct (settle_holds id sd co None w1) as (es & Es & Hm & Ht & Hr). exists es. split; [etrans; [exact Es|by rewrite Hmark]|]. split; [done|].
    split; [by intros Hne; exists None|]. intros sd' co' ef Hres. right. destruct (Hr _ _ _ Hres) as (o & -> & Ho). by exists None, o.
Qed.

Lemma waits_for sd : waits sd = true → ∃ id pre s, sd_pending_approval_id sd = Some id ∧ sd_steps sd = pre ++ [s].
Proof using Type.
  unfold waits. intros [Hp Hs]%andb_true_iff. destruct (sd_pending_approval_id sd) as [id|]; [|done].
  destruct (sd_steps sd) as [|y l] eqn:E; [done|]. destruct (exists_last (l := y :: l)) as (pre & x & ->); [done|]. by exists id, pre, x.
Qed.

Lemma map_last_snoc {A} (g : A → A) l x : map_last g (l ++ [x]) = l ++ [g x].
Proof using Type. unfold map_last. by rewrite last_snoc, removelast_last. Qed.

(** C6. Settling the approval a run waited for calls no model, and calls a tool only when the owner's answer reads approved: then
    with the pinned arguments, in their order, each claiming that approval. The last step of the run then shows what came of it
    ([told]): of an approved one the result of each pinned call, in order and under its tool's name; of a rejected, another or an
    unreadable answer the words for it, and no call was made. The rest of the run is as it was, and it waits no more. *)
Theorem settled_calls_pinned sd co w : ∃ es,
  log (run_state (_settle_pending_approval env sd co) w) = log w ++ es ∧ models es = 0 ∧
  (tool_calls es ≠ [] → ∃ id items, sd_pending_approval_id sd = Some id ∧ owner_answer sd w = Ok (Some ("approved", items)) ∧
    sublist (map (λ c, c.1.2) (tool_calls es)) (map snd items) ∧ Forall (λ c, tc_approved_by c.2 = Some id) (tool_calls es)) ∧
  ∀ sd' co' effects, run_res (_settle_pending_approval env sd co) w = Ok (sd', co', effects) →
    (waits sd = false ∧ sd' = sd ∧ tool_calls es = []) ∨
    ∃ id verdict o pre s, sd_pending_approval_id sd = Some id ∧ owner_answer sd w = Ok verdict ∧ told id verdict es o ∧
      sd_steps sd = pre ++ [s] ∧ sd_steps sd' = pre ++ [with_observation (Some o) (stored_step s)] ∧
      sd_pending_approval_id sd' = None ∧ sd_run_id sd' = sd_run_id sd ∧ sd_query sd' = sd_query sd ∧ sd_start sd' = sd_start sd.
Proof using W env log LoopWorld0.
  destruct (settlement sd co w) as (es & E & Hm & Ht & Hr). exists es. split; [exact E|]. split; [exact Hm|]. split.
  - intros Hne. destruct (Ht Hne) as (verdict & (id & pre & s & Hid & _)%waits_for & Ho & Hs). rewrite Hid in Hs.
    destruct (Hs Hne) as (items & -> & H1 & H2). by exists id, items.
  - intros sd' co' ef Hres. destruct (Hr _ _ _ Hres) as [(? & ? & ->)|(verdict & o & (id & pre & s & Hid & Hst)%waits_for & Ho & -> & Htold)]; [by left|right].
    rewrite Hid in Htold. exists id, verdict, o, pre, s. split_and!; try done. cbn. by rewrite Hst, map_last_snoc.
Qed.

(** ** A run that goes on *)

(** The observation of the step that asked, when the owner replied. *)
Definition replied (reply : option string) (s : ReactStep) : option string :=
  if has_text reply
  then Some (resume_observation (let o := text_or (rs_observation s) in if str_truthy o then o else "Asked the user something.") (str_strip (text_or reply)))
  else rs_observation s.

Lemma rebuild_app l1 l2 : _rebuild_history (l1 ++ l2) = _rebuild_history l1 ++ _rebuild_history l2.
Proof using Type. unfold _rebuild_history, select_where. by rewrite List.filter_app, map_app. Qed.

(** The seed of a run with stored steps: what it is before the settlement, and what it is after. *)
Lemma seed_steps ck reply pre s : cp_steps (ck_payload ck) = pre ++ [s] →
  sd_steps (resume_seed_from_checkpoint ck reply) = pre ++ [with_observation (replied reply s) s].
Proof using Type.
  intros H. unfold resume_seed_from_checkpoint, replied. rewrite H. cbn. destruct (has_text reply); [by rewrite map_last_snoc|].
  do 2 f_equal. by destruct s.
Qed.

Lemma settled_history pre s o : rs_failed s = false → ∀ sd, sd_steps sd = pre ++ [s] → sd_history sd = _rebuild_history (pre ++ [s]) →
  sd_steps (settled_seed sd o) = pre ++ [with_observation (Some o) s] ∧ sd_history (settled_seed sd o) = _rebuild_history (pre ++ [with_observation (Some o) s]).
Proof using Type.
  intros Hf sd Hs Hh. unfold settled_seed. cbn. rewrite Hs, Hh, map_last_snoc, last_snoc, !rebuild_app. split.
  - do 2 f_equal. destruct s. cbn in *. by subst.
  - unfold _rebuild_history, select_where. cbn [List.filter with_observation rs_action]. destruct (has_text (rs_action s)); [|done]. cbn [map].
    by rewrite map_last_snoc.
Qed.

Lemma taken_up ck reply co2 w2 sd2 co3 effects2 w3 :
  _settle_pending_approval env (resume_seed_from_checkpoint ck reply) co2 w2 = (Ok (sd2, co3, effects2), w3) →
  resume_from_checkpoint env cfg vocab me ck reply co2 w2
  = _loop env cfg vocab me (sd_query sd2) (sd_run_id sd2) (sd_steps sd2) effects2 (sd_history sd2) (sd_start sd2) co3 w3.
Proof using Type. intros H. unfold resume_from_checkpoint, run_from_seed. by rewrite bind_at, H. Qed.

Lemma loop_extends query run steps effects history start co w t co' : run_res (_loop env cfg vocab me query run steps effects history start co) w = Ok (t, co') →
  rt_query t = query ∧ rt_run_id t = run ∧ ∃ ys, rt_steps t = steps ++ ys.
Proof using All.
  intros Hrun. destruct (whole_loop query run steps effects history start co w) as (es & _ & r' & (called & _ & _ & _ & _ & _ & _ & Hend) & Hr).
  destruct (Hr t co' Hrun) as (s & e & -> & -> & ->). destruct Hend as [_ (ys & Hys & _)]. split; [done|]. split; [done|]. by exists ys.
Qed.

(** C9. A run that paused with a checkpoint can be taken up where it stopped. The run wrote one checkpoint; resuming it, with a
    reply of the owner's or none, once the approval it waits for is settled, is the loop of the same question and run id, from the
    turn after the one it stopped in, over the steps of the stopped run and their transcript, where only the observation of the
    last step is new: the reply's when there is one and no approval was waited for, the settlement's ([told]) when one was. The
    trace that run ends with begins with these steps. It has the turns that are left and no more: none, when the run stopped in
    its last ([last_turn_question] below). *)
Theorem pause_resumes query run steps effects history start co w t co' :
  run_res (_loop env cfg vocab me query run steps effects history start co) w = Ok (t, co') → re_checkpoint_id (rt_end t) ≠ None → ∃ es ck pre s,
  log (run_state (_loop env cfg vocab me query run steps effects history start co) w) = log w ++ es ∧ saved es = [ck] ∧
  map stored_step (rt_steps t) = pre ++ [s] ∧
  ∀ reply co2 w2 sd2 co3 effects2 w3, _settle_pending_approval env (resume_seed_from_checkpoint ck reply) co2 w2 = (Ok (sd2, co3, effects2), w3) →
  ∃ o es2, let steps2 := pre ++ [with_observation o s] in
    log w3 = log w2 ++ es2 ∧
    (has_text (re_pending_approval_id (rt_end t)) = false → o = replied reply s ∧ es2 = []) ∧
    (has_text (re_pending_approval_id (rt_end t)) = true → ∃ verdict text,
       owner_answer (resume_seed_from_checkpoint ck reply) w2 = Ok verdict ∧ o = Some text ∧ told (text_or (re_pending_approval_id (rt_end t))) verdict es2 text) ∧
    resume_from_checkpoint env cfg vocab me ck reply co2 w2
    = _loop env cfg vocab me query run steps2 effects2 (_rebuild_history steps2) (rt_iterations t) co3 w3 ∧
    ∀ t2 co4, run_res (resume_from_checkpoint env cfg vocab me ck reply co2) w2 = Ok (t2, co4) →
      rt_query t2 = query ∧ rt_run_id t2 = run ∧ ∃ ys, rt_steps t2 = steps2 ++ ys.
Proof using All.
  intros Hrun Hcp. destruct (whole_loop query run steps effects history start co w) as (es & E & r' & (called & _ & _ & _ & _ & _ & _ & Hend) & Hr).
  destruct (Hr t co' Hrun) as (s0 & e & -> & -> & ->). destruct Hend as [[_ Hck] (ys & Hys & Hne)]. unfold trace_of in *. cbn [rt_end rt_steps rt_iterations] in *.
  assert (re_checkpoint_id e ≠ None) as Hc by (by destruct (str_truthy (re_answer e))).
  assert (re_pending_approval_id (if str_truthy (re_answer e) then e else set_answer "Max iterations reached without a final answer." e) = re_pending_approval_id e)
    as -> by (by destruct (str_truthy (re_answer e))).
  destruct Hck as [Hn|[it Hck]]; [done|]. destruct (Hck Hc) as [Hit Hsv]. destruct (exists_last (Hne Hc)) as (ys' & y & Hy).
  assert (map stored_step (ls_steps s0) = map stored_step (steps ++ ys') ++ [stored_step y]) as Hst by (rewrite Hys, Hy, app_assoc, map_app; done).
  eexists es, _, _, _. split; [exact E|]. split; [exact Hsv|]. split; [exact Hst|].
  set (ck := {| ck_run_id := run |}). set (pre := map stored_step (steps ++ ys')) in *. set (s := stored_step y) in *.
  intros reply co2 w2 sd2 co3 effects2 w3 Hset.
  assert (cp_steps (ck_payload ck) = pre ++ [s]) as Hcs by exact Hst. pose proof (seed_steps ck reply pre s Hcs) as Hseed.
  set (sd := resume_seed_from_checkpoint ck reply) in *.
  assert (sd_pending_approval_id sd = re_pending_approval_id e) as Hpend by done.
  assert (waits sd = has_text (re_pending_approval_id e)) as Hw.
  { unfold waits. rewrite Hpend, Hseed. by destruct pre; cbn [app]; rewrite andb_true_r. }
  destruct (settlement sd co2 w2) as (es2 & E2 & _ & Hq & Hr2). rewrite Hset in E2. cbn in E2.
  destruct (Hr2 sd2 co3 effects2) as [(Hwf & -> & Hes)|(verdict & o & Hwt & Ho & -> & Htold)]; [unfold run_res; by rewrite Hset|..].
  - exists (replied reply s), []. rewrite Hw in Hwf. rewrite Hwf. split; [by rewrite E2, Hes|]. split; [done|]. split; [done|].
    assert (resume_from_checkpoint env cfg vocab me ck reply co2 w2 = _loop env cfg vocab me query run (pre ++ [with_observation (replied reply s) s]) effects2
      (_rebuild_history (pre ++ [with_observation (replied reply s) s])) (ls_iterations s0) co3 w3) as Heq.
    { etrans; [eapply taken_up, Hset|]. change (sd_history sd) with (_rebuild_history (sd_steps sd)). by rewrite Hseed, Hit. }
    split; [exact Heq|]. intros t2 co4 Ht2. unfold run_res in Ht2. rewrite Heq in Ht2. by apply loop_extends in Ht2.
  - exists (Some o), es2. rewrite Hw in Hwt. rewrite Hwt. rewrite Hpend in Htold. split; [exact E2|]. split; [done|]. split; [by exists verdict, o|].
    destruct (settled_history pre (with_observation (replied reply s) s) o eq_refl sd Hseed ltac:(by rewrite <- Hseed)) as [Hs2 Hh2].
    assert (resume_from_checkpoint env cfg vocab me ck reply co2 w2 = _loop env cfg vocab me query run (pre ++ [with_observation (Some o) s]) effects2
      (_rebuild_history (pre ++ [with_observation (Some o) s])) (ls_iterations s0) co3 w3) as Heq.
    { etrans; [eapply taken_up, Hset|]. rewrite Hs2, Hh2, Hit. done. }
    split; [exact Heq|]. intros t2 co4 Ht2. unfold run_res in Ht2. rewrite Heq in Ht2. by apply loop_extends in Ht2.
Qed.
End turns.

(** ** Over the kernel and the governed runner *)

Section governed.
Context {W : Type} `{!Part W CallState, !Part W TurnState, !Part W TaintCache, !Part W (list string)}.
Context (kenv : KernelEnv W) (audit_digester : W → res AuditDigester) (taint_file_now : W → taint_file).
Context (bodies : LoopTool → EgressScope → pydict → M W ToolEnd) (fresh : W → RunnerFresh).

Definition note_effect (effect : string) (w : W) : W := set_part ((part w : list string) ++ [effect]) w.

(** [self._tool_runner().execute(tool, args, ToolCall(...), effects=effects)] *)
Definition governed_call (kernel : option (GovernanceKernel W)) (r : GovernedToolRunner) (t : LoopTool) (args : pydict) (call : Caller)
    : M W (ToolOutcome * list string) :=
  modify (set_part ([] : list string));;
  f ← gets fresh;
  o ← execute kenv audit_digester taint_file_now note_effect kernel r (lt_spec t) (bodies t) args call f;
  effects ← gets (λ w, part w : list string);
  mret (o, effects).

(** The loop's surroundings with the kernel in them: [_governance_pre_llm], [_tool_runner] and [_fire_post_step]. *)
Definition governed_env (kernel : option (GovernanceKernel W)) (me : LoopIdentity) (identity : option (string * string)) (base : LoopEnv W) : LoopEnv W :=
  {| le_prompt := le_prompt base;
     le_pre_llm := λ floor query prompt run step label n,
       loop_pre_llm kenv kernel {| lp_agent_type := li_agent_type me; lp_target_tier := li_target_tier me; lp_earned_floor := floor; lp_identity := identity |}
         query prompt run label (Some (Z.of_nat step)) (fst <$> n) (snd <$> n);
     le_llm := le_llm base;
     le_call := governed_call kernel {| gr_agent_type := li_agent_type me; gr_origin_channel := Some (li_origin_channel me); gr_session_id := li_session_id me;
       gr_resumable := match le_write_checkpoint base, le_link base, le_read_approval base with Some _, Some _, Some _ => true | _, _, _ => false end |};
     le_post_step := match kernel with Some k => Some (λ ctx, dc ← fire k kenv POST_STEP ctx; mret dc.1) | None => None end;
     le_now := le_now base; le_write_checkpoint := le_write_checkpoint base; le_link := le_link base; le_read_approval := le_read_approval base;
     le_approval_call_id := le_approval_call_id base; le_report := le_report base; le_mark_resumed := le_mark_resumed base;
     le_close_match := le_close_match base; le_sha1 := le_sha1 base; le_float_repr := le_float_repr base |}.
End governed.

(** ** Samples *)

(** A model that says one line after the other; an approval that reads [bn_answer]. *)
Record Bench := { bn_log : list LoopEvent; bn_replies : list string; bn_answer : option (string * list (string * pydict)) }.
Definition jot (e : LoopEvent) (w : Bench) : Bench := {| bn_log := bn_log w ++ [e]; bn_replies := bn_replies w; bn_answer := bn_answer w |}.

Definition bench_outcome (st : ToolStatus) (text : string) (d : option HookDecision) : ToolOutcome :=
  {| to_status := st; to_text := text; to_ok := true; to_decision := d; to_approval_card := None; to_classification := None; to_post := None; to_call_id := Some "c" |}.
(** A confirm-once write is held until the run asked; a destructive call until it is approved. *)
Definition bench_call (t : LoopTool) (args : pydict) (call : Caller) : M Bench (ToolOutcome * list string) := λ w,
  let wait id := {| outcome := require_approval; reason := "ask first"; transformed_payload := None; set_classification := None; set_tier := None;
                    approval_request_id := id; severity := info; audit_metadata := ∅; decided_by := None |} in
  (Ok (if String.eqb (ts_confirm (lt_spec t)) "once" && negb (tc_asked_user call) then (bench_outcome held "" (Some (wait None)), [])
       else if _needs_card t && negb (present_ (tc_approved_by call)) then (bench_outcome held "" (Some (wait (Some "a1"))), [])
       else (bench_outcome ran ("ran " +:+ lt_name t) None, if String.eqb (lt_effect t) "read" then [] else [lt_effect t])),
   jot (ev_tool (lt_name t) args call) w).
Definition bench_env : LoopEnv Bench :=
  {| le_prompt := λ q _ h _ _ _, join nl (q :: h);
     le_pre_llm := λ _ _ p _ _ l _, mret (None, p, l);
     le_llm := λ p w, match bn_replies w with
                      | [] => (Raise (Exn "ConnectionError" "no model"), jot ev_model w)
                      | r :: rs => (Ok r, {| bn_log := bn_log w ++ [ev_model]; bn_replies := rs; bn_answer := bn_answer w |})
                      end;
     le_call := bench_call; le_post_step := None; le_now := mret 0%Z;
     le_write_checkpoint := Some (λ ck w, (Ok (ck_run_id ck, ck_step_id ck), jot (ev_saved ck) w));
     le_link := Some (λ _ _, mret tt); le_read_approval := Some (λ _, gets bn_answer); le_approval_call_id := None;
     le_report := λ _, mret tt; le_mark_resumed := λ _, mret tt; le_close_match := λ _ _ _, None; le_sha1 := id; le_float_repr := id |}.
#[export] Instance bench_world : LoopWorld bench_env bn_log.
Proof.
  split; cbn; try done.
  - intros p w. by destruct (bn_replies w).
  - by intros write ck w [= <-].
  - by intros link a c w [= <-].
  - by intros read a w [= <-].
Qed.

Definition bench_tool (name effect confirm : string) : LoopTool :=
  {| lt_spec := {| ts_name := name; ts_effect := effect; ts_confirm := confirm; ts_describe := None; ts_undo := None; ts_undo_window_days := None; ts_validate := None;
                   ts_content := "internal"; ts_verify := None; ts_sends_to := None; ts_plugin := "system" |}; lt_answers_directly := false |}.
Definition bench_tools : list LoopTool := [bench_tool "calendar" "read" "never"; bench_tool "remind" "write" "once"; bench_tool "trash" "destructive" "approval"].
Definition bench_cfg (turns : nat) (ask : bool) : AgenticCoreConfig :=
  {| ac_max_iterations := turns; ac_timeout := 120 * SECOND; ac_stall_limit := 2; ac_history_budget := None; ac_allow_ask_user := ask; ac_read_first := false |}.
Definition bench_words : ClaimVocabulary :=
  {| cv_claim := Some (str_contains "deleted"); cv_negation := Some (str_contains "not"); cv_prior := None; cv_whole := ["done"]; cv_promise := None; cv_conditional := None |}.
Definition bench_me : LoopIdentity := {| li_agent_type := "chat"; li_origin_channel := "console"; li_session_id := None; li_target_tier := None |}.
Definition says (replies : list string) (answer : option (string * list (string * pydict))) : Bench := {| bn_log := []; bn_replies := replies; bn_answer := answer |}.
Definition acting (name : string) (n : string) : string := "Action: " +:+ name +:+ nl +:+ "Action Input: {" +:+ json_str "n" +:+ ": " +:+ n +:+ "}".
Definition bench_run (turns : nat) (ask : bool) (replies : list string) : res (ReactTrace * Core) * Bench :=
  run_loop bench_env (bench_cfg turns ask) bench_words bench_me "clean up" "r1" (new_core bench_tools [] None) (says replies None).
Definition answered (x : res (ReactTrace * Core) * Bench) : option (string * bool) :=
  match x.1 with Ok (t, _) => Some (re_answer (rt_end t), re_success (rt_end t)) | Raise _ => None end.

(** A look-up, the same look-up again, and the answer of the synthesis. *)
Example repeated_lookup : let x := bench_run 10 true [acting "calendar" "1"; acting "calendar" "1"; "Final Answer: two meetings"] in
  answered x = Some ("two meetings", true) ∧ length (tool_calls (bn_log x.2)) = 1 ∧ models (bn_log x.2) = 3.
Proof. by vm_compute. Qed.
(** The same look-up under another spelling of the tool's name is another call. *)
Example same_tool_other_name : let x := bench_run 10 true [acting "calendar" "1"; acting "Calendar" "1"; "Final Answer: two meetings"] in
  map (λ c, c.1) (tool_calls (bn_log x.2)) = [("calendar", [("n", VInt 1)]); ("calendar", [("n", VInt 1)])].
Proof. by vm_compute. Qed.
(** An unbacked claim is turned back once and then replaced. *)
Example unbacked_claim : answered (bench_run 10 true ["Final Answer: I deleted them."; "Final Answer: I deleted them."]) = Some (UNBACKED_CLAIM_ANSWER, true).
Proof. by vm_compute. Qed.
(** A run that waits for an approval, and its answer. *)
Definition bench_paused : ResumeSeed :=
  match saved (bn_log (bench_run 10 true [acting "trash" "3"]).2) with
  | ck :: _ => resume_seed_from_checkpoint ck None
  | [] => {| sd_run_id := ""; sd_query := ""; sd_steps := []; sd_history := []; sd_start := 0; sd_pending_approval_id := None |}
  end.
Definition bench_resume (status : string) (replies : list string) : res (ReactTrace * Core) * Bench :=
  run_from_seed bench_env (bench_cfg 10 true) bench_words bench_me bench_paused (new_core bench_tools [] None) (says replies (Some (status, [("trash", [("n", VInt 3)])]))).
Example approved_runs : let x := bench_resume "approved" ["Final Answer: I deleted them."] in
  answered x = Some ("I deleted them.", true) ∧ map (λ c, (c.1, tc_approved_by c.2)) (tool_calls (bn_log x.2)) = [(("trash", [("n", VInt 3)]), Some "a1")].
Proof. by vm_compute. Qed.

(** A rejected call counts as a change that was made: the claim that follows it is given out. *)
Example rejected_call_backs_claim : let x := bench_resume "rejected" ["Final Answer: I deleted them."] in
  answered x = Some ("I deleted them.", true) ∧ tool_calls (bn_log x.2) = [].
Proof. by vm_compute. Qed.

(** Where the loop is not to ask, a made-up question confirms a held write. *)
Example unasked_question_confirms : let x := bench_run 10 false [acting "remind" "1"; acting "ask_user" "1"; acting "remind" "2"; "Final Answer: ok"] in
  map (λ c, (c.1.1, tc_asked_user c.2)) (tool_calls (bn_log x.2)) = [("remind", false); ("remind", true)].
Proof. by vm_compute. Qed.

(** A question asked in the last turn is answered in vain. *)
Example last_turn_question : let x := bench_run 1 true [acting "ask_user" "1"] in
  match saved (bn_log x.2) with
  | ck :: _ =>
      let y := resume_from_checkpoint bench_env (bench_cfg 1 true) bench_words bench_me ck (Some "yes") (new_core bench_tools [] None) (says ["Final Answer: ok"] None) in
      answered y = Some ("Max iterations reached without a final answer.", false) ∧ bn_log y.2 = []
  | [] => False
  end.
Proof. by vm_compute. Qed.

(** ** Witnesses *)

Definition bench_core : Core := new_core bench_tools [] None.
Definition lookups : Bench := says [acting "calendar" "1"; acting "calendar" "1"; "Final Answer: two meetings"] None.
Definition bench_loop (turns : nat) (w : Bench) : res (ReactTrace * Core) * Bench :=
  _loop bench_env (bench_cfg turns true) bench_words bench_me "clean up" "r1" [] [] [] 0 bench_core w.

Lemma run_bounded_witness : ∃ es, bn_log (bench_loop 10 lookups).2 = es ∧ models es ≤ 11 ∧ length (tool_calls es) ≤ 10 ∧
  ∀ t co', (bench_loop 10 lookups).1 = Ok (t, co') → re_answer (rt_end t) ≠ "".
Proof. exact (run_bounded bench_env bn_log (bench_cfg 10 true) bench_words bench_me "clean up" "r1" [] [] [] 0 bench_core lookups). Defined.


Lemma fresh_run_unconfirmed_witness : ∃ es, bn_log (bench_run 10 true [acting "remind" "1"; acting "remind" "2"]).2 = es ∧
  Forall (λ c, tc_asked_user c.2 = false) (tool_calls es).
Proof.
  exact (fresh_run_unconfirmed bench_env bn_log (bench_cfg 10 true) bench_words bench_me "clean up" "r1" bench_core
           (says [acting "remind" "1"; acting "remind" "2"] None) eq_refl).
Defined.

Definition trashing : Bench := says [acting "trash" "3"] None.
Definition trace_in (x : res (ReactTrace * Core) * Bench) : ReactTrace * Core :=
  match x.1 with Ok y => y | Raise _ => (trace_of "" "" (started_with "" [] [] [] 0 bench_core) (ended "" false), bench_core) end.


(** The run waits for an approval, the owner approves, and the run goes on. *)
Definition bench_checkpoint : Checkpoint :=
  match saved (bn_log (bench_loop 10 trashing).2) with
  | ck :: _ => ck
  | [] => {| ck_run_id := ""; ck_step_id := 0; ck_signal := ""; ck_payload := {| cp_query := ""; cp_steps := []; cp_iteration := 0; cp_halt_reason := None; cp_pending_approval_id := None |} |}
  end.
Definition approving : Bench := says ["Final Answer: I deleted them."] (Some ("approved", [("trash", [("n", VInt 3)])])).
Definition bench_stopped : ReactTrace * Core := Eval vm_compute in trace_in (bench_loop 10 trashing).
Definition bench_settled : ResumeSeed * Core * list string * Bench :=
  Eval vm_compute in
    match _settle_pending_approval bench_env (resume_seed_from_checkpoint bench_checkpoint None) bench_core approving with
    | (Ok x, w) => (x, w)
    | (Raise _, w) => ((resume_seed_from_checkpoint bench_checkpoint None, bench_core, []), w)
    end.
Definition bench_finished : ReactTrace * Core :=
  Eval vm_compute in trace_in (resume_from_checkpoint bench_env (bench_cfg 10 true) bench_words bench_me bench_checkpoint None bench_core approving).

Lemma bench_stops : run_res (_loop bench_env (bench_cfg 10 true) bench_words bench_me "clean up" "r1" [] [] [] 0 bench_core) trashing = Ok (bench_stopped.1, bench_stopped.2).
Proof. vm_compute. reflexivity. Qed.
Lemma bench_saves : saved (bn_log (run_state (_loop bench_env (bench_cfg 10 true) bench_words bench_me "clean up" "r1" [] [] [] 0 bench_core) trashing)) = [bench_checkpoint].
Proof. vm_compute. reflexivity. Qed.
Lemma bench_one_step : length (map stored_step (rt_steps bench_stopped.1)) = 1.
Proof. vm_compute. reflexivity. Qed.
Lemma bench_waited : has_text (re_pending_approval_id (rt_end bench_stopped.1)) = true.
Proof. vm_compute. reflexivity. Qed.
Lemma bench_settles : _settle_pending_approval bench_env (resume_seed_from_checkpoint bench_checkpoint None) bench_core approving
  = (Ok (bench_settled.1.1.1, bench_settled.1.1.2, bench_settled.1.2), bench_settled.2).
Proof. vm_compute. reflexivity. Qed.
Lemma bench_answer : owner_answer bench_env (resume_seed_from_checkpoint bench_checkpoint None) approving = Ok (Some ("approved", [("trash", [("n", VInt 3)])])).
Proof. vm_compute. reflexivity. Qed.
Lemma bench_finishes : run_res (resume_from_checkpoint bench_env (bench_cfg 10 true) bench_words bench_me bench_checkpoint None bench_core) approving
  = Ok (bench_finished.1, bench_finished.2).
Proof. vm_compute. reflexivity. Qed.
Lemma bench_says : re_answer (rt_end bench_finished.1) = "I deleted them.".
Proof. vm_compute. reflexivity. Qed.

Lemma pause_resumes_witness : ∃ s o ys, [s] = map stored_step (rt_steps bench_stopped.1) ∧
  rt_steps bench_finished.1 = with_observation (Some o) s :: ys ∧ rt_run_id bench_finished.1 = "r1" ∧
  startswith _APPROVAL_APPROVED o = true ∧ re_answer (rt_end bench_finished.1) = "I deleted them.".
Proof.
  destruct (pause_resumes bench_env bn_log (bench_cfg 10 true) bench_words bench_me "clean up" "r1" [] [] [] 0 bench_core trashing
           bench_stopped.1 bench_stopped.2 bench_stops ltac:(vm_compute; discriminate)) as (es & ck & pre & s & Hlog & Hsv & Hst & H).
  pose proof bench_saves as Hb. rewrite Hlog in Hb. change (bn_log trashing) with (@nil LoopEvent) in Hb. cbn [app] in Hb. rewrite Hsv in Hb. injection Hb as ->.
  pose proof bench_one_step as Hl. rewrite Hst, length_app in Hl. cbn [length] in Hl. destruct pre; [|cbn [length] in Hl; lia]. clear Hl.
  destruct (H None bench_core approving _ _ _ _ bench_settles) as (o & es2 & _ & _ & Hpend & _ & Hgo).
  destruct (Hpend bench_waited) as (verdict & text & Hv & -> & Htold). rewrite bench_answer in Hv. injection Hv as <-. destruct Htold as (results & _ & ->).
  destruct (Hgo bench_finished.1 bench_finished.2 bench_finishes) as (_ & Hid & ys & Hys).
  exists s, (_APPROVAL_APPROVED +:+ " Results:" +:+ nl +:+ join nl results), ys. split; [exact (eq_sym Hst)|]. split; [exact Hys|]. split; [exact Hid|].
  split; [apply (proj2 (prefix_spec _ _)); by eexists|exact bench_says].
Defined.

Definition owner_said (status : string) : Bench := says [] (Some (status, [("trash", [("n", VInt 3)])])).
Definition bench_ran : ResumeSeed * Core * list string * Bench :=
  Eval vm_compute in
    match _settle_pending_approval bench_env bench_paused bench_core (owner_said "approved") with
    | (Ok x, w) => (x, w)
    | (Raise _, w) => ((bench_paused, bench_core, []), w)
    end.
Lemma bench_runs : _settle_pending_approval bench_env bench_paused bench_core (owner_said "approved") = (Ok (bench_ran.1.1.1, bench_ran.1.1.2, bench_ran.1.2), bench_ran.2).
Proof. vm_compute. reflexivity. Qed.
Lemma bench_waits : waits bench_paused = true ∧ sd_pending_approval_id bench_paused = Some "a1" ∧
  owner_answer bench_env bench_paused (owner_said "approved") = Ok (Some ("approved", [("trash", [("n", VInt 3)])])).
Proof. vm_compute. done. Qed.
Lemma bench_told : option_map rs_observation (last (sd_steps bench_ran.1.1.1)) = Some (Some (_APPROVAL_APPROVED +:+ " Results:" +:+ nl +:+ "trash: ran trash")).
Proof. vm_compute. reflexivity. Qed.

Lemma settled_calls_pinned_witness : ∃ es results o, bn_log (run_state (_settle_pending_approval bench_env bench_paused bench_core) (owner_said "approved")) = es ∧
  pinned_runs bench_env bn_log "a1" [("trash", [("n", VInt 3)])] es results ∧ o = _APPROVAL_APPROVED +:+ " Results:" +:+ nl +:+ join nl results ∧
  o = _APPROVAL_APPROVED +:+ " Results:" +:+ nl +:+ "trash: ran trash".
Proof.
  destruct (settled_calls_pinned bench_env bn_log bench_paused bench_core (owner_said "approved")) as (es & Hlog & _ & _ & Hr). destruct bench_waits as (Hw & Hid & Hv).
  destruct (Hr bench_ran.1.1.1 bench_ran.1.1.2 bench_ran.1.2) as [(Hnw & _)|(id & verdict & o & pre & s & Hid' & Hv' & Htold & _ & Hsteps & _)];
    [unfold run_res; by rewrite bench_runs|congruence|].
  rewrite Hid in Hid'. injection Hid' as <-. rewrite Hv in Hv'. injection Hv' as <-. destruct Htold as (results & Hp & Ho).
  exists es, results, o. split; [exact Hlog|]. split; [exact Hp|]. split; [exact Ho|].
  pose proof bench_told as Hlast. rewrite Hsteps, last_snoc in Hlast. by injection Hlast.
Defined.
